(* ===== verification/_CoqProject ===== *)
-Q . S2P
Prelude.v
Kmonad.v
Params.v
Ring.v
Kstate.v
Spinlock.v
KString.v
Kalloc.v
Cprintf.v
Vm.v
Umem.v
Demo.v
Pgtab.v
Aspace.v
Sched.v
Ipc.v
Signal.v
Thread.v
Sleeplock.v
Bio.v
Cache.v
Log.v
Commit.v
Fs.v
Blockmap.v
Inode.v
Filewrite.v
Directory.v
Mkfs.v
Mkimage.v
Pipe.v
Console.v
File.v
Writefile.v
Proc.v
Fork.v
Syscall.v
Exec.v
Boot.v
Sysproc.v
Sysfile.v
Trap.v
Segments.v
Mp.v
Devices.v
User.v
Textutil.v
Fileutil.v
Init.v
Smallprog.v
Umalloc.v
Shell.v
Grammar.v
Shparse.v
Runcmd.v
Jacobi.v
JacobiNet.v
JacobiLinux.v
Sumvar.v
