(* ===== verification/Prelude.v ===== *)
(** * xv6 with messages and signals, and its programs

    The repository is the teaching kernel xv6 for x86, extended with system
    calls for messages between processes and for signals, and with user
    programs that use them.  The development models the kernel from the boot
    loader and the spinlocks to the system calls, the user library and the
    shell, the tool that makes the file system, and the two message-passing
    programs (the parallel Jacobi solver and the parallel sum) with the
    scheduling of their processes, as Rocq functions and step relations, and
    proves what makes the parts correct.

    ** How the code is represented

    - C integers are [Z]; the width is written out where a value is produced
      ([u32], [i32], ... in this file).  Memory is a finite map from addresses
      to bytes, structures in memory are read and written as bytes
      ([get_u32], [put_u32]), kernel structures are records ([Kstate.v]), the
      kernel's global variables are the record [kstate].
    - A kernel function is a computation of the monad [K] ([Kmonad.v]), which
      passes the state and returns, panics ([Panic]), is undefined in C
      ([Undef]: an index out of range, a null pointer), or gives up the CPU
      ([Susp]): [sched] and the spinning [acquire] suspend with the rest of
      the computation as a function of the state at the time it is resumed, so
      that the theorems quantify over what other processes and CPUs do in
      between.
    - Loops over tables are [for_each], [for_fold] and [for_break].  A loop
      that waits ([sleep] in a [while]) takes a [fuel] that bounds the number
      of wakeups and ends in [NoFuel]; [NoFuel] is an outcome of its own, so a
      theorem with an [Ok] outcome says that the fuel was enough (for the
      theorems without contention any fuel is).  Loops over arrays and lists
      of bounded size have the size as fuel.
    - The disk is the history of its block writes, newest first; the states
      that a crash can leave are the suffixes of the history.
    - A driver implements the class [Disk] ([Bio.v]) and is used through the
      laws [DiskLaws] ([Cache.v]), which memide.c is shown to satisfy.
      Floating point arithmetic of the programs is a class too ([Jacobi.v]),
      with IEEE single precision as an instance.
    - A user program is a computation of the same monad over the descriptors
      of its process ([User.v]); an input is a stream of pieces, one per
      [read], so that a theorem holds however the input is split.  Programs
      with several processes are transition systems, one step per system call.

    ** Files, in order of dependency

    - [Prelude]: record update, machine integers, byte lists, this header.
      [Kmonad]: the monad, its loops and its weakest precondition [wp].
      [Params]: param.h, memlayout.h, mmu.h, fs.h.  [Ring]: ring buffers as
      the message and signal queues use them.  [Kstate]: the structures of
      proc.h, file.h, buf.h, fs.h, spinlock.h, and the kernel state.
    - [Spinlock]: spinlock.c and the current CPU.  Nesting of interrupt
      disabling, mutual exclusion, misuse.
    - [KString]: string.c on byte-addressed memory.  [Kalloc]: kalloc.c; the
      allocator refines a stack of pages.  [Cprintf]: formatted output of
      console.c; what is printed is the rendering of the format.
    - [Vm]: vm.c; page tables in physical memory.  [Umem]: user memory seen
      through a page table.  [Demo]: a concrete machine for the witnesses.
      [Pgtab]: who owns the pages of a page table, the kernel mapping, the
      copy of an address space.  [Aspace]: growing and shrinking one.
    - [Sched]: allocation, scheduling, sleep and wakeup, kill, wait (proc.c).
      [Ipc], [Signal]: send_mess, recv_mess, send_multicast, signals
      (proc.c); delivery order, blocking, overflow of the queues, the frame a
      handler runs in and its removal.
    - [Thread]: rules for code of one process whose locks are free.
      [Sleeplock]: sleeplock.c.  [Bio]: bio.c, memide.c, ide.c.  [Cache]: the
      buffer cache stays coherent.  [Log]: log.c.  [Commit]: atomicity of a
      commit under crashes, durability of a transaction.
    - [Fs]: fs.c.  [Blockmap]: the bitmap and the block map of an inode as
      functions of the blocks.  [Inode]: [bmap], [readi] and [writei] in a
      transaction.  [Filewrite]: files on the disk, before, during and after
      a transaction.  [Directory]: [dirlookup], [iget] and [dirlink].
    - [Mkfs]: mkfs.c, the tool that makes the image.  [Mkimage]: the image is a
      file system with the files it was given.
    - [Pipe]: pipe.c; bytes in order, ends closed.  [Console]: console.c,
      kbd.c, uart.c input.  [File]: file.c.  [Writefile]: [filewrite], from
      user memory to the file on the disk.
    - [Proc]: fork, exit, growproc, the first process (proc.c).  [Fork]: what
      the child of a fork is.  [Syscall]: argument fetching (syscall.c); safe
      for every user program.  [Exec]: exec.c.  [Sysproc], [Sysfile]: the
      system calls.  [Trap]: trap.c, trapasm.S and the dispatch of system
      calls.
    - [Boot]: bootmain.c.  [Segments]: the descriptors of mmu.h, [seginit] and
      [tvinit].  [Mp]: mp.c.  [Devices]: lapic.c, ioapic.c, picirq.c and the
      set-up of the serial port.
    - [User]: system calls as a program sees them, ulib.c, printf.c.
      [Textutil]: cat.c, echo.c, wc.c, grep.c.  [Fileutil]: what [printf]
      writes, ls.c.  [Init]: init.c.  [Smallprog]: rm.c, mkdir.c, ln.c, kill.c,
      zombie.c, forktest.c.  [Umalloc]: umalloc.c.
    - [Shell]: the parser of sh.c over its buffer and its heap.  [Grammar]: the
      grammar of command lines.  [Shparse]: the parser follows the grammar.
      [Runcmd]: runcmd and main of sh.c.
    - [Jacobi], [JacobiNet]: jacob.c; the division of the rows, the
      arithmetic, and the processes as a transition system over pipes.
      [JacobiLinux]: jacoblinux.c.  [Sumvar]: assig1_8.c; a parent and five
      children over messages and signals.

    ** What the theorems show

    - Disk: a transaction is on the disk as a whole or not at all after any
      crashes, and is on the disk when [end_op] returns; the buffer cache
      shows each block's current content.  On top of that: [readi] returns the
      bytes of the file; [filewrite] puts bytes of user memory into the file,
      and a crash leaves a prefix of them that ends with a transaction; a new
      directory entry is atomic; neither changes another file; a lookup finds
      the first entry of the name.  The image that mkfs makes has the structure
      these theorems assume.
    - Messages and signals: what a send and a receive do to the queues, also
      when they overflow; delivery of a signal to the handler and the return
      from it; the multicast.
    - Jacobi: every schedule of the parent and its workers ends, none is a
      deadlock, and the result is that of the sequential iteration; the Linux
      version computes the same.  Sum: every schedule ends with the sum; for
      the variance a schedule that loses a signal never ends.
    - Processes and memory: the table invariant, no lost wakeups, the scheduler
      finds a runnable process, the timer preempts; fork makes a copy; address
      spaces grow and shrink without touching other pages.
    - Machine: the loader puts the kernel into memory, the tables let programs
      enter the kernel at the system call only, the processors are found.
    - User programs: the shell runs what its input says, from the text of a
      line to the descriptors of the programs; grep matches the language of its
      pattern; ls, cat and wc; init keeps a shell running; the allocator hands
      out disjoint blocks.
    - Locks, pages, pipes, console output, argument fetching, gates: see the
      files.

    ** Assumptions and bounds

    The properties of the kernel are stated for one system call or interrupt
    at a time; a hypothesis such as [ready], [thr] or [in_ptable] says which
    CPU runs and that the locks the code needs are free, and everything else is
    quantified.

    - The commit theorems assume at most [NBUF - 2] blocks in the transaction,
      because [write_log] needs buffers besides the dirty ones.  The file
      written to has its blocks or there are eight free ones for each
      transaction of 1536 bytes; the bytes are readable in the address space
      of the process.
    - [copyuvm] and [fork] are given 1025 free pages and those of the copy: a
      directory and 1024 tables, the most there can be.
    - mkfs is given at most 198 files, all that fit in NINODES, whose blocks fit
      in FSSIZE; the tool checks neither.
    - The loops of [malloc] and [free] need at most twice the number of blocks
      and a few rounds; a request is below 2^31 - 16 bytes, since the argument
      of [sbrk] is a signed integer.  The parser of the shell has more fuel than
      a line is long, which is at most 99 bytes.  In the shell malloc and fork
      are taken to succeed; the results of open and exec are given with
      the state and arbitrary.  In init the result of each fork is arbitrary.
    - The Jacobi theorems assume [3 <= N <= 23], so that the rows a worker
      sends the parent at the end fit in a pipe of PIPESIZE bytes (129 for a
      pipe of Linux), and at least one process; they start when the pipes and
      the processes have been made, for which NOFILE allows 8 processes, and
      leave out that a page of stack has no room for the two grids of the
      largest [N].  A run of the sum has at most 71 steps.

    ** Not modelled

    - main.c: it calls the initialisation functions, which are modelled one by
      one, over different records of state; the assembly files (bootasm.S,
      entry.S, entryother.S, initcode.S, swtch.S, usys.S), whose effect is
      built into the definitions that rely on it: the context switch is the
      suspension of the monad.
    - Ports and device registers beyond the values written: a driver's effect
      is on the disk, the screen, the list of bytes sent and received.
    - The tests usertests.c, stressfs.c and assig1_7.c: what they try is stated
      as theorems on the kernel.
    - Paths of more than one component: [namex] is defined, and its theorems
      are those of [dirlookup], which it calls for each component.
    - Headers that only declare (defs.h, user.h), scripts and the build. *)

From stdpp Require Import base numbers list list_numbers gmap strings.

Local Open Scope Z_scope.

(** ** Record update

    [x <| f := v |>] is the record [x] with field [f] set to [v] and
    [set f g x] applies [g] to the field.  A [Setter] instance is derived from
    the constructor of the record, given once as [Eta]. *)

Class Eta (R : Type) := eta : R -> R.
Class Setter {R T : Type} (proj : R -> T) := set : (T -> T) -> R -> R.
Arguments set {R T} proj {Setter} f x.

Ltac derive_setter :=
  lazymatch goal with
  | |- @Setter ?R ?T ?proj =>
      let e := constr:(_ : Eta R) in
      let e := eval hnf in e in
      lazymatch (eval pattern proj in e) with
      | ?g _ =>
          let r := eval cbv beta in (fun (f : T -> T) => g (fun x => f (proj x))) in
          exact r
      end
  end.

Notation "x <| proj := v |>" := (set proj (fun _ => v) x)
  (at level 1, left associativity, format "x  <| proj  :=  v |>").

(** ** Machine integers

    Every C integer is a [Z]; the width is written out where a value is
    produced.  [u8], [u16], [u32] are the unsigned conversions, [i32] is the
    two's complement reading of the low 32 bits. *)

Definition u8 (x : Z) : Z := x mod 2 ^ 8.
Definition u16 (x : Z) : Z := x mod 2 ^ 16.
Definition u32 (x : Z) : Z := x mod 2 ^ 32.
Definition i16 (x : Z) : Z := (x + 2 ^ 15) mod 2 ^ 16 - 2 ^ 15.
Definition i32 (x : Z) : Z := (x + 2 ^ 31) mod 2 ^ 32 - 2 ^ 31.
Definition i8 (x : Z) : Z := (x + 2 ^ 7) mod 2 ^ 8 - 2 ^ 7.

Create HintDb ints.
Create Rewrite HintDb ints.
Create Rewrite HintDb len.

Lemma u32_range x : 0 <= u32 x < 2 ^ 32.
Proof. apply Z.mod_pos_bound. lia. Qed.

Lemma u32_small x : 0 <= x < 2 ^ 32 -> u32 x = x.
Proof. apply Z.mod_small. Qed.

Lemma u32_idem x : u32 (u32 x) = u32 x.
Proof. apply u32_small, u32_range. Qed.

Lemma i32_range x : - 2 ^ 31 <= i32 x < 2 ^ 31.
Proof. unfold i32. pose proof (Z.mod_pos_bound (x + 2 ^ 31) (2 ^ 32)). lia. Qed.

Lemma i32_small x : - 2 ^ 31 <= x < 2 ^ 31 -> i32 x = x.
Proof. intros. unfold i32. rewrite Z.mod_small; lia. Qed.

Lemma i32_u32 x : i32 (u32 x) = i32 x.
Proof. unfold i32, u32. rewrite Z.add_mod_idemp_l by lia. done. Qed.

Lemma u32_i32 x : u32 (i32 x) = u32 x.
Proof.
  unfold i32, u32. rewrite Zminus_mod_idemp_l.
  f_equal. lia.
Qed.

Lemma u32_add_l x y : u32 (u32 x + y) = u32 (x + y).
Proof. unfold u32. rewrite Z.add_mod_idemp_l by lia. done. Qed.

Lemma u32_add_r x y : u32 (x + u32 y) = u32 (x + y).
Proof. unfold u32. rewrite Z.add_mod_idemp_r by lia. done. Qed.

Lemma u32_sub_l x y : u32 (u32 x - y) = u32 (x - y).
Proof. unfold u32. apply Zminus_mod_idemp_l. Qed.

Lemma u32_sub_r x y : u32 (x - u32 y) = u32 (x - y).
Proof. unfold u32. apply Zminus_mod_idemp_r. Qed.

(** Two values that agree modulo 2^32 and lie in the same window are equal. *)
Lemma u32_inj_window x y b :
  b <= x < b + 2 ^ 32 -> b <= y < b + 2 ^ 32 -> u32 x = u32 y -> x = y.
Proof.
  unfold u32. intros Hx Hy H.
  pose proof (Z.div_mod x (2 ^ 32)). pose proof (Z.div_mod y (2 ^ 32)).
  assert (x / 2 ^ 32 = y / 2 ^ 32 \/ x / 2 ^ 32 < y / 2 ^ 32
          \/ y / 2 ^ 32 < x / 2 ^ 32) as [E|[E|E]] by lia; nia.
Qed.

(** An index into an array whose size divides 2^32 survives the wrap. *)
Lemma u32_mod_divide x n : (n | 2 ^ 32) -> u32 x mod n = x mod n.
Proof. intros. unfold u32. by apply Z.mod_mod_divide. Qed.

#[export] Hint Resolve u32_range i32_range : ints.
#[export] Hint Rewrite u32_add_l u32_add_r u32_sub_l u32_sub_r u32_idem
  i32_u32 u32_i32 : ints.

(** ** Lists *)

#[export] Hint Rewrite @length_app @length_take @length_drop @length_fmap
  @length_replicate @length_insert @length_alter @length_seq @length_seqZ @length_cons
  @length_map @length_rev : len.

(** Normalise list lengths and close the arithmetic that is left. *)
Ltac len := autorewrite with len in *; simpl length in *; try lia.

(** A fixed array of [n] elements. *)
Definition arr {A} (n : nat) (a : A) : list A := replicate n a.

(** [splice l i l'] overwrites [l] from index [i] with the elements of [l'],
    dropping what does not fit: an array written through [memmove]. *)
Fixpoint splice {A} (l : list A) (i : nat) (l' : list A) : list A :=
  match l' with
  | [] => l
  | x :: l' => splice (<[i := x]> l) (S i) l'
  end.

Section splice.
Context {A : Type}.
Implicit Types (l k : list A).

Lemma length_splice l i k : length (splice l i k) = length l.
Proof.
  revert l i. induction k as [|x k IH]; intros l i; simpl; [done|].
  rewrite IH. apply length_insert.
Qed.

Lemma lookup_splice_lt l i k j : (j < i)%nat -> splice l i k !! j = l !! j.
Proof.
  revert l i. induction k as [|x k IH]; intros l i Hj; simpl; [done|].
  rewrite IH by lia. rewrite list_lookup_insert_ne; [done|lia].
Qed.

Lemma lookup_splice_ge l i k j :
  (i + length k <= j)%nat -> splice l i k !! j = l !! j.
Proof.
  revert l i. induction k as [|x k IH]; intros l i Hj; simpl in *; [done|].
  rewrite IH by lia. rewrite list_lookup_insert_ne; [done|lia].
Qed.

Lemma lookup_splice_in l i k j :
  (i <= j < i + length k)%nat -> (i + length k <= length l)%nat ->
  splice l i k !! j = k !! (j - i)%nat.
Proof.
  revert l i. induction k as [|x k IH]; intros l i Hj Hl; simpl in *; [lia|].
  destruct (decide (j = i)) as [->|Hne].
  - rewrite lookup_splice_lt by lia. rewrite list_lookup_insert_eq by lia.
    by rewrite Nat.sub_diag.
  - rewrite IH by (rewrite ?length_insert; lia).
    replace (j - i)%nat with (S (j - S i)) by lia. done.
Qed.

(** Reading back the window that was written. *)
Lemma take_drop_splice l i k :
  (i + length k <= length l)%nat -> take (length k) (drop i (splice l i k)) = k.
Proof.
  intros Hl. apply list_eq. intros j.
  destruct (decide (j < length k)%nat) as [Hj|Hj].
  - rewrite lookup_take_lt by done. rewrite lookup_drop.
    rewrite lookup_splice_in by lia. f_equal. lia.
  - rewrite !lookup_ge_None_2; [done| |]; len.
Qed.

Lemma splice_full l k : length k = length l -> splice l 0 k = k.
Proof.
  intros H. pose proof (take_drop_splice l 0 k) as E. rewrite drop_0 in E.
  rewrite take_ge in E; [apply E; lia|]. rewrite length_splice. lia.
Qed.
End splice.
#[export] Hint Rewrite @length_splice : len.

(** [nthZ] reads an array of integers, 0 outside: every use is guarded by a
    bound or by a well-formedness invariant. *)
Definition nthZ (l : list Z) (i : nat) : Z := default 0 (l !! i).

Lemma map_seq_lookup {A B} (f : nat -> A) (g : A -> B) n :
  map g (map f (seq 0 n)) = map (fun i => g (f i)) (seq 0 n).
Proof. apply map_map. Qed.

Lemma list_alter_same {A} (f : A -> A) (l : list A) (i : nat) x :
  l !! i = Some x -> f x = x -> alter f i l = l.
Proof.
  intros Hx Hf. apply list_eq. intros j. destruct (decide (i = j)) as [<-|Hne].
  - by rewrite list_lookup_alter_eq, Hx; simpl; rewrite Hf.
  - by rewrite list_lookup_alter_ne.
Qed.

(** Index of the first element that satisfies a test. *)
Fixpoint find_idx {A} (t : A -> bool) (l : list A) : option nat :=
  match l with
  | [] => None
  | x :: l => if t x then Some 0%nat else S <$> find_idx t l
  end.

Lemma find_idx_Some {A} (t : A -> bool) l i :
  find_idx t l = Some i ->
  exists x, l !! i = Some x /\ t x = true /\
    forall j y, (j < i)%nat -> l !! j = Some y -> t y = false.
Proof.
  revert i. induction l as [|x l IH]; intros i H; simpl in H; [done|].
  destruct (t x) eqn:Ht.
  - injection H as <-. exists x. split; [done|]. split; [done|]. intros; lia.
  - destruct (find_idx t l) as [k|]; [|done]. injection H as <-.
    destruct (IH k eq_refl) as (y & Hy & Hty & Hb). exists y. split; [done|].
    split; [done|]. intros [|j] z Hj Hz; [by injection Hz as ->|].
    apply (Hb j); [lia|done].
Qed.

Lemma find_idx_None {A} (t : A -> bool) l :
  find_idx t l = None -> forall x, x ∈ l -> t x = false.
Proof.
  induction l as [|x l IH]; intros H y Hy; [by apply elem_of_nil in Hy|].
  simpl in H. destruct (t x) eqn:Ht; [done|].
  destruct (find_idx t l) eqn:E; [done|].
  apply elem_of_cons in Hy as [->|Hy]; auto.
Qed.

Lemma find_idx_insert {A} (t : A -> bool) l i x :
  t x = from_option t (t x) (l !! i) -> find_idx t (<[i:=x]> l) = find_idx t l.
Proof.
  revert i. induction l as [|y l IH]; intros [|i] H; simpl in *; [done..|by rewrite H|].
  by rewrite IH.
Qed.

Definition sumZ (l : list Z) : Z := foldr Z.add 0 l.

Lemma sumZ_app l l' : sumZ (l ++ l') = sumZ l + sumZ l'.
Proof. unfold sumZ. induction l as [|x l IH]; simpl; lia. Qed.

(** ** Little-endian byte strings *)

Fixpoint le_bytes (n : nat) (v : Z) : list Z :=
  match n with
  | O => []
  | S n => v mod 256 :: le_bytes n (v / 256)
  end.

Fixpoint of_le (bs : list Z) : Z :=
  match bs with
  | [] => 0
  | b :: bs => b + 256 * of_le bs
  end.

Definition byte_ok (b : Z) : Prop := 0 <= b < 256.

Lemma length_le_bytes n v : length (le_bytes n v) = n.
Proof. revert v. induction n; intros; simpl; auto. Qed.
#[export] Hint Rewrite length_le_bytes : len.

Lemma le_bytes_ok n v : Forall byte_ok (le_bytes n v).
Proof.
  revert v. induction n as [|n IH]; intros v; simpl; constructor; [|apply IH].
  unfold byte_ok. pose proof (Z.mod_pos_bound v 256). lia.
Qed.

Lemma of_le_bytes n v : of_le (le_bytes n v) = v mod 256 ^ Z.of_nat n.
Proof.
  revert v. induction n as [|n IH]; intros v; cbn [le_bytes of_le].
  - by rewrite Z.mod_1_r.
  - rewrite IH, Nat2Z.inj_succ, Z.pow_succ_r by lia.
    rewrite Z.rem_mul_r by lia. done.
Qed.

Lemma of_le_range bs : Forall byte_ok bs -> 0 <= of_le bs < 256 ^ Z.of_nat (length bs).
Proof.
  induction 1 as [|b bs Hb Hbs IH]; cbn [of_le length]; [lia|].
  rewrite Nat2Z.inj_succ, Z.pow_succ_r by lia. unfold byte_ok in Hb. lia.
Qed.

Lemma le_bytes_of_le bs : Forall byte_ok bs -> le_bytes (length bs) (of_le bs) = bs.
Proof.
  induction 1 as [|b bs Hb Hbs IH]; cbn [of_le length le_bytes]; [done|].
  unfold byte_ok in Hb. f_equal.
  - rewrite Z.mul_comm, Z_mod_plus_full. apply Z.mod_small. lia.
  - rewrite Z.mul_comm, Z.div_add by lia. rewrite Z.div_small by lia. done.
Qed.

Lemma of_le_le4 v : of_le (le_bytes 4 v) = u32 v.
Proof. apply of_le_bytes. Qed.

(** A 32-bit or 16-bit field of a structure laid out in bytes. *)
Definition get_u32 (bs : list Z) (off : nat) : Z := of_le (take 4 (drop off bs)).
Definition get_u16 (bs : list Z) (off : nat) : Z := of_le (take 2 (drop off bs)).
Definition put_u32 (bs : list Z) (off : nat) (v : Z) : list Z :=
  splice bs off (le_bytes 4 v).
Definition put_u16 (bs : list Z) (off : nat) (v : Z) : list Z :=
  splice bs off (le_bytes 2 v).

Lemma get_put_u32 bs off v :
  (off + 4 <= length bs)%nat -> get_u32 (put_u32 bs off v) off = u32 v.
Proof.
  intros. unfold get_u32, put_u32. rewrite <- (of_le_le4 v). f_equal.
  apply (take_drop_splice bs off (le_bytes 4 v)). by rewrite length_le_bytes.
Qed.

(** The bytes of a string literal of the source. *)
Fixpoint bytes (s : string) : list Z :=
  match s with
  | EmptyString => []
  | String c s => Z.of_N (Ascii.N_of_ascii c) :: bytes s
  end.
