(* ===== verification/Kmonad.v ===== *)
(** * The monad of kernel code

    A C function that runs in the kernel is a function from the kernel state
    to an [outcome]: it returns, it calls [panic], it runs into undefined
    behaviour (a null or wild pointer, an array index out of range, a variable
    read before it is set), or it stops and waits for the other CPUs, either
    in [swtch] to the scheduler or spinning on a lock, with the rest of the
    function as a continuation.  [NoFuel] marks a wait loop that was woken up
    more often than the bound the caller chose. *)

From stdpp Require Import base numbers list sets strings.
From S2P Require Import Prelude.

Local Open Scope Z_scope.

Section outcome.
(** [W] says what a suspended computation waits for, [St] is the state. *)
Context {W St : Type}.

Inductive outcome (A : Type) : Type :=
| Ok (a : A) (s : St)
| Panic (msg : string) (s : St)
| Undef (what : string)
| Susp (w : W) (s : St) (k : St -> outcome A)
| NoFuel.
Global Arguments Ok {A} a s.
Global Arguments Panic {A} msg s.
Global Arguments Undef {A} what.
Global Arguments Susp {A} w s k.
Global Arguments NoFuel {A}.

Definition K (A : Type) : Type := St -> outcome A.

Fixpoint obind {A B} (o : outcome A) (f : A -> K B) : outcome B :=
  match o with
  | Ok a s => f a s
  | Panic m s => Panic m s
  | Undef w => Undef w
  | Susp w s k => Susp w s (fun s' => obind (k s') f)
  | NoFuel => NoFuel
  end.

Definition ret {A} (a : A) : K A := fun s => Ok a s.
Definition bind {A B} (m : K A) (f : A -> K B) : K B := fun s => obind (m s) f.
Definition panic {A} (msg : string) : K A := fun s => Panic msg s.
Definition undef {A} (what : string) : K A := fun _ => Undef what.
Definition nofuel {A} : K A := fun _ => NoFuel.
Definition gets {A} (f : St -> A) : K A := fun s => Ok (f s) s.
Definition modify (f : St -> St) : K unit := fun s => Ok tt (f s).
(** Wait in state [s]; the environment picks the state to go on from. *)
Definition suspend (w : W) : K unit := fun s => Susp w s (fun s' => Ok tt s').

(** [when c m]: an [if] without [else]. *)
Definition when (c : bool) (m : K unit) : K unit := if c then m else ret tt.

(** Reading through a pointer or an index that has to be valid. *)
Definition deref {A} (what : string) (o : option A) : K A :=
  match o with Some a => ret a | None => undef what end.

(** [for (x in l) body], where the body may leave the loop with a value
    ([return] or [goto] out of the loop). *)
Fixpoint for_break {X R} (l : list X) (body : X -> K (option R)) : K (option R) :=
  match l with
  | [] => ret None
  | x :: l =>
      bind (body x) (fun r =>
        match r with Some _ => ret r | None => for_break l body end)
  end.

Fixpoint for_each {X} (l : list X) (body : X -> K unit) : K unit :=
  match l with
  | [] => ret tt
  | x :: l => bind (body x) (fun _ => for_each l body)
  end.

(** A loop that threads a local variable. *)
Fixpoint for_fold {X R} (l : list X) (r : R) (body : R -> X -> K R) : K R :=
  match l with
  | [] => ret r
  | x :: l => bind (body r x) (fun r => for_fold l r body)
  end.
End outcome.
Arguments outcome : clear implicits.
Arguments K : clear implicits.

Declare Scope kern_scope.
Delimit Scope kern_scope with kern.
Notation "'let*' x ':=' m 'in' k" := (bind m (fun x => k))
  (at level 10, x pattern, m at level 100, k at level 200,
   format "'[v' 'let*'  x  ':='  m  'in' '/' k ']'") : kern_scope.
Notation "m ;; k" := (bind m (fun _ => k))
  (at level 100, k at level 200, right associativity) : kern_scope.

(** ** Laws *)

Section laws.
Context {W St : Type}.
Abbreviation K := (K W St).

Lemma bind_ret_l {A B} (a : A) (f : A -> K B) s : bind (ret a) f s = f a s.
Proof. reflexivity. Qed.

(** How a call that is known to return runs inside its caller. *)
Lemma bind_Ok {A B} (m : K A) (f : A -> K B) s a s' :
  m s = Ok a s' -> bind m f s = f a s'.
Proof. intros E. unfold bind. by rewrite E. Qed.

Lemma bind_Panic {A B} (m : K A) (f : A -> K B) s msg s' :
  m s = Panic msg s' -> bind m f s = Panic msg s'.
Proof. intros E. unfold bind. by rewrite E. Qed.

Lemma bind_Susp {A B} (m : K A) (f : A -> K B) s w s' k :
  m s = Susp w s' k -> bind m f s = Susp w s' (fun t => obind (k t) f).
Proof. intros E. unfold bind. by rewrite E. Qed.

Lemma bind_Ok_inv {A B} (m : K A) (f : A -> K B) s b s' :
  bind m f s = Ok b s' ->
  exists a s1, m s = Ok a s1 /\ f a s1 = Ok b s'.
Proof. unfold bind. destruct (m s) as [a s1| | | |]; simpl; intros E; [|done..]. eauto. Qed.

Lemma for_each_app {X} (l1 l2 : list X) (body : X -> K unit) s s1 :
  for_each l1 body s = Ok tt s1 ->
  for_each (l1 ++ l2) body s = for_each l2 body s1.
Proof.
  revert s. induction l1 as [|x l1 IH]; intros s E; simpl in *.
  - by injection E as ->.
  - apply bind_Ok_inv in E as ([] & s2 & E1 & E2).
    rewrite (bind_Ok _ _ _ _ _ E1). by apply IH.
Qed.
End laws.

(** ** Weakest preconditions

    [wp m Q s]: from [s], [m] returns without waiting and its result and final
    state satisfy [Q]; in particular it neither panics nor is undefined. *)

Section wp.
Context {W St : Type}.
Abbreviation K := (K W St).

Definition wp {A} (m : K A) (Q : A -> St -> Prop) (s : St) : Prop :=
  match m s with Ok a s' => Q a s' | _ => False end.

Lemma wp_iff {A} (m : K A) Q s :
  wp m Q s <-> exists a s', m s = Ok a s' /\ Q a s'.
Proof.
  unfold wp. split.
  - destruct (m s); [eauto|done..].
  - intros (a & s' & -> & HQ). done.
Qed.

Lemma wp_of_eq {A} (m : K A) (Q : A -> St -> Prop) s a s' :
  m s = Ok a s' -> Q a s' -> wp m Q s.
Proof. intros E HQ. apply wp_iff. eauto. Qed.

Lemma wp_ret {A} (a : A) (Q : A -> St -> Prop) s : Q a s -> wp (ret a) Q s.
Proof. done. Qed.

Lemma wp_bind {A B} (m : K A) (f : A -> K B) Q s :
  wp m (fun a s' => wp (f a) Q s') s -> wp (bind m f) Q s.
Proof.
  rewrite wp_iff. intros (a & s' & E & HQ).
  unfold wp in *. by rewrite (bind_Ok _ _ _ _ _ E).
Qed.

Lemma wp_mono {A} (m : K A) (Q Q' : A -> St -> Prop) s :
  wp m Q s -> (forall a s', Q a s' -> Q' a s') -> wp m Q' s.
Proof. rewrite !wp_iff. intros (a & s' & E & HQ) H. eauto. Qed.

Lemma wp_gets {A} (f : St -> A) (Q : A -> St -> Prop) s :
  Q (f s) s -> wp (gets f) Q s.
Proof. done. Qed.

Lemma wp_modify f (Q : unit -> St -> Prop) s : Q tt (f s) -> wp (modify f) Q s.
Proof. done. Qed.

(** Loop rule: an invariant indexed by the elements still to visit. *)
Lemma wp_for_each {X} (body : X -> K unit) (I : list X -> St -> Prop) l Q s :
  I l s ->
  (forall x l' s', I (x :: l') s' -> wp (body x) (fun _ => I l') s') ->
  (forall s', I [] s' -> Q tt s') ->
  wp (for_each l body) Q s.
Proof.
  intros HI Hstep Hend. revert s HI. induction l as [|x l IH]; intros s HI; simpl.
  - by apply wp_ret, Hend.
  - apply wp_bind. eapply wp_mono; [by apply Hstep|]. intros [] s' H. by apply IH.
Qed.

Lemma wp_for_break {X R} (body : X -> K (option R)) (I : list X -> St -> Prop) l Q s :
  I l s ->
  (forall x l' s', I (x :: l') s' ->
     wp (body x) (fun r s'' => match r with Some _ => Q r s'' | None => I l' s'' end) s') ->
  (forall s', I [] s' -> Q None s') ->
  wp (for_break l body) Q s.
Proof.
  intros HI Hstep Hend. revert s HI. induction l as [|x l IH]; intros s HI; simpl.
  - by apply wp_ret, Hend.
  - apply wp_bind. eapply wp_mono; [by apply Hstep|].
    intros [r|] s' H; [by apply wp_ret|]. by apply IH.
Qed.

(** *** Computations that wait

    [sat J R Q o]: whatever the environment does while [o] waits (each
    change satisfies the relation [R]), [o] never panics and is never
    undefined; at each wait [J] holds and on return [Q]. *)
Fixpoint sat {A} (J : W -> St -> Prop) (R : W -> St -> St -> Prop)
    (Q : A -> St -> Prop) (o : outcome W St A) : Prop :=
  match o with
  | Ok a s => Q a s
  | Panic _ _ => False
  | Undef _ => False
  | Susp w s k => J w s /\ forall s', R w s s' -> sat J R Q (k s')
  | NoFuel => True
  end.

Lemma sat_obind {A B} J R (Q : B -> St -> Prop) (o : outcome W St A) (f : A -> K B) :
  sat J R (fun a s => sat J R Q (f a s)) o -> sat J R Q (obind o f).
Proof.
  induction o as [a s|m s|w|w s k IH|]; simpl; try done.
  intros [HJ Hk]. split; [done|]. intros s' HR. apply IH, Hk, HR.
Qed.

Lemma sat_mono {A} J R (Q Q' : A -> St -> Prop) o :
  sat J R Q o -> (forall a s, Q a s -> Q' a s) -> sat J R Q' o.
Proof.
  intros H HQ. induction o as [a s|m s|w|w s k IH|]; simpl in *; try done; auto.
  destruct H as [HJ Hk]. split; [done|]. intros s' HR. by apply IH, Hk.
Qed.

Lemma wp_sat {A} J R (Q : A -> St -> Prop) (m : K A) s : wp m Q s -> sat J R Q (m s).
Proof. rewrite wp_iff. intros (a & s' & -> & HQ). done. Qed.
End wp.

Create HintDb kern.
Create Rewrite HintDb pids.
#[export] Hint Resolve wp_ret wp_gets wp_modify : kern.

(** Run one call: the goal is [bind m f s = _] or [wp (bind m f) _ s] and [m]
    is a primitive or has an equation in the context. *)
Ltac kstep :=
  match goal with
  | |- context [bind (ret ?a) ?f ?s] => change (bind (ret a) f s) with (f a s); cbv beta
  | |- context [bind (gets ?g) ?f ?s] => change (bind (gets g) f s) with (f (g s) s); cbv beta
  | |- context [bind (modify ?g) ?f ?s] => change (bind (modify g) f s) with (f tt (g s)); cbv beta
  | E : ?m ?s = Ok ?a ?s' |- context [bind ?m ?f ?s] => rewrite (bind_Ok m f s a s' E)
  end.
Ltac ksteps := repeat kstep.

(** Run straight-line code: expose the calls and reduce those that returned.
    [kx E] also uses the equation [E : m s = Ok a s'] of the next call, whose
    state need only be convertible to [s]. *)
Ltac kx0 := cbv beta delta [bind ret gets modify panic undef]; cbn [obind when].
Tactic Notation "kx" := kx0.
Ltac kx_at E :=
  match type of E with
  | ?m ?s = _ => match goal with |- context [m ?t] => change (m t) with (m s) end
  end.
Tactic Notation "kx" constr(E) := kx0; let H := fresh in pose proof E as H; kx_at H; rewrite H; clear H; kx0.

(** ** Loops that do nothing on some elements *)

Section inert.
Context {W St X R : Type}.

Lemma for_fold_inert (body : R -> X -> K W St R) l a s :
  (forall x, x ∈ l -> body a x s = Ok a s) -> for_fold l a body s = Ok a s.
Proof.
  induction l as [|x l IH]; intros H; simpl; [done|].
  rewrite (bind_Ok _ _ _ _ _ (H x ltac:(set_solver))). apply IH. set_solver.
Qed.

Lemma for_fold_skip (body : R -> X -> K W St R) l1 x l2 a s :
  (forall y, y ∈ l1 -> body a y s = Ok a s) ->
  for_fold (l1 ++ x :: l2) a body s = bind (body a x) (fun b => for_fold l2 b body) s.
Proof.
  induction l1 as [|y l1 IH]; intros H; simpl; [done|].
  rewrite (bind_Ok _ _ _ _ _ (H y ltac:(set_solver))). apply IH. set_solver.
Qed.

Lemma for_each_inert (body : X -> K W St unit) l s :
  (forall x, x ∈ l -> body x s = Ok tt s) -> for_each l body s = Ok tt s.
Proof.
  induction l as [|x l IH]; intros H; simpl; [done|].
  rewrite (bind_Ok _ _ _ _ _ (H x ltac:(set_solver))). apply IH. set_solver.
Qed.

Lemma for_each_skip (body : X -> K W St unit) l1 x l2 s :
  (forall y, y ∈ l1 -> body y s = Ok tt s) ->
  for_each (l1 ++ x :: l2) body s = bind (body x) (fun _ => for_each l2 body) s.
Proof.
  induction l1 as [|y l1 IH]; intros H; simpl; [done|].
  rewrite (bind_Ok _ _ _ _ _ (H y ltac:(set_solver))). apply IH. set_solver.
Qed.

(** A loop whose states are known and that is never left early. *)
Lemma for_break_all (body : X -> K W St (option R)) (st : nat -> St) l :
  (forall i x, l !! i = Some x -> body x (st i) = Ok None (st (S i))) ->
  for_break l body (st 0%nat) = Ok None (st (length l)).
Proof.
  revert st. induction l as [|x l IH]; intros st H; simpl; [done|].
  rewrite (bind_Ok _ _ _ _ _ (H 0%nat x eq_refl)).
  apply (IH (fun i => st (S i))). intros i y Hy. by apply (H (S i)).
Qed.

Lemma for_break_app (body : X -> K W St (option R)) l1 l2 s s1 :
  for_break l1 body s = Ok None s1 -> for_break (l1 ++ l2) body s = for_break l2 body s1.
Proof.
  revert s. induction l1 as [|x l1 IH]; intros s E; simpl in *; [by injection E as ->|].
  apply bind_Ok_inv in E as (r & s2 & E1 & E2). rewrite (bind_Ok _ _ _ _ _ E1).
  destruct r; [done|]. by apply IH.
Qed.
End inert.
