(* ===== verification/Params.v ===== *)
(** * Constants and macros of the kernel headers

    [param.h], [types.h], [memlayout.h], [mmu.h], [fs.h], [stat.h], [fcntl.h],
    [traps.h] and [syscall.h].  Array sizes are [nat], everything that enters
    address or flag arithmetic is [Z]. *)

From stdpp Require Import base numbers list.
From S2P Require Import Prelude.

Local Open Scope Z_scope.

(** ** param.h *)
Definition NPROC : nat := 64.
Definition KSTACKSIZE : Z := 4096.
Definition NCPU : nat := 8.
Definition NOFILE : nat := 70.
Definition NFILE : nat := 100.
Definition NINODE : nat := 50.
Definition NDEV : Z := 10.
Definition ROOTDEV : Z := 1.
Definition MAXARG : nat := 32.
Definition MAXOPBLOCKS : Z := 10.
Definition LOGSIZE : Z := MAXOPBLOCKS * 3.
Definition NBUF : nat := 30.
Definition FSSIZE : Z := 1000.

(** ** types.h: the message and signal queues *)
Definition MSGSIZE : Z := 8.
Definition NUM_MSG : Z := 32.
Definition MAX_SIG : Z := 5.

(** ** memlayout.h *)
Definition EXTMEM : Z := 0x100000.
Definition PHYSTOP : Z := 0xE000000.
Definition DEVSPACE : Z := 0xFE000000.
Definition KERNBASE : Z := 0x80000000.
Definition KERNLINK : Z := KERNBASE + EXTMEM.
Definition V2P (a : Z) : Z := u32 (a - KERNBASE).
Definition P2V (a : Z) : Z := u32 (a + KERNBASE).

(** ** mmu.h *)
Definition FL_IF : Z := 0x200.
Definition SEG_KCODE : Z := 1.
Definition SEG_KDATA : Z := 2.
Definition SEG_UCODE : Z := 3.
Definition SEG_UDATA : Z := 4.
Definition SEG_TSS : Z := 5.
Definition DPL_USER : Z := 3.
Definition NPDENTRIES : Z := 1024.
Definition NPTENTRIES : Z := 1024.
Definition PGSIZE : Z := 4096.
Definition PTXSHIFT : Z := 12.
Definition PDXSHIFT : Z := 22.
Definition PDX (va : Z) : Z := Z.land (Z.shiftr (u32 va) PDXSHIFT) 0x3FF.
Definition PTX (va : Z) : Z := Z.land (Z.shiftr (u32 va) PTXSHIFT) 0x3FF.
Definition PGADDR (d t o : Z) : Z :=
  u32 (Z.lor (Z.lor (Z.shiftl d PDXSHIFT) (Z.shiftl t PTXSHIFT)) o).
Definition PGROUNDUP (sz : Z) : Z := Z.land (u32 (sz + PGSIZE - 1)) (u32 (Z.lnot (PGSIZE - 1))).
Definition PGROUNDDOWN (a : Z) : Z := Z.land (u32 a) (u32 (Z.lnot (PGSIZE - 1))).
Definition PTE_P : Z := 0x001.
Definition PTE_W : Z := 0x002.
Definition PTE_U : Z := 0x004.
Definition PTE_PS : Z := 0x080.
Definition PTE_ADDR (pte : Z) : Z := Z.land (u32 pte) (u32 (Z.lnot 0xFFF)).
Definition PTE_FLAGS (pte : Z) : Z := Z.land (u32 pte) 0xFFF.

(** ** fs.h, stat.h, fcntl.h, file.h, buf.h *)
Definition ROOTINO : Z := 1.
Definition BSIZE : Z := 512.
Definition NDIRECT : nat := 12.
Definition NINDIRECT : Z := BSIZE / 4.
Definition MAXFILE : Z := Z.of_nat NDIRECT + NINDIRECT.
Definition DINODE_SIZE : Z := 64.
Definition IPB : Z := BSIZE / DINODE_SIZE.
Definition BPB : Z := BSIZE * 8.
Definition DIRSIZ : nat := 14.
Definition DIRENT_SIZE : Z := 16.
Definition T_DIR : Z := 1.
Definition T_FILE : Z := 2.
Definition T_DEV : Z := 3.
Definition O_RDONLY : Z := 0.
Definition O_WRONLY : Z := 1.
Definition O_RDWR : Z := 2.
Definition O_CREATE : Z := 0x200.
Definition CONSOLE : Z := 1.
Definition B_VALID : Z := 2.
Definition B_DIRTY : Z := 4.
Definition PIPESIZE : Z := 2048.

(** ** traps.h *)
Definition T_SYSCALL : Z := 64.
Definition T_IRQ0 : Z := 32.
Definition IRQ_TIMER : Z := 0.
Definition IRQ_KBD : Z := 1.
Definition IRQ_COM1 : Z := 4.
Definition IRQ_IDE : Z := 14.
Definition IRQ_SPURIOUS : Z := 31.

(** [PGSIZE]-alignment in arithmetic form. *)
Lemma land_mask12 x : 0 <= x < 2 ^ 32 -> Z.land x (u32 (Z.lnot (2 ^ 12 - 1))) = x / 4096 * 4096.
Proof.
  intros Hx. change (u32 (Z.lnot (2 ^ 12 - 1))) with (Z.shiftl (Z.ones 20) 12).
  rewrite <- (Z.shiftl_mul_pow2 _ 12), <- (Z.shiftr_div_pow2 _ 12) by lia.
  apply Z.bits_inj'. intros n Hn.
  rewrite Z.land_spec, !Z.shiftl_spec by done.
  destruct (decide (n < 12)) as [Hlt|Hge].
  - rewrite !(Z.testbit_neg_r _ (n - 12)) by lia. apply andb_false_r.
  - rewrite Z.shiftr_spec by lia. replace (n - 12 + 12) with n by lia.
    destruct (decide (n < 32)).
    + rewrite Z.ones_spec_low by lia. apply andb_true_r.
    + assert (Z.testbit x n = false) as ->; [|done].
      rewrite <- (Z.mod_small x (2 ^ 32)) by done. apply Z.mod_pow2_bits_high. lia.
Qed.

Lemma PGROUNDDOWN_eq a : 0 <= a < 2 ^ 32 -> PGROUNDDOWN a = a / 4096 * 4096.
Proof.
  intros. unfold PGROUNDDOWN. rewrite u32_small by done. by apply land_mask12.
Qed.

Lemma PGROUNDUP_eq a : 0 <= a -> a + 4095 < 2 ^ 32 -> PGROUNDUP a = (a + 4095) / 4096 * 4096.
Proof.
  intros. unfold PGROUNDUP, PGSIZE. replace (a + 4096 - 1) with (a + 4095) by lia.
  rewrite u32_small by lia. apply land_mask12. lia.
Qed.

(** Rounding up wraps to 0 in the last page of the address space. *)
Lemma PGROUNDUP_wrap a : 2 ^ 32 - 4095 <= a < 2 ^ 32 -> PGROUNDUP a = 0.
Proof.
  intros. unfold PGROUNDUP, PGSIZE. unfold u32 at 1.
  replace (a + 4096 - 1) with ((a + 4095 - 2 ^ 32) + 1 * 2 ^ 32) by lia.
  rewrite Z_mod_plus_full, Z.mod_small by lia.
  rewrite land_mask12 by lia. rewrite Z.div_small by lia. done.
Qed.

(** The indices of an address in the page directory and in the page table. *)
Lemma PDX_eq va : 0 <= va < 2 ^ 32 -> PDX va = va / 2 ^ 22.
Proof.
  intros H. unfold PDX. rewrite u32_small by done. change 0x3FF with (Z.ones 10).
  rewrite Z.land_ones, Z.shiftr_div_pow2 by (unfold PDXSHIFT; lia). apply Z.mod_small.
  unfold PDXSHIFT. split; [apply Z.div_pos; lia|]. apply Z.div_lt_upper_bound; lia.
Qed.

Lemma PTX_eq va : 0 <= va < 2 ^ 32 -> PTX va = va / 4096 mod 1024.
Proof.
  intros H. unfold PTX. rewrite u32_small by done. change 0x3FF with (Z.ones 10).
  by rewrite Z.land_ones, Z.shiftr_div_pow2 by (unfold PTXSHIFT; lia).
Qed.
