(* ===== verification/Ring.v ===== *)
(** * Ring buffers with a head and a tail index

    The message and signal queues of a process are arrays of [n] slots with
    the next slot to read ([h]) and the next slot to write ([t]); they are
    empty when the two are equal.  [items] is the sequence of the slots in
    use.  A ring holds at most [n - 1] items: one more write makes it look
    empty. *)

From stdpp Require Import base numbers list list_numbers.
From S2P Require Import Prelude.

Local Open Scope Z_scope.

Section ring.
Context {A : Type} (n : Z).
Hypothesis Hn : 1 < n.

Definition used (h t : Z) : Z := (t - h) mod n.
Definition items (f : Z -> A) (h t : Z) : list A :=
  map (fun k => f ((h + k) mod n)) (seqZ 0 (used h t)).

Lemma used_range h t : 0 <= used h t < n.
Proof. apply Z.mod_pos_bound. lia. Qed.

Lemma length_items f h t : Z.of_nat (length (items f h t)) = used h t.
Proof.
  unfold items. rewrite length_map, length_seqZ. pose proof (used_range h t). lia.
Qed.

Lemma items_nil f h t :
  0 <= h < n -> 0 <= t < n -> items f h t = [] <-> h = t.
Proof.
  intros Hh Ht. split.
  - intros E. pose proof (length_items f h t) as L. rewrite E in L. simpl in L.
    unfold used in L. symmetry in L. apply Z.mod_divide in L as [k Hk]; [|lia].
    assert (k = 0) by nia. lia.
  - intros ->. unfold items, used. by rewrite Z.sub_diag.
Qed.

Lemma items_ext f g h t :
  (forall k, 0 <= k < used h t -> f ((h + k) mod n) = g ((h + k) mod n)) ->
  items f h t = items g h t.
Proof.
  intros H. unfold items. apply map_ext_in. intros k Hk.
  apply list_elem_of_In, elem_of_seqZ in Hk. apply H. lia.
Qed.

(** The slot of item number [k], and the tail. *)
Lemma slot_tail h t : 0 <= t < n -> (h + used h t) mod n = t.
Proof.
  intros Ht. unfold used. rewrite Zplus_mod_idemp_r. replace (h + (t - h)) with t by lia.
  by apply Z.mod_small.
Qed.

Lemma slot_ne h t k : 0 <= t < n -> 0 <= k < used h t -> (h + k) mod n <> t.
Proof.
  intros Ht Hk E. rewrite <- (slot_tail h t) in E by done.
  pose proof (used_range h t).
  assert ((k - used h t) mod n = 0) as E0.
  { replace (k - used h t) with ((h + k) - (h + used h t)) by lia.
    rewrite Zminus_mod, E, Z.sub_diag. apply Z.mod_0_l. lia. }
  apply Z.mod_divide in E0 as [x Hx]; [|lia].
  assert (- (1 * n) < x * n < 0 * n) as [H1 H2] by lia.
  apply Z.mul_lt_mono_pos_r in H2; [|lia]. nia.
Qed.

Lemma used_succ h t : used h t < n - 1 -> used h ((t + 1) mod n) = used h t + 1.
Proof.
  intros H. pose proof (used_range h t). unfold used in *.
  rewrite Zminus_mod_idemp_l. replace (t + 1 - h) with ((t - h) + 1) by lia.
  rewrite <- Zplus_mod_idemp_l. apply Z.mod_small. lia.
Qed.

Lemma used_wrap h t : used h t = n - 1 -> used h ((t + 1) mod n) = 0.
Proof.
  intros H. unfold used in *. rewrite Zminus_mod_idemp_l.
  replace (t + 1 - h) with ((t - h) + 1) by lia.
  rewrite <- Zplus_mod_idemp_l, H. replace (n - 1 + 1) with n by lia. apply Z.mod_same. lia.
Qed.

(** Writing slot [t] and advancing the tail appends. *)
Lemma items_push f g h t :
  0 <= t < n -> used h t < n - 1 -> (forall i, 0 <= i < n -> i <> t -> g i = f i) ->
  items g h ((t + 1) mod n) = items f h t ++ [g t].
Proof.
  intros Ht Hu Hg. pose proof (used_range h t). unfold items.
  rewrite used_succ by done. rewrite seqZ_app by lia. rewrite map_app. f_equal.
  - apply items_ext. intros k Hk. apply Hg; [|by apply slot_ne].
    apply Z.mod_pos_bound. lia.
  - rewrite seqZ_cons, seqZ_nil by lia. cbn [map]. by rewrite Z.add_0_l, slot_tail.
Qed.

(** Writing into a ring that holds [n - 1] items empties it. *)
Lemma items_overflow g h t :
  used h t = n - 1 -> items g h ((t + 1) mod n) = [].
Proof. intros Hu. unfold items. by rewrite used_wrap. Qed.

(** Advancing the head removes the first item. *)
Lemma items_pop f h t :
  0 <= h < n -> 0 <= t < n -> h <> t -> items f h t = f h :: items f ((h + 1) mod n) t.
Proof.
  intros Hh Ht Hne.
  assert (0 < used h t) as Hu.
  { pose proof (used_range h t). destruct (decide (used h t = 0)) as [E|]; [|lia].
    exfalso. apply Hne. rewrite <- (slot_tail h t) by done. rewrite E, Z.add_0_r.
    symmetry. by apply Z.mod_small. }
  assert (used ((h + 1) mod n) t = used h t - 1) as Eu.
  { pose proof (used_range h t). unfold used in *. rewrite Zminus_mod_idemp_r.
    replace (t - (h + 1)) with ((t - h) - 1) by lia.
    rewrite <- Zminus_mod_idemp_l. apply Z.mod_small. lia. }
  unfold items. rewrite Eu, seqZ_cons by lia. cbn [map].
  rewrite Z.add_0_r, (Z.mod_small h) by lia. f_equal.
  change (Z.succ 0) with (1 + 0). rewrite <- fmap_add_seqZ.
  assert (forall (g : Z -> A) l, map g (Z.add 1 <$> l) = map (fun x => g (1 + x)) l) as ->
    by (intros g l; induction l as [|x l IH]; [done|]; rewrite fmap_cons; cbn [map];
        by rewrite IH).
  apply map_ext. intros k.
  rewrite Zplus_mod_idemp_l. f_equal. f_equal. lia.
Qed.
End ring.
