(* ===== verification/Kstate.v ===== *)
(** * Structures and state of the kernel

    The records are the C structures of [proc.h], [spinlock.h], [sleeplock.h],
    [file.h], [buf.h], [x86.h] and of [log.c], [pipe.c] and [console.c], field
    by field; [kstate] holds the kernel's global variables.  A pointer into a
    static table ([ptable.proc], [ftable.file], [icache.inode], [bcache.buf])
    is the index of the entry, the null pointer is [None]; a pointer to a page
    obtained from [kalloc] is its kernel virtual address, 0 when null.

    Not represented: lock names and the saved call stacks of spinlocks (used
    for debugging output only), the segment descriptors of a CPU. *)

From stdpp Require Import base numbers list gmap strings.
From S2P Require Import Prelude Kmonad Params.

Local Open Scope Z_scope.

(** ** Processes *)

Inductive procstate : Set := UNUSED | EMBRYO | SLEEPING | RUNNABLE | RUNNING | ZOMBIE.
#[export] Instance procstate_eq_dec : EqDecision procstate.
Proof. solve_decision. Defined.

(** A sleep-lock is part of a buffer or of a cached inode. *)
Inductive sleepid : Set := SLbuf (i : nat) | SLinode (i : nat).
#[export] Instance sleepid_eq_dec : EqDecision sleepid.
Proof. solve_decision. Defined.

(** Wait channels: the addresses the kernel sleeps on, pairwise distinct. *)
Inductive chan : Set :=
| ChNull
| ChTicks                      (** [&ticks] *)
| ChProc (p : nat)             (** [p], in [wait] *)
| ChRecvQueue (p : nat)        (** [&p->recv_queue] *)
| ChPendingSignals (p : nat)   (** [&p->pending_signals] *)
| ChLog                        (** [&log] *)
| ChBuf (b : nat)              (** [b], in [iderw] *)
| ChSleepLock (l : sleepid)    (** [lk], in [acquiresleep] *)
| ChPipeRead (p : Z)           (** [&p->nread] *)
| ChPipeWrite (p : Z)          (** [&p->nwrite] *)
| ChInput                      (** [&input.r] *).
#[export] Instance chan_eq_dec : EqDecision chan.
Proof. solve_decision. Defined.

(** The spinlocks of the kernel. *)
Inductive lockid : Set :=
| Lptable | Ltickslock | Lkmem | Lftable | Licache | Lbcache | Llog | Lide | Lcons
| Lpipe (p : Z) | Lsleep (l : sleepid).
#[export] Instance lockid_eq_dec : EqDecision lockid.
Proof. solve_decision. Defined.
#[export] Instance lockid_countable : Countable lockid.
Proof.
  refine (inj_countable'
    (fun l => match l with
      | Lptable => (0, 0) | Ltickslock => (1, 0) | Lkmem => (2, 0) | Lftable => (3, 0)
      | Licache => (4, 0) | Lbcache => (5, 0) | Llog => (6, 0) | Lide => (7, 0)
      | Lcons => (8, 0) | Lpipe p => (9, p)
      | Lsleep (SLbuf i) => (10, Z.of_nat i) | Lsleep (SLinode i) => (11, Z.of_nat i)
      end)
    (fun '(n, z) => match n with
      | 0 => Lptable | 1 => Ltickslock | 2 => Lkmem | 3 => Lftable
      | 4 => Licache | 5 => Lbcache | 6 => Llog | 7 => Lide
      | 8 => Lcons | 9 => Lpipe z
      | 10 => Lsleep (SLbuf (Z.to_nat z)) | _ => Lsleep (SLinode (Z.to_nat z))
      end) _).
  intros [| | | | | | | | | |[i|i]]; try done; by rewrite Nat2Z.id.
Defined.

(** [struct trapframe] of x86.h, in memory order. *)
Record trapframe := MkTf {
  tf_edi : Z;
  tf_esi : Z;
  tf_ebp : Z;
  tf_oesp : Z;
  tf_ebx : Z;
  tf_edx : Z;
  tf_ecx : Z;
  tf_eax : Z;
  tf_gs : Z;
  tf_padding1 : Z;
  tf_fs : Z;
  tf_padding2 : Z;
  tf_es : Z;
  tf_padding3 : Z;
  tf_ds : Z;
  tf_padding4 : Z;
  tf_trapno : Z;
  tf_err : Z;
  tf_eip : Z;
  tf_cs : Z;
  tf_padding5 : Z;
  tf_eflags : Z;
  tf_esp : Z;
  tf_ss : Z;
  tf_padding6 : Z
}.
#[export] Instance eta_trapframe : Eta trapframe := fun x =>
  MkTf (tf_edi x) (tf_esi x) (tf_ebp x) (tf_oesp x) (tf_ebx x) (tf_edx x)
  (tf_ecx x) (tf_eax x) (tf_gs x) (tf_padding1 x) (tf_fs x) (tf_padding2 x)
  (tf_es x) (tf_padding3 x) (tf_ds x) (tf_padding4 x) (tf_trapno x)
  (tf_err x) (tf_eip x) (tf_cs x) (tf_padding5 x) (tf_eflags x) (tf_esp x)
  (tf_ss x) (tf_padding6 x).
#[export] Instance set_tf_eax : Setter tf_eax := ltac:(derive_setter).
#[export] Instance set_tf_es : Setter tf_es := ltac:(derive_setter).
#[export] Instance set_tf_ds : Setter tf_ds := ltac:(derive_setter).
#[export] Instance set_tf_eip : Setter tf_eip := ltac:(derive_setter).
#[export] Instance set_tf_cs : Setter tf_cs := ltac:(derive_setter).
#[export] Instance set_tf_eflags : Setter tf_eflags := ltac:(derive_setter).
#[export] Instance set_tf_esp : Setter tf_esp := ltac:(derive_setter).
#[export] Instance set_tf_ss : Setter tf_ss := ltac:(derive_setter).

(** [struct context]: the callee-saved registers of a kernel thread. *)
Record context := MkContext {
  cx_edi : Z;
  cx_esi : Z;
  cx_ebx : Z;
  cx_ebp : Z;
  cx_eip : Z
}.
#[export] Instance eta_context : Eta context := fun x =>
  MkContext (cx_edi x) (cx_esi x) (cx_ebx x) (cx_ebp x) (cx_eip x).

(** [struct message_list]: a ring of [NUM_MSG] messages of [MSGSIZE] bytes. *)
Record message_list := MkMessages {
  ml_sender_id : list Z;
  ml_messages : list (list Z);
  ml_head : Z;
  ml_tail : Z
}.
#[export] Instance eta_message_list : Eta message_list := fun x =>
  MkMessages (ml_sender_id x) (ml_messages x) (ml_head x) (ml_tail x).
#[export] Instance set_ml_sender_id : Setter ml_sender_id := ltac:(derive_setter).
#[export] Instance set_ml_messages : Setter ml_messages := ltac:(derive_setter).
#[export] Instance set_ml_head : Setter ml_head := ltac:(derive_setter).
#[export] Instance set_ml_tail : Setter ml_tail := ltac:(derive_setter).

(** [struct signals]: a ring of [MAX_SIG] pending signals. *)
Record signals := MkSignals {
  sg_sig_num : list Z;
  sg_s_pid : list Z;
  sg_head : Z;
  sg_tail : Z
}.
#[export] Instance eta_signals : Eta signals := fun x =>
  MkSignals (sg_sig_num x) (sg_s_pid x) (sg_head x) (sg_tail x).
#[export] Instance set_sg_sig_num : Setter sg_sig_num := ltac:(derive_setter).
#[export] Instance set_sg_s_pid : Setter sg_s_pid := ltac:(derive_setter).
#[export] Instance set_sg_head : Setter sg_head := ltac:(derive_setter).
#[export] Instance set_sg_tail : Setter sg_tail := ltac:(derive_setter).

(** [struct proc]. *)
Record proc := MkProc {
  p_sz : Z;  (** size of process memory (bytes) *)
  p_pgdir : Z;  (** page table *)
  p_kstack : Z;  (** bottom of the kernel stack *)
  p_state : procstate;
  p_pid : Z;
  p_parent : option nat;
  p_tf : trapframe;  (** [*p->tf] *)
  p_context : context;  (** [*p->context] *)
  p_chan : chan;
  p_killed : Z;
  p_ofile : list (option nat);
  p_cwd : option nat;
  p_name : list Z;  (** 16 bytes *)
  p_recv_queue : message_list;  (** unicast messages *)
  p_recv_multi_queue : message_list;  (** multicast messages *)
  p_handler : Z;  (** signal handler *)
  p_pending_signals : signals;
  p_handling : Z  (** 1 while a handler runs *)
}.
#[export] Instance eta_proc : Eta proc := fun x =>
  MkProc (p_sz x) (p_pgdir x) (p_kstack x) (p_state x) (p_pid x) (p_parent x)
  (p_tf x) (p_context x) (p_chan x) (p_killed x) (p_ofile x) (p_cwd x)
  (p_name x) (p_recv_queue x) (p_recv_multi_queue x) (p_handler x)
  (p_pending_signals x) (p_handling x).
#[export] Instance set_p_sz : Setter p_sz := ltac:(derive_setter).
#[export] Instance set_p_pgdir : Setter p_pgdir := ltac:(derive_setter).
#[export] Instance set_p_kstack : Setter p_kstack := ltac:(derive_setter).
#[export] Instance set_p_state : Setter p_state := ltac:(derive_setter).
#[export] Instance set_p_pid : Setter p_pid := ltac:(derive_setter).
#[export] Instance set_p_parent : Setter p_parent := ltac:(derive_setter).
#[export] Instance set_p_tf : Setter p_tf := ltac:(derive_setter).
#[export] Instance set_p_context : Setter p_context := ltac:(derive_setter).
#[export] Instance set_p_chan : Setter p_chan := ltac:(derive_setter).
#[export] Instance set_p_killed : Setter p_killed := ltac:(derive_setter).
#[export] Instance set_p_ofile : Setter p_ofile := ltac:(derive_setter).
#[export] Instance set_p_cwd : Setter p_cwd := ltac:(derive_setter).
#[export] Instance set_p_name : Setter p_name := ltac:(derive_setter).
#[export] Instance set_p_recv_queue : Setter p_recv_queue := ltac:(derive_setter).
#[export] Instance set_p_recv_multi_queue : Setter p_recv_multi_queue := ltac:(derive_setter).
#[export] Instance set_p_handler : Setter p_handler := ltac:(derive_setter).
#[export] Instance set_p_pending_signals : Setter p_pending_signals := ltac:(derive_setter).
#[export] Instance set_p_handling : Setter p_handling := ltac:(derive_setter).

(** ** CPUs and locks *)

(** [struct cpu] and the registers of the CPU the kernel reads or sets. *)
Record cpu := MkCpu {
  cpu_apicid : Z;
  cpu_started : Z;
  cpu_ncli : Z;  (** depth of [pushcli] nesting *)
  cpu_intena : Z;  (** were interrupts enabled before [pushcli]? *)
  cpu_proc : option nat;  (** the process running here *)
  cpu_if : bool;  (** the interrupt flag of EFLAGS *)
  cpu_cr3 : Z;  (** page table register *)
  cpu_esp0 : Z  (** [ts.esp0] *)
}.
#[export] Instance eta_cpu : Eta cpu := fun x =>
  MkCpu (cpu_apicid x) (cpu_started x) (cpu_ncli x) (cpu_intena x)
  (cpu_proc x) (cpu_if x) (cpu_cr3 x) (cpu_esp0 x).
#[export] Instance set_cpu_apicid : Setter cpu_apicid := ltac:(derive_setter).
#[export] Instance set_cpu_started : Setter cpu_started := ltac:(derive_setter).
#[export] Instance set_cpu_ncli : Setter cpu_ncli := ltac:(derive_setter).
#[export] Instance set_cpu_intena : Setter cpu_intena := ltac:(derive_setter).
#[export] Instance set_cpu_proc : Setter cpu_proc := ltac:(derive_setter).
#[export] Instance set_cpu_if : Setter cpu_if := ltac:(derive_setter).
#[export] Instance set_cpu_cr3 : Setter cpu_cr3 := ltac:(derive_setter).
#[export] Instance set_cpu_esp0 : Setter cpu_esp0 := ltac:(derive_setter).

(** [struct spinlock]. *)
Record spinlock := MkLock {
  lk_locked : Z;
  lk_cpu : option nat
}.
#[export] Instance eta_spinlock : Eta spinlock := fun x =>
  MkLock (lk_locked x) (lk_cpu x).
#[export] Instance set_lk_locked : Setter lk_locked := ltac:(derive_setter).
#[export] Instance set_lk_cpu : Setter lk_cpu := ltac:(derive_setter).

(** [struct sleeplock]; its spinlock is [Lsleep]. *)
Record sleeplock := MkSleeplock {
  sl_locked : Z;
  sl_pid : Z
}.
#[export] Instance eta_sleeplock : Eta sleeplock := fun x =>
  MkSleeplock (sl_locked x) (sl_pid x).
#[export] Instance set_sl_locked : Setter sl_locked := ltac:(derive_setter).
#[export] Instance set_sl_pid : Setter sl_pid := ltac:(derive_setter).

(** ** Files, inodes, buffers *)

Inductive filetype : Set := FD_NONE | FD_PIPE | FD_INODE.
#[export] Instance filetype_eq_dec : EqDecision filetype.
Proof. solve_decision. Defined.

(** [struct file]. *)
Record file := MkFile {
  f_type : filetype;
  f_ref : Z;
  f_readable : Z;
  f_writable : Z;
  f_pipe : Z;
  f_ip : option nat;
  f_off : Z
}.
#[export] Instance eta_file : Eta file := fun x =>
  MkFile (f_type x) (f_ref x) (f_readable x) (f_writable x) (f_pipe x)
  (f_ip x) (f_off x).
#[export] Instance set_f_type : Setter f_type := ltac:(derive_setter).
#[export] Instance set_f_ref : Setter f_ref := ltac:(derive_setter).
#[export] Instance set_f_readable : Setter f_readable := ltac:(derive_setter).
#[export] Instance set_f_writable : Setter f_writable := ltac:(derive_setter).
#[export] Instance set_f_pipe : Setter f_pipe := ltac:(derive_setter).
#[export] Instance set_f_ip : Setter f_ip := ltac:(derive_setter).
#[export] Instance set_f_off : Setter f_off := ltac:(derive_setter).

(** [struct inode]: the cached copy of a disk inode. *)
Record inode := MkInode {
  i_dev : Z;
  i_inum : Z;
  i_ref : Z;
  i_lock : sleeplock;
  i_valid : Z;
  i_type : Z;
  i_major : Z;
  i_minor : Z;
  i_nlink : Z;
  i_size : Z;
  i_addrs : list Z  (** [NDIRECT+1] block numbers *)
}.
#[export] Instance eta_inode : Eta inode := fun x =>
  MkInode (i_dev x) (i_inum x) (i_ref x) (i_lock x) (i_valid x) (i_type x)
  (i_major x) (i_minor x) (i_nlink x) (i_size x) (i_addrs x).
#[export] Instance set_i_dev : Setter i_dev := ltac:(derive_setter).
#[export] Instance set_i_inum : Setter i_inum := ltac:(derive_setter).
#[export] Instance set_i_ref : Setter i_ref := ltac:(derive_setter).
#[export] Instance set_i_lock : Setter i_lock := ltac:(derive_setter).
#[export] Instance set_i_valid : Setter i_valid := ltac:(derive_setter).
#[export] Instance set_i_type : Setter i_type := ltac:(derive_setter).
#[export] Instance set_i_major : Setter i_major := ltac:(derive_setter).
#[export] Instance set_i_minor : Setter i_minor := ltac:(derive_setter).
#[export] Instance set_i_nlink : Setter i_nlink := ltac:(derive_setter).
#[export] Instance set_i_size : Setter i_size := ltac:(derive_setter).
#[export] Instance set_i_addrs : Setter i_addrs := ltac:(derive_setter).

(** A link of the buffer list: the list head or a buffer. *)
Inductive bufptr : Set := BHead | BBuf (i : nat).
#[export] Instance bufptr_eq_dec : EqDecision bufptr.
Proof. solve_decision. Defined.

(** [struct buf]; the disk queue through [qnext] is [k_idequeue]. *)
Record buf := MkBuf {
  b_flags : Z;
  b_dev : Z;
  b_blockno : Z;
  b_lock : sleeplock;
  b_refcnt : Z;
  b_prev : bufptr;
  b_next : bufptr;
  b_data : list Z  (** [BSIZE] bytes *)
}.
#[export] Instance eta_buf : Eta buf := fun x =>
  MkBuf (b_flags x) (b_dev x) (b_blockno x) (b_lock x) (b_refcnt x)
  (b_prev x) (b_next x) (b_data x).
#[export] Instance set_b_flags : Setter b_flags := ltac:(derive_setter).
#[export] Instance set_b_dev : Setter b_dev := ltac:(derive_setter).
#[export] Instance set_b_blockno : Setter b_blockno := ltac:(derive_setter).
#[export] Instance set_b_lock : Setter b_lock := ltac:(derive_setter).
#[export] Instance set_b_refcnt : Setter b_refcnt := ltac:(derive_setter).
#[export] Instance set_b_prev : Setter b_prev := ltac:(derive_setter).
#[export] Instance set_b_next : Setter b_next := ltac:(derive_setter).
#[export] Instance set_b_data : Setter b_data := ltac:(derive_setter).

(** [struct superblock]. *)
Record superblock := MkSb {
  sb_size : Z;
  sb_nblocks : Z;
  sb_ninodes : Z;
  sb_nlog : Z;
  sb_logstart : Z;
  sb_inodestart : Z;
  sb_bmapstart : Z
}.
#[export] Instance eta_superblock : Eta superblock := fun x =>
  MkSb (sb_size x) (sb_nblocks x) (sb_ninodes x) (sb_nlog x) (sb_logstart x)
  (sb_inodestart x) (sb_bmapstart x).

(** [struct log] and its [struct logheader]. *)
Record log := MkLog {
  lg_start : Z;
  lg_size : Z;
  lg_outstanding : Z;
  lg_committing : Z;
  lg_dev : Z;
  lg_n : Z;  (** [lh.n] *)
  lg_block : list Z  (** [lh.block] *)
}.
#[export] Instance eta_log : Eta log := fun x =>
  MkLog (lg_start x) (lg_size x) (lg_outstanding x) (lg_committing x)
  (lg_dev x) (lg_n x) (lg_block x).
#[export] Instance set_lg_start : Setter lg_start := ltac:(derive_setter).
#[export] Instance set_lg_size : Setter lg_size := ltac:(derive_setter).
#[export] Instance set_lg_outstanding : Setter lg_outstanding := ltac:(derive_setter).
#[export] Instance set_lg_committing : Setter lg_committing := ltac:(derive_setter).
#[export] Instance set_lg_dev : Setter lg_dev := ltac:(derive_setter).
#[export] Instance set_lg_n : Setter lg_n := ltac:(derive_setter).
#[export] Instance set_lg_block : Setter lg_block := ltac:(derive_setter).

(** [struct pipe]. *)
Record pipe := MkPipe {
  pi_data : list Z;  (** [PIPESIZE] bytes *)
  pi_nread : Z;
  pi_nwrite : Z;
  pi_readopen : Z;
  pi_writeopen : Z
}.
#[export] Instance eta_pipe : Eta pipe := fun x =>
  MkPipe (pi_data x) (pi_nread x) (pi_nwrite x) (pi_readopen x)
  (pi_writeopen x).
#[export] Instance set_pi_data : Setter pi_data := ltac:(derive_setter).
#[export] Instance set_pi_nread : Setter pi_nread := ltac:(derive_setter).
#[export] Instance set_pi_nwrite : Setter pi_nwrite := ltac:(derive_setter).
#[export] Instance set_pi_readopen : Setter pi_readopen := ltac:(derive_setter).
#[export] Instance set_pi_writeopen : Setter pi_writeopen := ltac:(derive_setter).

(** The console [input] buffer. *)
Record input := MkInput {
  in_buf : list Z;  (** [INPUT_BUF] bytes *)
  in_r : Z;  (** read index *)
  in_w : Z;  (** write index *)
  in_e : Z  (** edit index *)
}.
#[export] Instance eta_input : Eta input := fun x =>
  MkInput (in_buf x) (in_r x) (in_w x) (in_e x).
#[export] Instance set_in_buf : Setter in_buf := ltac:(derive_setter).
#[export] Instance set_in_r : Setter in_r := ltac:(derive_setter).
#[export] Instance set_in_w : Setter in_w := ltac:(derive_setter).
#[export] Instance set_in_e : Setter in_e := ltac:(derive_setter).

(** Values fixed when the kernel is linked and assembled. *)
Record linkmap := MkLink {
  ln_end : Z;  (** first address after the kernel *)
  ln_data : Z;  (** start of kernel data *)
  ln_forkret : Z;
  ln_trapret : Z;
  ln_sigret_code : list Z;  (** the bytes of [sigretcode.S] *)
  ln_initcode : list Z  (** the bytes of [initcode.S] *)
}.
#[export] Instance eta_linkmap : Eta linkmap := fun x =>
  MkLink (ln_end x) (ln_data x) (ln_forkret x) (ln_trapret x)
  (ln_sigret_code x) (ln_initcode x).

(** ** The state *)

(** The global variables of the kernel and the devices it drives. *)
Record kstate := MkK {
  k_link : linkmap;
  k_apicid : Z;  (** LAPIC id register of the CPU that runs *)
  k_cpus : list cpu;  (** [cpus], [ncpu] entries *)
  k_locks : gmap lockid spinlock;  (** unlocked where absent *)
  k_ptable : list proc;  (** [NPROC] entries *)
  k_nextpid : Z;
  k_initproc : option nat;
  k_mem : gmap Z Z;  (** physical memory, by byte *)
  k_freelist : Z;  (** [kmem.freelist] *)
  k_use_lock : Z;  (** [kmem.use_lock] *)
  k_kpgdir : Z;
  k_ticks : Z;
  k_toggle : Z;
  k_syscall_count : list Z;
  k_ftable : list file;
  k_pipes : gmap Z pipe;  (** by address of the page *)
  k_icache : list inode;
  k_sb : superblock;
  k_bufs : list buf;
  k_bhead : bufptr * bufptr;  (** [head.prev], [head.next] *)
  k_log : log;
  k_idequeue : list nat;
  k_havedisk1 : Z;
  k_disk : list (Z * Z * list Z);  (** writes to the disk, newest first *)
  k_input : input;
  k_locking : Z;  (** [cons.locking] *)
  k_out : list Z;  (** bytes sent to the serial port, newest first *)
  k_crt : gmap Z Z;  (** CGA memory by cell, 80 cells a row *)
  k_crtpos : Z;  (** CGA cursor register *)
  k_first : Z;  (** [first] of [forkret] *)
  k_shift : Z  (** [shift] of [kbdgetc] *)
}.
#[export] Instance eta_kstate : Eta kstate := fun x =>
  MkK (k_link x) (k_apicid x) (k_cpus x) (k_locks x) (k_ptable x)
  (k_nextpid x) (k_initproc x) (k_mem x) (k_freelist x) (k_use_lock x)
  (k_kpgdir x) (k_ticks x) (k_toggle x) (k_syscall_count x) (k_ftable x)
  (k_pipes x) (k_icache x) (k_sb x) (k_bufs x) (k_bhead x) (k_log x)
  (k_idequeue x) (k_havedisk1 x) (k_disk x) (k_input x) (k_locking x)
  (k_out x) (k_crt x) (k_crtpos x) (k_first x) (k_shift x).
#[export] Instance set_k_link : Setter k_link := ltac:(derive_setter).
#[export] Instance set_k_apicid : Setter k_apicid := ltac:(derive_setter).
#[export] Instance set_k_cpus : Setter k_cpus := ltac:(derive_setter).
#[export] Instance set_k_locks : Setter k_locks := ltac:(derive_setter).
#[export] Instance set_k_ptable : Setter k_ptable := ltac:(derive_setter).
#[export] Instance set_k_nextpid : Setter k_nextpid := ltac:(derive_setter).
#[export] Instance set_k_initproc : Setter k_initproc := ltac:(derive_setter).
#[export] Instance set_k_mem : Setter k_mem := ltac:(derive_setter).
#[export] Instance set_k_freelist : Setter k_freelist := ltac:(derive_setter).
#[export] Instance set_k_use_lock : Setter k_use_lock := ltac:(derive_setter).
#[export] Instance set_k_kpgdir : Setter k_kpgdir := ltac:(derive_setter).
#[export] Instance set_k_ticks : Setter k_ticks := ltac:(derive_setter).
#[export] Instance set_k_toggle : Setter k_toggle := ltac:(derive_setter).
#[export] Instance set_k_syscall_count : Setter k_syscall_count := ltac:(derive_setter).
#[export] Instance set_k_ftable : Setter k_ftable := ltac:(derive_setter).
#[export] Instance set_k_pipes : Setter k_pipes := ltac:(derive_setter).
#[export] Instance set_k_icache : Setter k_icache := ltac:(derive_setter).
#[export] Instance set_k_sb : Setter k_sb := ltac:(derive_setter).
#[export] Instance set_k_bufs : Setter k_bufs := ltac:(derive_setter).
#[export] Instance set_k_bhead : Setter k_bhead := ltac:(derive_setter).
#[export] Instance set_k_log : Setter k_log := ltac:(derive_setter).
#[export] Instance set_k_idequeue : Setter k_idequeue := ltac:(derive_setter).
#[export] Instance set_k_havedisk1 : Setter k_havedisk1 := ltac:(derive_setter).
#[export] Instance set_k_disk : Setter k_disk := ltac:(derive_setter).
#[export] Instance set_k_input : Setter k_input := ltac:(derive_setter).
#[export] Instance set_k_locking : Setter k_locking := ltac:(derive_setter).
#[export] Instance set_k_out : Setter k_out := ltac:(derive_setter).
#[export] Instance set_k_crt : Setter k_crt := ltac:(derive_setter).
#[export] Instance set_k_crtpos : Setter k_crtpos := ltac:(derive_setter).
#[export] Instance set_k_first : Setter k_first := ltac:(derive_setter).
#[export] Instance set_k_shift : Setter k_shift := ltac:(derive_setter).

(** What a suspended kernel thread waits for. *)
Inductive waitfor : Set :=
| WSched                 (** in [swtch] to the scheduler: to be picked again *)
| WRun (p : nat)         (** the scheduler: for process [p] to [swtch] back *)
| WSpin (lk : lockid)    (** in [acquire]: for another CPU to release [lk] *).

Abbreviation KM := (K waitfor kstate).

(** ** Access to table entries *)

Open Scope kern_scope.

Definition get_p (i : nat) : KM proc :=
  let* t := gets k_ptable in deref "ptable index" (t !! i).
Definition upd_p (i : nat) (f : proc -> proc) : KM unit :=
  modify (set k_ptable (alter f i)).
Definition get_f (i : nat) : KM file :=
  let* t := gets k_ftable in deref "ftable index" (t !! i).
Definition upd_f (i : nat) (f : file -> file) : KM unit :=
  modify (set k_ftable (alter f i)).
Definition get_i (i : nat) : KM inode :=
  let* t := gets k_icache in deref "icache index" (t !! i).
Definition upd_i (i : nat) (f : inode -> inode) : KM unit :=
  modify (set k_icache (alter f i)).
Definition get_b (i : nat) : KM buf :=
  let* t := gets k_bufs in deref "bcache index" (t !! i).
Definition upd_b (i : nat) (f : buf -> buf) : KM unit :=
  modify (set k_bufs (alter f i)).

(** The slots of the process table, in the order the kernel scans them. *)
Definition proc_slots : list nat := seq 0 NPROC.

Lemma get_p_Ok i p s : k_ptable s !! i = Some p -> get_p i s = Ok p s.
Proof. intros E. unfold get_p. kstep. rewrite E. done. Qed.

(** ** The state at power-on: static storage is zero

    [nextpid] and [first] are initialised to 1; the link map, the CPUs found
    by [mpinit] and the contents of the disk are given. *)

Definition tf0 : trapframe := MkTf 0 0 0 0 0 0 0 0 0 0 0 0 0 0 0 0 0 0 0 0 0 0 0 0 0.
Definition context0 : context := MkContext 0 0 0 0 0.
Definition messages0 : message_list :=
  MkMessages (replicate (Z.to_nat NUM_MSG) 0)
    (replicate (Z.to_nat NUM_MSG) (replicate (Z.to_nat MSGSIZE) 0)) 0 0.
Definition signals0 : signals :=
  MkSignals (replicate (Z.to_nat MAX_SIG) 0) (replicate (Z.to_nat MAX_SIG) 0) 0 0.
Definition proc0 : proc :=
  MkProc 0 0 0 UNUSED 0 None tf0 context0 ChNull 0 (replicate NOFILE None) None
    (replicate 16 0) messages0 messages0 0 signals0 0.
Definition sleeplock0 : sleeplock := MkSleeplock 0 0.
Definition file0 : file := MkFile FD_NONE 0 0 0 0 None 0.
Definition inode0 : inode :=
  MkInode 0 0 0 sleeplock0 0 0 0 0 0 0 (replicate (S NDIRECT) 0).
Definition buf0 : buf := MkBuf 0 0 0 sleeplock0 0 BHead BHead (replicate (Z.to_nat BSIZE) 0).
Definition log0 : log := MkLog 0 0 0 0 0 0 (replicate (Z.to_nat LOGSIZE) 0).
Definition cpu0 (apicid : Z) : cpu := MkCpu apicid 0 0 0 None false 0 0.

Definition bss (ln : linkmap) (cpus : list cpu) (disk : list (Z * Z * list Z)) : kstate :=
  MkK ln 0 cpus ∅ (replicate NPROC proc0) 1 None ∅ 0 0 0 0 0 (replicate 32 0)
    (replicate NFILE file0) ∅ (replicate NINODE inode0) (MkSb 0 0 0 0 0 0 0)
    (replicate NBUF buf0) (BHead, BHead) log0 [] 0 disk
    (MkInput (replicate 128 0) 0 0 0) 0 [] ∅ 0 1 0.
