(* ===== verification/Spinlock.v ===== *)
(** * CPUs and spinlocks

    [mycpu], [cpuid] and [myproc] of proc.c, and spinlock.c: [pushcli],
    [popcli], [holding], [acquire], [release].  The [xchg] loop of [acquire]
    waits ([WSpin]) while another CPU holds the lock. *)

From stdpp Require Import base numbers list gmap strings.
From S2P Require Import Prelude Kmonad Params Kstate.

Local Open Scope Z_scope.

(** ** The code *)

(** The CPU that executes: the entry of [cpus] with the LAPIC id of the
    processor.  Registers of the processor ([EFLAGS], [CR3]) live there. *)
Definition cur_cpu (s : kstate) : option nat :=
  find_idx (fun c => cpu_apicid c =? k_apicid s) (k_cpus s).

Definition get_cpu (i : nat) : KM cpu :=
  let* l := gets k_cpus in deref "cpus index" (l !! i).
Definition upd_cpu (i : nat) (f : cpu -> cpu) : KM unit :=
  modify (set k_cpus (alter f i)).
Definition this_cpu : KM nat :=
  let* o := gets cur_cpu in deref "no such CPU" o.

(** x86.h: [readeflags] (the interrupt flag only), [cli], [sti]. *)
Definition readeflags : KM Z :=
  let* i := this_cpu in
  let* c := get_cpu i in
  ret (if cpu_if c then FL_IF else 0).
Definition cli : KM unit :=
  let* i := this_cpu in upd_cpu i (fun c => c <| cpu_if := false |>).
Definition sti : KM unit :=
  let* i := this_cpu in upd_cpu i (fun c => c <| cpu_if := true |>).

Definition mycpu : KM nat :=
  let* fl := readeflags in
  if negb (Z.land fl FL_IF =? 0) then panic "mycpu called with interrupts enabled" else
  let* apicid := gets k_apicid in
  let* cpus := gets k_cpus in
  let* r := for_break (seq 0 (length cpus)) (fun i =>
    let* c := get_cpu i in
    ret (if cpu_apicid c =? apicid then Some i else None)) in
  match r with Some i => ret i | None => panic "unknown apicid" end.

Definition cpuid : KM nat := mycpu.

Definition pushcli : KM unit :=
  let* eflags := readeflags in
  cli ;;
  let* i := mycpu in
  let* c := get_cpu i in
  when (cpu_ncli c =? 0) (
    let* j := mycpu in upd_cpu j (fun c => c <| cpu_intena := Z.land eflags FL_IF |>)) ;;
  let* i := mycpu in
  upd_cpu i (fun c => c <| cpu_ncli := cpu_ncli c + 1 |>).

Definition popcli : KM unit :=
  let* fl := readeflags in
  if negb (Z.land fl FL_IF =? 0) then panic "popcli - interruptible" else
  let* i := mycpu in
  upd_cpu i (fun c => c <| cpu_ncli := cpu_ncli c - 1 |>) ;;
  let* c := get_cpu i in
  if cpu_ncli c <? 0 then panic "popcli" else
  let* i := mycpu in
  let* c := get_cpu i in
  when ((cpu_ncli c =? 0) && negb (cpu_intena c =? 0)) sti.

Definition myproc : KM (option nat) :=
  pushcli ;;
  let* i := mycpu in
  let* c := get_cpu i in
  popcli ;;
  ret (cpu_proc c).

(** [myproc()->...]: the current process, which has to exist. *)
Definition curproc : KM nat :=
  let* o := myproc in deref "null proc" o.

Definition lock_of (s : kstate) (lk : lockid) : spinlock :=
  default (MkLock 0 None) (k_locks s !! lk).
Definition get_lk (lk : lockid) : KM spinlock := gets (fun s => lock_of s lk).
Definition put_lk (lk : lockid) (v : spinlock) : KM unit :=
  modify (set k_locks (insert lk v)).

Definition initlock (lk : lockid) : KM unit := put_lk lk (MkLock 0 None).

Definition holding (lk : lockid) : KM bool :=
  pushcli ;;
  let* l := get_lk lk in
  let* r := (if lk_locked l =? 0 then ret false
             else let* i := mycpu in ret (bool_decide (lk_cpu l = Some i))) in
  popcli ;;
  ret r.

(** [while (xchg(&lk->locked, 1) != 0) ;].  A round of the loop that finds the
    lock held changes nothing (it writes the 1 that is there), so that the
    rounds in which it is held are one suspension: the computation is resumed
    in a state in which the lock is free.  [NoFuel] is the outcome of resuming
    it in any other state, where the loop would go on. *)
Definition spin (lk : lockid) : KM unit :=
  let* l := get_lk lk in
  if lk_locked l =? 0 then put_lk lk (l <| lk_locked := 1 |>)
  else
    suspend (WSpin lk) ;;
    let* l := get_lk lk in
    if lk_locked l =? 0 then put_lk lk (l <| lk_locked := 1 |>) else nofuel.

Definition acquire (lk : lockid) : KM unit :=
  pushcli ;;
  let* h := holding lk in
  if (h : bool) then panic "acquire" else
  spin lk ;;
  let* i := mycpu in
  let* l := get_lk lk in
  put_lk lk (l <| lk_cpu := Some i |>).

Definition release (lk : lockid) : KM unit :=
  let* h := holding lk in
  if negb h then panic "release" else
  let* l := get_lk lk in
  put_lk lk (l <| lk_cpu := None |>) ;;
  let* l := get_lk lk in
  put_lk lk (l <| lk_locked := 0 |>) ;;
  popcli.

(** ** What they do

    [running c cp s]: the code runs on CPU number [c], whose record is [cp]. *)

Definition running (c : nat) (cp : cpu) (s : kstate) : Prop :=
  cur_cpu s = Some c /\ k_cpus s !! c = Some cp.

(** The effect of [pushcli] and [popcli] on the CPU record. *)
Definition cpu_push (cp : cpu) : cpu :=
  cp <| cpu_if := false |>
     <| cpu_intena := if cpu_ncli cp =? 0 then (if cpu_if cp then FL_IF else 0)
                      else cpu_intena cp |>
     <| cpu_ncli := cpu_ncli cp + 1 |>.
Definition cpu_pop (cp : cpu) : cpu :=
  cp <| cpu_ncli := cpu_ncli cp - 1 |>
     <| cpu_if := (cpu_ncli cp =? 1) && negb (cpu_intena cp =? 0) |>.

Definition on_cpu (c : nat) (f : cpu -> cpu) (s : kstate) : kstate :=
  set k_cpus (alter f c) s.

Lemma find_idx_alter {A} (t : A -> bool) (f : A -> A) l i :
  (forall x, t (f x) = t x) -> find_idx t (alter f i l) = find_idx t l.
Proof.
  intros Hf. revert i. induction l as [|x l IH]; intros [|i]; simpl; try done.
  - by rewrite Hf.
  - fold (alter f i l). by rewrite IH.
Qed.

Lemma running_on_cpu c cp f s :
  (forall x, cpu_apicid (f x) = cpu_apicid x) ->
  running c cp s -> running c (f cp) (on_cpu c f s).
Proof.
  intros Hf [Hc Hl]. split.
  - unfold cur_cpu, on_cpu. simpl. rewrite find_idx_alter; [done|].
    intros x. by rewrite Hf.
  - unfold on_cpu. simpl. rewrite list_lookup_alter_eq, Hl. done.
Qed.

Section prims.
Context (c : nat) (cp : cpu) (s : kstate).
Hypothesis Hrun : running c cp s.

Lemma this_cpu_Ok : this_cpu s = Ok c s.
Proof. destruct Hrun as [E _]. unfold this_cpu. kstep. by rewrite E. Qed.

Lemma get_cpu_Ok : get_cpu c s = Ok cp s.
Proof. destruct Hrun as [_ E]. unfold get_cpu. kstep. by rewrite E. Qed.

Lemma readeflags_Ok : readeflags s = Ok (if cpu_if cp then FL_IF else 0) s.
Proof. unfold readeflags. pose proof this_cpu_Ok. pose proof get_cpu_Ok. by ksteps. Qed.

Lemma cli_Ok : cli s = Ok tt (on_cpu c (fun x => x <| cpu_if := false |>) s).
Proof. unfold cli. pose proof this_cpu_Ok. by ksteps. Qed.

Lemma sti_Ok : sti s = Ok tt (on_cpu c (fun x => x <| cpu_if := true |>) s).
Proof. unfold sti. pose proof this_cpu_Ok. by ksteps. Qed.

(** The search by LAPIC id finds the CPU that executes. *)
Lemma mycpu_search :
  for_break (seq 0 (length (k_cpus s))) (fun i =>
    let* x := get_cpu i in
    ret (if cpu_apicid x =? k_apicid s then Some i else None)) s = Ok (Some c) s.
Proof.
  destruct Hrun as [Hc _]. unfold cur_cpu in Hc.
  assert (forall l off, (forall i, k_cpus s !! (off + i)%nat = l !! i) ->
    find_idx (fun x => cpu_apicid x =? k_apicid s) l = Some (c - off)%nat ->
    (off <= c)%nat ->
    for_break (seq off (length l)) (fun i =>
      let* x := get_cpu i in
      ret (if cpu_apicid x =? k_apicid s then Some i else None)) s = Ok (Some c) s) as Hgen.
  { intros l. induction l as [|x l IH]; intros off Hl Hf Hle; simpl in *; [done|].
    assert (get_cpu off s = Ok x s) as E.
    { unfold get_cpu. kstep. specialize (Hl 0%nat). rewrite Nat.add_0_r in Hl.
      rewrite Hl. done. }
    erewrite bind_Ok by (rewrite (bind_Ok _ _ _ _ _ E); reflexivity). cbv beta.
    destruct (cpu_apicid x =? k_apicid s).
    - injection Hf as Hf. replace c with off by lia. done.
    - destruct (find_idx _ l) as [k|] eqn:Ek; [|done]. injection Hf as Hf.
      apply IH; [|f_equal; lia|lia].
      intros i. specialize (Hl (S i)). by rewrite <- Nat.add_succ_comm in Hl. }
  apply (Hgen (k_cpus s) 0%nat); [done|by rewrite Nat.sub_0_r|lia].
Qed.

Lemma mycpu_Ok : cpu_if cp = false -> mycpu s = Ok c s.
Proof.
  intros Hif. unfold mycpu.
  pose proof readeflags_Ok as E. rewrite Hif in E. kstep. simpl. ksteps.
  by rewrite (bind_Ok _ _ _ _ _ mycpu_search).
Qed.

Lemma mycpu_Panic :
  cpu_if cp = true -> mycpu s = Panic "mycpu called with interrupts enabled" s.
Proof. intros Hif. unfold mycpu. pose proof readeflags_Ok as E. rewrite Hif in E. by kstep. Qed.
End prims.

Lemma on_cpu_ext c cp f g s :
  running c cp s -> f cp = g cp -> on_cpu c f s = on_cpu c g s.
Proof.
  intros [_ Hl] E. unfold on_cpu, set, set_k_cpus. f_equal.
  apply list_alter_ext; [|done]. intros x Hx. congruence.
Qed.

Lemma on_cpu_comp c f g s : on_cpu c f (on_cpu c g s) = on_cpu c (fun x => f (g x)) s.
Proof.
  unfold on_cpu, set, set_k_cpus. simpl. f_equal. apply list_alter_alter_eq.
Qed.

Lemma on_cpu_id c cp f s : running c cp s -> f cp = cp -> on_cpu c f s = s.
Proof.
  intros [_ Hl] E. unfold on_cpu, set, set_k_cpus. destruct s; simpl in *. f_equal.
  by eapply list_alter_same.
Qed.

#[export] Hint Resolve running_on_cpu : kern.

(** Take one step of straight-line code of which the CPU is known. *)
Ltac cpu_step :=
  match goal with
  | H : running ?c ?cp ?s |- context [bind readeflags ?f ?s] =>
      rewrite (bind_Ok _ f _ _ _ (readeflags_Ok c cp s H))
  | H : running ?c ?cp ?s |- context [bind cli ?f ?s] =>
      rewrite (bind_Ok _ f _ _ _ (cli_Ok c cp s H))
  | H : running ?c ?cp ?s |- context [bind mycpu ?f ?s] =>
      rewrite (bind_Ok _ f _ _ _ (mycpu_Ok c cp s H ltac:(simpl; done)))
  | H : running ?c ?cp ?s |- context [bind (get_cpu ?c) ?f ?s] =>
      rewrite (bind_Ok _ f _ _ _ (get_cpu_Ok c cp s H))
  | |- context [bind (upd_cpu ?c ?g) ?f ?s] =>
      change (bind (upd_cpu c g) f s) with (f tt (on_cpu c g s)); cbv beta
  | |- context [upd_cpu ?c ?g ?s] => change (upd_cpu c g s) with (Ok (W:=waitfor) tt (on_cpu c g s))
  end.

(** Record that the CPU still runs after one of its fields changed. *)
Ltac cpu_run H g :=
  match type of H with
  | running ?c ?cp ?s =>
      let R := fresh "Hrun" in
      assert (running c (g cp) (on_cpu c g s)) as R by (apply running_on_cpu; [done|exact H])
  end.

Lemma bind_bind {W St A B C} (m : K W St A) (f : A -> K W St B) (g : B -> K W St C) s a s' :
  m s = Ok a s' -> bind (bind m f) g s = bind (f a) g s'.
Proof. intros E. unfold bind. rewrite E. done. Qed.

Lemma pushcli_Ok c cp s : running c cp s -> pushcli s = Ok tt (on_cpu c cpu_push s).
Proof.
  intros H. unfold pushcli. cpu_step. cpu_step.
  set (g1 := fun x : cpu => x <| cpu_if := false |>).
  cpu_run H g1. do 2 cpu_step. simpl cpu_ncli.
  destruct (cpu_ncli cp =? 0) eqn:En; unfold when.
  - set (g2 := fun x : cpu => x <| cpu_intena := Z.land (if cpu_if cp then FL_IF else 0) FL_IF |>).
    cpu_run Hrun g2.
    rewrite (bind_Ok _ _ _ tt (on_cpu c g2 (on_cpu c g1 s)))
      by (cpu_step; cpu_step; reflexivity).
    do 2 cpu_step. rewrite !on_cpu_comp. f_equal. eapply on_cpu_ext; [done|].
    unfold cpu_push. rewrite En. unfold g1, g2. simpl. by destruct (cpu_if cp).
  - kstep. do 2 cpu_step. rewrite !on_cpu_comp. f_equal. eapply on_cpu_ext; [done|].
    unfold cpu_push. by rewrite En.
Qed.

Lemma popcli_Ok c cp s :
  running c cp s -> cpu_if cp = false -> 1 <= cpu_ncli cp ->
  popcli s = Ok tt (on_cpu c cpu_pop s).
Proof.
  intros H Hif Hn. unfold popcli. cpu_step. rewrite Hif. simpl. cpu_step. cpu_step.
  set (g1 := fun x : cpu => x <| cpu_ncli := cpu_ncli x - 1 |>).
  cpu_run H g1. assert (cpu_if (g1 cp) = false) as Hif1 by done.
  cpu_step. simpl. destruct (Z.ltb_spec (cpu_ncli cp - 1) 0); [lia|].
  do 2 cpu_step. simpl. unfold when.
  destruct (cpu_ncli cp - 1 =? 0) eqn:En, (cpu_intena cp =? 0) eqn:Ei; simpl.
  2: { rewrite (sti_Ok c (g1 cp)) by done. f_equal. rewrite on_cpu_comp.
       eapply on_cpu_ext; [done|]. unfold cpu_pop. rewrite Ei. simpl.
       destruct (Z.eqb_spec (cpu_ncli cp) 1); [done|lia]. }
  all: unfold ret; f_equal; eapply on_cpu_ext; [done|]; unfold cpu_pop;
    rewrite Ei; simpl; destruct (Z.eqb_spec (cpu_ncli cp) 1); try lia;
    unfold g1; destruct cp; simpl in *; subst; done.
Qed.

(** An unmatched [popcli] is caught. *)
Lemma popcli_unmatched c cp s :
  running c cp s -> cpu_if cp = false -> cpu_ncli cp <= 0 ->
  exists s', popcli s = Panic "popcli" s'.
Proof.
  intros H Hif Hn. unfold popcli. cpu_step. rewrite Hif. simpl. cpu_step. cpu_step.
  set (g1 := fun x : cpu => x <| cpu_ncli := cpu_ncli x - 1 |>). cpu_run H g1.
  cpu_step. simpl. destruct (Z.ltb_spec (cpu_ncli cp - 1) 0); [eauto|lia].
Qed.

(** Matched [pushcli] and [popcli] restore the interrupt flag and the depth;
    when the depth was positive they restore everything. *)
Lemma cpu_pop_push cp :
  0 <= cpu_ncli cp -> (0 < cpu_ncli cp -> cpu_if cp = false) ->
  cpu_if (cpu_pop (cpu_push cp)) = cpu_if cp /\
  cpu_ncli (cpu_pop (cpu_push cp)) = cpu_ncli cp /\
  (0 < cpu_ncli cp -> cpu_pop (cpu_push cp) = cp).
Proof.
  intros Hn Hif. unfold cpu_pop, cpu_push. simpl.
  destruct (Z.eqb_spec (cpu_ncli cp) 0) as [E|E].
  - rewrite E. simpl. destruct (cpu_if cp); simpl; repeat split; lia.
  - destruct (Z.eqb_spec (cpu_ncli cp + 1) 1); [lia|]. simpl.
    rewrite Hif by lia. repeat split; [lia|].
    intros Hp. rewrite Z.add_simpl_r. specialize (Hif Hp). by destruct cp; simpl in *; subst.
Qed.

Lemma cpu_pop_push_nested cp :
  0 < cpu_ncli cp -> cpu_if cp = false -> cpu_pop (cpu_push cp) = cp.
Proof. intros Hn Hif. by apply cpu_pop_push; try lia. Qed.

(** A [pushcli]/[popcli] bracket around a read-only access. *)
Definition cpu_touch (cp : cpu) : cpu := cpu_pop (cpu_push cp).

(** CPU records the kernel can be in: interrupts are off inside [pushcli]. *)
Definition cpu_ok (cp : cpu) : Prop :=
  0 <= cpu_ncli cp /\ (0 < cpu_ncli cp -> cpu_if cp = false).

Lemma cpu_push_ok cp : cpu_ok cp -> cpu_ok (cpu_push cp).
Proof. intros [Hn _]. split; simpl; lia. Qed.

Lemma cpu_pop_ok cp : cpu_ok cp -> 0 < cpu_ncli cp -> cpu_ok (cpu_pop cp).
Proof.
  intros [Hn Hif] Hp. split; simpl; [lia|]. intros H.
  destruct (Z.eqb_spec (cpu_ncli cp) 1); [lia|done].
Qed.

Lemma cpu_touch_ok cp : cpu_ok cp -> cpu_ok (cpu_touch cp).
Proof. intros H. apply cpu_pop_ok; [by apply cpu_push_ok|]. destruct H. simpl. lia. Qed.

Lemma myproc_Ok c cp s :
  running c cp s -> cpu_ok cp -> myproc s = Ok (cpu_proc cp) (on_cpu c cpu_touch s).
Proof.
  intros H Hok. unfold myproc. rewrite (bind_Ok _ _ _ _ _ (pushcli_Ok c cp s H)).
  cpu_run H cpu_push. do 2 cpu_step.
  rewrite (bind_Ok _ _ _ _ _ (popcli_Ok c _ _ Hrun eq_refl ltac:(destruct Hok; simpl; lia))).
  rewrite on_cpu_comp. done.
Qed.

(** Inside a critical section the bracket changes nothing. *)
Lemma touch_id c cp s :
  running c cp s -> 0 < cpu_ncli cp -> cpu_if cp = false -> on_cpu c cpu_touch s = s.
Proof. intros H Hn Hif. eapply on_cpu_id; [done|]. by apply cpu_pop_push_nested. Qed.

Lemma holding_Ok c cp s lk :
  running c cp s -> cpu_ok cp ->
  holding lk s = Ok (negb (lk_locked (lock_of s lk) =? 0)
                     && bool_decide (lk_cpu (lock_of s lk) = Some c)) (on_cpu c cpu_touch s).
Proof.
  intros H Hok. unfold holding. rewrite (bind_Ok _ _ _ _ _ (pushcli_Ok c cp s H)).
  cpu_run H cpu_push.
  assert (1 <= cpu_ncli (cpu_push cp)) as Hn by (destruct Hok; simpl; lia).
  pose proof (popcli_Ok c _ _ Hrun eq_refl Hn) as Hpop. rewrite on_cpu_comp in Hpop.
  unfold get_lk. kstep. change (lock_of (on_cpu c cpu_push s) lk) with (lock_of s lk).
  destruct (lk_locked (lock_of s lk) =? 0); simpl.
  - kstep. by rewrite (bind_Ok _ _ _ _ _ Hpop).
  - erewrite bind_Ok by (cpu_step; reflexivity). by rewrite (bind_Ok _ _ _ _ _ Hpop).
Qed.

(** The state after taking and after giving back a lock. *)
Definition acq (c : nat) (lk : lockid) (s : kstate) : kstate :=
  set k_locks (insert lk (MkLock 1 (Some c))) (on_cpu c cpu_push s).
Definition rel (c : nat) (lk : lockid) (s : kstate) : kstate :=
  on_cpu c cpu_pop (set k_locks (insert lk (MkLock 0 None)) s).

Lemma running_locks c cp s f : running c cp s -> running c cp (set k_locks f s).
Proof. done. Qed.

Lemma running_acq c cp lk s : running c cp s -> running c (cpu_push cp) (acq c lk s).
Proof. intros H. apply running_locks. by apply running_on_cpu. Qed.

Lemma running_rel c cp lk s : running c cp s -> running c (cpu_pop cp) (rel c lk s).
Proof. intros H. apply running_on_cpu; [done|]. by apply running_locks. Qed.

Lemma lock_of_insert s lk v : lock_of (set k_locks (insert lk v) s) lk = v.
Proof. unfold lock_of. simpl. by rewrite lookup_insert_eq. Qed.

Lemma set_lock_twice s lk v w :
  set k_locks (insert lk v) (set k_locks (insert lk w) s) = set k_locks (insert lk v) s.
Proof. destruct s. unfold set, set_k_locks. simpl. f_equal. apply insert_insert_eq. Qed.

Lemma lock_of_acq c lk s : lock_of (acq c lk s) lk = MkLock 1 (Some c).
Proof. apply lock_of_insert. Qed.

Lemma lock_of_acq_ne c lk lk' s : lk <> lk' -> lock_of (acq c lk s) lk' = lock_of s lk'.
Proof. intros. unfold lock_of, acq. simpl. by rewrite lookup_insert_ne. Qed.

Lemma lock_of_rel_ne c lk lk' s : lk <> lk' -> lock_of (rel c lk s) lk' = lock_of s lk'.
Proof. intros. unfold lock_of, rel. simpl. by rewrite lookup_insert_ne. Qed.

Lemma acquire_Ok c cp s lk :
  running c cp s -> cpu_ok cp -> lk_locked (lock_of s lk) = 0 ->
  acquire lk s = Ok tt (acq c lk s).
Proof.
  intros H Hok Hfree. unfold acquire. rewrite (bind_Ok _ _ _ _ _ (pushcli_Ok c cp s H)).
  cpu_run H cpu_push. pose proof (cpu_push_ok _ Hok) as Hok1.
  erewrite bind_Ok; [|by apply (holding_Ok c (cpu_push cp))].
  change (lock_of (on_cpu c cpu_push s) lk) with (lock_of s lk). rewrite Hfree. simpl.
  rewrite touch_id with (cp := cpu_push cp); [|done|destruct Hok; simpl; lia|done].
  erewrite (bind_Ok (spin lk)); cycle 1.
  { unfold spin, get_lk. kstep.
    change (lock_of (on_cpu c cpu_push s) lk) with (lock_of s lk). by rewrite Hfree. }
  apply (running_locks _ _ _ (insert lk ((lock_of s lk) <| lk_locked := 1 |>))) in Hrun.
  cpu_step. unfold get_lk. kstep. rewrite lock_of_insert. simpl.
  unfold put_lk, modify, acq. by rewrite set_lock_twice.
Qed.

Lemma acquire_held c cp s lk :
  running c cp s -> cpu_ok cp -> lk_locked (lock_of s lk) <> 0 ->
  lk_cpu (lock_of s lk) = Some c -> exists s', acquire lk s = Panic "acquire" s'.
Proof.
  intros H Hok Hl Hc. unfold acquire. rewrite (bind_Ok _ _ _ _ _ (pushcli_Ok c cp s H)).
  cpu_run H cpu_push. pose proof (cpu_push_ok _ Hok) as Hok1.
  erewrite bind_Ok; [|by apply (holding_Ok c (cpu_push cp))].
  change (lock_of (on_cpu c cpu_push s) lk) with (lock_of s lk).
  rewrite Hc, bool_decide_true by done.
  destruct (Z.eqb_spec (lk_locked (lock_of s lk)) 0); [done|]. simpl. eexists. reflexivity.
Qed.

Lemma release_Ok c cp s lk :
  running c cp s -> cpu_ok cp -> 0 < cpu_ncli cp ->
  lk_locked (lock_of s lk) <> 0 -> lk_cpu (lock_of s lk) = Some c ->
  release lk s = Ok tt (rel c lk s).
Proof.
  intros H Hok Hn Hl Hc. destruct (Hok) as [_ Hif]. specialize (Hif Hn).
  unfold release. erewrite bind_Ok; [|by apply (holding_Ok c cp)].
  rewrite Hc, bool_decide_true by done.
  destruct (Z.eqb_spec (lk_locked (lock_of s lk)) 0); [done|]. simpl.
  rewrite touch_id with (cp := cp) by done.
  unfold get_lk. kstep. unfold put_lk. kstep. kstep. kstep.
  rewrite lock_of_insert. simpl.
  rewrite set_lock_twice. by rewrite (popcli_Ok c cp) by (done || lia).
Qed.

Lemma release_not_held c cp s lk :
  running c cp s -> cpu_ok cp ->
  lk_locked (lock_of s lk) = 0 \/ lk_cpu (lock_of s lk) <> Some c ->
  exists s', release lk s = Panic "release" s'.
Proof.
  intros H Hok Hl. unfold release. erewrite bind_Ok; [|by apply (holding_Ok c cp)].
  assert (negb (lk_locked (lock_of s lk) =? 0)
          && bool_decide (lk_cpu (lock_of s lk) = Some c) = false) as ->.
  { destruct Hl as [->|Hl]; [done|]. by rewrite bool_decide_false, andb_false_r. }
  simpl. eexists. reflexivity.
Qed.

(** ** States up to interrupt bookkeeping

    Taking and releasing a lock leaves a stale [intena] behind on a CPU whose
    [pushcli] depth is back at 0, and an explicit entry for a free lock.
    [s ≡ₖ s'] forgets exactly that. *)

Definition cpu_norm (cp : cpu) : cpu :=
  if cpu_ncli cp =? 0 then cp <| cpu_intena := 0 |> else cp.

Definition quiet (s : kstate) : kstate :=
  s <| k_cpus := map cpu_norm (k_cpus s) |> <| k_locks := ∅ |>.

Definition keq (s s' : kstate) : Prop :=
  quiet s = quiet s' /\ forall lk, lock_of s lk = lock_of s' lk.
Infix "≡ₖ" := keq (at level 70, no associativity).

#[export] Instance keq_equiv : Equivalence keq.
Proof.
  split.
  - intros s. done.
  - intros s s' [E1 E2]. done.
  - intros s1 s2 s3 [E1 E2] [E3 E4]. split; [congruence|]. intros lk. by rewrite E2, E4.
Qed.

(** A component that is not CPU or lock bookkeeping. *)
Lemma keq_proj {A} (f : kstate -> A) s s' :
  (forall x, f (quiet x) = f x) -> s ≡ₖ s' -> f s = f s'.
Proof. intros Hf [E _]. rewrite <- (Hf s), <- (Hf s'). by rewrite E. Qed.

#[export] Instance keq_ptable : Proper (keq ==> eq) k_ptable.
Proof. intros s s' H. by apply (keq_proj k_ptable). Qed.
#[export] Instance keq_mem : Proper (keq ==> eq) k_mem.
Proof. intros s s' H. by apply (keq_proj k_mem). Qed.
#[export] Instance keq_lock_of : Proper (keq ==> eq ==> eq) lock_of.
Proof. intros s s' [_ E] lk _ <-. apply E. Qed.

Lemma cpu_norm_touch cp : cpu_ok cp -> cpu_norm (cpu_touch cp) = cpu_norm cp.
Proof.
  intros [Hn Hif]. destruct (cpu_pop_push cp Hn Hif) as (Eif & En & Eall).
  unfold cpu_norm, cpu_touch. rewrite En. destruct (Z.eqb_spec (cpu_ncli cp) 0) as [E|E].
  - destruct cp; simpl in *. subst. by destruct cpu_if.
  - by rewrite Eall by lia.
Qed.

Lemma map_norm_alter c cp l f :
  l !! c = Some cp -> cpu_norm (f cp) = cpu_norm cp ->
  map cpu_norm (alter f c l) = map cpu_norm l.
Proof.
  intros Hl Hf. apply list_eq. intros i. rewrite !list_lookup_fmap.
  destruct (decide (c = i)) as [<-|Hne].
  - rewrite list_lookup_alter_eq, Hl. simpl. by rewrite Hf.
  - by rewrite list_lookup_alter_ne.
Qed.

Lemma touch_keq c cp s : running c cp s -> cpu_ok cp -> on_cpu c cpu_touch s ≡ₖ s.
Proof.
  intros [_ Hl] Hok. split; [|done]. unfold quiet, on_cpu, set. unfold set_k_locks, set_k_cpus.
  simpl. f_equal. eapply map_norm_alter; [done|]. by apply cpu_norm_touch.
Qed.

(** A lock nobody holds, as [initlock] and [release] leave it. *)
Definition lock_free (s : kstate) (lk : lockid) : Prop := lock_of s lk = MkLock 0 None.

(** The bracket [acquire]/[release] around code that touches neither locks
    nor CPUs amounts to that code. *)
Lemma crit_keq c cp s lk s2 :
  running c cp s -> cpu_ok cp -> lock_free s lk ->
  k_cpus s2 = k_cpus (acq c lk s) -> k_locks s2 = k_locks (acq c lk s) ->
  rel c lk s2 ≡ₖ s2 <| k_cpus := k_cpus s |> <| k_locks := k_locks s |>.
Proof.
  intros [Hc Hl] Hok Hfree Ec El. split.
  - unfold quiet, rel, on_cpu, set, set_k_locks, set_k_cpus. simpl. f_equal.
    rewrite Ec. simpl. rewrite list_alter_alter_eq.
    eapply map_norm_alter; [done|]. by apply cpu_norm_touch.
  - intros lk'. destruct (decide (lk = lk')) as [<-|Hne].
    + unfold lock_of, rel. simpl. by rewrite lookup_insert_eq.
    + rewrite lock_of_rel_ne by done. unfold lock_of. rewrite El. simpl.
      by rewrite lookup_insert_ne.
Qed.

(** A critical section as the callers use it: from [s] the lock is free; code
    that leaves locks and CPUs alone runs between [acquire] and [release]. *)
Definition ready (c : nat) (cp : cpu) (lk : lockid) (s : kstate) : Prop :=
  running c cp s /\ cpu_ok cp /\ lock_free s lk.

Lemma acquire_ready c cp lk s : ready c cp lk s -> acquire lk s = Ok tt (acq c lk s).
Proof. intros (H & Hok & Hf). apply (acquire_Ok c cp); [done..|]. by rewrite Hf. Qed.

(** [s2] is a state inside the section opened at [s]. *)
Definition inside (c : nat) (lk : lockid) (s s2 : kstate) : Prop :=
  k_cpus s2 = k_cpus (acq c lk s) /\ k_locks s2 = k_locks (acq c lk s) /\
  k_apicid s2 = k_apicid s.

Lemma inside_running c cp lk s s2 :
  ready c cp lk s -> inside c lk s s2 -> running c (cpu_push cp) s2.
Proof.
  intros (H & _ & _) (Ec & El & Ea). pose proof (running_acq _ _ lk _ H) as [R1 R2].
  split; [|by rewrite Ec]. unfold cur_cpu in *. rewrite Ec, Ea. done.
Qed.

Lemma inside_lock c lk s s2 : inside c lk s s2 -> lock_of s2 lk = MkLock 1 (Some c).
Proof. intros (_ & El & _). unfold lock_of. rewrite El. simpl. by rewrite lookup_insert_eq. Qed.

Lemma release_inside c cp lk s s2 :
  ready c cp lk s -> inside c lk s s2 -> release lk s2 = Ok tt (rel c lk s2).
Proof.
  intros Hr Hi. pose proof (inside_lock _ _ _ _ Hi) as El.
  destruct (Hr) as (_ & Hok & _). destruct (Hok) as [Hn _].
  apply (release_Ok c (cpu_push cp)); [by eapply inside_running|by apply cpu_push_ok|simpl; lia|..];
    by rewrite El.
Qed.

Lemma rel_inside_keq c cp lk s s2 :
  ready c cp lk s -> inside c lk s s2 ->
  rel c lk s2 ≡ₖ s2 <| k_cpus := k_cpus s |> <| k_locks := k_locks s |>.
Proof. intros (H & Hok & Hf) (Ec & El & _). by eapply crit_keq. Qed.

(** [myproc] inside a section: nothing changes. *)
Lemma myproc_inside c cp lk s s2 :
  ready c cp lk s -> inside c lk s s2 -> myproc s2 = Ok (cpu_proc cp) s2.
Proof.
  intros Hr Hi. pose proof (inside_running _ _ _ _ _ Hr Hi) as R.
  destruct (Hr) as (_ & Hok & _). destruct (Hok) as [Hn _].
  rewrite (myproc_Ok c _ _ R) by by apply cpu_push_ok.
  by rewrite (touch_id _ _ _ R) by (simpl; lia || done).
Qed.

(** What the equivalence keeps. *)
Lemma keq_running c cp s s' :
  s ≡ₖ s' -> running c cp s -> exists cp', running c cp' s' /\ cpu_norm cp' = cpu_norm cp.
Proof.
  intros [E _] [Hc Hl].
  pose proof (f_equal k_apicid E : k_apicid s = k_apicid s') as Ea.
  pose proof (f_equal k_cpus E : map cpu_norm (k_cpus s) = map cpu_norm (k_cpus s')) as Em.
  assert (forall l, find_idx (fun x => cpu_apicid x =? k_apicid s) (map cpu_norm l)
                    = find_idx (fun x => cpu_apicid x =? k_apicid s) l) as Hf.
  { intros l. induction l as [|x l IH]; simpl; [done|]. rewrite IH.
    unfold cpu_norm. by destruct (cpu_ncli x =? 0). }
  assert (map cpu_norm (k_cpus s') !! c = Some (cpu_norm cp)) as Hl'.
  { rewrite <- Em, list_lookup_fmap, Hl. done. }
  rewrite list_lookup_fmap in Hl'. destruct (k_cpus s' !! c) as [cp'|] eqn:E'; [|done].
  exists cp'. split; [|simpl in Hl'; congruence]. split; [|done].
  unfold cur_cpu in *. rewrite <- Ea, <- Hf, <- Em, Hf. done.
Qed.

Lemma cpu_norm_ok cp cp' : cpu_norm cp' = cpu_norm cp -> cpu_ok cp -> cpu_ok cp'.
Proof.
  intros E. unfold cpu_ok.
  assert (forall x, cpu_ncli (cpu_norm x) = cpu_ncli x) as En
    by (intros x; unfold cpu_norm; by destruct (cpu_ncli x =? 0)).
  assert (forall x, cpu_if (cpu_norm x) = cpu_if x) as Ei
    by (intros x; unfold cpu_norm; by destruct (cpu_ncli x =? 0)).
  rewrite <- (En cp'), <- (Ei cp'), E, En, Ei. done.
Qed.

Lemma cpu_norm_keeps {A} (f : cpu -> A) cp cp' :
  (forall x v, f (x <| cpu_intena := v |>) = f x) -> cpu_norm cp' = cpu_norm cp -> f cp' = f cp.
Proof.
  intros Hf E. assert (forall x, f (cpu_norm x) = f x) as Ep
    by (intros x; unfold cpu_norm; destruct (cpu_ncli x =? 0); [apply Hf|done]).
  by rewrite <- (Ep cp'), E, Ep.
Qed.

(** An equivalent state runs on the same CPU, with the same process, page
    table and [pushcli] depth. *)
Record same_cpu (cp cp' : cpu) : Prop := {
  sc_proc : cpu_proc cp' = cpu_proc cp;
  sc_cr3 : cpu_cr3 cp' = cpu_cr3 cp;
  sc_ncli : cpu_ncli cp' = cpu_ncli cp
}.

Lemma ready_keq c cp lk s s' :
  s ≡ₖ s' -> ready c cp lk s -> exists cp', ready c cp' lk s' /\ same_cpu cp cp'.
Proof.
  intros E (H & Hok & Hf). destruct (keq_running _ _ _ _ E H) as (cp' & H' & En).
  exists cp'. split; [|split; [apply (cpu_norm_keeps cpu_proc)|apply (cpu_norm_keeps cpu_cr3)
    |apply (cpu_norm_keeps cpu_ncli)]; done].
  split; [done|]. split; [by eapply cpu_norm_ok|].
  unfold lock_free in *. by rewrite <- E.
Qed.

(** Entering and leaving a section at once changes nothing. *)
Lemma acq_rel_keq c cp lk s : ready c cp lk s -> rel c lk (acq c lk s) ≡ₖ s.
Proof.
  intros Hr. etransitivity; [by apply (rel_inside_keq c cp lk s)|]. by destruct s.
Qed.

(** Work that leaves CPUs and locks alone. *)
Class lock_neutral (f : kstate -> kstate) : Prop := {
  ln_comm : forall g h s, f (set k_locks g (set k_cpus h s)) = set k_locks g (set k_cpus h (f s));
  ln_cpus : forall s, k_cpus (f s) = k_cpus s;
  ln_locks : forall s, k_locks (f s) = k_locks s;
  ln_apicid : forall s, k_apicid (f s) = k_apicid s
}.

#[export] Hint Extern 0 (lock_neutral _) => (split; intros; reflexivity) : typeclass_instances.

#[export] Instance keq_neutral f : lock_neutral f -> Proper (keq ==> keq) f.
Proof.
  intros Hf s s' E.
  assert (forall x, quiet (f x) = f (quiet x)) as Hq.
  { intros x. unfold quiet. rewrite (ln_cpus (f := f)). symmetry.
    apply (ln_comm (f := f) (fun _ => ∅) (fun _ => map cpu_norm (k_cpus x))). }
  split.
  - rewrite !Hq. f_equal. apply E.
  - intros lk. unfold lock_of. rewrite !(ln_locks (f := f)). apply E.
Qed.

Lemma ready_neutral f c cp lk s : lock_neutral f -> ready c cp lk s -> ready c cp lk (f s).
Proof.
  intros Hf ([R1 R2] & Hok & Hl).
  split; [split|split; [done|]]; unfold cur_cpu, lock_free, lock_of in *;
    by rewrite ?(ln_cpus (f := f)), ?(ln_apicid (f := f)), ?(ln_locks (f := f)).
Qed.

Lemma acq_neutral f c lk s : lock_neutral f -> f (acq c lk s) = acq c lk (f s).
Proof. intros Hf. apply Hf. Qed.

Lemma release_acq c cp lk t :
  ready c cp lk t -> exists t', release lk (acq c lk t) = Ok tt t' /\ t' ≡ₖ t.
Proof.
  intros Hr. exists (rel c lk (acq c lk t)).
  split; [by apply (release_inside c cp lk t)|by eapply acq_rel_keq].
Qed.

(** Leave the section with a result. *)
Lemma release_acq_ret {A} c cp lk t (a : A) :
  ready c cp lk t -> exists t', (release lk ;; ret a) (acq c lk t) = Ok a t' /\ t' ≡ₖ t.
Proof.
  intros Hr. destruct (release_acq c cp lk t Hr) as (t' & E & Et).
  exists t'. split; [|done]. by rewrite (bind_Ok _ _ _ _ _ E).
Qed.

(** ** Critical sections that nest *)

Lemma ready_nested c cp lk lk' s :
  ready c cp lk s -> lock_free s lk' -> lk <> lk' -> ready c (cpu_push cp) lk' (acq c lk s).
Proof.
  intros (H & Hok & _) Hf Hne. split_and!; [by apply running_acq|by apply cpu_push_ok|].
  unfold lock_free. by rewrite lock_of_acq_ne.
Qed.

Lemma cpu_norm_push cp cp' : cpu_ok cp -> cpu_norm cp' = cpu_norm (cpu_push cp) -> cp' = cpu_push cp.
Proof.
  intros [H0 _] E. assert (cpu_ncli cp' = cpu_ncli cp + 1) as En.
  { by apply (cpu_norm_keeps cpu_ncli (cpu_push cp) cp'). }
  unfold cpu_norm in E. rewrite En in E. change (cpu_ncli (cpu_push cp)) with (cpu_ncli cp + 1) in E.
  destruct (Z.eqb_spec (cpu_ncli cp + 1) 0); [lia|done].
Qed.

Lemma rel_keq c cp lk s t :
  k_cpus s !! c = Some cp -> k_cpus t !! c = Some cp -> s ≡ₖ t -> rel c lk s ≡ₖ rel c lk t.
Proof.
  intros Hs Ht [E El]. split.
  - assert (map cpu_norm (alter cpu_pop c (k_cpus s)) = map cpu_norm (alter cpu_pop c (k_cpus t))) as Em.
    { pose proof (f_equal k_cpus E : map cpu_norm (k_cpus s) = map cpu_norm (k_cpus t)) as Em.
      apply list_eq. intros j. pose proof (f_equal (fun l => l !! j) Em) as Ej. simpl in Ej.
      rewrite !list_lookup_fmap in *. destruct (decide (c = j)) as [<-|Hne].
      + by rewrite !list_lookup_alter_eq, Hs, Ht.
      + by rewrite !list_lookup_alter_ne. }
    transitivity ((quiet s) <| k_cpus := map cpu_norm (alter cpu_pop c (k_cpus s)) |>); [done|].
    by rewrite E, Em.
  - intros lk'. destruct (decide (lk = lk')) as [<-|Hne].
    + transitivity (MkLock 0 None); [apply (lock_of_insert s)|symmetry; apply (lock_of_insert t)].
    + by rewrite !lock_of_rel_ne.
Qed.

(** Releasing after calls that restored the state up to [≡ₖ]. *)
Lemma release_keq c cp lk s t :
  ready c cp lk t -> s ≡ₖ acq c lk t -> exists s', release lk s = Ok tt s' /\ s' ≡ₖ t.
Proof.
  intros Hr E. destruct (Hr) as (H & Hok & _). pose proof (running_acq c cp lk t H) as Ha.
  symmetry in E. destruct (keq_running _ _ _ _ E Ha) as (cp' & Hs & En).
  apply cpu_norm_push in En; [|done]. subst cp'.
  exists (rel c lk s). split.
  - assert (lock_of s lk = MkLock 1 (Some c)) as El by (rewrite <- (proj2 E); apply lock_of_acq).
    apply (release_Ok c (cpu_push cp)); [done|by apply cpu_push_ok| |by rewrite El..].
    destruct Hok. simpl. lia.
  - transitivity (rel c lk (acq c lk t)); [|by apply (acq_rel_keq c cp)].
    eapply rel_keq; [apply Hs|apply Ha|by symmetry].
Qed.

(** ** Locks *)

(** An acquire of a lock that another CPU holds, waiting; [t] is the state in
    which it looks at the lock again. *)
Lemma acquire_waits c cp s lk :
  running c cp s -> cpu_ok cp -> lk_locked (lock_of s lk) <> 0 -> lk_cpu (lock_of s lk) <> Some c ->
  exists k, acquire lk s = Susp (WSpin lk) (on_cpu c cpu_push s) k /\
    forall cp' t, running c cp' t -> cpu_if cp' = false ->
      k t = (if lk_locked (lock_of t lk) =? 0
             then Ok tt (set k_locks (insert lk (MkLock 1 (Some c))) t) else NoFuel).
Proof.
  intros H Hok Hl Hc. unfold acquire. rewrite (bind_Ok _ _ _ _ _ (pushcli_Ok c cp s H)).
  cpu_run H cpu_push. pose proof (cpu_push_ok _ Hok) as Hok1.
  erewrite bind_Ok; [|by apply (holding_Ok c (cpu_push cp))].
  change (lock_of (on_cpu c cpu_push s) lk) with (lock_of s lk).
  rewrite bool_decide_false, andb_false_r by done. cbn [negb].
  rewrite touch_id with (cp := cpu_push cp); [|done|destruct Hok; simpl; lia|done].
  unfold spin, get_lk. erewrite bind_Susp; cycle 1.
  { kstep. change (lock_of (on_cpu c cpu_push s) lk) with (lock_of s lk).
    rewrite (proj2 (Z.eqb_neq _ _) Hl). reflexivity. }
  eexists. split; [reflexivity|]. intros cp' t Ht Hif. cbn [obind]. unfold gets, bind at 1. cbn [obind].
  destruct (lk_locked (lock_of t lk) =? 0) eqn:E; [|done].
  unfold put_lk at 1, modify. cbn [obind].
  apply (running_locks _ _ _ (insert lk ((lock_of t lk) <| lk_locked := 1 |>))) in Ht.
  rewrite (bind_Ok _ _ _ _ _ (mycpu_Ok _ _ _ Ht Hif)). unfold bind. cbn [obind]. rewrite lock_of_insert. simpl.
  unfold put_lk, modify. by rewrite set_lock_twice.
Qed.

(** C32: Spinlocks exclude each other's holders.  A CPU that acquires a lock
    held by another one does not return from [acquire] while the lock is
    held: it spins with interrupts off and the lock unchanged, and when it
    returns, it found the lock free and is its holder. *)
Theorem acquire_excludes c cp s lk :
  running c cp s -> cpu_ok cp -> lk_locked (lock_of s lk) <> 0 -> lk_cpu (lock_of s lk) <> Some c ->
  exists s1 k, acquire lk s = Susp (WSpin lk) s1 k /\
    (forall lk', lock_of s1 lk' = lock_of s lk') /\ cpu_if <$> k_cpus s1 !! c = Some false /\
    forall cp' t t', running c cp' t -> cpu_if cp' = false -> k t = Ok tt t' ->
      lk_locked (lock_of t lk) = 0 /\ lock_of t' lk = MkLock 1 (Some c).
Proof.
  intros H Hok Hl Hc. destruct (acquire_waits c cp s lk H Hok Hl Hc) as (k & E & Hk).
  eexists _, k. split; [exact E|]. split; [done|]. split.
  - destruct (running_on_cpu c cp cpu_push s ltac:(done) H) as [_ ->]. done.
  - intros cp' t t' Ht Hif Hok'. rewrite (Hk cp' t Ht Hif) in Hok'.
    destruct (Z.eqb_spec (lk_locked (lock_of t lk)) 0); [|done]. injection Hok' as <-.
    by rewrite lock_of_insert.
Qed.

(** A critical section is bracketed: from a state in which a lock is free,
    [acquire] succeeds with interrupts off and this CPU as the holder, and
    [release] gives back the lock, the nesting depth and the interrupt flag. *)
Theorem acquire_release_restores c cp s lk :
  ready c cp lk s ->
  exists s1 s2, acquire lk s = Ok tt s1 /\ lock_of s1 lk = MkLock 1 (Some c) /\
    cpu_if <$> k_cpus s1 !! c = Some false /\
    release lk s1 = Ok tt s2 /\ lock_of s2 lk = MkLock 0 None /\
    cpu_if <$> k_cpus s2 !! c = Some (cpu_if cp) /\ cpu_ncli <$> k_cpus s2 !! c = Some (cpu_ncli cp).
Proof.
  intros Hr. destruct (Hr) as (H & Hok & Hf). exists (acq c lk s), (rel c lk (acq c lk s)).
  destruct (running_acq c cp lk s H) as [Hc1 Hc2]. split; [by apply acquire_ready with cp|].
  split; [apply lock_of_acq|]. split; [by rewrite Hc2|].
  split; [by apply release_inside with (cp := cp) (s := s)|].
  split; [unfold rel; apply (lock_of_insert (acq c lk s))|].
  destruct (running_rel c (cpu_push cp) lk (acq c lk s)) as [_ ->]; [done|].
  destruct Hok as [H0 H1]. destruct (cpu_pop_push cp H0 H1) as (E1 & E2 & _). split; [by apply (f_equal Some)|by apply (f_equal Some)].
Qed.

(** Misuse of locks stops the kernel: acquiring a lock this CPU holds,
    releasing one it does not hold, and an unmatched [popcli] panic. *)
Theorem lock_misuse_panics c cp s lk :
  running c cp s -> cpu_ok cp ->
  (lock_of s lk = MkLock 1 (Some c) -> exists s', acquire lk s = Panic "acquire" s') /\
  (lk_cpu (lock_of s lk) <> Some c -> exists s', release lk s = Panic "release" s') /\
  (cpu_ncli cp = 0 -> cpu_if cp = false -> exists s', popcli s = Panic "popcli" s').
Proof.
  intros H Hok. split_and!.
  - intros E. by eapply acquire_held; [| |rewrite E|rewrite E].
  - intros E. eapply release_not_held; eauto.
  - intros Hn Hif. apply (popcli_unmatched c cp); [done..|lia].
Qed.

Definition lock_cpu : cpu := MkCpu 0 1 0 0 None true 0 0.
Definition lock_state (v : spinlock) : kstate :=
  set k_locks (insert Lkmem v) (bss (MkLink 0 0 0 0 [] []) [lock_cpu; lock_cpu <| cpu_apicid := 1 |>] []).

Lemma acquire_excludes_witness :
  exists s1 k, acquire Lkmem (lock_state (MkLock 1 (Some 1%nat))) = Susp (WSpin Lkmem) s1 k /\
    (forall lk', lock_of s1 lk' = lock_of (lock_state (MkLock 1 (Some 1%nat))) lk') /\
    cpu_if <$> k_cpus s1 !! 0%nat = Some false /\
    forall cp' t t', running 0 cp' t -> cpu_if cp' = false -> k t = Ok tt t' ->
      lk_locked (lock_of t Lkmem) = 0 /\ lock_of t' Lkmem = MkLock 1 (Some 0%nat).
Proof. by apply (acquire_excludes 0 lock_cpu). Defined.

Lemma acquire_release_restores_witness :
  exists s1 s2, acquire Lkmem (lock_state (MkLock 0 None)) = Ok tt s1 /\ lock_of s1 Lkmem = MkLock 1 (Some 0%nat) /\
    cpu_if <$> k_cpus s1 !! 0%nat = Some false /\
    release Lkmem s1 = Ok tt s2 /\ lock_of s2 Lkmem = MkLock 0 None /\
    cpu_if <$> k_cpus s2 !! 0%nat = Some true /\ cpu_ncli <$> k_cpus s2 !! 0%nat = Some 0.
Proof. apply (acquire_release_restores 0 lock_cpu (lock_state (MkLock 0 None)) Lkmem). by split_and!. Defined.

Lemma lock_misuse_panics_witness :
  (lock_of (lock_state (MkLock 1 (Some 0%nat))) Lkmem = MkLock 1 (Some 0%nat) ->
   exists s', acquire Lkmem (lock_state (MkLock 1 (Some 0%nat))) = Panic "acquire" s') /\
  (lk_cpu (lock_of (lock_state (MkLock 1 (Some 0%nat))) Lkmem) <> Some 0%nat ->
   exists s', release Lkmem (lock_state (MkLock 1 (Some 0%nat))) = Panic "release" s') /\
  (cpu_ncli lock_cpu = 0 -> cpu_if lock_cpu = false ->
   exists s', popcli (lock_state (MkLock 1 (Some 0%nat))) = Panic "popcli" s').
Proof. by apply (lock_misuse_panics 0 lock_cpu). Defined.
