(* ===== verification/KString.v ===== *)
(** * Memory and strings (string.c)

    Memory is a finite map from byte addresses to bytes, 0 where absent.  The
    block operations ([memset], [memmove], [memcmp]) work on it; the string
    functions work on byte lists: a C string is the list of its bytes before
    the terminating 0, a character array is a list of its length. *)

From stdpp Require Import base numbers list list_numbers gmap.
From S2P Require Import Prelude.

Local Open Scope Z_scope.

Abbreviation mem := (gmap Z Z).

Definition load8 (m : mem) (a : Z) : Z := default 0 (m !! a).
Definition store8 (m : mem) (a v : Z) : mem := <[a := u8 v]> m.

Fixpoint loads (m : mem) (a : Z) (n : nat) : list Z :=
  match n with
  | O => []
  | S n => load8 m a :: loads m (a + 1) n
  end.
Fixpoint stores (m : mem) (a : Z) (bs : list Z) : mem :=
  match bs with
  | [] => m
  | b :: bs => stores (store8 m a b) (a + 1) bs
  end.

Definition load32 (m : mem) (a : Z) : Z := of_le (loads m a 4).
Definition store32 (m : mem) (a v : Z) : mem := stores m a (le_bytes 4 v).

(** ** string.c: blocks of memory *)

(** x86.h: [stosb] and [stosl] (rep stos with a byte or a word). *)
Fixpoint stosb (m : mem) (a c : Z) (n : nat) : mem :=
  match n with
  | O => m
  | S n => stosb (store8 m a c) (a + 1) c n
  end.
Fixpoint stosl (m : mem) (a w : Z) (n : nat) : mem :=
  match n with
  | O => m
  | S n => stosl (store32 m a w) (a + 4) w n
  end.

Definition memset (m : mem) (dst c n : Z) : mem :=
  if (dst mod 4 =? 0) && (n mod 4 =? 0) then
    let c := Z.land c 0xFF in
    stosl m dst (Z.lor (Z.lor (Z.lor (Z.shiftl c 24) (Z.shiftl c 16)) (Z.shiftl c 8)) c)
      (Z.to_nat (n / 4))
  else stosb m dst c (Z.to_nat n).

Fixpoint memcmp (m : mem) (s1 s2 : Z) (n : nat) : Z :=
  match n with
  | O => 0
  | S n =>
      if negb (load8 m s1 =? load8 m s2) then load8 m s1 - load8 m s2
      else memcmp m (s1 + 1) (s2 + 1) n
  end.

(** The two loops of [memmove]: [*d++ = *s++] and [*--d = *--s]. *)
Fixpoint move_up (m : mem) (d s : Z) (n : nat) : mem :=
  match n with
  | O => m
  | S n => move_up (<[d := load8 m s]> m) (d + 1) (s + 1) n
  end.
Fixpoint move_down (m : mem) (d s : Z) (n : nat) : mem :=
  match n with
  | O => m
  | S n => move_down (<[d - 1 := load8 m (s - 1)]> m) (d - 1) (s - 1) n
  end.

Definition memmove (m : mem) (d s : Z) (n : nat) : mem :=
  if (s <? d) && (d <? s + Z.of_nat n) then move_down m (d + Z.of_nat n) (s + Z.of_nat n) n
  else move_up m d s n.

Definition memcpy (m : mem) (d s : Z) (n : nat) : mem := memmove m d s n.

(** ** string.c: strings *)

(** The byte at the start of a string; its end reads as 0. *)
Definition chr (s : list Z) : Z := match s with c :: _ => c | [] => 0 end.
Definition adv (s : list Z) : list Z := tail s.

Fixpoint strncmp (p q : list Z) (n : nat) : Z :=
  match n with
  | O => 0
  | S n' =>
      if negb (chr p =? 0) && (chr p =? chr q) then strncmp (adv p) (adv q) n'
      else u8 (chr p) - u8 (chr q)
  end.

(** [strncpy(s, t, n)]: the [n] bytes written to [s]. *)
Fixpoint strncpy (t : list Z) (n : nat) : list Z :=
  match n with
  | O => []
  | S n' => chr t :: (if chr t =? 0 then replicate n' 0 else strncpy (adv t) n')
  end.

(** [safestrcpy(s, t, n)]: the bytes written to [s], at most [n]. *)
Fixpoint safestrcpy (t : list Z) (n : nat) : list Z :=
  match n with
  | O => []
  | S O => [0]
  | S n' => chr t :: (if chr t =? 0 then [0] else safestrcpy (adv t) n')
  end.

Fixpoint strlen (s : list Z) : Z :=
  match s with
  | [] => 0
  | c :: s => if c =? 0 then 0 else 1 + strlen s
  end.

(** ** Memory laws *)

Lemma load8_store8_eq m a v : load8 (store8 m a v) a = u8 v.
Proof. unfold load8, store8. by rewrite lookup_insert_eq. Qed.

Lemma load8_store8_ne m a b v : a <> b -> load8 (store8 m a v) b = load8 m b.
Proof. intros. unfold load8, store8. by rewrite lookup_insert_ne. Qed.

Lemma length_loads m a n : length (loads m a n) = n.
Proof. revert a. induction n; intros; simpl; auto. Qed.
#[export] Hint Rewrite length_loads : len.

(** What a byte holds after a block was written. *)
Lemma load8_stores m a bs b :
  load8 (stores m a bs) b =
  if decide (a <= b < a + Z.of_nat (length bs))
  then u8 (nthZ bs (Z.to_nat (b - a))) else load8 m b.
Proof.
  revert m a. induction bs as [|x bs IH]; intros m a; cbn [stores length].
  - rewrite decide_False by lia. done.
  - rewrite IH. destruct (decide (a = b)) as [->|Hne].
    + rewrite decide_False, decide_True by lia. rewrite load8_store8_eq.
      by rewrite Z.sub_diag.
    + case_decide as H1.
      * rewrite decide_True by lia. f_equal. unfold nthZ.
        replace (Z.to_nat (b - a)) with (S (Z.to_nat (b - (a + 1)))) by lia. done.
      * rewrite decide_False by lia. by apply load8_store8_ne.
Qed.

Lemma load8_stores_out m a bs b :
  b < a \/ a + Z.of_nat (length bs) <= b -> load8 (stores m a bs) b = load8 m b.
Proof. intros. rewrite load8_stores, decide_False by lia. done. Qed.

Lemma loads_ext m m' a n :
  (forall b, a <= b < a + Z.of_nat n -> load8 m b = load8 m' b) -> loads m a n = loads m' a n.
Proof.
  revert a. induction n as [|n IH]; intros a H; simpl; [done|].
  rewrite H by lia. f_equal. apply IH. intros. apply H. lia.
Qed.

Lemma loads_stores_out m a bs b n :
  b + Z.of_nat n <= a \/ a + Z.of_nat (length bs) <= b ->
  loads (stores m a bs) b n = loads m b n.
Proof. intros. apply loads_ext. intros. apply load8_stores_out. lia. Qed.

Lemma loads_stores_in m a bs :
  Forall byte_ok bs -> loads (stores m a bs) a (length bs) = bs.
Proof.
  intros Hb. revert m a. induction Hb as [|x bs Hx Hb IH]; intros m a; cbn [stores length loads]; [done|].
  rewrite IH. f_equal. rewrite load8_stores_out by lia. rewrite load8_store8_eq.
  unfold u8. by apply Z.mod_small.
Qed.

Lemma load32_store32 m a v : load32 (store32 m a v) a = u32 v.
Proof.
  unfold load32, store32. rewrite <- of_le_le4. f_equal.
  apply (loads_stores_in m a (le_bytes 4 v)), le_bytes_ok.
Qed.

Lemma load32_store32_ne m a b v : a + 4 <= b \/ b + 4 <= a -> load32 (store32 m a v) b = load32 m b.
Proof. intros. unfold load32, store32. f_equal. apply loads_stores_out. len. Qed.

Lemma load8_store32_ne m a b v : a + 4 <= b \/ b < a -> load8 (store32 m a v) b = load8 m b.
Proof. intros. unfold store32. apply load8_stores_out. len. Qed.

(** ** memset *)

Lemma load8_stosb m a c n b :
  load8 (stosb m a c n) b = if decide (a <= b < a + Z.of_nat n) then u8 c else load8 m b.
Proof.
  revert m a. induction n as [|n IH]; intros m a; cbn [stosb].
  - by rewrite decide_False by lia.
  - rewrite IH. destruct (decide (a = b)) as [->|].
    + rewrite decide_False, decide_True by lia. apply load8_store8_eq.
    + rewrite load8_store8_ne by done. repeat case_decide; try lia; done.
Qed.

Lemma load8_stosl m a w n b x :
  le_bytes 4 w = [x; x; x; x] -> u8 x = x ->
  load8 (stosl m a w n) b =
  if decide (a <= b < a + 4 * Z.of_nat n) then x else load8 m b.
Proof.
  intros Hw Hx. revert m a. induction n as [|n IH]; intros m a; cbn [stosl].
  - by rewrite decide_False by lia.
  - rewrite IH. unfold store32. rewrite load8_stores, Hw. cbn [length].
    repeat case_decide; try lia; try done.
    assert (Z.to_nat (b - a) = 0 \/ Z.to_nat (b - a) = 1 \/ Z.to_nat (b - a) = 2
            \/ Z.to_nat (b - a) = 3)%nat as [E|[E|[E|E]]] by lia;
      rewrite E; unfold nthZ; simpl; done.
Qed.

(** The word [stosl] writes holds the low byte of [c] four times. *)
Lemma memset_word c :
  let b := Z.land c 0xFF in
  le_bytes 4 (Z.lor (Z.lor (Z.lor (Z.shiftl b 24) (Z.shiftl b 16)) (Z.shiftl b 8)) b) = [b; b; b; b]
  /\ u8 b = b /\ b = u8 c.
Proof.
  intros b. assert (b = u8 c) as Hb by (apply (Z.land_ones c 8); lia).
  assert (0 <= b < 256) as Hr by (rewrite Hb; apply Z.mod_pos_bound; lia).
  assert (forall n, 0 <= n < 256 ->
    le_bytes 4 (Z.lor (Z.lor (Z.lor (Z.shiftl n 24) (Z.shiftl n 16)) (Z.shiftl n 8)) n) = [n; n; n; n]) as H.
  { assert (Forall (fun n => le_bytes 4 (Z.lor (Z.lor (Z.lor (Z.shiftl n 24) (Z.shiftl n 16))
       (Z.shiftl n 8)) n) = [n; n; n; n]) (seqZ 0 256)) as HF.
    { apply (bool_decide_unpack _). vm_compute. done. }
    intros n Hn. rewrite Forall_seqZ in HF. apply HF. lia. }
  split; [by apply H|]. split; [by apply Z.mod_small|done].
Qed.

(** [memset] writes the low byte of [c] to every byte of the block, on the
    word path and on the byte path, and nothing else. *)
Lemma memset_spec m dst c n b :
  0 <= n ->
  load8 (memset m dst c n) b = if decide (dst <= b < dst + n) then u8 c else load8 m b.
Proof.
  intros Hn. unfold memset.
  destruct (Z.eqb_spec (dst mod 4) 0) as [E1|E1]; simpl;
    [destruct (Z.eqb_spec (n mod 4) 0) as [E2|E2]; simpl|].
  - destruct (memset_word c) as (Hw & Hx & Hc).
    rewrite (load8_stosl _ _ _ _ _ _ Hw Hx). rewrite Hc.
    assert (4 * Z.of_nat (Z.to_nat (n / 4)) = n) as ->; [|done].
    rewrite Z2Nat.id by (apply Z.div_pos; lia). pose proof (Z.div_mod n 4). lia.
  - rewrite load8_stosb. by rewrite Z2Nat.id.
  - rewrite load8_stosb. by rewrite Z2Nat.id.
Qed.

(** ** memmove *)

Lemma load8_insert_eq (m : mem) a v : load8 (<[a := v]> m) a = v.
Proof. unfold load8. by rewrite lookup_insert_eq. Qed.
Lemma load8_insert_ne (m : mem) a b v : a <> b -> load8 (<[a := v]> m) b = load8 m b.
Proof. intros. unfold load8. by rewrite lookup_insert_ne. Qed.

Lemma load8_move_up m d s n b :
  d <= s \/ s + Z.of_nat n <= d ->
  load8 (move_up m d s n) b =
  if decide (d <= b < d + Z.of_nat n) then load8 m (s + (b - d)) else load8 m b.
Proof.
  revert m d s. induction n as [|n IH]; intros m d s H; cbn [move_up].
  - by rewrite decide_False by lia.
  - rewrite IH by lia. destruct (decide (d = b)) as [->|Hne].
    + rewrite decide_False, decide_True by lia. rewrite load8_insert_eq. f_equal. lia.
    + case_decide.
      * rewrite decide_True by lia. rewrite load8_insert_ne by lia. f_equal. lia.
      * rewrite decide_False by lia. by rewrite load8_insert_ne by lia.
Qed.

Lemma load8_move_down m d s n b :
  s <= d ->
  load8 (move_down m d s n) b =
  if decide (d - Z.of_nat n <= b < d) then load8 m (s + (b - d)) else load8 m b.
Proof.
  revert m d s. induction n as [|n IH]; intros m d s H; cbn [move_down].
  - by rewrite decide_False by lia.
  - rewrite IH by lia. destruct (decide (d - 1 = b)) as [<-|Hne].
    + rewrite decide_False, decide_True by lia. rewrite load8_insert_eq. f_equal. lia.
    + case_decide.
      * rewrite decide_True by lia. rewrite load8_insert_ne by lia. f_equal. lia.
      * rewrite decide_False by lia. by rewrite load8_insert_ne by lia.
Qed.

(** The kernel's [memmove] copies the old contents of the source, also when
    source and destination overlap in either direction. *)
Lemma memmove_spec m d s n b :
  load8 (memmove m d s n) b =
  if decide (d <= b < d + Z.of_nat n) then load8 m (s + (b - d)) else load8 m b.
Proof.
  unfold memmove. destruct (Z.ltb_spec s d), (Z.ltb_spec d (s + Z.of_nat n)); simpl.
  2-4: apply load8_move_up; lia.
  rewrite load8_move_down by lia.
  repeat case_decide; try lia; try done; f_equal; lia.
Qed.

(** ** memcmp *)

Lemma memcmp_zero m s1 s2 n : memcmp m s1 s2 n = 0 <-> loads m s1 n = loads m s2 n.
Proof.
  revert s1 s2. induction n as [|n IH]; intros s1 s2; simpl; [done|].
  destruct (Z.eqb_spec (load8 m s1) (load8 m s2)) as [E|E]; simpl.
  - rewrite IH, E. split; [congruence|]. by intros [= H].
  - split; [lia|]. intros [= H]. done.
Qed.

(** ** Strings *)

(** The bytes of a C string: up to the first 0. *)
Fixpoint cbytes (s : list Z) : list Z :=
  match s with
  | [] => []
  | c :: s => if c =? 0 then [] else c :: cbytes s
  end.

Lemma strlen_cbytes s : strlen s = Z.of_nat (length (cbytes s)).
Proof. induction s as [|c s IH]; simpl; [done|]. destruct (c =? 0); simpl; lia. Qed.

Lemma cbytes_nonzero s : Forall (fun c => c <> 0) (cbytes s).
Proof.
  induction s as [|c s IH]; simpl; [constructor|].
  destruct (Z.eqb_spec c 0); constructor; auto.
Qed.

(** [strncpy] pads with 0 and does not terminate a name that fills the field. *)
Lemma strncpy_spec t n :
  strncpy t n = take n (cbytes t) ++ replicate (n - length (cbytes t)) 0.
Proof.
  revert t. induction n as [|n IH]; intros t; simpl; [done|].
  destruct t as [|c t]; simpl; [done|].
  destruct (Z.eqb_spec c 0) as [->|Hc]; simpl; [done|]. by rewrite IH.
Qed.

Lemma length_strncpy t n : length (strncpy t n) = n.
Proof. rewrite strncpy_spec. len. Qed.
#[export] Hint Rewrite length_strncpy : len.

(** [safestrcpy] always terminates the copy and writes at most [n] bytes (a
    string that fits is followed by two zeros). *)
Lemma safestrcpy_spec t n :
  (0 < n)%nat ->
  safestrcpy t n = take (n - 1) (cbytes t)
    ++ replicate (if decide (length (cbytes t) < n - 1)%nat then 2 else 1) 0.
Proof.
  intros Hn. destruct n as [|n]; [lia|]. clear Hn. revert t.
  induction n as [|n IH]; intros t; [done|].
  change (safestrcpy t (S (S n))) with
    (chr t :: (if chr t =? 0 then [0] else safestrcpy (adv t) (S n))).
  destruct t as [|c t]; cbn [chr adv tail cbytes]; [done|].
  destruct (Z.eqb_spec c 0) as [->|Hc]; [done|].
  rewrite IH. replace (S (S n) - 1)%nat with (S n) by lia.
  replace (S n - 1)%nat with n by lia. cbn [take app length]. do 2 f_equal.
  repeat case_decide; lia || done.
Qed.

Lemma length_safestrcpy t n : (length (safestrcpy t n) <= n)%nat.
Proof.
  destruct n as [|n]; [done|]. rewrite safestrcpy_spec by lia. len.
  case_decide; simpl in *; lia.
Qed.

(** [strncmp] decides equality of the fields [strncpy] would fill. *)
Lemma strncmp_zero p q n :
  Forall byte_ok p -> Forall byte_ok q ->
  strncmp p q n = 0 <-> strncpy p n = strncpy q n.
Proof.
  assert (forall s, Forall byte_ok s -> Forall byte_ok (adv s) /\ u8 (chr s) = chr s) as Hadv.
  { intros s [|c s' Hc Hs]; simpl; [done|]. split; [done|]. by apply Z.mod_small. }
  revert p q. induction n as [|n IH]; intros p q Hp Hq; simpl; [done|].
  apply Hadv in Hp as [Hp ->], Hq as [Hq ->].
  destruct (Z.eqb_spec (chr p) 0) as [E|E]; simpl.
  - rewrite E. split.
    + intros H. assert (chr q = 0) as -> by lia. done.
    + intros [= H _]. lia.
  - destruct (Z.eqb_spec (chr p) (chr q)) as [E2|E2].
    + rewrite IH by done. rewrite E2. destruct (Z.eqb_spec (chr q) 0); [lia|].
      split; [congruence|]. by intros [= H].
    + split; [lia|]. intros [= H _]. done.
Qed.

(** [memmove] copies the block as it was before the call, also when source
    and destination overlap, in whichever direction, and changes nothing
    outside the destination. *)
Theorem memmove_copies m d s n :
  loads (memmove m d s n) d n = loads m s n /\
  forall b, ~ (d <= b < d + Z.of_nat n) -> load8 (memmove m d s n) b = load8 m b.
Proof.
  split; [|intros b Hb; by rewrite memmove_spec, decide_False].
  assert (forall k a b m', (forall i, 0 <= i < Z.of_nat k -> load8 m' (a + i) = load8 m (b + i)) ->
    loads m' a k = loads m b k) as H.
  { induction k as [|k IH]; intros a b m' H; simpl; [done|]. f_equal.
    - specialize (H 0 ltac:(lia)). by rewrite !Z.add_0_r in H.
    - apply IH. intros i Hi. specialize (H (1 + i) ltac:(lia)). by rewrite !Z.add_assoc in H. }
  apply H. intros i Hi. rewrite memmove_spec, decide_True by lia. f_equal. lia.
Qed.

(** [memset] is the byte loop it optimises: filling by words when address
    and size are multiples of four leaves the same memory as storing the
    bytes one by one. *)
Theorem memset_bytewise m dst c n b :
  0 <= n -> load8 (memset m dst c n) b = load8 (stosb m dst c (Z.to_nat n)) b.
Proof. intros Hn. by rewrite memset_spec, load8_stosb, Z2Nat.id. Qed.
