(* ===== verification/Kalloc.v ===== *)
(** * Physical page allocator (kalloc.c)

    The free pages form a linked list threaded through their own first word,
    headed by [kmem.freelist].  The code is modelled on that representation;
    [free_pages] relates it to the list of free pages, which is what the rest
    of the kernel relies on. *)

From stdpp Require Import base numbers list list_numbers gmap strings.
From S2P Require Import Prelude Kmonad Params Kstate Spinlock KString.

Local Open Scope Z_scope.

(** ** The code *)

(** [if(kmem.use_lock) acquire(&kmem.lock); ... if(kmem.use_lock)
    release(&kmem.lock);] *)
Definition kmem_section {A} (body : KM A) : KM A :=
  let* ul := gets k_use_lock in
  when (negb (ul =? 0)) (acquire Lkmem) ;;
  let* r := body in
  let* ul := gets k_use_lock in
  when (negb (ul =? 0)) (release Lkmem) ;;
  ret r.

Definition kfree (v : Z) : KM unit :=
  let* ln := gets k_link in
  if negb (v mod PGSIZE =? 0) || (v <? ln_end ln) || (PHYSTOP <=? V2P v)
  then panic "kfree" else
  (* Fill with junk to catch dangling refs. *)
  modify (set k_mem (fun m => memset m (V2P v) 1 PGSIZE)) ;;
  kmem_section (
    let* fl := gets k_freelist in
    modify (set k_mem (fun m => store32 m (V2P v) fl)) ;;
    modify (fun s => s <| k_freelist := v |>)).

Definition kalloc : KM Z :=
  kmem_section (
    let* r := gets k_freelist in
    when (negb (r =? 0))
      (modify (fun s => s <| k_freelist := load32 (k_mem s) (V2P r) |>)) ;;
    ret r).

(** The pages [p], [p + PGSIZE], ... that end at or before [vend]. *)
Definition pages_upto (p vend : Z) : list Z :=
  map (fun i => p + i * PGSIZE) (seqZ 0 ((vend - p) / PGSIZE)).

Definition freerange (vstart vend : Z) : KM unit :=
  for_each (pages_upto (PGROUNDUP vstart) vend) kfree.

Definition kinit1 (vstart vend : Z) : KM unit :=
  initlock Lkmem ;;
  modify (fun s => s <| k_use_lock := 0 |>) ;;
  freerange vstart vend.

Definition kinit2 (vstart vend : Z) : KM unit :=
  freerange vstart vend ;;
  modify (fun s => s <| k_use_lock := 1 |>).

(** ** The free list *)

(** The chain of next pointers that starts at [head] visits exactly [l]. *)
Fixpoint chain (m : mem) (head : Z) (l : list Z) : Prop :=
  match l with
  | [] => head = 0
  | v :: l => head = v /\ chain m (load32 m (V2P v)) l
  end.

(** A page [kfree] accepts. *)
Definition page_ok (s : kstate) (v : Z) : Prop :=
  v mod PGSIZE = 0 /\ KERNBASE < v /\ ln_end (k_link s) <= v /\ v < KERNBASE + PHYSTOP.

Record free_pages (s : kstate) (l : list Z) : Prop := {
  fp_chain : chain (k_mem s) (k_freelist s) l;
  fp_nodup : NoDup l;
  fp_ok : Forall (page_ok s) l
}.

Lemma V2P_kern v : KERNBASE <= v < 2 ^ 32 -> V2P v = v - KERNBASE.
Proof. unfold V2P, KERNBASE. intros. apply u32_small. lia. Qed.

Lemma page_ok_V2P s v : page_ok s v -> V2P v = v - KERNBASE.
Proof. unfold page_ok, PHYSTOP, KERNBASE. intros. apply V2P_kern. unfold KERNBASE. lia. Qed.

(** Distinct pages do not overlap. *)
Lemma page_disjoint s v w :
  page_ok s v -> page_ok s w -> v <> w -> V2P v + PGSIZE <= V2P w \/ V2P w + PGSIZE <= V2P v.
Proof.
  intros Hv Hw Hne. rewrite (page_ok_V2P s v), (page_ok_V2P s w) by done.
  destruct Hv as (Ev & _), Hw as (Ew & _). unfold PGSIZE in *.
  pose proof (Z.div_mod v 4096). pose proof (Z.div_mod w 4096). lia.
Qed.

(** The chain only reads the first word of each page. *)
Lemma chain_ext m m' head l :
  (forall v, v ∈ l -> load32 m (V2P v) = load32 m' (V2P v)) -> chain m head l -> chain m' head l.
Proof.
  revert head. induction l as [|v l IH]; intros head H Hc; simpl in *; [done|].
  destruct Hc as [-> Hc]. split; [done|]. rewrite <- H by set_solver.
  apply IH; [|done]. intros w Hw. apply H. set_solver.
Qed.

Lemma load32_outside m m' a :
  (forall b, a <= b < a + 4 -> load8 m b = load8 m' b) -> load32 m a = load32 m' a.
Proof. intros H. unfold load32. f_equal. by apply loads_ext. Qed.

(** The abstraction depends on three fields only. *)
Lemma free_pages_ext s s' l :
  k_mem s = k_mem s' -> k_freelist s = k_freelist s' -> k_link s = k_link s' ->
  free_pages s l -> free_pages s' l.
Proof.
  intros Em Ef Ek [Hc Hn Hf].
  split; [by rewrite <- Em, <- Ef|done|]. unfold page_ok in *. by rewrite <- Ek.
Qed.

#[export] Instance free_pages_keq : Proper (keq ==> eq ==> iff) free_pages.
Proof.
  assert (forall s s' l, s ≡ₖ s' -> free_pages s l -> free_pages s' l) as H.
  { intros s s' l E. apply free_pages_ext;
      [apply (keq_proj k_mem)|apply (keq_proj k_freelist)|apply (keq_proj k_link)]; done. }
  intros s s' E l _ <-. split; apply H; [done|by symmetry].
Qed.

(** ** Correctness *)

(** The lock is needed only once [kinit2] has run. *)
Definition kmem_ready (c : nat) (cp : cpu) (s : kstate) : Prop :=
  k_use_lock s = 0 \/ ready c cp Lkmem s.

Definition kmem_ok (s : kstate) : Prop := exists c cp, kmem_ready c cp s.

#[export] Instance kmem_ok_keq : Proper (keq ==> iff) kmem_ok.
Proof.
  assert (forall s s', s ≡ₖ s' -> kmem_ok s -> kmem_ok s') as H.
  { intros s s' E (c & cp & [Hu|Hr]).
    - exists c, cp. left. by rewrite <- (keq_proj k_use_lock _ _ ltac:(done) E).
    - destruct (ready_keq _ _ _ _ _ E Hr) as (cp' & Hr' & _). exists c, cp'. by right. }
  intros s s' E. split; apply H; [done|by symmetry].
Qed.

(** A section whose body amounts to [f], with and without the lock. *)
Lemma kmem_section_Ok {A} (body : KM A) (f : kstate -> kstate) c cp s a :
  kmem_ready c cp s -> lock_neutral f -> (forall t, k_use_lock (f t) = k_use_lock t) ->
  (forall t, k_mem t = k_mem s -> k_freelist t = k_freelist s -> body t = Ok a (f t)) ->
  exists s', kmem_section body s = Ok a s' /\ s' ≡ₖ f s.
Proof.
  intros Hr Hf Hu Hb. unfold kmem_section. kstep.
  destruct (Z.eqb_spec (k_use_lock s) 0) as [Hz|Hz]; simpl.
  - kstep. rewrite (bind_Ok _ _ _ _ _ (Hb s eq_refl eq_refl)). kstep.
    rewrite Hu, Hz. simpl. kstep. by eexists.
  - destruct Hr as [Hr|Hr]; [done|].
    rewrite (bind_Ok _ _ _ _ _ (acquire_ready _ _ _ _ Hr)).
    rewrite (bind_Ok _ _ _ _ _ (Hb (acq c Lkmem s) eq_refl eq_refl)). kstep.
    rewrite (acq_neutral f) by done.
    change (k_use_lock (acq c Lkmem (f s))) with (k_use_lock (f s)).
    rewrite Hu. destruct (Z.eqb_spec (k_use_lock s) 0); [done|]. simpl.
    pose proof (ready_neutral f _ _ _ _ Hf Hr) as Hr'.
    rewrite (bind_Ok _ _ _ _ _ (release_inside c cp Lkmem (f s) (acq c Lkmem (f s)) Hr'
      ltac:(done))).
    eexists. split; [done|]. by eapply acq_rel_keq.
Qed.

(** [kalloc] hands out the first free page and leaves memory alone; with no
    free page it returns 0. *)
Lemma kalloc_Ok s l :
  kmem_ok s -> free_pages s l ->
  exists s', kalloc s = Ok (default 0 (head l)) s' /\
    s' ≡ₖ s <| k_freelist := default 0 (head (tail l)) |> /\ free_pages s' (tail l).
Proof.
  intros (c & cp & Hr) Hp. destruct (Hp) as [Hc Hn Hok].
  assert (k_freelist s = default 0 (head l)) as Ehd by (destruct l; simpl in *; tauto).
  destruct (kmem_section_Ok (let* r := gets k_freelist in
      when (negb (r =? 0)) (modify (fun s => s <| k_freelist := load32 (k_mem s) (V2P r) |>)) ;;
      ret r)%kern
    (fun s => s <| k_freelist := default 0 (head (tail l)) |>) c cp s (default 0 (head l)))
    as (s' & E & Es'); [done|by split|done|..].
  - intros t Em Ef. kstep. rewrite Ef, Ehd. destruct l as [|v l]; simpl.
    + kstep. unfold ret. f_equal. destruct t; simpl in *. by rewrite Ef, Ehd.
    + inversion Hok as [|? ? Hv _]; subst.
      destruct (Z.eqb_spec v 0) as [E|_]; [unfold page_ok, KERNBASE in Hv; lia|].
      assert (load32 (k_mem t) (V2P v) = default 0 (head l)) as El
        by (rewrite Em; destruct Hc as [_ Hc], l; simpl in *; tauto).
      simpl. kstep. by rewrite El.
  - exists s'. split_and!; [done..|]. rewrite Es'. destruct l as [|v l]; [by split|].
    destruct Hc as [_ Hc]. split; simpl.
    + destruct l; simpl in *; [done|]. destruct Hc as [E2 Hc]. done.
    + by apply NoDup_cons in Hn as [_ Hn].
    + by apply Forall_cons in Hok as [_ Hok].
Qed.

Lemma kfree_panics v s :
  v mod PGSIZE <> 0 \/ v < ln_end (k_link s) \/ PHYSTOP <= V2P v ->
  kfree v s = Panic "kfree" s.
Proof.
  intros H. unfold kfree. kstep.
  assert (negb (v mod PGSIZE =? 0) || (v <? ln_end (k_link s)) || (PHYSTOP <=? V2P v) = true)
    as -> by lia. done.
Qed.

(** What [kfree] leaves in memory: the page is filled with 1s, its first word
    links to the old head. *)
Definition freed (v fl : Z) (m : mem) : mem :=
  store32 (memset m (V2P v) 1 PGSIZE) (V2P v) fl.

Lemma load8_freed_out v fl m a :
  a < V2P v \/ V2P v + PGSIZE <= a -> load8 (freed v fl m) a = load8 m a.
Proof.
  unfold freed, PGSIZE. intros H. unfold store32. rewrite load8_stores_out.
  2: { rewrite length_le_bytes. lia. }
  rewrite memset_spec by lia. rewrite decide_False; [done|lia].
Qed.

Lemma freelist_range s l : free_pages s l -> 0 <= k_freelist s < 2 ^ 32.
Proof.
  intros [Hc _ Hf]. destruct l as [|v l]; simpl in Hc; [lia|]. destruct Hc as [-> _].
  inversion Hf as [|? ? Hv]; subst. unfold page_ok, KERNBASE, PHYSTOP in Hv. lia.
Qed.

(** [kfree] pushes the page on the free list and touches no other page. *)
Lemma kfree_Ok s l v :
  kmem_ok s -> free_pages s l -> page_ok s v -> v ∉ l ->
  exists s', kfree v s = Ok tt s' /\
    s' ≡ₖ s <| k_mem := freed v (k_freelist s) (k_mem s) |> <| k_freelist := v |> /\
    free_pages s' (v :: l).
Proof.
  intros (c & cp & Hr) Hp Hv Hnl. destruct (Hp) as [Hc Hn Hf]. unfold kfree. kstep.
  pose proof Hv as (Ha & Hb & Hd & He). pose proof (page_ok_V2P _ _ Hv) as EV.
  assert (negb (v mod PGSIZE =? 0) || (v <? ln_end (k_link s)) || (PHYSTOP <=? V2P v) = false)
    as -> by (rewrite EV; lia).
  kstep. set (s1 := set k_mem _ s).
  destruct (kmem_section_Ok (let* fl := gets k_freelist in
      modify (set k_mem (fun m => store32 m (V2P v) fl)) ;;
      modify (fun s => s <| k_freelist := v |>))%kern
    (fun t => t <| k_mem := freed v (k_freelist s) (k_mem s) |> <| k_freelist := v |>)
    c cp s1 tt) as (s' & E & Es'); [|by split|done|..].
  - destruct Hr as [Hr|Hr]; [by left|right].
    by apply (ready_neutral (set k_mem (fun m => memset m (V2P v) 1 PGSIZE))).
  - intros t Em Ef. kstep. rewrite Ef. kstep. unfold modify. f_equal.
    unfold freed. destruct t; simpl in *; subst. done.
  - exists s'. split_and!; [done|by rewrite Es'|]. rewrite Es'. split; simpl.
    + split; [done|]. unfold freed. rewrite load32_store32.
      rewrite u32_small by (by eapply freelist_range).
      eapply chain_ext; [|exact Hc]. intros w Hw. apply load32_outside. intros b Hb'.
      symmetry. apply load8_freed_out. rewrite Forall_forall in Hf.
      assert (v <> w) as Hne by (by intros ->).
      destruct (page_disjoint s v w Hv (Hf _ Hw) Hne); unfold PGSIZE in *; lia.
    + constructor; done.
    + by constructor.
Qed.

Lemma page_ok_keq s s' v : s ≡ₖ s' -> page_ok s v -> page_ok s' v.
Proof. intros E. unfold page_ok. by rewrite (keq_proj k_link _ _ ltac:(done) E). Qed.

(** [freerange] frees every page of the range, the last one on top. *)
Lemma for_each_kfree s l ps :
  kmem_ok s -> free_pages s l -> Forall (page_ok s) ps -> NoDup (ps ++ l) ->
  exists s', for_each ps kfree s = Ok tt s' /\ kmem_ok s' /\ free_pages s' (rev ps ++ l).
Proof.
  revert s l. induction ps as [|v ps IH]; intros s l Hk Hp Hf Hn; cbn [for_each rev].
  { by eexists. }
  apply Forall_cons in Hf as [Hv Hf]. apply NoDup_cons in Hn as [Hv' Hn].
  destruct (kfree_Ok s l v Hk Hp Hv) as (s1 & E & Es & Hp1); [set_solver|].
  rewrite (bind_Ok _ _ _ _ _ E).
  destruct (IH s1 (v :: l)) as (s' & E' & Hk' & Hp'); [..|].
  - rewrite Es. destruct Hk as (c & cp & [Hu|Hr]); exists c, cp; [by left|right].
    by apply (ready_neutral (fun t => t <| k_mem := freed v (k_freelist s) (k_mem s) |>
       <| k_freelist := v |>)).
  - done.
  - eapply Forall_impl; [exact Hf|]. intros w Hw. eapply page_ok_keq; [symmetry; exact Es|].
    done.
  - rewrite <- Permutation_middle. by constructor.
  - exists s'. rewrite <- app_assoc. done.
Qed.

Lemma elem_of_pages_upto p q x :
  x ∈ pages_upto p q <-> exists i, 0 <= i < (q - p) / PGSIZE /\ x = p + i * PGSIZE.
Proof.
  unfold pages_upto. rewrite list_elem_of_fmap. split.
  - intros (i & -> & Hi%elem_of_seqZ). exists i. split; [lia|done].
  - intros (i & Hi & ->). exists i. split; [done|]. apply elem_of_seqZ. lia.
Qed.

Lemma NoDup_pages_upto p q : NoDup (pages_upto p q).
Proof.
  apply NoDup_fmap_2_strong; [|apply NoDup_seqZ]. unfold PGSIZE. intros. lia.
Qed.

(** The loop condition of [freerange]: the page ends at or before [vend]. *)
Lemma pages_upto_fit p q i :
  0 <= i -> (i < (q - p) / PGSIZE <-> p + i * PGSIZE + PGSIZE <= q).
Proof.
  intros Hi. unfold PGSIZE. pose proof (Z.div_mod (q - p) 4096). pose proof (Z.mod_pos_bound (q - p) 4096).
  lia.
Qed.

Lemma kmem_ok_neutral f s :
  lock_neutral f -> (forall t, k_use_lock (f t) = k_use_lock t) -> kmem_ok s -> kmem_ok (f s).
Proof.
  intros Hf Hu (c & cp & [H|H]); exists c, cp; [left; by rewrite Hu|right]. by apply ready_neutral.
Qed.

(** ** The allocator as a stack of pages

    A client of the allocator sees a stack: [kalloc] takes the top page, or
    gives 0 when there is none, and [kfree] puts a page on top.  A page may
    be freed when it is a page of the allocator that is not free already. *)

Inductive page_op := AllocPage | FreePage (v : Z).

Definition page_step (o : page_op) (l : list Z) : list Z * list Z :=
  match o with
  | AllocPage => ([default 0 (head l)], tail l)
  | FreePage v => ([], v :: l)
  end.

Fixpoint page_spec (ops : list page_op) (l : list Z) : list Z * list Z :=
  match ops with
  | [] => ([], l)
  | o :: ops => let '(r, l) := page_step o l in let '(rs, l) := page_spec ops l in (r ++ rs, l)
  end.

Fixpoint page_legal (s : kstate) (ops : list page_op) (l : list Z) : Prop :=
  match ops with
  | [] => True
  | o :: ops =>
      match o with AllocPage => True | FreePage v => page_ok s v /\ v ∉ l end /\
      page_legal s ops (page_step o l).2
  end.

Fixpoint page_run (ops : list page_op) : KM (list Z) :=
  match ops with
  | [] => ret []
  | AllocPage :: ops => let* r := kalloc in let* rs := page_run ops in ret (r :: rs)
  | FreePage v :: ops => kfree v ;; page_run ops
  end.

Lemma page_legal_link s s' ops l : k_link s' = k_link s -> page_legal s ops l -> page_legal s' ops l.
Proof.
  intros E. revert l. induction ops as [|o ops IH]; intros l; simpl; [done|]. intros [H1 H2]. split; [|auto].
  destruct o; [done|]. unfold page_ok in *. by rewrite E.
Qed.

(** C11: The page allocator refines a stack of pages: for any sequence of
    [kalloc] and [kfree] in which only allocated pages are freed, the calls
    return what the stack returns, and the free list threaded through the
    free pages represents the stack. *)
Theorem kalloc_refines_stack s l ops :
  kmem_ok s -> free_pages s l -> page_legal s ops l ->
  exists s', page_run ops s = Ok (page_spec ops l).1 s' /\ kmem_ok s' /\ free_pages s' (page_spec ops l).2.
Proof.
  revert s l. induction ops as [|o ops IH]; intros s l Hk Hp Hl; simpl; [by exists s|].
  destruct Hl as [Ho Hl]. destruct o as [|v]; simpl in *.
  - destruct (kalloc_Ok s l Hk Hp) as (s1 & E1 & Es & Hp1). rewrite (bind_Ok _ _ _ _ _ E1).
    destruct (IH s1 (tail l)) as (s' & E & Hk' & Hp'); [|done| |].
    + rewrite Es. by apply (kmem_ok_neutral (fun s => s <| k_freelist := default 0 (head (tail l)) |>)).
    + eapply page_legal_link; [|exact Hl]. apply (keq_proj k_link _ _ ltac:(done) Es).
    + rewrite (bind_Ok _ _ _ _ _ E). destruct (page_spec ops (tail l)). by exists s'.
  - destruct Ho as [Hv Hnot]. destruct (kfree_Ok s l v Hk Hp Hv Hnot) as (s1 & E1 & Es & Hp1).
    rewrite (bind_Ok _ _ _ _ _ E1).
    destruct (IH s1 (v :: l)) as (s' & E & Hk' & Hp'); [|done| |].
    + rewrite Es. by apply (kmem_ok_neutral (fun t => t <| k_mem := freed v (k_freelist s) (k_mem s) |> <| k_freelist := v |>)).
    + eapply page_legal_link; [|exact Hl]. apply (keq_proj k_link _ _ ltac:(done) Es).
    + destruct (page_spec ops (v :: l)). by exists s'.
Qed.

(** A machine with one CPU at boot, the kernel ending at 2 MB. *)
Definition boot_state : kstate :=
  bss (MkLink 0x80200000 0x80108000 0x80103000 0x80105000 [] []) [MkCpu 0 1 0 0 None true 0 0] [].

Lemma kalloc_refines_stack_witness :
  exists s', page_run [FreePage 0x80201000; FreePage 0x80300000; AllocPage; AllocPage; AllocPage] boot_state
      = Ok [0x80300000; 0x80201000; 0] s' /\ kmem_ok s' /\ free_pages s' [].
Proof.
  apply (kalloc_refines_stack boot_state [] [FreePage 0x80201000; FreePage 0x80300000; AllocPage; AllocPage; AllocPage]).
  - exists 0%nat, (MkCpu 0 1 0 0 None true 0 0). by left.
  - by split; [|constructor|constructor].
  - repeat split; try done; [apply not_elem_of_nil|by intros ?%list_elem_of_singleton].
Defined.

(** ** Initialisation *)

(** The whole pages of a range. *)
Lemma pages_in_range vstart vend v :
  KERNBASE < vstart -> vend <= KERNBASE + PHYSTOP -> vstart <= vend ->
  v ∈ pages_upto (PGROUNDUP vstart) vend <-> v mod PGSIZE = 0 /\ vstart <= v /\ v + PGSIZE <= vend.
Proof.
  intros H1 H2 H3. unfold KERNBASE, PHYSTOP in *.
  assert (PGROUNDUP vstart = (vstart + 4095) / 4096 * 4096) as E by (apply PGROUNDUP_eq; lia).
  pose proof (Z.div_mod (vstart + 4095) 4096). pose proof (Z.mod_pos_bound (vstart + 4095) 4096).
  rewrite elem_of_pages_upto. split.
  - intros (i & [Hi0 Hi] & ->). apply pages_upto_fit in Hi; [|done]. rewrite E in *. unfold PGSIZE in *.
    split_and!; [|lia|lia]. by rewrite <- Z.mul_add_distr_r, Z.mod_mul.
  - intros (Hm & Hs & He). exists (v / 4096 - (vstart + 4095) / 4096). rewrite E. unfold PGSIZE in *.
    pose proof (Z.div_mod v 4096). split; [|lia].
    assert ((vstart + 4095) / 4096 <= v / 4096) by lia. split; [lia|].
    apply (pages_upto_fit _ _ (v / 4096 - (vstart + 4095) / 4096)); unfold PGSIZE; lia.
Qed.

(** [kinit1] leaves on the free list exactly the whole pages of the range
    it is given, each once, whatever the alignment of its ends. *)
Theorem kinit1_frees_range s vstart vend :
  k_freelist s = 0 -> KERNBASE < vstart -> ln_end (k_link s) <= vstart -> vstart <= vend ->
  vend <= KERNBASE + PHYSTOP ->
  exists s' l, kinit1 vstart vend s = Ok tt s' /\ kmem_ok s' /\ free_pages s' l /\
    forall v, v ∈ l <-> v mod PGSIZE = 0 /\ vstart <= v /\ v + PGSIZE <= vend.
Proof.
  intros Hf H1 H2 H3 H4. unfold kinit1, initlock, put_lk, freerange. do 2 kstep.
  match goal with |- context [for_each _ _ ?st] => set (s0 := st) end.
  assert (kmem_ok s0) as Hk by (exists 0%nat, (MkCpu 0 1 0 0 None true 0 0); by left).
  destruct (for_each_kfree s0 [] (pages_upto (PGROUNDUP vstart) vend)) as (s' & E & Hk' & Hp').
  - done.
  - by split; [|constructor|constructor].
  - apply Forall_forall. intros v Hv. apply pages_in_range in Hv as (? & ? & ?); [|done..].
    unfold page_ok, PGSIZE in *. simpl. lia.
  - rewrite app_nil_r. apply NoDup_pages_upto.
  - exists s', (rev (pages_upto (PGROUNDUP vstart) vend)). rewrite app_nil_r in Hp'.
    split_and!; [done..|]. intros v. rewrite list_elem_of_In, <- in_rev, <- list_elem_of_In.
    by apply pages_in_range.
Qed.

Lemma kinit1_frees_range_witness :
  exists s' l, kinit1 0x80200123 0x80400000 boot_state = Ok tt s' /\ kmem_ok s' /\ free_pages s' l /\
    forall v, v ∈ l <-> v mod PGSIZE = 0 /\ 0x80200123 <= v /\ v + PGSIZE <= 0x80400000.
Proof. apply (kinit1_frees_range boot_state 0x80200123 0x80400000); done. Defined.
