(* ===== verification/Cprintf.v ===== *)
(** * Console output (console.c: printint, cprintf, consputc, cgaputc)

    Every character goes to the serial port ([k_out]) and to the CGA screen,
    a map from cell numbers to attribute-and-character words with a cursor
    register.  The [panicked] flag is not represented: [panic] ends a
    computation of the model, so nothing is printed after it. *)

From stdpp Require Import base numbers list list_numbers gmap strings.
From S2P Require Import Prelude Kmonad Params Kstate Spinlock KString Kalloc.

Local Open Scope Z_scope.

(** ** The code *)

Definition BACKSPACE : Z := 0x100.

(** [cgaputc] on the screen and the cursor; [None] is its panic. *)
Definition cga_put (crt : mem) (pos c : Z) : option (mem * Z) :=
  let '(crt, pos) :=
    if c =? 10 then (crt, pos + (80 - Z.rem pos 80))
    else if c =? BACKSPACE then (crt, if 0 <? pos then pos - 1 else pos)
    else (<[pos := Z.lor (Z.land c 0xff) 0x0700]> crt, pos + 1) in
  if (pos <? 0) || (25 * 80 <? pos) then None else
  let '(crt, pos) :=
    if 24 <=? Z.quot pos 80 then
      let crt := memmove crt 0 80 (23 * 80) in
      let pos := pos - 80 in
      (foldr (fun i m => <[pos + i := 0]> m) crt (seqZ 0 (24 * 80 - pos)), pos)
    else (crt, pos) in
  Some (<[pos := Z.lor 32 0x0700]> crt, pos).

Definition cgaputc (c : Z) : KM unit :=
  let* crt := gets k_crt in
  let* pos := gets k_crtpos in
  match cga_put crt pos c with
  | Some (crt, pos) => modify (fun s => s <| k_crt := crt |> <| k_crtpos := u16 pos |>)
  | None => panic "pos under/overflow"
  end.

(** uart.c: [uartputc], with the serial port present and its transmitter ready. *)
Definition uartputc (c : Z) : KM unit := modify (set k_out (cons (u8 c))).

Definition consputc (c : Z) : KM unit :=
  (if c =? BACKSPACE then uartputc 8 ;; uartputc 32 ;; uartputc 8 else uartputc c) ;;
  cgaputc c.

Definition digit (d : Z) : Z := nthZ (bytes "0123456789abcdef") (Z.to_nat d).

(** The [do ... while((x /= base) != 0)] loop: digits, least significant
    first.  32 rounds are enough for a 32-bit [x] and [base >= 2]. *)
Fixpoint digits_rev (fuel : nat) (x base : Z) : list Z :=
  match fuel with
  | O => []
  | S fuel => digit (x mod base) :: (if x / base =? 0 then [] else digits_rev fuel (x / base) base)
  end.

(** The characters [printint] prints. *)
Definition print_int (xx base : Z) (sign : bool) : list Z :=
  let neg := sign && (xx <? 0) in
  let x := if neg then u32 (- xx) else u32 xx in
  rev (digits_rev 32 x base ++ (if neg then [45] else [])).

Definition putall (l : list Z) : KM unit := for_each l consputc.

Definition printint (xx base : Z) (sign : bool) : KM unit := putall (print_int xx base sign).

(** An argument of [cprintf]: a word, a string, or a null string pointer. *)
Inductive carg := CInt (z : Z) | CStr (s : list Z) | CNull.

(** The loop over [fmt], with the arguments still to come. *)
Fixpoint cprintf_loop (fmt : list Z) (args : list carg) : KM unit :=
  match fmt with
  | [] => ret tt
  | c :: fmt =>
      if c =? 0 then ret tt else
      if negb (c =? 37) then consputc c ;; cprintf_loop fmt args else
      match fmt with
      | [] => ret tt
      | c :: fmt =>
          if c =? 0 then ret tt else
          if c =? 100 then
            match args with
            | CInt z :: args => printint (i32 z) 10 true ;; cprintf_loop fmt args
            | _ => undef "cprintf argument"
            end
          else if (c =? 120) || (c =? 112) then
            match args with
            | CInt z :: args => printint (i32 z) 16 false ;; cprintf_loop fmt args
            | _ => undef "cprintf argument"
            end
          else if c =? 115 then
            match args with
            | CStr s :: args => putall (cbytes s) ;; cprintf_loop fmt args
            | CNull :: args => putall (bytes "(null)") ;; cprintf_loop fmt args
            | _ => undef "cprintf argument"
            end
          else if c =? 37 then consputc 37 ;; cprintf_loop fmt args
          else consputc 37 ;; consputc c ;; cprintf_loop fmt args
      end
  end.

Definition cprintf (fmt : list Z) (args : list carg) : KM unit :=
  let* locking := gets k_locking in
  when (negb (locking =? 0)) (acquire Lcons) ;;
  cprintf_loop fmt args ;;
  when (negb (locking =? 0)) (release Lcons).

(** ** The screen

    The cursor never leaves the first 24 rows, so [cgaputc] never panics. *)

Definition screen_ok (s : kstate) : Prop := 0 <= k_crtpos s < 24 * 80.

Lemma cga_put_ok crt pos c :
  0 <= pos < 24 * 80 ->
  exists crt' pos', cga_put crt pos c = Some (crt', pos') /\ 0 <= pos' < 24 * 80.
Proof.
  intros Hpos. unfold cga_put.
  set (p1 := if c =? 10 then _ else _).
  assert (0 <= p1.2 <= 24 * 80) as Hp1.
  { unfold p1. pose proof (Z.rem_bound_pos pos 80). pose proof (Z.quot_rem' pos 80).
    destruct (c =? 10); [|destruct (c =? BACKSPACE); [destruct (Z.ltb_spec 0 pos)|]]; simpl.
    - split; [lia|]. assert (Z.quot pos 80 < 24); [|lia].
      apply Z.quot_lt_upper_bound; lia.
    - lia.
    - lia.
    - lia. }
  destruct p1 as [crt1 pos1]. simpl in Hp1.
  assert ((pos1 <? 0) || (25 * 80 <? pos1) = false) as -> by lia.
  pose proof (Z.quot_rem' pos1 80). pose proof (Z.rem_bound_pos pos1 80).
  destruct (Z.leb_spec 24 (Z.quot pos1 80)); eexists _, _; (split; [done|]); lia.
Qed.

(** ** What is printed *)

(** The state after the characters [l] were printed, for some screen. *)
Definition printed (l : list Z) (s s' : kstate) : Prop :=
  exists crt pos, 0 <= pos < 24 * 80 /\
    s' = s <| k_out := rev l ++ k_out s |> <| k_crt := crt |> <| k_crtpos := pos |>.

Lemma printed_refl s : screen_ok s -> printed [] s s.
Proof. intros H. exists (k_crt s), (k_crtpos s). split; [done|]. by destruct s. Qed.

Lemma printed_trans l1 l2 s s1 s2 :
  printed l1 s s1 -> printed l2 s1 s2 -> printed (l1 ++ l2) s s2.
Proof.
  intros (c1 & p1 & H1 & ->) (c2 & p2 & H2 & ->). exists c2, p2. split; [done|].
  rewrite rev_app_distr, <- app_assoc. by destruct s.
Qed.

Lemma printed_screen l s s' : printed l s s' -> screen_ok s'.
Proof. intros (c & p & H & ->). done. Qed.

Lemma cgaputc_Ok c s : screen_ok s -> exists s', cgaputc c s = Ok tt s' /\ printed [] s s'.
Proof.
  intros H. unfold cgaputc. ksteps.
  destruct (cga_put_ok (k_crt s) (k_crtpos s) c H) as (crt & pos & -> & Hp).
  eexists. split; [done|]. exists crt, pos. split; [done|].
  unfold u16. rewrite (Z.mod_small pos) by lia. by destruct s.
Qed.

(** The bytes a console character sends to the serial port. *)
Definition uart_bytes (c : Z) : list Z := if c =? BACKSPACE then [8; 32; 8] else [u8 c].

Lemma consputc_Ok c s :
  screen_ok s -> exists s', consputc c s = Ok tt s' /\ printed (uart_bytes c) s s'.
Proof.
  intros H. unfold consputc, uart_bytes, uartputc.
  destruct (c =? BACKSPACE).
  all: unfold bind at 1; simpl; edestruct (cgaputc_Ok c) as (s' & E & Hp); [|exists s'; split; [exact E|]];
    [done|]; rewrite <- (app_nil_r (_ :: _)); eapply printed_trans; [|exact Hp];
    exists (k_crt s), (k_crtpos s); split; [done|]; by destruct s.
Qed.

Lemma putall_Ok l s :
  screen_ok s -> exists s', putall l s = Ok tt s' /\ printed (flat_map uart_bytes l) s s'.
Proof.
  unfold putall. revert s. induction l as [|c l IH]; intros s H; simpl.
  - exists s. split; [done|]. by apply printed_refl.
  - destruct (consputc_Ok c s H) as (s1 & E1 & P1). rewrite (bind_Ok _ _ _ _ _ E1).
    destruct (IH s1 (printed_screen _ _ _ P1)) as (s2 & E2 & P2).
    exists s2. split; [done|]. by eapply printed_trans.
Qed.

(** What a format prints: literal text and directives, each directive taking
    the next argument. *)
Inductive piece := Lit (c : Z) | Dir (c : Z).

Fixpoint pieces (fmt : list Z) : list piece :=
  match fmt with
  | [] => []
  | c :: fmt =>
      if c =? 0 then [] else
      if negb (c =? 37) then Lit c :: pieces fmt else
      match fmt with
      | [] => []
      | d :: fmt => if d =? 0 then [] else Dir d :: pieces fmt
      end
  end.

(** The text of one directive and the arguments left. *)
Definition directive (d : Z) (args : list carg) : option (list Z * list carg) :=
  if d =? 100 then
    match args with CInt z :: args => Some (print_int (i32 z) 10 true, args) | _ => None end
  else if (d =? 120) || (d =? 112) then
    match args with CInt z :: args => Some (print_int (i32 z) 16 false, args) | _ => None end
  else if d =? 115 then
    match args with
    | CStr str :: args => Some (cbytes str, args)
    | CNull :: args => Some (bytes "(null)", args)
    | _ => None
    end
  else Some (if d =? 37 then [37] else [37; d], args).

Fixpoint render (ps : list piece) (args : list carg) : option (list Z) :=
  match ps with
  | [] => Some []
  | Lit c :: ps => cons c <$> render ps args
  | Dir d :: ps =>
      match directive d args with
      | Some (l, args) => app l <$> render ps args
      | None => None
      end
  end.

Lemma putall_then l (m : KM unit) out s :
  screen_ok s ->
  (forall s1, screen_ok s1 ->
     exists s', m s1 = Ok tt s' /\ printed (flat_map uart_bytes out) s1 s') ->
  exists s', (putall l ;; m) s = Ok tt s' /\ printed (flat_map uart_bytes (l ++ out)) s s'.
Proof.
  intros H Hm. destruct (putall_Ok l s H) as (s1 & E1 & P1). rewrite (bind_Ok _ _ _ _ _ E1).
  destruct (Hm s1 (printed_screen _ _ _ P1)) as (s2 & E2 & P2).
  exists s2. split; [done|]. rewrite flat_map_app. by eapply printed_trans.
Qed.

Lemma consputc_then c (m : KM unit) out s :
  screen_ok s ->
  (forall s1, screen_ok s1 ->
     exists s', m s1 = Ok tt s' /\ printed (flat_map uart_bytes out) s1 s') ->
  exists s', (consputc c ;; m) s = Ok tt s' /\ printed (flat_map uart_bytes (c :: out)) s s'.
Proof.
  intros H Hm. destruct (consputc_Ok c s H) as (s1 & E1 & P1). rewrite (bind_Ok _ _ _ _ _ E1).
  destruct (Hm s1 (printed_screen _ _ _ P1)) as (s2 & E2 & P2).
  exists s2. split; [done|]. by eapply (printed_trans (uart_bytes c)).
Qed.

(** The loop prints what the format denotes. *)
Lemma cprintf_loop_Ok n : forall fmt args out s,
  (length fmt <= n)%nat -> render (pieces fmt) args = Some out -> screen_ok s ->
  exists s', cprintf_loop fmt args s = Ok tt s' /\ printed (flat_map uart_bytes out) s s'.
Proof.
  assert (forall s, screen_ok s ->
    exists s', @ret waitfor kstate _ tt s = Ok tt s' /\ printed (flat_map uart_bytes []) s s') as Hnil.
  { intros s H. exists s. split; [done|]. by apply printed_refl. }
  induction n as [|n IH]; intros [|c fmt] args out s Hn Hr H; simpl in Hn; try lia.
  1,2: injection Hr as <-; by apply Hnil.
  cbn [cprintf_loop pieces] in *.
  destruct (c =? 0); [injection Hr as <-; by apply Hnil|].
  destruct (negb (c =? 37)).
  { cbn [render] in Hr. apply fmap_Some in Hr as (out' & Hr & ->).
    apply consputc_then; [done|]. intros s1 H1. apply IH; [lia|done..]. }
  destruct fmt as [|d fmt]; [injection Hr as <-; by apply Hnil|].
  destruct (d =? 0); [injection Hr as <-; by apply Hnil|]. simpl in Hn.
  cbn [render] in Hr. unfold directive in Hr.
  assert (forall l args' out', app l <$> render (pieces fmt) args' = Some out' ->
    exists o, out' = l ++ o /\ forall s1, screen_ok s1 ->
      exists s', cprintf_loop fmt args' s1 = Ok tt s' /\ printed (flat_map uart_bytes o) s1 s') as Hk.
  { intros l args' out' E. apply fmap_Some in E as (o & E & ->). exists o. split; [done|].
    intros s1 H1. apply IH; [lia|done..]. }
  destruct (d =? 100).
  { destruct args as [|[z|?|] args]; try done. apply Hk in Hr as (o & -> & Ho).
    by apply putall_then. }
  destruct ((d =? 120) || (d =? 112)).
  { destruct args as [|[z|?|] args]; try done. apply Hk in Hr as (o & -> & Ho).
    by apply putall_then. }
  destruct (d =? 115).
  { destruct args as [|[?|str|] args]; try done; apply Hk in Hr as (o & -> & Ho);
    by apply putall_then. }
  destruct (d =? 37); apply Hk in Hr as (o & -> & Ho).
  - by apply consputc_then.
  - apply consputc_then; [done|]. intros s1 H1. by apply consputc_then.
Qed.

(** The console lock is taken once [consoleinit] has run. *)
Definition cons_ready (c : nat) (cp : cpu) (s : kstate) : Prop :=
  k_locking s = 0 \/ ready c cp Lcons s.

Lemma printed_acq l c lk s t' :
  printed l (acq c lk s) t' -> exists t, printed l s t /\ t' = acq c lk t.
Proof. intros (crt & pos & H & ->). eexists. split; [by exists crt, pos|]. by destruct s. Qed.

Lemma printed_ready l c cp lk s t : printed l s t -> ready c cp lk s -> ready c cp lk t.
Proof. intros (crt & pos & H & ->) Hr. done. Qed.

(** [cprintf] prints what its format denotes and gives the lock back. *)
Lemma cprintf_Ok fmt args out c cp s :
  render (pieces fmt) args = Some out -> screen_ok s -> cons_ready c cp s ->
  exists t s', printed (flat_map uart_bytes out) s t /\
    cprintf fmt args s = Ok tt s' /\ s' ≡ₖ t.
Proof.
  intros Hr H Hc. unfold cprintf. kstep.
  destruct (Z.eqb_spec (k_locking s) 0) as [Hz|Hz]; simpl.
  - kstep. destruct (cprintf_loop_Ok _ fmt args out s (le_n _) Hr H) as (s1 & E & P).
    rewrite (bind_Ok _ _ _ _ _ E). by exists s1, s1.
  - destruct Hc as [Hc|Hc]; [done|]. rewrite (bind_Ok _ _ _ _ _ (acquire_ready _ _ _ _ Hc)).
    destruct (cprintf_loop_Ok _ fmt args out (acq c Lcons s) (le_n _) Hr H) as (s1 & E & P).
    rewrite (bind_Ok _ _ _ _ _ E). apply printed_acq in P as (t & P & ->).
    pose proof (printed_ready _ _ _ _ _ _ P Hc) as Hc'.
    rewrite (release_inside c cp Lcons t) by done.
    exists t, (rel c Lcons (acq c Lcons t)). split_and!; [done..|]. by eapply acq_rel_keq.
Qed.

(** ** Numbers *)

Definition undigit (d : Z) : Z := if d <=? 57 then d - 48 else d - 87.
Definition of_digits (base : Z) (l : list Z) : Z :=
  fold_left (fun a d => a * base + undigit d) l 0.
(** Reading back a printed number. *)
Definition read_int (base : Z) (l : list Z) : Z :=
  if bool_decide (head l = Some 45) then - of_digits base (tail l) else of_digits base l.

Lemma digit_range d : 0 <= d < 16 -> undigit (digit d) = d /\ 48 <= digit d.
Proof.
  intros H. unfold digit, nthZ. rewrite <- (Z2Nat.id d) at 2 by lia.
  assert (Z.to_nat d < 16)%nat as Hn by lia.
  revert Hn. generalize (Z.to_nat d). intros n Hn.
  do 16 (destruct n as [|n]; [by vm_compute|]). lia.
Qed.

Lemma digits_rev_value fuel x base :
  2 <= base <= 16 -> 0 <= x < 2 ^ Z.of_nat fuel -> (0 < fuel)%nat ->
  foldr (fun d a => a * base + undigit d) 0 (digits_rev fuel x base) = x.
Proof.
  intros Hb. revert x. induction fuel as [|fuel IH]; intros x Hx Hf; [lia|].
  cbn [digits_rev foldr]. pose proof (Z.mod_pos_bound x base).
  pose proof (Z.div_mod x base). destruct (digit_range (x mod base)) as [-> _]; [lia|].
  destruct (Z.eqb_spec (x / base) 0) as [E|E]; simpl; [nia|].
  assert (0 <= x / base < 2 ^ Z.of_nat fuel) as Hq.
  { split; [apply Z.div_pos; lia|]. apply Z.div_lt_upper_bound; [lia|].
    rewrite Nat2Z.inj_succ, Z.pow_succ_r in Hx by lia.
    pose proof (Z.pow_pos_nonneg 2 (Z.of_nat fuel)). nia. }
  rewrite IH; [nia|done|]. destruct fuel; [|lia]. simpl in Hq. lia.
Qed.

Lemma digits_rev_chars fuel x base :
  2 <= base <= 16 -> Forall (fun d => 48 <= d) (digits_rev fuel x base).
Proof.
  intros Hb. revert x. induction fuel as [|fuel IH]; intros x; simpl; constructor.
  - pose proof (Z.mod_pos_bound x base). apply digit_range. lia.
  - destruct (x / base =? 0); [constructor|apply IH].
Qed.

Lemma of_digits_rev base l :
  of_digits base (rev l) = foldr (fun d a => a * base + undigit d) 0 l.
Proof. unfold of_digits. rewrite <- fold_left_rev_right, rev_involutive. done. Qed.

(** [printint] prints a numeral of its argument, for every [int]. *)
Lemma read_print_int xx base sign :
  2 <= base <= 16 -> -2 ^ 31 <= xx < 2 ^ 31 ->
  read_int base (print_int xx base sign) = if sign then xx else u32 xx.
Proof.
  intros Hb Hx. unfold print_int.
  assert (forall x, 0 <= x < 2 ^ 32 ->
    read_int base (rev (digits_rev 32 x base)) = x) as Hpos.
  { intros x Hr. assert (forall l, Forall (fun d => 48 <= d) l -> read_int base l = of_digits base l) as E.
    { intros [|d l] Hl; [done|]. inversion Hl as [|? ? Hd]; subst. unfold read_int.
      rewrite bool_decide_false; [done|]. simpl. intros [= ->]. lia. }
    rewrite E by (apply Forall_rev, digits_rev_chars; done).
    rewrite of_digits_rev. apply digits_rev_value; [done|exact Hr|lia]. }
  destruct sign; cbn [andb].
  - destruct (Z.ltb_spec xx 0) as [Hn|Hn].
    + pose proof (digits_rev_value 32 (u32 (- xx)) base Hb (u32_range _) ltac:(lia)) as E.
      revert E. generalize (digits_rev 32 (u32 (- xx)) base). intros D E.
      rewrite rev_app_distr. unfold read_int. cbn [rev app head tail].
      rewrite bool_decide_true by done. rewrite of_digits_rev, E, u32_small; lia.
    + rewrite app_nil_r, Hpos; [apply u32_small; lia|apply u32_range].
  - rewrite app_nil_r. apply Hpos, u32_range.
Qed.

Lemma digit_byte d : byte_ok (digit d).
Proof.
  unfold digit, nthZ. destruct (bytes "0123456789abcdef" !! Z.to_nat d) as [x|] eqn:E; [|done].
  apply list_elem_of_lookup_2, list_elem_of_In in E. simpl in *. unfold byte_ok. lia.
Qed.

Lemma print_int_bytes xx base sign : Forall byte_ok (print_int xx base sign).
Proof.
  assert (forall fuel x, Forall byte_ok (digits_rev fuel x base)) as H.
  { induction fuel as [|fuel IH]; intros x; simpl; constructor; [apply digit_byte|].
    destruct (x / base =? 0); [constructor|apply IH]. }
  unfold print_int. apply Forall_rev, Forall_app. split; [apply H|]. by destruct (_ && _); repeat constructor.
Qed.

Lemma uart_bytes_id l : Forall byte_ok l -> flat_map uart_bytes l = l.
Proof.
  induction 1 as [|c l Hc Hl IH]; simpl; [done|]. rewrite IH. unfold uart_bytes, BACKSPACE, byte_ok in *.
  destruct (Z.eqb_spec c 0x100); [lia|]. simpl. f_equal. by apply Z.mod_small.
Qed.

(** [printint] is inverted by reading the numeral: the bytes it sends to
    the serial port are a numeral, in the base asked for, of the number, for
    every [int], the most negative one included, and signed or not. *)
Theorem printint_roundtrip xx base sign s :
  2 <= base <= 16 -> -2 ^ 31 <= xx < 2 ^ 31 -> screen_ok s ->
  exists s' l, printint xx base sign s = Ok tt s' /\ k_out s' = rev l ++ k_out s /\
    read_int base l = (if sign then xx else u32 xx) /\ screen_ok s'.
Proof.
  intros Hb Hx Hs. destruct (putall_Ok (print_int xx base sign) s Hs) as (s' & E & Hp).
  rewrite uart_bytes_id in Hp by apply print_int_bytes.
  exists s', (print_int xx base sign). split_and!; [done| |by apply read_print_int|by eapply printed_screen].
  by destruct Hp as (crt & pos & _ & ->).
Qed.

(** [cprintf] prints what the format describes: literal characters,
    decimal and hexadecimal numerals, strings, and the percent sign, each
    directive taking its argument in turn; under the console lock when
    locking is on, and the cursor stays on the screen. *)
Theorem cprintf_renders fmt args out c cp s :
  render (pieces fmt) args = Some out -> screen_ok s -> cons_ready c cp s ->
  exists s', cprintf fmt args s = Ok tt s' /\
    k_out s' = rev (flat_map uart_bytes out) ++ k_out s /\ screen_ok s' /\
    k_locking s' = k_locking s /\ k_mem s' = k_mem s /\ k_ptable s' = k_ptable s.
Proof.
  intros Hr Hs Hc. destruct (cprintf_Ok fmt args out c cp s Hr Hs Hc) as (t & s' & Hp & E & Es).
  exists s'. pose proof (printed_screen _ _ _ Hp) as Ht. destruct Hp as (crt & pos & _ & ->).
  split; [done|]. unfold screen_ok in *.
  rewrite (keq_proj k_out _ _ ltac:(done) Es), (keq_proj k_crtpos _ _ ltac:(done) Es),
    (keq_proj k_locking _ _ ltac:(done) Es), (keq_proj k_mem _ _ ltac:(done) Es),
    (keq_proj k_ptable _ _ ltac:(done) Es).
  done.
Qed.

Lemma printint_roundtrip_witness :
  exists s' l, printint (-2147483648) 10 true boot_state = Ok tt s' /\ k_out s' = rev l ++ k_out boot_state /\
    read_int 10 l = -2147483648 /\ screen_ok s'.
Proof. apply (printint_roundtrip (-2147483648) 10 true boot_state); done. Defined.

Lemma cprintf_renders_witness :
  exists s', cprintf (bytes "cpu%d: starting %x%%") [CInt 3; CInt 255] boot_state = Ok tt s' /\
    k_out s' = rev (bytes "cpu3: starting ff%") /\ screen_ok s' /\
    k_locking s' = k_locking boot_state /\ k_mem s' = k_mem boot_state /\ k_ptable s' = k_ptable boot_state.
Proof.
  apply (cprintf_renders (bytes "cpu%d: starting %x%%") [CInt 3; CInt 255] (bytes "cpu3: starting ff%")
    0 (MkCpu 0 1 0 0 None true 0 0) boot_state); [by vm_compute|done|by left].
Defined.
