(* ===== verification/Vm.v ===== *)
(** * Virtual memory (vm.c)

    Page directories and page tables are pages of physical memory; the code
    reads and writes their entries there.  [vtop] is the translation the x86
    MMU performs with them (with CR0.WP set, as entry.S does), which is also
    how kernel code reaches user memory: the functions [uload8], [ustore8]
    and their block versions.  A page fault in kernel mode ends in
    [panic("trap")] (trap.c).  Kernel addresses are reached directly, through
    [V2P]; the segment descriptors [seginit] and [switchuvm] load are not
    represented. *)

From stdpp Require Import base numbers list list_numbers gmap strings.
From S2P Require Import Prelude Kmonad Params Kstate Spinlock KString Kalloc Cprintf.

Local Open Scope Z_scope.

(** ** The MMU *)

Definition present (e : Z) : bool := negb (Z.land e PTE_P =? 0).
Definition writable (e : Z) : bool := negb (Z.land e PTE_W =? 0).
Definition user (e : Z) : bool := negb (Z.land e PTE_U =? 0).

(** Physical address of [va] under page directory [pd] (physical), if a
    supervisor access is allowed. *)
Definition vtop (m : mem) (pd : Z) (write : bool) (va : Z) : option Z :=
  let pde := load32 m (pd + 4 * PDX va) in
  if negb (present pde) then None else
  let pte := load32 m (PTE_ADDR pde + 4 * PTX va) in
  if negb (present pte) then None else
  if write && negb (writable pde && writable pte) then None else
  Some (PTE_ADDR pte + va mod PGSIZE).

(** ** User memory from kernel code *)

Definition mmu (write : bool) (va : Z) : KM Z :=
  if KERNBASE <=? u32 va then undef "kernel address" else
  let* i := this_cpu in
  let* c := get_cpu i in
  let* m := gets k_mem in
  match vtop m (cpu_cr3 c) write (u32 va) with
  | Some pa => ret pa
  | None => panic "trap"
  end.

Definition uload8 (va : Z) : KM Z :=
  let* pa := mmu false va in gets (fun s => load8 (k_mem s) pa).
Definition ustore8 (va b : Z) : KM unit :=
  let* pa := mmu true va in modify (set k_mem (fun m => store8 m pa b)).

Fixpoint uloads (va : Z) (n : nat) : KM (list Z) :=
  match n with
  | O => ret []
  | S n =>
      let* b := uload8 va in
      let* bs := uloads (va + 1) n in
      ret (b :: bs)
  end.
Fixpoint ustores (va : Z) (bs : list Z) : KM unit :=
  match bs with
  | [] => ret tt
  | b :: bs => ustore8 va b ;; ustores (va + 1) bs
  end.

Definition uload32 (va : Z) : KM Z := let* bs := uloads va 4 in ret (of_le bs).
Definition ustore32 (va v : Z) : KM unit := ustores va (le_bytes 4 v).

(** ** vm.c *)

(** Words at kernel addresses. *)
Definition kload32 (a : Z) : KM Z := gets (fun s => load32 (k_mem s) (V2P a)).
Definition kstore32 (a v : Z) : KM unit := modify (set k_mem (fun m => store32 m (V2P a) v)).

(** The address of the PTE for [va], 0 if there is none. *)
Definition walkpgdir (pgdir va : Z) (alloc : bool) : KM Z :=
  let pde := pgdir + 4 * PDX va in
  let* e := kload32 pde in
  if present e then ret (P2V (PTE_ADDR e) + 4 * PTX va) else
  if negb alloc then ret 0 else
  let* pgtab := kalloc in
  if pgtab =? 0 then ret 0 else
  modify (set k_mem (fun m => memset m (V2P pgtab) 0 PGSIZE)) ;;
  kstore32 pde (Z.lor (Z.lor (Z.lor (V2P pgtab) PTE_P) PTE_W) PTE_U) ;;
  ret (pgtab + 4 * PTX va).

(** The [for(;;)] loop of [mappages]; one round per page up to [last]. *)
Fixpoint mappages_loop (fuel : nat) (pgdir a last pa perm : Z) : KM Z :=
  match fuel with
  | O => nofuel
  | S fuel =>
      let* pte := walkpgdir pgdir a true in
      if pte =? 0 then ret (-1) else
      let* e := kload32 pte in
      if present e then panic "remap" else
      kstore32 pte (Z.lor (Z.lor pa perm) PTE_P) ;;
      if a =? last then ret 0
      else mappages_loop fuel pgdir (u32 (a + PGSIZE)) last (u32 (pa + PGSIZE)) perm
  end.

Definition mappages (pgdir va size pa perm : Z) : KM Z :=
  let a := PGROUNDDOWN va in
  let last := PGROUNDDOWN (u32 (va + size - 1)) in
  mappages_loop (S (Z.to_nat (u32 (last - a) / PGSIZE))) pgdir a last pa perm.

(** The loop of [deallocuvm]; [a] grows by a page or more each round. *)
Fixpoint deallocuvm_loop (fuel : nat) (pgdir a oldsz : Z) : KM unit :=
  if negb (a <? oldsz) then ret tt else
  match fuel with
  | O => nofuel
  | S fuel =>
      let* pte := walkpgdir pgdir a false in
      if pte =? 0 then
        deallocuvm_loop fuel pgdir (u32 (u32 (PGADDR (PDX a + 1) 0 0 - PGSIZE) + PGSIZE)) oldsz
      else
        let* e := kload32 pte in
        when (present e) (
          let pa := PTE_ADDR e in
          if pa =? 0 then panic "kfree" else
          kfree (P2V pa) ;;
          kstore32 pte 0) ;;
        deallocuvm_loop fuel pgdir (u32 (a + PGSIZE)) oldsz
  end.

Definition deallocuvm (pgdir oldsz newsz : Z) : KM Z :=
  if oldsz <=? newsz then ret oldsz else
  deallocuvm_loop (S (Z.to_nat (oldsz / PGSIZE))) pgdir (PGROUNDUP newsz) oldsz ;;
  ret newsz.

Definition freevm (pgdir : Z) : KM unit :=
  if pgdir =? 0 then panic "freevm: no pgdir" else
  deallocuvm pgdir KERNBASE 0 ;;
  for_each (seqZ 0 NPDENTRIES) (fun i =>
    let* e := kload32 (pgdir + 4 * i) in
    when (present e) (kfree (P2V (PTE_ADDR e)))) ;;
  kfree pgdir.

(** The rows of [kmap]: virtual start, physical start and end, permissions. *)
Definition kmap (ln : linkmap) : list (Z * Z * Z * Z) :=
  [(KERNBASE, 0, EXTMEM, PTE_W);
   (KERNLINK, V2P KERNLINK, V2P (ln_data ln), 0);
   (ln_data ln, V2P (ln_data ln), PHYSTOP, PTE_W);
   (DEVSPACE, DEVSPACE, 0, PTE_W)].

Definition setupkvm : KM Z :=
  let* pgdir := kalloc in
  if pgdir =? 0 then ret 0 else
  modify (set k_mem (fun m => memset m (V2P pgdir) 0 PGSIZE)) ;;
  if DEVSPACE <? P2V PHYSTOP then panic "PHYSTOP too high" else
  let* ln := gets k_link in
  let* bad := for_break (kmap ln) (fun '(virt, phys_start, phys_end, perm) =>
    let* r := mappages pgdir virt (u32 (phys_end - phys_start)) phys_start perm in
    if r <? 0 then freevm pgdir ;; ret (Some tt) else ret None) in
  match bad with
  | Some _ => ret 0
  | None => ret pgdir
  end.

(** [lcr3]. *)
Definition lcr3 (v : Z) : KM unit :=
  let* i := this_cpu in upd_cpu i (fun c => c <| cpu_cr3 := v |>).

Definition switchkvm : KM unit :=
  let* kpgdir := gets k_kpgdir in lcr3 (V2P kpgdir).

Definition kvmalloc : KM unit :=
  let* pgdir := setupkvm in
  modify (fun s => s <| k_kpgdir := pgdir |>) ;;
  switchkvm.

Definition switchuvm (p : option nat) : KM unit :=
  match p with
  | None => panic "switchuvm: no process"
  | Some i =>
      let* p := get_p i in
      if p_kstack p =? 0 then panic "switchuvm: no kstack" else
      if p_pgdir p =? 0 then panic "switchuvm: no pgdir" else
      pushcli ;;
      let* c := mycpu in
      upd_cpu c (fun x => x <| cpu_esp0 := u32 (p_kstack p + KSTACKSIZE) |>) ;;
      lcr3 (V2P (p_pgdir p)) ;;
      popcli
  end.

(** [init] is the code to load, [sz] bytes. *)
Definition inituvm (pgdir : Z) (init : list Z) : KM unit :=
  let sz := Z.of_nat (length init) in
  if PGSIZE <=? sz then panic "inituvm: more than a page" else
  let* mem := kalloc in
  if mem =? 0 then undef "null page" else
  modify (set k_mem (fun m => memset m (V2P mem) 0 PGSIZE)) ;;
  mappages pgdir 0 PGSIZE (V2P mem) (Z.lor PTE_W PTE_U) ;;
  modify (set k_mem (fun m => stores m (V2P mem) init)).

Fixpoint allocuvm_loop (fuel : nat) (pgdir a oldsz newsz : Z) : KM Z :=
  if negb (a <? newsz) then ret newsz else
  match fuel with
  | O => nofuel
  | S fuel =>
      let* mem := kalloc in
      if mem =? 0 then
        cprintf (bytes "allocuvm out of memory" ++ [10]) [] ;;
        deallocuvm pgdir newsz oldsz ;;
        ret 0
      else
      modify (set k_mem (fun m => memset m (V2P mem) 0 PGSIZE)) ;;
      let* r := mappages pgdir a PGSIZE (V2P mem) (Z.lor PTE_W PTE_U) in
      if r <? 0 then
        cprintf (bytes "allocuvm out of memory (2)" ++ [10]) [] ;;
        deallocuvm pgdir newsz oldsz ;;
        kfree mem ;;
        ret 0
      else allocuvm_loop fuel pgdir (u32 (a + PGSIZE)) oldsz newsz
  end.

Definition allocuvm (pgdir oldsz newsz : Z) : KM Z :=
  if KERNBASE <=? newsz then ret 0 else
  if newsz <? oldsz then ret oldsz else
  allocuvm_loop (S (Z.to_nat (newsz / PGSIZE))) pgdir (PGROUNDUP oldsz) oldsz newsz.

Definition clearpteu (pgdir uva : Z) : KM unit :=
  let* pte := walkpgdir pgdir uva false in
  if pte =? 0 then panic "clearpteu" else
  let* e := kload32 pte in
  kstore32 pte (Z.land e (u32 (Z.lnot PTE_U))).

Fixpoint copyuvm_loop (fuel : nat) (pgdir d i sz : Z) : KM Z :=
  if negb (i <? sz) then ret d else
  match fuel with
  | O => nofuel
  | S fuel =>
      let* pte := walkpgdir pgdir i false in
      if pte =? 0 then panic "copyuvm: pte should exist" else
      let* e := kload32 pte in
      if negb (present e) then panic "copyuvm: page not present" else
      let pa := PTE_ADDR e in
      let flags := PTE_FLAGS e in
      let* mem := kalloc in
      if mem =? 0 then freevm d ;; ret 0 else
      modify (set k_mem (fun m => memmove m (V2P mem) (V2P (P2V pa)) (Z.to_nat PGSIZE))) ;;
      let* r := mappages d i PGSIZE (V2P mem) flags in
      if r <? 0 then kfree mem ;; freevm d ;; ret 0
      else copyuvm_loop fuel pgdir d (u32 (i + PGSIZE)) sz
  end.

Definition copyuvm (pgdir sz : Z) : KM Z :=
  let* d := setupkvm in
  if d =? 0 then ret 0 else
  copyuvm_loop (S (Z.to_nat (sz / PGSIZE))) pgdir d 0 sz.

Definition uva2ka (pgdir uva : Z) : KM Z :=
  let* pte := walkpgdir pgdir uva false in
  if pte =? 0 then undef "null PTE" else
  let* e := kload32 pte in
  if negb (present e) then ret 0 else
  let* e := kload32 pte in
  if negb (user e) then ret 0 else
  let* e := kload32 pte in
  ret (P2V (PTE_ADDR e)).

(** The loop of [copyout]; each round ends at a page boundary of [va]. *)
Fixpoint copyout_loop (fuel : nat) (pgdir va : Z) (buf : list Z) : KM Z :=
  match buf with
  | [] => ret 0
  | _ =>
    match fuel with
    | O => nofuel
    | S fuel =>
        let va0 := PGROUNDDOWN va in
        let* pa0 := uva2ka pgdir va0 in
        if pa0 =? 0 then ret (-1) else
        let n := PGSIZE - (va - va0) in
        let n := if Z.of_nat (length buf) <? n then Z.of_nat (length buf) else n in
        modify (set k_mem (fun m => stores m (V2P (pa0 + (va - va0))) (take (Z.to_nat n) buf))) ;;
        copyout_loop fuel pgdir (u32 (va0 + PGSIZE)) (drop (Z.to_nat n) buf)
    end
  end.

Definition copyout (pgdir va : Z) (p : list Z) : KM Z :=
  copyout_loop (S (length p)) pgdir va p.
