(* ===== verification/Umem.v ===== *)
(** * User memory as the kernel sees it

    Laws of the accesses [uloads] and [ustores] of [Vm].  [uspace m pd]: page
    directory [pd] describes an address space in which no user address can
    reach the page tables and no two user addresses share a byte; this is
    what lets a block copy to user memory behave as a copy. *)

From stdpp Require Import base numbers list list_numbers gmap strings.
From S2P Require Import Prelude Kmonad Params Kstate Spinlock KString Kalloc Cprintf Vm.

Local Open Scope Z_scope.

Definition uaddr (va : Z) : Prop := 0 <= va < KERNBASE.

Record uspace_in (T : Z -> Prop) (m : mem) (pd : Z) : Prop := {
  us_tables : forall m' w va, (forall a, T a -> load8 m' a = load8 m a) ->
    uaddr va -> vtop m' pd w va = vtop m pd w va;
  us_apart : forall va pa, uaddr va -> vtop m pd true va = Some pa -> ~ T pa;
  us_inj : forall va va' pa, uaddr va -> uaddr va' ->
    vtop m pd false va = Some pa -> vtop m pd false va' = Some pa -> va = va'
}.
Definition uspace (m : mem) (pd : Z) : Prop := exists T, uspace_in T m pd.

(** The byte at a user address. *)
Definition uget (m : mem) (pd va : Z) : Z := load8 m (default 0 (vtop m pd false va)).
Definition ubytes (m : mem) (pd va : Z) (n : nat) : list Z :=
  map (fun k => uget m pd (va + Z.of_nat k)) (seq 0 n).

(** [n] bytes at [va] that the kernel can read, or write. *)
Definition ureadable (m : mem) (pd va : Z) (n : nat) : Prop :=
  forall k, (k < n)%nat -> uaddr (va + Z.of_nat k) /\ is_Some (vtop m pd false (va + Z.of_nat k)).
Definition uwritable (m : mem) (pd va : Z) (n : nat) : Prop :=
  forall k, (k < n)%nat -> uaddr (va + Z.of_nat k) /\ is_Some (vtop m pd true (va + Z.of_nat k)).

Lemma vtop_write_read m pd va pa : vtop m pd true va = Some pa -> vtop m pd false va = Some pa.
Proof.
  unfold vtop. destruct (negb (present _)); [done|]. destruct (negb (present _)); [done|].
  simpl. destruct (negb _); [done|]. done.
Qed.

Lemma uwritable_readable m pd va n : uwritable m pd va n -> ureadable m pd va n.
Proof.
  intros H k Hk. destruct (H k Hk) as [Ha [pa Hp]]. split; [done|].
  exists pa. by apply vtop_write_read.
Qed.

Lemma uaddr_u32 va : uaddr va -> u32 va = va.
Proof. unfold uaddr, KERNBASE. intros. apply u32_small. lia. Qed.

Lemma mmu_Ok c cp s w va pa :
  running c cp s -> uaddr va -> vtop (k_mem s) (cpu_cr3 cp) w va = Some pa ->
  mmu w va s = Ok pa s.
Proof.
  intros H Ha Hv. unfold mmu. rewrite uaddr_u32 by done.
  destruct (Z.leb_spec KERNBASE va); [unfold uaddr in Ha; lia|].
  kx (this_cpu_Ok c cp s H). kx (get_cpu_Ok c cp s H). by rewrite Hv.
Qed.

Lemma mmu_fault c cp s w va :
  running c cp s -> uaddr va -> vtop (k_mem s) (cpu_cr3 cp) w va = None ->
  mmu w va s = Panic "trap" s.
Proof.
  intros H Ha Hv. unfold mmu. rewrite uaddr_u32 by done.
  destruct (Z.leb_spec KERNBASE va); [unfold uaddr in Ha; lia|].
  kx (this_cpu_Ok c cp s H). kx (get_cpu_Ok c cp s H). by rewrite Hv.
Qed.

Lemma uload8_Ok c cp s va pa :
  running c cp s -> uaddr va -> vtop (k_mem s) (cpu_cr3 cp) false va = Some pa ->
  uload8 va s = Ok (uget (k_mem s) (cpu_cr3 cp) va) s.
Proof.
  intros H Ha Hv. unfold uload8, uget. kx (mmu_Ok c cp s false va pa H Ha Hv). by rewrite Hv.
Qed.

Lemma seq_shift_map {A} (f : nat -> A) n : map f (seq 1 n) = map (fun k => f (S k)) (seq 0 n).
Proof. by rewrite <- seq_shift, map_map. Qed.

Lemma ubytes_S m pd va n : ubytes m pd va (S n) = uget m pd va :: ubytes m pd (va + 1) n.
Proof.
  unfold ubytes. simpl. rewrite Z.add_0_r, seq_shift_map. f_equal.
  apply map_ext. intros k. f_equal. lia.
Qed.

Lemma length_ubytes m pd va n : length (ubytes m pd va n) = n.
Proof. unfold ubytes. by rewrite length_map, length_seq. Qed.

Lemma uloads_Ok c cp s va n :
  running c cp s -> ureadable (k_mem s) (cpu_cr3 cp) va n ->
  uloads va n s = Ok (ubytes (k_mem s) (cpu_cr3 cp) va n) s.
Proof.
  intros H. revert va. induction n as [|n IH]; intros va Hr; [done|].
  rewrite ubytes_S. cbn [uloads].
  destruct (Hr 0%nat) as [Ha [pa Hp]]; [lia|]. rewrite Z.add_0_r in *.
  kx (uload8_Ok c cp s va pa H Ha Hp). rewrite IH; [done|].
  intros k Hk. replace (va + 1 + Z.of_nat k) with (va + Z.of_nat (S k)) by lia.
  apply Hr. lia.
Qed.

(** The memory after a user store. *)
Definition uput (m : mem) (pd va b : Z) : mem := store8 m (default 0 (vtop m pd true va)) b.

Lemma ustore8_Ok c cp s va b pa :
  running c cp s -> uaddr va -> vtop (k_mem s) (cpu_cr3 cp) true va = Some pa ->
  ustore8 va b s = Ok tt (set k_mem (fun m => uput m (cpu_cr3 cp) va b) s).
Proof.
  intros H Ha Hv. unfold ustore8, uput. kx (mmu_Ok c cp s true va pa H Ha Hv).
  unfold set, set_k_mem. by rewrite Hv.
Qed.

Section put.
Context (T : Z -> Prop) (m : mem) (pd : Z).
Hypothesis HT : uspace_in T m pd.
Context (va pa b : Z).
Hypothesis (Ha : uaddr va) (Hp : vtop m pd true va = Some pa).

Lemma uput_eq : uput m pd va b = store8 m pa b.
Proof. unfold uput. by rewrite Hp. Qed.

Lemma uput_tables a : T a -> load8 (uput m pd va b) a = load8 m a.
Proof.
  intros H. rewrite uput_eq. apply load8_store8_ne. intros ->.
  by apply (us_apart _ _ _ HT va a).
Qed.

Lemma vtop_uput w va' : uaddr va' -> vtop (uput m pd va b) pd w va' = vtop m pd w va'.
Proof. apply (us_tables _ _ _ HT), uput_tables. Qed.

Lemma uput_space : uspace_in T (uput m pd va b) pd.
Proof.
  split.
  - intros m' w v Hm Hv. rewrite vtop_uput by done. apply (us_tables _ _ _ HT); [|done].
    intros a HTa. rewrite Hm by done. by apply uput_tables.
  - intros v p Hv. rewrite vtop_uput by done. by apply (us_apart _ _ _ HT).
  - intros v v' p Hv Hv'. rewrite !vtop_uput by done. by apply (us_inj _ _ _ HT).
Qed.

Lemma uget_uput : uget (uput m pd va b) pd va = u8 b.
Proof.
  unfold uget. rewrite vtop_uput by done. rewrite (vtop_write_read _ _ _ _ Hp), uput_eq.
  apply load8_store8_eq.
Qed.

Lemma uget_uput_ne va' :
  uaddr va' -> is_Some (vtop m pd false va') -> va' <> va ->
  uget (uput m pd va b) pd va' = uget m pd va'.
Proof.
  intros Hv [p Hs] Hne. unfold uget. rewrite vtop_uput by done. rewrite Hs, uput_eq. simpl.
  apply load8_store8_ne. intros ->. apply Hne.
  apply (us_inj _ _ _ HT va' va p); [done..|]. by apply vtop_write_read.
Qed.
End put.

Fixpoint uputs (m : mem) (pd va : Z) (bs : list Z) : mem :=
  match bs with
  | [] => m
  | b :: bs => uputs (uput m pd va b) pd (va + 1) bs
  end.

Lemma uwritable_S m pd va n :
  uwritable m pd va (S n) ->
  exists pa, uaddr va /\ vtop m pd true va = Some pa /\ uwritable m pd (va + 1) n.
Proof.
  intros H. destruct (H 0%nat) as [Ha [pa Hp]]; [lia|]. rewrite Z.add_0_r in *.
  exists pa. split_and!; [done..|]. intros k Hk.
  replace (va + 1 + Z.of_nat k) with (va + Z.of_nat (S k)) by lia. apply H. lia.
Qed.

(** What a block store does to the address space. *)
Record uputs_post (T : Z -> Prop) (m : mem) (pd va : Z) (bs : list Z) (m' : mem) : Prop := {
  up_space : uspace_in T m' pd;
  up_vtop : forall w a, uaddr a -> vtop m' pd w a = vtop m pd w a;
  up_tables : forall a, T a -> load8 m' a = load8 m a;
  up_in : ubytes m' pd va (length bs) = map u8 bs;
  up_out : forall a, uaddr a -> is_Some (vtop m pd false a) ->
    a < va \/ va + Z.of_nat (length bs) <= a -> uget m' pd a = uget m pd a
}.

Lemma uputs_spec T m pd va bs :
  uspace_in T m pd -> uwritable m pd va (length bs) -> uputs_post T m pd va bs (uputs m pd va bs).
Proof.
  revert m va. induction bs as [|b bs IH]; intros m va HT Hw; simpl.
  { by split. }
  apply uwritable_S in Hw as (pa & Ha & Hp & Hw).
  pose proof (uput_space T m pd HT va pa b Ha Hp) as HT1.
  pose proof (vtop_uput T m pd HT va pa b Ha Hp) as Hv1.
  destruct (IH (uput m pd va b) (va + 1)) as [H1 H2 HTa H3 H4]; [done| |].
  { intros k Hk. destruct (Hw k Hk) as [Hk1 Hk2]. split; [done|]. by rewrite Hv1. }
  assert (vtop m pd false va = Some pa) as Hpr by by apply vtop_write_read.
  split.
  - done.
  - intros w a Ha'. by rewrite H2, Hv1.
  - intros a Ha'. rewrite HTa by done. by apply (uput_tables T m pd HT va pa b).
  - cbn [length]. rewrite ubytes_S, H3. cbn [map]. f_equal.
    rewrite H4; [|done|by rewrite Hv1, Hpr|lia]. by apply (uget_uput T m pd HT va pa b).
  - intros a Ha' Hs Hout. rewrite H4; [|done|by rewrite Hv1|simpl in *; lia].
    apply (uget_uput_ne T m pd HT va pa b); [done..|simpl in *; lia].
Qed.

Lemma ustores_Ok T c cp s va bs :
  running c cp s -> uspace_in T (k_mem s) (cpu_cr3 cp) ->
  uwritable (k_mem s) (cpu_cr3 cp) va (length bs) ->
  ustores va bs s = Ok tt (set k_mem (fun m => uputs m (cpu_cr3 cp) va bs) s).
Proof.
  revert s va. induction bs as [|b bs IH]; intros s va H HT Hw; cbn [ustores uputs].
  { unfold ret. f_equal. by destruct s. }
  apply uwritable_S in Hw as (pa & Ha & Hp & Hw).
  kx (ustore8_Ok c cp s va b pa H Ha Hp). rewrite IH; [done|done|..].
  - by apply (uput_space T _ _ HT va pa b).
  - intros k Hk. destruct (Hw k Hk) as [Hk1 Hk2]. split; [done|].
    by rewrite (vtop_uput T _ _ HT va pa b).
Qed.

(** ** Pushing blocks on a stack *)

Lemma ubytes_app m pd va n1 n2 :
  ubytes m pd va (n1 + n2) = ubytes m pd va n1 ++ ubytes m pd (va + Z.of_nat n1) n2.
Proof.
  unfold ubytes. rewrite seq_app, map_app. f_equal. rewrite Nat.add_0_l.
  replace n1 with (n1 + 0)%nat at 1 by lia. rewrite <- fmap_add_seq. unfold fmap.
  assert (forall (g : nat -> Z) l, map g (list_fmap _ _ (Nat.add n1) l) = map (fun k => g (n1 + k)%nat) l) as ->
    by (intros g l; induction l as [|x l IH]; [done|]; simpl; by rewrite IH).
  apply map_ext. intros k. f_equal. lia.
Qed.

Lemma ubytes_ext m m' pd va n :
  (forall k, (k < n)%nat -> uget m pd (va + Z.of_nat k) = uget m' pd (va + Z.of_nat k)) ->
  ubytes m pd va n = ubytes m' pd va n.
Proof.
  intros H. unfold ubytes. apply map_ext_in. intros k Hk. apply list_elem_of_In, elem_of_seq in Hk.
  apply H. lia.
Qed.

(** [m] is [m0] with the block [B] at [va], all else as it was. *)
Record stack_at (T : Z -> Prop) (m0 m : mem) (pd va : Z) (B : list Z) : Prop := {
  sa_space : uspace_in T m pd;
  sa_vtop : forall w a, uaddr a -> vtop m pd w a = vtop m0 pd w a;
  sa_tables : forall a, T a -> load8 m a = load8 m0 a;
  sa_block : ubytes m pd va (length B) = B;
  sa_out : forall a, uaddr a -> is_Some (vtop m0 pd false a) ->
    a < va \/ va + Z.of_nat (length B) <= a -> uget m pd a = uget m0 pd a
}.

Lemma stack_at_nil T m pd va : uspace_in T m pd -> stack_at T m m pd va [].
Proof. intros H. by split. Qed.

Lemma uwritable_sub m pd va n va' n' :
  va <= va' -> va' + Z.of_nat n' <= va + Z.of_nat n ->
  uwritable m pd va n -> uwritable m pd va' n'.
Proof.
  intros H1 H2 H k Hk. specialize (H (Z.to_nat (va' + Z.of_nat k - va)) ltac:(lia)).
  by replace (va + Z.of_nat (Z.to_nat (va' + Z.of_nat k - va))) with (va' + Z.of_nat k) in H by lia.
Qed.

Lemma uwritable_vtop m m' pd va n :
  (forall w a, uaddr a -> vtop m' pd w a = vtop m pd w a) ->
  uwritable m pd va n -> uwritable m' pd va n.
Proof. intros E H k Hk. destruct (H k Hk) as [H1 H2]. split; [done|]. by rewrite E. Qed.

Lemma stack_push T m0 m pd va B bs :
  stack_at T m0 m pd va B ->
  uwritable m0 pd (va - Z.of_nat (length bs)) (length bs + length B) ->
  map u8 bs = bs ->
  stack_at T m0 (uputs m pd (va - Z.of_nat (length bs)) bs) pd (va - Z.of_nat (length bs)) (bs ++ B).
Proof.
  intros [H1 H2 HTa H3 H4] Hw Hb. set (v := va - Z.of_nat (length bs)) in *.
  assert (uwritable m pd v (length bs)) as Hw1.
  { apply (uwritable_vtop m0); [done|]. eapply uwritable_sub; [..|exact Hw]; lia. }
  destruct (uputs_spec T m pd v bs H1 Hw1) as [U1 U2 UT U3 U4]. split.
  - done.
  - intros w a Ha. by rewrite U2, H2.
  - intros a Ha. by rewrite UT, HTa.
  - rewrite length_app, ubytes_app, U3, Hb. f_equal.
    replace (v + Z.of_nat (length bs)) with va by lia. rewrite <- H3 at 2.
    apply ubytes_ext. intros k Hk. destruct (Hw (length bs + k)%nat) as [Ha [pa Hp]]; [lia|].
    replace (v + Z.of_nat (length bs + k)) with (va + Z.of_nat k) in * by lia.
    apply U4; [done| |lia]. rewrite H2 by done. exists pa. by apply vtop_write_read.
  - intros a Ha Hs Hout. rewrite length_app in Hout.
    rewrite U4; [|done|by rewrite H2|lia]. apply H4; [done..|lia].
Qed.
