(* ===== verification/Demo.v ===== *)
(** * A small machine to evaluate the model on

    One CPU, on which process 0 runs, and an address space with one user
    page: directory at 0x1000, table at 0x2000, user page at 0x3000, mapped
    at address 0.  The witnesses of the component files start from it. *)

From stdpp Require Import base numbers list list_numbers gmap strings.
From S2P Require Import Prelude Kmonad Params Kstate Spinlock KString Kalloc Cprintf Vm Umem.

Local Open Scope Z_scope.

Definition demo_mem : mem := store32 (store32 ∅ 0x1000 0x2007) 0x2000 0x3007.

Lemma load32_empty a : load32 ∅ a = 0.
Proof. by unfold load32, loads, load8; rewrite !lookup_empty. Qed.

(** The directory and the table of the demo address space. *)
Definition demo_tables (a : Z) : Prop := 0x1000 <= a < 0x3000.

Lemma demo_pde m k :
  (forall a, demo_tables a -> load8 m a = load8 demo_mem a) -> 0 <= k < 1024 ->
  load32 m (0x1000 + 4 * k) = if k =? 0 then 0x2007 else 0.
Proof.
  intros Hm Hk. rewrite (load32_outside m demo_mem).
  2: { intros b Hb. apply Hm. unfold demo_tables. lia. }
  unfold demo_mem. destruct (Z.eqb_spec k 0) as [->|Hne]; [by vm_compute|].
  rewrite !load32_store32_ne by lia. apply load32_empty.
Qed.

Lemma demo_pte m k :
  (forall a, demo_tables a -> load8 m a = load8 demo_mem a) -> 0 <= k < 1024 ->
  load32 m (0x2000 + 4 * k) = if k =? 0 then 0x3007 else 0.
Proof.
  intros Hm Hk. rewrite (load32_outside m demo_mem).
  2: { intros b Hb. apply Hm. unfold demo_tables. lia. }
  unfold demo_mem. destruct (Z.eqb_spec k 0) as [->|Hne]; [by vm_compute|].
  rewrite !load32_store32_ne by lia. apply load32_empty.
Qed.

Lemma demo_vtop m w va :
  (forall a, demo_tables a -> load8 m a = load8 demo_mem a) -> uaddr va ->
  vtop m 0x1000 w va = if va <? 4096 then Some (0x3000 + va) else None.
Proof.
  intros Hm Ha. unfold uaddr, KERNBASE in Ha. unfold vtop.
  rewrite PDX_eq, PTX_eq by lia.
  assert (0 <= va / 2 ^ 22 < 1024) as Hd
    by (split; [apply Z.div_pos; lia|apply Z.div_lt_upper_bound; lia]).
  rewrite (demo_pde m _ Hm Hd).
  destruct (Z.eqb_spec (va / 2 ^ 22) 0) as [E|E].
  - change (present 0x2007) with true. change (PTE_ADDR 0x2007) with 0x2000. cbn [negb].
    pose proof (Z.div_mod va (2 ^ 22)). pose proof (Z.mod_pos_bound va (2 ^ 22)).
    assert (0 <= va / 4096 < 1024) as Ht
      by (split; [apply Z.div_pos; lia|apply Z.div_lt_upper_bound; lia]).
    rewrite (Z.mod_small (va / 4096)) by done. rewrite (demo_pte m _ Hm Ht).
    destruct (Z.eqb_spec (va / 4096) 0) as [E2|E2].
    + change (present 0x3007) with true. cbn [negb]. change (writable 0x2007 && writable 0x3007) with true.
      rewrite andb_false_r. change (PTE_ADDR 0x3007) with 0x3000. unfold PGSIZE.
      pose proof (Z.div_mod va 4096). pose proof (Z.mod_pos_bound va 4096).
      rewrite Z.mod_small by lia. destruct (Z.ltb_spec va 4096); [done|lia].
    + change (present 0) with false. cbn [negb]. destruct (Z.ltb_spec va 4096); [|done].
      by rewrite Z.div_small in E2 by lia.
  - change (present 0) with false. cbn [negb]. destruct (Z.ltb_spec va 4096); [|done].
    by rewrite Z.div_small in E by lia.
Qed.

(** Any memory with these tables is such an address space. *)
Lemma demo_space m :
  (forall a, demo_tables a -> load8 m a = load8 demo_mem a) -> uspace_in demo_tables m 0x1000.
Proof.
  intros Hm. split.
  - intros m' w va Hm' Ha.
    assert (forall a, demo_tables a -> load8 m' a = load8 demo_mem a) as Hm2
      by (intros a Hta; by rewrite Hm', Hm).
    by rewrite !demo_vtop.
  - intros va pa Ha. rewrite demo_vtop by done. destruct (Z.ltb_spec va 4096); [|done].
    intros [= <-]. unfold uaddr, demo_tables in *. lia.
  - intros va va' pa Ha Ha'. rewrite !demo_vtop by done.
    destruct (Z.ltb_spec va 4096); [|done]. destruct (Z.ltb_spec va' 4096); [|done].
    intros [= <-] [= E]. lia.
Qed.

Lemma demo_writable m va n :
  (forall a, demo_tables a -> load8 m a = load8 demo_mem a) ->
  0 <= va -> va + Z.of_nat n <= 4096 -> uwritable m 0x1000 va n.
Proof.
  intros Hm H1 H2 k Hk. assert (uaddr (va + Z.of_nat k)) as Ha by (unfold uaddr, KERNBASE; lia).
  split; [done|]. rewrite demo_vtop by done.
  destruct (Z.ltb_spec (va + Z.of_nat k) 4096); [by eexists|lia].
Qed.

Definition demo_cpu : cpu := MkCpu 0 1 0 0 (Some 0%nat) true 0x1000 0.
(** sigretcode.S: [movl $SYS_sig_ret, %eax; int $T_SYSCALL]. *)
Definition demo_link : linkmap :=
  MkLink 0x80200000 0x80108000 0x80103000 0x80105000 [0xb8; 31; 0; 0; 0; 0xcd; 64] [].

(** The given processes in the first slots of the table. *)
Definition demo (procs : list proc) : kstate :=
  (bss demo_link [demo_cpu] []) <| k_mem := demo_mem |>
    <| k_ptable := procs ++ replicate (NPROC - length procs) proc0 |>
    <| k_nextpid := 1 + Z.of_nat (length procs) |>.

(** A process with the given pid. *)
Definition demo_proc (pid : Z) (st : procstate) (ch : chan) : proc :=
  proc0 <| p_pid := pid |> <| p_state := st |> <| p_chan := ch |> <| p_sz := 4096 |>
        <| p_pgdir := P2V 0x1000 |> <| p_kstack := P2V 0x4000 |>.

Lemma demo_ready procs lk : ready 0 demo_cpu lk (demo procs).
Proof. repeat split; done. Qed.
