(* ===== verification/Pgtab.v ===== *)
(** * Page tables as maps (vm.c)

    [tree m pd tab]: the page directory at physical address [pd] refers to
    the page tables [tab], by directory index.  [pte m tab k] is then the
    entry of virtual page [k].  The operations of [Vm] are proved to change
    the entries they mean to and no other memory but free pages; the
    theorems give the kernel mapping [setupkvm] builds, the copy [copyuvm]
    makes for [fork] and the pages [allocuvm] adds. *)

From stdpp Require Import base numbers list list_numbers gmap strings.
From S2P Require Import Prelude Kmonad Params Kstate Spinlock KString Kalloc Cprintf Vm Umem Demo.

Local Open Scope Z_scope.

(** The flags of the pages of a process: present, writable, user. *)
Definition UFLAGS : Z := Z.lor (Z.lor PTE_W PTE_U) PTE_P.

(** ** Pages and entries *)

(** A page of physical memory. *)
Definition ppage (t : Z) : Prop := t mod 4096 = 0 /\ 0 <= t < PHYSTOP.

Definition in_page (p x : Z) : Prop := p <= x < p + 4096.

Lemma in_page_unique p q x : p mod 4096 = 0 -> q mod 4096 = 0 -> in_page p x -> in_page q x -> p = q.
Proof.
  unfold in_page. intros Hp Hq H1 H2. pose proof (Z.div_mod p 4096 ltac:(lia)). pose proof (Z.div_mod q 4096 ltac:(lia)). lia.
Qed.

Section bits.
Context (t : Z).
Hypothesis Ht : t mod 4096 = 0.
Hypothesis Ht0 : 0 <= t < 2 ^ 32.

Lemma page_land c : 0 <= c < 4096 -> Z.land t c = 0.
Proof.
  intros Hc. apply Z.bits_inj'. intros n Hn. rewrite Z.land_spec, Z.bits_0.
  destruct (Z.lt_ge_cases n 12) as [Hlt|Hge].
  - replace t with (t / 4096 * 2 ^ 12) by (pose proof (Z.div_mod t 4096 ltac:(lia)); lia).
    by rewrite Z.mul_pow2_bits_low.
  - rewrite (Z.bits_above_log2 c n), andb_false_r; [done|lia|].
    destruct (Z.eq_dec c 0) as [->|]; [simpl; lia|]. apply Z.log2_lt_pow2; [lia|].
    apply Z.lt_le_trans with (2 ^ 12); [lia|]. apply Z.pow_le_mono_r; lia.
Qed.

Lemma page_lor f : 0 <= f < 4096 -> Z.lor t f = t + f.
Proof. intros Hf. rewrite <- Z.add_lor_land, (page_land f Hf). lia. Qed.

Context (f : Z).
Hypothesis Hf : 0 <= f < 4096.

Lemma entry_range : 0 <= t + f < 2 ^ 32.
Proof. pose proof (Z.div_mod t 4096 ltac:(lia)). lia. Qed.

Lemma entry_land c : 0 <= c < 4096 -> Z.land (t + f) c = Z.land f c.
Proof. intros Hc. by rewrite <- page_lor, Z.land_lor_distr_l, (page_land c Hc). Qed.

Lemma entry_addr : PTE_ADDR (t + f) = t.
Proof.
  unfold PTE_ADDR. rewrite u32_small by apply entry_range. change 0xFFF with (2 ^ 12 - 1).
  rewrite land_mask12 by apply entry_range. pose proof (Z.div_mod t 4096 ltac:(lia)).
  rewrite <- (Z.div_unique (t + f) 4096 (t / 4096) f); lia.
Qed.

Lemma entry_flags : PTE_FLAGS (t + f) = f.
Proof.
  unfold PTE_FLAGS. rewrite u32_small by apply entry_range. rewrite entry_land by lia.
  change 0xFFF with (Z.ones 12). rewrite Z.land_ones by lia. apply Z.mod_small. lia.
Qed.

Lemma entry_present : present (t + f) = present f.
Proof. unfold present. by rewrite entry_land by (unfold PTE_P; lia). Qed.
Lemma entry_writable : writable (t + f) = writable f.
Proof. unfold writable. by rewrite entry_land by (unfold PTE_W; lia). Qed.
Lemma entry_user : user (t + f) = user f.
Proof. unfold user. by rewrite entry_land by (unfold PTE_U; lia). Qed.
End bits.

Lemma lor_flags x y : 0 <= x < 4096 -> 0 <= y < 4096 -> 0 <= Z.lor x y < 4096.
Proof.
  intros Hx Hy. assert (0 <= Z.lor x y) as Hn by (apply Z.lor_nonneg; lia). split; [done|].
  destruct (Z.eq_dec (Z.lor x y) 0) as [->|Hz]; [lia|]. change 4096 with (2 ^ 12). apply Z.log2_lt_pow2; [lia|].
  rewrite Z.log2_lor by lia. apply Z.max_lub_lt.
  - destruct (Z.eq_dec x 0) as [->|]; [simpl; lia|]. apply Z.log2_lt_pow2; lia.
  - destruct (Z.eq_dec y 0) as [->|]; [simpl; lia|]. apply Z.log2_lt_pow2; lia.
Qed.

Lemma present_flag f : present (Z.lor f PTE_P) = true.
Proof.
  unfold present, PTE_P. destruct (Z.eqb_spec (Z.land (Z.lor f 1) 1) 0) as [E|]; [|done].
  apply (f_equal (fun z => Z.testbit z 0)) in E. rewrite Z.land_spec, Z.lor_spec, orb_true_r in E. done.
Qed.

(** ** The tables of a directory *)

Record tree (m : mem) (pd : Z) (tab : gmap Z Z) : Prop := {
  tr_pd : ppage pd;
  tr_in : forall k t, tab !! k = Some t -> 0 <= k < 1024 /\ ppage t /\ t <> pd /\ load32 m (pd + 4 * k) = t + 7;
  tr_out : forall k, 0 <= k < 1024 -> tab !! k = None -> present (load32 m (pd + 4 * k)) = false;
  tr_inj : forall k k' t, tab !! k = Some t -> tab !! k' = Some t -> k = k'
}.

(** The pages of the structure. *)
Definition owned (pd : Z) (tab : gmap Z Z) (t : Z) : Prop := t = pd \/ exists k, tab !! k = Some t.

(** The entry of virtual page [k]; 0 if there is no table for it. *)
Definition pte (m : mem) (tab : gmap Z Z) (k : Z) : Z :=
  match tab !! (k / 1024) with Some t => load32 m (t + 4 * (k mod 1024)) | None => 0 end.

(** Bytes outside of the pages [P] are the same. *)
Definition only_pages (P : Z -> Prop) (m m' : mem) : Prop :=
  forall x, (forall p, P p -> ~ in_page p x) -> load8 m' x = load8 m x.

Lemma only_pages_trans P m1 m2 m3 : only_pages P m1 m2 -> only_pages P m2 m3 -> only_pages P m1 m3.
Proof. intros H1 H2 x Hx. by rewrite H2, H1. Qed.
Lemma only_pages_weaken (P Q : Z -> Prop) m m' : (forall p, P p -> Q p) -> only_pages P m m' -> only_pages Q m m'.
Proof. intros HPQ H x Hx. apply H. intros p Hp. by apply Hx, HPQ. Qed.

(** A page that is not in [P] keeps its words. *)
Lemma only_pages_load32 (P : Z -> Prop) m m' t j : only_pages P m m' -> t mod 4096 = 0 ->
  (forall p, P p -> p mod 4096 = 0 /\ p <> t) -> 0 <= j < 1024 -> load32 m' (t + 4 * j) = load32 m (t + 4 * j).
Proof.
  intros H Ht HP Hj. apply load32_outside. intros b Hb. apply H. intros p Hp Hin. destruct (HP p Hp) as [Hp1 Hp2].
  apply Hp2. apply (in_page_unique p t b); [done..|]. unfold in_page. lia.
Qed.

Lemma vtop_pte m pd tab w va : tree m pd tab -> 0 <= va < 2 ^ 32 ->
  vtop m pd w va = let e := pte m tab (va / 4096) in
    if negb (present e) then None else if w && negb (writable e) then None else Some (PTE_ADDR e + va mod 4096).
Proof.
  intros Htr Hva. unfold vtop, pte. rewrite PDX_eq, PTX_eq by done. change (2 ^ 22) with (4096 * 1024).
  rewrite Z.div_div by lia. change PGSIZE with 4096. cbv zeta.
  assert (0 <= va / (4096 * 1024) < 1024) as Hk.
  { split; [apply Z.div_pos; lia|]. apply Z.div_lt_upper_bound; lia. }
  destruct (tab !! (va / (4096 * 1024))) as [t|] eqn:E.
  - destruct (tr_in _ _ _ Htr _ _ E) as (_ & [Ht1 Ht2] & _ & ->). unfold PHYSTOP in Ht2.
    rewrite entry_present, entry_addr, entry_writable by lia. done.
  - by rewrite (tr_out _ _ _ Htr _ Hk E).
Qed.

(** ** The kernel state around a page directory *)

Lemma P2V_page t j : 0 <= t < PHYSTOP -> 0 <= j < 4096 -> P2V (t + j) = t + j + KERNBASE.
Proof. unfold P2V, PHYSTOP, KERNBASE. intros. apply u32_small. lia. Qed.
Lemma V2P_P2V x : 0 <= x < 2 ^ 31 -> V2P (P2V x) = x.
Proof. unfold V2P, P2V, KERNBASE. intros. rewrite (u32_small (x + _)), u32_small by lia. lia. Qed.
Lemma P2V_V2P s v : page_ok s v -> P2V (V2P v) = v.
Proof.
  intros Hv. rewrite (page_ok_V2P s v Hv). unfold page_ok, KERNBASE, PHYSTOP in Hv. unfold P2V, KERNBASE.
  rewrite u32_small; lia.
Qed.
Lemma page_ok_ppage s v : page_ok s v -> ppage (V2P v).
Proof.
  intros Hv. rewrite (page_ok_V2P s v Hv). destruct Hv as (H1 & H2 & _ & H3). unfold PGSIZE in H1. unfold ppage. split; [|lia].
  unfold KERNBASE. rewrite Zminus_mod, H1. done.
Qed.

Record vmem (s : kstate) (l : list Z) (pd : Z) (tab : gmap Z Z) : Prop := {
  vm_kmem : kmem_ok s;
  vm_free : free_pages s l;
  vm_tree : tree (k_mem s) pd tab;
  vm_apart : forall v, v ∈ l -> ~ owned pd tab (V2P v)
}.

(** The pages an operation on the directory may write. *)
Definition mine (l : list Z) (pd : Z) (tab : gmap Z Z) (p : Z) : Prop := owned pd tab p \/ exists v, v ∈ l /\ p = V2P v.

(** From [s] to [s'] free pages may have become page tables. *)
Record vmext (s : kstate) (l : list Z) (pd : Z) (tab : gmap Z Z) (s' : kstate) (l' : list Z) (tab' : gmap Z Z) : Prop := {
  ve_vm : vmem s' l' pd tab';
  ve_used : exists used, l = used ++ l';
  ve_tab : forall k t, tab !! k = Some t -> tab' !! k = Some t;
  ve_new : forall t, owned pd tab' t -> mine l pd tab t;
  ve_mem : only_pages (mine l pd tab) (k_mem s) (k_mem s');
  ve_keq : s' ≡ₖ s <| k_mem := k_mem s' |> <| k_freelist := k_freelist s' |>
}.

Lemma keq_set_mem m f s s' : s ≡ₖ s' -> s <| k_mem := m |> <| k_freelist := f |> ≡ₖ s' <| k_mem := m |> <| k_freelist := f |>.
Proof. intros E. apply (keq_neutral (fun s => s <| k_mem := m |> <| k_freelist := f |>)); [by split|done]. Qed.

Lemma vmext_refl s l pd tab : vmem s l pd tab -> vmext s l pd tab s l tab.
Proof.
  intros H. split; [done|by exists []|done|by left|by intros x|]. by destruct s.
Qed.

Lemma vmext_mine s l pd tab s' l' tab' p : vmext s l pd tab s' l' tab' -> mine l' pd tab' p -> mine l pd tab p.
Proof.
  intros H [Hp|(v & Hv & ->)]; [by apply (ve_new _ _ _ _ _ _ _ H)|]. right. exists v. split; [|done].
  destruct (ve_used _ _ _ _ _ _ _ H) as [u ->]. set_solver.
Qed.

Lemma vmext_trans s l pd tab s1 l1 tab1 s2 l2 tab2 :
  vmext s l pd tab s1 l1 tab1 -> vmext s1 l1 pd tab1 s2 l2 tab2 -> vmext s l pd tab s2 l2 tab2.
Proof.
  intros H1 H2. split.
  - apply H2.
  - destruct (ve_used _ _ _ _ _ _ _ H1) as [u ->], (ve_used _ _ _ _ _ _ _ H2) as [u' ->]. exists (u ++ u'). by rewrite app_assoc.
  - intros k t Hk. by apply (ve_tab _ _ _ _ _ _ _ H2), (ve_tab _ _ _ _ _ _ _ H1).
  - intros t Ht. apply (vmext_mine _ _ _ _ _ _ _ _ H1). by apply (ve_new _ _ _ _ _ _ _ H2).
  - apply (only_pages_trans _ _ (k_mem s1)); [apply H1|]. eapply only_pages_weaken; [|apply H2].
    intros p. by apply (vmext_mine _ _ _ _ _ _ _ _ H1).
  - rewrite (ve_keq _ _ _ _ _ _ _ H2) at 1. rewrite (keq_set_mem _ _ _ _ (ve_keq _ _ _ _ _ _ _ H1)). by destruct s.
Qed.

(** Memory may change outside of the free pages. *)
Lemma free_pages_mem P s l m' : free_pages s l -> only_pages P (k_mem s) m' ->
  (forall p, P p -> p mod 4096 = 0) -> (forall v, v ∈ l -> ~ P (V2P v)) -> free_pages (s <| k_mem := m' |>) l.
Proof.
  intros [Hc Hn Hf] Ho HP Hl. split; [|done..]. simpl. eapply chain_ext; [|exact Hc]. intros v Hv.
  rewrite Forall_forall in Hf. destruct (page_ok_ppage s v (Hf v Hv)) as [Hp _].
  rewrite <- (Z.add_0_r (V2P v)). symmetry. apply (only_pages_load32 P (k_mem s) m' (V2P v) 0); [done..| |lia].
  intros p Hp'. split; [by apply HP|]. intros ->. by apply (Hl v).
Qed.

Lemma tree_mem m m' pd tab : (forall k, 0 <= k < 1024 -> load32 m' (pd + 4 * k) = load32 m (pd + 4 * k)) ->
  tree m pd tab -> tree m' pd tab.
Proof.
  intros E [H1 H2 H3 H4]. split; [done| | |done].
  - intros k t Hk. destruct (H2 k t Hk) as (? & ? & ? & ?). repeat (split; [done|]). by rewrite E.
  - intros k Hk Hn. rewrite E by done. by apply H3.
Qed.

Lemma owned_page m pd tab t : tree m pd tab -> owned pd tab t -> ppage t.
Proof. intros H [->|[k Hk]]; [apply H|]. by apply (tr_in _ _ _ H) in Hk as (_ & ? & _). Qed.

Lemma page_of_vpn k : 0 <= k < 2 ^ 20 -> 0 <= k / 1024 < 1024 /\ 0 <= k mod 1024 < 1024.
Proof.
  intros Hk. split; [|apply Z.mod_pos_bound; lia]. split; [apply Z.div_pos; lia|]. apply Z.div_lt_upper_bound; lia.
Qed.

Lemma pte_mem m m' pd tab k : tree m pd tab ->
  (forall t j, (exists i, tab !! i = Some t) -> 0 <= j < 1024 -> load32 m' (t + 4 * j) = load32 m (t + 4 * j)) ->
  0 <= k < 2 ^ 20 -> pte m' tab k = pte m tab k.
Proof.
  intros Htr E Hk. unfold pte. destruct (tab !! (k / 1024)) as [t|] eqn:Et; [|done].
  apply E; [by exists (k / 1024)|]. by apply page_of_vpn.
Qed.

Lemma mine_page s l pd tab p : vmem s l pd tab -> mine l pd tab p -> ppage p.
Proof.
  intros [_ [_ _ Hok] Htr _] [H|(v & Hv & ->)]; [by apply (owned_page _ _ _ _ Htr)|].
  rewrite Forall_forall in Hok. by apply (page_ok_ppage s), Hok.
Qed.

Lemma only_pages_byte (P : Z -> Prop) m m' p j : only_pages P m m' -> p mod 4096 = 0 ->
  (forall q, P q -> q mod 4096 = 0 /\ q <> p) -> 0 <= j < 4096 -> load8 m' (p + j) = load8 m (p + j).
Proof.
  intros H Hp HP Hj. apply H. intros q Hq Hin. destruct (HP q Hq) as [H1 H2]. apply H2.
  apply (in_page_unique q p (p + j)); [done..|]. unfold in_page. lia.
Qed.

(** ** Writing entries *)

Lemma store_only m t j v : 0 <= j < 1024 -> only_pages (eq t) m (store32 m (t + 4 * j) v).
Proof. intros Hj x Hx. specialize (Hx t eq_refl). unfold in_page in Hx. apply load8_store32_ne. lia. Qed.

Lemma memset_only m t c : only_pages (eq t) m (memset m t c PGSIZE).
Proof.
  intros x Hx. specialize (Hx t eq_refl). unfold in_page in Hx. rewrite memset_spec by (unfold PGSIZE; lia).
  unfold PGSIZE. by rewrite decide_False by lia.
Qed.

Lemma load32_zeroed m t j : 0 <= j < 1024 -> load32 (memset m t 0 PGSIZE) (t + 4 * j) = 0.
Proof.
  intros Hj. transitivity (load32 ∅ (t + 4 * j)); [|by unfold load32, loads, load8; rewrite !lookup_empty].
  apply load32_outside. intros b Hb. rewrite memset_spec by (unfold PGSIZE; lia). unfold PGSIZE.
  rewrite decide_True by lia. unfold load8. by rewrite lookup_empty.
Qed.

Lemma kmem_ok_mem m s : kmem_ok s -> kmem_ok (s <| k_mem := m |>).
Proof. apply (kmem_ok_neutral (fun s => s <| k_mem := m |>)); [by split|done]. Qed.

(** A change within one table keeps the structure. *)
Lemma vmem_table s l pd tab m' t i : vmem s l pd tab -> tab !! i = Some t -> only_pages (eq t) (k_mem s) m' ->
  vmext s l pd tab (s <| k_mem := m' |>) l tab.
Proof.
  intros [Hk Hf Htr Ha] Hi Ho. pose proof (tr_in _ _ _ Htr _ _ Hi) as (_ & [Ht _] & Hpd & _).
  split.
  - split.
    + by apply kmem_ok_mem.
    + apply (free_pages_mem (eq t)); [done..|by intros p <-|]. intros v Hv ->. apply (Ha v Hv). right. by exists i.
    + apply (tree_mem (k_mem s)); [|done]. intros k Hk'. apply (only_pages_load32 (eq t)); [done|apply Htr| |done].
      intros p <-. done.
    + done.
  - by exists [].
  - done.
  - by left.
  - eapply only_pages_weaken; [|exact Ho]. intros p <-. left. right. by exists i.
  - by destruct s.
Qed.

Lemma set_pte s l pd tab k t v : vmem s l pd tab -> tab !! (k / 1024) = Some t -> 0 <= k < 2 ^ 20 ->
  let s' := set k_mem (fun m => store32 m (t + 4 * (k mod 1024)) v) s in
  vmext s l pd tab s' l tab /\ pte (k_mem s') tab k = u32 v /\
  forall k', 0 <= k' < 2 ^ 20 -> k' <> k -> pte (k_mem s') tab k' = pte (k_mem s) tab k'.
Proof.
  intros Hvm Ht Hk s'. destruct (page_of_vpn k Hk) as [Hk1 Hk2].
  change (k_mem s') with (store32 (k_mem s) (t + 4 * (k mod 1024)) v).
  split; [|split].
  - apply (vmem_table s l pd tab _ t (k / 1024)); [done..|]. by apply store_only.
  - unfold pte. rewrite Ht. apply load32_store32.
  - intros k' Hk' Hne. destruct (page_of_vpn k' Hk') as [Hk1' Hk2']. unfold pte.
    destruct (tab !! (k' / 1024)) as [t'|] eqn:Et; [|done]. destruct (Z.eq_dec t' t) as [->|Hnt].
    + apply load32_store32_ne. assert (k' / 1024 = k / 1024) by (by apply (tr_inj _ _ _ (vm_tree _ _ _ _ Hvm) _ _ t)).
      pose proof (Z.div_mod k 1024 ltac:(lia)). pose proof (Z.div_mod k' 1024 ltac:(lia)). lia.
    + destruct (tr_in _ _ _ (vm_tree _ _ _ _ Hvm) _ _ Et) as (_ & [Hp' _] & _).
      destruct (tr_in _ _ _ (vm_tree _ _ _ _ Hvm) _ _ Ht) as (_ & [Hp _] & _).
      apply (only_pages_load32 (eq t)); [by apply store_only|done| |done]. intros p <-. done.
Qed.

(** A new table. *)
Section new_table.
Context (m : mem) (pd : Z) (tab : gmap Z Z) (kd t : Z).
Hypothesis Htr : tree m pd tab.
Hypothesis Hkd : 0 <= kd < 1024.
Hypothesis Hno : tab !! kd = None.
Hypothesis Ht : ppage t.
Hypothesis Hnew : ~ owned pd tab t.

Let m2 := store32 (memset m t 0 PGSIZE) (pd + 4 * kd) (t + 7).

Lemma new_table_only : only_pages (fun p => p = pd \/ p = t) m m2.
Proof.
  apply (only_pages_trans _ _ (memset m t 0 PGSIZE)); (eapply only_pages_weaken; [|apply memset_only || by apply store_only]);
    intros p <-; auto.
Qed.

Lemma new_table_pd k : 0 <= k < 1024 -> k <> kd -> load32 m2 (pd + 4 * k) = load32 m (pd + 4 * k).
Proof.
  intros Hk Hne. unfold m2. rewrite load32_store32_ne by lia.
  apply (only_pages_load32 (eq t)); [apply memset_only|apply Htr| |done]. intros p <-. split; [apply Ht|].
  intros ->. apply Hnew. by left.
Qed.

Lemma new_table_tree : tree m2 pd (<[kd := t]> tab).
Proof.
  destruct Ht as [Hp1 Hp2]. split.
  - apply Htr.
  - intros k u. destruct (Z.eq_dec k kd) as [->|Hne].
    + rewrite lookup_insert_eq. intros [= <-]. split; [done|]. split; [done|]. split; [intros ->; apply Hnew; by left|].
      unfold m2. rewrite load32_store32. apply u32_small. unfold PHYSTOP in Hp2. lia.
    + rewrite lookup_insert_ne by done. intros Hk. destruct (tr_in _ _ _ Htr _ _ Hk) as (? & ? & ? & ?).
      repeat (split; [done|]). by rewrite new_table_pd.
  - intros k Hk. destruct (Z.eq_dec k kd) as [->|Hne]; [by rewrite lookup_insert_eq|]. rewrite lookup_insert_ne by done.
    intros Hn. rewrite new_table_pd by done. by apply (tr_out _ _ _ Htr).
  - intros k k' u. destruct (Z.eq_dec k kd) as [->|Hne], (Z.eq_dec k' kd) as [->|Hne']; [done|..].
    + rewrite lookup_insert_eq, lookup_insert_ne by done. intros [= <-] H. destruct Hnew. right. by exists k'.
    + rewrite lookup_insert_eq, lookup_insert_ne by done. intros H [= <-]. destruct Hnew. right. by exists k.
    + rewrite !lookup_insert_ne by done. apply (tr_inj _ _ _ Htr).
Qed.

Lemma new_table_pte k : 0 <= k < 2 ^ 20 -> pte m2 (<[kd := t]> tab) k = pte m tab k.
Proof.
  intros Hk. destruct (page_of_vpn k Hk) as [Hk1 Hk2]. unfold pte. destruct (Z.eq_dec (k / 1024) kd) as [E|Hne].
  - rewrite E, lookup_insert_eq, Hno. unfold m2. transitivity (load32 (memset m t 0 PGSIZE) (t + 4 * (k mod 1024))); [|by apply load32_zeroed].
    apply (only_pages_load32 (eq pd)); [by apply store_only|apply Ht| |done]. intros p <-. split; [apply Htr|].
    intros ->. apply Hnew. by left.
  - rewrite lookup_insert_ne by done. destruct (tab !! (k / 1024)) as [u|] eqn:Eu; [|done].
    destruct (tr_in _ _ _ Htr _ _ Eu) as (_ & [Hu _] & Hupd & _).
    apply (only_pages_load32 _ _ _ _ _ new_table_only); [done| |done].
    intros p [->| ->]; [split; [apply Htr|done]|]. split; [apply Ht|]. intros ->. apply Hnew. right. by exists (k / 1024).
Qed.
End new_table.

(** ** [walkpgdir] *)

Lemma tree_size_le m pd tab : tree m pd tab -> (size tab <= 1024)%nat.
Proof.
  intros Htr. rewrite <- size_dom. transitivity (size (list_to_set (seqZ 0 1024) : gset Z)).
  - apply subseteq_size. intros k [t Hk]%elem_of_dom. apply elem_of_list_to_set, elem_of_seqZ.
    apply (tr_in _ _ _ Htr) in Hk as (? & _). lia.
  - by rewrite size_list_to_set by apply NoDup_seqZ; rewrite length_seqZ.
Qed.

Lemma PDX_vpn va : 0 <= va < 2 ^ 32 -> PDX va = va / 4096 / 1024 /\ 0 <= va / 4096 < 2 ^ 20.
Proof.
  intros H. rewrite PDX_eq by done. change (2 ^ 22) with (4096 * 1024). rewrite Z.div_div by lia.
  split; [done|]. split; [apply Z.div_pos; lia|apply Z.div_lt_upper_bound; lia].
Qed.

Lemma kload32_Ok a s x : V2P a = x -> kload32 a s = Ok (load32 (k_mem s) x) s.
Proof. by intros <-. Qed.

Lemma pde_addr pd k : ppage pd -> 0 <= k < 1024 -> V2P (P2V pd + 4 * k) = pd + 4 * k.
Proof.
  intros [H1 H2] Hk. rewrite <- (Z.add_0_r pd) at 1. rewrite P2V_page by lia.
  unfold V2P, PHYSTOP, KERNBASE in *. rewrite u32_small; lia.
Qed.

(** The free pages suffice for the tables of the directory entries [D]. *)
Definition fits (D : gset Z) (l : list Z) (tab : gmap Z Z) : Prop := dom tab ⊆ D /\ (size D <= length l + size tab)%nat.

Lemma fits_free D l tab k : fits D l tab -> k ∈ D -> tab !! k = None -> l <> [].
Proof.
  intros [Hd Hs] Hk Ht ->. assert (dom tab ⊂ D) as Hsub.
  { split; [done|]. intros H. apply H in Hk. apply elem_of_dom in Hk as [x Hx]. congruence. }
  apply subset_size in Hsub. rewrite size_dom in Hsub. simpl in Hs. lia.
Qed.

Lemma fits_take D v l tab k t : fits D (v :: l) tab -> k ∈ D -> tab !! k = None -> fits D l (<[k := t]> tab).
Proof.
  intros [Hd Hs] Hk Ht. split; [rewrite dom_insert_L; set_solver|]. rewrite map_size_insert_None by done. simpl in Hs. lia.
Qed.

(** All the entries there are. *)
Definition all_dirs : gset Z := list_to_set (seqZ 0 1024).

Lemma size_seqZ a n : size (list_to_set (seqZ a (Z.of_nat n)) : gset Z) = n.
Proof. rewrite size_list_to_set by apply NoDup_seqZ. rewrite length_seqZ. lia. Qed.

Lemma fits_all m pd l tab : tree m pd tab -> (1024 <= length l + size tab)%nat -> fits all_dirs l tab.
Proof.
  intros Htr H. split.
  - intros k [t Ht]%elem_of_dom. apply elem_of_list_to_set, elem_of_seqZ. destruct (tr_in _ _ _ Htr _ _ Ht) as (Hk & _). lia.
  - unfold all_dirs. change 1024 with (Z.of_nat 1024). by rewrite size_seqZ.
Qed.

Lemma all_dirs_page k : 0 <= k < 2 ^ 20 -> k / 1024 ∈ all_dirs.
Proof. intros Hk. apply elem_of_list_to_set, elem_of_seqZ. destruct (page_of_vpn _ Hk). lia. Qed.

Section walk.
Context (s : kstate) (l : list Z) (pd : Z) (tab : gmap Z Z) (va : Z).
Hypothesis Hvm : vmem s l pd tab.
Hypothesis Hva : 0 <= va < 2 ^ 32.

Lemma walk_found t alloc : tab !! (va / 4096 / 1024) = Some t ->
  walkpgdir (P2V pd) va alloc s = Ok (P2V (t + 4 * (va / 4096 mod 1024))) s.
Proof.
  intros Ht. destruct (PDX_vpn va Hva) as [EP Hk]. destruct (page_of_vpn _ Hk) as [Hk1 Hk2].
  pose proof (vm_tree _ _ _ _ Hvm) as Htr. destruct (tr_in _ _ _ Htr _ _ Ht) as (_ & [Hp1 Hp2] & _ & El).
  unfold walkpgdir. rewrite EP, PTX_eq by done.
  rewrite (bind_Ok _ _ _ _ _ (kload32_Ok _ s _ (pde_addr pd _ (tr_pd _ _ _ Htr) Hk1))), El.
  unfold PHYSTOP in Hp2. rewrite entry_present, entry_addr by lia. unfold ret. f_equal.
  rewrite <- (Z.add_0_r t) at 1. rewrite !P2V_page by (unfold PHYSTOP; lia). lia.
Qed.

Lemma walk_none : tab !! (va / 4096 / 1024) = None -> walkpgdir (P2V pd) va false s = Ok 0 s.
Proof.
  intros Ht. destruct (PDX_vpn va Hva) as [EP Hk]. destruct (page_of_vpn _ Hk) as [Hk1 Hk2].
  pose proof (vm_tree _ _ _ _ Hvm) as Htr. unfold walkpgdir. rewrite EP.
  rewrite (bind_Ok _ _ _ _ _ (kload32_Ok _ s _ (pde_addr pd _ (tr_pd _ _ _ Htr) Hk1))).
  by rewrite (tr_out _ _ _ Htr _ Hk1 Ht).
Qed.

(** Page [v], taken from the free list, becomes a table. *)
Lemma new_table_ext v l1 s1 kd : l = v :: l1 -> free_pages s1 l1 -> s1 ≡ₖ s <| k_freelist := default 0 (head l1) |> ->
  0 <= kd < 1024 -> tab !! kd = None ->
  let m2 := store32 (memset (k_mem s) (V2P v) 0 PGSIZE) (pd + 4 * kd) (V2P v + 7) in
  vmext s l pd tab (s1 <| k_mem := m2 |>) l1 (<[kd := V2P v]> tab).
Proof.
  intros -> Hf1 Ek Hkd Et m2. destruct Hvm as [Hkm Hf Htr Ha]. destruct Hf as [_ Hnd Hfo]. apply NoDup_cons in Hnd as [Hnd _].
  rewrite Forall_forall in Hfo. assert (page_ok s v) as Hv by (apply Hfo; by left).
  pose proof (page_ok_ppage s v Hv) as Hp. assert (~ owned pd tab (V2P v)) as Hnew by (apply Ha; by left).
  assert (forall w, w ∈ l1 -> V2P w <> V2P v) as Hother.
  { intros w Hw E. apply Hnd. rewrite <- (P2V_V2P s v Hv), <- E, (P2V_V2P s w); [done|]. apply Hfo. by right. }
  pose proof (new_table_only (k_mem s) pd kd (V2P v) Hkd) as Honly. split.
  - split.
    + apply kmem_ok_mem. rewrite Ek. apply (kmem_ok_neutral (fun s => s <| k_freelist := default 0 (head l1) |>)); [by split|done..].
    + apply (free_pages_mem (fun p => p = pd \/ p = V2P v) s1 l1 m2 Hf1).
      * by rewrite Ek.
      * intros p [->| ->]; [apply Htr|apply Hp].
      * intros w Hw [E|E]; [|by apply (Hother w)]. apply (Ha w); [by right|by left].
    + by apply new_table_tree.
    + intros w Hw [E|[k E]]; [apply (Ha w); [by right|by left]|]. destruct (Z.eq_dec k kd) as [->|Hne].
      * rewrite lookup_insert_eq in E. injection E as E. by apply (Hother w).
      * rewrite lookup_insert_ne in E by done. apply (Ha w); [by right|]. right. by exists k.
  - by exists [v].
  - intros k t Hkt. rewrite lookup_insert_ne; [done|]. intros <-. congruence.
  - intros t [->|[k E]]; [by left; left|]. destruct (Z.eq_dec k kd) as [->|Hne].
    + rewrite lookup_insert_eq in E. injection E as <-. right. exists v. split; [by left|done].
    + rewrite lookup_insert_ne in E by done. left. right. by exists k.
  - eapply only_pages_weaken; [|exact Honly]. intros p [->| ->]; [by left; left|]. right. exists v. split; [by left|done].
  - simpl. pose proof (keq_proj k_freelist _ _ ltac:(done) Ek) as El. simpl in El. rewrite El.
    rewrite (keq_neutral (fun s => s <| k_mem := m2 |>) ltac:(by split) _ _ Ek). by destruct s.
Qed.

Lemma walk_alloc D : va / 4096 / 1024 ∈ D -> fits D l tab ->
  exists s' l' tab' t, walkpgdir (P2V pd) va true s = Ok (P2V (t + 4 * (va / 4096 mod 1024))) s' /\
    vmext s l pd tab s' l' tab' /\ tab' !! (va / 4096 / 1024) = Some t /\
    (forall k, 0 <= k < 2 ^ 20 -> pte (k_mem s') tab' k = pte (k_mem s) tab k) /\
    (length l' + size tab' = length l + size tab)%nat /\ fits D l' tab'.
Proof.
  intros HD Hroom. destruct (tab !! (va / 4096 / 1024)) as [t|] eqn:Et.
  { exists s, l, tab, t. split_and!; [by apply walk_found|by apply vmext_refl|done..]. }
  destruct (PDX_vpn va Hva) as [EP Hk]. destruct (page_of_vpn _ Hk) as [Hk1 Hk2].
  pose proof Hvm as [Hkm Hf Htr Ha]. pose proof (fits_free _ _ _ _ Hroom HD Et) as Hne.
  assert (exists v l1, l = v :: l1) as (v & l1 & El) by (clear -Hne; destruct l; [done|eauto]).
  destruct (kalloc_Ok s l Hkm Hf) as (s1 & E & Ek & Hf1). rewrite El in E, Ek, Hf1. simpl in E, Ek, Hf1.
  assert (page_ok s v) as Hv by (destruct Hf as [_ _ Hf]; rewrite El in Hf; by apply Forall_cons in Hf as [? _]).
  pose proof (page_ok_ppage s v Hv) as [Hp1 Hp2]. set (kd := va / 4096 / 1024) in *.
  eexists _, l1, (<[kd := V2P v]> tab), (V2P v). split_and!; [|by apply (new_table_ext v l1 s1 kd)|..].
  - unfold walkpgdir. rewrite EP, PTX_eq by done. fold kd.
    rewrite (bind_Ok _ _ _ _ _ (kload32_Ok _ s _ (pde_addr pd _ (tr_pd _ _ _ Htr) Hk1))).
    rewrite (tr_out _ _ _ Htr _ Hk1 Et). cbn [negb]. rewrite (bind_Ok _ _ _ _ _ E).
    destruct (Z.eqb_spec v 0) as [E0|_]; [destruct Hv as (_ & Hv & _); unfold KERNBASE in Hv; lia|].
    unfold bind, kstore32, modify, ret. cbn [obind]. rewrite (pde_addr pd kd (tr_pd _ _ _ Htr) Hk1). f_equal.
    + rewrite P2V_page by lia. rewrite (page_ok_V2P s v Hv). lia.
    + change (Z.lor (Z.lor (Z.lor (V2P v) PTE_P) PTE_W) PTE_U) with (Z.lor (Z.lor (Z.lor (V2P v) 1) 2) 4).
      rewrite <- !Z.lor_assoc. change (Z.lor 1 (Z.lor 2 4)) with 7. unfold PHYSTOP in Hp2. rewrite page_lor by lia.
      assert (k_mem s1 = k_mem s) as <- by (by rewrite Ek). by destruct s1.
  - by rewrite lookup_insert_eq.
  - intros k Hk'. apply (new_table_pte (k_mem s) pd tab kd (V2P v)); try done. apply Ha. rewrite El. by left.
  - rewrite map_size_insert_None by done. rewrite El. simpl. lia.
  - rewrite El in Hroom. by apply (fits_take D v).
Qed.
End walk.

(** ** [mappages] *)

(** The entries after the pages [k0], ..., [k0 + n] were mapped to the frames
    from [pa] on. *)
Definition mapped (old : Z -> Z) (k0 n pa perm k : Z) : Z :=
  if decide (k0 <= k <= k0 + n) then pa + 4096 * (k - k0) + Z.lor perm PTE_P else old k.

(** Entry [k] is set to map frame [pa]. *)
Lemma map_one s l pd tab k t pa perm : vmem s l pd tab -> tab !! (k / 1024) = Some t -> 0 <= k < 2 ^ 20 ->
  pa mod 4096 = 0 -> 0 <= pa < 2 ^ 32 -> 0 <= perm < 4096 ->
  exists s', kstore32 (P2V (t + 4 * (k mod 1024))) (Z.lor (Z.lor pa perm) PTE_P) s = Ok tt s' /\ vmext s l pd tab s' l tab /\
    forall k', 0 <= k' < 2 ^ 20 -> pte (k_mem s') tab k' = mapped (pte (k_mem s) tab) k 0 pa perm k'.
Proof.
  intros Hvm Ht Hk Hpa Hpa' Hperm. destruct (page_of_vpn _ Hk) as [Hk1 Hk2].
  destruct (tr_in _ _ _ (vm_tree _ _ _ _ Hvm) _ _ Ht) as (_ & [_ Hp] & _). unfold PHYSTOP in Hp.
  assert (0 <= Z.lor perm 1 < 4096) as Hlor by (apply lor_flags; lia).
  destruct (set_pte s l pd tab k t (pa + Z.lor perm 1) Hvm Ht Hk) as (He & E1 & E2).
  eexists. split; [|split; [exact He|]].
  - unfold kstore32, modify. rewrite V2P_P2V by lia. rewrite <- Z.lor_assoc. unfold PTE_P. by rewrite page_lor.
  - intros k' Hk'. unfold mapped. destruct (decide (k <= k' <= k + 0)) as [Hin|Hout].
    + assert (k' = k) as -> by lia. rewrite E1, u32_small; [|apply entry_range; done].
      unfold PTE_P. lia.
    + apply E2; [done|]. lia.
Qed.

(** One round of the loop. *)
Lemma mappages_round D s l pd tab k pa perm (next : KM Z) : vmem s l pd tab -> 0 <= k < 2 ^ 20 ->
  pa mod 4096 = 0 -> 0 <= pa < 2 ^ 32 -> 0 <= perm < 4096 -> present (pte (k_mem s) tab k) = false ->
  k / 1024 ∈ D -> fits D l tab ->
  exists s' l' tab', (let* p := walkpgdir (P2V pd) (4096 * k) true in
      if p =? 0 then ret (-1) else
      let* e := kload32 p in
      if present e then panic "remap" else
      kstore32 p (Z.lor (Z.lor pa perm) PTE_P) ;;
      next)%kern s = next s' /\
    vmext s l pd tab s' l' tab' /\ (length l' + size tab' = length l + size tab)%nat /\ fits D l' tab' /\
    forall k', 0 <= k' < 2 ^ 20 -> pte (k_mem s') tab' k' = mapped (pte (k_mem s) tab) k 0 pa perm k'.
Proof.
  intros Hvm Hk Hpa Hpa' Hperm Hfree HD Hroom. assert (4096 * k / 4096 = k) as Ek by (rewrite (Z.mul_comm 4096 k); apply Z.div_mul; lia).
  destruct (walk_alloc s l pd tab (4096 * k) Hvm ltac:(lia) D ltac:(by rewrite Ek) Hroom) as (s1 & l1 & tab1 & t & E1 & X1 & Ht & Hp1 & Hc1 & Hr1).
  rewrite Ek in *. pose proof (ve_vm _ _ _ _ _ _ _ X1) as Hvm1.
  destruct (map_one s1 l1 pd tab1 k t pa perm Hvm1 Ht Hk Hpa Hpa' Hperm) as (s2 & E2 & X2 & Hp2).
  destruct (tr_in _ _ _ (vm_tree _ _ _ _ Hvm1) _ _ Ht) as (_ & [_ Hp] & _).
  assert (0 <= k mod 1024 < 1024) as Hmod by (apply Z.mod_pos_bound; lia).
  assert (load32 (k_mem s1) (t + 4 * (k mod 1024)) = pte (k_mem s) tab k) as Eold
    by (rewrite <- Hp1 by lia; unfold pte; by rewrite Ht).
  exists s2, l1, tab1. split_and!.
  - rewrite (bind_Ok _ _ _ _ _ E1).
    rewrite (proj2 (Z.eqb_neq (P2V (t + 4 * (k mod 1024))) 0)) by (rewrite P2V_page by lia; unfold KERNBASE; lia).
    unfold PHYSTOP in Hp. rewrite (bind_Ok _ _ _ _ _ (kload32_Ok _ s1 _ (V2P_P2V (t + 4 * (k mod 1024)) ltac:(lia)))).
    rewrite Eold, Hfree. by rewrite (bind_Ok _ _ _ _ _ E2).
  - by apply (vmext_trans _ _ _ _ _ _ _ _ _ _ X1 X2).
  - done.
  - done.
  - intros k' Hk'. rewrite Hp2 by done. unfold mapped. case_decide; [done|]. by apply Hp1.
Qed.

Lemma mappages_loop_Ok D pd perm n : forall s l tab k0 pa,
  vmem s l pd tab -> 0 <= k0 -> k0 + Z.of_nat n < 2 ^ 20 -> pa mod 4096 = 0 -> 0 <= pa -> pa + 4096 * Z.of_nat n < 2 ^ 32 ->
  0 <= perm < 4096 -> (forall k, k0 <= k <= k0 + Z.of_nat n -> present (pte (k_mem s) tab k) = false) ->
  (forall k, k0 <= k <= k0 + Z.of_nat n -> k / 1024 ∈ D) -> fits D l tab ->
  exists s' l' tab', mappages_loop (S n) (P2V pd) (4096 * k0) (4096 * (k0 + Z.of_nat n)) pa perm s = Ok 0 s' /\
    vmext s l pd tab s' l' tab' /\ (length l' + size tab' = length l + size tab)%nat /\ fits D l' tab' /\
    forall k, 0 <= k < 2 ^ 20 -> pte (k_mem s') tab' k = mapped (pte (k_mem s) tab) k0 (Z.of_nat n) pa perm k.
Proof.
  induction n as [|n IH]; intros s l tab k0 pa Hvm Hk0 Hkn Hpa Hpa0 Hpan Hperm Hfree HD Hroom.
  all: cbn [mappages_loop]; edestruct (mappages_round D s l pd tab k0 pa perm) as (s2 & l2 & tab2 & -> & X & Hc & Hr & Hp);
    [done|lia|done|lia|done|apply Hfree; lia|apply HD; lia|done|].
  - rewrite (proj2 (Z.eqb_eq _ _)) by lia. exists s2, l2, tab2. done.
  - rewrite (proj2 (Z.eqb_neq _ _)) by lia. unfold PGSIZE. rewrite !u32_small by lia.
    destruct (IH s2 l2 tab2 (k0 + 1) (pa + 4096)) as (s3 & l3 & tab3 & E3 & X3 & Hc3 & Hr3 & Hp3); try done; try lia.
    + apply X.
    + rewrite Z.add_mod, Hpa by lia. done.
    + intros k Hk. rewrite Hp by lia. unfold mapped. rewrite decide_False by lia. apply Hfree. lia.
    + intros k Hk. apply HD. lia.
    + exists s3, l3, tab3. split_and!.
      * replace (4096 * k0 + 4096) with (4096 * (k0 + 1)) by lia.
        by replace (4096 * (k0 + Z.of_nat (S n))) with (4096 * (k0 + 1 + Z.of_nat n)) by lia.
      * by apply (vmext_trans _ _ _ _ _ _ _ _ _ _ X X3).
      * lia.
      * done.
      * intros k Hk. rewrite Hp3 by done. unfold mapped. repeat case_decide; try lia.
        -- rewrite Hp by done. unfold mapped. rewrite decide_True by lia. lia.
        -- rewrite Hp by done. unfold mapped. by rewrite decide_False by lia.
Qed.

Lemma rounddown_page k r : 0 <= k < 2 ^ 20 -> 0 <= r < 4096 -> PGROUNDDOWN (4096 * k + r) = 4096 * k.
Proof.
  intros Hk Hr. rewrite PGROUNDDOWN_eq by lia. rewrite (Z.mul_comm 4096 k), Z.div_add_l, Z.div_small by lia. lia.
Qed.

(** [mappages] maps [n] pages, if they are not mapped already and memory for
    the tables is left. *)
Lemma mappages_fits D s l pd tab k0 n pa perm :
  vmem s l pd tab -> 0 <= k0 -> 1 <= n -> k0 + n <= 2 ^ 20 -> pa mod 4096 = 0 -> 0 <= pa -> pa + 4096 * n <= 2 ^ 32 ->
  0 <= perm < 4096 -> (forall k, k0 <= k < k0 + n -> present (pte (k_mem s) tab k) = false) ->
  (forall k, k0 <= k < k0 + n -> k / 1024 ∈ D) -> fits D l tab ->
  exists s' l' tab', mappages (P2V pd) (4096 * k0) (4096 * n) pa perm s = Ok 0 s' /\
    vmext s l pd tab s' l' tab' /\ (length l' + size tab' = length l + size tab)%nat /\ fits D l' tab' /\
    forall k, 0 <= k < 2 ^ 20 -> pte (k_mem s') tab' k = mapped (pte (k_mem s) tab) k0 (n - 1) pa perm k.
Proof.
  intros Hvm Hk0 Hn Hkn Hpa Hpa0 Hpan Hperm Hfree HD Hroom. unfold mappages.
  rewrite (u32_small (4096 * k0 + 4096 * n - 1)) by lia.
  replace (4096 * k0 + 4096 * n - 1) with (4096 * (k0 + (n - 1)) + 4095) by lia. rewrite (rounddown_page (k0 + (n - 1))) by lia.
  rewrite <- (Z.add_0_r (4096 * k0)), (rounddown_page k0 0) by lia.
  replace (4096 * (k0 + (n - 1)) - 4096 * k0) with ((n - 1) * 4096) by lia. rewrite u32_small by lia.
  change PGSIZE with 4096. rewrite Z.div_mul by lia.
  pose proof (mappages_loop_Ok D pd perm (Z.to_nat (n - 1)) s l tab k0 pa) as HL. rewrite Z2Nat.id in HL by lia.
  apply HL; try done; try lia; intros k Hk; [apply Hfree|apply HD]; lia.
Qed.

Lemma mappages_Ok s l pd tab k0 n pa perm :
  vmem s l pd tab -> 0 <= k0 -> 1 <= n -> k0 + n <= 2 ^ 20 -> pa mod 4096 = 0 -> 0 <= pa -> pa + 4096 * n <= 2 ^ 32 ->
  0 <= perm < 4096 -> (forall k, k0 <= k < k0 + n -> present (pte (k_mem s) tab k) = false) ->
  (1024 <= length l + size tab)%nat ->
  exists s' l' tab', mappages (P2V pd) (4096 * k0) (4096 * n) pa perm s = Ok 0 s' /\
    vmext s l pd tab s' l' tab' /\ (length l' + size tab' = length l + size tab)%nat /\
    forall k, 0 <= k < 2 ^ 20 -> pte (k_mem s') tab' k = mapped (pte (k_mem s) tab) k0 (n - 1) pa perm k.
Proof.
  intros Hvm ? ? ? ? ? ? ? Hfree Hroom. destruct (mappages_fits all_dirs s l pd tab k0 n pa perm) as (s' & l' & tab' & E & X & C & _ & P); try done.
  - intros k Hk. apply all_dirs_page. lia.
  - eapply fits_all; [apply Hvm|done].
  - by exists s', l', tab'.
Qed.

(** ** [setupkvm] *)

(** The kernel's data starts on a page boundary between its text and the end
    of memory (kernel.ld). *)
Definition link_ok (ln : linkmap) : Prop :=
  ln_data ln mod 4096 = 0 /\ KERNLINK < ln_data ln < KERNBASE + PHYSTOP.

(** The entries of the kernel's mapping: the rows of [kmap]. *)
Definition map_row (old : Z -> Z) (virt pstart pend perm : Z) : Z -> Z :=
  mapped old (virt / 4096) ((pend - pstart) / 4096 - 1) pstart perm.

Definition kernel_ptes (ln : linkmap) : Z -> Z :=
  map_row (map_row (map_row (map_row (fun _ => 0) KERNBASE 0 EXTMEM PTE_W)
    KERNLINK (V2P KERNLINK) (V2P (ln_data ln)) 0)
    (ln_data ln) (V2P (ln_data ln)) PHYSTOP PTE_W)
    DEVSPACE DEVSPACE (2 ^ 32) PTE_W.

Lemma map_row_Ok D s l pd tab f virt pstart pend perm :
  vmem s l pd tab -> virt mod 4096 = 0 -> pstart mod 4096 = 0 -> pend mod 4096 = 0 -> 0 <= virt -> 0 <= pstart ->
  pstart < pend <= 2 ^ 32 -> virt + (pend - pstart) <= 2 ^ 32 -> 0 <= perm < 4096 ->
  (forall k, 0 <= k < 2 ^ 20 -> pte (k_mem s) tab k = f k) ->
  (forall k, virt <= 4096 * k < virt + (pend - pstart) -> present (f k) = false) ->
  (forall k, virt <= 4096 * k < virt + (pend - pstart) -> k / 1024 ∈ D) -> fits D l tab ->
  exists s' l' tab', mappages (P2V pd) virt (pend - pstart) pstart perm s = Ok 0 s' /\
    vmext s l pd tab s' l' tab' /\ (length l' + size tab' = length l + size tab)%nat /\ fits D l' tab' /\
    forall k, 0 <= k < 2 ^ 20 -> pte (k_mem s') tab' k = map_row f virt pstart pend perm k.
Proof.
  intros Hvm Hv Hp1 Hp2 Hv0 Hp0 Hpe Hve Hperm Hpte Hfree HD Hroom.
  pose proof (Z.div_mod virt 4096 ltac:(lia)). pose proof (Z.div_mod pstart 4096 ltac:(lia)).
  pose proof (Z.div_mod pend 4096 ltac:(lia)).
  assert (pend - pstart = 4096 * ((pend - pstart) / 4096)) as En.
  { assert ((pend - pstart) / 4096 = pend / 4096 - pstart / 4096) as ->; [|lia]. symmetry. apply (Z.div_unique _ _ _ 0); lia. }
  destruct (mappages_fits D s l pd tab (virt / 4096) ((pend - pstart) / 4096) pstart perm) as (s' & l' & tab' & E & X & Hc & Hr & Hp);
    try done; try lia.
  { intros k Hk. rewrite Hpte by lia. apply Hfree. lia. }
  { intros k Hk. apply HD. lia. }
  exists s', l', tab'. split_and!; [|done|done|done|].
  - rewrite <- E. f_equal; lia.
  - intros k Hk. rewrite Hp by done. unfold map_row, mapped. case_decide; [done|]. by apply Hpte.
Qed.

Lemma map_row_out f virt pstart pend perm k : (pend - pstart) mod 4096 = 0 ->
  4096 * k + 4096 <= virt \/ virt + (pend - pstart) <= 4096 * k -> virt mod 4096 = 0 ->
  map_row f virt pstart pend perm k = f k.
Proof.
  intros H1 H2 H3. unfold map_row, mapped. pose proof (Z.div_mod virt 4096 ltac:(lia)).
  pose proof (Z.div_mod (pend - pstart) 4096 ltac:(lia)). rewrite decide_False; [done|lia].
Qed.

Ltac layout := unfold KERNLINK, EXTMEM, KERNBASE, PHYSTOP, DEVSPACE, PTE_W in *; lia.

(** A new, empty directory. *)
Lemma empty_dir s l v : kmem_ok s -> free_pages s (v :: l) ->
  exists s1, kalloc s = Ok v s1 /\ let s2 := set k_mem (fun m => memset m (V2P v) 0 PGSIZE) s1 in
    vmem s2 l (V2P v) ∅ /\ k_mem s2 = memset (k_mem s) (V2P v) 0 PGSIZE /\
    s2 ≡ₖ s <| k_mem := k_mem s2 |> <| k_freelist := k_freelist s2 |>.
Proof.
  intros Hkm Hf. destruct (kalloc_Ok s (v :: l) Hkm Hf) as (s1 & E & Ek & Hf1). simpl in *.
  destruct Hf as [_ Hnd Hfo]. apply NoDup_cons in Hnd as [Hnd _]. rewrite Forall_forall in Hfo.
  assert (page_ok s v) as Hv by (apply Hfo; by left). pose proof (page_ok_ppage s v Hv) as Hp.
  assert (k_mem s1 = k_mem s) as Em by (by rewrite Ek).
  assert (forall w, w ∈ l -> V2P w <> V2P v) as Hother.
  { intros w Hw E'. apply Hnd. rewrite <- (P2V_V2P s v Hv), <- E', (P2V_V2P s w); [done|]. apply Hfo. by right. }
  exists s1. split; [done|]. cbv zeta. set (m2 := memset (k_mem s) (V2P v) 0 PGSIZE).
  assert (set k_mem (fun m => memset m (V2P v) 0 PGSIZE) s1 = s1 <| k_mem := m2 |>) as -> by (unfold m2; rewrite <- Em; by destruct s1).
  rewrite ?Em. fold m2. split_and!; [split|done|].
  - apply kmem_ok_mem. rewrite Ek. apply (kmem_ok_neutral (fun s => s <| k_freelist := default 0 (head l) |>)); [by split|done..].
  - apply (free_pages_mem (eq (V2P v)) s1 l m2 Hf1); [rewrite Em; apply memset_only|by intros p <-; apply Hp|].
    intros w Hw E'. by apply (Hother w Hw).
  - split; [done|..].
    + intros k t. by rewrite lookup_empty.
    + intros k Hk _. simpl. unfold m2. by rewrite load32_zeroed.
    + intros k k' t. by rewrite lookup_empty.
  - intros w Hw [E'|[k E']]; [by apply (Hother w)|]. by rewrite lookup_empty in E'.
  - simpl. pose proof (keq_proj k_freelist _ _ ltac:(done) Ek) as El. simpl in El. rewrite El.
    rewrite (keq_neutral (fun s => s <| k_mem := m2 |>) ltac:(by split) _ _ Ek). by destruct s.
Qed.

Definition setup_row (pgdir : Z) : Z * Z * Z * Z -> KM (option unit) := fun '(virt, phys_start, phys_end, perm) =>
  (let* r := mappages pgdir virt (u32 (phys_end - phys_start)) phys_start perm in
   if r <? 0 then freevm pgdir ;; ret (Some tt) else ret None)%kern.

(** A row that does not overlap the mapping [f] so far. *)
Lemma setup_row_Ok D rows s l pd tab virt pstart pend pend' perm f :
  vmem s l pd tab -> (forall k, 0 <= k < 2 ^ 20 -> pte (k_mem s) tab k = f k) -> fits D l tab ->
  u32 (pend' - pstart) = pend - pstart -> virt mod 4096 = 0 -> pstart mod 4096 = 0 -> pend mod 4096 = 0 -> 0 <= virt ->
  0 <= pstart -> pstart < pend <= 2 ^ 32 -> virt + (pend - pstart) <= 2 ^ 32 -> 0 <= perm < 4096 ->
  (forall k, virt <= 4096 * k < virt + (pend - pstart) -> present (f k) = false) ->
  (forall k, virt <= 4096 * k < virt + (pend - pstart) -> k / 1024 ∈ D) ->
  exists s' l' tab', for_break ((virt, pstart, pend', perm) :: rows) (setup_row (P2V pd)) s = for_break rows (setup_row (P2V pd)) s' /\
    vmext s l pd tab s' l' tab' /\ (length l' + size tab' = length l + size tab)%nat /\ fits D l' tab' /\
    forall k, 0 <= k < 2 ^ 20 -> pte (k_mem s') tab' k = map_row f virt pstart pend perm k.
Proof.
  intros Hvm Hp Hroom Hu. intros. destruct (map_row_Ok D s l pd tab f virt pstart pend perm) as (s' & l' & tab' & E & X & C & R & P); try done.
  exists s', l', tab'. split_and!; [|done..]. cbn [for_break]. unfold setup_row at 1. rewrite Hu.
  unfold bind at 1 2. by rewrite E.
Qed.

(** The entries that the kernel's mapping uses: 224 megabytes of memory and 32
    of devices. *)
Definition kernel_dirs : gset Z := list_to_set (seqZ 512 56 ++ seqZ 1016 8).

Lemma size_kernel_dirs : size kernel_dirs = 64%nat.
Proof. vm_compute. reflexivity. Qed.
Lemma kernel_dirs_low k : 0x80000 <= k < 0x8e000 -> k / 1024 ∈ kernel_dirs.
Proof.
  intros Hk. apply elem_of_list_to_set, elem_of_app. left. apply elem_of_seqZ. split.
  - apply Z.div_le_lower_bound; lia.
  - apply Z.div_lt_upper_bound; lia.
Qed.
Lemma kernel_dirs_dev k : 0xfe000 <= k < 0x100000 -> k / 1024 ∈ kernel_dirs.
Proof.
  intros Hk. apply elem_of_list_to_set, elem_of_app. right. apply elem_of_seqZ. split.
  - apply Z.div_le_lower_bound; lia.
  - apply Z.div_lt_upper_bound; lia.
Qed.

Lemma setup_rows s l pd : vmem s l pd ∅ -> link_ok (k_link s) -> (64 <= length l)%nat ->
  exists s' l' tab, for_break (kmap (k_link s)) (setup_row (P2V pd)) s = Ok None s' /\
    vmext s l pd ∅ s' l' tab /\ (length l' + size tab = length l)%nat /\
    forall k, 0 <= k < 2 ^ 20 -> pte (k_mem s') tab k = kernel_ptes (k_link s) k.
Proof.
  intros Hvm [Hd1 Hd2] Hlen. assert (fits kernel_dirs l ∅) as Hroom by (split; [by rewrite dom_empty_L|rewrite size_kernel_dirs; lia]). set (ln := k_link s) in *. unfold KERNLINK, KERNBASE, PHYSTOP, EXTMEM in Hd2.
  assert (V2P (ln_data ln) = ln_data ln - KERNBASE) as EV by (apply V2P_kern; unfold KERNBASE; lia).
  assert ((ln_data ln - KERNBASE) mod 4096 = 0) as Hm by (unfold KERNBASE; rewrite Zminus_mod, Hd1; done).
  assert ((PHYSTOP - (ln_data ln - KERNBASE)) mod 4096 = 0) as Hm3 by (rewrite Zminus_mod, Hm; done).
  assert ((ln_data ln - KERNBASE - EXTMEM) mod 4096 = 0) as Hm2 by (rewrite Zminus_mod, Hm; done).
  change (V2P KERNLINK) with EXTMEM. unfold kernel_ptes. rewrite EV.
  unfold kmap. change (V2P KERNLINK) with EXTMEM. rewrite EV.
  edestruct (setup_row_Ok kernel_dirs [(KERNLINK, EXTMEM, ln_data ln - KERNBASE, 0); (ln_data ln, ln_data ln - KERNBASE, PHYSTOP, PTE_W);
      (DEVSPACE, DEVSPACE, 0, PTE_W)] s l pd ∅ KERNBASE 0 EXTMEM EXTMEM PTE_W (fun _ => 0))
    as (s1 & l1 & t1 & -> & X1 & C1 & R1 & P1); [done|done|exact Hroom|done..|layout|layout|layout|done|intros k Hk; apply kernel_dirs_low; layout|].
  edestruct (setup_row_Ok kernel_dirs [(ln_data ln, ln_data ln - KERNBASE, PHYSTOP, PTE_W); (DEVSPACE, DEVSPACE, 0, PTE_W)] s1 l1 pd t1)
    as (s2 & l2 & t2 & -> & X2 & C2 & R2 & P2);
    [apply X1|exact P1|exact R1|apply u32_small; layout|done|done|exact Hm|done|done|layout|layout|layout| |intros k Hk; apply kernel_dirs_low; layout|].
  { intros k Hk. rewrite map_row_out; [done|done|layout|done]. }
  edestruct (setup_row_Ok kernel_dirs [(DEVSPACE, DEVSPACE, 0, PTE_W)] s2 l2 pd t2)
    as (s3 & l3 & t3 & -> & X3 & C3 & R3 & P3);
    [apply X2|exact P2|exact R2|apply u32_small; layout|done|done|done|layout|layout|layout|layout|layout| |intros k Hk; apply kernel_dirs_low; layout|].
  { intros k Hk. rewrite !map_row_out; first [done|layout]. }
  edestruct (setup_row_Ok kernel_dirs [] s3 l3 pd t3 DEVSPACE DEVSPACE (2 ^ 32) 0 PTE_W)
    as (s4 & l4 & t4 & -> & X4 & C4 & R4 & P4); [apply X3|exact P3|exact R3|done..|layout|layout| |intros k Hk; apply kernel_dirs_dev; layout|].
  { intros k Hk. rewrite !map_row_out; first [done|layout]. }
  exists s4, l4, t4. split_and!; [done|by eauto using vmext_trans|rewrite map_size_empty in C1; lia|exact P4].
Qed.

Definition freed_pages (l : list Z) (p : Z) : Prop := exists v, v ∈ l /\ p = V2P v.

(** [setupkvm] builds the kernel's mapping in pages taken from the free list. *)
Lemma setupkvm_Ok s l : kmem_ok s -> free_pages s l -> link_ok (k_link s) -> (65 <= length l)%nat ->
  exists s' v l1 l' tab, l = v :: l1 /\ setupkvm s = Ok v s' /\ vmem s' l' (V2P v) tab /\
    (exists used, l1 = used ++ l') /\ (length l' + size tab + 1 = length l)%nat /\
    (forall t, owned (V2P v) tab t -> freed_pages l t) /\
    (forall k, 0 <= k < 2 ^ 20 -> pte (k_mem s') tab k = kernel_ptes (k_link s) k) /\
    only_pages (freed_pages l) (k_mem s) (k_mem s') /\
    s' ≡ₖ s <| k_mem := k_mem s' |> <| k_freelist := k_freelist s' |>.
Proof.
  intros Hkm Hf Hlink Hlen. destruct l as [|v l1]; [simpl in Hlen; lia|]. simpl in Hlen.
  pose proof (fp_ok _ _ Hf) as Hok. apply Forall_cons in Hok as [Hv _].
  destruct (empty_dir s l1 v Hkm Hf) as (s1 & E & Hvm & Em & Ek). cbv zeta in *.
  set (s2 := set k_mem (fun m => memset m (V2P v) 0 PGSIZE) s1) in *.
  assert (k_link s2 = k_link s) as El by (rewrite (keq_proj k_link _ _ ltac:(done) Ek); done).
  destruct (setup_rows s2 l1 (V2P v) Hvm) as (s' & l' & tab & E2 & X & C & P); [by rewrite El|lia|].
  exists s', v, l1, l', tab. split_and!; [done| |apply X|apply X|simpl; lia|..].
  - unfold setupkvm. rewrite (bind_Ok _ _ _ _ _ E).
    destruct (Z.eqb_spec v 0) as [E0|_]; [destruct Hv as (_ & Hv & _); unfold KERNBASE in Hv; lia|].
    unfold bind at 1, modify. cbn [obind]. fold s2. change (DEVSPACE <? P2V PHYSTOP) with false. cbv iota.
    unfold bind at 1, gets. cbn [obind]. rewrite (P2V_V2P s v Hv) in E2.
    change (for_break (kmap (k_link s2)) (setup_row v) s2 = Ok None s') in E2.
    unfold setup_row in E2. unfold bind at 1. by rewrite E2.
  - intros t [[->|[k Hk]]|(w & Hw & ->)]%(ve_new _ _ _ _ _ _ _ X).
    + exists v. split; [by left|done].
    + by rewrite lookup_empty in Hk.
    + exists w. split; [by right|done].
  - intros k Hk. rewrite P by done. by rewrite El.
  - apply (only_pages_trans _ _ (k_mem s2)).
    + rewrite Em. eapply only_pages_weaken; [|apply memset_only]. intros p <-. exists v. split; [by left|done].
    + eapply only_pages_weaken; [|apply X]. intros p [[->|[k Hk]]|(w & Hw & ->)];
        [exists v; split; [by left|done]|by rewrite lookup_empty in Hk|exists w; split; [by right|done]].
  - rewrite (ve_keq _ _ _ _ _ _ _ X) at 1. rewrite (keq_set_mem _ _ _ _ Ek). by destruct s.
Qed.

(** ** [copyuvm] *)

Lemma present_lor f : 0 <= f -> present f = true -> Z.lor f PTE_P = f.
Proof.
  unfold present, PTE_P. intros Hf Hp. apply Z.bits_inj'. intros i Hi. rewrite Z.lor_spec.
  destruct (Z.eq_dec i 0) as [->|Hne].
  - destruct (Z.testbit f 0) eqn:E; [done|]. destruct (Z.eqb_spec (Z.land f 1) 0) as [E1|E1]; [done|].
    destruct E1. apply Z.bits_inj'. intros j Hj. rewrite Z.land_spec, Z.bits_0.
    destruct (Z.eq_dec j 0) as [->|]; [by rewrite E|]. rewrite (Z.bits_above_log2 1 j), andb_false_r by (simpl; lia). done.
  - rewrite (Z.bits_above_log2 1 i), orb_false_r by (simpl; lia). done.
Qed.

(** Virtual page [k] is mapped to frame [f] with flags [fl]. *)
Definition maps_to (m : mem) (tab : gmap Z Z) (k f fl : Z) : Prop :=
  pte m tab k = f + fl /\ ppage f /\ 0 <= fl < 4096 /\ present fl = true.

(** The page tables and frames of an address space of [n] pages. *)
Record aspace (m : mem) (pd : Z) (tab : gmap Z Z) (n : Z) (frame flag : Z -> Z) : Prop := {
  as_tree : tree m pd tab;
  as_maps : forall k, 0 <= k < n -> maps_to m tab k (frame k) (flag k)
}.

Definition as_pages (pd : Z) (tab : gmap Z Z) (n : Z) (frame : Z -> Z) (p : Z) : Prop :=
  owned pd tab p \/ exists k, 0 <= k < n /\ p = frame k.

(** Memory in other pages may change. *)
Lemma aspace_mem P m m' pd tab n frame flag : aspace m pd tab n frame flag -> n <= 2 ^ 20 -> only_pages P m m' ->
  (forall p, P p -> p mod 4096 = 0 /\ ~ as_pages pd tab n frame p) ->
  aspace m' pd tab n frame flag /\ (forall k, 0 <= k < 2 ^ 20 -> pte m' tab k = pte m tab k) /\
  (forall k x, 0 <= k < n -> in_page (frame k) x -> load8 m' x = load8 m x).
Proof.
  intros [Htr Hm] Hn Ho HP.
  assert (forall t j, owned pd tab t -> 0 <= j < 1024 -> load32 m' (t + 4 * j) = load32 m (t + 4 * j)) as Hw.
  { intros t j Ht Hj. apply (only_pages_load32 P); [done|by apply (owned_page _ _ _ _ Htr)| |done].
    intros p Hp. destruct (HP p Hp) as [Hp1 Hp2]. split; [done|]. intros ->. apply Hp2. by left. }
  assert (forall k, 0 <= k < 2 ^ 20 -> pte m' tab k = pte m tab k) as Hpte.
  { intros k Hk. apply (pte_mem m m' pd tab k Htr); [|done]. intros t j [i Hi] Hj. apply Hw; [|done]. right. by exists i. }
  split_and!; [split|done|].
  - apply (tree_mem m); [|done]. intros k Hk. apply Hw; [by left|done].
  - intros k Hk. destruct (Hm k Hk) as (E & ?). split; [|done]. rewrite Hpte by lia. done.
  - intros k x Hk Hx. apply Ho. intros p Hp Hin. destruct (HP p Hp) as [Hp1 Hp2]. apply Hp2. right. exists k. split; [done|].
    destruct (Hm k Hk) as (_ & [Hf _] & _). by apply (in_page_unique p (frame k) x).
Qed.

(** What [copyuvm] has done after [i] pages: the frames [fs] hold copies. *)
Section copy.
Context (m0 : mem) (l0 : list Z) (pp : Z) (tabp : gmap Z Z) (n : Z) (frame flag : Z -> Z) (kern : Z -> Z).

Record copied (s : kstate) (l : list Z) (d : Z) (tab : gmap Z Z) (fs : list Z) : Prop := {
  cp_vm : vmem s l d tab;
  cp_parent : aspace (k_mem s) pp tabp n frame flag;
  cp_apart : forall p, as_pages pp tabp n frame p -> ~ mine l d tab p;
  cp_nodup : NoDup fs;
  cp_fs : forall f, f ∈ fs -> ppage f /\ freed_pages l0 f /\ ~ mine l d tab f;
  cp_own : forall f, mine l d tab f -> freed_pages l0 f;
  cp_pte : forall k, 0 <= k < 2 ^ 20 ->
    pte (k_mem s) tab k = match fs !! Z.to_nat k with Some f => f + flag k | None => kern k end;
  cp_copy : forall k f j, 0 <= k -> fs !! Z.to_nat k = Some f -> 0 <= j < 4096 -> load8 (k_mem s) (f + j) = load8 m0 (frame k + j);
  cp_same : forall k j, 0 <= k < n -> 0 <= j < 4096 -> load8 (k_mem s) (frame k + j) = load8 m0 (frame k + j)
}.

(** A free page is filled. *)
Lemma fill_page s l v d tab (g : mem -> mem) : vmem s (v :: l) d tab -> only_pages (eq (V2P v)) (k_mem s) (g (k_mem s)) ->
  exists s1, kalloc s = Ok v s1 /\ let s2 := set k_mem g s1 in
    vmem s2 l d tab /\ k_mem s2 = g (k_mem s) /\ ~ mine l d tab (V2P v) /\ page_ok s v /\
    s2 ≡ₖ s <| k_mem := k_mem s2 |> <| k_freelist := k_freelist s2 |>.
Proof.
  intros [Hkm Hf Htr Ha] Ho. destruct (kalloc_Ok s (v :: l) Hkm Hf) as (s1 & E & Ek & Hf1). simpl in E, Ek, Hf1.
  destruct Hf as [_ Hnd Hfo]. apply NoDup_cons in Hnd as [Hnd _]. rewrite Forall_forall in Hfo.
  assert (page_ok s v) as Hv by (apply Hfo; by left). pose proof (page_ok_ppage s v Hv) as Hp.
  assert (k_mem s1 = k_mem s) as Em by (by rewrite Ek). assert (~ owned d tab (V2P v)) as Hno by (apply Ha; by left).
  assert (forall w, w ∈ l -> V2P v <> V2P w) as Hother.
  { intros w Hw E'. apply Hnd. rewrite <- (P2V_V2P s v Hv), E', (P2V_V2P s w); [done|]. apply Hfo. by right. }
  exists s1. split; [done|]. cbv zeta. set (m2 := g (k_mem s)) in *.
  assert (set k_mem g s1 = s1 <| k_mem := m2 |>) as -> by (unfold m2; rewrite <- Em; by destruct s1).
  split_and!; [split|done| |done|].
  - apply kmem_ok_mem. rewrite Ek. apply (kmem_ok_neutral (fun s => s <| k_freelist := default 0 (head l) |>)); [by split|done..].
  - apply (free_pages_mem (eq (V2P v)) s1 l m2 Hf1); [by rewrite Em|by intros p <-; apply Hp|done].
  - simpl. apply (tree_mem (k_mem s)); [|done]. intros k Hk. apply (only_pages_load32 (eq (V2P v))); [done|apply Htr| |done].
    intros p <-. split; [apply Hp|]. intros E'. apply Hno. by left.
  - intros w Hw. apply Ha. by right.
  - intros [H|(w & Hw & E')]; [done|]. by apply (Hother w).
  - simpl. pose proof (keq_proj k_freelist _ _ ltac:(done) Ek) as El. simpl in El. rewrite El.
    rewrite (keq_neutral (fun s => s <| k_mem := m2 |>) ltac:(by split) _ _ Ek). by destruct s.
Qed.

Lemma memmove_only m t src : only_pages (eq t) m (memmove m t src (Z.to_nat PGSIZE)).
Proof.
  intros x Hx. specialize (Hx t eq_refl). unfold in_page in Hx. rewrite memmove_spec, Z2Nat.id by done.
  by rewrite decide_False by (unfold PGSIZE; lia).
Qed.

Lemma memmove_page m t src j : 0 <= j < 4096 -> load8 (memmove m t src (Z.to_nat PGSIZE)) (t + j) = load8 m (src + j).
Proof. intros Hj. rewrite memmove_spec, Z2Nat.id, decide_True by (unfold PGSIZE; lia). f_equal. lia. Qed.

(** A free page [v] was filled, and then tables were written. *)
Lemma page_added s l v d tab s2 s3 l3 tab3 m2 : vmem s (v :: l) d tab -> page_ok s v -> vmem s2 l d tab ->
  k_mem s2 = m2 -> only_pages (eq (V2P v)) (k_mem s) m2 -> ~ mine l d tab (V2P v) ->
  vmext s2 l d tab s3 l3 tab3 ->
  (forall p, mine l3 d tab3 p -> mine (v :: l) d tab p /\ p <> V2P v) /\
  only_pages (mine (v :: l) d tab) (k_mem s) (k_mem s3) /\
  (forall p j, ppage p -> ~ mine (v :: l) d tab p -> 0 <= j < 4096 -> load8 (k_mem s3) (p + j) = load8 (k_mem s) (p + j)) /\
  (forall i, 0 <= i < 2 ^ 20 -> pte (k_mem s2) tab i = pte (k_mem s) tab i) /\
  (forall j, 0 <= j < 4096 -> load8 (k_mem s3) (V2P v + j) = load8 m2 (V2P v + j)).
Proof.
  intros Hvm Hv Hvm2 Em Hg Hnv X. assert (forall p, mine l d tab p -> mine (v :: l) d tab p) as Hsub.
  { intros p [?|(w & ? & ->)]; [by left|]. right. exists w. split; [by right|done]. }
  assert (only_pages (mine (v :: l) d tab) (k_mem s) (k_mem s3)) as Honly.
  { apply (only_pages_trans _ _ (k_mem s2)); [|by eapply only_pages_weaken; [|apply X]].
    rewrite Em. eapply only_pages_weaken; [|exact Hg]. intros p <-. right. exists v. split; [by left|done]. }
  split_and!; [|done|..].
  - intros p Hp%(vmext_mine _ _ _ _ _ _ _ _ X). split; [by apply Hsub|by intros ->].
  - intros p j Hp Hnm Hj. apply (only_pages_byte _ _ _ _ _ Honly); [apply Hp| |done]. intros q Hq.
    split; [by apply (mine_page s _ _ _ _ Hvm)|by intros ->].
  - intros i Hi. apply (pte_mem _ _ d); [apply Hvm| |done]. intros t j [i' Hi'] Hj. rewrite Em.
    apply (only_pages_load32 (eq (V2P v))); [done|by apply (tr_in _ _ _ (vm_tree _ _ _ _ Hvm)) in Hi' as (_ & [? _] & _)| |done].
    intros p <-. split; [by apply (page_ok_ppage s)|]. intros <-. apply Hnv. left. right. by exists i'.
  - intros j Hj. rewrite <- Em. apply (only_pages_byte _ _ _ _ _ (ve_mem _ _ _ _ _ _ _ X)); [by apply (page_ok_ppage s)| |done].
    intros q Hq. split; [by apply (mine_page s2 _ _ _ _ Hvm2)|by intros ->].
Qed.

Hypothesis Hn : n <= 2 ^ 19.
Hypothesis Hkern : forall k, 0 <= k < 2 ^ 19 -> present (kern k) = false.

(** The new page [v], filled, becomes the frame of page [length fs]. *)
Lemma copied_page s l v d tab fs s2 s3 l3 tab3 :
  copied s (v :: l) d tab fs -> let k := Z.of_nat (length fs) in k < n -> page_ok s v ->
  vmem s2 l d tab -> k_mem s2 = memmove (k_mem s) (V2P v) (frame k) (Z.to_nat PGSIZE) -> ~ mine l d tab (V2P v) ->
  vmext s2 l d tab s3 l3 tab3 ->
  (forall i, 0 <= i < 2 ^ 20 -> pte (k_mem s3) tab3 i = mapped (pte (k_mem s2) tab) k 0 (V2P v) (flag k) i) ->
  copied s3 l3 d tab3 (fs ++ [V2P v]).
Proof.
  intros [Hvm Hpar Hap Hnd Hfs Hown Hpte Hcp Hsame] k Hk Hv Hvm2 Em Hnv X Hp3.
  assert (freed_pages l0 (V2P v)) as Hv0 by (apply Hown; right; exists v; split; [by left|done]).
  assert (mine (v :: l) d tab (V2P v)) as Hmv by (right; exists v; split; [by left|done]).
  destruct (page_added s l v d tab s2 s3 l3 tab3 _ Hvm Hv Hvm2 Em (memmove_only _ _ _) Hnv X) as (Hmine & Honly & Hold & Hp2 & Hnew).
  destruct (as_maps _ _ _ _ _ _ Hpar k ltac:(lia)) as (_ & _ & Hfl & Hpr).
  split.
  - apply X.
  - apply (aspace_mem (mine (v :: l) d tab) (k_mem s)); [done|lia|done|]. intros p Hp.
    split; [by apply (mine_page s _ _ _ _ Hvm)|]. intros Hp'. by apply (Hap p).
  - intros p Hp [Hm _]%Hmine. by apply (Hap p).
  - apply NoDup_app. split; [done|]. split; [|apply NoDup_singleton]. intros f Hf ->%list_elem_of_singleton.
    by apply (Hfs _ Hf).
  - intros f [Hf|Hf%list_elem_of_singleton]%elem_of_app.
    + destruct (Hfs f Hf) as (? & ? & Hnm). split_and!; [done|done|]. intros [Hm _]%Hmine. done.
    + subst f. split_and!; [by apply (page_ok_ppage s)|done|]. intros [_ Hm]%Hmine. done.
  - intros f [Hm _]%Hmine. by apply Hown.
  - intros i Hi. rewrite Hp3 by done. unfold mapped. case_decide as Hd.
    + assert (i = k) as -> by lia. rewrite lookup_app_r by lia. replace (Z.to_nat k - length fs)%nat with 0%nat by lia. simpl.
      rewrite present_lor by (done || lia). lia.
    + rewrite Hp2, Hpte by done. destruct (Z.lt_ge_cases i k); [by rewrite lookup_app_l by lia|].
      rewrite !(proj2 (lookup_ge_None _ _)); [done|rewrite length_app; simpl; lia|lia].
  - intros i f j Hi Hif Hj. apply lookup_app_Some in Hif as [Hif|[Hge Hif]].
    + rewrite <- (Hcp i f j Hi Hif Hj). apply list_elem_of_lookup_2 in Hif. destruct (Hfs f Hif) as (? & ? & ?). by apply Hold.
    + apply list_lookup_singleton_Some in Hif as [Hz <-]. assert (i = k) as -> by lia.
      rewrite <- (Hsame k j) by lia. rewrite Hnew by done. by apply memmove_page.
  - intros i j Hi Hj. rewrite <- (Hsame i j Hi Hj). destruct (as_maps _ _ _ _ _ _ Hpar i Hi) as (_ & Hpi & _).
    apply Hold; [done| |done]. apply Hap. right. by exists i.
Qed.

Lemma copy_round s l d tab fs sz fuel : copied s l d tab fs -> let k := Z.of_nat (length fs) in k < n -> 4096 * k < sz ->
  (1025 <= length l + size tab)%nat ->
  exists s' l' tab' f,
    copyuvm_loop (S fuel) (P2V pp) (P2V d) (4096 * k) sz s = copyuvm_loop fuel (P2V pp) (P2V d) (4096 * (k + 1)) sz s' /\
    copied s' l' d tab' (fs ++ [f]) /\ (length l' + size tab' + 1 = length l + size tab)%nat /\
    s' ≡ₖ s <| k_mem := k_mem s' |> <| k_freelist := k_freelist s' |>.
Proof.
  intros Hc k Hk Hsz Hroom. pose proof Hc as [Hvm Hpar Hap Hnd Hfs Hown Hpte Hcp Hsame].
  pose proof (tree_size_le _ _ _ (vm_tree _ _ _ _ Hvm)) as Hle. destruct l as [|v l]; [simpl in Hroom; lia|].
  assert (vmem s (v :: l) pp tabp) as Hvmp.
  { split; [apply Hvm|apply Hvm|apply Hpar|]. intros w Hw Ho. apply (Hap (V2P w)); [by left|]. right. by exists w. }
  destruct (as_maps _ _ _ _ _ _ Hpar k ltac:(lia)) as (Ee & [Hf1 Hf2] & Hfl & Hpr). unfold PHYSTOP in Hf2.
  destruct (tabp !! (k / 1024)) as [t|] eqn:Et.
  2: { unfold pte in Ee. rewrite Et in Ee. assert (flag k = 0) as E0 by lia. by rewrite E0 in Hpr. }
  destruct (tr_in _ _ _ (as_tree _ _ _ _ _ _ Hpar) _ _ Et) as (_ & [_ Ht] & _). unfold PHYSTOP in Ht.
  assert (0 <= k mod 1024 < 1024) as Hmod by (apply Z.mod_pos_bound; lia).
  destruct (fill_page s l v d tab (fun m => memmove m (V2P v) (frame k) (Z.to_nat PGSIZE)) Hvm) as (s1 & E1 & Hvm2 & Em & Hnm & Hv & Ek).
  { apply memmove_only. }
  cbv zeta in Hvm2, Em, Ek. set (s2 := set k_mem _ s1) in *.
  assert (pte (k_mem s2) tab k = kern k) as Hpk.
  { transitivity (pte (k_mem s) tab k); [|rewrite Hpte by lia; by rewrite (proj2 (lookup_ge_None _ _)) by lia].
    apply (pte_mem _ _ d); [apply Hvm| |lia]. intros u j [i Hi] Hj. rewrite Em.
    apply (only_pages_load32 (eq (V2P v))); [apply memmove_only|by apply (tr_in _ _ _ (vm_tree _ _ _ _ Hvm)) in Hi as (_ & [? _] & _)| |done].
    intros p <-. split; [by apply (page_ok_ppage s)|]. intros <-. apply Hnm. left. right. by exists i. }
  pose proof (page_ok_ppage s v Hv) as [Hp1 Hp2]. unfold PHYSTOP in Hp2.
  destruct (mappages_Ok s2 l d tab k 1 (V2P v) (flag k) Hvm2) as (s3 & l3 & tab3 & E3 & X & C & P3);
    [lia|lia|lia|done|lia|lia|done| |simpl in Hroom; lia|].
  { intros i Hi. assert (i = k) as -> by lia. rewrite Hpk. apply Hkern. lia. }
  exists s3, l3, tab3, (V2P v). split_and!.
  - cbn [copyuvm_loop]. rewrite (proj2 (Z.ltb_lt _ _) Hsz). cbn [negb].
    rewrite (bind_Ok _ _ _ _ _ (walk_found s (v :: l) pp tabp (4096 * k) Hvmp ltac:(lia) t false ltac:(by rewrite (Z.mul_comm 4096 k), Z.div_mul by lia))).
    rewrite (Z.mul_comm 4096 k), Z.div_mul, (Z.mul_comm k 4096) by lia.
    rewrite (proj2 (Z.eqb_neq (P2V (t + 4 * (k mod 1024))) 0)) by (rewrite P2V_page by (unfold PHYSTOP; lia); unfold KERNBASE; lia).
    rewrite (bind_Ok _ _ _ _ _ (kload32_Ok _ s _ (V2P_P2V (t + 4 * (k mod 1024)) ltac:(lia)))).
    assert (load32 (k_mem s) (t + 4 * (k mod 1024)) = frame k + flag k) as -> by (unfold pte in Ee; by rewrite Et in Ee).
    rewrite entry_present, entry_addr, entry_flags, Hpr by lia. cbn [negb]. rewrite (bind_Ok _ _ _ _ _ E1).
    destruct (Z.eqb_spec v 0) as [E0|_]; [destruct Hv as (_ & Hv & _); unfold KERNBASE in Hv; lia|].
    rewrite V2P_P2V by lia. unfold bind at 1, modify. cbn [obind]. fold s2. change PGSIZE with (4096 * 1) at 1.
    rewrite (bind_Ok _ _ _ _ _ E3). cbn [Z.ltb Z.compare]. rewrite u32_small by (unfold PGSIZE; lia).
    by replace (4096 * k + PGSIZE) with (4096 * (k + 1)) by (unfold PGSIZE; lia).
  - by apply (copied_page s l v d tab fs s2 s3 l3 tab3).
  - simpl in *. lia.
  - rewrite (ve_keq _ _ _ _ _ _ _ X) at 1. rewrite (keq_set_mem _ _ _ _ Ek). by destruct s.
Qed.

Lemma copyuvm_loop_Ok d sz fuel : forall s l tab fs, copied s l d tab fs -> 4096 * (n - 1) < sz <= 4096 * n ->
  (length fs <= Z.to_nat n)%nat -> (Z.to_nat n <= length fs + fuel)%nat -> (1024 + (Z.to_nat n - length fs) <= length l + size tab)%nat ->
  exists s' l' tab' fs', copyuvm_loop fuel (P2V pp) (P2V d) (4096 * Z.of_nat (length fs)) sz s = Ok (P2V d) s' /\
    copied s' l' d tab' fs' /\ length fs' = Z.to_nat n /\
    s' ≡ₖ s <| k_mem := k_mem s' |> <| k_freelist := k_freelist s' |>.
Proof.
  induction fuel as [|fuel IH]; intros s l tab fs Hc Hsz Hlen Hfuel Hroom.
  - exists s, l, tab, fs. split_and!; [|done|lia|by destruct s]. simpl. rewrite (proj2 (Z.ltb_ge _ _)) by lia. done.
  - destruct (Nat.eq_dec (length fs) (Z.to_nat n)) as [E|Hne].
    + exists s, l, tab, fs. split_and!; [|done|lia|by destruct s]. simpl. rewrite (proj2 (Z.ltb_ge _ _)) by lia. done.
    + destruct (copy_round s l d tab fs sz fuel Hc) as (s1 & l1 & tab1 & f & E1 & Hc1 & C & K); [lia|lia|lia|].
      destruct (IH s1 l1 tab1 (fs ++ [f]) Hc1 Hsz) as (s' & l' & tab' & fs' & E' & Hc' & Hl & K');
        [rewrite length_app; simpl; lia..|].
      exists s', l', tab', fs'. split_and!; [|done|done|].
      * rewrite E1, <- E'. rewrite length_app. simpl. do 2 f_equal. lia.
      * rewrite K' at 1. rewrite (keq_set_mem _ _ _ _ K). by destruct s.
Qed.
End copy.

(** ** Address spaces *)

Section aspace.
Context (m : mem) (pd : Z) (tab : gmap Z Z) (n : Z) (frame flag : Z -> Z).
Hypothesis Has : aspace m pd tab n frame flag.

Lemma vtop_aspace w va : n <= 2 ^ 19 -> 0 <= va < 4096 * n ->
  vtop m pd w va = if w && negb (writable (flag (va / 4096))) then None else Some (frame (va / 4096) + va mod 4096).
Proof.
  intros Hn Hva. rewrite (vtop_pte m pd tab w va (as_tree _ _ _ _ _ _ Has)) by lia. cbv zeta.
  assert (0 <= va / 4096 < n) as Hk by (split; [apply Z.div_pos; lia|apply Z.div_lt_upper_bound; lia]).
  destruct (as_maps _ _ _ _ _ _ Has _ Hk) as (-> & [Hf1 Hf2] & Hfl & Hpr). unfold PHYSTOP in Hf2.
  rewrite entry_present, entry_writable, entry_addr, Hpr by lia. done.
Qed.

Hypothesis Hrest : forall k, n <= k < 2 ^ 19 -> present (pte m tab k) = false.

Lemma vtop_beyond w va : 0 <= n -> 4096 * n <= va < KERNBASE -> vtop m pd w va = None.
Proof.
  unfold KERNBASE. intros Hn Hva. rewrite (vtop_pte m pd tab w va (as_tree _ _ _ _ _ _ Has)) by lia. cbv zeta.
  rewrite Hrest; [done|]. split; [apply Z.div_le_lower_bound; lia|apply Z.div_lt_upper_bound; lia].
Qed.

Lemma vtop_user w va pa : 0 <= n <= 2 ^ 19 -> uaddr va -> vtop m pd w va = Some pa ->
  0 <= va / 4096 < n /\ pa = frame (va / 4096) + va mod 4096.
Proof.
  unfold uaddr. intros Hn Hva Hv. destruct (Z.lt_ge_cases va (4096 * n)) as [Hlt|Hge].
  - rewrite vtop_aspace in Hv by lia. destruct (w && _); [done|]. injection Hv as <-.
    split; [|done]. split; [apply Z.div_pos; lia|apply Z.div_lt_upper_bound; lia].
  - by rewrite vtop_beyond in Hv by lia.
Qed.

(** Frames of its own make the address space one that block copies can rely
    on. *)
Lemma aspace_uspace : 0 <= n <= 2 ^ 19 -> (forall k, 0 <= k < n -> ~ owned pd tab (frame k)) ->
  (forall k k', 0 <= k < n -> 0 <= k' < n -> frame k = frame k' -> k = k') -> uspace m pd.
Proof.
  intros Hn Hown Hinj. pose proof (as_tree _ _ _ _ _ _ Has) as Htr.
  exists (fun x => exists p, owned pd tab p /\ in_page p x). split.
  - intros m' w va Hm Hva. unfold uaddr, KERNBASE in Hva.
    assert (forall t j, owned pd tab t -> 0 <= j < 1024 -> load32 m' (t + 4 * j) = load32 m (t + 4 * j)) as Hw.
    { intros t j Ht Hj. apply load32_outside. intros b Hb. apply Hm. exists t. split; [done|]. unfold in_page. lia. }
    assert (tree m' pd tab) as Htr' by (apply (tree_mem m); [|done]; intros k Hk; apply Hw; [by left|done]).
    rewrite !(vtop_pte _ pd tab) by (done || lia). cbv zeta. rewrite (pte_mem m m' pd tab) by first
      [done|intros t j [i Hi] Hj; apply Hw; [right; by exists i|done]|split; [apply Z.div_pos; lia|apply Z.div_lt_upper_bound; lia]].
    done.
  - intros va pa Hva Hv (p & Hp & Hin). destruct (vtop_user _ _ _ Hn Hva Hv) as [Hk ->].
    apply (Hown _ Hk). assert (frame (va / 4096) = p) as ->; [|done].
    destruct (as_maps _ _ _ _ _ _ Has _ Hk) as (_ & [Hf _] & _). pose proof (owned_page _ _ _ _ Htr Hp) as [Hp1 _].
    apply (in_page_unique _ _ (frame (va / 4096) + va mod 4096)); [done..| |done]. unfold in_page.
    pose proof (Z.mod_pos_bound va 4096 ltac:(lia)). lia.
  - intros va va' pa Hva Hva' Hv Hv'. destruct (vtop_user _ _ _ Hn Hva Hv) as [Hk ->], (vtop_user _ _ _ Hn Hva' Hv') as [Hk' E].
    pose proof (Z.mod_pos_bound va 4096 ltac:(lia)). pose proof (Z.mod_pos_bound va' 4096 ltac:(lia)).
    assert (frame (va / 4096) = frame (va' / 4096)) as Ef.
    { destruct (as_maps _ _ _ _ _ _ Has _ Hk) as (_ & [Hf _] & _). destruct (as_maps _ _ _ _ _ _ Has _ Hk') as (_ & [Hf' _] & _).
      apply (in_page_unique _ _ (frame (va / 4096) + va mod 4096)); [done..|unfold in_page; lia|]. rewrite E. unfold in_page. lia. }
    pose proof (Hinj _ _ Hk Hk' Ef). pose proof (Z.div_mod va 4096 ltac:(lia)). pose proof (Z.div_mod va' 4096 ltac:(lia)). lia.
Qed.
End aspace.

(** The addresses below [sz] of two directories: the same protection, the
    same bytes. *)
Definition same_image (m : mem) (pd : Z) (m' : mem) (pd' : Z) (n : Z) : Prop := forall va, 0 <= va < 4096 * n ->
  (forall w, is_Some (vtop m' pd' w va) <-> is_Some (vtop m pd w va)) /\ uget m' pd' va = uget m pd va.

Lemma same_image_frames m pd tab n frame flag m' pd' tab' frame' :
  aspace m pd tab n frame flag -> aspace m' pd' tab' n frame' flag -> n <= 2 ^ 19 ->
  (forall k j, 0 <= k < n -> 0 <= j < 4096 -> load8 m' (frame' k + j) = load8 m (frame k + j)) -> same_image m pd m' pd' n.
Proof.
  intros H H' Hn Hb va Hva. split.
  - intros w. rewrite (vtop_aspace _ _ _ _ _ _ H), (vtop_aspace _ _ _ _ _ _ H') by lia.
    destruct (w && _); split; intros [? ?]; by eexists.
  - unfold uget. rewrite (vtop_aspace _ _ _ _ _ _ H), (vtop_aspace _ _ _ _ _ _ H') by lia. simpl. apply Hb.
    + split; [apply Z.div_pos; lia|apply Z.div_lt_upper_bound; lia].
    + apply Z.mod_pos_bound. lia.
Qed.

Lemma same_image_trans m1 p1 m2 p2 m3 p3 n : same_image m1 p1 m2 p2 n -> same_image m2 p2 m3 p3 n -> same_image m1 p1 m3 p3 n.
Proof.
  intros H1 H2 va Hva. destruct (H1 va Hva) as [A1 B1], (H2 va Hva) as [A2 B2]. split; [|congruence].
  intros w. by rewrite A2, A1.
Qed.

(** The kernel's mapping leaves the user's half alone. *)
Lemma kernel_ptes_user ln k : link_ok ln -> 0 <= k < 2 ^ 19 -> kernel_ptes ln k = 0.
Proof.
  intros [Hd1 Hd2] Hk. unfold KERNLINK, EXTMEM, KERNBASE, PHYSTOP in Hd2.
  assert (V2P (ln_data ln) = ln_data ln - KERNBASE) as EV by (apply V2P_kern; unfold KERNBASE; lia).
  assert ((ln_data ln - KERNBASE) mod 4096 = 0) as Hm by (unfold KERNBASE; rewrite Zminus_mod, Hd1; done).
  unfold kernel_ptes. change (V2P KERNLINK) with EXTMEM. rewrite EV. rewrite !map_row_out; try first [done|layout].
  - rewrite Zminus_mod, Hm. done.
  - rewrite Zminus_mod, Hm. done.
Qed.

Lemma copied_start s l pp tabp n frame flag :
  kmem_ok s -> free_pages s l -> link_ok (k_link s) -> (1025 <= length l)%nat -> n <= 2 ^ 19 ->
  aspace (k_mem s) pp tabp n frame flag -> (forall p, as_pages pp tabp n frame p -> ~ freed_pages l p) ->
  exists s' v l' tab, setupkvm s = Ok v s' /\ page_ok s v /\ (length l' + size tab + 1 = length l)%nat /\
    copied (k_mem s) l pp tabp n frame flag (kernel_ptes (k_link s)) s' l' (V2P v) tab [] /\
    s' ≡ₖ s <| k_mem := k_mem s' |> <| k_freelist := k_freelist s' |>.
Proof.
  intros Hkm Hf Hl Hlen Hn Has Hap.
  destruct (setupkvm_Ok s l Hkm Hf Hl ltac:(lia)) as (s' & v & l1 & l' & tab & El & E & Hvm & [u Hu] & C & Hown & Hp & Ho & Ek).
  pose proof (fp_ok _ _ Hf) as Hok. rewrite Forall_forall in Hok.
  assert (forall p, freed_pages l p -> p mod 4096 = 0 /\ ~ as_pages pp tabp n frame p) as HP.
  { intros p Hfp. split; [|intros Hp'; by apply (Hap p)]. destruct Hfp as (w & Hw & ->). by apply (page_ok_ppage s), Hok. }
  destruct (aspace_mem _ _ _ _ _ _ _ _ Has ltac:(lia) Ho HP) as (Has' & _ & Hb).
  assert (forall p, mine l' (V2P v) tab p -> freed_pages l p) as Hm.
  { intros p [Hp'|(w & Hw & ->)]; [by apply Hown|]. exists w. split; [|done]. rewrite El, Hu. set_solver. }
  exists s', v, l', tab. split_and!; [done|apply Hok; rewrite El; by left|done| |done]. split; try done.
  - intros p Hp1 Hp2. by apply (Hap p Hp1), Hm.
  - constructor.
  - by intros f ?%elem_of_nil.
  - intros k j Hk Hj. apply (Hb k); [done|]. unfold in_page. lia.
Qed.

Lemma copyuvm_Ok s l pp tabp n frame flag sz :
  kmem_ok s -> free_pages s l -> link_ok (k_link s) -> 0 <= n <= 2 ^ 19 -> 4096 * (n - 1) < sz <= 4096 * n ->
  (1025 + Z.to_nat n <= length l)%nat -> aspace (k_mem s) pp tabp n frame flag ->
  (forall p, as_pages pp tabp n frame p -> ~ freed_pages l p) ->
  exists d s' tab frame', copyuvm (P2V pp) sz s = Ok d s' /\
    aspace (k_mem s') (V2P d) tab n frame' flag /\ same_image (k_mem s) pp (k_mem s') (V2P d) n /\
    (forall k, n <= k < 2 ^ 20 -> pte (k_mem s') tab k = kernel_ptes (k_link s) k) /\
    uspace (k_mem s') (V2P d) /\
    (forall k, 0 <= k < n -> ~ as_pages pp tabp n frame (frame' k)) /\
    aspace (k_mem s') pp tabp n frame flag /\ same_image (k_mem s) pp (k_mem s') pp n /\
    d <> 0 /\ s' ≡ₖ s <| k_mem := k_mem s' |> <| k_freelist := k_freelist s' |>.
Proof.
  intros Hkm Hf Hl Hn Hsz Hlen Has Hap.
  destruct (copied_start s l pp tabp n frame flag Hkm Hf Hl ltac:(lia) ltac:(lia) Has Hap) as (s1 & v & l1 & tab1 & E1 & Hv & C1 & Hc1 & K1).
  destruct (copyuvm_loop_Ok (k_mem s) l pp tabp n frame flag (kernel_ptes (k_link s)) ltac:(lia)
    ltac:(intros; by rewrite kernel_ptes_user) (V2P v) sz (S (Z.to_nat (sz / PGSIZE))) s1 l1 tab1 [] Hc1 Hsz)
    as (s2 & l2 & tab2 & fs & E2 & Hc2 & Hfs & K2); [simpl; lia| |simpl; lia|].
  { simpl. unfold PGSIZE. assert (n - 1 <= sz / 4096) by (apply Z.div_le_lower_bound; lia). lia. }
  destruct Hc2 as [Hvm Hpar Hap2 Hnd Hfr Hown Hpte Hcp Hsame].
  set (frame' := fun k => default 0 (fs !! Z.to_nat k)).
  assert (forall k, 0 <= k < n -> fs !! Z.to_nat k = Some (frame' k)) as Hfk.
  { intros k Hk. unfold frame'. destruct (fs !! Z.to_nat k) eqn:E; [done|]. apply lookup_ge_None in E. lia. }
  assert (aspace (k_mem s2) (V2P v) tab2 n frame' flag) as Has2.
  { split; [apply Hvm|]. intros k Hk. destruct (as_maps _ _ _ _ _ _ Has k Hk) as (_ & _ & ? & ?).
    split; [rewrite Hpte by lia; by rewrite Hfk|]. split; [|done]. apply (Hfr (frame' k)). by eapply list_elem_of_lookup_2, Hfk. }
  exists v, s2, tab2, frame'. split_and!.
  - unfold copyuvm. rewrite (bind_Ok _ _ _ _ _ E1).
    destruct (Z.eqb_spec v 0) as [E0|_]; [destruct Hv as (_ & Hv & _); unfold KERNBASE in Hv; lia|].
    simpl length in E2. rewrite (P2V_V2P s v Hv) in E2. exact E2.
  - done.
  - apply (same_image_frames _ _ tabp n frame flag _ _ tab2 frame'); [done|done|lia|]. intros k j Hk Hj. apply (Hcp k _ j); [lia|by apply Hfk|done].
  - intros k Hk. rewrite Hpte by lia. by rewrite (proj2 (lookup_ge_None _ _)) by lia.
  - apply (aspace_uspace _ _ tab2 n frame' flag Has2); [|lia| |].
    + intros k Hk. rewrite Hpte by lia. rewrite (proj2 (lookup_ge_None _ _)) by lia. by rewrite kernel_ptes_user by (done || lia).
    + intros k Hk Ho. apply (Hfr (frame' k)); [by eapply list_elem_of_lookup_2, Hfk|]. by left.
    + intros k k' Hk Hk' E. assert (Z.to_nat k = Z.to_nat k'); [|lia].
      apply (NoDup_lookup fs _ _ (frame' k)); [done|by apply Hfk|rewrite E; by apply Hfk].
  - intros k Hk Hp. apply (Hap _ Hp). apply (Hfr (frame' k)). by eapply list_elem_of_lookup_2, Hfk.
  - done.
  - apply (same_image_frames _ _ tabp n frame flag _ _ tabp frame); [done|done|lia|]. intros k j Hk Hj. by apply Hsame.
  - destruct Hv as (_ & Hv & _). unfold KERNBASE in Hv. lia.
  - rewrite K2 at 1. rewrite (keq_set_mem _ _ _ _ K1). by destruct s.
Qed.

(** C25: [copyuvm], the memory side of [fork]: with enough free pages it returns a
    new page directory in which every address of the parent has the same
    bytes and the same protection, no other user address is mapped, and the
    kernel is mapped as in every directory.  The frames are new ones, so a
    write of one process is never seen by the other, and the parent's
    address space is unchanged. *)
Theorem copyuvm_copies s l pp tabp n frame flag sz :
  kmem_ok s -> free_pages s l -> link_ok (k_link s) -> 0 <= n <= 2 ^ 19 -> 4096 * (n - 1) < sz <= 4096 * n ->
  (1025 + Z.to_nat n <= length l)%nat -> aspace (k_mem s) pp tabp n frame flag ->
  (forall p, as_pages pp tabp n frame p -> ~ freed_pages l p) ->
  exists d s' tab frame', copyuvm (P2V pp) sz s = Ok d s' /\
    aspace (k_mem s') (V2P d) tab n frame' flag /\ same_image (k_mem s) pp (k_mem s') (V2P d) n /\
    (forall k, n <= k < 2 ^ 20 -> pte (k_mem s') tab k = kernel_ptes (k_link s) k) /\
    uspace (k_mem s') (V2P d) /\
    (forall k, 0 <= k < n -> ~ as_pages pp tabp n frame (frame' k)) /\
    aspace (k_mem s') pp tabp n frame flag /\ same_image (k_mem s) pp (k_mem s') pp n.
Proof.
  intros H1 H2 H3 H4 H5 H6 H7 H8.
  destruct (copyuvm_Ok s l pp tabp n frame flag sz H1 H2 H3 H4 H5 H6 H7 H8) as (d & s' & tab & frame' & H).
  exists d, s', tab, frame'. tauto.
Qed.

(** ** A machine with free memory

    A process of one page (directory at 0x1000, table at 0x2000, frame at
    0x300000) and the 1100 pages from 4 MB on in the free list. *)

Fixpoint linked (m : mem) (ps : list Z) : mem :=
  match ps with
  | [] => m
  | v :: ps => store32 (linked m ps) (V2P v) (default 0 (head ps))
  end.

Lemma linked_chain s m ps : Forall (page_ok s) ps -> NoDup ps ->
  chain (linked m ps) (default 0 (head ps)) ps /\ only_pages (freed_pages ps) m (linked m ps).
Proof.
  induction ps as [|v ps IH]; intros Hok Hnd; [by split|].
  apply Forall_cons in Hok as [Hv Hok]. apply NoDup_cons in Hnd as [Hnv Hnd]. destruct (IH Hok Hnd) as [Hc Ho].
  assert (only_pages (eq (V2P v)) (linked m ps) (linked m (v :: ps))) as Hs.
  { cbn [linked]. rewrite <- (Z.add_0_r (V2P v)) at 2. apply (store_only _ (V2P v) 0). lia. }
  rewrite Forall_forall in Hok. split.
  - cbn [chain head default]. split; [done|]. cbn [linked]. rewrite load32_store32, u32_small.
    + eapply chain_ext; [|exact Hc]. intros w Hw. rewrite <- (Z.add_0_r (V2P w)). symmetry.
      apply (only_pages_load32 (eq (V2P v)) _ _ (V2P w) 0); [done|by apply (page_ok_ppage s), Hok| |lia]. intros p <-.
      split; [by apply (page_ok_ppage s)|]. intros E. apply Hnv.
      rewrite <- (P2V_V2P s v Hv), E, (P2V_V2P s w); [done|by apply Hok].
    + destruct ps as [|w ps]; [simpl; lia|]. simpl. destruct (Hok w ltac:(by left)) as (_ & ? & _ & ?). unfold KERNBASE, PHYSTOP in *. lia.
  - apply (only_pages_trans _ _ (linked m ps)); (eapply only_pages_weaken; [|done]).
    + intros p (w & Hw & ->). exists w. split; [by right|done].
    + intros p <-. exists v. split; [by left|done].
Qed.

Definition vm_pages : list Z := pages_upto 0x80400000 (0x80400000 + 1100 * 4096).
Definition vm_mem : mem := store32 (store32 ∅ 0x1000 0x2007) 0x2000 0x300007.
Definition vm_state : kstate := boot_state <| k_mem := linked vm_mem vm_pages |> <| k_freelist := default 0 (head vm_pages) |>.

Lemma vm_pages_in v : v ∈ vm_pages -> exists i, 0 <= i < 1100 /\ v = 0x80400000 + i * 4096.
Proof. intros (i & Hi & ->)%elem_of_pages_upto. exists i. split; [|done].
  unfold PGSIZE in Hi. rewrite Z.add_simpl_l, Z.div_mul in Hi by lia. done.
Qed.

Lemma vm_pages_ok : Forall (page_ok vm_state) vm_pages.
Proof.
  apply Forall_forall. intros v (i & Hi & ->)%vm_pages_in. unfold page_ok, PGSIZE, KERNBASE, PHYSTOP.
  split_and!; [|lia|change (ln_end (k_link vm_state)) with 0x80200000; lia|lia].
  rewrite <- (Z.mul_comm 4096). by rewrite Z.add_mod, (Z.mul_comm 4096), Z.mod_mul by lia.
Qed.

Lemma vm_free_pages : free_pages vm_state vm_pages.
Proof.
  split; [|apply NoDup_pages_upto|apply vm_pages_ok]. apply (linked_chain vm_state); [apply vm_pages_ok|apply NoDup_pages_upto].
Qed.

Lemma vm_length : length vm_pages = Z.to_nat 1100.
Proof. unfold vm_pages, pages_upto. rewrite length_map, length_seqZ. done. Qed.

Definition vm_tab : gmap Z Z := {[0 := 0x2000]}.

Lemma vm_apart_pages p : as_pages 0x1000 vm_tab 1 (fun _ => 0x300000) p -> ~ freed_pages vm_pages p.
Proof.
  intros Hp (v & (i & Hi & ->)%vm_pages_in & E). rewrite V2P_kern in E by (unfold KERNBASE; lia). unfold KERNBASE in E.
  destruct Hp as [[->|[k Hk]]|(k & _ & ->)]; [lia| |lia]. unfold vm_tab in Hk. apply lookup_singleton_Some in Hk as [_ <-]. lia.
Qed.

Lemma vm_aspace : aspace (k_mem vm_state) 0x1000 vm_tab 1 (fun _ => 0x300000) (fun _ => UFLAGS) /\
  forall k, 1 <= k < 2 ^ 19 -> present (pte (k_mem vm_state) vm_tab k) = false.
Proof.
  destruct (linked_chain vm_state vm_mem vm_pages vm_pages_ok (NoDup_pages_upto _ _)) as [_ Ho].
  assert (aspace vm_mem 0x1000 vm_tab 1 (fun _ => 0x300000) (fun _ => UFLAGS)) as Has.
  { unfold vm_tab. split; [split|].
    - by split.
    - intros k t [<- <-]%lookup_singleton_Some. split_and!; try done.
    - intros k Hk Hn. apply lookup_singleton_None in Hn. unfold vm_mem. rewrite !load32_store32_ne by lia. by rewrite load32_empty.
    - intros k k' t [<- <-]%lookup_singleton_Some [<- _]%lookup_singleton_Some. done.
    - intros k Hk. assert (k = 0) as -> by lia. repeat split; by vm_compute. }
  destruct (aspace_mem _ _ _ _ _ _ _ _ Has ltac:(lia) Ho) as (Has' & Hp & _).
  { intros p Hp. split; [|intros Hp'; by apply (vm_apart_pages p)]. destruct Hp as (v & Hv & ->).
    pose proof vm_pages_ok as Hok. rewrite Forall_forall in Hok. by apply (page_ok_ppage vm_state), Hok. }
  split; [done|]. intros k Hk. change (k_mem vm_state) with (linked vm_mem vm_pages). rewrite Hp by lia. unfold pte, vm_tab.
  destruct (Z.eq_dec (k / 1024) 0) as [E|E]; [|by rewrite lookup_singleton_ne].
  rewrite E, lookup_singleton_eq. unfold vm_mem.
  pose proof (Z.div_mod k 1024 ltac:(lia)). rewrite !load32_store32_ne by lia. by rewrite load32_empty.
Qed.

Lemma copyuvm_copies_witness : exists d s' tab frame', copyuvm (P2V 0x1000) 100 vm_state = Ok d s' /\
  aspace (k_mem s') (V2P d) tab 1 frame' (fun _ => UFLAGS) /\ same_image (k_mem vm_state) 0x1000 (k_mem s') (V2P d) 1 /\
  (forall k, 1 <= k < 2 ^ 20 -> pte (k_mem s') tab k = kernel_ptes (k_link vm_state) k) /\
  uspace (k_mem s') (V2P d) /\
  (forall k, 0 <= k < 1 -> ~ as_pages 0x1000 vm_tab 1 (fun _ => 0x300000) (frame' k)) /\
  aspace (k_mem s') 0x1000 vm_tab 1 (fun _ => 0x300000) (fun _ => UFLAGS) /\ same_image (k_mem vm_state) 0x1000 (k_mem s') 0x1000 1.
Proof.
  apply (copyuvm_copies vm_state vm_pages).
  - exists 0%nat, (MkCpu 0 1 0 0 None true 0 0). by left.
  - apply vm_free_pages.
  - by split.
  - lia.
  - lia.
  - rewrite vm_length. lia.
  - apply vm_aspace.
  - apply vm_apart_pages.
Defined.
