(* ===== verification/Aspace.v ===== *)
(** * Growing and shrinking an address space (vm.c)

    [uproc]: the memory of a process of [n] pages, whose frames are its own.
    [allocuvm] extends it with zeroed pages and [deallocuvm] gives the pages
    of its end back to the page allocator. *)

From stdpp Require Import base functions numbers list list_numbers gmap strings.
From S2P Require Import Prelude Kmonad Params Kstate Spinlock KString Kalloc Cprintf Vm Umem Pgtab.

Local Open Scope Z_scope.

Record uproc (s : kstate) (l : list Z) (pd : Z) (tab : gmap Z Z) (n : Z) (frame flag : Z -> Z) : Prop := {
  ur_vm : vmem s l pd tab;
  ur_as : aspace (k_mem s) pd tab n frame flag;
  ur_rest : forall k, n <= k < 2 ^ 19 -> present (pte (k_mem s) tab k) = false;
  ur_own : forall k, 0 <= k < n -> ~ mine l pd tab (frame k);
  ur_page : forall k, 0 <= k < n -> page_ok s (P2V (frame k));
  ur_inj : forall k k', 0 <= k < n -> 0 <= k' < n -> frame k = frame k' -> k = k'
}.

Lemma uproc_uspace s l pd tab n frame flag : uproc s l pd tab n frame flag -> 0 <= n <= 2 ^ 19 -> uspace (k_mem s) pd.
Proof.
  intros H Hn. apply (aspace_uspace _ _ tab n frame flag (ur_as _ _ _ _ _ _ _ H) (ur_rest _ _ _ _ _ _ _ H) Hn).
  - intros k Hk Ho. apply (ur_own _ _ _ _ _ _ _ H k Hk). by left.
  - apply H.
Qed.

(** Pages [k < n] have the same frames and bytes. *)
Definition kept_pages (s : kstate) (frame flag : Z -> Z) (n : Z) (s' : kstate) (frame' flag' : Z -> Z) : Prop :=
  forall k, 0 <= k < n -> frame' k = frame k /\ flag' k = flag k /\
    forall j, 0 <= j < 4096 -> load8 (k_mem s') (frame k + j) = load8 (k_mem s) (frame k + j).

(** A zeroed page [v] is mapped at the end. *)
Lemma uproc_add s l v pd tab n frame flag s2 s3 l3 tab3 :
  uproc s (v :: l) pd tab n frame flag -> 0 <= n < 2 ^ 19 -> page_ok s v ->
  vmem s2 l pd tab -> k_mem s2 = memset (k_mem s) (V2P v) 0 PGSIZE -> ~ mine l pd tab (V2P v) -> k_link s3 = k_link s ->
  vmext s2 l pd tab s3 l3 tab3 ->
  (forall i, 0 <= i < 2 ^ 20 -> pte (k_mem s3) tab3 i = mapped (pte (k_mem s2) tab) n 0 (V2P v) (Z.lor PTE_W PTE_U) i) ->
  let frame' := <[n := V2P v]> frame in let flag' := <[n := UFLAGS]> flag in
  uproc s3 l3 pd tab3 (n + 1) frame' flag' /\ kept_pages s frame flag n s3 frame' flag' /\
  forall j, 0 <= j < 4096 -> load8 (k_mem s3) (V2P v + j) = 0.
Proof.
  intros [Hvm Has Hrest Hown Hpage Hinj] Hn Hv Hvm2 Em Hnv Hln X Hp3 frame' flag'.
  assert (mine (v :: l) pd tab (V2P v)) as Hmv by (right; exists v; split; [by left|done]).
  destruct (page_added s l v pd tab s2 s3 l3 tab3 _ Hvm Hv Hvm2 Em (memset_only _ _ _) Hnv X) as (Hmine & Honly & Hold & Hp2 & Hnew).
  assert (forall k, 0 <= k < n -> frame' k = frame k /\ flag' k = flag k) as Hlow.
  { intros k Hk. unfold frame', flag'. by rewrite !fn_lookup_insert_ne by lia. }
  assert (frame' n = V2P v /\ flag' n = UFLAGS) as [Efn Egn] by (unfold frame', flag'; by rewrite !fn_lookup_insert).
  assert (forall k, 0 <= k < n + 1 -> k = n \/ 0 <= k < n) as Hcase by (intros; lia).
  assert (forall k, 0 <= k < n -> frame k <> V2P v) as Hne by (intros k Hk E; apply (Hown k Hk); by rewrite E).
  split_and!; [split| |].
  - apply X.
  - split; [apply X|]. intros k Hk. unfold maps_to. rewrite Hp3 by lia. destruct (Hcase k Hk) as [->|Hk'].
    + unfold mapped. rewrite decide_True by lia. rewrite Efn, Egn. split_and!; [unfold UFLAGS; lia|by apply (page_ok_ppage s)|done..].
    + destruct (Hlow k Hk') as [-> ->]. unfold mapped. rewrite decide_False, Hp2 by lia. by apply (as_maps _ _ _ _ _ _ Has).
  - intros k Hk. rewrite Hp3 by lia. unfold mapped. rewrite decide_False, Hp2 by lia. apply Hrest. lia.
  - intros k Hk [Hm Hm']%Hmine. destruct (Hcase k Hk) as [->|Hk']; [by rewrite Efn in Hm'|].
    destruct (Hlow k Hk') as [E _]. rewrite E in Hm. by apply (Hown k).
  - intros k Hk. destruct (Hcase k Hk) as [->|Hk']; [rewrite Efn, (P2V_V2P s v Hv)|rewrite (proj1 (Hlow k Hk'))];
      unfold page_ok; rewrite Hln; [done|by apply Hpage].
  - intros k k' Hk Hk'. destruct (Hcase k Hk) as [->|Hk1], (Hcase k' Hk') as [->|Hk1']; [done|..].
    + rewrite Efn, (proj1 (Hlow k' Hk1')). intros E. by destruct (Hne k' Hk1').
    + rewrite Efn, (proj1 (Hlow k Hk1)). intros E. by destruct (Hne k Hk1).
    + rewrite (proj1 (Hlow k Hk1)), (proj1 (Hlow k' Hk1')). by apply Hinj.
  - intros k Hk. destruct (Hlow k Hk) as [-> ->]. split_and!; [done..|]. intros j Hj. apply Hold; [|by apply Hown|done].
    by apply (as_maps _ _ _ _ _ _ Has).
  - intros j Hj. rewrite Hnew by done. rewrite memset_spec by done. by rewrite decide_True by (unfold PGSIZE; lia).
Qed.

(** ** [allocuvm] *)

Lemma alloc_round s l pd tab n frame flag oldsz newsz fuel :
  uproc s l pd tab n frame flag -> 0 <= n < 2 ^ 19 -> 4096 * n < newsz -> (1025 <= length l + size tab)%nat ->
  exists s' l' tab' v,
    allocuvm_loop (S fuel) (P2V pd) (4096 * n) oldsz newsz s = allocuvm_loop fuel (P2V pd) (4096 * (n + 1)) oldsz newsz s' /\
    (length l' + size tab' + 1 = length l + size tab)%nat /\
    s' ≡ₖ s <| k_mem := k_mem s' |> <| k_freelist := k_freelist s' |> /\
    let frame' := <[n := v]> frame in let flag' := <[n := UFLAGS]> flag in
    uproc s' l' pd tab' (n + 1) frame' flag' /\ kept_pages s frame flag n s' frame' flag' /\
    forall j, 0 <= j < 4096 -> load8 (k_mem s') (v + j) = 0.
Proof.
  intros Hu Hn Hsz Hroom. pose proof (ur_vm _ _ _ _ _ _ _ Hu) as Hvm.
  pose proof (tree_size_le _ _ _ (vm_tree _ _ _ _ Hvm)) as Hle. destruct l as [|v l]; [simpl in Hroom; lia|].
  destruct (fill_page s l v pd tab (fun m => memset m (V2P v) 0 PGSIZE) Hvm (memset_only _ _ _)) as (s1 & E1 & Hvm2 & Em & Hnm & Hv & Ek).
  cbv zeta in Hvm2, Em, Ek. set (s2 := set k_mem _ s1) in *. pose proof (page_ok_ppage s v Hv) as [Hp1 Hp2]. unfold PHYSTOP in Hp2.
  assert (pte (k_mem s2) tab n = pte (k_mem s) tab n) as Hpk.
  { by apply (page_added s l v pd tab s2 s2 l tab _ Hvm Hv Hvm2 Em (memset_only _ _ _) Hnm (vmext_refl _ _ _ _ Hvm2)); lia. }
  destruct (mappages_Ok s2 l pd tab n 1 (V2P v) (Z.lor PTE_W PTE_U) Hvm2) as (s3 & l3 & tab3 & E3 & X & C & P3);
    [lia|lia|lia|done|lia|lia|done| |simpl in Hroom; lia|].
  { intros i Hi. assert (i = n) as -> by lia. rewrite Hpk. apply (ur_rest _ _ _ _ _ _ _ Hu). lia. }
  assert (s3 ≡ₖ s <| k_mem := k_mem s3 |> <| k_freelist := k_freelist s3 |>) as K.
  { rewrite (ve_keq _ _ _ _ _ _ _ X) at 1. rewrite (keq_set_mem _ _ _ _ Ek). by destruct s. }
  exists s3, l3, tab3, (V2P v). split_and!.
  - cbn [allocuvm_loop]. rewrite (proj2 (Z.ltb_lt _ _) Hsz). cbn [negb]. rewrite (bind_Ok _ _ _ _ _ E1).
    destruct (Z.eqb_spec v 0) as [E0|_]; [destruct Hv as (_ & Hv & _); unfold KERNBASE in Hv; lia|].
    unfold bind at 1, modify. cbn [obind]. fold s2. change PGSIZE with (4096 * 1) at 1.
    rewrite (bind_Ok _ _ _ _ _ E3). cbn [Z.ltb Z.compare]. rewrite u32_small by (unfold PGSIZE; lia).
    by replace (4096 * n + PGSIZE) with (4096 * (n + 1)) by (unfold PGSIZE; lia).
  - simpl in *. lia.
  - done.
  - apply (uproc_add s l v pd tab n frame flag s2 s3 l3 tab3); try done. by rewrite (keq_proj k_link _ _ ltac:(done) K).
Qed.

Lemma allocuvm_loop_Ok pd oldsz newsz fuel : forall s l tab n n' frame flag,
  uproc s l pd tab n frame flag -> 0 <= n <= n' -> n' <= 2 ^ 19 -> (n < n' -> 4096 * (n' - 1) < newsz) -> newsz <= 4096 * n' ->
  (Z.to_nat (n' - n) <= fuel)%nat -> (1024 + Z.to_nat (n' - n) <= length l + size tab)%nat ->
  exists s' l' tab' frame' flag', allocuvm_loop fuel (P2V pd) (4096 * n) oldsz newsz s = Ok newsz s' /\
    uproc s' l' pd tab' n' frame' flag' /\ kept_pages s frame flag n s' frame' flag' /\
    (forall k j, n <= k < n' -> 0 <= j < 4096 -> flag' k = UFLAGS /\ load8 (k_mem s') (frame' k + j) = 0) /\
    (length l' + size tab' + Z.to_nat (n' - n) = length l + size tab)%nat.
Proof.
  induction fuel as [|fuel IH]; intros s l tab n n' frame flag Hu Hn Hn' Hlo Hhi Hfuel Hroom.
  1: assert (n = n') as <- by lia.
  2: destruct (Z.eq_dec n n') as [<-|Hne].
  1-2: exists s, l, tab, frame, flag; split_and!; [simpl; by rewrite (proj2 (Z.ltb_ge _ _)) by lia|done|done|intros; lia|lia].
  destruct (alloc_round s l pd tab n frame flag oldsz newsz fuel Hu) as (s1 & l1 & tab1 & v & E1 & C1 & K1 & Hu1 & Hk1 & Hz1); [lia..|].
  destruct (IH s1 l1 tab1 (n + 1) n' _ _ Hu1) as (s2 & l2 & tab2 & frame2 & flag2 & E2 & Hu2 & Hk2 & Hz2 & C2); [lia..|].
  exists s2, l2, tab2, frame2, flag2. split_and!; [by rewrite E1|done| | |lia].
  - intros k Hk. destruct (Hk1 k Hk) as (F1 & G1 & B1), (Hk2 k ltac:(lia)) as (F2 & G2 & B2).
    rewrite F1, G1 in *. split_and!; [done..|]. intros j Hj. by rewrite B2, B1.
  - intros k j Hk Hj. destruct (Z.eq_dec k n) as [->|Hkn]; [|apply Hz2; lia].
    destruct (Hk2 n ltac:(lia)) as (F2 & G2 & B2). rewrite fn_lookup_insert in F2, G2, B2. rewrite F2, G2.
    split; [done|]. by rewrite B2, Hz1.
Qed.

Lemma roundup_pages sz n : 0 <= sz -> 4096 * (n - 1) < sz <= 4096 * n -> 0 <= n <= 2 ^ 19 -> PGROUNDUP sz = 4096 * n.
Proof.
  intros Hs0 Hsz Hn. rewrite PGROUNDUP_eq by lia.
  rewrite <- (Z.div_unique (sz + 4095) 4096 n (sz + 4095 - 4096 * n)); lia.
Qed.

(** C26: [allocuvm] (growing a process: [sbrk], [exec]): with enough free pages it
    returns the new size; the process then has the pages of the new size,
    the old ones as they were, the new ones zeroed, writable and of its own. *)
Theorem allocuvm_grows s l pd tab n n' frame flag oldsz newsz :
  uproc s l pd tab n frame flag -> 0 <= n <= n' -> n' <= 2 ^ 19 -> 4096 * (n - 1) < oldsz <= 4096 * n ->
  4096 * (n' - 1) < newsz <= 4096 * n' -> 0 <= oldsz <= newsz -> newsz < KERNBASE ->
  (1024 + Z.to_nat (n' - n) <= length l + size tab)%nat ->
  exists s' l' tab' frame' flag', allocuvm (P2V pd) oldsz newsz s = Ok newsz s' /\
    uproc s' l' pd tab' n' frame' flag' /\ uspace (k_mem s') pd /\ kept_pages s frame flag n s' frame' flag' /\
    (forall va, 4096 * n <= va < 4096 * n' -> is_Some (vtop (k_mem s') pd true va) /\ uget (k_mem s') pd va = 0).
Proof.
  intros Hu Hn Hn' Ho Hw Hle Hk Hroom. unfold allocuvm.
  rewrite (proj2 (Z.leb_gt _ _)) by done. rewrite (proj2 (Z.ltb_ge _ _)) by lia. rewrite (roundup_pages oldsz n) by lia.
  destruct (allocuvm_loop_Ok pd oldsz newsz (S (Z.to_nat (newsz / PGSIZE))) s l tab n n' frame flag Hu)
    as (s' & l' & tab' & frame' & flag' & E & Hu' & Hkept & Hz & C); try lia.
  { unfold PGSIZE. assert (n' - 1 <= newsz / 4096) by (apply Z.div_le_lower_bound; lia). lia. }
  exists s', l', tab', frame', flag'. split_and!; [done|done|apply (uproc_uspace _ _ _ _ _ _ _ Hu'); lia|done|].
  intros va Hva. pose proof (ur_as _ _ _ _ _ _ _ Hu') as Has. unfold uget.
  assert (n <= va / 4096 < n') as Hq by (split; [apply Z.div_le_lower_bound; lia|apply Z.div_lt_upper_bound; lia]).
  destruct (Hz (va / 4096) (va mod 4096) Hq (Z.mod_pos_bound va 4096 ltac:(lia))) as [Ef Ez].
  rewrite !(vtop_aspace _ _ _ _ _ _ Has) by lia. rewrite Ef. simpl. split; [by eexists|done].
Qed.

(** ** [deallocuvm] *)

Section dealloc.
Context (pd : Z) (tab : gmap Z Z) (n0 n : Z) (frame flag : Z -> Z) (s0 : kstate).
Hypothesis Hn0 : 0 <= n0 <= n.
Hypothesis Hn : n <= 2 ^ 19.

(** The pages [n0], ..., [i - 1] are free. *)
Record shrunk (s : kstate) (l : list Z) (i : Z) : Prop := {
  sh_vm : vmem s l pd tab;
  sh_pte : forall k, 0 <= k < 2 ^ 20 -> pte (k_mem s) tab k = if decide (n0 <= k < i) then 0 else pte (k_mem s0) tab k;
  sh_own : forall k, 0 <= k < n -> ~ n0 <= k < i -> ~ mine l pd tab (frame k);
  sh_link : k_link s = k_link s0;
  sh_kept : kept_pages s0 frame flag n0 s frame flag
}.

Hypothesis Has : aspace (k_mem s0) pd tab n frame flag.
Hypothesis Hpage : forall k, 0 <= k < n -> page_ok s0 (P2V (frame k)).
Hypothesis Hinj : forall k k', 0 <= k < n -> 0 <= k' < n -> frame k = frame k' -> k = k'.

Lemma frame_page k : 0 <= k < n -> ppage (frame k) /\ V2P (P2V (frame k)) = frame k /\ frame k <> 0.
Proof.
  intros Hk. destruct (as_maps _ _ _ _ _ _ Has k Hk) as (_ & Hp & _). pose proof Hp as [_ Hp2]. unfold PHYSTOP in Hp2.
  split_and!; [done|apply V2P_P2V; lia|]. intros E. destruct (Hpage k Hk) as (_ & Hb & _). rewrite E in Hb. done.
Qed.

(** The frame of page [i] goes back to the allocator. *)
Lemma free_frame s l i : shrunk s l i -> n0 <= i < n -> let v := P2V (frame i) in
  exists s1, kfree v s = Ok tt s1 /\ vmem s1 (v :: l) pd tab /\ only_pages (eq (frame i)) (k_mem s) (k_mem s1) /\
    k_link s1 = k_link s /\ forall k, 0 <= k < 2 ^ 20 -> pte (k_mem s1) tab k = pte (k_mem s) tab k.
Proof.
  intros [Hvm Hpte Hown Hln Hkept] Hi v. destruct (frame_page i ltac:(lia)) as (Hp & EV & Hnz). fold v in EV.
  pose proof (Hown i ltac:(lia) ltac:(lia)) as Hni.
  assert (page_ok s v) as Hv by (unfold page_ok; rewrite Hln; apply Hpage; lia).
  destruct (kfree_Ok s l v (vm_kmem _ _ _ _ Hvm) (vm_free _ _ _ _ Hvm) Hv) as (s1 & E1 & Ek & Hf1).
  { intros Hin. apply Hni. right. exists v. by rewrite EV. }
  assert (only_pages (eq (frame i)) (k_mem s) (k_mem s1)) as Ho1.
  { rewrite Ek. simpl. intros x Hx. specialize (Hx _ eq_refl). unfold in_page in Hx. apply load8_freed_out. rewrite EV. unfold PGSIZE. lia. }
  assert (forall t j, owned pd tab t -> 0 <= j < 1024 -> load32 (k_mem s1) (t + 4 * j) = load32 (k_mem s) (t + 4 * j)) as Hw.
  { intros t j Ht Hj. apply (only_pages_load32 _ _ _ _ _ Ho1); [by apply (owned_page _ _ _ _ (vm_tree _ _ _ _ Hvm))| |done].
    intros p <-. split; [apply Hp|]. intros E. apply Hni. left. by rewrite E. }
  exists s1. split_and!; [done|split|done|by rewrite (keq_proj k_link _ _ ltac:(done) Ek)|].
  - rewrite Ek. apply (kmem_ok_neutral (fun t => t <| k_mem := freed v (k_freelist s) (k_mem s) |> <| k_freelist := v |>));
      [by split|done|apply Hvm].
  - done.
  - apply (tree_mem (k_mem s)); [|apply Hvm]. intros k Hk. apply Hw; [by left|done].
  - intros w [->|Hw']%elem_of_cons; [rewrite EV; intros Ho; apply Hni; by left|by apply (vm_apart _ _ _ _ Hvm)].
  - intros k Hk. apply (pte_mem _ _ pd); [apply Hvm| |done]. intros t j [i' Hi'] Hj. apply Hw; [|done]. right. by exists i'.
Qed.

Lemma dealloc_round s l i oldsz fuel : shrunk s l i -> n0 <= i < n -> 4096 * i < oldsz ->
  exists s', deallocuvm_loop (S fuel) (P2V pd) (4096 * i) oldsz s = deallocuvm_loop fuel (P2V pd) (4096 * (i + 1)) oldsz s' /\
    shrunk s' (P2V (frame i) :: l) (i + 1).
Proof.
  intros Hsh Hi Hsz. pose proof Hsh as [Hvm Hpte Hown Hln Hkept].
  destruct (free_frame s l i Hsh Hi) as (s1 & E1 & Hvm1 & Ho1 & El1 & Hp1). set (v := P2V (frame i)) in *.
  destruct (frame_page i ltac:(lia)) as (Hp & EV & Hnz). fold v in EV.
  destruct (as_maps _ _ _ _ _ _ Has i ltac:(lia)) as (Ee & [Hf1 Hf2] & Hfl & Hpr). unfold PHYSTOP in Hf2.
  assert (pte (k_mem s) tab i = frame i + flag i) as Ei by (rewrite Hpte by lia; by rewrite decide_False by lia).
  destruct (tab !! (i / 1024)) as [t|] eqn:Et.
  2: { unfold pte in Ee. rewrite Et in Ee. assert (flag i = 0) as E0 by lia. by rewrite E0 in Hpr. }
  destruct (tr_in _ _ _ (vm_tree _ _ _ _ Hvm) _ _ Et) as (_ & [_ Ht] & _). unfold PHYSTOP in Ht.
  assert (0 <= i mod 1024 < 1024) as Hmod by (apply Z.mod_pos_bound; lia).
  destruct (set_pte s1 (v :: l) pd tab i t 0 Hvm1 Et ltac:(lia)) as (X & Z1 & Z2). cbv zeta in X, Z1, Z2.
  set (s2 := set k_mem _ s1) in *.
  assert (forall k, 0 <= k < n -> ~ n0 <= k < i + 1 -> ~ mine (v :: l) pd tab (frame k)) as Hown2.
  { intros k Hk Hki [Ho|(w & [->|Hw]%elem_of_cons & E)]; [apply (Hown k); [done|lia|by left]| |].
    - rewrite EV in E. assert (k = i) by (apply Hinj; [done|lia|done]). lia.
    - apply (Hown k); [done|lia|]. right. by exists w. }
  exists s2. split.
  - cbn [deallocuvm_loop]. rewrite (proj2 (Z.ltb_lt _ _) Hsz). cbn [negb].
    rewrite (bind_Ok _ _ _ _ _ (walk_found s l pd tab (4096 * i) Hvm ltac:(lia) t false ltac:(by rewrite (Z.mul_comm 4096 i), Z.div_mul by lia))).
    rewrite (Z.mul_comm 4096 i), Z.div_mul, (Z.mul_comm i 4096) by lia.
    rewrite (proj2 (Z.eqb_neq (P2V (t + 4 * (i mod 1024))) 0)) by (rewrite P2V_page by (unfold PHYSTOP; lia); unfold KERNBASE; lia).
    rewrite (bind_Ok _ _ _ _ _ (kload32_Ok _ s _ (V2P_P2V (t + 4 * (i mod 1024)) ltac:(lia)))).
    assert (load32 (k_mem s) (t + 4 * (i mod 1024)) = frame i + flag i) as -> by (unfold pte in Ei; by rewrite Et in Ei).
    rewrite entry_present, entry_addr, Hpr by lia. cbn [when]. rewrite (proj2 (Z.eqb_neq (frame i) 0)) by done.
    unfold bind at 1 2. fold v. rewrite E1. cbn [obind]. unfold kstore32, modify. cbn [obind]. rewrite V2P_P2V by lia.
    rewrite u32_small by (unfold PGSIZE; lia). by replace (4096 * i + PGSIZE) with (4096 * (i + 1)) by (unfold PGSIZE; lia).
  - split; [apply X| |done|by rewrite <- Hln, <- El1|].
    + intros k Hk. destruct (Z.eq_dec k i) as [->|Hki]; [rewrite Z1, decide_True by lia; done|].
      rewrite Z2, Hp1, Hpte by done. repeat case_decide; try done; lia.
    + intros k Hk. split_and!; [done..|]. intros j Hj. destruct (Hkept k Hk) as (_ & _ & B). rewrite <- (B j Hj).
      destruct (frame_page k ltac:(lia)) as ([Hpk _] & _). transitivity (load8 (k_mem s1) (frame k + j)).
      * apply (only_pages_byte _ _ _ _ _ (ve_mem _ _ _ _ _ _ _ X)); [done| |done]. intros q Hq.
        split; [by apply (mine_page s1 _ _ _ _ Hvm1)|]. intros ->. apply (Hown2 k); [lia..|done].
      * apply (only_pages_byte _ _ _ _ _ Ho1); [done| |done]. intros q <-. split; [done|]. intros E.
        assert (i = k) by (apply Hinj; [lia..|done]). lia.
Qed.

Lemma dealloc_loop_Ok oldsz fuel : forall s l i, shrunk s l i -> n0 <= i <= n -> (i < n -> 4096 * (n - 1) < oldsz) -> oldsz <= 4096 * n ->
  (Z.to_nat (n - i) <= fuel)%nat ->
  exists s', deallocuvm_loop fuel (P2V pd) (4096 * i) oldsz s = Ok tt s' /\
    shrunk s' (rev (map (fun k => P2V (frame k)) (seqZ i (n - i))) ++ l) n.
Proof.
  induction fuel as [|fuel IH]; intros s l i Hsh Hi Hlo Hhi Hfuel.
  1: assert (i = n) as -> by lia.
  2: destruct (Z.eq_dec i n) as [->|Hne].
  1-2: exists s; split; [simpl; by rewrite (proj2 (Z.ltb_ge _ _)) by lia|by rewrite Z.sub_diag].
  destruct (dealloc_round s l i oldsz fuel Hsh) as (s1 & E1 & Hsh1); [lia..|].
  destruct (IH s1 _ (i + 1) Hsh1) as (s2 & E2 & Hsh2); [lia..|]. exists s2. split; [by rewrite E1|].
  rewrite (seqZ_cons i) by lia. cbn [map rev]. rewrite <- app_assoc.
  replace (Z.pred (n - i)) with (n - (i + 1)) by lia. by replace (Z.succ i) with (i + 1) by lia.
Qed.
End dealloc.

(** [deallocuvm] (shrinking a process): it returns the new size; the frames of
    the pages beyond it are back on the free list, their addresses are
    unmapped, and the pages below are as they were. *)
Theorem deallocuvm_shrinks s l pd tab n n' frame flag oldsz newsz :
  uproc s l pd tab n frame flag -> 0 <= n' <= n -> n <= 2 ^ 19 -> 4096 * (n - 1) < oldsz <= 4096 * n ->
  4096 * (n' - 1) < newsz <= 4096 * n' -> 0 <= newsz < oldsz ->
  exists s', deallocuvm (P2V pd) oldsz newsz s = Ok newsz s' /\
    uproc s' (rev (map (fun k => P2V (frame k)) (seqZ n' (n - n'))) ++ l) pd tab n' frame flag /\
    kept_pages s frame flag n' s' frame flag /\
    (forall w va, 4096 * n' <= va < KERNBASE -> vtop (k_mem s') pd w va = None).
Proof.
  intros [Hvm Has Hrest Hown Hpage Hinj] Hn' Hn Ho Hw Hlt. unfold deallocuvm.
  rewrite (proj2 (Z.leb_gt _ _)) by lia. rewrite (roundup_pages newsz n') by lia.
  destruct (dealloc_loop_Ok pd tab n' n frame flag s Hn' Hn Has Hpage Hinj oldsz (S (Z.to_nat (oldsz / PGSIZE))) s l n') as (s' & E & Hsh).
  - split; try done; [|intros; by apply Hown]. intros k Hk. by rewrite decide_False by lia.
  - lia.
  - lia.
  - lia.
  - unfold PGSIZE. assert (n - 1 <= oldsz / 4096) by (apply Z.div_le_lower_bound; lia). lia.
  - destruct Hsh as [Hvm' Hpte Hown' Hln Hkept].
    assert (uproc s' (rev (map (fun k => P2V (frame k)) (seqZ n' (n - n'))) ++ l) pd tab n' frame flag) as Hu.
    { split; [done|split; [apply Hvm'|]|..].
      - intros k Hk. destruct (as_maps _ _ _ _ _ _ Has k ltac:(lia)) as (Ek & ?). split; [|done].
        rewrite Hpte by lia. by rewrite decide_False by lia.
      - intros k Hk. rewrite Hpte by lia. case_decide; [done|]. apply Hrest. lia.
      - intros k Hk. apply Hown'; lia.
      - intros k Hk. unfold page_ok. rewrite Hln. apply Hpage. lia.
      - intros k k' Hk Hk'. apply Hinj; lia. }
    exists s'. split_and!; [by rewrite (bind_Ok _ _ _ _ _ E)|done|done|]. intros w va Hva.
    apply (vtop_beyond _ _ tab n' frame flag (ur_as _ _ _ _ _ _ _ Hu) (ur_rest _ _ _ _ _ _ _ Hu)); lia.
Qed.

(** The machine of [Pgtab]. *)
Lemma vm_uproc : uproc vm_state vm_pages 0x1000 vm_tab 1 (fun _ => 0x300000) (fun _ => UFLAGS).
Proof.
  destruct vm_aspace as [Has Hrest]. split; [split|done|done|..].
  - exists 0%nat, (MkCpu 0 1 0 0 None true 0 0). by left.
  - apply vm_free_pages.
  - apply Has.
  - intros v Hv Ho. apply (vm_apart_pages (V2P v)); [by left|]. by exists v.
  - intros k Hk [Ho|Hf]; [|apply (vm_apart_pages 0x300000); [right; by exists k|done]].
    destruct Ho as [E|[i E]]; [done|]. unfold vm_tab in E. by apply lookup_singleton_Some in E as [_ E].
  - intros k Hk. by split.
  - intros. lia.
Qed.

Lemma allocuvm_grows_witness : exists s' l' tab' frame' flag', allocuvm (P2V 0x1000) 100 9000 vm_state = Ok 9000 s' /\
  uproc s' l' 0x1000 tab' 3 frame' flag' /\ uspace (k_mem s') 0x1000 /\
  kept_pages vm_state (fun _ => 0x300000) (fun _ => UFLAGS) 1 s' frame' flag' /\
  (forall va, 4096 * 1 <= va < 4096 * 3 -> is_Some (vtop (k_mem s') 0x1000 true va) /\ uget (k_mem s') 0x1000 va = 0).
Proof.
  apply (allocuvm_grows vm_state vm_pages 0x1000 vm_tab 1 3 (fun _ => 0x300000) (fun _ => UFLAGS) 100 9000 vm_uproc);
    [lia|lia|lia|lia|lia|unfold KERNBASE; lia|rewrite vm_length; lia].
Defined.

Lemma deallocuvm_shrinks_witness : exists s', deallocuvm (P2V 0x1000) 100 0 vm_state = Ok 0 s' /\
  uproc s' (rev (map (fun k => P2V ((fun _ => 0x300000) k)) (seqZ 0 (1 - 0))) ++ vm_pages) 0x1000 vm_tab 0
    (fun _ => 0x300000) (fun _ => UFLAGS) /\
  kept_pages vm_state (fun _ => 0x300000) (fun _ => UFLAGS) 0 s' (fun _ => 0x300000) (fun _ => UFLAGS) /\
  (forall w va, 4096 * 0 <= va < KERNBASE -> vtop (k_mem s') 0x1000 w va = None).
Proof. apply (deallocuvm_shrinks vm_state vm_pages 0x1000 vm_tab 1 0 _ _ 100 0 vm_uproc); lia. Defined.
