(* ===== verification/Sched.v ===== *)
(** * Processes: allocation, scheduling, sleep and wakeup (proc.c)

    [allocproc], [wait], [scheduler], [sched], [yield], [sleep], [wakeup],
    [kill], [procdump] and [ps].  [swtch] hands the CPU over: [sched] waits
    ([WSched]) until the scheduler picks the process again, the scheduler
    waits ([WRun]) until the process comes back.  The registers and stack of
    a waiting thread are the continuation of its [Susp]; [p_context] holds
    what [allocproc] prepares for the first switch. *)

From stdpp Require Import base numbers list list_numbers gmap strings.
From S2P Require Import Prelude Kmonad Params Kstate Spinlock KString Kalloc Cprintf Vm Umem Demo.

Local Open Scope Z_scope.

(** ** The code *)

Definition TRAPFRAME_SIZE : Z := 76.
Definition CONTEXT_SIZE : Z := 20.

(** The first slot that satisfies [t]. *)
Definition find_slot (t : proc -> bool) : KM (option nat) :=
  for_break proc_slots (fun i => let* p := get_p i in ret (if t p then Some i else None)).

Definition is_state (st : procstate) (p : proc) : bool := bool_decide (p_state p = st).

Definition allocproc : KM (option nat) :=
  acquire Lptable ;;
  let* r := find_slot (is_state UNUSED) in
  match r with
  | None => release Lptable ;; ret None
  | Some i =>
      let* pid := gets k_nextpid in
      modify (fun s => s <| k_nextpid := i32 (pid + 1) |>) ;;
      upd_p i (fun p => p <| p_state := EMBRYO |> <| p_pid := pid |>) ;;
      release Lptable ;;
      let* kstack := kalloc in
      upd_p i (fun p => p <| p_kstack := kstack |>) ;;
      if kstack =? 0 then upd_p i (fun p => p <| p_state := UNUSED |>) ;; ret None else
      let* ln := gets k_link in
      kstore32 (kstack + KSTACKSIZE - TRAPFRAME_SIZE - 4) (ln_trapret ln) ;;
      upd_p i (fun p => p <| p_context := MkContext 0 0 0 0 (ln_forkret ln) |>
        <| p_handler := 0 |>
        <| p_pending_signals := (p_pending_signals p) <| sg_head := 0 |> <| sg_tail := 0 |> |>
        <| p_handling := 0 |>
        <| p_recv_queue := (p_recv_queue p) <| ml_head := 0 |> <| ml_tail := 0 |> |>
        <| p_recv_multi_queue := (p_recv_multi_queue p) <| ml_head := 0 |> <| ml_tail := 0 |> |>) ;;
      ret (Some i)
  end.

Definition sched : KM unit :=
  let* p := myproc in
  let* h := holding Lptable in
  if negb h then panic "sched ptable.lock" else
  let* c := mycpu in
  let* cp := get_cpu c in
  if negb (cpu_ncli cp =? 1) then panic "sched locks" else
  let* i := deref "null proc" p in
  let* pr := get_p i in
  if is_state RUNNING pr then panic "sched running" else
  let* fl := readeflags in
  if negb (Z.land fl FL_IF =? 0) then panic "sched interruptible" else
  let* c := mycpu in
  let* cp := get_cpu c in
  let intena := cpu_intena cp in
  suspend WSched ;;
  let* c := mycpu in
  upd_cpu c (fun x => x <| cpu_intena := intena |>).

Definition yield : KM unit :=
  acquire Lptable ;;
  let* i := curproc in
  upd_p i (fun p => p <| p_state := RUNNABLE |>) ;;
  sched ;;
  release Lptable.

Definition sleep (ch : chan) (lk : option lockid) : KM unit :=
  let* p := myproc in
  match p, lk with
  | None, _ => panic "sleep"
  | _, None => panic "sleep without lk"
  | Some i, Some lk =>
      when (negb (bool_decide (lk = Lptable))) (
        acquire Lptable ;;
        release lk) ;;
      upd_p i (fun p => p <| p_chan := ch |>) ;;
      upd_p i (fun p => p <| p_state := SLEEPING |>) ;;
      sched ;;
      upd_p i (fun p => p <| p_chan := ChNull |>) ;;
      when (negb (bool_decide (lk = Lptable))) (
        release Lptable ;;
        acquire lk)
  end.

Definition sleeps_on (ch : chan) (p : proc) : bool :=
  is_state SLEEPING p && bool_decide (p_chan p = ch).

Definition wakeup1 (ch : chan) : KM unit :=
  for_each proc_slots (fun i =>
    let* p := get_p i in
    when (sleeps_on ch p) (upd_p i (fun p => p <| p_state := RUNNABLE |>))).

Definition wakeup (ch : chan) : KM unit :=
  acquire Lptable ;;
  wakeup1 ch ;;
  release Lptable.

Definition kill (pid : Z) : KM Z :=
  acquire Lptable ;;
  let* r := for_break proc_slots (fun i =>
    let* p := get_p i in
    if p_pid p =? pid then
      upd_p i (fun p => p <| p_killed := 1 |>) ;;
      when (is_state SLEEPING p) (upd_p i (fun p => p <| p_state := RUNNABLE |>)) ;;
      release Lptable ;;
      ret (Some 0)
    else ret None) in
  match r with
  | Some r => ret r
  | None => release Lptable ;; ret (-1)
  end.

(** One scan of [wait] for a child: [inl pid] when it freed a zombie (and
    released the lock), else whether there are children. *)
Definition wait_scan (curproc : nat) : KM (Z + bool) :=
  for_fold proc_slots (inr false) (fun acc i =>
    match acc with
    | inl pid => ret (inl pid)
    | inr havekids =>
        let* p := get_p i in
        if negb (bool_decide (p_parent p = Some curproc)) then ret (inr havekids) else
        if is_state ZOMBIE p then
          let pid := p_pid p in
          kfree (p_kstack p) ;;
          upd_p i (fun p => p <| p_kstack := 0 |>) ;;
          freevm (p_pgdir p) ;;
          upd_p i (fun p => p <| p_pid := 0 |> <| p_parent := None |>
            <| p_name := <[0%nat := 0]> (p_name p) |> <| p_killed := 0 |>
            <| p_state := UNUSED |>) ;;
          release Lptable ;;
          ret (inl pid)
        else ret (inr true)
    end).

(** The [for(;;)] loop of [wait]; [fuel] bounds the number of wakeups. *)
Fixpoint wait_loop (fuel : nat) (curproc : nat) : KM Z :=
  let* r := wait_scan curproc in
  match r with
  | inl pid => ret pid
  | inr havekids =>
      let* p := get_p curproc in
      if negb havekids || negb (p_killed p =? 0) then release Lptable ;; ret (-1) else
      sleep (ChProc curproc) (Some Lptable) ;;
      match fuel with O => nofuel | S fuel => wait_loop fuel curproc end
  end.

Definition wait (fuel : nat) : KM Z :=
  let* i := curproc in
  acquire Lptable ;;
  wait_loop fuel i.

(** One pass of the [for(;;)] loop of [scheduler] on CPU [c]. *)
Definition scheduler_pass (c : nat) : KM unit :=
  sti ;;
  acquire Lptable ;;
  for_each proc_slots (fun i =>
    let* p := get_p i in
    if negb (is_state RUNNABLE p) then ret tt else
    upd_cpu c (fun x => x <| cpu_proc := Some i |>) ;;
    switchuvm (Some i) ;;
    upd_p i (fun p => p <| p_state := RUNNING |>) ;;
    suspend (WRun i) ;;
    switchkvm ;;
    upd_cpu c (fun x => x <| cpu_proc := None |>)) ;;
  release Lptable.

(** The first [n] passes of [scheduler], which never returns. *)
Fixpoint scheduler_loop (n : nat) (c : nat) : KM unit :=
  match n with
  | O => ret tt
  | S n => scheduler_pass c ;; scheduler_loop n c
  end.

Definition scheduler (n : nat) : KM unit :=
  let* c := mycpu in
  upd_cpu c (fun x => x <| cpu_proc := None |>) ;;
  scheduler_loop n c.

Definition state_name (st : procstate) : list Z :=
  bytes match st with
  | UNUSED => "unused" | EMBRYO => "embryo" | SLEEPING => "sleep "
  | RUNNABLE => "runble" | RUNNING => "run   " | ZOMBIE => "zombie"
  end.

(** [callerpcs i]: the return addresses on the stack of sleeping process [i],
    up to the first 0 or the tenth. *)
Definition procdump (callerpcs : nat -> list Z) : KM unit :=
  for_each proc_slots (fun i =>
    let* p := get_p i in
    if is_state UNUSED p then ret tt else
    cprintf (bytes "%d %s %s") [CInt (p_pid p); CStr (state_name (p_state p)); CStr (p_name p)] ;;
    when (is_state SLEEPING p)
      (for_each (callerpcs i) (fun pc => cprintf (bytes " %p") [CInt pc])) ;;
    cprintf [10] []).

Definition ps : KM unit :=
  for_each proc_slots (fun i =>
    let* p := get_p i in
    if is_state UNUSED p then ret tt else
    cprintf (bytes "pid:%d name:%s" ++ [10]) [CInt (p_pid p); CStr (p_name p)]).

(** ** Scanning the process table *)

Definition table_len (s : kstate) : Prop := length (k_ptable s) = NPROC.

Lemma slot_lookup s i : table_len s -> (i < NPROC)%nat -> exists p, k_ptable s !! i = Some p.
Proof. intros E Hi. apply lookup_lt_is_Some. by rewrite E. Qed.

(** A loop over the table, with an invariant indexed by the slots done. *)
Lemma for_each_slots (body : nat -> KM unit) (I : nat -> kstate -> Prop) s :
  I 0%nat s ->
  (forall i s, (i < NPROC)%nat -> I i s -> exists s', body i s = Ok tt s' /\ I (S i) s') ->
  exists s', for_each proc_slots body s = Ok tt s' /\ I NPROC s'.
Proof.
  intros H0 Hstep.
  assert (forall n off s, (off + n <= NPROC)%nat -> I off s ->
    exists s', for_each (seq off n) body s = Ok tt s' /\ I (off + n)%nat s') as Hgen.
  { induction n as [|n IH]; intros off t Hle HI; simpl.
    - exists t. by rewrite Nat.add_0_r.
    - destruct (Hstep off t) as (t1 & E & H1); [lia|done|].
      rewrite (bind_Ok _ _ _ _ _ E), <- Nat.add_succ_comm. apply IH; [lia|done]. }
  destruct (Hgen NPROC 0%nat s) as (s' & E & H); [lia|done|]. by exists s'.
Qed.

(** A loop that updates, in place, the entries that satisfy a test. *)
Definition upd_where (t : proc -> bool) (f : proc -> proc) (l : list proc) : list proc :=
  map (fun p => if t p then f p else p) l.

Lemma scan_update (t : proc -> bool) (f : proc -> proc) s :
  table_len s ->
  for_each proc_slots (fun i => let* p := get_p i in when (t p) (upd_p i f)) s
  = Ok tt (set k_ptable (upd_where t f) s).
Proof.
  intros Hlen.
  destruct (for_each_slots (fun i => let* p := get_p i in when (t p) (upd_p i f))
    (fun i s' => s' = s <| k_ptable :=
       upd_where t f (take i (k_ptable s)) ++ drop i (k_ptable s) |>) s)
    as (s' & E & ->).
  - by destruct s.
  - intros i s' Hi ->. destruct (slot_lookup s i Hlen Hi) as [p Hp].
    pose proof (lookup_lt_Some _ _ _ Hp) as Hlt.
    set (L := upd_where t f (take i (k_ptable s))).
    assert (length L = i) as HL by (unfold L, upd_where; rewrite length_map, length_take; lia).
    rewrite (drop_S _ _ _ Hp).
    assert ((L ++ p :: drop (S i) (k_ptable s)) !! i = Some p) as Hl.
    { rewrite lookup_app_r by lia. by rewrite HL, Nat.sub_diag. }
    erewrite bind_Ok by (apply get_p_Ok; exact Hl).
    rewrite (take_S_r _ _ _ Hp). unfold upd_where at 1. rewrite map_app. simpl.
    fold (upd_where t f (take i (k_ptable s))). fold L. rewrite <- app_assoc. simpl.
    destruct (t p); simpl; eexists; (split; [reflexivity|]); [|done].
    unfold set, set_k_ptable. simpl. f_equal.
    rewrite <- HL at 1. rewrite <- (Nat.add_0_r (length L)).
    by rewrite alter_app_r.
  - rewrite E. f_equal. rewrite <- Hlen, take_ge, drop_ge, app_nil_r by lia.
    by destruct s.
Qed.

Lemma lookup_upd_where t f l i :
  upd_where t f l !! i = (fun p => if t p then f p else p) <$> l !! i.
Proof. apply list_lookup_fmap. Qed.

Definition wake (ch : chan) : list proc -> list proc :=
  upd_where (sleeps_on ch) (fun p => p <| p_state := RUNNABLE |>).

Lemma wakeup1_Ok ch s : table_len s -> wakeup1 ch s = Ok tt (set k_ptable (wake ch) s).
Proof. apply scan_update. Qed.

Lemma acq_ptable c lk f s : set k_ptable f (acq c lk s) = acq c lk (set k_ptable f s).
Proof. reflexivity. Qed.

(** [wakeup] makes exactly the sleepers on the channel runnable. *)
Lemma wakeup_Ok c cp ch s :
  ready c cp Lptable s -> table_len s ->
  exists s', wakeup ch s = Ok tt s' /\ s' ≡ₖ set k_ptable (wake ch) s.
Proof.
  intros Hr Hlen. unfold wakeup. rewrite (bind_Ok _ _ _ _ _ (acquire_ready _ _ _ _ Hr)).
  rewrite (bind_Ok _ _ _ _ _ (wakeup1_Ok ch (acq c Lptable s) Hlen)).
  rewrite acq_ptable. by apply (release_acq c cp).
Qed.

(** A loop that does nothing before the first entry satisfying [t]. *)
Lemma for_break_first {R} (t : proc -> bool) (body : nat -> KM (option R)) s :
  table_len s ->
  (forall j p, k_ptable s !! j = Some p -> t p = false -> body j s = Ok None s) ->
  for_break proc_slots body s
  = match find_idx t (k_ptable s) with
    | Some i => for_break (seq i (NPROC - i)) body s
    | None => Ok None s
    end.
Proof.
  intros Hlen Hb. unfold proc_slots. rewrite <- Hlen.
  assert (forall l off, (forall j, k_ptable s !! (off + j)%nat = l !! j) ->
    for_break (seq off (length l)) body s
    = match find_idx t l with
      | Some i => for_break (seq (off + i) (length l - i)) body s
      | None => Ok None s
      end) as Hgen.
  { induction l as [|p l IH]; intros off Hl; [done|].
    pose proof (Hl 0%nat) as Hp. rewrite Nat.add_0_r in Hp. simpl in Hp.
    cbn [find_idx]. destruct (t p) eqn:Et.
    - by rewrite Nat.add_0_r, Nat.sub_0_r.
    - cbn [seq length for_break]. rewrite (bind_Ok _ _ _ _ _ (Hb _ _ Hp Et)).
      rewrite (IH (S off)) by (intros j; specialize (Hl (S j)); by rewrite <- Nat.add_succ_comm in Hl).
      destruct (find_idx t l) as [i|]; [|done]. simpl. by rewrite <- Nat.add_succ_comm. }
  rewrite (Hgen _ 0%nat) by done. done.
Qed.

Lemma find_slot_Ok t s :
  table_len s -> find_slot t s = Ok (find_idx t (k_ptable s)) s.
Proof.
  intros Hlen. unfold find_slot. rewrite (for_break_first t); [|done|].
  - destruct (find_idx t (k_ptable s)) as [i|] eqn:E; [|done].
    apply find_idx_Some in E as (p & Hp & Ht & _). pose proof (lookup_lt_Some _ _ _ Hp).
    replace (NPROC - i)%nat with (S (NPROC - S i)) by (unfold table_len in *; lia).
    cbn [seq for_break]. rewrite (bind_bind _ _ _ _ _ _ (get_p_Ok _ _ _ Hp)). by rewrite Ht.
  - intros j p Hp Ht. rewrite (bind_Ok _ _ _ _ _ (get_p_Ok _ _ _ Hp)). by rewrite Ht.
Qed.

Definition has_pid (pid : Z) (p : proc) : bool := p_pid p =? pid.

Definition killed (p : proc) : proc :=
  let p' := p <| p_killed := 1 |> in
  if is_state SLEEPING p then p' <| p_state := RUNNABLE |> else p'.

Lemma ptable_comp f g i s :
  set k_ptable (alter f i) (set k_ptable (alter g i) s) = set k_ptable (alter (fun p => f (g p)) i) s.
Proof. unfold set, set_k_ptable. simpl. f_equal. apply list_alter_alter_eq. Qed.

Lemma ptable_ext f g i p s :
  k_ptable s !! i = Some p -> f p = g p ->
  set k_ptable (alter f i) s = set k_ptable (alter g i) s.
Proof.
  intros Hp E. unfold set, set_k_ptable. simpl. f_equal.
  apply list_alter_ext; [|done]. intros q Hq. by simplify_eq.
Qed.

Lemma ptable_same f s : f (k_ptable s) = k_ptable s -> set k_ptable f s = s.
Proof. intros E. unfold set, set_k_ptable. rewrite E. by destruct s. Qed.

(** [kill] marks the first process with the pid and wakes it if it sleeps. *)
Lemma kill_Ok c cp pid s :
  ready c cp Lptable s -> table_len s ->
  exists s', kill pid s = Ok (match find_idx (has_pid pid) (k_ptable s) with
                              | Some _ => 0 | None => -1 end) s' /\
    s' ≡ₖ match find_idx (has_pid pid) (k_ptable s) with
          | Some i => set k_ptable (alter killed i) s
          | None => s
          end.
Proof.
  intros Hr Hlen. unfold kill. rewrite (bind_Ok _ _ _ _ _ (acquire_ready _ _ _ _ Hr)).
  unfold bind at 1. rewrite (for_break_first (has_pid pid)); [|done|].
  2: { intros j p Hp Ht. rewrite (bind_Ok _ _ _ _ _ (get_p_Ok _ _ _ Hp)). unfold has_pid in Ht.
       by rewrite Ht. }
  change (k_ptable (acq c Lptable s)) with (k_ptable s).
  destruct (find_idx (has_pid pid) (k_ptable s)) as [i|] eqn:E; simpl.
  2: by apply (release_acq_ret c cp).
  apply find_idx_Some in E as (p & Hp & Ht & _). pose proof (lookup_lt_Some _ _ _ Hp).
  replace (NPROC - i)%nat with (S (NPROC - S i)) by (unfold table_len in *; lia).
  destruct (release_acq c cp Lptable (set k_ptable (alter killed i) s)) as (s' & E & Es); [done|].
  exists s'. split; [|done]. cbn [seq for_break]. unfold has_pid in Ht.
  kx (get_p_Ok _ _ (acq c Lptable s) Hp). rewrite Ht. unfold upd_p.
  rewrite (ptable_ext killed (fun p0 => if is_state SLEEPING p then
    p0 <| p_killed := 1 |> <| p_state := RUNNABLE |> else p0 <| p_killed := 1 |>) i p s Hp) in E by done.
  destruct (is_state SLEEPING p); kx; rewrite !acq_ptable, ?ptable_comp; by kx E.
Qed.

(** ** allocproc *)

(** The fields [allocproc] sets in the slot it takes. *)
Definition claimed (pid kstack : Z) (ln : linkmap) (p : proc) : proc :=
  p <| p_state := EMBRYO |> <| p_pid := pid |> <| p_kstack := kstack |>
    <| p_context := MkContext 0 0 0 0 (ln_forkret ln) |>
    <| p_handler := 0 |>
    <| p_pending_signals := (p_pending_signals p) <| sg_head := 0 |> <| sg_tail := 0 |> |>
    <| p_handling := 0 |>
    <| p_recv_queue := (p_recv_queue p) <| ml_head := 0 |> <| ml_tail := 0 |> |>
    <| p_recv_multi_queue := (p_recv_multi_queue p) <| ml_head := 0 |> <| ml_tail := 0 |> |>.

Definition bump_pid (s : kstate) : kstate := s <| k_nextpid := i32 (k_nextpid s + 1) |>.

(** The state [allocproc] leaves: unchanged when the table is full; a pid
    used up but no process when there is no page for a stack; else a process
    in state EMBRYO with a stack whose top holds the address of [trapret]. *)
Definition allocproc_post (l : list Z) (s : kstate) : option nat * kstate :=
  match find_idx (is_state UNUSED) (k_ptable s), l with
  | None, _ => (None, s)
  | Some i, [] =>
      (None, set k_ptable (alter (fun p => p <| p_pid := k_nextpid s |> <| p_kstack := 0 |>) i)
               (bump_pid s))
  | Some i, v :: l =>
      (Some i, set k_ptable (alter (claimed (k_nextpid s) v (k_link s)) i)
        ((bump_pid s) <| k_freelist := default 0 (head l) |>
          <| k_mem := store32 (k_mem s) (V2P (v + KSTACKSIZE - TRAPFRAME_SIZE - 4))
                        (ln_trapret (k_link s)) |>))
  end.

Lemma ptable_mem f g s : set k_ptable f (set k_mem g s) = set k_mem g (set k_ptable f s).
Proof. reflexivity. Qed.
Lemma ptable_freelist f v s :
  (set k_ptable f s) <| k_freelist := v |> = set k_ptable f (s <| k_freelist := v |>).
Proof. reflexivity. Qed.

Lemma allocproc_Ok c cp s l :
  ready c cp Lptable s -> table_len s -> kmem_ok s -> free_pages s l ->
  exists s', allocproc s = Ok (allocproc_post l s).1 s' /\ s' ≡ₖ (allocproc_post l s).2.
Proof.
  intros Hr Hlen Hk Hp. unfold allocproc, allocproc_post.
  rewrite (bind_Ok _ _ _ _ _ (acquire_ready _ _ _ _ Hr)).
  rewrite (bind_Ok _ _ _ _ _ (find_slot_Ok _ (acq c Lptable s) Hlen)).
  change (k_ptable (acq c Lptable s)) with (k_ptable s).
  destruct (find_idx (is_state UNUSED) (k_ptable s)) as [i|] eqn:Ei; cbn [fst snd].
  2: by apply (release_acq_ret c cp).
  apply find_idx_Some in Ei as (p & Hi & Hs & _). unfold is_state in Hs. apply bool_decide_eq_true in Hs.
  set (s1 := set k_ptable (alter (fun p => p <| p_state := EMBRYO |> <| p_pid := k_nextpid s |>) i)
               (bump_pid s)).
  destruct (release_acq c cp Lptable s1) as (s2 & E2 & K2); [done|].
  assert (kmem_ok s2) as Hk2 by (rewrite K2; exact Hk).
  assert (free_pages s2 l) as Hp2 by (rewrite K2; by eapply free_pages_ext; [..|exact Hp]).
  destruct (kalloc_Ok s2 l Hk2 Hp2) as (s3 & E3 & K3 & Hp3). rewrite K2 in K3.
  assert (k_link s3 = k_link s) as L3 by apply (keq_proj k_link _ _ ltac:(done) K3).
  unfold upd_p. kx E2. kx E3.
  destruct l as [|v l]; simpl default in *; simpl head in *; simpl tail in *.
  - eexists. split; [reflexivity|]. rewrite K3, !ptable_comp. simpl snd.
    destruct Hp as [Hfl _ _]. simpl in Hfl. unfold s1, bump_pid. destruct s; simpl in *.
    apply eq_subrelation; [apply _|]. unfold set, set_k_ptable, set_k_freelist, set_k_nextpid. simpl.
    rewrite Hfl, list_alter_alter_eq. f_equal. apply list_alter_ext; [|done].
    intros q Hq. simplify_eq. destruct p; simpl in *. by rewrite Hs.
  - inversion Hp as [_ _ Hf]. apply Forall_cons in Hf as [Hv _].
    change (default 0 (head (v :: l))) with v.
    destruct (Z.eqb_spec v 0) as [->|_]; [unfold page_ok, KERNBASE in Hv; lia|].
    unfold kstore32. kx.
    match goal with |- context [ln_trapret (k_link ?x)] => change (k_link x) with (k_link s3) end.
    rewrite L3. eexists. split; [reflexivity|]. rewrite K3.
    apply eq_subrelation; [apply _|]. rewrite ptable_mem, ptable_comp. unfold s1.
    rewrite ptable_freelist, ptable_comp. cbn [snd]. rewrite <- ptable_mem.
    unfold claimed. reflexivity.
Qed.

(** ** sched and sleep

    [in_ptable c cp i s]: process [i] runs on CPU [c] and holds [ptable.lock],
    and no other lock; the state in which it may enter the scheduler, and the
    one in which the scheduler lets it go on. *)
Record in_ptable (c : nat) (cp : cpu) (i : nat) (s : kstate) : Prop := {
  ip_run : running c cp s;
  ip_ncli : cpu_ncli cp = 1;
  ip_if : cpu_if cp = false;
  ip_proc : cpu_proc cp = Some i;
  ip_lock : lock_of s Lptable = MkLock 1 (Some c)
}.

Lemma in_ptable_ok c cp i s : in_ptable c cp i s -> cpu_ok cp.
Proof. intros [_ Hn Hi _ _]. split; [lia|done]. Qed.

Lemma acq_in_ptable c cp i s :
  ready c cp Lptable s -> cpu_ncli cp = 0 -> cpu_proc cp = Some i ->
  in_ptable c (cpu_push cp) i (acq c Lptable s).
Proof.
  intros (Hr & _ & _) Hn Hp. split; [by apply running_acq|simpl; lia|done|done|].
  apply lock_of_acq.
Qed.

Lemma in_ptable_table c cp i s f : in_ptable c cp i s -> in_ptable c cp i (set k_ptable f s).
Proof. intros [H1 H2 H3 H4 H5]. by split. Qed.
Lemma in_ptable_mem c cp i s f : in_ptable c cp i s -> in_ptable c cp i (set k_mem f s).
Proof. intros [H1 H2 H3 H4 H5]. by split. Qed.
#[export] Hint Resolve in_ptable_table in_ptable_mem acq_in_ptable : kern.

Lemma myproc_in_ptable c cp i s : in_ptable c cp i s -> myproc s = Ok (Some i) s.
Proof.
  intros H. pose proof (in_ptable_ok _ _ _ _ H). destruct H as [H1 H2 H3 H4 H5].
  rewrite (myproc_Ok c cp) by done. rewrite H4, (touch_id c cp) by (done || lia). done.
Qed.

Lemma release_in_ptable c cp i s :
  in_ptable c cp i s -> release Lptable s = Ok tt (rel c Lptable s).
Proof.
  intros H. pose proof (in_ptable_ok _ _ _ _ H). destruct H as [H1 H2 H3 H4 H5].
  apply (release_Ok c cp); [done|done|lia|by rewrite H5..].
Qed.

(** The state [sched] returns in after the scheduler picked the process. *)
Definition back (c : nat) (intena : Z) (s : kstate) : kstate :=
  on_cpu c (fun x => x <| cpu_intena := intena |>) s.

Lemma back_in_ptable c cp i v s :
  in_ptable c cp i s -> in_ptable c (cp <| cpu_intena := v |>) i (back c v s).
Proof.
  intros [H1 H2 H3 H4 H5]. split; try done.
  by apply (running_on_cpu c cp (fun x => x <| cpu_intena := v |>)).
Qed.

Lemma sched_Susp c cp i p s :
  in_ptable c cp i s -> k_ptable s !! i = Some p -> p_state p <> RUNNING ->
  exists k, sched s = Susp WSched s k /\
    forall c' cp' s', in_ptable c' cp' i s' -> k s' = Ok tt (back c' (cpu_intena cp) s').
Proof.
  intros H Hp Hs. pose proof (in_ptable_ok _ _ _ _ H) as Hok.
  pose proof (myproc_in_ptable _ _ _ _ H) as Em. destruct H as [H1 H2 H3 H4 H5].
  eexists. unfold sched. kx Em.
  rewrite (holding_Ok c cp) by done. rewrite (touch_id c cp) by (done || lia). kx.
  assert (negb (lk_locked (lock_of s Lptable) =? 0)
          && bool_decide (lk_cpu (lock_of s Lptable) = Some c) = true) as ->
    by (rewrite H5; simpl; by rewrite bool_decide_true). cbn [negb].
  rewrite (mycpu_Ok c cp) by done. kx. rewrite (get_cpu_Ok c cp) by done. kx.
  rewrite H2. change (negb (1 =? 1)) with false. cbn [deref]. kx. rewrite (get_p_Ok _ _ _ Hp). kx.
  unfold is_state. rewrite bool_decide_false by done.
  rewrite (readeflags_Ok c cp) by done. rewrite H3. kx. change (negb _) with false. cbv iota beta.
  rewrite (mycpu_Ok c cp) by done. kx. rewrite (get_cpu_Ok c cp) by done. kx.
  unfold suspend. simpl. split; [reflexivity|]. cbv beta.
  intros c' cp' s' [R1 R2 R3 R4 R5]. rewrite (mycpu_Ok c' cp') by done. done.
Qed.

Definition asleep (i : nat) (ch : chan) (s : kstate) : kstate :=
  set k_ptable (alter (fun p => p <| p_chan := ch |> <| p_state := SLEEPING |>) i) s.
Definition woken (c : nat) (intena : Z) (i : nat) (s : kstate) : kstate :=
  set k_ptable (alter (fun p => p <| p_chan := ChNull |>) i) (back c intena s).

(** [sleep] on a channel with [ptable.lock] held: the process is marked
    asleep and waits; when it is picked again it goes on with the lock held
    and its channel cleared. *)
Lemma sleep_Susp c cp i p ch s :
  in_ptable c cp i s -> k_ptable s !! i = Some p ->
  exists k, sleep ch (Some Lptable) s = Susp WSched (asleep i ch s) k /\
    forall c' cp' s', in_ptable c' cp' i s' -> k s' = Ok tt (woken c' (cpu_intena cp) i s').
Proof.
  intros H Hp. unfold sleep. kx (myproc_in_ptable _ _ _ _ H).
  rewrite bool_decide_true by done. cbn [negb]. kx. unfold upd_p. kx.
  rewrite ptable_comp. fold (asleep i ch s).
  destruct (sched_Susp c cp i (p <| p_chan := ch |> <| p_state := SLEEPING |>) (asleep i ch s))
    as (k & E & Hk); [by apply in_ptable_table| |done|].
  { unfold asleep. simpl. by rewrite list_lookup_alter_eq, Hp. }
  eexists. rewrite E. cbn [obind]. split; [reflexivity|]. cbv beta.
  intros c' cp' s' H'. rewrite (Hk c' cp' s' H'). done.
Qed.

Lemma woken_in_ptable c cp i v s :
  in_ptable c cp i s -> in_ptable c (cp <| cpu_intena := v |>) i (woken c v i s).
Proof. intros H. apply in_ptable_table. by apply back_in_ptable. Qed.

(** [yield] leaves the process runnable. *)
Lemma yield_Susp c cp i p s :
  ready c cp Lptable s -> cpu_ncli cp = 0 -> cpu_proc cp = Some i -> k_ptable s !! i = Some p ->
  exists k, yield s
    = Susp WSched (acq c Lptable (set k_ptable (alter (fun p => p <| p_state := RUNNABLE |>) i) s)) k /\
    forall c' cp' s', in_ptable c' cp' i s' ->
      k s' = Ok tt (rel c' Lptable (back c' (cpu_intena (cpu_push cp)) s')).
Proof.
  intros Hr Hn Hc Hp. unfold yield.
  rewrite (bind_Ok _ _ _ _ _ (acquire_ready _ _ _ _ Hr)).
  pose proof (acq_in_ptable _ _ _ _ Hr Hn Hc) as H. unfold curproc.
  kx (myproc_in_ptable _ _ _ _ H). unfold upd_p. cbn [deref]. kx.
  set (s1 := set k_ptable _ _).
  destruct (sched_Susp c (cpu_push cp) i (p <| p_state := RUNNABLE |>) s1) as (k & E & Hk);
    [by apply in_ptable_table| |done|].
  { unfold s1. simpl. by rewrite list_lookup_alter_eq, Hp. }
  eexists. rewrite E. cbn [obind]. split; [reflexivity|]. cbv beta.
  intros c' cp' s' H'. rewrite (Hk c' cp' s' H'). cbn [obind].
  by apply (release_in_ptable c' (cp' <| cpu_intena := cpu_intena (cpu_push cp) |>) i), back_in_ptable.
Qed.

(** ** Loops that act on one slot *)

Definition slots_before (i : nat) : list nat := seq 0 i.
Definition slots_after (i : nat) : list nat := seq (S i) (NPROC - S i).

Lemma slots_split i : (i < NPROC)%nat -> proc_slots = slots_before i ++ i :: slots_after i.
Proof.
  intros Hi. unfold proc_slots, slots_before, slots_after.
  replace NPROC with (i + S (NPROC - S i))%nat at 1 by lia.
  by rewrite seq_app.
Qed.

(** [only_pid t pid i]: no slot but [i] has this pid. *)
Definition only_pid (t : list proc) (pid : Z) (i : nat) : Prop :=
  forall j q, t !! j = Some q -> p_pid q = pid -> j = i.

Lemma slot_ne_lookup s i j :
  table_len s -> j ∈ slots_before i ++ slots_after i -> (i < NPROC)%nat ->
  j <> i /\ exists q, k_ptable s !! j = Some q.
Proof.
  intros Hlen Hj Hi. apply elem_of_app in Hj as [Hj|Hj]; apply elem_of_seq in Hj.
  all: split; [lia|]; apply lookup_lt_is_Some; rewrite Hlen; lia.
Qed.

(** ** Process ids

    Pids are given out in increasing order; a slot whose process was reaped
    has pid 0.  No two slots share a pid other than 0. *)

Record pids_ok (next : Z) (l : list Z) : Prop := {
  po_len : length l = NPROC;
  po_range : Forall (fun pid => 0 <= pid < next) l;
  po_unique : forall i j pid, l !! i = Some pid -> l !! j = Some pid -> pid <> 0 -> i = j
}.

Definition table_ok (s : kstate) : Prop := pids_ok (k_nextpid s) (map p_pid (k_ptable s)).

Lemma table_ok_len s : table_ok s -> table_len s.
Proof. intros [H _ _]. by rewrite length_map in H. Qed.

Lemma table_ok_only s i p :
  table_ok s -> k_ptable s !! i = Some p -> p_pid p <> 0 -> only_pid (k_ptable s) (p_pid p) i.
Proof.
  intros [_ _ H] Hi Hp j q Hj E. apply (H j i (p_pid p)); [..|done].
  - rewrite list_lookup_fmap, Hj. simpl. by rewrite E.
  - by rewrite list_lookup_fmap, Hi.
Qed.

Lemma table_ok_ext s s' :
  k_nextpid s' = k_nextpid s -> map p_pid (k_ptable s') = map p_pid (k_ptable s) ->
  table_ok s -> table_ok s'.
Proof. unfold table_ok. by intros -> ->. Qed.

#[export] Instance table_ok_keq : Proper (keq ==> iff) table_ok.
Proof.
  assert (forall s s', s ≡ₖ s' -> table_ok s -> table_ok s') as H.
  { intros s s' E. apply table_ok_ext; [|by rewrite E].
    symmetry. by apply (keq_proj k_nextpid). }
  intros s s' E. split; apply H; [done|by symmetry].
Qed.

(** Updates that keep pids. *)
Lemma pids_upd_where t f l :
  (forall p, p_pid (f p) = p_pid p) -> map p_pid (upd_where t f l) = map p_pid l.
Proof.
  intros Hf. unfold upd_where. rewrite map_map. apply map_ext. intros p.
  destruct (t p); [apply Hf|done].
Qed.

Lemma pids_alter f i l :
  (forall p, p_pid (f p) = p_pid p) -> map p_pid (alter f i l) = map p_pid l.
Proof.
  intros Hf. apply list_eq. intros j. rewrite !list_lookup_fmap.
  destruct (decide (i = j)) as [->|Hne]; [rewrite list_lookup_alter_eq|by rewrite list_lookup_alter_ne].
  destruct (l !! j); simpl; [by rewrite Hf|done].
Qed.

Lemma pids_wake ch l : map p_pid (wake ch l) = map p_pid l.
Proof. by apply pids_upd_where. Qed.
#[export] Hint Rewrite pids_wake : pids.
#[export] Hint Resolve pids_alter pids_wake : kern.

(** Giving slot [i] a fresh pid, or taking its pid away. *)
Lemma pids_fresh next l i :
  pids_ok next l -> 0 < next -> pids_ok (next + 1) (<[i := next]> l).
Proof.
  intros [H1 H2 H3] Hn. split.
  - by rewrite length_insert.
  - apply Forall_insert; [|lia]. eapply Forall_impl; [exact H2|]. simpl. lia.
  - intros a b pid Ha Hb Hp.
    assert (forall j, l !! j = Some next -> False) as Hnew.
    { intros j Hj. apply (Forall_lookup_1 _ _ _ _ H2) in Hj. simpl in Hj. lia. }
    apply list_lookup_insert_Some in Ha as [(<- & <- & _)|(Hai & Ha)];
      apply list_lookup_insert_Some in Hb as [(<- & E & _)|(Hbi & Hb)]; subst; try done.
    + by destruct (Hnew b).
    + by destruct (Hnew a).
    + by apply (H3 a b pid).
Qed.

Lemma pids_clear next l i : pids_ok next l -> 0 < next -> pids_ok next (<[i := 0]> l).
Proof.
  intros [H1 H2 H3] Hn. split.
  - by rewrite length_insert.
  - apply Forall_insert; [done|lia].
  - intros a b pid Ha Hb Hp.
    apply list_lookup_insert_Some in Ha as [(_ & <- & _)|(_ & Ha)]; [done|].
    apply list_lookup_insert_Some in Hb as [(_ & <- & _)|(_ & Hb)]; [done|].
    by apply (H3 a b pid).
Qed.

Lemma pids_set f i pid l :
  (forall p, p_pid (f p) = pid) -> map p_pid (alter f i l) = <[i := pid]> (map p_pid l).
Proof.
  intros Hf. apply list_eq. intros j. rewrite !list_lookup_fmap.
  destruct (decide (i = j)) as [->|Hne].
  - rewrite list_lookup_alter_eq. destruct (l !! j) eqn:E; simpl.
    + rewrite Hf, list_lookup_insert_eq; [done|]. rewrite length_map. by eapply lookup_lt_Some.
    + rewrite list_insert_ge; [by rewrite list_lookup_fmap, E|].
      rewrite length_map. by apply lookup_ge_None.
  - by rewrite list_lookup_alter_ne, list_lookup_insert_ne, list_lookup_fmap.
Qed.

(** [allocproc] keeps pids unique: the new one was never used before. *)
Lemma allocproc_table_ok s l :
  table_ok s -> 0 < k_nextpid s < 2 ^ 31 - 1 -> table_ok (allocproc_post l s).2.
Proof.
  intros H Hn. unfold allocproc_post.
  assert (i32 (k_nextpid s + 1) = k_nextpid s + 1) as E by (apply i32_small; lia).
  destruct (find_idx (is_state UNUSED) (k_ptable s)) as [i|]; [|done].
  destruct l as [|v l]; unfold table_ok; simpl; rewrite E, (pids_set _ _ (k_nextpid s)) by done;
    apply pids_fresh; (done || lia).
Qed.

(** Tables with distinct pids first and unused slots after. *)
Lemma pids_ok_prefix next l n :
  (length l + n = NPROC)%nat -> NoDup l -> Forall (fun pid => 0 < pid < next) l -> 0 < next ->
  pids_ok next (l ++ replicate n 0).
Proof.
  intros Hlen Hd Hr Hn. split.
  - by rewrite length_app, length_replicate.
  - apply Forall_app. split; [eapply Forall_impl; [exact Hr|]; simpl; lia|].
    apply Forall_replicate. lia.
  - intros i j pid Hi Hj Hp.
    assert (forall k, (l ++ replicate n 0) !! k = Some pid -> l !! k = Some pid) as Hl.
    { intros k Hk. apply lookup_app_Some in Hk as [Hk|[_ Hk]]; [done|].
      apply lookup_replicate in Hk as [-> _]. done. }
    by eapply NoDup_lookup; [exact Hd|apply Hl..].
Qed.

(** ** What the scheduler primitives promise *)

(** C29: The process table stays well formed, with all pids below the next one
    and no pid other than 0 in two slots: [allocproc], [kill] and [wakeup]
    preserve it, whether they succeed or not. *)
Theorem process_table_invariant c cp s l :
  ready c cp Lptable s -> table_ok s -> 0 < k_nextpid s < 2 ^ 31 - 1 -> kmem_ok s -> free_pages s l ->
  (exists r s', allocproc s = Ok r s' /\ table_ok s') /\
  (forall pid, exists r s', kill pid s = Ok r s' /\ table_ok s') /\
  (forall ch, exists s', wakeup ch s = Ok tt s' /\ table_ok s').
Proof.
  intros Hr Ht Hn Hk Hp. pose proof (table_ok_len _ Ht) as Hlen. split_and!.
  - destruct (allocproc_Ok c cp s l Hr Hlen Hk Hp) as (s' & E & Es).
    exists (allocproc_post l s).1, s'. split; [done|]. rewrite Es. by apply allocproc_table_ok.
  - intros pid. destruct (kill_Ok c cp pid s Hr Hlen) as (s' & E & Es).
    eexists _, s'. split; [exact E|]. rewrite Es. destruct (find_idx _ _) as [i|]; [|done].
    eapply table_ok_ext; [| |exact Ht]; [done|]. apply pids_alter. intros p. unfold killed. by destruct (is_state _ _).
  - intros ch. destruct (wakeup_Ok c cp ch s Hr Hlen) as (s' & E & Es). exists s'. split; [done|].
    rewrite Es. eapply table_ok_ext; [| |exact Ht]; [done|]. apply pids_wake.
Qed.

(** [wakeup] makes runnable exactly the processes that sleep on the
    channel, and changes nothing else in the table. *)
Theorem wakeup_exact c cp ch s :
  ready c cp Lptable s -> table_len s ->
  exists s', wakeup ch s = Ok tt s' /\
    forall i p, k_ptable s !! i = Some p ->
      k_ptable s' !! i = Some (if bool_decide (p_state p = SLEEPING /\ p_chan p = ch)
                               then p <| p_state := RUNNABLE |> else p).
Proof.
  intros Hr Hlen. destruct (wakeup_Ok c cp ch s Hr Hlen) as (s' & E & Es). exists s'. split; [done|].
  intros i p Hi. rewrite (keq_proj k_ptable _ _ ltac:(done) Es). unfold wake. simpl.
  rewrite lookup_upd_where, Hi. simpl. unfold sleeps_on, is_state. by rewrite bool_decide_and.
Qed.

(** ** Handing over from a lock to the sleep

    A process that calls [sleep] in the critical section of [lk]. *)
Record in_section (lk : lockid) (c : nat) (cp : cpu) (i : nat) (s : kstate) : Prop := {
  is_run : running c cp s;
  is_ncli : cpu_ncli cp = 1;
  is_if : cpu_if cp = false;
  is_proc : cpu_proc cp = Some i;
  is_lock : lock_of s lk = MkLock 1 (Some c)
}.

(** Where it gives up the CPU to the scheduler: the table lock is held, [lk]
    is not, and the process sleeps. *)
Definition handed_over (c i : nat) (ch : chan) (lk : lockid) (s : kstate) : Prop :=
  lock_of s Lptable = MkLock 1 (Some c) /\ (lk <> Lptable -> lock_free s lk) /\
  exists p, k_ptable s !! i = Some p /\ p_state p = SLEEPING /\ p_chan p = ch.

(** The rest of [sleep] once the scheduler picked the process. *)
Definition resumes (i : nat) (lk : lockid) (k : kstate -> outcome waitfor kstate unit) : Prop :=
  forall c cp t q, in_ptable c cp i t -> (lk <> Lptable -> lock_free t lk) -> k_ptable t !! i = Some q ->
  exists t', k t = Ok tt t' /\ lock_of t' lk = MkLock 1 (Some c) /\ (lk <> Lptable -> lock_free t' Lptable) /\
    k_ptable t' !! i = Some (q <| p_chan := ChNull |>).

Lemma myproc_in_section lk c cp i s : in_section lk c cp i s -> myproc s = Ok (Some i) s.
Proof.
  intros [H1 H2 H3 H4 _]. assert (cpu_ok cp) by (split; [lia|done]).
  rewrite (myproc_Ok c cp) by done. rewrite H4, (touch_id c cp) by (done || lia). done.
Qed.

(** [sleep] from the assignment to [p->chan] on. *)
Definition sleep_off (ch : chan) (lk : lockid) (i : nat) : KM unit :=
  upd_p i (fun p => p <| p_chan := ch |>) ;;
  upd_p i (fun p => p <| p_state := SLEEPING |>) ;;
  sched ;;
  upd_p i (fun p => p <| p_chan := ChNull |>) ;;
  when (negb (bool_decide (lk = Lptable))) (
    release Lptable ;;
    acquire lk).

Lemma sleep_split lk c cp i ch s : in_section lk c cp i s ->
  sleep ch (Some lk) s = bind (when (negb (bool_decide (lk = Lptable))) (acquire Lptable ;; release lk)) (fun _ => sleep_off ch lk i) s.
Proof. intros H. unfold sleep. by rewrite (bind_Ok _ _ _ _ _ (myproc_in_section _ _ _ _ _ H)). Qed.

Lemma sleep_off_Susp c cp i p ch lk s : in_ptable c cp i s -> k_ptable s !! i = Some p ->
  exists k, sleep_off ch lk i s = Susp WSched (asleep i ch s) k /\ resumes i lk k.
Proof.
  intros H Hp. unfold sleep_off, upd_p. kx. rewrite ptable_comp. fold (asleep i ch s).
  destruct (sched_Susp c cp i (p <| p_chan := ch |> <| p_state := SLEEPING |>) (asleep i ch s))
    as (k & E & Hk); [by apply in_ptable_table| |done|].
  { unfold asleep. simpl. by rewrite list_lookup_alter_eq, Hp. }
  eexists. rewrite E. cbn [obind]. split; [reflexivity|]. intros c' cp' t q Ht Hlk Hq. cbv beta.
  rewrite (Hk c' cp' t Ht). cbn [obind].
  fold (woken c' (cpu_intena cp) i t). pose proof (woken_in_ptable c' cp' i (cpu_intena cp) t Ht) as Hw.
  assert (k_ptable (woken c' (cpu_intena cp) i t) !! i = Some (q <| p_chan := ChNull |>)) as Hq'.
  { unfold woken. simpl. by rewrite list_lookup_alter_eq, Hq. }
  case_bool_decide as Hl; cbn [negb when].
  { eexists. split; [reflexivity|]. subst lk. split; [apply Hw|done]. }
  rewrite (release_in_ptable _ _ _ _ Hw). cbn [obind].
  set (w := woken c' (cpu_intena cp) i t) in *.
  assert (ready c' (cpu_pop (cp' <| cpu_intena := cpu_intena cp |>)) lk (rel c' Lptable w)) as Hr.
  { destruct Ht as [_ Hn Hif _ _]. split_and!; [apply running_rel, Hw| |].
    - split; simpl; lia.
    - unfold lock_free. rewrite lock_of_rel_ne by done. by apply Hlk. }
  rewrite (acquire_ready _ _ _ _ Hr). eexists. split; [reflexivity|]. split; [apply lock_of_acq|]. split; [|done].
  intros _. unfold lock_free. rewrite lock_of_acq_ne by done. unfold rel, lock_of. simpl. by rewrite lookup_insert_eq.
Qed.

(** With both locks held, [lk] is released and the process is put to sleep. *)
Lemma sleep_hands_over c cp i p ch lk s : lk <> Lptable -> running c cp s -> cpu_ncli cp = 2 -> cpu_if cp = false -> cpu_proc cp = Some i ->
  lock_of s Lptable = MkLock 1 (Some c) -> lock_of s lk = MkLock 1 (Some c) -> k_ptable s !! i = Some p ->
  exists s1 k, bind (release lk) (fun _ => sleep_off ch lk i) s = Susp WSched s1 k /\ handed_over c i ch lk s1 /\ resumes i lk k.
Proof.
  intros Hne Hrun Hn Hif Hp Ht Hl Hi. rewrite (bind_Ok _ _ s tt (rel c lk s)); cycle 1.
  { apply (release_Ok c cp); [done|split; [lia|done]|lia|by rewrite Hl..]. }
  assert (in_ptable c (cpu_pop cp) i (rel c lk s)) as Hin.
  { split; [by apply running_rel|simpl; lia|simpl; by rewrite Hn|done|]. by rewrite lock_of_rel_ne. }
  destruct (sleep_off_Susp c (cpu_pop cp) i p ch lk (rel c lk s) Hin Hi) as (k & E & Hk).
  exists (asleep i ch (rel c lk s)), k. split_and!; [done| |done]. split; [apply Hin|]. split.
  - intros _. unfold lock_free, asleep, rel, lock_of. simpl. by rewrite lookup_insert_eq.
  - exists (p <| p_chan := ch |> <| p_state := SLEEPING |>). unfold asleep. simpl. by rewrite list_lookup_alter_eq, Hi.
Qed.

(** A wakeup finds a process that sleeps on the channel. *)
Lemma wakeup_finds c cp i ch t q : ready c cp Lptable t -> table_len t -> k_ptable t !! i = Some q ->
  p_state q = SLEEPING -> p_chan q = ch ->
  exists t', wakeup ch t = Ok tt t' /\ k_ptable t' !! i = Some (q <| p_state := RUNNABLE |>).
Proof.
  intros Hr Hlen Hq Hs Hch. destruct (wakeup_Ok c cp ch t Hr Hlen) as (t' & Et & Es). exists t'. split; [done|].
  rewrite (keq_proj k_ptable _ _ ltac:(done) Es). unfold wake. simpl. rewrite lookup_upd_where, Hq. simpl.
  unfold sleeps_on, is_state. by rewrite !bool_decide_true.
Qed.

(** C30: No wakeup is lost, whatever lock protects the condition that is
    slept on.  With the table lock free, or when it is the lock itself,
    [sleep] goes without a break from holding [lk] to the scheduler, where the
    process sleeps on the channel, the table lock is held and [lk] is not.
    When another CPU has the table lock, [sleep] waits for it with [lk] still
    held and the process unchanged, and goes on as before once it is free.  So
    whoever takes [lk] after that and calls [wakeup], in any state in which
    the process still sleeps, makes it runnable; picked again it returns from
    [sleep] off the channel and with [lk] held. *)
Theorem sleep_not_lost c cp i p ch lk s :
  in_section lk c cp i s -> k_ptable s !! i = Some p ->
  (lk = Lptable \/ lock_free s Lptable ->
     exists s1 k, sleep ch (Some lk) s = Susp WSched s1 k /\ handed_over c i ch lk s1 /\ resumes i lk k) /\
  (lk <> Lptable -> lk_locked (lock_of s Lptable) <> 0 -> lk_cpu (lock_of s Lptable) <> Some c ->
     exists s1 k, sleep ch (Some lk) s = Susp (WSpin Lptable) s1 k /\
       (forall l, lock_of s1 l = lock_of s l) /\ k_ptable s1 = k_ptable s /\
       forall t q, running c (cpu_push cp) t -> lk_locked (lock_of t Lptable) = 0 -> lock_of t lk = lock_of s lk -> k_ptable t !! i = Some q ->
         exists t1 k', k t = Susp WSched t1 k' /\ handed_over c i ch lk t1 /\ resumes i lk k') /\
  (forall c' cp' t q, ready c' cp' Lptable t -> table_len t -> k_ptable t !! i = Some q ->
     p_state q = SLEEPING -> p_chan q = ch ->
     exists t', wakeup ch t = Ok tt t' /\ k_ptable t' !! i = Some (q <| p_state := RUNNABLE |>)).
Proof.
  intros Hs Hp. split_and!; [..|intros c' cp' t q; apply wakeup_finds].
  - intros Hfree. rewrite (sleep_split _ _ _ _ _ _ Hs). destruct Hs as [H1 H2 H3 H4 H5]. case_bool_decide as Hl; cbn [negb when].
    + subst lk. kx. destruct (sleep_off_Susp c cp i p ch Lptable s ltac:(by split) Hp) as (k & E & Hk).
      exists (asleep i ch s), k. split; [exact E|]. split; [|done]. split; [done|]. split; [done|].
      exists (p <| p_chan := ch |> <| p_state := SLEEPING |>). unfold asleep. simpl. by rewrite list_lookup_alter_eq, Hp.
    + destruct Hfree as [|Hfree]; [done|]. assert (ready c cp Lptable s) as Hr by (split_and!; [done|split; [lia|done]|done]).
      rewrite (bind_bind _ _ _ _ _ _ (acquire_ready _ _ _ _ Hr)).
      apply (sleep_hands_over c (cpu_push cp) i p); [done|by apply running_acq|simpl; lia|done|done|apply lock_of_acq| |done].
      by rewrite lock_of_acq_ne.
  - intros Hl Hk Hc. rewrite (sleep_split _ _ _ _ _ _ Hs). destruct Hs as [H1 H2 H3 H4 H5]. rewrite bool_decide_false by done. cbn [negb when].
    destruct (acquire_waits c cp s Lptable H1 ltac:(split; [lia|done]) Hk Hc) as (k & E & Hk').
    rewrite (bind_Susp _ _ _ _ _ _ (bind_Susp _ _ _ _ _ _ E)). eexists _, _. split; [reflexivity|]. split; [done|]. split; [done|].
    intros t q Ht Hf Hlk Hpt. rewrite (Hk' _ t Ht eq_refl), Hf. cbn [Z.eqb obind].
    apply (sleep_hands_over c (cpu_push cp) i q); [done|done|simpl; lia|done|done|apply lock_of_insert| |done].
    rewrite <- H5, <- Hlk. unfold lock_of. simpl. by rewrite lookup_insert_ne.
Qed.

Lemma switchuvm_Ok c cp i p s :
  running c cp s -> cpu_if cp = false -> 0 < cpu_ncli cp -> k_ptable s !! i = Some p ->
  p_kstack p <> 0 -> p_pgdir p <> 0 ->
  switchuvm (Some i) s = Ok tt (on_cpu c (fun x => x <| cpu_esp0 := u32 (p_kstack p + KSTACKSIZE) |>
    <| cpu_cr3 := V2P (p_pgdir p) |>) s).
Proof.
  intros H Hif Hn Hp Hk Hg. unfold switchuvm. rewrite (bind_Ok _ _ _ _ _ (get_p_Ok _ _ _ Hp)).
  rewrite (proj2 (Z.eqb_neq _ _) Hk), (proj2 (Z.eqb_neq _ _) Hg).
  rewrite (bind_Ok _ _ _ _ _ (pushcli_Ok c cp s H)). cpu_run H cpu_push. cpu_step. cpu_step.
  set (g := fun x : cpu => x <| cpu_esp0 := u32 (p_kstack p + KSTACKSIZE) |>).
  cpu_run Hrun g. unfold lcr3. rewrite bind_bind with (a := c) (s' := on_cpu c g (on_cpu c cpu_push s));
    [|by apply (this_cpu_Ok _ (g (cpu_push cp)))].
  cpu_step. set (h := fun x : cpu => x <| cpu_cr3 := V2P (p_pgdir p) |>). cpu_run Hrun0 h.
  rewrite (popcli_Ok c (h (g (cpu_push cp)))); [|done|done|simpl; lia].
  f_equal. rewrite !on_cpu_comp. apply (on_cpu_ext c cp); [done|].
  transitivity (h (g (cpu_pop (cpu_push cp)))); [done|by rewrite cpu_pop_push_nested].
Qed.

(** The scheduler runs a runnable process whenever there is one: a pass
    over the table switches to the first runnable process, which is then
    marked as running on this CPU, with its page table and kernel stack
    loaded and the table lock held. *)
Theorem scheduler_runs_first c cp s i :
  running c cp s -> cpu_ncli cp = 0 -> lock_free s Lptable -> table_len s ->
  find_idx (is_state RUNNABLE) (k_ptable s) = Some i ->
  (forall p, k_ptable s !! i = Some p -> p_kstack p <> 0 /\ p_pgdir p <> 0) ->
  exists p s1 k, k_ptable s !! i = Some p /\ scheduler_pass c s = Susp (WRun i) s1 k /\
    k_ptable s1 = <[i := p <| p_state := RUNNING |>]> (k_ptable s) /\
    lock_of s1 Lptable = MkLock 1 (Some c) /\
    exists x, k_cpus s1 !! c = Some x /\ cpu_proc x = Some i /\ cpu_cr3 x = V2P (p_pgdir p) /\
      cpu_esp0 x = u32 (p_kstack p + KSTACKSIZE) /\ cpu_ncli x = 1.
Proof.
  intros H Hn Hl Hlen Hi Hmem. apply find_idx_Some in Hi as (p & Hp & Ht & Hbefore).
  destruct (Hmem p Hp) as [Hk Hg]. exists p. unfold scheduler_pass.
  rewrite (bind_Ok _ _ _ _ _ (sti_Ok c cp s H)). cpu_run H (fun x : cpu => x <| cpu_if := true |>).
  set (t := on_cpu c _ s) in *. set (cp1 := cp <| cpu_if := true |>) in *.
  assert (ready c cp1 Lptable t) as Hr.
  { split_and!; [done| |done]. split; simpl; lia. }
  rewrite (bind_Ok _ _ _ _ _ (acquire_ready _ _ _ _ Hr)).
  pose proof (running_acq c cp1 Lptable t Hrun) as Hrun1. set (t1 := acq c Lptable t) in *.
  pose proof (lookup_lt_Some _ _ _ Hp) as Hlt. unfold table_len in Hlen.
  assert (k_ptable t1 !! i = Some p) as Hp1 by done.
  rewrite (slots_split i) by lia. unfold bind at 1. rewrite for_each_skip; cycle 1.
  { intros j Hj%elem_of_seq. destruct (slot_lookup s j Hlen) as [q Hq]; [lia|].
    rewrite (bind_Ok _ _ _ _ _ (get_p_Ok _ _ t1 Hq)). by rewrite (Hbefore j q) by (done || lia). }
  rewrite (bind_bind _ _ _ _ _ _ (get_p_Ok _ _ t1 Hp1)). rewrite Ht. cbn [negb].
  set (g := fun x : cpu => x <| cpu_proc := Some i |>). cpu_run Hrun1 g.
  assert (upd_cpu c g t1 = Ok tt (on_cpu c g t1)) as Eg by done.
  rewrite (bind_bind _ _ _ _ _ _ Eg).
  rewrite (bind_bind _ _ _ _ _ _ (switchuvm_Ok c (g (cpu_push cp1)) i p (on_cpu c g t1)
    Hrun0 ltac:(done) ltac:(simpl; lia) Hp1 Hk Hg)).
  set (h := fun x : cpu => x <| cpu_esp0 := u32 (p_kstack p + KSTACKSIZE) |> <| cpu_cr3 := V2P (p_pgdir p) |>).
  cpu_run Hrun0 h. set (t2 := on_cpu c h (on_cpu c g t1)) in *.
  assert (upd_p i (fun p => p <| p_state := RUNNING |>) t2
          = Ok tt (set k_ptable (alter (fun p => p <| p_state := RUNNING |>) i) t2)) as Eu by done.
  rewrite (bind_bind _ _ _ _ _ _ Eu). eexists _, _. split; [done|]. split; [reflexivity|].
  split; [|split].
  - simpl. change (k_ptable t2) with (k_ptable s). apply list_eq. intros j.
    destruct (decide (j = i)) as [->|Hne].
    + by rewrite list_lookup_alter_eq, Hp, list_lookup_insert_eq.
    + by rewrite list_lookup_alter_ne, list_lookup_insert_ne.
  - change (lock_of t1 Lptable = MkLock 1 (Some c)). apply lock_of_acq.
  - exists (h (g (cpu_push cp1))). split; [apply Hrun2|]. simpl. split_and!; [done..|]. lia.
Qed.

Definition sched_procs : list proc :=
  [demo_proc 1 RUNNING ChNull; demo_proc 2 SLEEPING ChTicks; demo_proc 3 RUNNABLE ChNull].

Lemma process_table_invariant_witness :
  (exists r s', allocproc (demo sched_procs) = Ok r s' /\ table_ok s') /\
  (forall pid, exists r s', kill pid (demo sched_procs) = Ok r s' /\ table_ok s') /\
  (forall ch, exists s', wakeup ch (demo sched_procs) = Ok tt s' /\ table_ok s').
Proof.
  apply (process_table_invariant 0 demo_cpu (demo sched_procs) []); [apply demo_ready| |done| |].
  - apply (pids_ok_prefix 4 [1; 2; 3] 61); [done|apply (bool_decide_unpack _); by vm_compute|repeat constructor|done].
  - exists 0%nat, demo_cpu. by left.
  - by split; [|constructor|constructor].
Defined.

(** Process 1 in the critical section of [tickslock], on CPU 0. *)
Definition in_ticks : kstate := acq 0 Ltickslock (demo sched_procs).

Lemma sleep_not_lost_witness :
  exists s1 k, sleep ChTicks (Some Ltickslock) in_ticks = Susp WSched s1 k /\
    lock_of s1 Lptable = MkLock 1 (Some 0%nat) /\ lock_free s1 Ltickslock /\
    exists p, k_ptable s1 !! 0%nat = Some p /\ p_state p = SLEEPING /\ p_chan p = ChTicks.
Proof.
  destruct (sleep_not_lost 0 (cpu_push demo_cpu) 0 (demo_proc 1 RUNNING ChNull) ChTicks Ltickslock in_ticks) as (H & _).
  - split; [apply running_acq, (demo_ready _ Ltickslock)|done|done|done|apply lock_of_acq].
  - done.
  - destruct H as (s1 & k & E & (H1 & H2 & H3) & _); [right; reflexivity|].
    exists s1, k. split; [exact E|]. split; [exact H1|]. split; [by apply H2|exact H3].
Defined.

Lemma scheduler_runs_first_witness :
  exists p s1 k, k_ptable (demo sched_procs) !! 2%nat = Some p /\
    scheduler_pass 0 (demo sched_procs) = Susp (WRun 2) s1 k /\
    k_ptable s1 = <[2%nat := p <| p_state := RUNNING |>]> (k_ptable (demo sched_procs)) /\
    lock_of s1 Lptable = MkLock 1 (Some 0%nat) /\
    exists x, k_cpus s1 !! 0%nat = Some x /\ cpu_proc x = Some 2%nat /\ cpu_cr3 x = V2P (p_pgdir p) /\
      cpu_esp0 x = u32 (p_kstack p + KSTACKSIZE) /\ cpu_ncli x = 1.
Proof.
  apply (scheduler_runs_first 0 demo_cpu); [apply (demo_ready _ Lptable)|done..|].
  by intros p [= <-].
Defined.
