(* ===== verification/Ipc.v ===== *)
(** * Messages and signals between processes (proc.c, lines 584-850)

    Each process has a ring of [NUM_MSG] unicast messages, a ring of as many
    multicast messages, and a ring of [MAX_SIG] pending signals.
    [handle_signals] runs on the way back to user mode (trapasm.S, [trapret])
    and builds, on the user stack, the frame of the process's handler;
    [ret_signal] undoes it.  Rings are empty when head and tail are equal, and
    nothing checks that they are full. *)

From stdpp Require Import base numbers list list_numbers gmap strings.
From S2P Require Import Prelude Kmonad Params Ring Kstate Spinlock KString Kalloc Cprintf Vm Umem Demo Sched.

Local Open Scope Z_scope.

(** ** The trap frame in memory: 19 words, little-endian *)

Definition half2 (lo hi : Z) : list Z := le_bytes 2 lo ++ le_bytes 2 hi.

Definition tf_bytes (tf : trapframe) : list Z :=
  le_bytes 4 (tf_edi tf) ++ le_bytes 4 (tf_esi tf) ++ le_bytes 4 (tf_ebp tf) ++
  le_bytes 4 (tf_oesp tf) ++ le_bytes 4 (tf_ebx tf) ++ le_bytes 4 (tf_edx tf) ++
  le_bytes 4 (tf_ecx tf) ++ le_bytes 4 (tf_eax tf) ++
  half2 (tf_gs tf) (tf_padding1 tf) ++ half2 (tf_fs tf) (tf_padding2 tf) ++
  half2 (tf_es tf) (tf_padding3 tf) ++ half2 (tf_ds tf) (tf_padding4 tf) ++
  le_bytes 4 (tf_trapno tf) ++ le_bytes 4 (tf_err tf) ++ le_bytes 4 (tf_eip tf) ++
  half2 (tf_cs tf) (tf_padding5 tf) ++ le_bytes 4 (tf_eflags tf) ++
  le_bytes 4 (tf_esp tf) ++ half2 (tf_ss tf) (tf_padding6 tf).

Definition tf_of_bytes (bs : list Z) : trapframe :=
  (let w i := get_u32 bs (4 * i) in
  let lo i := get_u16 bs (4 * i) in
  let hi i := get_u16 bs (4 * i + 2) in
  MkTf (w 0) (w 1) (w 2) (w 3) (w 4) (w 5) (w 6) (w 7)
    (lo 8) (hi 8) (lo 9) (hi 9) (lo 10) (hi 10) (lo 11) (hi 11)
    (w 12) (w 13) (w 14) (lo 15) (hi 15) (w 16) (w 17) (lo 18) (hi 18))%nat.

(** ** The code *)

(** An [int] used as an array index. *)
Definition index (n i : Z) : KM nat :=
  if (0 <=? i) && (i <? n) then ret (Z.to_nat i) else undef "array index".

(** [messages[tail] = m; sender_id[tail] = sender; tail = (tail+1)%NUM_MSG]. *)
Definition put_message (sender : Z) (m : list Z) (q : message_list) : KM message_list :=
  let* t := index NUM_MSG (ml_tail q) in
  ret (q <| ml_messages := <[t := m]> (ml_messages q) |>
         <| ml_sender_id := <[t := sender]> (ml_sender_id q) |>
         <| ml_tail := Z.rem (ml_tail q + 1) NUM_MSG |>).

Definition send_mess (sender_pid rec_pid mess : Z) : KM Z :=
  acquire Lptable ;;
  let* success := for_fold proc_slots (-1) (fun success i =>
    let* p := get_p i in
    if p_pid p =? rec_pid then
      let* m := uloads mess 8 in
      let* q := put_message sender_pid m (p_recv_queue p) in
      upd_p i (fun p => p <| p_recv_queue := q |>) ;;
      wakeup1 (p_chan p) ;;
      ret 1
    else ret success) in
  release Lptable ;;
  if success =? 1 then ret 0 else ret (-1).

(** The [while(1)] loop of [recv_mess] for process [i]; [fuel] bounds the
    number of times it is woken up. *)
Fixpoint recv_loop (fuel : nat) (i : nat) (mess : Z) : KM unit :=
  let* p := get_p i in
  let q := p_recv_queue p in
  if ml_head q =? ml_tail q then
    sleep (ChRecvQueue i) (Some Lptable) ;;
    match fuel with O => nofuel | S fuel => recv_loop fuel i mess end
  else
    let* h := index NUM_MSG (ml_head q) in
    ustores mess (ml_messages q !!! h) ;;
    upd_p i (fun p => p <| p_recv_queue := (p_recv_queue p)
                             <| ml_head := Z.rem (ml_head q + 1) NUM_MSG |> |>).

Definition recv_mess (fuel : nat) (rec_pid mess : Z) : KM Z :=
  acquire Lptable ;;
  let* success := for_fold proc_slots (-1) (fun success i =>
    let* p := get_p i in
    if p_pid p =? rec_pid then recv_loop fuel i mess ;; ret 1 else ret success) in
  release Lptable ;;
  if success =? 1 then ret 0 else ret (-1).

Definition set_signal (h : Z) : KM unit :=
  let* i := curproc in
  acquire Lptable ;;
  upd_p i (fun p => p <| p_handler := h |>) ;;
  release Lptable.

(** [sig_num[tail] = signum; s_pid[tail] = sender; tail = (tail+1)%MAX_SIG]. *)
Definition put_signal (signum sender : Z) (g : signals) : KM signals :=
  let* t := index MAX_SIG (sg_tail g) in
  ret (g <| sg_sig_num := <[t := signum]> (sg_sig_num g) |>
         <| sg_s_pid := <[t := sender]> (sg_s_pid g) |>
         <| sg_tail := Z.rem (sg_tail g + 1) MAX_SIG |>).

Definition send_signal (to_pid signum : Z) : KM unit :=
  let* me := curproc in
  let* myp := get_p me in
  let sender_pid := p_pid myp in
  for_each proc_slots (fun i =>
    let* p := get_p i in
    if p_pid p =? to_pid then
      let* g := put_signal signum sender_pid (p_pending_signals p) in
      upd_p i (fun p => p <| p_pending_signals := g |>) ;;
      wakeup1 (p_chan p)
    else ret tt).

(** The bodies of the two loops of [send_multicast]: recipient number [i]
    and process slot [j]. *)
Definition mcast_slot (sender_pid rec_pids msg i success : Z) (j : nat) : KM Z :=
  let* p := get_p j in
  let* r := uload32 (rec_pids + 4 * i) in
  if p_pid p =? i32 r then
    let* m := uloads msg 8 in
    let* q := put_message sender_pid m (p_recv_multi_queue p) in
    upd_p j (fun p => p <| p_recv_multi_queue := q |>) ;;
    send_signal (p_pid p) 1 ;;
    ret 1
  else ret success.

Definition mcast_body (sender_pid rec_pids msg success i : Z) : KM Z :=
  acquire Lptable ;;
  let* success := for_fold proc_slots success (mcast_slot sender_pid rec_pids msg i) in
  release Lptable ;;
  ret success.

Definition send_multicast (sender_pid rec_pids msg length : Z) : KM Z :=
  let* success := for_fold (seqZ 0 length) (-1) (mcast_body sender_pid rec_pids msg) in
  if success =? 1 then ret 0 else ret (-1).

(** [&sigret_code_end - &sigret_code_start]. *)
Definition codesize (ln : linkmap) : Z := Z.of_nat (length (ln_sigret_code ln)).

Definition ret_signal : KM unit :=
  acquire Lptable ;;
  let* i := curproc in
  let* p := get_p i in
  let* ln := gets k_link in
  let original_trapframe := u32 (u32 (tf_esp (p_tf p) + 12) + codesize ln) in
  let* bs := uloads original_trapframe (Z.to_nat TRAPFRAME_SIZE) in
  upd_p i (fun p => p <| p_tf := tf_of_bytes bs |>) ;;
  upd_p i (fun p => p <| p_handling := 0 |>) ;;
  release Lptable.

Definition pause_signal : KM unit :=
  let* i := curproc in
  acquire Lptable ;;
  let* p := get_p i in
  when (sg_head (p_pending_signals p) =? sg_tail (p_pending_signals p))
    (sleep (ChPendingSignals i) (Some Lptable)) ;;
  release Lptable.

Definition handle_signals (tf : trapframe) : KM unit :=
  let* o := myproc in
  match o with
  | None => ret tt
  | Some i =>
      let* p := get_p i in
      if p_handling p =? 1 then ret tt else
      if negb (Z.land (tf_cs tf) 3 =? DPL_USER) then ret tt else
      if sg_head (p_pending_signals p) =? sg_tail (p_pending_signals p) then ret tt else
      upd_p i (fun p => p <| p_handling := 1 |>) ;;
      let sp := u32 (tf_esp (p_tf p) - TRAPFRAME_SIZE) in
      ustores sp (tf_bytes (p_tf p)) ;;
      let* ln := gets k_link in
      let sp := u32 (sp - codesize ln) in
      let code_pointer := sp in
      ustores sp (ln_sigret_code ln) ;;
      let sp := u32 (sp - 8) in
      let* h := index NUM_MSG (ml_head (p_recv_multi_queue p)) in
      let m := ml_messages (p_recv_multi_queue p) !!! h in
      upd_p i (fun p => p <| p_recv_multi_queue := (p_recv_multi_queue p)
        <| ml_head := Z.rem (ml_head (p_recv_multi_queue p) + 1) NUM_MSG |> |>) ;;
      ustores sp m ;;
      ustore32 (u32 (sp - 4)) sp ;;
      ustore32 (u32 (sp - 8)) code_pointer ;;
      let sp := u32 (sp - 8) in
      upd_p i (fun p => p <| p_tf := (p_tf p) <| tf_esp := sp |> <| tf_eip := p_handler p |> |>) ;;
      upd_p i (fun p => p <| p_pending_signals := (p_pending_signals p)
        <| sg_head := Z.rem (sg_head (p_pending_signals p) + 1) MAX_SIG |> |>)
  end.

(** ** The queues as sequences *)

Record ring_ok (q : message_list) : Prop := {
  ro_head : 0 <= ml_head q < NUM_MSG;
  ro_tail : 0 <= ml_tail q < NUM_MSG;
  ro_senders : length (ml_sender_id q) = Z.to_nat NUM_MSG;
  ro_messages : length (ml_messages q) = Z.to_nat NUM_MSG;
  ro_size : Forall (fun m => length m = Z.to_nat MSGSIZE) (ml_messages q)
}.

Definition slot (q : message_list) (i : Z) : Z * list Z :=
  (ml_sender_id q !!! Z.to_nat i, ml_messages q !!! Z.to_nat i).

(** Sender and text of the messages waiting in a queue, oldest first. *)
Definition pending (q : message_list) : list (Z * list Z) :=
  items NUM_MSG (slot q) (ml_head q) (ml_tail q).

Record sig_ok (g : signals) : Prop := {
  so_head : 0 <= sg_head g < MAX_SIG;
  so_tail : 0 <= sg_tail g < MAX_SIG;
  so_nums : length (sg_sig_num g) = Z.to_nat MAX_SIG;
  so_pids : length (sg_s_pid g) = Z.to_nat MAX_SIG
}.

(** Number and sender of the pending signals, oldest first. *)
Definition sig_slot (g : signals) (i : Z) : Z * Z :=
  (sg_sig_num g !!! Z.to_nat i, sg_s_pid g !!! Z.to_nat i).
Definition sig_pending (g : signals) : list (Z * Z) :=
  items MAX_SIG (sig_slot g) (sg_head g) (sg_tail g).

Lemma index_Ok n i s : 0 <= i < n -> index n i s = Ok (Z.to_nat i) s.
Proof. intros H. unfold index. assert ((0 <=? i) && (i <? n) = true) as -> by lia. done. Qed.

(** The queue after [put_message]. *)
Definition pushed (sender : Z) (m : list Z) (q : message_list) : message_list :=
  q <| ml_messages := <[Z.to_nat (ml_tail q) := m]> (ml_messages q) |>
    <| ml_sender_id := <[Z.to_nat (ml_tail q) := sender]> (ml_sender_id q) |>
    <| ml_tail := (ml_tail q + 1) mod NUM_MSG |>.

Lemma put_message_Ok sender m q s :
  ring_ok q -> put_message sender m q s = Ok (pushed sender m q) s.
Proof.
  intros [Hh Ht _ _ _]. unfold put_message, pushed. kx (index_Ok NUM_MSG (ml_tail q) s Ht).
  rewrite Z.rem_mod_nonneg by (unfold NUM_MSG; lia). done.
Qed.

Lemma pushed_ok sender m q : ring_ok q -> length m = Z.to_nat MSGSIZE -> ring_ok (pushed sender m q).
Proof.
  intros [Hh Ht H1 H2 H3] Hm. split; simpl; rewrite ?length_insert; try done.
  - apply Z.mod_pos_bound. done.
  - by apply Forall_insert.
Qed.

(** A message put in a queue with fewer than 31 messages goes to its end;
    put in a queue with 31 messages it makes the queue empty. *)
Lemma pending_pushed sender m q :
  ring_ok q ->
  pending (pushed sender m q)
  = if decide (length (pending q) < 31)%nat then pending q ++ [(sender, m)] else [].
Proof.
  intros [Hh Ht H1 H2 _]. unfold pending.
  pose proof (length_items NUM_MSG ltac:(done) (slot q) (ml_head q) (ml_tail q)) as L.
  pose proof (used_range NUM_MSG ltac:(done) (ml_head q) (ml_tail q)) as Hu.
  assert (NUM_MSG = 32) as E32 by done. case_decide as Hd.
  - unfold pushed at 2 3. simpl ml_head. simpl ml_tail.
    rewrite (items_push NUM_MSG ltac:(done) (slot q)); [|done|lia|].
    + f_equal. f_equal. unfold slot, pushed. simpl.
      rewrite !list_lookup_total_insert_eq; [done|..]; lia.
    + intros i Hi Hne. unfold slot, pushed. simpl.
      by rewrite !list_lookup_total_insert_ne by lia.
  - unfold pushed at 2 3. simpl ml_head. simpl ml_tail. apply items_overflow; [done|]. lia.
Qed.

(** ** send_mess *)

(** Entries keep their pid when others are woken or an entry is replaced by
    one with the same pid. *)
Lemma wake_only_pid ch t pid i : only_pid t pid i -> only_pid (wake ch t) pid i.
Proof.
  intros H j q Hj Hq. unfold wake in Hj. rewrite lookup_upd_where in Hj.
  apply fmap_Some in Hj as (q0 & Hj & ->). apply (H j q0 Hj).
  by destruct (sleeps_on ch q0).
Qed.

Lemma alter_only_pid f t pid i k :
  (forall p, p_pid (f p) = p_pid p) -> only_pid t pid i -> only_pid (alter f k t) pid i.
Proof.
  intros Hf H j q Hj Hq. destruct (decide (k = j)) as [->|Hne].
  - rewrite list_lookup_alter_eq in Hj. apply fmap_Some in Hj as (q0 & Hj & ->).
    rewrite Hf in Hq. by apply (H j q0).
  - rewrite list_lookup_alter_ne in Hj by done. by apply (H j q).
Qed.
#[export] Hint Resolve wake_only_pid alter_only_pid : kern.

Lemma wake_len ch t : length (wake ch t) = length t.
Proof. apply length_map. Qed.

(** The table after a message was put in the queue of process [i]. *)
Definition delivered (i : nat) (p : proc) (sender : Z) (m : list Z) (t : list proc) : list proc :=
  wake (p_chan p) (alter (fun p => p <| p_recv_queue := pushed sender m (p_recv_queue p) |>) i t).

Lemma pid_skip {A} (act : proc -> KM A) (a : A) pid i s j :
  table_len s -> only_pid (k_ptable s) pid i -> (i < NPROC)%nat ->
  j ∈ slots_before i ++ slots_after i ->
  (let* p := get_p j in if p_pid p =? pid then act p else ret a) s = Ok a s.
Proof.
  intros Hlen Ho Hi Hj. destruct (slot_ne_lookup s i j Hlen Hj Hi) as (Hne & q & Hq).
  kx (get_p_Ok _ _ _ Hq). destruct (Z.eqb_spec (p_pid q) pid) as [E|E]; [|done].
  by destruct (Hne (Ho j q Hq E)).
Qed.

(** A scan for a pid held by slot [i] only acts on that slot. *)
Lemma pid_scan {A} (act : nat -> proc -> KM A) (a : A) pid i p s b s1 :
  table_len s -> only_pid (k_ptable s) pid i -> k_ptable s !! i = Some p -> p_pid p = pid ->
  act i p s = Ok b s1 -> table_len s1 -> only_pid (k_ptable s1) pid i ->
  for_fold proc_slots a (fun a j =>
    let* p := get_p j in if p_pid p =? pid then act j p else ret a) s = Ok b s1.
Proof.
  intros Hlen Ho Hi Hp Ha Hlen1 Ho1.
  assert (i < NPROC)%nat as Hlt by (rewrite <- Hlen; by eapply lookup_lt_Some).
  rewrite (slots_split i Hlt), for_fold_skip.
  - kx (get_p_Ok _ _ _ Hi). rewrite Hp, Z.eqb_refl. kx Ha.
    apply for_fold_inert. intros j Hj. apply (pid_skip (act j) b pid i); [done..|].
    apply elem_of_app. by right.
  - intros j Hj. apply (pid_skip (act j) a pid i); [done..|].
    apply elem_of_app. by left.
Qed.

Lemma pid_scan_none {A} (act : nat -> proc -> KM A) (a : A) pid s :
  table_len s -> (forall j q, k_ptable s !! j = Some q -> p_pid q <> pid) ->
  for_fold proc_slots a (fun a j =>
    let* p := get_p j in if p_pid p =? pid then act j p else ret a) s = Ok a s.
Proof.
  intros Hlen Hno. apply for_fold_inert. intros j Hj. apply elem_of_seq in Hj.
  destruct (slot_lookup s j Hlen) as [q Hq]; [lia|]. kx (get_p_Ok _ _ _ Hq).
  destruct (Z.eqb_spec (p_pid q) pid) as [E|E]; [|done]. by destruct (Hno j q Hq).
Qed.

(** [send_mess] to a live pid puts the 8 bytes at [mess] in its queue and
    wakes whoever sleeps on the same channel as the receiver. *)
Lemma send_mess_Ok c cp s sender pid mess i p :
  ready c cp Lptable s -> table_len s ->
  k_ptable s !! i = Some p -> p_pid p = pid -> only_pid (k_ptable s) pid i ->
  ring_ok (p_recv_queue p) -> ureadable (k_mem s) (cpu_cr3 cp) mess 8 ->
  exists s', send_mess sender pid mess s = Ok 0 s' /\
    s' ≡ₖ set k_ptable (delivered i p sender (ubytes (k_mem s) (cpu_cr3 cp) mess 8)) s.
Proof.
  intros Hr Hlen Hi Hp Ho Hq Hu. set (m := ubytes _ _ _ _).
  unfold send_mess. rewrite (bind_Ok _ _ _ _ _ (acquire_ready _ _ _ _ Hr)).
  pose proof (running_acq _ _ Lptable _ (proj1 Hr)) as Hrun.
  set (s1 := acq c Lptable (set k_ptable (delivered i p sender m) s)).
  erewrite (bind_Ok (for_fold _ _ _)); cycle 1.
  { eapply (pid_scan _ _ pid i p _ 1 s1); [done..| | |].
    - kx (uloads_Ok c _ _ mess 8 Hrun Hu).
      rewrite put_message_Ok by done. unfold upd_p. kx.
      rewrite wakeup1_Ok; [|unfold table_len; simpl; by rewrite length_alter]. kx.
      unfold s1, delivered. rewrite <- acq_ptable. f_equal. unfold set, set_k_ptable. simpl.
      f_equal. f_equal. apply list_alter_ext; [|done]. intros q Hq'. by simplify_eq.
    - unfold table_len, s1, delivered. simpl. by rewrite wake_len, length_alter.
    - unfold s1, delivered. simpl. apply wake_only_pid, alter_only_pid; [done|exact Ho]. }
  destruct (release_acq c cp Lptable (set k_ptable (delivered i p sender m) s)) as (s' & E & Es);
    [done|].
  kx E. by exists s'.
Qed.

(** With no process of that pid nothing happens and the result is -1. *)
Lemma send_mess_no_pid c cp s sender pid mess :
  ready c cp Lptable s -> table_len s ->
  (forall j q, k_ptable s !! j = Some q -> p_pid q <> pid) ->
  exists s', send_mess sender pid mess s = Ok (-1) s' /\ s' ≡ₖ s.
Proof.
  intros Hr Hlen Hno. unfold send_mess.
  rewrite (bind_Ok _ _ _ _ _ (acquire_ready _ _ _ _ Hr)).
  rewrite (bind_Ok (for_fold _ _ _) _ _ (-1) (acq c Lptable s)) by by apply pid_scan_none.
  destruct (release_acq c cp Lptable s Hr) as (s' & E & Es). kx E. by exists s'.
Qed.

(** ** recv_mess *)

(** The queue after its first message was taken. *)
Definition popped (q : message_list) : message_list :=
  q <| ml_head := (ml_head q + 1) mod NUM_MSG |>.

Lemma popped_ok q : ring_ok q -> ring_ok (popped q).
Proof.
  intros [Hh Ht H1 H2 H3]. split; simpl; try done. apply Z.mod_pos_bound. done.
Qed.

Lemma pending_popped q :
  ring_ok q -> ml_head q <> ml_tail q ->
  pending q = (ml_sender_id q !!! Z.to_nat (ml_head q), ml_messages q !!! Z.to_nat (ml_head q))
              :: pending (popped q).
Proof. intros [Hh Ht _ _ _] Hne. unfold pending. by rewrite items_pop. Qed.

Lemma pending_nil q : ring_ok q -> pending q = [] <-> ml_head q = ml_tail q.
Proof. intros [Hh Ht _ _ _]. by apply items_nil. Qed.

Lemma head_message_size q : ring_ok q -> length (ml_messages q !!! Z.to_nat (ml_head q)) = 8%nat.
Proof.
  intros [Hh Ht _ H2 H3].
  destruct (lookup_lt_is_Some_2 (ml_messages q) (Z.to_nat (ml_head q))) as [m Hm];
    [rewrite H2; unfold NUM_MSG in *; lia|].
  rewrite (list_lookup_total_correct _ _ _ Hm). by apply (Forall_lookup_1 _ _ _ _ H3 Hm).
Qed.

(** The state after a message was handed to process [i] at address [mess]. *)
Definition handed (i : nat) (pd mess : Z) (q : message_list) (s : kstate) : kstate :=
  set k_ptable (alter (fun p => p <| p_recv_queue := popped (p_recv_queue p) |>) i)
    (set k_mem (fun m => uputs m pd mess (ml_messages q !!! Z.to_nat (ml_head q))) s).

Section recv.
Context (T : Z -> Prop) (i : nat) (mess : Z).

(** What the receiver needs: its buffer can be written. *)
Definition buffer_ok (cp : cpu) (s : kstate) : Prop :=
  uspace_in T (k_mem s) (cpu_cr3 cp) /\ uwritable (k_mem s) (cpu_cr3 cp) mess 8.

Lemma recv_loop_Ok fuel c cp p s :
  running c cp s -> buffer_ok cp s -> k_ptable s !! i = Some p ->
  ring_ok (p_recv_queue p) -> ml_head (p_recv_queue p) <> ml_tail (p_recv_queue p) ->
  recv_loop fuel i mess s = Ok tt (handed i (cpu_cr3 cp) mess (p_recv_queue p) s).
Proof.
  intros Hrun [HT Hw] Hi Hq Hne.
  destruct fuel; cbn [recv_loop]; kx (get_p_Ok _ _ _ Hi);
    (destruct (Z.eqb_spec (ml_head (p_recv_queue p)) (ml_tail (p_recv_queue p))); [done|]);
    kx (index_Ok NUM_MSG _ s (ro_head _ Hq));
    (rewrite (ustores_Ok T c cp) by (rewrite ?head_message_size; done)); unfold upd_p; kx;
    f_equal; unfold handed; (apply (ptable_ext _ _ _ p); [done|]); unfold popped;
    (rewrite Z.rem_mod_nonneg by (destruct Hq; unfold NUM_MSG in *; lia)); done.
Qed.

Lemma recv_loop_Susp fuel c cp p s :
  in_ptable c cp i s -> k_ptable s !! i = Some p ->
  ml_head (p_recv_queue p) = ml_tail (p_recv_queue p) ->
  exists k, recv_loop (S fuel) i mess s = Susp WSched (asleep i (ChRecvQueue i) s) k /\
    forall c' cp' s', in_ptable c' cp' i s' ->
      k s' = recv_loop fuel i mess (woken c' (cpu_intena cp) i s').
Proof.
  intros H Hi E. cbn [recv_loop]. kx (get_p_Ok _ _ _ Hi). rewrite E, Z.eqb_refl.
  destruct (sleep_Susp c cp i p (ChRecvQueue i) s H Hi) as (k & Es & Hk).
  rewrite Es. cbn [obind]. eexists. split; [reflexivity|]. cbv beta.
  intros c' cp' s' H'. by rewrite (Hk c' cp' s' H').
Qed.
End recv.

(** [recv_mess] with a message waiting: the oldest one is copied to [mess]. *)
Lemma recv_mess_Ok T fuel c cp s pid mess i p :
  ready c cp Lptable s -> table_len s ->
  k_ptable s !! i = Some p -> p_pid p = pid -> only_pid (k_ptable s) pid i ->
  ring_ok (p_recv_queue p) -> ml_head (p_recv_queue p) <> ml_tail (p_recv_queue p) ->
  buffer_ok T mess cp s ->
  exists s', recv_mess fuel pid mess s = Ok 0 s' /\
    s' ≡ₖ handed i (cpu_cr3 cp) mess (p_recv_queue p) s.
Proof.
  intros Hr Hlen Hi Hp Ho Hq Hne Hb. unfold recv_mess.
  rewrite (bind_Ok _ _ _ _ _ (acquire_ready _ _ _ _ Hr)).
  pose proof (running_acq _ _ Lptable _ (proj1 Hr)) as Hrun.
  set (s1 := handed i (cpu_cr3 cp) mess (p_recv_queue p) s).
  erewrite (bind_Ok (for_fold _ _ _)); cycle 1.
  { eapply (pid_scan _ _ pid i p _ 1 (acq c Lptable s1)); [done..| | |].
    - kx (recv_loop_Ok T i mess fuel c (cpu_push cp) p (acq c Lptable s) Hrun Hb Hi Hq Hne). done.
    - unfold table_len, s1, handed. simpl. by rewrite length_alter.
    - unfold s1, handed. simpl. by apply alter_only_pid. }
  destruct (release_acq c cp Lptable s1) as (s' & E & Es); [done|].
  kx E. by exists s'.
Qed.

(** With no message waiting the receiver goes to sleep on its queue; when it
    is picked again and finds a message, it takes it and returns 0. *)
Lemma recv_mess_waits T fuel c cp s pid mess i p :
  ready c cp Lptable s -> cpu_ncli cp = 0 -> cpu_proc cp = Some i -> table_len s ->
  k_ptable s !! i = Some p -> p_pid p = pid -> only_pid (k_ptable s) pid i ->
  ml_head (p_recv_queue p) = ml_tail (p_recv_queue p) ->
  exists k, recv_mess (S fuel) pid mess s
    = Susp WSched (acq c Lptable (asleep i (ChRecvQueue i) s)) k /\
    forall c' cp' s' p',
      in_ptable c' cp' i s' -> table_len s' -> only_pid (k_ptable s') pid i ->
      k_ptable s' !! i = Some p' -> ring_ok (p_recv_queue p') ->
      ml_head (p_recv_queue p') <> ml_tail (p_recv_queue p') -> buffer_ok T mess cp' s' ->
      exists v, k s' = Ok 0 (rel c' Lptable
        (handed i (cpu_cr3 cp') mess (p_recv_queue p') (woken c' v i s'))).
Proof.
  intros Hr Hn Hc Hlen Hi Hp Ho E. unfold recv_mess.
  rewrite (bind_Ok _ _ _ _ _ (acquire_ready _ _ _ _ Hr)).
  pose proof (acq_in_ptable _ _ _ _ Hr Hn Hc) as Hin.
  assert (i < NPROC)%nat as Hlt by (rewrite <- Hlen; by eapply lookup_lt_Some).
  unfold bind at 1. rewrite (slots_split i Hlt), for_fold_skip.
  2: { intros j Hj. apply (pid_skip _ _ pid i); [done..|]. apply elem_of_app. by left. }
  kx (get_p_Ok i p (acq c Lptable s) Hi). rewrite Hp, Z.eqb_refl.
  destruct (recv_loop_Susp i mess fuel c (cpu_push cp) p _ Hin Hi E) as (k & Ek & Hk).
  rewrite Ek. cbn [obind]. eexists. split; [reflexivity|]. cbv beta.
  intros c' cp' s' p' H' Hlen' Ho' Hi' Hq' Hne' Hb'. exists (cpu_intena (cpu_push cp)).
  rewrite (Hk c' cp' s' H'). set (s2 := woken c' (cpu_intena (cpu_push cp)) i s').
  pose proof (woken_in_ptable c' cp' i (cpu_intena (cpu_push cp)) s' H') as H2. fold s2 in H2.
  assert (k_ptable s2 !! i = Some (p' <| p_chan := ChNull |>)) as Hi2.
  { unfold s2, woken. simpl. by rewrite list_lookup_alter_eq, Hi'. }
  rewrite (recv_loop_Ok T i mess fuel c' _ _ s2 (ip_run _ _ _ _ H2) Hb' Hi2 Hq' Hne'). kx.
  rewrite for_fold_inert.
  2: { intros j Hj. eapply (pid_skip _ _ pid i); [| |done|].
       - unfold table_len, handed, s2, woken. simpl. by rewrite !length_alter.
       - unfold handed, s2, woken. simpl. by repeat apply alter_only_pid.
       - apply elem_of_app. by right. }
  kx. rewrite (release_in_ptable c' (cp' <| cpu_intena := cpu_intena (cpu_push cp) |>) i); [done|].
  unfold handed. apply in_ptable_table. by apply in_ptable_mem.
Qed.

(** The receiver, if it sleeps, becomes runnable. *)
Lemma delivered_wakes i p f t :
  t !! i = Some p -> p_chan (f p) = p_chan p -> p_state (f p) = p_state p -> p_state p = SLEEPING ->
  exists q, wake (p_chan p) (alter f i t) !! i = Some q /\ p_state q = RUNNABLE.
Proof.
  intros Hi Hc Hf Hs. eexists. unfold wake. rewrite lookup_upd_where, list_lookup_alter_eq, Hi. simpl.
  split; [reflexivity|]. unfold sleeps_on, is_state. rewrite Hf, Hc.
  by rewrite !bool_decide_true.
Qed.

(** ** The properties *)

(** The messages waiting for the process in slot [i]. *)
Definition mailbox (s : kstate) (i : nat) : list (Z * list Z) :=
  match k_ptable s !! i with Some p => pending (p_recv_queue p) | None => [] end.

Lemma mailbox_delivered i p sender m t j s :
  t !! i = Some p -> ring_ok (p_recv_queue p) ->
  mailbox (s <| k_ptable := delivered i p sender m t |>) j
  = if decide (i = j)
    then if decide (length (mailbox (s <| k_ptable := t |>) i) < 31)%nat
         then mailbox (s <| k_ptable := t |>) i ++ [(sender, m)] else []
    else mailbox (s <| k_ptable := t |>) j.
Proof.
  intros Hi Hq. unfold mailbox, delivered, wake. simpl. rewrite lookup_upd_where, Hi.
  case_decide as E.
  - subst j. rewrite list_lookup_alter_eq, Hi. simpl.
    rewrite <- pending_pushed by done. by destruct (sleeps_on _ _).
  - rewrite list_lookup_alter_ne by done. destruct (t !! j); simpl; [|done].
    by destruct (sleeps_on _ _).
Qed.

(** C18: sending to a live process returns 0, appends the 8 bytes at the
    sender's address (with the sender's id) to the receiver's queue as long
    as fewer than 31 messages wait there, leaves every other queue alone,
    and makes the receiver runnable if it sleeps. *)
Theorem send_mess_delivers c cp s sender mess i p :
  ready c cp Lptable s -> table_ok s ->
  k_ptable s !! i = Some p -> p_pid p <> 0 -> ring_ok (p_recv_queue p) ->
  (length (mailbox s i) < 31)%nat -> ureadable (k_mem s) (cpu_cr3 cp) mess 8 ->
  exists s' p', send_mess sender (p_pid p) mess s = Ok 0 s' /\
    mailbox s' i = mailbox s i ++ [(sender, ubytes (k_mem s) (cpu_cr3 cp) mess 8)] /\
    (forall j, j <> i -> mailbox s' j = mailbox s j) /\
    k_ptable s' !! i = Some p' /\ (p_state p = SLEEPING -> p_state p' = RUNNABLE).
Proof.
  intros Hr Ht Hi Hp Hq Hn Hu.
  destruct (send_mess_Ok c cp s sender (p_pid p) mess i p) as (s' & E & Es);
    [done|by apply table_ok_len|done|done|by apply table_ok_only|done|done|].
  pose proof (keq_ptable _ _ Es) as Et. simpl in Et.
  pose proof (fun j => mailbox_delivered i p sender (ubytes (k_mem s) (cpu_cr3 cp) mess 8)
    (k_ptable s) j s Hi Hq) as Hm. unfold mailbox in *. simpl in Hm.
  assert (is_Some (k_ptable s' !! i)) as [p' Hp'].
  { rewrite Et. unfold delivered, wake. rewrite lookup_upd_where, list_lookup_alter_eq, Hi. by eexists. }
  exists s', p'. split_and!; [done| | |done|].
  - rewrite Et, Hm, decide_True, decide_True by done. done.
  - intros j Hj. by rewrite Et, Hm, decide_False.
  - intros Hs. destruct (delivered_wakes i p (fun p => p <| p_recv_queue := pushed sender
      (ubytes (k_mem s) (cpu_cr3 cp) mess 8) (p_recv_queue p) |>) (k_ptable s)) as (q & Hq' & Hr');
      [done..|].
    rewrite Et in Hp'. unfold delivered in Hp'. congruence.
Qed.

(** Two processes: pid 1 runs, pid 2 sleeps in [recv]. *)
Definition demo2 : kstate :=
  demo [demo_proc 1 RUNNING ChNull; demo_proc 2 SLEEPING (ChRecvQueue 1)].

Lemma demo2_ok : table_ok demo2.
Proof.
  apply (pids_ok_prefix 3 [1; 2] 62); [done| |repeat constructor; lia|lia].
  by apply (bool_decide_unpack _).
Qed.

Lemma messages0_ok : ring_ok messages0.
Proof. split; try done. unfold messages0. cbn [ml_messages]. by apply Forall_replicate. Qed.

Lemma demo2_mem a : demo_tables a -> load8 (k_mem demo2) a = load8 demo_mem a.
Proof. done. Qed.

Lemma send_mess_delivers_witness :
  exists s' p', send_mess 1 2 100 demo2 = Ok 0 s' /\
    mailbox s' 1 = mailbox demo2 1 ++ [(1, ubytes (k_mem demo2) 0x1000 100 8)] /\
    (forall j, j <> 1%nat -> mailbox s' j = mailbox demo2 j) /\
    k_ptable s' !! 1%nat = Some p' /\
    (p_state (demo_proc 2 SLEEPING (ChRecvQueue 1)) = SLEEPING -> p_state p' = RUNNABLE).
Proof.
  apply (send_mess_delivers 0 demo_cpu demo2 1 100 1 (demo_proc 2 SLEEPING (ChRecvQueue 1))).
  - apply demo_ready.
  - apply demo2_ok.
  - reflexivity.
  - vm_compute. discriminate.
  - apply messages0_ok.
  - vm_compute. lia.
  - apply uwritable_readable, demo_writable; [apply demo2_mem|lia|lia].
Defined.

(** C19: receiving with messages waiting returns 0 at once, writes the oldest
    message to the buffer, removes it from the queue, and changes no other
    queue and no other user memory. *)
Theorem recv_mess_takes_oldest T fuel c cp s mess i p from m rest :
  ready c cp Lptable s -> table_ok s ->
  k_ptable s !! i = Some p -> p_pid p <> 0 -> ring_ok (p_recv_queue p) ->
  mailbox s i = (from, m) :: rest -> buffer_ok T mess cp s ->
  exists s', recv_mess fuel (p_pid p) mess s = Ok 0 s' /\
    ubytes (k_mem s') (cpu_cr3 cp) mess 8 = map u8 m /\
    mailbox s' i = rest /\
    (forall j, j <> i -> mailbox s' j = mailbox s j) /\
    (forall a, uaddr a -> is_Some (vtop (k_mem s) (cpu_cr3 cp) false a) ->
       a < mess \/ mess + 8 <= a -> uget (k_mem s') (cpu_cr3 cp) a = uget (k_mem s) (cpu_cr3 cp) a).
Proof.
  intros Hr Ht Hi Hp Hq Hm Hb.
  assert (mailbox s i = pending (p_recv_queue p)) as Emb by (unfold mailbox; by rewrite Hi).
  assert (ml_head (p_recv_queue p) <> ml_tail (p_recv_queue p)) as Hne.
  { intros E. apply pending_nil in E; [|done]. congruence. }
  pose proof (pending_popped _ Hq Hne) as Epop. rewrite <- Emb, Hm in Epop. injection Epop as _ Em Er.
  pose proof (head_message_size _ Hq) as Hl.
  destruct (recv_mess_Ok T fuel c cp s (p_pid p) mess i p) as (s' & E & Es);
    [done|by apply table_ok_len|done|done|by apply table_ok_only|done..|].
  pose proof (keq_ptable _ _ Es) as Et. pose proof (keq_mem _ _ Es) as Ek. simpl in Et, Ek.
  destruct Hb as [HT Hw].
  destruct (uputs_spec T (k_mem s) (cpu_cr3 cp) mess _ HT ltac:(by rewrite Hl)) as [_ _ _ U3 U4].
  rewrite Hl in U3, U4. exists s'. rewrite Ek, Em. split_and!.
  - done.
  - exact U3.
  - unfold mailbox. rewrite Et, list_lookup_alter_eq, Hi. simpl. done.
  - intros j Hj. unfold mailbox. by rewrite Et, list_lookup_alter_ne.
  - exact U4.
Qed.

(** Process 1 with one message waiting. *)
Definition demo_msg : list Z := [1; 2; 3; 4; 5; 6; 7; 8].
Definition demo_p1m : proc :=
  (demo_proc 1 RUNNING ChNull) <| p_recv_queue := pushed 9 demo_msg messages0 |>.
Definition demo1m : kstate := demo [demo_p1m].

Lemma demo1_ok p : p_pid p = 1 -> table_ok (demo [p]).
Proof.
  intros E. unfold table_ok. unfold demo. simpl k_ptable. simpl k_nextpid.
  change (map p_pid _) with (p_pid p :: replicate 63 0). rewrite E.
  apply (pids_ok_prefix 2 [1] 63); [done| |repeat constructor; lia|lia].
  by apply (bool_decide_unpack _).
Qed.

Lemma demo_buffer T mess procs :
  T = demo_tables -> 0 <= mess <= 4000 -> buffer_ok T mess demo_cpu (demo procs).
Proof.
  intros -> Hm. split; [by apply demo_space|]. apply demo_writable; [done|lia|simpl; lia].
Qed.

Lemma recv_mess_takes_oldest_witness :
  exists s', recv_mess 0 (p_pid demo_p1m) 200 demo1m = Ok 0 s' /\
    ubytes (k_mem s') (cpu_cr3 demo_cpu) 200 8 = map u8 demo_msg /\ mailbox s' 0 = [] /\
    (forall j, j <> 0%nat -> mailbox s' j = mailbox demo1m j) /\
    (forall a, uaddr a -> is_Some (vtop (k_mem demo1m) (cpu_cr3 demo_cpu) false a) ->
       a < 200 \/ 200 + 8 <= a ->
       uget (k_mem s') (cpu_cr3 demo_cpu) a = uget (k_mem demo1m) (cpu_cr3 demo_cpu) a).
Proof.
  apply (recv_mess_takes_oldest demo_tables 0 0 demo_cpu demo1m 200 0
    demo_p1m 9 demo_msg []).
  - apply demo_ready.
  - by apply demo1_ok.
  - reflexivity.
  - vm_compute. discriminate.
  - apply pushed_ok; [apply messages0_ok|reflexivity].
  - vm_compute. reflexivity.
  - apply demo_buffer; [reflexivity|lia].
Defined.

(** Receiving from an empty queue does not return: the process goes to
    sleep on its queue; whenever it is picked again with a message in its
    queue it returns 0 with the oldest one in its buffer. *)
Theorem recv_mess_blocks T fuel c cp s mess i p :
  ready c cp Lptable s -> cpu_ncli cp = 0 -> cpu_proc cp = Some i -> table_ok s ->
  k_ptable s !! i = Some p -> p_pid p <> 0 -> ring_ok (p_recv_queue p) -> mailbox s i = [] ->
  exists s1 k p1, recv_mess (S fuel) (p_pid p) mess s = Susp WSched s1 k /\
    k_ptable s1 !! i = Some p1 /\ p_state p1 = SLEEPING /\ p_chan p1 = ChRecvQueue i /\
    (forall j, j <> i -> k_ptable s1 !! j = k_ptable s !! j) /\
    forall c' cp' s2 p2 from m rest,
      in_ptable c' cp' i s2 -> table_ok s2 -> k_ptable s2 !! i = Some p2 -> p_pid p2 = p_pid p ->
      ring_ok (p_recv_queue p2) -> mailbox s2 i = (from, m) :: rest -> buffer_ok T mess cp' s2 ->
      exists s3, k s2 = Ok 0 s3 /\ mailbox s3 i = rest /\
        ubytes (k_mem s3) (cpu_cr3 cp') mess 8 = map u8 m.
Proof.
  intros Hr Hn Hc Ht Hi Hp Hq Hm.
  assert (ml_head (p_recv_queue p) = ml_tail (p_recv_queue p)) as E.
  { apply pending_nil; [done|]. unfold mailbox in Hm. by rewrite Hi in Hm. }
  destruct (recv_mess_waits T fuel c cp s (p_pid p) mess i p) as (k & Ek & Hk);
    [done|done|done|by apply table_ok_len|done|done|by apply table_ok_only|done|].
  eexists _, k, (p <| p_chan := ChRecvQueue i |> <| p_state := SLEEPING |>).
  split_and!; [exact Ek| |done|done| |].
  - simpl. by rewrite list_lookup_alter_eq, Hi.
  - intros j Hj. simpl. by rewrite list_lookup_alter_ne.
  - intros c' cp' s2 p2 from m rest Hin Ht2 Hi2 Hp2 Hq2 Hm2 Hb2.
    assert (mailbox s2 i = pending (p_recv_queue p2)) as Emb by (unfold mailbox; by rewrite Hi2).
    assert (ml_head (p_recv_queue p2) <> ml_tail (p_recv_queue p2)) as Hne.
    { intros E'. apply pending_nil in E'; [|done]. congruence. }
    pose proof (pending_popped _ Hq2 Hne) as Epop. rewrite <- Emb, Hm2 in Epop.
    injection Epop as _ Em Er. pose proof (head_message_size _ Hq2) as Hl.
    destruct (Hk c' cp' s2 p2) as (v & Ev); [done|by apply table_ok_len| |done..|].
    { rewrite <- Hp2. apply table_ok_only; [done..|]. by rewrite Hp2. }
    destruct Hb2 as [HT Hw].
    destruct (uputs_spec T (k_mem s2) (cpu_cr3 cp') mess _ HT ltac:(by rewrite Hl)) as [_ _ _ U3 _].
    rewrite Hl in U3. eexists. split_and!; [exact Ev| |rewrite Em; exact U3].
    unfold mailbox. simpl. rewrite !list_lookup_alter_eq, Hi2. simpl. done.
Qed.

Lemma recv_mess_blocks_witness :
  exists s1 k p1, recv_mess 1 (p_pid (demo_proc 1 RUNNING ChNull)) 200
      (demo [demo_proc 1 RUNNING ChNull]) = Susp WSched s1 k /\
    k_ptable s1 !! 0%nat = Some p1 /\ p_state p1 = SLEEPING /\ p_chan p1 = ChRecvQueue 0.
Proof.
  destruct (recv_mess_blocks demo_tables 0 0 demo_cpu (demo [demo_proc 1 RUNNING ChNull]) 200 0
    (demo_proc 1 RUNNING ChNull)) as (s1 & k & p1 & E & H1 & H2 & H3 & _).
  - apply demo_ready.
  - reflexivity.
  - reflexivity.
  - by apply demo1_ok.
  - reflexivity.
  - vm_compute. discriminate.
  - apply messages0_ok.
  - reflexivity.
  - exists s1, k, p1. done.
Defined.

(** C40: the 32nd waiting message empties the queue.  The send still returns
    0: the 31 messages that waited and the new one are never received. *)
Theorem send_mess_overflow c cp s sender mess i p :
  ready c cp Lptable s -> table_ok s ->
  k_ptable s !! i = Some p -> p_pid p <> 0 -> ring_ok (p_recv_queue p) ->
  length (mailbox s i) = 31%nat -> ureadable (k_mem s) (cpu_cr3 cp) mess 8 ->
  exists s', send_mess sender (p_pid p) mess s = Ok 0 s' /\ mailbox s' i = [].
Proof.
  intros Hr Ht Hi Hp Hq Hn Hu.
  destruct (send_mess_Ok c cp s sender (p_pid p) mess i p) as (s' & E & Es);
    [done|by apply table_ok_len|done|done|by apply table_ok_only|done|done|].
  pose proof (keq_ptable _ _ Es) as Et. simpl in Et. exists s'. split; [done|].
  pose proof (mailbox_delivered i p sender (ubytes (k_mem s) (cpu_cr3 cp) mess 8)
    (k_ptable s) i s Hi Hq) as Hm. unfold mailbox in *. simpl in Hm.
  rewrite Et, Hm, decide_True, decide_False by (done || lia). done.
Qed.

Definition full_queue : message_list := Nat.iter 31 (pushed 9 demo_msg) messages0.
Definition demo_full : proc := (demo_proc 1 RUNNING ChNull) <| p_recv_queue := full_queue |>.

Lemma send_mess_overflow_witness :
  length (mailbox (demo [demo_full]) 0) = 31%nat /\
  exists s', send_mess 1 (p_pid demo_full) 200 (demo [demo_full]) = Ok 0 s' /\ mailbox s' 0 = [].
Proof.
  split; [vm_compute; reflexivity|].
  apply (send_mess_overflow 0 demo_cpu (demo [demo_full]) 1 200 0 demo_full).
  - apply demo_ready.
  - by apply demo1_ok.
  - reflexivity.
  - vm_compute. discriminate.
  - unfold full_queue. do 31 (apply pushed_ok; [|reflexivity]). apply messages0_ok.
  - vm_compute. reflexivity.
  - apply uwritable_readable, demo_writable; [done|lia|lia].
Defined.

(** A pid no process has is refused: -1, and the state is as before. *)
Theorem send_mess_refuses_unknown c cp s sender pid mess :
  ready c cp Lptable s -> table_ok s -> pid ∉ map p_pid (k_ptable s) ->
  exists s', send_mess sender pid mess s = Ok (-1) s' /\ s' ≡ₖ s.
Proof.
  intros Hr Ht Hno. apply (send_mess_no_pid c cp); [done|by apply table_ok_len|].
  intros j q Hj E. apply Hno. rewrite <- E.
  by apply list_elem_of_fmap_2, list_elem_of_lookup_2 with j.
Qed.

Lemma send_mess_refuses_unknown_witness :
  exists s', send_mess 1 77 200 demo2 = Ok (-1) s' /\ s' ≡ₖ demo2.
Proof.
  apply (send_mess_refuses_unknown 0 demo_cpu demo2 1 77 200).
  - apply demo_ready.
  - apply demo2_ok.
  - by apply (bool_decide_unpack _).
Defined.
