(* ===== verification/Signal.v ===== *)
(** * Signals and multicast: correctness

    The theorems on [handle_signals], [ret_signal], [send_signal],
    [send_multicast] and [pause_signal], whose code is in [Ipc].  A trap
    frame survives the trip through the user stack byte for byte; a pending
    signal and the oldest multicast message become a call of the handler;
    a multicast reaches every recipient that exists. *)

From stdpp Require Import base numbers list list_numbers gmap strings.
From S2P Require Import Prelude Kmonad Params Ring Kstate Spinlock KString Kalloc Cprintf Vm Umem Demo Sched Ipc.

Local Open Scope Z_scope.

(** ** The trap frame round trip *)

Definition word (z : Z) : Prop := 0 <= z < 2 ^ 32.
Definition half (z : Z) : Prop := 0 <= z < 2 ^ 16.

(** Every field fits its C type. *)
Definition tf_ok (tf : trapframe) : Prop :=
  Forall word [tf_edi tf; tf_esi tf; tf_ebp tf; tf_oesp tf; tf_ebx tf; tf_edx tf; tf_ecx tf;
    tf_eax tf; tf_trapno tf; tf_err tf; tf_eip tf; tf_eflags tf; tf_esp tf] /\
  Forall half [tf_gs tf; tf_padding1 tf; tf_fs tf; tf_padding2 tf; tf_es tf; tf_padding3 tf;
    tf_ds tf; tf_padding4 tf; tf_cs tf; tf_padding5 tf; tf_ss tf; tf_padding6 tf].

Lemma length_tf_bytes tf : length (tf_bytes tf) = 76%nat.
Proof. reflexivity. Qed.

Lemma tf_bytes_u8 tf : map u8 (tf_bytes tf) = tf_bytes tf.
Proof.
  unfold tf_bytes, half2. rewrite !map_app. assert (forall n v, map u8 (le_bytes n v) = le_bytes n v) as E.
  { intros n v. rewrite <- (map_id (le_bytes n v)) at 2. apply map_ext_in. intros b Hb.
    apply list_elem_of_In in Hb. pose proof (le_bytes_ok n v) as H. rewrite Forall_forall in H.
    apply Z.mod_small, H, Hb. }
  by rewrite !E.
Qed.

Lemma tf_of_bytes_bytes tf : tf_ok tf -> tf_of_bytes (tf_bytes tf) = tf.
Proof.
  intros [Hw Hh]. rewrite !Forall_cons in Hw. rewrite !Forall_cons in Hh.
  assert (forall v, word v -> of_le (le_bytes 4 v) = v) as Ew
    by (intros v Hv; rewrite of_le_bytes; by apply Z.mod_small).
  assert (forall v, half v -> of_le (le_bytes 2 v) = v) as Eh
    by (intros v Hv; rewrite of_le_bytes; by apply Z.mod_small).
  destruct tf; simpl in Hw, Hh. destruct_and!.
  transitivity (MkTf (of_le (le_bytes 4 tf_edi)) (of_le (le_bytes 4 tf_esi)) (of_le (le_bytes 4 tf_ebp))
    (of_le (le_bytes 4 tf_oesp)) (of_le (le_bytes 4 tf_ebx)) (of_le (le_bytes 4 tf_edx))
    (of_le (le_bytes 4 tf_ecx)) (of_le (le_bytes 4 tf_eax))
    (of_le (le_bytes 2 tf_gs)) (of_le (le_bytes 2 tf_padding1)) (of_le (le_bytes 2 tf_fs))
    (of_le (le_bytes 2 tf_padding2)) (of_le (le_bytes 2 tf_es)) (of_le (le_bytes 2 tf_padding3))
    (of_le (le_bytes 2 tf_ds)) (of_le (le_bytes 2 tf_padding4)) (of_le (le_bytes 4 tf_trapno))
    (of_le (le_bytes 4 tf_err)) (of_le (le_bytes 4 tf_eip)) (of_le (le_bytes 2 tf_cs))
    (of_le (le_bytes 2 tf_padding5)) (of_le (le_bytes 4 tf_eflags)) (of_le (le_bytes 4 tf_esp))
    (of_le (le_bytes 2 tf_ss)) (of_le (le_bytes 2 tf_padding6))); [reflexivity|].
  rewrite !Ew, !Eh by done. done.
Qed.

(** ** handle_signals and ret_signal *)

(** The block [handle_signals] pushes on the user stack, from its new top:
    return address, pointer to the message, message, code, saved frame. *)
Definition sig_block (ln : linkmap) (tf : trapframe) (m : list Z) : list Z :=
  let esp := tf_esp tf in
  le_bytes 4 (esp - TRAPFRAME_SIZE - codesize ln) ++
  le_bytes 4 (esp - TRAPFRAME_SIZE - codesize ln - 8) ++
  m ++ ln_sigret_code ln ++ tf_bytes tf.
Definition sig_block_size (ln : linkmap) : Z := 16 + codesize ln + TRAPFRAME_SIZE.

(** The process after a signal was delivered to it. *)
Definition signalled (sp : Z) (p : proc) : proc :=
  p <| p_handling := 1 |>
    <| p_recv_multi_queue := popped (p_recv_multi_queue p) |>
    <| p_tf := (p_tf p) <| tf_esp := sp |> <| tf_eip := p_handler p |> |>
    <| p_pending_signals := (p_pending_signals p)
         <| sg_head := (sg_head (p_pending_signals p) + 1) mod MAX_SIG |> |>.

Lemma bytes_u8 bs : Forall byte_ok bs -> map u8 bs = bs.
Proof.
  induction 1 as [|b bs Hb Hbs IH]; simpl; [done|]. rewrite IH. f_equal. by apply Z.mod_small.
Qed.

(** The cases in which nothing is delivered. *)
Lemma handle_signals_idle c cp i p tf s :
  running c cp s -> cpu_ok cp -> cpu_proc cp = Some i -> k_ptable s !! i = Some p ->
  p_handling p = 1 \/ Z.land (tf_cs tf) 3 <> DPL_USER \/
    sg_head (p_pending_signals p) = sg_tail (p_pending_signals p) ->
  exists s', handle_signals tf s = Ok tt s' /\ s' ≡ₖ s.
Proof.
  intros Hrun Hok Hc Hi Hcase. exists (on_cpu c cpu_touch s). split; [|by eapply touch_keq].
  unfold handle_signals. kx (myproc_Ok c cp s Hrun Hok). rewrite Hc.
  kx (get_p_Ok i p (on_cpu c cpu_touch s) Hi).
  destruct (Z.eqb_spec (p_handling p) 1); [done|].
  destruct (Z.eqb_spec (Z.land (tf_cs tf) 3) DPL_USER); [|done]. simpl.
  destruct (Z.eqb_spec (sg_head (p_pending_signals p)) (sg_tail (p_pending_signals p))); [done|].
  by destruct Hcase as [?|[?|?]].
Qed.

Section deliver.
Context (T : Z -> Prop) (c : nat) (cp : cpu) (i : nat) (p : proc) (s : kstate).

Definition sig_top : Z := tf_esp (p_tf p) - sig_block_size (k_link s).
Definition sig_msg : list Z :=
  ml_messages (p_recv_multi_queue p) !!! Z.to_nat (ml_head (p_recv_multi_queue p)).

(** A process about to return to user mode with a signal pending and room
    on its stack. *)
Record deliverable : Prop := {
  dl_run : running c cp s;
  dl_ok : cpu_ok cp;
  dl_proc : cpu_proc cp = Some i;
  dl_slot : k_ptable s !! i = Some p;
  dl_handling : p_handling p <> 1;
  dl_sig : sg_head (p_pending_signals p) <> sg_tail (p_pending_signals p);
  dl_sig_ok : sig_ok (p_pending_signals p);
  dl_ring : ring_ok (p_recv_multi_queue p);
  dl_msg : Forall byte_ok sig_msg;
  dl_code : Forall byte_ok (ln_sigret_code (k_link s));
  dl_space : uspace_in T (k_mem s) (cpu_cr3 cp);
  dl_esp : 0 <= sig_top /\ tf_esp (p_tf p) <= KERNBASE;
  dl_stack : uwritable (k_mem s) (cpu_cr3 cp) sig_top (Z.to_nat (sig_block_size (k_link s)))
}.

End deliver.

Lemma tf_bytes_ok tf : Forall byte_ok (tf_bytes tf).
Proof. unfold tf_bytes, half2. repeat (apply Forall_app; split); apply le_bytes_ok. Qed.

(** Storing [bs] at [a] turns memory [m] into [m'], whatever else changed. *)
Definition stores_to (c : nat) (cp : cpu) (a : Z) (bs : list Z) (m m' : mem) : Prop :=
  forall t, running c cp t -> k_mem t = m -> ustores a bs t = Ok tt (t <| k_mem := m' |>).

(** One push below the blocks pushed so far, within the window [lo, hi). *)
Lemma push_Ok T m0 m lo hi c cp va B a bs :
  uwritable m0 (cpu_cr3 cp) lo (Z.to_nat (hi - lo)) ->
  stack_at T m0 m (cpu_cr3 cp) va B -> va + Z.of_nat (length B) = hi ->
  a = va - Z.of_nat (length bs) -> lo <= a -> Forall byte_ok bs ->
  exists m', stores_to c cp a bs m m' /\
    stack_at T m0 m' (cpu_cr3 cp) a (bs ++ B) /\ a + Z.of_nat (length (bs ++ B)) = hi.
Proof.
  intros Hw HS Hhi -> Hlo Hb. set (a := va - Z.of_nat (length bs)) in *.
  assert (uwritable m0 (cpu_cr3 cp) a (length bs + length B)) as Hw'
    by (eapply uwritable_sub; [..|exact Hw]; lia).
  exists (uputs m (cpu_cr3 cp) a bs). split_and!.
  - intros t H <-. rewrite (ustores_Ok T c cp); [done|done|apply HS|].
    apply (uwritable_vtop m0); [apply HS|]. eapply uwritable_sub; [..|exact Hw']; lia.
  - apply stack_push; [done|done|by apply bytes_u8].
  - rewrite length_app. lia.
Qed.

(** The five stores of [handle_signals]. *)
Lemma sig_stores T c cp i p s :
  deliverable T c cp i p s ->
  let esp := tf_esp (p_tf p) in
  let n := codesize (k_link s) in
  exists m1 m2 m3 m4 m5,
    stores_to c (cpu_touch cp) (esp - 76) (tf_bytes (p_tf p)) (k_mem s) m1 /\
    stores_to c (cpu_touch cp) (esp - 76 - n) (ln_sigret_code (k_link s)) m1 m2 /\
    stores_to c (cpu_touch cp) (esp - 76 - n - 8) (sig_msg p) m2 m3 /\
    stores_to c (cpu_touch cp) (esp - 76 - n - 8 - 4) (le_bytes 4 (esp - 76 - n - 8)) m3 m4 /\
    stores_to c (cpu_touch cp) (esp - 76 - n - 8 - 8) (le_bytes 4 (esp - 76 - n)) m4 m5 /\
    stack_at T (k_mem s) m5 (cpu_cr3 cp) (sig_top p s)
      (sig_block (k_link s) (p_tf p) (sig_msg p)).
Proof.
  intros [H1 H2 H3 H4 H5 H6 H7 H8 H9 H10 H11 H12 H13] esp n.
  pose proof (head_message_size _ H8) as Hlm. fold (sig_msg p) in Hlm.
  unfold sig_top, sig_block_size, TRAPFRAME_SIZE, KERNBASE in *. fold esp n in H12, H13. fold esp n.
  assert (n = Z.of_nat (length (ln_sigret_code (k_link s)))) as En by done.
  set (lo := esp - (16 + n + 76)) in *. replace (16 + n + 76) with (esp - lo) in H13 by lia.
  pose proof (stack_at_nil T (k_mem s) (cpu_cr3 cp) esp H11) as S0.
  destruct (push_Ok T (k_mem s) _ lo esp c (cpu_touch cp) _ _ (esp - 76) (tf_bytes (p_tf p)) H13 S0)
    as (m1 & E1 & S1 & L1); [simpl; lia|simpl; lia|lia|apply tf_bytes_ok|].
  destruct (push_Ok _ _ _ lo esp c (cpu_touch cp) _ _ (esp - 76 - n) (ln_sigret_code (k_link s)) H13 S1 L1)
    as (m2 & E2 & S2 & L2); [lia..|done|].
  destruct (push_Ok _ _ _ lo esp c (cpu_touch cp) _ _ (esp - 76 - n - 8) (sig_msg p) H13 S2 L2)
    as (m3 & E3 & S3 & L3); [lia..|done|].
  destruct (push_Ok _ _ _ lo esp c (cpu_touch cp) _ _ (esp - 76 - n - 8 - 4)
    (le_bytes 4 (esp - 76 - n - 8)) H13 S3 L3) as (m4 & E4 & S4 & L4);
    [rewrite length_le_bytes; lia|lia|apply le_bytes_ok|].
  destruct (push_Ok _ _ _ lo esp c (cpu_touch cp) _ _ (esp - 76 - n - 8 - 8)
    (le_bytes 4 (esp - 76 - n)) H13 S4 L4) as (m5 & E5 & S5 & L5);
    [rewrite length_le_bytes; lia|lia|apply le_bytes_ok|].
  exists m1, m2, m3, m4, m5. split_and!; [done..|].
  rewrite app_nil_r in S5. replace (esp - 76 - n - 8 - 8) with lo in S5 by lia. exact S5.
Qed.

(** A pending signal is delivered: the frame is on the user stack, the
    process will go on in its handler, and the signal and the oldest
    multicast message are consumed. *)
Lemma handle_signals_Ok T c cp i p s tf :
  deliverable T c cp i p s -> Z.land (tf_cs tf) 3 = DPL_USER ->
  exists s' m', handle_signals tf s = Ok tt s' /\
    s' ≡ₖ set k_ptable (alter (signalled (sig_top p s)) i) (s <| k_mem := m' |>) /\
    stack_at T (k_mem s) m' (cpu_cr3 cp) (sig_top p s)
      (sig_block (k_link s) (p_tf p) (sig_msg p)).
Proof.
  intros D Hcs. destruct (sig_stores _ _ _ _ _ _ D) as (m1 & m2 & m3 & m4 & m5 & E1 & E2 & E3 & E4 & E5 & HS).
  destruct D as [H1 H2 H3 H4 H5 H6 H7 H8 H9 H10 H11 H12 H13].
  assert (running c (cpu_touch cp) (on_cpu c cpu_touch s)) as R by by apply running_on_cpu.
  unfold handle_signals. kx (myproc_Ok c cp s H1 H2). rewrite H3.
  kx (get_p_Ok i p (on_cpu c cpu_touch s) H4).
  rewrite (proj2 (Z.eqb_neq _ _) H5), Hcs, Z.eqb_refl, (proj2 (Z.eqb_neq _ _) H6). cbn [negb].
  unfold upd_p, ustore32, TRAPFRAME_SIZE. kx.
  unfold sig_top, sig_block_size, TRAPFRAME_SIZE, KERNBASE in *.
  set (esp := tf_esp (p_tf p)) in *. set (n := codesize (k_link s)) in *.
  assert (0 <= n) by (unfold n, codesize; lia).
  rewrite (u32_small (esp - 76)) by lia. rewrite E1 by done. kx.
  match goal with |- context [codesize (k_link ?x)] => change (k_link x) with (k_link s) end.
  fold n. rewrite (u32_small (esp - 76 - n)) by lia. rewrite E2 by done. kx.
  rewrite (index_Ok NUM_MSG _ _ (ro_head _ H8)). kx. fold (sig_msg p).
  rewrite (u32_small (esp - 76 - n - 8)) by lia. rewrite E3 by done. kx.
  rewrite (u32_small (esp - 76 - n - 8 - 4)) by lia. rewrite E4 by done. kx.
  rewrite (u32_small (esp - 76 - n - 8 - 8)) by lia. rewrite E5 by done. kx.
  eexists _, m5. split_and!; [reflexivity| |exact HS].
  transitivity (set k_ptable (alter (signalled (esp - (16 + n + 76))) i)
    ((on_cpu c cpu_touch s) <| k_mem := m5 |>)).
  - apply eq_subrelation; [apply _|]. destruct H7 as [G1 G2 _ _], H8 as [Q1 Q2 _ _ _].
    set (X := (on_cpu c cpu_touch s) <| k_mem := m5 |>).
    match goal with |- set k_ptable (alter ?f i) (set k_ptable (alter ?g i) _) = _ =>
      transitivity (set k_ptable (alter f i) (set k_ptable (alter g i)
        (set k_ptable (alter (fun p => p <| p_recv_multi_queue := (p_recv_multi_queue p)
           <| ml_head := Z.rem (ml_head (p_recv_multi_queue p) + 1) NUM_MSG |> |>) i)
        (set k_ptable (alter (fun p => p <| p_handling := 1 |>) i) X)))) end; [reflexivity|].
    rewrite !ptable_comp. apply (ptable_ext _ _ _ p); [done|]. unfold signalled, popped. cbn.
    rewrite !Z.rem_mod_nonneg by (unfold NUM_MSG, MAX_SIG in *; lia).
    by replace (esp - 76 - n - 8 - 8) with (esp - (16 + n + 76)) by lia.
  - by rewrite (touch_keq c cp s).
Qed.

(** Where [ret_signal] looks for the saved frame: the handler has returned,
    so the stack pointer is just above the return address. *)
Definition saved_frame (ln : linkmap) (p : proc) : Z :=
  u32 (u32 (tf_esp (p_tf p) + 12) + codesize ln).

Lemma ret_signal_Ok c cp i p s :
  ready c cp Lptable s -> cpu_proc cp = Some i -> k_ptable s !! i = Some p ->
  ureadable (k_mem s) (cpu_cr3 cp) (saved_frame (k_link s) p) 76 ->
  exists s', ret_signal s = Ok tt s' /\
    s' ≡ₖ set k_ptable (alter (fun p0 => p0
      <| p_tf := tf_of_bytes (ubytes (k_mem s) (cpu_cr3 cp) (saved_frame (k_link s) p) 76) |>
      <| p_handling := 0 |>) i) s.
Proof.
  intros Hr Hc Hi Hu. unfold ret_signal, curproc.
  rewrite (bind_Ok _ _ _ _ _ (acquire_ready _ _ _ _ Hr)).
  assert (inside c Lptable s (acq c Lptable s)) as Hin by done.
  kx (myproc_inside c cp Lptable s _ Hr Hin). rewrite Hc. cbn [deref]. kx.
  kx (get_p_Ok i p (acq c Lptable s) Hi).
  change (k_link (acq c Lptable s)) with (k_link s). fold (saved_frame (k_link s) p).
  change (Z.to_nat TRAPFRAME_SIZE) with 76%nat.
  kx (uloads_Ok c _ _ _ 76 (running_acq c cp Lptable s (proj1 Hr)) Hu).
  unfold upd_p. kx. rewrite !acq_ptable, ptable_comp.
  by apply (release_acq c cp).
Qed.

(** The handler has run: memory and registers changed, but not the saved
    frame, and the stack pointer is where the return to the code left it. *)
Record handler_done (pd sp : Z) (ln : linkmap) (tf : trapframe) (m : mem) (p : proc) : Prop := {
  hd_esp : tf_esp (p_tf p) = sp + 4;
  hd_read : ureadable m pd (sp + 16 + codesize ln) 76;
  hd_saved : ubytes m pd (sp + 16 + codesize ln) 76 = tf_bytes tf
}.

(** What [handle_signals] pushed contains the saved frame at that place. *)
Lemma sig_block_frame T m0 m pd sp ln tf msg :
  length msg = 8%nat -> stack_at T m0 m pd sp (sig_block ln tf msg) ->
  ubytes m pd (sp + 16 + codesize ln) 76 = tf_bytes tf.
Proof.
  intros Hm HS. pose proof (sa_block _ _ _ _ _ _ HS) as E. unfold sig_block in E.
  rewrite !app_assoc in E. rewrite length_app, ubytes_app in E.
  apply app_inj_2 in E as [_ E]; [|by rewrite !length_ubytes].
  rewrite !length_app, !length_le_bytes, length_tf_bytes in E. unfold codesize.
  by replace (sp + 16 + Z.of_nat (length (ln_sigret_code ln)))
    with (sp + Z.of_nat (4 + 4 + length msg + length (ln_sigret_code ln))) by lia.
Qed.

(** The round trip: delivery, handler, [ret_signal]. *)
Lemma signal_round_trip c cp i p tf sp s :
  ready c cp Lptable s -> cpu_proc cp = Some i -> k_ptable s !! i = Some p ->
  0 <= sp -> sp + sig_block_size (k_link s) <= KERNBASE -> tf_ok tf ->
  handler_done (cpu_cr3 cp) sp (k_link s) tf (k_mem s) p ->
  exists s', ret_signal s = Ok tt s' /\
    s' ≡ₖ set k_ptable (alter (fun p0 => p0 <| p_tf := tf |> <| p_handling := 0 |>) i) s.
Proof.
  intros Hr Hc Hi Hsp Hk Htf [E1 E2 E3].
  assert (saved_frame (k_link s) p = sp + 16 + codesize (k_link s)) as E.
  { unfold saved_frame. rewrite E1. unfold sig_block_size, TRAPFRAME_SIZE, KERNBASE, codesize in *.
    rewrite (u32_small (sp + 4 + 12)), u32_small by lia. lia. }
  destruct (ret_signal_Ok c cp i p s Hr Hc Hi) as (s' & Er & Es); [by rewrite E|].
  rewrite E, E3, tf_of_bytes_bytes in Es by done. by exists s'.
Qed.

(** ** Signals and multicast *)

Definition sig_pushed (signum sender : Z) (g : signals) : signals :=
  g <| sg_sig_num := <[Z.to_nat (sg_tail g) := signum]> (sg_sig_num g) |>
    <| sg_s_pid := <[Z.to_nat (sg_tail g) := sender]> (sg_s_pid g) |>
    <| sg_tail := (sg_tail g + 1) mod MAX_SIG |>.

Lemma put_signal_Ok signum sender g s :
  sig_ok g -> put_signal signum sender g s = Ok (sig_pushed signum sender g) s.
Proof.
  intros [Hh Ht _ _]. unfold put_signal, sig_pushed. kx (index_Ok MAX_SIG (sg_tail g) s Ht).
  rewrite Z.rem_mod_nonneg by (unfold MAX_SIG; lia). done.
Qed.

Lemma sig_pushed_ok signum sender g : sig_ok g -> sig_ok (sig_pushed signum sender g).
Proof.
  intros [Hh Ht H1 H2]. split; simpl; rewrite ?length_insert; try done.
  apply Z.mod_pos_bound. done.
Qed.

(** As for messages: the fifth pending signal makes the queue look empty. *)
Lemma sig_pending_pushed signum sender g :
  sig_ok g ->
  sig_pending (sig_pushed signum sender g)
  = if decide (length (sig_pending g) < 4)%nat then sig_pending g ++ [(signum, sender)] else [].
Proof.
  intros [Hh Ht H1 H2]. unfold sig_pending.
  pose proof (length_items MAX_SIG ltac:(done) (sig_slot g) (sg_head g) (sg_tail g)) as L.
  pose proof (used_range MAX_SIG ltac:(done) (sg_head g) (sg_tail g)) as Hu.
  assert (MAX_SIG = 5) as E5 by done. case_decide as Hd.
  - unfold sig_pushed at 2 3. simpl sg_head. simpl sg_tail.
    rewrite (items_push MAX_SIG ltac:(done) (sig_slot g)); [|done|lia|].
    + f_equal. f_equal. unfold sig_slot, sig_pushed. simpl.
      rewrite !list_lookup_total_insert_eq; [done|..]; lia.
    + intros i Hi Hne. unfold sig_slot, sig_pushed. simpl.
      by rewrite !list_lookup_total_insert_ne by lia.
  - unfold sig_pushed at 2 3. simpl sg_head. simpl sg_tail. apply items_overflow; [done|]. lia.
Qed.

(** The table after process [i] got a signal. *)
Definition sig_delivered (i : nat) (p : proc) (signum sender : Z) (t : list proc) : list proc :=
  wake (p_chan p)
    (alter (fun p => p <| p_pending_signals := sig_pushed signum sender (p_pending_signals p) |>) i t).

Lemma pid_each (act : nat -> proc -> KM unit) pid i p s s1 :
  table_len s -> only_pid (k_ptable s) pid i -> k_ptable s !! i = Some p -> p_pid p = pid ->
  act i p s = Ok tt s1 -> table_len s1 -> only_pid (k_ptable s1) pid i ->
  for_each proc_slots (fun j =>
    let* p := get_p j in if p_pid p =? pid then act j p else ret tt) s = Ok tt s1.
Proof.
  intros Hlen Ho Hi Hp Ha Hlen1 Ho1.
  assert (i < NPROC)%nat as Hlt by (rewrite <- Hlen; by eapply lookup_lt_Some).
  rewrite (slots_split i Hlt), for_each_skip.
  - kx (get_p_Ok _ _ _ Hi). rewrite Hp, Z.eqb_refl. kx Ha.
    apply for_each_inert. intros j Hj. apply (pid_skip (act j) tt pid i); [done..|].
    apply elem_of_app. by right.
  - intros j Hj. apply (pid_skip (act j) tt pid i); [done..|]. apply elem_of_app. by left.
Qed.

(** [send_signal] in a state in which the current process is [me]. *)
Lemma send_signal_Ok s me myp pid signum i p :
  myproc s = Ok (Some me) s -> k_ptable s !! me = Some myp -> table_len s ->
  k_ptable s !! i = Some p -> p_pid p = pid -> only_pid (k_ptable s) pid i ->
  sig_ok (p_pending_signals p) ->
  send_signal pid signum s = Ok tt (set k_ptable (sig_delivered i p signum (p_pid myp)) s).
Proof.
  intros Hm Hme Hlen Hi Hp Ho Hg. unfold send_signal, curproc. kx Hm. cbn [deref]. kx.
  rewrite (get_p_Ok _ _ _ Hme). kx. apply (pid_each _ pid i p); [done..| | |].
  - kx (put_signal_Ok signum (p_pid myp) _ s Hg). unfold upd_p. kx.
    rewrite wakeup1_Ok by (unfold table_len; simpl; by rewrite length_alter).
    f_equal. unfold sig_delivered, set, set_k_ptable. simpl. f_equal. f_equal.
    apply list_alter_ext; [|done]. intros q Hq. by simplify_eq.
  - unfold table_len, sig_delivered. simpl. by rewrite wake_len, length_alter.
  - unfold sig_delivered. simpl. by apply wake_only_pid, alter_only_pid.
Qed.

Record queues_ok (p : proc) : Prop := {
  qo_recv : ring_ok (p_recv_queue p);
  qo_multi : ring_ok (p_recv_multi_queue p);
  qo_sig : sig_ok (p_pending_signals p)
}.

(** One recipient of a multicast: message and signal. *)
Definition mcast_to (sender : Z) (m : list Z) (me pid : Z) (t : list proc) : list proc :=
  match find_idx (has_pid pid) t with
  | Some i =>
      match t !! i with
      | Some p => sig_delivered i p 1 me
          (alter (fun p => p <| p_recv_multi_queue := pushed sender m (p_recv_multi_queue p) |>) i t)
      | None => t
      end
  | None => t
  end.

Lemma mcast_to_pids sender m me pid t : map p_pid (mcast_to sender m me pid t) = map p_pid t.
Proof.
  unfold mcast_to. destruct (find_idx _ t) as [i|]; [|done]. destruct (t !! i); [|done].
  unfold sig_delivered. by rewrite pids_wake, !pids_alter.
Qed.

Lemma Forall_wake (P : proc -> Prop) ch t :
  (forall p, P p -> P (p <| p_state := RUNNABLE |>)) -> Forall P t -> Forall P (wake ch t).
Proof.
  intros HP H. apply Forall_map. eapply Forall_impl; [exact H|]. intros p Hp.
  destruct (sleeps_on ch p); auto.
Qed.

Lemma Forall_alter_all (P : proc -> Prop) f i t :
  (forall p, P p -> P (f p)) -> Forall P t -> Forall P (alter f i t).
Proof. intros Hf H. apply Forall_alter; [done|]. intros x Hx Hp. auto. Qed.

Lemma queues_ok_state p st : queues_ok p -> queues_ok (p <| p_state := st |>).
Proof. intros [H1 H2 H3]. by split. Qed.

Lemma mcast_to_queues sender m me pid t :
  length m = 8%nat -> Forall queues_ok t -> Forall queues_ok (mcast_to sender m me pid t).
Proof.
  intros Hm H. unfold mcast_to. destruct (find_idx _ t) as [i|]; [|done]. destruct (t !! i); [|done].
  unfold sig_delivered. apply Forall_wake; [intros; by apply queues_ok_state|].
  apply Forall_alter_all; [|apply Forall_alter_all; [|done]];
    intros q [H1 H2 H3]; split; simpl; auto using sig_pushed_ok, pushed_ok.
Qed.

(** Recipient number [k] of the list at [rec_pids]. *)
Definition rec_pid (m : mem) (pd rec_pids k : Z) : Z := i32 (of_le (ubytes m pd (rec_pids + 4 * k) 4)).

Lemma uload32_Ok c cp s va :
  running c cp s -> ureadable (k_mem s) (cpu_cr3 cp) va 4 ->
  uload32 va s = Ok (of_le (ubytes (k_mem s) (cpu_cr3 cp) va 4)) s.
Proof. intros H Hr. unfold uload32. by kx (uloads_Ok c cp s va 4 H Hr). Qed.

Section mcast.
Context (c : nat) (me : nat) (myp : proc) (sender msg rec_pids k : Z).

(** Process [me] runs with no lock held; the message and the list of
    recipients can be read. *)
Record mcast_ready (cp : cpu) (s : kstate) : Prop := {
  mr_ready : ready c cp Lptable s;
  mr_proc : cpu_proc cp = Some me;
  mr_me : map p_pid (k_ptable s) !! me = Some (p_pid myp);
  mr_table : table_ok s;
  mr_queues : Forall queues_ok (k_ptable s);
  mr_msg : ureadable (k_mem s) (cpu_cr3 cp) msg 8;
  mr_list : ureadable (k_mem s) (cpu_cr3 cp) (rec_pids + 4 * k) 4
}.

Lemma mcast_skip cp s j q success :
  mcast_ready cp s -> k_ptable s !! j = Some q ->
  p_pid q <> rec_pid (k_mem s) (cpu_cr3 cp) rec_pids k ->
  mcast_slot sender rec_pids msg k success j (acq c Lptable s) = Ok success (acq c Lptable s).
Proof.
  intros [Hr _ _ _ _ _ Hl] Hj Hne. unfold mcast_slot. kx (get_p_Ok j q (acq c Lptable s) Hj).
  kx (uload32_Ok c _ _ _ (running_acq c cp Lptable s (proj1 Hr)) Hl).
  unfold rec_pid in Hne. simpl in *. by rewrite (proj2 (Z.eqb_neq _ _) Hne).
Qed.

Lemma mcast_skip_others cp s i j success :
  mcast_ready cp s ->
  let pid := rec_pid (k_mem s) (cpu_cr3 cp) rec_pids k in
  pid <> 0 -> map p_pid (k_ptable s) !! i = Some pid -> (i < NPROC)%nat ->
  j ∈ slots_before i ++ slots_after i ->
  mcast_slot sender rec_pids msg k success j (acq c Lptable s) = Ok success (acq c Lptable s).
Proof.
  intros H pid Hpid Hi Hlt Hj. pose proof (mr_table _ _ H) as Ht.
  destruct (slot_ne_lookup s i j (table_ok_len _ Ht) Hj Hlt) as (Hne & q & Hq).
  apply (mcast_skip cp s j q); [done..|]. intros E. apply Hne.
  apply (po_unique _ _ Ht j i pid); [|done..]. rewrite list_lookup_fmap, Hq. simpl. by rewrite E.
Qed.

(** The table keeps its invariants. *)
Lemma mcast_ready_step cp s pid :
  mcast_ready cp s -> mcast_ready cp (set k_ptable
    (mcast_to sender (ubytes (k_mem s) (cpu_cr3 cp) msg 8) (p_pid myp) pid) s).
Proof.
  intros [H1 H2 H3 H4 H5 H6 H7]. split; try done.
  - simpl. by rewrite mcast_to_pids.
  - eapply table_ok_ext; [| |exact H4]; [done|]. apply mcast_to_pids.
  - simpl. apply mcast_to_queues; [apply length_ubytes|done].
Qed.

Lemma mcast_hit cp s i p success :
  mcast_ready cp s ->
  let pid := rec_pid (k_mem s) (cpu_cr3 cp) rec_pids k in
  pid <> 0 -> find_idx (has_pid pid) (k_ptable s) = Some i -> k_ptable s !! i = Some p ->
  mcast_slot sender rec_pids msg k success i (acq c Lptable s)
  = Ok 1 (acq c Lptable (set k_ptable
      (mcast_to sender (ubytes (k_mem s) (cpu_cr3 cp) msg 8) (p_pid myp) pid) s)).
Proof.
  intros [Hr Hc Hme Ht Hq Hm Hl] pid Hpid Hf Hi.
  assert (p_pid p = pid) as Hp.
  { apply find_idx_Some in Hf as (p' & Hi' & Hh & _). simplify_eq. by apply Z.eqb_eq. }
  pose proof (Forall_lookup_1 _ _ _ _ Hq Hi) as [Q1 Q2 Q3].
  pose proof (running_acq c cp Lptable s (proj1 Hr)) as Hrun.
  unfold mcast_slot. kx (get_p_Ok i p (acq c Lptable s) Hi). kx (uload32_Ok c _ _ _ Hrun Hl).
  fold (rec_pid (k_mem s) (cpu_cr3 cp) rec_pids k). fold pid. rewrite Hp, Z.eqb_refl.
  kx (uloads_Ok c _ _ msg 8 Hrun Hm). rewrite put_message_Ok by done. unfold upd_p. kx.
  set (m := ubytes (k_mem s) (cpu_cr3 cp) msg 8).
  set (F := fun p => p <| p_recv_multi_queue := pushed sender m (p_recv_multi_queue p) |>).
  rewrite acq_ptable.
  match goal with |- context [alter ?f i] => rewrite (ptable_ext f F i p s Hi eq_refl) end.
  set (s2 := set k_ptable (alter F i) s).
  assert (map p_pid (k_ptable s2) = map p_pid (k_ptable s)) as Epid by by apply pids_alter.
  assert (table_ok s2) as Ht2 by by eapply table_ok_ext; [| |exact Ht].
  assert (k_ptable s2 !! i = Some (F p)) as Hi2 by (simpl; by rewrite list_lookup_alter_eq, Hi).
  rewrite <- Epid, list_lookup_fmap in Hme. apply fmap_Some in Hme as (me2 & Hme & Epm).
  erewrite (send_signal_Ok (acq c Lptable s2) me me2 pid 1 i (F p)).
  - kx. rewrite acq_ptable. f_equal. f_equal. unfold s2, set, set_k_ptable. simpl. f_equal.
    unfold mcast_to. by rewrite Hf, Hi, Epm.
  - rewrite <- Hc. by apply (myproc_inside c cp Lptable s2).
  - done.
  - by apply table_ok_len.
  - done.
  - done.
  - rewrite <- Hp. change (p_pid p) with (p_pid (F p)). apply table_ok_only; [done..|].
    simpl. by rewrite Hp.
  - done.
Qed.

(** One recipient: it gets message and signal if it exists. *)
Lemma mcast_body_Ok cp s success :
  mcast_ready cp s ->
  let pid := rec_pid (k_mem s) (cpu_cr3 cp) rec_pids k in
  pid <> 0 ->
  exists s', mcast_body sender rec_pids msg success k s
    = Ok (if bool_decide (pid ∈ map p_pid (k_ptable s)) then 1 else success) s' /\
    s' ≡ₖ set k_ptable
      (mcast_to sender (ubytes (k_mem s) (cpu_cr3 cp) msg 8) (p_pid myp) pid) s.
Proof.
  intros H pid Hpid. pose proof (mr_ready _ _ H) as Hr. unfold mcast_body.
  rewrite (bind_Ok _ _ _ _ _ (acquire_ready _ _ _ _ Hr)).
  pose proof (table_ok_len _ (mr_table _ _ H)) as Hlen.
  destruct (find_idx (has_pid pid) (k_ptable s)) as [i|] eqn:Hf.
  - destruct (find_idx_Some _ _ _ Hf) as (p & Hi & Hp & _). apply Z.eqb_eq in Hp.
    assert (i < NPROC)%nat as Hlt by (rewrite <- Hlen; by eapply lookup_lt_Some).
    rewrite bool_decide_true by (rewrite <- Hp; by apply list_elem_of_fmap_2, list_elem_of_lookup_2 with i).
    pose proof (table_ok_only _ _ _ (mr_table _ _ H) Hi ltac:(by rewrite Hp)) as Ho.
    rewrite (bind_Ok (for_fold _ _ _) _ _ 1 (acq c Lptable (set k_ptable
      (mcast_to sender (ubytes (k_mem s) (cpu_cr3 cp) msg 8) (p_pid myp) pid) s))).
    + by apply (release_acq_ret c cp).
    + rewrite (slots_split i Hlt), for_fold_skip.
      * kx (mcast_hit cp s i p success H Hpid Hf Hi). apply for_fold_inert. intros j Hj.
        apply (mcast_skip_others cp _ i j); [by apply mcast_ready_step|done| |done|].
        -- simpl. rewrite mcast_to_pids, list_lookup_fmap, Hi. simpl. by rewrite Hp.
        -- apply elem_of_app. by right.
      * intros j Hj. apply (mcast_skip_others cp s i j); [done|done| |done|].
        -- rewrite list_lookup_fmap, Hi. simpl. by rewrite Hp.
        -- apply elem_of_app. by left.
  - pose proof (find_idx_None _ _ Hf) as Hno. rewrite bool_decide_false.
    + rewrite (bind_Ok (for_fold _ _ _) _ _ success (acq c Lptable s)).
      * destruct (release_acq_ret c cp Lptable s success Hr) as (s' & E & Es). exists s'.
        split; [done|]. rewrite Es, ptable_same; [done|]. unfold mcast_to. by rewrite Hf.
      * apply for_fold_inert. intros j Hj. apply elem_of_seq in Hj.
        destruct (slot_lookup s j Hlen) as [q Hq]; [lia|].
        apply (mcast_skip cp s j q); [done..|]. apply Z.eqb_neq, Hno.
        by apply list_elem_of_lookup_2 with j.
    + intros (q & Eq & Hq)%list_elem_of_fmap. specialize (Hno q Hq). unfold has_pid in Hno. lia.
Qed.
End mcast.

Lemma mcast_ready_keq c me myp msg rp k cp s s' :
  s ≡ₖ s' -> mcast_ready c me myp msg rp k cp s ->
  forall cp', ready c cp' Lptable s' -> same_cpu cp cp' -> mcast_ready c me myp msg rp k cp' s'.
Proof.
  intros E [H1 H2 H3 H4 H5 H6 H7] cp' Hr [E1 E2 E3].
  split; rewrite ?E1, ?E2, <- ?E; done.
Qed.

Definition mcast_all (sender : Z) (m : list Z) (me : Z) (pids : list Z) (t : list proc) : list proc :=
  fold_left (fun t pid => mcast_to sender m me pid t) pids t.

Lemma mcast_all_pids sender m me pids t : map p_pid (mcast_all sender m me pids t) = map p_pid t.
Proof.
  revert t. induction pids as [|pid pids IH]; intros t; [done|]. unfold mcast_all in *. simpl.
  by rewrite IH, mcast_to_pids.
Qed.

Lemma mcast_loop c me myp sender msg rp l : forall cp s success,
  ready c cp Lptable s ->
  (forall k, k ∈ l -> mcast_ready c me myp msg rp k cp s /\ rec_pid (k_mem s) (cpu_cr3 cp) rp k <> 0) ->
  let pids := map (rec_pid (k_mem s) (cpu_cr3 cp) rp) l in
  exists s', for_fold l success (mcast_body sender rp msg) s
    = Ok (if existsb (fun pid => bool_decide (pid ∈ map p_pid (k_ptable s))) pids
          then 1 else success) s' /\
    s' ≡ₖ set k_ptable
      (mcast_all sender (ubytes (k_mem s) (cpu_cr3 cp) msg 8) (p_pid myp) pids) s.
Proof.
  induction l as [|k l IH]; intros cp s success Hr Hl pids; cbn [for_fold].
  { exists s. split; [done|]. by rewrite ptable_same. }
  destruct (Hl k ltac:(by left)) as [Hk Hpid].
  destruct (mcast_body_Ok c me myp sender msg rp k cp s success Hk Hpid) as (s1 & E1 & K1).
  rewrite (bind_Ok _ _ _ _ _ E1).
  set (s1' := set k_ptable _ s) in K1.
  destruct (ready_keq c cp Lptable s1' s1 (symmetry K1) Hr) as (cp1 & Hr1 & Hc1).
  pose proof (keq_mem _ _ K1) as Em. change (k_mem s1') with (k_mem s) in Em.
  destruct (IH cp1 s1 (if bool_decide (rec_pid (k_mem s) (cpu_cr3 cp) rp k ∈ map p_pid (k_ptable s))
    then 1 else success)) as (s2 & E2 & K2); [done| |].
  { intros k' Hk'. destruct (Hl k' ltac:(by right)) as [Hk1 Hk2].
    rewrite Em, (sc_cr3 _ _ Hc1). split; [|done].
    eapply mcast_ready_keq; [symmetry; exact K1| |done..]. by apply mcast_ready_step. }
  rewrite Em, (sc_cr3 _ _ Hc1), (keq_ptable _ _ K1) in E2. rewrite Em, (sc_cr3 _ _ Hc1), K1 in K2.
  unfold s1' in E2, K2. simpl k_ptable in E2. rewrite mcast_to_pids in E2.
  exists s2. split.
  - rewrite E2. f_equal. cbn [pids map existsb].
    by destruct (bool_decide _), (existsb _ _).
  - exact K2.
Qed.

(** [send_multicast] delivers message and signal to every recipient that
    exists, in the order of the list. *)
Lemma send_multicast_Ok c me myp sender msg rp len cp s :
  ready c cp Lptable s ->
  (forall k, 0 <= k < len ->
     mcast_ready c me myp msg rp k cp s /\ rec_pid (k_mem s) (cpu_cr3 cp) rp k <> 0) ->
  let pids := map (rec_pid (k_mem s) (cpu_cr3 cp) rp) (seqZ 0 len) in
  exists s', send_multicast sender rp msg len s
    = Ok (if existsb (fun pid => bool_decide (pid ∈ map p_pid (k_ptable s))) pids
          then 0 else -1) s' /\
    s' ≡ₖ set k_ptable
      (mcast_all sender (ubytes (k_mem s) (cpu_cr3 cp) msg 8) (p_pid myp) pids) s.
Proof.
  intros Hr Hl pids. unfold send_multicast.
  destruct (mcast_loop c me myp sender msg rp (seqZ 0 len) cp s (-1) Hr) as (s' & E & K).
  { intros k Hk%elem_of_seqZ. apply Hl. lia. }
  exists s'. split; [|done]. rewrite (bind_Ok _ _ _ _ _ E). fold pids.
  by destruct (existsb _ pids).
Qed.

(** ** pause_signal *)

Lemma curproc_Ok c cp i s :
  running c cp s -> cpu_ok cp -> cpu_proc cp = Some i ->
  curproc s = Ok i (on_cpu c cpu_touch s).
Proof. intros H Hok Hc. unfold curproc. kx (myproc_Ok c cp s H Hok). by rewrite Hc. Qed.

Lemma touch_ready c cp lk s : ready c cp lk s -> ready c (cpu_touch cp) lk (on_cpu c cpu_touch s).
Proof.
  intros (H & Hok & Hf). split; [by apply running_on_cpu|]. split; [by apply cpu_touch_ok|done].
Qed.

(** With a signal pending [pause_signal] returns at once. *)
Lemma pause_signal_Ok c cp i p s :
  ready c cp Lptable s -> cpu_proc cp = Some i -> k_ptable s !! i = Some p ->
  sg_head (p_pending_signals p) <> sg_tail (p_pending_signals p) ->
  exists s', pause_signal s = Ok tt s' /\ s' ≡ₖ s.
Proof.
  intros Hr Hc Hi Hne. unfold pause_signal. pose proof (touch_ready _ _ _ _ Hr) as Hr1.
  kx (curproc_Ok c cp i s (proj1 Hr) (proj1 (proj2 Hr)) Hc).
  rewrite (acquire_ready _ _ _ _ Hr1). kx.
  rewrite (get_p_Ok i p) by done. kx. rewrite (proj2 (Z.eqb_neq _ _) Hne). kx.
  destruct (release_acq c _ Lptable _ Hr1) as (s' & E & Es). exists s'. split; [done|].
  rewrite Es. eapply touch_keq; apply Hr.
Qed.

(** Without one it sleeps on the signal queue, and returns the first time it
    is picked again, whether or not a signal has come. *)
Lemma pause_signal_Susp c cp i p s :
  ready c cp Lptable s -> cpu_ncli cp = 0 -> cpu_proc cp = Some i -> k_ptable s !! i = Some p ->
  sg_head (p_pending_signals p) = sg_tail (p_pending_signals p) ->
  exists s1 k, pause_signal s = Susp WSched s1 k /\
    k_ptable s1 = k_ptable (asleep i (ChPendingSignals i) s) /\
    forall c' cp' s', in_ptable c' cp' i s' -> exists s2, k s' = Ok tt s2.
Proof.
  intros Hr Hn Hc Hi E. unfold pause_signal. pose proof (touch_ready _ _ _ _ Hr) as Hr1.
  assert (cpu_ncli (cpu_touch cp) = 0) as Hn1 by (simpl; lia).
  pose proof (acq_in_ptable _ _ i _ Hr1 Hn1 Hc) as Hin.
  kx (curproc_Ok c cp i s (proj1 Hr) (proj1 (proj2 Hr)) Hc).
  rewrite (acquire_ready _ _ _ _ Hr1). kx.
  rewrite (get_p_Ok i p) by done. kx. rewrite E, Z.eqb_refl. cbn [when].
  destruct (sleep_Susp _ _ i p (ChPendingSignals i) _ Hin Hi) as (k & Ek & Hk).
  rewrite Ek. cbn [obind]. eexists _, _. split_and!; [reflexivity|done|].
  intros c' cp' s' H'. cbv beta. rewrite (Hk _ _ _ H'). cbn [obind].
  eexists. by eapply release_in_ptable, woken_in_ptable.
Qed.

(** ** The properties *)

(** C16: a signal delivered on the way to user mode.  The process will enter
    its handler with, on its stack, the address of the return code, a pointer
    to the oldest multicast message, the message, the code and the whole
    interrupted frame; no other user memory changes; the oldest signal and the
    oldest multicast message, the one the handler gets, are consumed, and the
    unicast messages stay. *)
Theorem handle_signals_delivers T c cp i p s tf :
  deliverable T c cp i p s -> Z.land (tf_cs tf) 3 = DPL_USER ->
  exists s' p', handle_signals tf s = Ok tt s' /\ k_ptable s' !! i = Some p' /\
    tf_eip (p_tf p') = p_handler p /\ tf_esp (p_tf p') = sig_top p s /\ p_handling p' = 1 /\
    stack_at T (k_mem s) (k_mem s') (cpu_cr3 cp) (sig_top p s)
      (sig_block (k_link s) (p_tf p) (sig_msg p)) /\
    sig_pending (p_pending_signals p') = tail (sig_pending (p_pending_signals p)) /\
    (pending (p_recv_multi_queue p) <> [] ->
       exists sender, pending (p_recv_multi_queue p) = (sender, sig_msg p) :: pending (p_recv_multi_queue p')) /\
    ml_head (p_recv_multi_queue p') = (ml_head (p_recv_multi_queue p) + 1) mod NUM_MSG /\
    p_recv_queue p' = p_recv_queue p /\
    (forall j, j <> i -> k_ptable s' !! j = k_ptable s !! j).
Proof.
  intros D Hcs. destruct (handle_signals_Ok T c cp i p s tf D Hcs) as (s' & m' & E & Es & HS).
  pose proof (keq_ptable _ _ Es) as Et. pose proof (keq_mem _ _ Es) as Em. simpl in Et, Em.
  exists s', (signalled (sig_top p s) p). split_and!; [done| |done..| | | |done|done|].
  - rewrite Et, list_lookup_alter_eq. by rewrite (dl_slot _ _ _ _ _ _ D).
  - by rewrite Em.
  - unfold sig_pending, signalled. simpl. destruct (dl_sig_ok _ _ _ _ _ _ D) as [H1 H2 _ _].
    rewrite (items_pop MAX_SIG ltac:(done) _ (sg_head (p_pending_signals p))); [|done..|apply D].
    reflexivity.
  - intros Hne. pose proof (dl_ring _ _ _ _ _ _ D) as HR. rewrite (pending_nil _ HR) in Hne.
    eexists. exact (pending_popped _ HR Hne).
  - intros j Hj. by rewrite Et, list_lookup_alter_ne.
Qed.

(** A process with a multicast message and a signal pending, stack at 4096. *)
Definition demo_sig : proc :=
  (demo_proc 1 RUNNING ChNull) <| p_recv_multi_queue := pushed 9 demo_msg messages0 |>
    <| p_pending_signals := sig_pushed 1 9 signals0 |> <| p_handler := 0x200 |>
    <| p_tf := tf0 <| tf_cs := 0x1b |> <| tf_esp := 4096 |> <| tf_eip := 0x80 |> |>.

Lemma signals0_ok : sig_ok signals0.
Proof. by split. Qed.

Lemma demo_deliverable : deliverable demo_tables 0 demo_cpu 0 demo_sig (demo [demo_sig]).
Proof.
  split; try done.
  - apply pushed_ok; [apply messages0_ok|done].
  - repeat constructor; done.
  - repeat constructor; done.
  - by apply demo_space.
  - by apply demo_writable.
Qed.

Lemma handle_signals_delivers_witness :
  exists s' p', handle_signals (p_tf demo_sig) (demo [demo_sig]) = Ok tt s' /\
    k_ptable s' !! 0%nat = Some p' /\ tf_eip (p_tf p') = p_handler demo_sig /\
    tf_esp (p_tf p') = sig_top demo_sig (demo [demo_sig]) /\
    exists sender, pending (p_recv_multi_queue demo_sig) = (sender, sig_msg demo_sig) :: pending (p_recv_multi_queue p').
Proof.
  destruct (handle_signals_delivers demo_tables 0 demo_cpu 0 demo_sig (demo [demo_sig]) (p_tf demo_sig))
    as (s' & p' & E & H1 & H2 & H3 & _ & _ & _ & H4 & _).
  - apply demo_deliverable.
  - reflexivity.
  - exists s', p'. split_and!; try assumption. apply H4. vm_compute. discriminate.
Defined.

(** C17: the round trip of a signal.  If delivery is followed by a handler
    that leaves the saved frame alone and returns to the pushed code, then
    [ret_signal] puts back exactly the interrupted trap frame and ends the
    handling. *)
Theorem ret_signal_restores T c cp i p s tf s1 p1 c2 cp2 s2 p2 :
  deliverable T c cp i p s -> Z.land (tf_cs tf) 3 = DPL_USER -> tf_ok (p_tf p) ->
  handle_signals tf s = Ok tt s1 -> k_ptable s1 !! i = Some p1 ->
  ready c2 cp2 Lptable s2 -> cpu_proc cp2 = Some i -> k_link s2 = k_link s ->
  k_ptable s2 !! i = Some p2 -> tf_esp (p_tf p2) = tf_esp (p_tf p1) + 4 ->
  (let saved := tf_esp (p_tf p) - TRAPFRAME_SIZE in
   ureadable (k_mem s2) (cpu_cr3 cp2) saved 76 /\
   ubytes (k_mem s2) (cpu_cr3 cp2) saved 76 = ubytes (k_mem s1) (cpu_cr3 cp) saved 76) ->
  exists s3, ret_signal s2 = Ok tt s3 /\
    s3 ≡ₖ set k_ptable (alter (fun q => q <| p_tf := p_tf p |> <| p_handling := 0 |>) i) s2.
Proof.
  intros D Hcs Htf E1 Hp1 Hr2 Hc2 Hl Hp2 Hesp [Hrd Hsv].
  destruct (handle_signals_Ok T c cp i p s tf D Hcs) as (s1' & m' & E & Es & HS).
  rewrite E in E1. injection E1 as ->.
  pose proof (keq_ptable _ _ Es) as Et. pose proof (keq_mem _ _ Es) as Em. simpl in Et, Em.
  rewrite Et, list_lookup_alter_eq, (dl_slot _ _ _ _ _ _ D) in Hp1. simpl in Hp1. injection Hp1 as <-.
  simpl in Hesp. destruct (dl_esp _ _ _ _ _ _ D) as [D1 D2].
  assert (sig_top p s + 16 + codesize (k_link s) = tf_esp (p_tf p) - TRAPFRAME_SIZE) as Ea
    by (unfold sig_top, sig_block_size; lia).
  apply (signal_round_trip c2 cp2 i p2 (p_tf p) (sig_top p s) s2); try done.
  - rewrite Hl. unfold sig_top in *. lia.
  - split; [done|..]; rewrite Hl, Ea; [done|]. rewrite Hsv, Em.
    rewrite <- Ea. eapply sig_block_frame; [|exact HS]. apply head_message_size, D.
Qed.

(** The demo process in its handler, and after the handler returned. *)
Definition demo_s1 : kstate :=
  match handle_signals (p_tf demo_sig) (demo [demo_sig]) with Ok _ s => s | _ => demo [] end.
Definition demo_return (s : kstate) : kstate :=
  set k_ptable (alter (fun p => set p_tf (set tf_esp (fun sp => sp + 4)) p) 0%nat) s.
Abbreviation demo_s2 := (demo_return demo_s1).
Definition demo_p1 : proc := default proc0 (k_ptable demo_s1 !! 0%nat).
Definition demo_p2 : proc := default proc0 (k_ptable demo_s2 !! 0%nat).
Definition demo_c2 : cpu := default demo_cpu (k_cpus demo_s2 !! 0%nat).

Lemma demo_s1_mem a : demo_tables a -> load8 (k_mem demo_s1) a = load8 demo_mem a.
Proof.
  intros Ha.
  destruct (handle_signals_Ok demo_tables 0 demo_cpu 0 demo_sig (demo [demo_sig]) (p_tf demo_sig)
    demo_deliverable eq_refl) as (s' & m' & E & Es & HS).
  unfold demo_s1. rewrite E, (keq_mem _ _ Es). by rewrite (sa_tables _ _ _ _ _ _ HS).
Qed.

Lemma demo_return_mem s : k_mem (demo_return s) = k_mem s.
Proof. reflexivity. Qed.

Lemma ret_signal_restores_witness :
  exists s3, ret_signal demo_s2 = Ok tt s3 /\
    s3 ≡ₖ set k_ptable (alter (fun q => q <| p_tf := p_tf demo_sig |> <| p_handling := 0 |>) 0%nat) demo_s2.
Proof.
  apply (ret_signal_restores demo_tables 0 demo_cpu 0 demo_sig (demo [demo_sig]) (p_tf demo_sig)
    demo_s1 demo_p1 0 demo_c2 demo_s2 demo_p2).
  - apply demo_deliverable.
  - reflexivity.
  - repeat constructor; done.
  - vm_compute. reflexivity.
  - vm_compute. reflexivity.
  - repeat split; vm_compute; done.
  - vm_compute. reflexivity.
  - vm_compute. reflexivity.
  - vm_compute. reflexivity.
  - vm_compute. reflexivity.
  - split; [|vm_compute; reflexivity].
    assert (cpu_cr3 demo_c2 = 0x1000) as -> by (vm_compute; reflexivity).
    assert (tf_esp (p_tf demo_sig) - TRAPFRAME_SIZE = 4020) as -> by (vm_compute; reflexivity).
    rewrite demo_return_mem.
    apply uwritable_readable, (demo_writable (k_mem demo_s1)); [apply demo_s1_mem|lia|lia].
Defined.

(** What a multicast does to the queues of one process. *)
Definition mcast_queues (hit : bool) (sender : Z) (m : list Z) (me : Z) (p p' : proc) : Prop :=
  p_pid p' = p_pid p /\
  p_recv_multi_queue p' = (if hit then pushed sender m (p_recv_multi_queue p)
                           else p_recv_multi_queue p) /\
  p_pending_signals p' = (if hit then sig_pushed 1 me (p_pending_signals p)
                          else p_pending_signals p) /\
  p_recv_queue p' = p_recv_queue p.

Lemma wake_lookup ch t j p :
  t !! j = Some p -> exists st, wake ch t !! j = Some (p <| p_state := st |>).
Proof.
  intros Hj. unfold wake. rewrite lookup_upd_where, Hj. simpl.
  destruct (sleeps_on ch p); [by eexists|]. exists (p_state p). by destruct p.
Qed.

Lemma mcast_to_slot next sender m me pid t j p :
  pids_ok next (map p_pid t) -> pid <> 0 -> t !! j = Some p ->
  exists p', mcast_to sender m me pid t !! j = Some p' /\
    mcast_queues (p_pid p =? pid) sender m me p p'.
Proof.
  intros Hok Hpid Hj. unfold mcast_to.
  destruct (find_idx (has_pid pid) t) as [i|] eqn:Hf.
  2: { exists p. split; [done|]. pose proof (find_idx_None _ _ Hf p) as Hn. unfold has_pid in Hn.
       rewrite Hn by by apply list_elem_of_lookup_2 with j. done. }
  destruct (find_idx_Some _ _ _ Hf) as (q & Hi & Hq & _). apply Z.eqb_eq in Hq. rewrite Hi.
  unfold sig_delivered. destruct (decide (i = j)) as [->|Hne].
  - simplify_eq. rewrite Z.eqb_refl. destruct (wake_lookup (p_chan p)
      (alter (fun p => p <| p_pending_signals := sig_pushed 1 me (p_pending_signals p) |>) j
         (alter (fun p => p <| p_recv_multi_queue := pushed sender m (p_recv_multi_queue p) |>) j t))
      j _ ltac:(by rewrite list_lookup_alter_eq, list_lookup_alter_eq, Hj)) as [st Hst].
    eexists. split; [exact Hst|done].
  - assert (p_pid p <> pid) as Hpne.
    { intros E. apply Hne, (po_unique _ _ Hok i j pid); [..|done];
        rewrite list_lookup_fmap; [rewrite Hi|rewrite Hj]; simpl; by rewrite ?Hq, ?E. }
    rewrite (proj2 (Z.eqb_neq _ _) Hpne).
    destruct (wake_lookup (p_chan q)
      (alter (fun p => p <| p_pending_signals := sig_pushed 1 me (p_pending_signals p) |>) i
         (alter (fun p => p <| p_recv_multi_queue := pushed sender m (p_recv_multi_queue p) |>) i t))
      j p ltac:(by rewrite !list_lookup_alter_ne)) as [st Hst].
    eexists. split; [exact Hst|done].
Qed.

Lemma mcast_all_slot next sender m me pids t j p :
  pids_ok next (map p_pid t) -> Forall (fun pid => pid <> 0) pids -> NoDup pids ->
  t !! j = Some p ->
  exists p', mcast_all sender m me pids t !! j = Some p' /\
    mcast_queues (bool_decide (p_pid p ∈ pids)) sender m me p p'.
Proof.
  intros Hok Hnz. revert t p Hok. induction pids as [|pid pids IH]; intros t p Hok Hd Hj.
  { exists p. split; [done|]. by rewrite bool_decide_false by by apply not_elem_of_nil. }
  apply Forall_cons in Hnz as [Hp Hnz]. apply NoDup_cons in Hd as [Hni Hd].
  destruct (mcast_to_slot next sender m me pid t j p Hok Hp Hj) as (p1 & H1 & (E1 & E2 & E3 & E4)).
  destruct (IH Hnz (mcast_to sender m me pid t) p1) as (p2 & H2 & (F1 & F2 & F3 & F4));
    [by rewrite mcast_to_pids|done|done|].
  exists p2. split; [exact H2|]. unfold mcast_queues. rewrite F1, F2, F3, F4, E1, E2, E3, E4.
  destruct (Z.eqb_spec (p_pid p) pid) as [E|E].
  - rewrite (bool_decide_false (p_pid p ∈ pids)), (bool_decide_true (p_pid p ∈ pid :: pids));
      [done|rewrite E; by left|by rewrite E].
  - assert (bool_decide (p_pid p ∈ pid :: pids) = bool_decide (p_pid p ∈ pids)) as ->; [|done].
    apply bool_decide_ext. rewrite elem_of_cons. split; [intros [?|?]; done|by right].
Qed.

(** C20: a multicast to distinct pids, none of them 0.  It returns 0 exactly
    when at least one recipient exists.  A recipient with fewer than 31
    multicast messages gets the message at the end of that queue, and one with
    fewer than 4 signals gets signal 1 at the end of its signal queue; the
    queues are rings without a count, so that the 32nd message or the 5th
    signal makes the recipient's queue look empty.  The queues of everyone
    else, and all unicast queues, are unchanged. *)
Theorem send_multicast_reaches_all c me myp sender msg rp len cp s :
  ready c cp Lptable s ->
  (forall k, 0 <= k < len ->
     mcast_ready c me myp msg rp k cp s /\ rec_pid (k_mem s) (cpu_cr3 cp) rp k <> 0) ->
  0 < len -> NoDup (map (rec_pid (k_mem s) (cpu_cr3 cp) rp) (seqZ 0 len)) ->
  let pids := map (rec_pid (k_mem s) (cpu_cr3 cp) rp) (seqZ 0 len) in
  let m := ubytes (k_mem s) (cpu_cr3 cp) msg 8 in
  exists r s', send_multicast sender rp msg len s = Ok r s' /\
    (r = 0 <-> exists pid, pid ∈ pids /\ pid ∈ map p_pid (k_ptable s)) /\
    forall j p, k_ptable s !! j = Some p ->
      exists p', k_ptable s' !! j = Some p' /\
        pending (p_recv_multi_queue p') =
          (if bool_decide (p_pid p ∈ pids) then
             if decide (length (pending (p_recv_multi_queue p)) < 31)%nat
             then pending (p_recv_multi_queue p) ++ [(sender, m)] else []
           else pending (p_recv_multi_queue p)) /\
        sig_pending (p_pending_signals p') =
          (if bool_decide (p_pid p ∈ pids) then
             if decide (length (sig_pending (p_pending_signals p)) < 4)%nat
             then sig_pending (p_pending_signals p) ++ [(1, p_pid myp)] else []
           else sig_pending (p_pending_signals p)) /\
        p_recv_queue p' = p_recv_queue p.
Proof.
  intros Hr Hk Hlen Hd pids m.
  destruct (send_multicast_Ok c me myp sender msg rp len cp s Hr Hk) as (s' & E & Es).
  fold pids m in E, Es. eexists _, s'. split_and!; [exact E| |].
  - destruct (existsb _ pids) eqn:Ex.
    + split; [|done]. intros _. apply existsb_exists in Ex as (pid & H1 & H2%bool_decide_eq_true).
      exists pid. split; [by apply list_elem_of_In|done].
    + split; [done|]. intros (pid & H1 & H2). exfalso. rewrite <- not_true_iff_false in Ex. apply Ex.
      apply existsb_exists. exists pid. split; [by apply list_elem_of_In|by apply bool_decide_eq_true].
  - intros j p Hj. destruct (Hk 0 ltac:(lia)) as [Hr0 _].
    destruct (mcast_all_slot (k_nextpid s) sender m (p_pid myp) pids (k_ptable s) j p)
      as (p' & H1 & (F1 & F2 & F3 & F4)); [apply Hr0| |done|done|].
    { apply Forall_forall. intros pid (k & -> & Hin%elem_of_seqZ)%list_elem_of_fmap. apply Hk. lia. }
    pose proof (Forall_lookup_1 _ _ _ _ (mr_queues _ _ _ _ _ _ _ _ Hr0) Hj) as [_ Q2 Q3].
    exists p'. rewrite (keq_ptable _ _ Es). split_and!; [done| | |done].
    + rewrite F2. destruct (bool_decide _); [by apply pending_pushed|done].
    + rewrite F3. destruct (bool_decide _); [by apply sig_pending_pushed|done].
Qed.

(** [demo2], with the list [2] of recipients at address 300. *)
Definition demo2l : kstate := demo2 <| k_mem := store32 demo_mem (0x3000 + 300) 2 |>.

Lemma demo2l_mem a : demo_tables a -> load8 (k_mem demo2l) a = load8 demo_mem a.
Proof. intros H. unfold demo_tables in H. apply load8_store32_ne. lia. Qed.

Lemma demo2l_ready : mcast_ready 0 0 (demo_proc 1 RUNNING ChNull) 200 300 0 demo_cpu demo2l.
Proof.
  split.
  - done.
  - done.
  - done.
  - apply demo2_ok.
  - assert (forall pid st ch, queues_ok (demo_proc pid st ch)) as H.
    { intros. split; [apply messages0_ok|apply messages0_ok|apply signals0_ok]. }
    constructor; [apply H|]. constructor; [apply H|]. apply Forall_replicate.
    split; [apply messages0_ok|apply messages0_ok|apply signals0_ok].
  - apply uwritable_readable, demo_writable; [apply demo2l_mem|lia|lia].
  - apply uwritable_readable, demo_writable; [apply demo2l_mem|lia|lia].
Qed.

Lemma send_multicast_reaches_all_witness :
  exists s' p', send_multicast 1 300 200 1 demo2l = Ok 0 s' /\ k_ptable s' !! 1%nat = Some p' /\
    pending (p_recv_multi_queue p') = [(1, ubytes (k_mem demo2l) 0x1000 200 8)] /\
    sig_pending (p_pending_signals p') = [(1, 1)].
Proof.
  destruct (send_multicast_reaches_all 0 0 (demo_proc 1 RUNNING ChNull) 1 200 300 1 demo_cpu demo2l)
    as (r & s' & E & Hret & H).
  - apply (mr_ready _ _ _ _ _ _ _ _ demo2l_ready).
  - intros k Hk. assert (k = 0) as -> by lia. split; [apply demo2l_ready|].
    vm_compute. discriminate.
  - lia.
  - apply NoDup_singleton.
  - destruct (H 1%nat (demo_proc 2 SLEEPING (ChRecvQueue 1)) eq_refl) as (p' & Hp' & H1 & H2 & _).
    exists s', p'. rewrite E. rewrite (proj2 Hret); [|exists 2; split; apply (bool_decide_unpack _); vm_compute; exact I].
    split; [reflexivity|]. split; [exact Hp'|]. rewrite H1, H2. split; vm_compute; reflexivity.
Defined.

(** The signals pending for the process in slot [i]. *)
Definition sig_mailbox (s : kstate) (i : nat) : list (Z * Z) :=
  match k_ptable s !! i with Some p => sig_pending (p_pending_signals p) | None => [] end.

(** Pausing with no signal pending puts the process to sleep on its
    signal queue; it returns the first time it is picked again, with no
    second look at the queue. *)
Theorem pause_signal_waits_once c cp i p s :
  ready c cp Lptable s -> cpu_ncli cp = 0 -> cpu_proc cp = Some i -> k_ptable s !! i = Some p ->
  sig_ok (p_pending_signals p) -> sig_mailbox s i = [] ->
  exists s1 k p1, pause_signal s = Susp WSched s1 k /\
    k_ptable s1 !! i = Some p1 /\ p_state p1 = SLEEPING /\ p_chan p1 = ChPendingSignals i /\
    forall c' cp' s2, in_ptable c' cp' i s2 -> exists s3, k s2 = Ok tt s3.
Proof.
  intros Hr Hn Hc Hi [G1 G2 _ _] Hs. unfold sig_mailbox in Hs. rewrite Hi in Hs.
  apply items_nil in Hs; [|done..].
  destruct (pause_signal_Susp c cp i p s Hr Hn Hc Hi Hs) as (s1 & k & E & Et & Hk).
  exists s1, k, (p <| p_chan := ChPendingSignals i |> <| p_state := SLEEPING |>).
  split_and!; [done| |done|done|done].
  rewrite Et. simpl. by rewrite list_lookup_alter_eq, Hi.
Qed.

Lemma pause_signal_waits_once_witness :
  exists s1 k, pause_signal (demo [demo_proc 1 RUNNING ChNull]) = Susp WSched s1 k.
Proof.
  destruct (pause_signal_waits_once 0 demo_cpu 0 (demo_proc 1 RUNNING ChNull)
    (demo [demo_proc 1 RUNNING ChNull])) as (s1 & k & p1 & E & _).
  - apply demo_ready.
  - reflexivity.
  - reflexivity.
  - reflexivity.
  - apply signals0_ok.
  - reflexivity.
  - exists s1, k. exact E.
Defined.
