(* ===== verification/Thread.v ===== *)
(** * A thread that is not disturbed

    Rules for running kernel code of the current process when every lock it
    needs is free or its own: [thr me L s] says that process [me] runs, holds
    the spinlocks [L] and no spinlock is held otherwise.  Taking and releasing
    locks changes only lock words and, in a CPU record, what [pushcli] and
    [popcli] use; [upto s s'] says that the states agree elsewhere. *)

From stdpp Require Import base numbers list list_numbers gmap strings.
From S2P Require Import Prelude Kmonad Params Kstate Spinlock KString Kalloc Cprintf Vm Umem Demo Sched.

Local Open Scope Z_scope.

(** ** States up to CPUs and locks *)

Definition cpu_bare (cp : cpu) : cpu := cp <| cpu_ncli := 0 |> <| cpu_intena := 0 |> <| cpu_if := false |>.
Definition erase (s : kstate) : kstate := s <| k_cpus := map cpu_bare (k_cpus s) |> <| k_locks := ∅ |>.
Definition upto (s s' : kstate) : Prop := erase s' = erase s.

#[export] Instance upto_equiv : Equivalence upto.
Proof. split; unfold upto; [done|by intros ? ? ->|]. by intros ? ? ? -> ->. Qed.

Lemma upto_proj {A} (f : kstate -> A) s s' : (forall x, f (erase x) = f x) -> upto s s' -> f s' = f s.
Proof. intros Hf E. by rewrite <- (Hf s'), E. Qed.

Lemma upto_neutral f s s' : (forall x, erase (f x) = f (erase x)) -> upto s s' -> upto (f s) (f s').
Proof. unfold upto. intros Hf E. by rewrite !Hf, E. Qed.

Lemma keq_upto s s' : s' ≡ₖ s -> upto s s'.
Proof.
  intros [E _]. assert (forall t, erase (quiet t) = erase t) as H; [|unfold upto; by rewrite <- (H s'), E, H].
  intros t. unfold erase, quiet, set, set_k_cpus, set_k_locks. simpl. f_equal. rewrite map_map. apply map_ext.
  intros x. unfold cpu_norm. by destruct (cpu_ncli x =? 0).
Qed.

Lemma erase_on_cpu c f s : (forall cp, cpu_bare (f cp) = cpu_bare cp) -> erase (on_cpu c f s) = erase s.
Proof.
  intros Hf. unfold erase, on_cpu, set, set_k_cpus, set_k_locks. simpl. f_equal. apply list_eq. intros i.
  change (map ?f ?l) with (f <$> l). rewrite !list_lookup_fmap, list_lookup_alter. case_decide; [subst; destruct (k_cpus s !! i); simpl; by rewrite ?Hf|done].
Qed.
Lemma upto_acq c lk s : upto s (acq c lk s).
Proof. unfold upto. transitivity (erase (on_cpu c cpu_push s)); [done|]. by apply erase_on_cpu. Qed.
Lemma upto_rel c lk s : upto s (rel c lk s).
Proof. unfold upto, rel. rewrite erase_on_cpu; done. Qed.

(** The page directory that user addresses go through. *)
Definition user_pd (s : kstate) : option Z := match cur_cpu s with Some c => cpu_cr3 <$> k_cpus s !! c | None => None end.

Lemma erase_user_pd s : user_pd (erase s) = user_pd s.
Proof.
  unfold user_pd, cur_cpu, erase. simpl. assert (forall l, find_idx (fun x => cpu_apicid x =? k_apicid s) (map cpu_bare l)
    = find_idx (fun x => cpu_apicid x =? k_apicid s) l) as E by (intros l; induction l as [|x l IH]; simpl; [done|]; by rewrite IH).
  rewrite E. destruct (find_idx _ _) as [c|]; [|done]. change (map cpu_bare (k_cpus s)) with (cpu_bare <$> k_cpus s).
  rewrite list_lookup_fmap. by destruct (k_cpus s !! c).
Qed.

Ltac upto_simpl E := rewrite ?(upto_proj k_bufs _ _ ltac:(done) E), ?(upto_proj k_bhead _ _ ltac:(done) E),
  ?(upto_proj k_disk _ _ ltac:(done) E), ?(upto_proj k_log _ _ ltac:(done) E), ?(upto_proj k_ptable _ _ ltac:(done) E).

(** ** The running thread *)

Definition thr (me : nat) (L : list lockid) (s : kstate) : Prop :=
  exists c cp, running c cp s /\ cpu_ok cp /\ cpu_proc cp = Some me /\ Z.of_nat (length L) <= cpu_ncli cp /\
    table_len s /\ (me < NPROC)%nat /\
    forall lk, lock_of s lk = if decide (lk ∈ L) then MkLock 1 (Some c) else MkLock 0 None.

#[export] Instance thr_keq me L : Proper (keq ==> iff) (thr me L).
Proof.
  assert (forall s s', s ≡ₖ s' -> thr me L s -> thr me L s') as H.
  { intros s s' E (c & cp & Hr & Hok & Hp & Hn & Ht & Hm & Hl).
    destruct (keq_running _ _ _ _ E Hr) as (cp' & Hr' & En). exists c, cp'.
    split_and!; [done|by eapply cpu_norm_ok|..].
    - by rewrite (cpu_norm_keeps cpu_proc cp cp').
    - by rewrite (cpu_norm_keeps cpu_ncli cp cp').
    - unfold table_len. by rewrite <- (keq_proj k_ptable _ _ ltac:(done) E).
    - done.
    - intros lk. rewrite <- (proj2 E). apply Hl. }
  intros s s' E. split; apply H; [done|by symmetry].
Qed.

Lemma thr_neutral f me L s :
  lock_neutral f -> (forall t, length (k_ptable (f t)) = length (k_ptable t)) -> thr me L s -> thr me L (f s).
Proof.
  intros Hf Ht (c & cp & [R1 R2] & Hok & Hp & Hn & Hl & Hm & Hlk). exists c, cp.
  split_and!; [|done..| |done|].
  - split; unfold cur_cpu in *; by rewrite ?(ln_cpus (f := f)), ?(ln_apicid (f := f)).
  - unfold table_len in *. by rewrite Ht.
  - intros lk. unfold lock_of. rewrite (ln_locks (f := f)). apply Hlk.
Qed.

Section rules.
Context (me : nat) (L : list lockid) (s : kstate).
Hypothesis H : thr me L s.

Lemma wp_acquire lk (Q : unit -> kstate -> Prop) :
  lk ∉ L -> (forall s', thr me (lk :: L) s' -> upto s s' -> Q tt s') -> wp (acquire lk) Q s.
Proof.
  intros Hn HQ. destruct H as (c & cp & Hr & Hok & Hp & Hc & Ht & Hm & Hl).
  eapply wp_of_eq; [apply (acquire_Ok c cp); [done..|]|].
  { by rewrite Hl, decide_False. }
  apply HQ; [|apply upto_acq]. exists c, (cpu_push cp). split_and!; [by apply running_acq|by apply cpu_push_ok|done|..].
  - simpl. lia.
  - done.
  - done.
  - intros lk'. destruct (decide (lk = lk')) as [<-|Hne].
    + rewrite lock_of_acq, decide_True; [done|by left].
    + rewrite lock_of_acq_ne, Hl by done. apply decide_ext. rewrite elem_of_cons. split; [by right|by intros [->|]].
Qed.

Lemma wp_myproc (Q : option nat -> kstate -> Prop) :
  (forall s', thr me L s' -> upto s s' -> Q (Some me) s') -> wp myproc Q s.
Proof.
  intros HQ. destruct H as (c & cp & Hr & Hok & Hp & Hc & Ht & Hm & Hl).
  eapply wp_of_eq; [by apply (myproc_Ok c cp)|]. rewrite Hp. apply HQ; [|by apply erase_on_cpu].
  exists c, (cpu_touch cp). split_and!; [by apply running_on_cpu|by apply cpu_touch_ok|done| |done|done|done].
  simpl. lia.
Qed.

Lemma wp_curproc (Q : nat -> kstate -> Prop) :
  (forall s', thr me L s' -> upto s s' -> Q me s') -> wp curproc Q s.
Proof. intros HQ. apply wp_bind, wp_myproc. intros s' H1 H2. by apply HQ. Qed.

Lemma thr_slot : exists p, k_ptable s !! me = Some p.
Proof. destruct H as (c & cp & _ & _ & _ & _ & Ht & Hm & _). by apply slot_lookup. Qed.

Lemma wp_get_me (Q : proc -> kstate -> Prop) :
  (forall p, k_ptable s !! me = Some p -> Q p s) -> wp (get_p me) Q s.
Proof. intros HQ. destruct thr_slot as [p Hp]. eapply wp_of_eq; [by apply get_p_Ok|]. auto. Qed.

Lemma wp_wakeup ch (Q : unit -> kstate -> Prop) :
  Lptable ∉ L -> (forall s', thr me L s' -> upto (set k_ptable (wake ch) s) s' -> Q tt s') -> wp (wakeup ch) Q s.
Proof.
  intros Hn HQ. destruct (H) as (c & cp & Hr & Hok & Hp & Hc & Ht & Hm & Hl).
  destruct (wakeup_Ok c cp ch s) as (s' & E & Es); [|done|].
  { split_and!; [done..|]. unfold lock_free. by rewrite Hl, decide_False. }
  eapply wp_of_eq; [exact E|]. apply HQ; [|by apply keq_upto].
  rewrite Es. apply (thr_neutral (set k_ptable (wake ch))); [apply _| |done].
  intros t. simpl. unfold wake, upd_where. by rewrite length_map.
Qed.

(** Work that leaves CPUs and locks alone. *)
Lemma wp_neutral f (Q : unit -> kstate -> Prop) :
  lock_neutral f -> (forall t, length (k_ptable (f t)) = length (k_ptable t)) ->
  (thr me L (f s) -> Q tt (f s)) -> wp (modify f : KM unit) Q s.
Proof. intros Hf Ht HQ. apply wp_modify, HQ. by apply thr_neutral. Qed.
End rules.

Lemma wp_release me L lk s (Q : unit -> kstate -> Prop) :
  thr me (lk :: L) s -> lk ∉ L -> (forall s', thr me L s' -> upto s s' -> Q tt s') -> wp (release lk) Q s.
Proof.
  intros (c & cp & Hr & Hok & Hp & Hc & Ht & Hm & Hl) Hn HQ. simpl in Hc.
  pose proof (Hl lk) as Hlk. rewrite decide_True in Hlk by (by left).
  eapply wp_of_eq; [apply (release_Ok c cp); [done|done|lia|by rewrite Hlk..]|].
  apply HQ; [|apply upto_rel]. exists c, (cpu_pop cp). split_and!; [by apply running_rel|apply cpu_pop_ok; [done|lia]|done|..].
  - simpl. lia.
  - done.
  - done.
  - intros lk'. destruct (decide (lk = lk')) as [<-|Hne].
    + rewrite decide_False by done. apply (lock_of_insert s).
    + rewrite lock_of_rel_ne, Hl by done. apply decide_ext. rewrite elem_of_cons. split; [by intros [->|]|by right].
Qed.

Lemma demo_thr procs : procs <> [] -> (length procs <= NPROC)%nat -> thr 0 [] (demo procs).
Proof.
  intros Hne Hlen. destruct (demo_ready procs Lptable) as (Hr & Hok & _). exists 0%nat, demo_cpu.
  split_and!; [done|done|done|done| |unfold NPROC; lia|].
  - unfold table_len. simpl. rewrite length_app, length_replicate. lia.
  - intros lk. rewrite decide_False by apply not_elem_of_nil. done.
Qed.
