(* ===== verification/Sleeplock.v ===== *)
(** * Sleep-locks (sleeplock.c)

    A sleep-lock is a flag and the pid of its holder, protected by a spinlock
    of its own; a process that finds it taken sleeps on it.  [fuel] bounds the
    number of wakeups of a wait loop, here and in the files above. *)

From stdpp Require Import base numbers list list_numbers gmap strings.
From S2P Require Import Prelude Kmonad Params Kstate Spinlock KString Kalloc Cprintf Vm Umem Demo Sched Thread.

Local Open Scope Z_scope.

(** The lock is a field of its buffer or inode. *)
Definition get_sl (l : sleepid) : KM sleeplock :=
  match l with
  | SLbuf i => let* b := get_b i in ret (b_lock b)
  | SLinode i => let* ip := get_i i in ret (i_lock ip)
  end.
Definition upd_sl (l : sleepid) (f : sleeplock -> sleeplock) : KM unit :=
  match l with
  | SLbuf i => upd_b i (set b_lock f)
  | SLinode i => upd_i i (set i_lock f)
  end.

Definition initsleeplock (l : sleepid) : KM unit :=
  initlock (Lsleep l) ;;
  upd_sl l (fun lk => lk <| sl_locked := 0 |> <| sl_pid := 0 |>).

(** [while (lk->locked) sleep(lk, &lk->lk);] *)
Fixpoint sleeplock_wait (fuel : nat) (l : sleepid) : KM unit :=
  let* lk := get_sl l in
  if sl_locked lk =? 0 then ret tt else
  sleep (ChSleepLock l) (Some (Lsleep l)) ;;
  match fuel with O => nofuel | S fuel => sleeplock_wait fuel l end.

Definition acquiresleep (fuel : nat) (l : sleepid) : KM unit :=
  acquire (Lsleep l) ;;
  sleeplock_wait fuel l ;;
  upd_sl l (fun lk => lk <| sl_locked := 1 |>) ;;
  let* i := curproc in
  let* p := get_p i in
  upd_sl l (fun lk => lk <| sl_pid := p_pid p |>) ;;
  release (Lsleep l).

Definition releasesleep (l : sleepid) : KM unit :=
  acquire (Lsleep l) ;;
  upd_sl l (fun lk => lk <| sl_locked := 0 |>) ;;
  upd_sl l (fun lk => lk <| sl_pid := 0 |>) ;;
  wakeup (ChSleepLock l) ;;
  release (Lsleep l).

Definition holdingsleep (l : sleepid) : KM bool :=
  acquire (Lsleep l) ;;
  let* lk := get_sl l in
  let* r := (if sl_locked lk =? 0 then ret false else
             let* i := curproc in
             let* p := get_p i in
             ret (sl_pid lk =? p_pid p)) in
  release (Lsleep l) ;;
  ret r.

(** ** Rules *)

Definition slof (s : kstate) (l : sleepid) : option sleeplock :=
  match l with
  | SLbuf i => b_lock <$> k_bufs s !! i
  | SLinode i => i_lock <$> k_icache s !! i
  end.
Definition slset (l : sleepid) (v : sleeplock) (s : kstate) : kstate :=
  match l with
  | SLbuf i => set k_bufs (alter (fun b => b <| b_lock := v |>) i) s
  | SLinode i => set k_icache (alter (fun ip => ip <| i_lock := v |>) i) s
  end.

#[export] Instance slset_neutral l v : lock_neutral (slset l v).
Proof. destruct l; apply _. Qed.

Lemma get_sl_Ok s l v : slof s l = Some v -> get_sl l s = Ok v s.
Proof.
  destruct l as [i|i]; simpl; intros E.
  - destruct (k_bufs s !! i) as [b|] eqn:Eb; [|done]. injection E as <-.
    unfold get_b, bind, gets. simpl. by rewrite Eb.
  - destruct (k_icache s !! i) as [ip|] eqn:Eb; [|done]. injection E as <-.
    unfold get_i, bind, gets. simpl. by rewrite Eb.
Qed.

Lemma upd_sl_Ok s l f v : slof s l = Some v -> upd_sl l f s = Ok tt (slset l (f v) s).
Proof.
  destruct l as [i|i]; simpl; intros E; unfold upd_b, upd_i, modify; f_equal.
  - destruct (k_bufs s !! i) as [b|] eqn:Eb; [|done]. injection E as <-.
    unfold set at 1 3. unfold set_k_bufs. f_equal. apply list_eq. intros j.
    rewrite !list_lookup_alter. case_decide; [subst; by rewrite Eb|done].
  - destruct (k_icache s !! i) as [ip|] eqn:Eb; [|done]. injection E as <-.
    unfold set at 1 3. unfold set_k_icache. f_equal. apply list_eq. intros j.
    rewrite !list_lookup_alter. case_decide; [subst; by rewrite Eb|done].
Qed.

Lemma slof_slset s l v w : slof s l = Some w -> slof (slset l v s) l = Some v.
Proof.
  destruct l as [i|i]; simpl; rewrite list_lookup_alter_eq.
  - by destruct (k_bufs s !! i).
  - by destruct (k_icache s !! i).
Qed.

Lemma slset_twice s l v w : slset l v (slset l w s) = slset l v s.
Proof.
  destruct l as [i|i]; simpl; unfold set at 1 3 5; [unfold set_k_bufs|unfold set_k_icache]; f_equal; simpl;
    rewrite list_alter_alter_eq; done.
Qed.

Lemma slof_upto s s' l : upto s s' -> slof s' l = slof s l.
Proof. intros E. by apply (upto_proj (fun s => slof s l)); [destruct l|]. Qed.

Lemma slset_upto l v s s' : upto s s' -> upto (slset l v s) (slset l v s').
Proof. apply upto_neutral. by destruct l. Qed.

Section sleep_rules.
Context (me : nat) (L : list lockid) (l : sleepid) (s : kstate) (v : sleeplock).
Hypothesis H : thr me L s.
Hypothesis HL : Lsleep l ∉ L.
Hypothesis Hv : slof s l = Some v.

Lemma thr_slset w K t : thr me K t -> thr me K (slset l w t).
Proof. apply thr_neutral; [apply _|]. by destruct l. Qed.

Lemma wp_acquiresleep fuel (Q : unit -> kstate -> Prop) :
  sl_locked v = 0 ->
  (forall p s', k_ptable s !! me = Some p -> thr me L s' -> upto (slset l (MkSleeplock 1 (p_pid p)) s) s' -> Q tt s') ->
  wp (acquiresleep fuel l) Q s.
Proof.
  intros Hfree HQ. unfold acquiresleep. apply wp_bind, (wp_acquire me L); [done|done|]. intros s1 H1 E1.
  assert (slof s1 l = Some v) as Hv1 by by rewrite (slof_upto s s1).
  apply wp_bind. eapply (wp_of_eq _ _ s1 tt s1).
  { destruct fuel; simpl; rewrite (bind_Ok _ _ _ _ _ (get_sl_Ok s1 l v Hv1)); by rewrite Hfree. }
  apply wp_bind. eapply wp_of_eq; [by apply upd_sl_Ok|].
  set (v1 := v <| sl_locked := 1 |>). pose proof (thr_slset v1 _ _ H1) as H2.
  apply wp_bind, (wp_curproc me (Lsleep l :: L)); [done|]. intros s3 H3 E3.
  apply wp_bind, (wp_get_me me (Lsleep l :: L)); [done|]. intros p Hp.
  assert (slof s3 l = Some v1) as Hv3 by by rewrite (slof_upto _ _ _ E3), (slof_slset _ _ _ v).
  apply wp_bind. eapply wp_of_eq; [by apply upd_sl_Ok|].
  apply (wp_release me L); [by apply thr_slset|done|]. intros s4 H4 E4.
  assert (k_ptable s !! me = Some p) as Hp0.
  { rewrite (upto_proj k_ptable _ _ ltac:(done) E3) in Hp.
    rewrite <- (upto_proj k_ptable _ _ ltac:(done) E1). revert Hp. by destruct l. }
  apply (HQ p); [done|done|]. etransitivity; [|exact E4].
  etransitivity; [|apply slset_upto, E3]. rewrite slset_twice. by apply slset_upto.
Qed.

Lemma wp_releasesleep (Q : unit -> kstate -> Prop) :
  Lptable ∉ L ->
  (forall s', thr me L s' -> upto (set k_ptable (wake (ChSleepLock l)) (slset l (MkSleeplock 0 0) s)) s' -> Q tt s') ->
  wp (releasesleep l) Q s.
Proof.
  intros Hp HQ. unfold releasesleep. apply wp_bind, (wp_acquire me L); [done|done|]. intros s1 H1 E1.
  assert (slof s1 l = Some v) as Hv1 by by rewrite (slof_upto s s1).
  apply wp_bind. eapply wp_of_eq; [by apply upd_sl_Ok|].
  apply wp_bind. eapply wp_of_eq; [by apply upd_sl_Ok, (slof_slset _ _ _ v)|]. rewrite slset_twice.
  apply wp_bind, (wp_wakeup me (Lsleep l :: L)); [by apply thr_slset| |].
  { rewrite elem_of_cons. by intros [|]. }
  intros s3 H3 E3. apply (wp_release me L); [done|done|]. intros s4 H4 E4. apply HQ; [done|].
  etransitivity; [|exact E4]. etransitivity; [|exact E3].
  by apply (upto_neutral (set k_ptable (wake (ChSleepLock l)))), slset_upto.
Qed.

Lemma wp_holdingsleep p (Q : bool -> kstate -> Prop) :
  v = MkSleeplock 1 (p_pid p) -> k_ptable s !! me = Some p ->
  (forall s', thr me L s' -> upto s s' -> Q true s') -> wp (holdingsleep l) Q s.
Proof.
  intros -> Hp HQ. unfold holdingsleep. apply wp_bind, (wp_acquire me L); [done|done|]. intros s1 H1 E1.
  apply wp_bind. eapply wp_of_eq; [apply get_sl_Ok; by rewrite (slof_upto s s1)|].
  apply wp_bind. cbn [sl_locked Z.eqb]. apply wp_bind, (wp_curproc me (Lsleep l :: L)); [done|]. intros s2 H2 E2.
  assert (k_ptable s2 !! me = Some p) as Hp2.
  { by rewrite (upto_proj k_ptable _ _ ltac:(done) E2), (upto_proj k_ptable _ _ ltac:(done) E1). }
  apply wp_bind. eapply wp_of_eq; [by apply get_p_Ok|]. apply wp_ret. cbn [sl_pid]. rewrite Z.eqb_refl.
  apply wp_bind, (wp_release me L); [done|done|]. intros s3 H3 E3. apply wp_ret, HQ; [done|].
  by rewrite E1, E2.
Qed.
End sleep_rules.
