(* ===== verification/Bio.v ===== *)
(** * Buffer cache (bio.c) and its disk drivers (memide.c, ide.c)

    The cache is the doubly linked list of [NBUF] buffers through [prev] and
    [next], most recently used first.  The drivers implement the class
    [Disk]; the cache and everything above are written against it.  The disk
    is the history of its block writes, newest first, so that the states a
    crash can leave are the suffixes of the history. *)

From stdpp Require Import base numbers list list_numbers gmap strings.
From S2P Require Import Prelude Kmonad Params Kstate Spinlock KString Kalloc Cprintf Vm Umem Sched Sleeplock.

Local Open Scope Z_scope.

(** ** The disk *)

Abbreviation history := (list (Z * Z * list Z)).

Definition zero_block : list Z := replicate (Z.to_nat BSIZE) 0.

(** The block last written at [dev], [bno]. *)
Fixpoint disk_read (d : history) (dev bno : Z) : list Z :=
  match d with
  | [] => zero_block
  | (dv, b, data) :: d => if (dv =? dev) && (b =? bno) then data else disk_read d dev bno
  end.

(** What the cache needs from a driver: [iderw]. *)
Class Disk := { iderw : nat -> KM unit }.

Definition flag (b : buf) (f : Z) : bool := negb (Z.land (b_flags b) f =? 0).

(** ** memide.c *)

Section memide.
(** Number of blocks of the image. *)
Context (disksize : Z).

Definition memide_rw (i : nat) : KM unit :=
  let* h := holdingsleep (SLbuf i) in
  if negb h then panic "iderw: buf not locked" else
  let* b := get_b i in
  if Z.land (b_flags b) (Z.lor B_VALID B_DIRTY) =? B_VALID then panic "iderw: nothing to do" else
  if negb (b_dev b =? 1) then panic "iderw: request not for disk 1" else
  if disksize <=? b_blockno b then panic "iderw: block out of range" else
  (if flag b B_DIRTY then
     upd_b i (set b_flags (fun f => Z.land f (Z.lnot B_DIRTY))) ;;
     modify (set k_disk (cons (b_dev b, b_blockno b, b_data b)))
   else
     let* d := gets k_disk in
     upd_b i (fun b => b <| b_data := disk_read d (b_dev b) (b_blockno b) |>)) ;;
  upd_b i (set b_flags (fun f => Z.lor f B_VALID)).

Definition memide : Disk := {| iderw := memide_rw |}.
End memide.

(** ** ide.c

    The controller takes a block address (28 bits) and a unit number from its
    ports; a write is in the history once [idestart] has handed the data
    over.  [idestart] calls [idewait] to wait for a ready controller and does
    not use the result; that call has no effect here. *)

Definition IDE_BSY : Z := 0x80.
Definition IDE_DRDY : Z := 0x40.
Definition IDE_DF : Z := 0x20.
Definition IDE_ERR : Z := 0x01.

(** [rs] are the values that [inb(0x1f7)] gives; [None] when the drive is not
    ready in any of them. *)
Fixpoint idewait (checkerr : bool) (rs : list Z) : option Z :=
  match rs with
  | [] => None
  | r :: rs =>
      if Z.land r (Z.lor IDE_BSY IDE_DRDY) =? IDE_DRDY
      then Some (if checkerr && negb (Z.land r (Z.lor IDE_DF IDE_ERR) =? 0) then -1 else 0)
      else idewait checkerr rs
  end.

Definition IDE_SECTOR (b : buf) : Z := Z.land (b_blockno b) 0x0fffffff.
Definition IDE_UNIT (b : buf) : Z := Z.land (b_dev b) 1.

Definition ideinit (disk1 : bool) : KM unit :=
  initlock Lide ;;
  when disk1 (modify (fun s => s <| k_havedisk1 := 1 |>)).

Definition idestart (o : option nat) : KM unit :=
  match o with
  | None => panic "idestart"
  | Some i =>
      let* b := get_b i in
      if FSSIZE <=? b_blockno b then panic "incorrect blockno" else
      when (flag b B_DIRTY)
        (modify (set k_disk (cons (IDE_UNIT b, IDE_SECTOR b, b_data b))))
  end.

(** After an error the buffer keeps its data, and is still marked valid. *)
Definition ideintr (rs : list Z) : KM unit :=
  acquire Lide ;;
  let* q := gets k_idequeue in
  match q with
  | [] => release Lide
  | i :: q =>
      modify (fun s => s <| k_idequeue := q |>) ;;
      let* b := get_b i in
      when (negb (flag b B_DIRTY)) (
        match idewait true rs with
        | None => nofuel
        | Some r =>
            when (0 <=? r) (
              let* d := gets k_disk in
              upd_b i (fun b => b <| b_data := disk_read d (IDE_UNIT b) (IDE_SECTOR b) |>))
        end) ;;
      upd_b i (set b_flags (fun f => Z.lor f B_VALID)) ;;
      upd_b i (set b_flags (fun f => Z.land f (Z.lnot B_DIRTY))) ;;
      wakeup (ChBuf i) ;;
      when (bool_decide (q <> [])) (idestart (head q)) ;;
      release Lide
  end.

(** The wait loop of [iderw]; [fuel] bounds the wakeups. *)
Fixpoint ide_wait (fuel : nat) (i : nat) : KM unit :=
  let* b := get_b i in
  if Z.land (b_flags b) (Z.lor B_VALID B_DIRTY) =? B_VALID then ret tt else
  sleep (ChBuf i) (Some Lide) ;;
  match fuel with O => nofuel | S fuel => ide_wait fuel i end.

Definition ide_rw (fuel : nat) (i : nat) : KM unit :=
  let* h := holdingsleep (SLbuf i) in
  if negb h then panic "iderw: buf not locked" else
  let* b := get_b i in
  if Z.land (b_flags b) (Z.lor B_VALID B_DIRTY) =? B_VALID then panic "iderw: nothing to do" else
  let* have := gets k_havedisk1 in
  if negb (b_dev b =? 0) && (have =? 0) then panic "iderw: ide disk 1 not present" else
  acquire Lide ;;
  modify (set k_idequeue (fun q => q ++ [i])) ;;
  let* q := gets k_idequeue in
  when (bool_decide (head q = Some i)) (idestart (Some i)) ;;
  ide_wait fuel i ;;
  release Lide.

Definition ide (fuel : nat) : Disk := {| iderw := ide_rw fuel |}.

(** ** bio.c *)

(** The links of the list, through the head or a buffer. *)
Definition get_next (p : bufptr) : KM bufptr :=
  match p with
  | BHead => gets (fun s => (k_bhead s).2)
  | BBuf i => let* b := get_b i in ret (b_next b)
  end.
Definition get_prev (p : bufptr) : KM bufptr :=
  match p with
  | BHead => gets (fun s => (k_bhead s).1)
  | BBuf i => let* b := get_b i in ret (b_prev b)
  end.
Definition set_next (p v : bufptr) : KM unit :=
  match p with
  | BHead => modify (set k_bhead (fun h => (h.1, v)))
  | BBuf i => upd_b i (fun b => b <| b_next := v |>)
  end.
Definition set_prev (p v : bufptr) : KM unit :=
  match p with
  | BHead => modify (set k_bhead (fun h => (v, h.2)))
  | BBuf i => upd_b i (fun b => b <| b_prev := v |>)
  end.

(** Put buffer [i] first in the list. *)
Definition link_first (i : nat) : KM unit :=
  let* first := get_next BHead in
  set_next (BBuf i) first ;;
  set_prev (BBuf i) BHead.
Definition link_back (i : nat) : KM unit :=
  let* first := get_next BHead in
  set_prev first (BBuf i) ;;
  set_next BHead (BBuf i).

Definition binit : KM unit :=
  initlock Lbcache ;;
  set_prev BHead BHead ;;
  set_next BHead BHead ;;
  for_each (seq 0 NBUF) (fun i =>
    link_first i ;;
    initsleeplock (SLbuf i) ;;
    link_back i).

(** Follow the list from [p] to the first buffer satisfying [t]. *)
Fixpoint scan_bufs (fuel : nat) (step : bufptr -> KM bufptr) (t : buf -> bool) (p : bufptr)
    : KM (option nat) :=
  match p with
  | BHead => ret None
  | BBuf i =>
      match fuel with
      | O => nofuel
      | S fuel =>
          let* b := get_b i in
          if t b then ret (Some i) else
          let* p := step p in
          scan_bufs fuel step t p
      end
  end.

Section bio.
Context {D : Disk} (fuel : nat).

Definition bget (dev blockno : Z) : KM nat :=
  acquire Lbcache ;;
  let* first := get_next BHead in
  let* r := scan_bufs NBUF get_next
    (fun b => (b_dev b =? dev) && (b_blockno b =? blockno)) first in
  match r with
  | Some i =>
      upd_b i (set b_refcnt (fun n => u32 (n + 1))) ;;
      release Lbcache ;;
      acquiresleep fuel (SLbuf i) ;;
      ret i
  | None =>
      let* last := get_prev BHead in
      let* r := scan_bufs NBUF get_prev
        (fun b => (b_refcnt b =? 0) && negb (flag b B_DIRTY)) last in
      match r with
      | Some i =>
          upd_b i (fun b => b <| b_dev := dev |> <| b_blockno := blockno |> <| b_flags := 0 |>
                              <| b_refcnt := 1 |>) ;;
          release Lbcache ;;
          acquiresleep fuel (SLbuf i) ;;
          ret i
      | None => panic "bget: no buffers"
      end
  end.

Definition bread (dev blockno : Z) : KM nat :=
  let* i := bget dev blockno in
  let* b := get_b i in
  when (negb (flag b B_VALID)) (iderw i) ;;
  ret i.

Definition bwrite (i : nat) : KM unit :=
  let* h := holdingsleep (SLbuf i) in
  if negb h then panic "bwrite" else
  upd_b i (set b_flags (fun f => Z.lor f B_DIRTY)) ;;
  iderw i.

Definition brelse (i : nat) : KM unit :=
  let* h := holdingsleep (SLbuf i) in
  if negb h then panic "brelse" else
  releasesleep (SLbuf i) ;;
  acquire Lbcache ;;
  upd_b i (set b_refcnt (fun n => u32 (n - 1))) ;;
  let* b := get_b i in
  when (b_refcnt b =? 0) (
    set_prev (b_next b) (b_prev b) ;;
    set_next (b_prev b) (b_next b) ;;
    link_first i ;;
    link_back i) ;;
  release Lbcache.
End bio.
