(* ===== verification/Cache.v ===== *)
(** * The buffer cache: its list, its invariant and its operations

    Proofs about bio.c (the code is in Bio.v).  The buffers are linked, most
    recently used first; [linked] relates the pointers to the list of buffer
    numbers.  [view] is the content of the disk as the cache shows it. *)

From stdpp Require Import base functions numbers list list_numbers gmap strings.
From S2P Require Import Prelude Kmonad Params Kstate Spinlock KString Kalloc Cprintf Vm Umem Demo Sched Thread Sleeplock Bio.

Local Open Scope Z_scope.

(** ** Doubly linked lists

    [seg f p ns q]: following [f] from [p] visits the buffers [ns] and
    arrives at [q]. *)

Fixpoint seg (f : bufptr -> bufptr) (p : bufptr) (ns : list nat) (q : bufptr) : Prop :=
  match ns with
  | [] => p = q
  | i :: ns => p = BBuf i /\ seg f (f (BBuf i)) ns q
  end.

Lemma seg_app f p n1 n2 q : seg f p (n1 ++ n2) q <-> exists r, seg f p n1 r /\ seg f r n2 q.
Proof.
  revert p. induction n1 as [|i n1 IH]; intros p; simpl.
  - split; [by exists p|by intros (r & -> & H)].
  - rewrite (IH (f (BBuf i))). split; [intros (? & r & ? & ?)|intros (r & (? & ?) & ?)]; eauto.
Qed.

Lemma seg_ext f g p ns q : (forall i, i ∈ ns -> g (BBuf i) = f (BBuf i)) -> seg f p ns q -> seg g p ns q.
Proof.
  revert p. induction ns as [|i ns IH]; intros p H; simpl; [done|]. intros [-> Hs]. split; [done|].
  rewrite H by (by left). apply IH; [|done]. intros j Hj. apply H. by right.
Qed.

(** Change where a segment ends. *)
Lemma seg_redirect f p ns j q q' :
  j ∉ ns -> seg f p (ns ++ [j]) q -> seg (<[BBuf j := q']> f) p (ns ++ [j]) q'.
Proof.
  intros Hj. rewrite !seg_app. intros (r & H1 & -> & _). exists (BBuf j). split.
  - eapply seg_ext; [|exact H1]. intros i Hi. rewrite fn_lookup_insert_ne; [done|]. intros [= ->]. done.
  - simpl. by rewrite fn_lookup_insert.
Qed.

Definition ring (nx pv : bufptr -> bufptr) (l : list nat) : Prop :=
  seg nx (nx BHead) l BHead /\ seg pv (pv BHead) (rev l) BHead.

Lemma ring_sym nx pv l : ring nx pv l -> ring pv nx (rev l).
Proof. intros [H1 H2]. split; [done|]. by rewrite rev_involutive. Qed.

(** Bypassing node [i], in one direction. *)
Lemma seg_unlink nx pv l1 i l2 :
  NoDup (l1 ++ i :: l2) -> ring nx pv (l1 ++ i :: l2) ->
  seg (<[pv (BBuf i) := nx (BBuf i)]> nx) (<[pv (BBuf i) := nx (BBuf i)]> nx BHead) (l1 ++ l2) BHead.
Proof.
  intros Hd [Hf Hb]. apply seg_app in Hf as (r & Hf1 & -> & Hf2).
  rewrite rev_app_distr in Hb. simpl in Hb. rewrite <- app_assoc in Hb. simpl in Hb.
  apply seg_app in Hb as (r & _ & -> & Hb). apply NoDup_app in Hd as (Hd1 & Hd2 & Hd3).
  apply NoDup_cons in Hd3 as [Hi Hd3].
  destruct l1 as [|j l1 _] using rev_ind; simpl in Hb.
  - rewrite Hb, fn_lookup_insert. eapply seg_ext; [|exact Hf2]. intros k _. by rewrite fn_lookup_insert_ne.
  - rewrite rev_app_distr in Hb. simpl in Hb. destruct Hb as [Hb _]. rewrite Hb.
    rewrite fn_lookup_insert_ne by done. apply seg_app. exists (nx (BBuf i)). split.
    + apply (seg_redirect _ _ _ _ (BBuf i)); [|done]. apply NoDup_app in Hd1 as (_ & Hd1 & _).
      intros Hj. by apply (Hd1 j Hj); left.
    + eapply seg_ext; [|exact Hf2]. intros k Hk. rewrite fn_lookup_insert_ne; [done|]. intros [= ->].
      apply (Hd2 k); [apply elem_of_app; right; by left|by right].
Qed.

Lemma ring_unlink nx pv l1 i l2 :
  NoDup (l1 ++ i :: l2) -> ring nx pv (l1 ++ i :: l2) ->
  ring (<[pv (BBuf i) := nx (BBuf i)]> nx) (<[nx (BBuf i) := pv (BBuf i)]> pv) (l1 ++ l2).
Proof.
  intros Hd H. split; [by apply seg_unlink|].
  assert (rev (l1 ++ i :: l2) = rev l2 ++ i :: rev l1) as E.
  { rewrite rev_app_distr. simpl. by rewrite <- app_assoc. }
  rewrite rev_app_distr. apply (seg_unlink pv nx).
  - rewrite <- E. by rewrite <- Permutation_rev.
  - rewrite <- E. by apply ring_sym.
Qed.

(** Inserting node [i] at the front. *)
Lemma ring_insert nx pv i l :
  i ∉ l -> NoDup l -> ring nx pv l ->
  ring (<[BHead := BBuf i]> (<[BBuf i := nx BHead]> nx))
       (<[nx BHead := BBuf i]> (<[BBuf i := BHead]> pv)) (i :: l).
Proof.
  intros Hi Hd [Hf Hb]. split.
  - rewrite fn_lookup_insert. split; [done|]. rewrite fn_lookup_insert_ne, fn_lookup_insert by done.
    eapply seg_ext; [|exact Hf]. intros k Hk. rewrite fn_lookup_insert_ne by done.
    rewrite fn_lookup_insert_ne; [done|]. intros [= ->]. done.
  - simpl. destruct l as [|h l]; simpl in *.
    + rewrite Hf, fn_lookup_insert. split; [done|].
      by rewrite fn_lookup_insert_ne, fn_lookup_insert by done.
    + destruct Hf as [-> _]. rewrite !fn_lookup_insert_ne by done.
      apply NoDup_cons in Hd as [Hh Hd]. apply seg_app. exists (BBuf i). split.
      * apply (seg_redirect _ _ _ _ BHead); [by rewrite list_elem_of_In, <- in_rev, <- list_elem_of_In|].
        eapply seg_ext; [|exact Hb]. intros k Hk. rewrite fn_lookup_insert_ne; [done|]. intros [= ->]. apply Hi.
        rewrite elem_of_app, list_elem_of_In, <- in_rev, <- list_elem_of_In, list_elem_of_singleton in Hk.
        rewrite elem_of_cons. tauto.
      * simpl. split; [done|]. rewrite fn_lookup_insert_ne; [by rewrite fn_lookup_insert|].
        intros [= ->]. apply Hi. by left.
Qed.

(** ** The list in the kernel state *)

Definition nxt (s : kstate) (p : bufptr) : bufptr :=
  match p with BHead => (k_bhead s).2 | BBuf i => from_option b_next BHead (k_bufs s !! i) end.
Definition prv (s : kstate) (p : bufptr) : bufptr :=
  match p with BHead => (k_bhead s).1 | BBuf i => from_option b_prev BHead (k_bufs s !! i) end.

Definition linked (s : kstate) (l : list nat) : Prop := ring (nxt s) (prv s) l.

Definition valid_ptr (s : kstate) (p : bufptr) : Prop :=
  match p with BHead => True | BBuf i => (i < length (k_bufs s))%nat end.

Lemma get_next_Ok s p : valid_ptr s p -> get_next p s = Ok (nxt s p) s.
Proof.
  destruct p as [|i]; [done|]. simpl. intros [b Hb]%lookup_lt_is_Some.
  unfold get_b, bind, gets. simpl. by rewrite Hb.
Qed.

Lemma get_prev_Ok s p : valid_ptr s p -> get_prev p s = Ok (prv s p) s.
Proof.
  destruct p as [|i]; [done|]. simpl. intros [b Hb]%lookup_lt_is_Some.
  unfold get_b, bind, gets. simpl. by rewrite Hb.
Qed.

Definition setn (p v : bufptr) (s : kstate) : kstate :=
  match p with
  | BHead => set k_bhead (fun h => (h.1, v)) s
  | BBuf i => set k_bufs (alter (fun b => b <| b_next := v |>) i) s
  end.
Definition setp (p v : bufptr) (s : kstate) : kstate :=
  match p with
  | BHead => set k_bhead (fun h => (v, h.2)) s
  | BBuf i => set k_bufs (alter (fun b => b <| b_prev := v |>) i) s
  end.

Lemma set_next_Ok p v s : set_next p v s = Ok tt (setn p v s).
Proof. by destruct p. Qed.
Lemma set_prev_Ok p v s : set_prev p v s = Ok tt (setp p v s).
Proof. by destruct p. Qed.

Lemma nxt_setn s p v q : valid_ptr s p -> nxt (setn p v s) q = (<[p := v]> (nxt s)) q.
Proof.
  intros Hp. destruct (decide (p = q)) as [<-|Hne].
  - rewrite fn_lookup_insert. destruct p as [|i]; [done|]. simpl in *. rewrite list_lookup_alter_eq.
    apply lookup_lt_is_Some in Hp as [b ->]. done.
  - rewrite fn_lookup_insert_ne by done. destruct p as [|i], q as [|j]; simpl; try done.
    rewrite list_lookup_alter_ne by congruence. done.
Qed.
Lemma prv_setp s p v q : valid_ptr s p -> prv (setp p v s) q = (<[p := v]> (prv s)) q.
Proof.
  intros Hp. destruct (decide (p = q)) as [<-|Hne].
  - rewrite fn_lookup_insert. destruct p as [|i]; [done|]. simpl in *. rewrite list_lookup_alter_eq.
    apply lookup_lt_is_Some in Hp as [b ->]. done.
  - rewrite fn_lookup_insert_ne by done. destruct p as [|i], q as [|j]; simpl; try done.
    rewrite list_lookup_alter_ne by congruence. done.
Qed.
Lemma from_option_alter {A B} (g : A -> B) d f i j (l : list A) :
  (forall b, g (f b) = g b) -> from_option g d (alter f i l !! j) = from_option g d (l !! j).
Proof. intros H. rewrite list_lookup_alter. case_decide; [subst|done]. destruct (l !! j); simpl; auto. Qed.
Lemma nxt_setp s p v q : nxt (setp p v s) q = nxt s q.
Proof. destruct p as [|i], q as [|j]; simpl; try done. by apply from_option_alter. Qed.
Lemma prv_setn s p v q : prv (setn p v s) q = prv s q.
Proof. destruct p as [|i], q as [|j]; simpl; try done. by apply from_option_alter. Qed.

Lemma seg_fext f g p ns q : (forall x, g x = f x) -> seg f p ns q -> seg g p ns q.
Proof. intros H. by apply seg_ext. Qed.
Lemma ring_fext nx pv nx' pv' l :
  (forall x, nx' x = nx x) -> (forall x, pv' x = pv x) -> ring nx pv l -> ring nx' pv' l.
Proof. intros H1 H2 [Hf Hb]. split; [rewrite H1|rewrite H2]; by eapply seg_fext. Qed.

(** What the list operations leave alone. *)
Definition strip (b : buf) : buf := b <| b_prev := BHead |> <| b_next := BHead |>.
Definition relinked (s s' : kstate) : Prop :=
  exists bufs h, map strip bufs = map strip (k_bufs s) /\ s' = s <| k_bufs := bufs |> <| k_bhead := h |>.

Lemma relinked_refl s : relinked s s.
Proof. exists (k_bufs s), (k_bhead s). by destruct s. Qed.
Lemma relinked_trans s1 s2 s3 : relinked s1 s2 -> relinked s2 s3 -> relinked s1 s3.
Proof.
  intros (b1 & h1 & E1 & ->) (b2 & h2 & E2 & ->). exists b2, h2. split; [by rewrite E2|]. by destruct s1.
Qed.
Lemma map_strip_alter f i l : (forall b, strip (f b) = strip b) -> map strip (alter f i l) = map strip l.
Proof.
  intros H. apply list_eq. intros j. rewrite !list_lookup_fmap, list_lookup_alter.
  case_decide; [subst|done]. destruct (l !! j); [|done]. simpl. by rewrite H.
Qed.
Lemma relinked_setn p v s : relinked s (setn p v s).
Proof.
  destruct p as [|i]; [by exists (k_bufs s), ((k_bhead s).1, v); destruct s|].
  exists (alter (fun b => b <| b_next := v |>) i (k_bufs s)), (k_bhead s). split; [by apply map_strip_alter|by destruct s].
Qed.
Lemma relinked_setp p v s : relinked s (setp p v s).
Proof.
  destruct p as [|i]; [by exists (k_bufs s), (v, (k_bhead s).2); destruct s|].
  exists (alter (fun b => b <| b_prev := v |>) i (k_bufs s)), (k_bhead s). split; [by apply map_strip_alter|by destruct s].
Qed.
Lemma relinked_len s s' : relinked s s' -> length (k_bufs s') = length (k_bufs s).
Proof. intros (b & h & E & ->). apply (f_equal length) in E. by rewrite !length_map in E. Qed.
Lemma relinked_valid s s' p : relinked s s' -> valid_ptr s p -> valid_ptr s' p.
Proof. intros H. destruct p; [done|]. simpl. by rewrite (relinked_len _ _ H). Qed.

Lemma seg_start f p ns q : seg f p ns q -> p = q \/ exists j, j ∈ ns /\ p = BBuf j.
Proof. destruct ns as [|j ns]; simpl; [by left|]. intros [-> _]. right. exists j. by split; [left|]. Qed.

(** Linking buffer [i] at the front; [g] is work between the two halves. *)
Lemma linked_front g s i l :
  (forall t q, nxt (g t) q = nxt t q) -> (forall t q, prv (g t) q = prv t q) ->
  (forall t, length (k_bufs (g t)) = length (k_bufs t)) ->
  linked s l -> i ∉ l -> NoDup l -> (i < length (k_bufs s))%nat -> (forall j, j ∈ l -> (j < length (k_bufs s))%nat) ->
  let f := nxt s BHead in
  linked (setn BHead (BBuf i) (setp f (BBuf i) (g (setp (BBuf i) BHead (setn (BBuf i) f s))))) (i :: l).
Proof.
  intros Hgn Hgp Hgl Hl Hi Hd Hlen Hr f.
  assert (valid_ptr s f) as Hf.
  { destruct Hl as [Hl _]. fold f in Hl. apply seg_start in Hl as [->|(j & Hj & ->)]; [done|]. by apply Hr. }
  assert (forall q, valid_ptr s q -> valid_ptr (setn (BBuf i) f s) q) as Hv1 by (intros q; apply relinked_valid, relinked_setn).
  assert (valid_ptr (g (setp (BBuf i) BHead (setn (BBuf i) f s))) f) as Hf2.
  { destruct f as [|k]; [done|]. simpl. rewrite Hgl. simpl. by rewrite !length_alter. }
  eapply ring_fext; [| |apply (ring_insert (nxt s) (prv s) i l Hi Hd Hl)]; intros x; fold f.
  - rewrite nxt_setn by done. unfold insert, fn_insert. case_decide; [done|].
    rewrite nxt_setp, Hgn, nxt_setp. by apply nxt_setn.
  - rewrite prv_setn, prv_setp by done. unfold insert, fn_insert. case_decide; [done|].
    rewrite Hgp, prv_setp by (by apply (Hv1 (BBuf i))). unfold insert, fn_insert. case_decide; [done|]. apply prv_setn.
Qed.

Section list_ops.
Context (s : kstate) (l1 : list nat) (i : nat) (l2 : list nat).
Hypothesis Hring : linked s (l1 ++ i :: l2).
Hypothesis Hnodup : NoDup (l1 ++ i :: l2).
Hypothesis Hrange : forall j, j ∈ l1 ++ i :: l2 -> (j < length (k_bufs s))%nat.

Lemma next_valid : valid_ptr s (nxt s (BBuf i)).
Proof.
  destruct Hring as [Hf _]. apply seg_app in Hf as (r & _ & -> & Hf).
  apply seg_start in Hf as [->|(j & Hj & ->)]; [done|]. apply Hrange.
  apply elem_of_app. right. by right.
Qed.
Lemma prev_valid : valid_ptr s (prv s (BBuf i)).
Proof.
  destruct Hring as [_ Hb]. rewrite rev_app_distr in Hb. simpl in Hb. rewrite <- app_assoc in Hb.
  apply seg_app in Hb as (r & _ & -> & Hb).
  apply seg_start in Hb as [->|(j & Hj & ->)]; [done|]. apply Hrange.
  apply elem_of_app. left. by rewrite list_elem_of_In, in_rev, <- list_elem_of_In.
Qed.

(** The end of [brelse]: buffer [i] moves to the front. *)
Lemma wp_relink b (Q : unit -> kstate -> Prop) :
  k_bufs s !! i = Some b ->
  (forall s', linked s' (i :: l1 ++ l2) -> relinked s s' -> Q tt s') ->
  wp (set_prev (b_next b) (b_prev b) ;; set_next (b_prev b) (b_next b) ;; link_first i ;; link_back i) Q s.
Proof.
  intros Hb HQ. pose proof next_valid as Hnv. pose proof prev_valid as Hpv.
  assert (b_next b = nxt s (BBuf i)) as -> by (simpl; by rewrite Hb).
  assert (b_prev b = prv s (BBuf i)) as -> by (simpl; by rewrite Hb).
  set (n := nxt s (BBuf i)) in *. set (p := prv s (BBuf i)) in *.
  set (s1 := setp n p s). set (s2 := setn p n s1).
  assert (relinked s s1) as R1 by apply relinked_setp.
  assert (relinked s s2) as R2 by (eapply relinked_trans; [exact R1|apply relinked_setn]).
  assert (linked s2 (l1 ++ l2)) as H2.
  { pose proof (ring_unlink (nxt s) (prv s) l1 i l2 Hnodup Hring) as HU. fold n p in HU.
    eapply ring_fext; [| |exact HU]; intros x; unfold s2, s1.
    - rewrite nxt_setn by (by apply (relinked_valid _ _ _ R1)). unfold insert, fn_insert. case_decide; [done|].
      apply nxt_setp.
    - rewrite prv_setn. by apply prv_setp. }
  set (f := nxt s2 BHead). set (s4 := setp (BBuf i) BHead (setn (BBuf i) f s2)).
  assert (nxt s4 BHead = f) as Ef by (unfold s4; by rewrite nxt_setp).
  eapply wp_of_eq.
  { rewrite (bind_Ok _ _ _ _ _ (set_prev_Ok _ _ _)). fold s1. rewrite (bind_Ok _ _ _ _ _ (set_next_Ok _ _ _)). fold s2.
    unfold link_first, link_back. rewrite (bind_bind _ _ _ _ _ _ (get_next_Ok s2 BHead I)). fold f.
    rewrite (bind_bind _ _ _ _ _ _ (set_next_Ok _ _ _)). rewrite (bind_Ok _ _ _ _ _ (set_prev_Ok _ _ _)). fold s4.
    rewrite (bind_Ok _ _ _ _ _ (get_next_Ok s4 BHead I)), Ef. rewrite (bind_Ok _ _ _ _ _ (set_prev_Ok _ _ _)).
    apply set_next_Ok. }
  apply HQ.
  - pose proof Hnodup as Hnd. rewrite <- Permutation_middle in Hnd. apply NoDup_cons in Hnd as [Hn Hd].
    apply (linked_front id); try done; rewrite (relinked_len _ _ R2).
    + apply Hrange. apply elem_of_app. right. by left.
    + intros j Hj. apply Hrange. rewrite elem_of_app, elem_of_cons in *. tauto.
  - eapply relinked_trans; [exact R2|]. unfold s4. eapply relinked_trans; [apply relinked_setn|].
    eapply relinked_trans; [apply relinked_setp|]. eapply relinked_trans; [apply relinked_setp|apply relinked_setn].
Qed.
End list_ops.

(** Scans find the first buffer in the order they visit. *)
Lemma scan_seg s (step : bufptr -> KM bufptr) f t ns : forall fuel p,
  (forall p, valid_ptr s p -> step p s = Ok (f p) s) -> seg f p ns BHead ->
  (forall j, j ∈ ns -> (j < length (k_bufs s))%nat) -> (length ns <= fuel)%nat ->
  scan_bufs fuel step t p s = Ok (List.find (fun i => from_option t false (k_bufs s !! i)) ns) s.
Proof.
  induction ns as [|i ns IH]; intros fuel p Hstep Hs Hr Hf; simpl in Hs.
  - subst p. by destruct fuel.
  - destruct Hs as [-> Hs]. destruct fuel as [|fuel]; [simpl in Hf; lia|]. cbn [scan_bufs].
    assert (i < length (k_bufs s))%nat as Hi by (apply Hr; by left).
    pose proof Hi as [b Hb]%lookup_lt_is_Some.
    assert (get_b i s = Ok b s) as E by (unfold get_b, bind, gets; simpl; by rewrite Hb).
    rewrite (bind_Ok _ _ _ _ _ E). cbn [List.find]. rewrite Hb. simpl. destruct (t b); [done|].
    rewrite (bind_Ok _ _ _ _ _ (Hstep (BBuf i) Hi)). apply IH; [done|done| |simpl in Hf; lia].
    intros j Hj. apply Hr. by right.
Qed.

(** ** The invariant

    [H] are the buffers the thread holds (locked, with one reference); the
    others are unlocked and without references.  The flags are those of a
    buffer that was never used (0), a clean ([B_VALID]) or a dirty buffer.  A clean buffer that is
    not held has the content of its block on the disk [d]. *)

Abbreviation CLEAN := 2.
Abbreviation DIRTY := 6.

Definition has_key (dev bno : Z) (b : buf) : Prop := b_dev b = dev /\ b_blockno b = bno.

Definition buf_ok (held : bool) (pid : Z) (d : history) (b : buf) : Prop :=
  (b_flags b = 0 /\ b_dev b = 0 \/ b_flags b = CLEAN \/ b_flags b = DIRTY) /\ length (b_data b) = Z.to_nat BSIZE /\
  if held then b_refcnt b = 1 /\ b_lock b = MkSleeplock 1 pid /\ b_flags b <> 0
  else b_refcnt b = 0 /\ sl_locked (b_lock b) = 0 /\
       (b_flags b = CLEAN -> b_data b = disk_read d (b_dev b) (b_blockno b)).

Record bufs_ok (H : list nat) (pid : Z) (d : history) (bufs : list buf) : Prop := {
  bo_len : length bufs = NBUF;
  bo_held i : i ∈ H -> (i < NBUF)%nat;
  bo_unique i j b c : bufs !! i = Some b -> bufs !! j = Some c -> b_dev b <> 0 ->
    has_key (b_dev b) (b_blockno b) c -> i = j;
  bo_each i b : bufs !! i = Some b -> buf_ok (bool_decide (i ∈ H)) pid d b
}.

(** The content of a block: the valid buffer that has it, or the disk. *)
Definition in_cache (dev bno : Z) (b : buf) : bool :=
  (b_dev b =? dev) && (b_blockno b =? bno) && negb (b_flags b =? 0).
Definition view (d : history) (bufs : list buf) (dev bno : Z) : list Z :=
  match List.find (in_cache dev bno) bufs with
  | Some b => b_data b
  | None => disk_read d dev bno
  end.

Lemma in_cache_true dev bno b : in_cache dev bno b = true <-> has_key dev bno b /\ b_flags b <> 0.
Proof. unfold in_cache, has_key. rewrite !andb_true_iff, !Z.eqb_eq, negb_true_iff, Z.eqb_neq. tauto. Qed.

Lemma view_cached H pid d bufs dev bno i b :
  bufs_ok H pid d bufs -> bufs !! i = Some b -> dev <> 0 -> has_key dev bno b -> b_flags b <> 0 ->
  view d bufs dev bno = b_data b.
Proof.
  intros Hok Hi Hdev Hk Hf. unfold view. destruct (List.find (in_cache dev bno) bufs) as [c|] eqn:E.
  - apply List.find_some in E as [Hin Hc]. apply list_elem_of_In, list_elem_of_lookup in Hin as [j Hj].
    apply in_cache_true in Hc as [[Hc1 Hc2] _]. destruct Hk as [Hk1 Hk2].
    assert (i = j) as ->; [|by simplify_eq].
    apply (bo_unique _ _ _ _ Hok i j b c); [done|done|by rewrite Hk1|]. split; congruence.
  - apply List.find_none with (x := b) in E; [|by apply list_elem_of_In, list_elem_of_lookup; exists i].
    assert (in_cache dev bno b = true) by (by apply in_cache_true). congruence.
Qed.

Lemma view_uncached d bufs dev bno :
  (forall i b, bufs !! i = Some b -> has_key dev bno b -> b_flags b = 0) ->
  view d bufs dev bno = disk_read d dev bno.
Proof.
  intros Hno. unfold view. destruct (List.find (in_cache dev bno) bufs) as [c|] eqn:E; [|done].
  apply List.find_some in E as [Hin Hc]. apply list_elem_of_In, list_elem_of_lookup in Hin as [j Hj].
  apply in_cache_true in Hc as [Hk Hf]. by destruct Hf; apply (Hno j).
Qed.

Lemma cached_or_not (bufs : list buf) dev bno :
  (exists i b, bufs !! i = Some b /\ has_key dev bno b /\ b_flags b <> 0) \/
  (forall i b, bufs !! i = Some b -> has_key dev bno b -> b_flags b = 0).
Proof.
  destruct (List.find (in_cache dev bno) bufs) as [c|] eqn:E.
  - left. apply List.find_some in E as [Hin Hc]. apply list_elem_of_In, list_elem_of_lookup in Hin as [j Hj].
    apply in_cache_true in Hc. exists j, c. tauto.
  - right. intros i b Hi Hk. destruct (decide (b_flags b = 0)); [done|].
    apply List.find_none with (x := b) in E; [|by apply list_elem_of_In, list_elem_of_lookup; exists i].
    assert (in_cache dev bno b = true) by (by apply in_cache_true). congruence.
Qed.

(** Replacing one buffer. *)
Lemma bufs_ok_insert H H' pid d d' bufs i b b' :
  bufs_ok H pid d bufs -> bufs !! i = Some b ->
  buf_ok (bool_decide (i ∈ H')) pid d' b' ->
  (forall j, j <> i -> j ∈ H' <-> j ∈ H) ->
  (b_dev b' <> 0 -> forall j c, j <> i -> bufs !! j = Some c -> ~ has_key (b_dev b') (b_blockno b') c) ->
  (forall j c, j <> i -> bufs !! j = Some c -> b_flags c <> 0 ->
     disk_read d' (b_dev c) (b_blockno c) = disk_read d (b_dev c) (b_blockno c)) ->
  bufs_ok H' pid d' (<[i := b']> bufs).
Proof.
  intros [Hl Hh Hu He] Hi Hb' HH Hkey Hd. pose proof (lookup_lt_Some _ _ _ Hi) as Hlt. split.
  - by rewrite length_insert.
  - intros j Hj. destruct (decide (j = i)) as [->|Hne]; [lia|]. apply Hh. by apply HH.
  - intros j k x y Hj Hk Hx Hxy.
    destruct (decide (j = i)) as [->|Hj'], (decide (k = i)) as [->|Hk']; [done|..].
    + rewrite list_lookup_insert_eq in Hj by done. rewrite list_lookup_insert_ne in Hk by done. simplify_eq.
      by destruct (Hkey Hx k y Hk' Hk).
    + rewrite list_lookup_insert_eq in Hk by done. rewrite list_lookup_insert_ne in Hj by done. simplify_eq.
      destruct Hxy as [E1 E2]. destruct (Hkey ltac:(congruence) j x Hj' Hj). by split.
    + rewrite list_lookup_insert_ne in Hj, Hk by done. by apply (Hu j k x y).
  - intros j x Hj. destruct (decide (j = i)) as [->|Hne].
    + rewrite list_lookup_insert_eq in Hj by done. by simplify_eq.
    + rewrite list_lookup_insert_ne in Hj by done. rewrite (bool_decide_ext _ _ (HH j Hne)).
      destruct (He j x Hj) as (Hf & Hlen & Hx). split_and!; [done|done|].
      destruct (bool_decide (j ∈ H)); [done|]. destruct Hx as (? & ? & Hc). split_and!; [done|done|].
      intros E. rewrite (Hd j x Hne Hj) by (by rewrite E). by apply Hc.
Qed.

(** Replacing a buffer by one for the same block with the same content. *)
Lemma view_same H pid d d' bufs i b b' dev bno :
  bufs_ok H pid d bufs -> bufs !! i = Some b -> dev <> 0 ->
  has_key (b_dev b) (b_blockno b) b' -> b_data b' = b_data b -> (b_flags b' = 0 <-> b_flags b = 0) ->
  ((forall i b, bufs !! i = Some b -> has_key dev bno b -> b_flags b = 0) -> disk_read d' dev bno = disk_read d dev bno) ->
  view d' (<[i := b']> bufs) dev bno = view d bufs dev bno.
Proof.
  intros Hok Hi Hdev [Hk1 Hk2] Hdata Hfl Hd. pose proof (lookup_lt_Some _ _ _ Hi) as Hlt.
  assert (map (fun b => (in_cache dev bno b, b_data b)) (<[i := b']> bufs)
          = map (fun b => (in_cache dev bno b, b_data b)) bufs) as E.
  { apply list_eq. intros j. rewrite !list_lookup_fmap. destruct (decide (j = i)) as [->|Hne].
    - rewrite list_lookup_insert_eq, Hi by done. simpl. rewrite Hdata. do 2 f_equal. unfold in_cache.
      rewrite Hk1, Hk2. f_equal. f_equal. apply eq_true_iff_eq. rewrite !Z.eqb_eq. done.
    - by rewrite list_lookup_insert_ne. }
  assert (forall l l', map (fun b => (in_cache dev bno b, b_data b)) l = map (fun b => (in_cache dev bno b, b_data b)) l' ->
    b_data <$> List.find (in_cache dev bno) l = b_data <$> List.find (in_cache dev bno) l') as Hfind.
  { induction l as [|x l IH]; intros [|y l'] El; try done. simpl in *. injection El as E1 E2 E3.
    rewrite E1. destruct (in_cache dev bno y); [simpl; by rewrite E2|by apply IH]. }
  specialize (Hfind _ _ E). unfold view.
  destruct (cached_or_not bufs dev bno) as [(k & c & Hk & Hc)|Hno].
  - destruct (List.find (in_cache dev bno) bufs) as [x|] eqn:Ex.
    + destruct (List.find _ (<[i := b']> bufs)); [|done]. simpl in Hfind. congruence.
    + apply List.find_none with (x := c) in Ex; [|by apply list_elem_of_In, list_elem_of_lookup; exists k].
      apply in_cache_true in Hc. congruence.
  - rewrite <- Hd by done.
    destruct (List.find _ (<[i := b']> bufs)), (List.find _ bufs); simpl in Hfind; congruence.
Qed.

(** Giving a clean buffer to a block that is not cached. *)
Lemma view_load H H' pid d bufs i b b' dev bno :
  bufs_ok H pid d bufs -> bufs !! i = Some b -> i ∉ H -> b_flags b <> DIRTY ->
  bufs_ok H' pid d (<[i := b']> bufs) -> b_flags b' <> 0 ->
  (forall j c, bufs !! j = Some c -> ~ has_key (b_dev b') (b_blockno b') c) ->
  b_data b' = disk_read d (b_dev b') (b_blockno b') -> dev <> 0 ->
  view d (<[i := b']> bufs) dev bno = view d bufs dev bno.
Proof.
  intros Hok Hi Hfree Hnd Hok' Hf' Hkey Hdata Hdev. pose proof (lookup_lt_Some _ _ _ Hi) as Hlt.
  assert (<[i := b']> bufs !! i = Some b') as Hi' by by apply list_lookup_insert_eq.
  destruct (decide (has_key dev bno b')) as [[<- <-]|Hnk'].
  { rewrite (view_cached _ _ _ _ _ _ i b' Hok' Hi') by done. rewrite view_uncached; [done|].
    intros j c Hj Hc. by destruct (Hkey j c). }
  assert (forall j c, j <> i -> <[i := b']> bufs !! j = Some c <-> bufs !! j = Some c) as Hj.
  { intros j c Hne. by rewrite list_lookup_insert_ne. }
  destruct (cached_or_not bufs dev bno) as [(k & c & Hk & Hc & Hfc)|Hno].
  - rewrite (view_cached _ _ _ _ _ _ k c Hok Hk) by done. destruct (decide (k = i)) as [->|Hne].
    + assert (c = b) as -> by congruence. rewrite view_uncached.
      * destruct (bo_each _ _ _ _ Hok i b Hi) as (Hfl & _ & He). rewrite bool_decide_false in He by done.
        destruct He as (_ & _ & He). destruct Hc as [<- <-]. symmetry. apply He. destruct Hfl as [[? ?]|[?|?]]; congruence.
      * intros j x Hx Hxk. destruct (decide (j = i)) as [->|Hne]; [by simplify_eq|].
        apply Hj in Hx; [|done]. destruct Hc as [<- <-]. destruct Hne.
        symmetry. by apply (bo_unique _ _ _ _ Hok i j b x).
    + by rewrite (view_cached _ _ _ _ _ _ k c Hok') by (done || by apply Hj).
  - rewrite !view_uncached; [done|done|]. intros j x Hx Hxk. destruct (decide (j = i)) as [->|Hne]; [by simplify_eq|].
    apply Hj in Hx; [|done]. by apply (Hno j).
Qed.

(** The links play no role. *)
Lemma strip_lookup (bufs bufs' : list buf) i b' :
  map strip bufs' = map strip bufs -> bufs' !! i = Some b' -> exists b, bufs !! i = Some b /\ strip b' = strip b.
Proof.
  intros E Hi. assert (map strip bufs !! i = Some (strip b')) as Hm by (rewrite <- E, list_lookup_fmap, Hi; done).
  rewrite list_lookup_fmap in Hm. destruct (bufs !! i) as [b|]; [|done]. simpl in Hm. exists b. split; [done|congruence].
Qed.
Lemma strip_inv b b' : strip b' = strip b ->
  b_flags b' = b_flags b /\ b_dev b' = b_dev b /\ b_blockno b' = b_blockno b /\ b_lock b' = b_lock b /\
  b_refcnt b' = b_refcnt b /\ b_data b' = b_data b.
Proof. destruct b, b'. unfold strip, set. simpl. by intros [= -> -> -> -> -> ->]. Qed.

Lemma bufs_ok_strip H pid d bufs bufs' :
  map strip bufs' = map strip bufs -> bufs_ok H pid d bufs -> bufs_ok H pid d bufs'.
Proof.
  intros E [Hl Hh Hu He]. split.
  - apply (f_equal length) in E. rewrite !length_map in E. congruence.
  - done.
  - intros i j b c Hi Hj Hd Hk. destruct (strip_lookup _ _ _ _ E Hi) as (b0 & Hi0 & Eb).
    destruct (strip_lookup _ _ _ _ E Hj) as (c0 & Hj0 & Ec). apply strip_inv in Eb as (_ & E1 & E2 & _).
    apply strip_inv in Ec as (_ & E3 & E4 & _). unfold has_key in Hk. apply (Hu i j b0 c0); [done|done|congruence|].
    split; destruct Hk; congruence.
  - intros i b Hi. destruct (strip_lookup _ _ _ _ E Hi) as (b0 & Hi0 & Eb). specialize (He i b0 Hi0).
    apply strip_inv in Eb as (E1 & E2 & E3 & E4 & E5 & E6). unfold buf_ok in *. by rewrite E1, E2, E3, E4, E5, E6.
Qed.
Lemma view_strip d bufs bufs' dev bno :
  map strip bufs' = map strip bufs -> view d bufs' dev bno = view d bufs dev bno.
Proof.
  unfold view. revert bufs. induction bufs' as [|b' bufs' IH]; intros [|b bufs] E; try done. simpl in *.
  injection E as E1 E2 E3 E4 E5 E6 E.
  assert (in_cache dev bno b' = in_cache dev bno b) as -> by (unfold in_cache; by rewrite E1, E2, E3).
  destruct (in_cache dev bno b); [done|]. by apply IH.
Qed.

(** ** What a driver promises

    [iderw] of a locked buffer reads its block when the buffer is empty and
    writes it when the buffer is dirty; the buffer is clean afterwards. *)

Definition setb (i : nat) (b : buf) (s : kstate) : kstate := set k_bufs (insert i b) s.

Class DiskLaws (D : Disk) (dev size : Z) : Prop := {
  dl_dev : dev <> 0;
  dl_load me i b p s (Q : unit -> kstate -> Prop) :
    thr me [] s -> k_bufs s !! i = Some b -> k_ptable s !! me = Some p ->
    b_lock b = MkSleeplock 1 (p_pid p) -> b_dev b = dev -> 0 <= b_blockno b < size -> b_flags b = 0 ->
    (forall s', thr me [] s' ->
       upto (setb i (b <| b_data := disk_read (k_disk s) dev (b_blockno b) |> <| b_flags := CLEAN |>) s) s' -> Q tt s') ->
    wp (iderw i) Q s;
  dl_store me i b p s (Q : unit -> kstate -> Prop) :
    thr me [] s -> k_bufs s !! i = Some b -> k_ptable s !! me = Some p ->
    b_lock b = MkSleeplock 1 (p_pid p) -> b_dev b = dev -> 0 <= b_blockno b < size -> b_flags b = DIRTY ->
    (forall s', thr me [] s' ->
       upto (setb i (b <| b_flags := CLEAN |>) (set k_disk (cons (dev, b_blockno b, b_data b)) s)) s' -> Q tt s') ->
    wp (iderw i) Q s
}.

Lemma get_b_Ok i b s : k_bufs s !! i = Some b -> get_b i s = Ok b s.
Proof. intros E. unfold get_b, bind, gets. simpl. by rewrite E. Qed.

Lemma upd_b_Ok i b f s : k_bufs s !! i = Some b -> upd_b i f s = Ok tt (setb i (f b) s).
Proof.
  intros Hb. unfold upd_b, modify, setb. f_equal. unfold set, set_k_bufs. simpl. f_equal.
  apply list_eq. intros j. rewrite list_lookup_alter. case_decide as Hd; [subst j|by rewrite list_lookup_insert_ne].
  by rewrite Hb, list_lookup_insert_eq by (by eapply lookup_lt_Some).
Qed.

Lemma setb_setb i b c s : setb i c (setb i b s) = setb i c s.
Proof. unfold setb, set, set_k_bufs. simpl. by rewrite list_insert_insert_eq. Qed.

Lemma lookup_setb i b c s : k_bufs s !! i = Some c -> k_bufs (setb i b s) !! i = Some b.
Proof. intros H. apply list_lookup_insert_eq. by eapply lookup_lt_Some. Qed.

Lemma slset_setb i b v s : k_bufs s !! i = Some b -> slset (SLbuf i) v s = setb i (b <| b_lock := v |>) s.
Proof.
  intros Hb. pose proof (upd_b_Ok i b (fun b => b <| b_lock := v |>) s Hb) as E.
  assert (forall x y : kstate, (Ok tt x : outcome waitfor kstate unit) = Ok tt y -> x = y) as Hinj by (by intros ? ? [= ->]).
  by apply Hinj.
Qed.

Lemma setb_upto i b s s' : upto s s' -> upto (setb i b s) (setb i b s').
Proof. by apply upto_neutral. Qed.

Lemma thr_setb me L i b s : thr me L s -> thr me L (setb i b s).
Proof. by apply thr_neutral. Qed.

Lemma set_flags (g : Z -> Z) v b : g (b_flags b) = v -> set b_flags g b = b <| b_flags := v |>.
Proof. by intros <-. Qed.

#[export] Instance memide_laws size : DiskLaws (memide size) 1 size.
Proof.
  split; [done|..].
  - intros me i b p s Q H Hb Hp Hl Hdev Hno Hf HQ. cbn [iderw memide]. unfold memide_rw.
    apply wp_bind, (wp_holdingsleep me [] (SLbuf i) s (b_lock b) H (not_elem_of_nil _)) with (p := p);
      [simpl; by rewrite Hb|done|done|]. intros s1 H1 E1. cbn [negb].
    assert (k_bufs s1 !! i = Some b) as Hb1 by by rewrite (upto_proj k_bufs _ _ ltac:(done) E1).
    apply wp_bind. eapply wp_of_eq; [by apply get_b_Ok|]. unfold flag. rewrite Hf, Hdev. simpl.
    destruct (Z.leb_spec size (b_blockno b)); [lia|].
    apply wp_bind. eapply wp_of_eq.
    { rewrite (upd_b_Ok i b _ s1 Hb1 : (let* d := gets k_disk in upd_b i (fun b => b <| b_data := disk_read d (b_dev b) (b_blockno b) |>)) s1 = _).
      reflexivity. }
    eapply wp_of_eq; [eapply upd_b_Ok, lookup_setb, Hb1|]. rewrite setb_setb. apply HQ; [by apply thr_setb|].
    rewrite Hdev, (upto_proj k_disk _ _ ltac:(done) E1).
    rewrite (set_flags (fun f => Z.lor f B_VALID) CLEAN) by (simpl; by rewrite Hf). by apply setb_upto.
  - intros me i b p s Q H Hb Hp Hl Hdev Hno Hf HQ. cbn [iderw memide]. unfold memide_rw.
    apply wp_bind, (wp_holdingsleep me [] (SLbuf i) s (b_lock b) H (not_elem_of_nil _)) with (p := p);
      [simpl; by rewrite Hb|done|done|]. intros s1 H1 E1. cbn [negb].
    assert (k_bufs s1 !! i = Some b) as Hb1 by by rewrite (upto_proj k_bufs _ _ ltac:(done) E1).
    apply wp_bind. eapply wp_of_eq; [by apply get_b_Ok|]. unfold flag. rewrite Hf, Hdev. simpl.
    destruct (Z.leb_spec size (b_blockno b)); [lia|].
    apply wp_bind, wp_bind. eapply wp_of_eq; [by eapply upd_b_Ok|]. apply wp_modify.
    eapply wp_of_eq; [eapply upd_b_Ok; by eapply lookup_setb|].
    apply HQ.
    + by apply thr_setb, (thr_neutral (set k_disk _)), thr_setb.
    + rewrite (set_flags (fun f => Z.lor f B_VALID) CLEAN) by (simpl; by rewrite Hf).
      set (f := fun t => set k_disk (cons (1, b_blockno b, b_data b)) t).
      change (upto (f (setb i (b <| b_flags := CLEAN |>) s))
        (f (setb i (b <| b_flags := CLEAN |>) (setb i (set b_flags (fun f => Z.land f (Z.lnot B_DIRTY)) b) s1)))).
      rewrite setb_setb. by apply upto_neutral, setb_upto.
Qed.

(** ** The operations *)

(** What cache operations leave alone. *)
Definition rest (s : kstate) : kstate :=
  (erase s) <| k_bufs := [] |> <| k_bhead := (BHead, BHead) |> <| k_disk := [] |> <| k_ptable := [] |>.
Definition frame (s s' : kstate) : Prop := rest s' = rest s.

#[export] Instance frame_equiv : Equivalence frame.
Proof. split; unfold frame; [done|by intros ? ? ->|]. by intros ? ? ? -> ->. Qed.

Lemma frame_proj {A} (f : kstate -> A) s s' : (forall x, f (rest x) = f x) -> frame s s' -> f s' = f s.
Proof. intros Hf E. by rewrite <- (Hf s'), E. Qed.
Lemma upto_frame s s' : upto s s' -> frame s s'.
Proof. intros E. unfold frame, rest. by rewrite E. Qed.

Record cache_ok (me : nat) (H : list nat) (pid : Z) (s : kstate) : Prop := {
  co_bufs : bufs_ok H pid (k_disk s) (k_bufs s);
  co_list : exists l, linked s l /\ l ≡ₚ seq 0 NBUF;
  co_pid : p_pid <$> k_ptable s !! me = Some pid;
  co_disk : Forall (fun x => length x.2 = Z.to_nat BSIZE) (k_disk s)
}.

Lemma disk_read_len d dev bno :
  Forall (fun x => length x.2 = Z.to_nat BSIZE) d -> length (disk_read d dev bno) = Z.to_nat BSIZE.
Proof.
  induction 1 as [|[[dv b] data] d Hx Hd IH]; [done|]. simpl. by destruct (_ && _).
Qed.

Lemma linked_upto s s' l : upto s s' -> linked s l -> linked s' l.
Proof.
  intros E. apply ring_fext; intros [|i]; simpl;
    by rewrite ?(upto_proj k_bhead _ _ ltac:(done) E), ?(upto_proj k_bufs _ _ ltac:(done) E).
Qed.

Lemma linked_setb s i b b' l :
  k_bufs s !! i = Some b -> b_next b' = b_next b -> b_prev b' = b_prev b -> linked s l -> linked (setb i b' s) l.
Proof.
  intros Hb En Ep. pose proof (lookup_lt_Some _ _ _ Hb). apply ring_fext; intros [|j]; simpl; try done.
  - destruct (decide (j = i)) as [->|]; [|by rewrite list_lookup_insert_ne].
    by rewrite list_lookup_insert_eq, Hb.
  - destruct (decide (j = i)) as [->|]; [|by rewrite list_lookup_insert_ne].
    by rewrite list_lookup_insert_eq, Hb.
Qed.

Lemma linked_range s l j :
  length (k_bufs s) = NBUF -> l ≡ₚ seq 0 NBUF -> j ∈ l -> (j < length (k_bufs s))%nat.
Proof. intros -> E Hj. rewrite E, elem_of_seq in Hj. lia. Qed.

(** The dirty buffers are for blocks of [B]. *)
Definition dirty_in (dev : Z) (B : list Z) (bufs : list buf) : Prop :=
  forall i b, bufs !! i = Some b -> b_flags b = DIRTY -> b_dev b = dev /\ b_blockno b ∈ B.

(** A pigeonhole: at most [length B] indices satisfy [P]. *)
Lemma free_index (P : nat -> bool) (f : nat -> Z) (B : list Z) (H : list nat) n :
  (forall i j, P i = true -> P j = true -> f i = f j -> i = j) -> (forall i, P i = true -> f i ∈ B) ->
  (length B + length H < n)%nat -> exists i, (i < n)%nat /\ P i = false /\ i ∉ H.
Proof.
  intros Hinj HB Hlen.
  assert (length (List.filter P (seq 0 n)) <= length B)%nat as Hn.
  { rewrite <- (length_map f (List.filter P (seq 0 n))). apply NoDup_incl_length.
    - apply NoDup_ListNoDup, NoDup_fmap_2_strong; [|apply NoDup_ListNoDup, List.NoDup_filter, seq_NoDup].
      intros i j Hi Hj. apply list_elem_of_In, List.filter_In in Hi as [_ Hi], Hj as [_ Hj]. auto.
    - intros x Hx. apply in_map_iff in Hx as (i & <- & Hi). apply List.filter_In in Hi as [_ Hi].
      apply list_elem_of_In. auto. }
  destruct (decide (Exists (fun i => i ∉ List.filter P (seq 0 n) ++ H) (seq 0 n))) as [Hex|Hall].
  - apply Exists_exists in Hex as (i & Hi & Hni). rewrite elem_of_app in Hni. exists i.
    split_and!; [apply elem_of_seq in Hi; lia| |tauto]. apply not_true_iff_false. intros Hp. apply Hni. left.
    apply list_elem_of_In, List.filter_In. by rewrite <- list_elem_of_In.
  - exfalso. apply not_Exists_Forall in Hall; [|apply _]. rewrite Forall_forall in Hall.
    assert (length (seq 0 n) <= length (List.filter P (seq 0 n) ++ H))%nat as Hc.
    { apply NoDup_incl_length; [apply seq_NoDup|]. intros i Hi. apply list_elem_of_In.
      apply list_elem_of_In, Hall in Hi. by apply dec_stable. }
    rewrite length_seq, length_app in Hc. lia.
Qed.

(** Few dirty and held buffers leave one to recycle. *)
Lemma free_buffer dev B H pid d bufs :
  bufs_ok H pid d bufs -> dirty_in dev B bufs -> dev <> 0 -> (length B + length H < NBUF)%nat ->
  exists i b, bufs !! i = Some b /\ (i ∉ H) /\ b_flags b <> DIRTY.
Proof.
  intros Hok Hd Hdev Hlen.
  destruct (free_index (fun i => from_option (fun b => b_flags b =? DIRTY) false (bufs !! i))
    (fun i => from_option b_blockno 0 (bufs !! i)) B H NBUF) as (i & Hi & HP & HH); [| |done|].
  - intros i j Hi Hj E. destruct (bufs !! i) as [b|] eqn:Eb; [|done]. destruct (bufs !! j) as [c|] eqn:Ec; [|done].
    simpl in Hi, Hj, E. apply Z.eqb_eq in Hi, Hj. destruct (Hd i b Eb Hi) as [E1 _], (Hd j c Ec Hj) as [E2 _].
    apply (bo_unique _ _ _ _ Hok i j b c); [done|done|congruence|]. split; congruence.
  - intros i Hi. destruct (bufs !! i) as [b|] eqn:Eb; [|done]. simpl in Hi |- *. apply Z.eqb_eq in Hi. by apply (Hd i b).
  - rewrite <- (bo_len _ _ _ _ Hok) in Hi. apply lookup_lt_is_Some in Hi as [b Hb]. exists i, b.
    rewrite Hb in HP. simpl in HP. by apply Z.eqb_neq in HP.
Qed.

(** The scans of [bget]. *)
Lemma find_exists {A} (f : A -> bool) l x : x ∈ l -> f x = true -> exists y, List.find f l = Some y.
Proof.
  intros Hx Hf. destruct (List.find f l) as [y|] eqn:E; [by exists y|].
  apply list_elem_of_In in Hx. by rewrite (List.find_none _ _ E x Hx) in Hf.
Qed.

Definition bget_hit (pid : Z) (b : buf) : buf := b <| b_refcnt := 1 |> <| b_lock := MkSleeplock 1 pid |>.
Definition bget_miss (dev bno pid : Z) (b : buf) : buf :=
  b <| b_dev := dev |> <| b_blockno := bno |> <| b_flags := 0 |> <| b_refcnt := 1 |> <| b_lock := MkSleeplock 1 pid |>.

Section bio_rules.
Context {D : Disk} (fuel : nat) (dev size : Z) {DL : DiskLaws D dev size} (me : nat) (pid : Z).

Lemma scan_Ok s l (step : bufptr -> KM bufptr) f t :
  (forall p, valid_ptr s p -> step p s = Ok (f p) s) -> seg f (f BHead) l BHead ->
  length (k_bufs s) = NBUF -> l ≡ₚ seq 0 NBUF ->
  exists r, scan_bufs NBUF step t (f BHead) s = Ok r s /\
    match r with
    | Some i => exists b, k_bufs s !! i = Some b /\ t b = true
    | None => forall i b, k_bufs s !! i = Some b -> t b = false
    end.
Proof.
  intros Hstep Hs Hlen Hl. eexists. split.
  { apply scan_seg with (f := f); [done|done|intros j; by apply linked_range|]. rewrite Hl, length_seq. done. }
  destruct (List.find _ l) as [i|] eqn:E.
  - apply List.find_some in E as [_ E]. destruct (k_bufs s !! i) as [b|]; [by exists b|done].
  - intros i b Hb. assert (In i l) as Hi.
    { apply list_elem_of_In. rewrite Hl, elem_of_seq. apply lookup_lt_Some in Hb. lia. }
    pose proof (List.find_none _ _ E i Hi) as Ht. simpl in Ht. by rewrite Hb in Ht.
Qed.

Lemma wp_bget_take s i b b1 p (Q : nat -> kstate -> Prop) f :
  thr me [Lbcache] s -> k_bufs s !! i = Some b -> f b = b1 -> sl_locked (b_lock b1) = 0 -> k_ptable s !! me = Some p ->
  (forall s', thr me [] s' -> upto (setb i (b1 <| b_lock := MkSleeplock 1 (p_pid p) |>) s) s' -> Q i s') ->
  wp (upd_b i f ;; release Lbcache ;; acquiresleep fuel (SLbuf i) ;; ret i) Q s.
Proof.
  intros H Hb <- Hl Hp HQ. apply wp_bind. eapply wp_of_eq; [by apply upd_b_Ok|].
  apply wp_bind, (wp_release me []); [by apply thr_setb|apply not_elem_of_nil|]. intros s1 H1 E1.
  assert (k_bufs s1 !! i = Some (f b)) as Hb1.
  { rewrite (upto_proj k_bufs _ _ ltac:(done) E1). by eapply lookup_setb. }
  apply wp_bind, (wp_acquiresleep me [] (SLbuf i) s1 (b_lock (f b)) H1 (not_elem_of_nil _)); [simpl; by rewrite Hb1|done|].
  intros p' s2 Hp' H2 E2. apply wp_ret, HQ; [done|].
  rewrite (upto_proj k_ptable _ _ ltac:(done) E1) in Hp'. change (k_ptable s !! me = Some p') in Hp'.
  assert (p' = p) as -> by congruence. etransitivity; [|exact E2].
  rewrite (slset_setb i (f b)) by done. rewrite <- (setb_setb i (f b)). by apply setb_upto.
Qed.

Lemma wp_bget H B s bno (Q : nat -> kstate -> Prop) :
  thr me [] s -> cache_ok me H pid s -> dirty_in dev B (k_bufs s) -> (length B + length H < NBUF)%nat ->
  (forall j c, j ∈ H -> k_bufs s !! j = Some c -> ~ has_key dev bno c) ->
  (forall i b s', k_bufs s !! i = Some b -> i ∉ H -> has_key dev bno b ->
     thr me [] s' -> upto (setb i (bget_hit pid b) s) s' -> Q i s') ->
  (forall i b s', k_bufs s !! i = Some b -> i ∉ H -> b_flags b <> DIRTY ->
     (forall j c, k_bufs s !! j = Some c -> ~ has_key dev bno c) ->
     thr me [] s' -> upto (setb i (bget_miss dev bno pid b) s) s' -> Q i s') ->
  wp (bget fuel dev bno) Q s.
Proof.
  intros HT Hok Hdirty Hroom Hheld Hhit Hmiss. destruct Hok as [Hbufs (l & Hlink & Hl) Hpid Hdisk].
  unfold bget. apply wp_bind, (wp_acquire me []); [done|apply not_elem_of_nil|]. intros s1 H1 E1.
  apply wp_bind. eapply wp_of_eq; [by apply get_next_Ok|].
  assert (k_bufs s1 = k_bufs s) as Eb by by rewrite (upto_proj k_bufs _ _ ltac:(done) E1).
  assert (length (k_bufs s1) = NBUF) as Hlen by (rewrite Eb; apply Hbufs).
  pose proof (linked_upto _ _ _ E1 Hlink) as [Hf Hb].
  destruct (k_ptable s !! me) as [p|] eqn:Ep; [|done]. injection Hpid as Hpid.
  assert (k_ptable s1 !! me = Some p) as Ep1 by by rewrite (upto_proj k_ptable _ _ ltac:(done) E1).
  destruct (scan_Ok s1 l get_next (nxt s1) (fun b => (b_dev b =? dev) && (b_blockno b =? bno))) as (r & Er & Hr);
    [apply get_next_Ok|done|done|done|].
  apply wp_bind. eapply wp_of_eq; [exact Er|]. rewrite Eb in Hr. destruct r as [i|].
  - destruct Hr as (b & Hi & [E2 E3]%andb_true_iff). apply Z.eqb_eq in E2, E3.
    assert (i ∉ H) as HiH by (intros Hin; by apply (Hheld i b)).
    destruct (bo_each _ _ _ _ Hbufs i b Hi) as (_ & _ & He). rewrite bool_decide_false in He by done.
    destruct He as (Hc & Hlk & _).
    apply (wp_bget_take s1 i b (b <| b_refcnt := 1 |>) p); [done|by rewrite Eb| |done|done|].
    { transitivity (b <| b_refcnt := u32 (b_refcnt b + 1) |>); [done|]. by rewrite Hc. }
    intros s2 H2 E. apply (Hhit i b); [done|done|by split|done|].
    etransitivity; [|exact E]. rewrite <- Hpid. by apply setb_upto.
  - assert (forall j c, k_bufs s !! j = Some c -> ~ has_key dev bno c) as Hno.
    { intros j c Hj [<- <-]. specialize (Hr j c Hj). simpl in Hr. by rewrite !Z.eqb_refl in Hr. }
    apply wp_bind. eapply wp_of_eq; [by apply get_prev_Ok|].
    destruct (scan_Ok s1 (rev l) get_prev (prv s1) (fun b => (b_refcnt b =? 0) && negb (flag b B_DIRTY))) as (r2 & Er2 & Hr2);
      [apply get_prev_Ok|done|done|by rewrite <- Permutation_rev|].
    apply wp_bind. eapply wp_of_eq; [exact Er2|]. rewrite Eb in Hr2.
    destruct r2 as [i|].
    + destruct Hr2 as (b & Hi & [E2 E3]%andb_true_iff). apply Z.eqb_eq in E2. apply negb_true_iff in E3.
      destruct (bo_each _ _ _ _ Hbufs i b Hi) as (Hfl & _ & He).
      assert (i ∉ H) as HiH.
      { intros Hin. rewrite bool_decide_true in He by done. destruct He as [He _]. lia. }
      rewrite bool_decide_false in He by done. destruct He as (_ & Hlk & _).
      assert (b_flags b <> DIRTY) as Hnd by (intros E; unfold flag in E3; by rewrite E in E3).
      eapply (wp_bget_take s1 i b _ p); [done|by rewrite Eb|reflexivity|done|done|].
      intros s2 H2 E. apply (Hmiss i b); [done|done|done|done|done|].
      etransitivity; [|exact E]. unfold bget_miss. rewrite <- Hpid. by apply setb_upto.
    + exfalso. destruct (free_buffer dev B H pid (k_disk s) (k_bufs s)) as (i & b & Hi & HiH & Hnd); [done|done|apply dl_dev|done|].
      specialize (Hr2 i b Hi). simpl in Hr2. destruct (bo_each _ _ _ _ Hbufs i b Hi) as (Hfl & _ & He).
      rewrite bool_decide_false in He by done. destruct He as (Hc & _). rewrite Hc in Hr2. unfold flag in Hr2.
      destruct Hfl as [[Hfl _]|[Hfl|Hfl]]; rewrite Hfl in Hr2; done.
Qed.
(** Replacing an element a search does not find. *)
Lemma find_insert {A} (f : A -> bool) l i (x y : A) :
  l !! i = Some x -> f x = false -> f y = false -> List.find f (<[i := y]> l) = List.find f l.
Proof.
  revert i. induction l as [|a l IH]; intros [|i] Hi Hx Hy; simpl in *; try done.
  - injection Hi as ->. by rewrite Hx, Hy.
  - by rewrite (IH i).
Qed.

(** Replacing buffer [i] and the disk. *)
Lemma cache_replace H H' i b b' d' s s' :
  cache_ok me H pid s -> k_bufs s !! i = Some b -> upto (setb i b' (s <| k_disk := d' |>)) s' ->
  Forall (fun x => length x.2 = Z.to_nat BSIZE) d' -> b_next b' = b_next b -> b_prev b' = b_prev b ->
  buf_ok (bool_decide (i ∈ H')) pid d' b' ->
  (forall j, j <> i -> j ∈ H' <-> j ∈ H) ->
  (b_dev b' <> 0 -> forall j c, j <> i -> k_bufs s !! j = Some c -> ~ has_key (b_dev b') (b_blockno b') c) ->
  (forall j c, j <> i -> k_bufs s !! j = Some c -> b_flags c <> 0 ->
     disk_read d' (b_dev c) (b_blockno c) = disk_read (k_disk s) (b_dev c) (b_blockno c)) ->
  cache_ok me H' pid s' /\ frame s s' /\ k_bufs s' = <[i := b']> (k_bufs s) /\ k_disk s' = d'.
Proof.
  intros [Hb (l & Hlink & Hl) Hp Hd] Hi E Hd' En Ep Hbok HH Hkey Hdisk.
  pose proof (upto_proj k_bufs _ _ ltac:(done) E) as Eb. pose proof (upto_proj k_disk _ _ ltac:(done) E) as Ed.
  change (k_bufs s' = <[i := b']> (k_bufs s)) in Eb. change (k_disk s' = d') in Ed. split_and!; [split|..|done|done].
  - rewrite Eb, Ed. by eapply bufs_ok_insert.
  - exists l. split; [|done]. apply (linked_upto _ _ _ E).
    by apply (linked_setb (s <| k_disk := d' |>) i b b').
  - rewrite (upto_proj k_ptable _ _ ltac:(done) E). done.
  - by rewrite Ed.
  - apply upto_frame in E. etransitivity; [|exact E]. by destruct s.
Qed.

Lemma same_disk s : s <| k_disk := k_disk s |> = s.
Proof. by destruct s. Qed.

(** ** The cache of a thread

    [H] pairs the buffers the thread holds with their blocks, [B] has the
    blocks that may be dirty, and [T] the held block whose new content is not
    yet on the disk nor marked dirty. *)

Definition vw (s : kstate) (bno : Z) : list Z := view (k_disk s) (k_bufs s) dev bno.

Record holds (H : list (nat * Z)) (B : list Z) (T : option Z) (s : kstate) : Prop := {
  ho_thr : thr me [] s;
  ho_ok : cache_ok me H.*1 pid s;
  ho_nodup : NoDup H.*1;
  ho_dirty : dirty_in dev B (k_bufs s);
  ho_key i bno : (i, bno) ∈ H -> exists b, k_bufs s !! i = Some b /\ has_key dev bno b /\ 0 <= bno < size /\
    (T <> Some bno -> b_flags b = CLEAN -> b_data b = disk_read (k_disk s) dev bno)
}.

Lemma holds_view H B T s i b bno :
  holds H B T s -> k_bufs s !! i = Some b -> has_key dev bno b -> b_flags b <> 0 -> vw s bno = b_data b.
Proof. intros Hh Hi Hk Hf. eapply view_cached; [apply (ho_ok _ _ _ _ Hh)|done|apply dl_dev|done|done]. Qed.

Lemma held_inv H B T s i bno :
  holds H B T s -> (i, bno) ∈ H -> exists b, k_bufs s !! i = Some b /\ has_key dev bno b /\ 0 <= bno < size /\
    (b_flags b = CLEAN \/ b_flags b = DIRTY) /\ b_refcnt b = 1 /\ b_lock b = MkSleeplock 1 pid /\
    length (b_data b) = Z.to_nat BSIZE /\ b_data b = vw s bno /\
    (T <> Some bno -> b_flags b = CLEAN -> b_data b = disk_read (k_disk s) dev bno).
Proof.
  intros Hh Hin. destruct (ho_key _ _ _ _ Hh i bno Hin) as (b & Hi & Hk & Hs & Hc). exists b.
  destruct (bo_each _ _ _ _ (co_bufs _ _ _ _ (ho_ok _ _ _ _ Hh)) i b Hi) as (Hf & Hl & He).
  assert (i ∈ H.*1) as Hi1 by (apply list_elem_of_fmap; by exists (i, bno)).
  rewrite bool_decide_true in He by done. destruct He as (H1 & H2 & H3).
  pose proof Hk as [? ?]. split_and!; try (done || lia). symmetry. by eapply holds_view.
Qed.

(** Two held buffers of one block are the same. *)
Lemma held_unique H B T s i j bno : holds H B T s -> (i, bno) ∈ H -> (j, bno) ∈ H -> i = j.
Proof.
  intros Hh Hi Hj. destruct (held_inv _ _ _ _ _ _ Hh Hi) as (b & Hb & [Hd Hk] & _).
  destruct (held_inv _ _ _ _ _ _ Hh Hj) as (c & Hc & Hkc & _).
  eapply (bo_unique _ _ _ _ (co_bufs _ _ _ _ (ho_ok _ _ _ _ Hh))); [exact Hb|exact Hc|rewrite Hd; apply dl_dev|].
  by rewrite Hd, Hk.
Qed.

Lemma other_key H B T s i bno j c :
  holds H B T s -> (i, bno) ∈ H -> k_bufs s !! j = Some c -> j <> i -> ~ has_key dev bno c.
Proof.
  intros Hh Hi Hj Hne Hk. destruct (held_inv _ _ _ _ _ _ Hh Hi) as (b & Hb & [Hd Hk'] & _). destruct Hne. symmetry.
  eapply (bo_unique _ _ _ _ (co_bufs _ _ _ _ (ho_ok _ _ _ _ Hh))); [exact Hb|exact Hj|rewrite Hd; apply dl_dev|].
  by rewrite Hd, Hk'.
Qed.

Definition held_buf (d : history) (bno : Z) (b : buf) : Prop :=
  has_key dev bno b /\ b_refcnt b = 1 /\ b_lock b = MkSleeplock 1 pid /\ length (b_data b) = Z.to_nat BSIZE /\
  (b_flags b = CLEAN \/ b_flags b = DIRTY).

Lemma held_buf_ok d bno b : held_buf d bno b -> buf_ok true pid d b.
Proof. intros (_ & H1 & H2 & H3 & H4). split_and!; try done; [tauto|]. destruct H4 as [->| ->]; lia. Qed.

Lemma dirty_insert B B' bufs i b b' :
  dirty_in dev B bufs -> bufs !! i = Some b -> (forall j c, j <> i -> bufs !! j = Some c -> b_flags c = DIRTY -> b_blockno c ∈ B -> b_blockno c ∈ B') ->
  (b_flags b' = DIRTY -> b_dev b' = dev /\ b_blockno b' ∈ B') -> dirty_in dev B' (<[i := b']> bufs).
Proof.
  intros Hd Hi Hsub Hb j c Hj Hf. destruct (decide (j = i)) as [->|Hne].
  - rewrite list_lookup_insert_eq in Hj by (by eapply lookup_lt_Some). simplify_eq. by apply Hb.
  - rewrite list_lookup_insert_ne in Hj by done. destruct (Hd j c Hj Hf) as [H1 H2]. split; [done|]. by eapply Hsub.
Qed.

(** Buffer [i] becomes the held buffer of block [bno]. *)
Lemma holds_take H B T s i b b' bno s' :
  holds H B T s -> k_bufs s !! i = Some b -> i ∉ H.*1 -> 0 <= bno < size -> held_buf (k_disk s) bno b' ->
  b_next b' = b_next b -> b_prev b' = b_prev b ->
  (b_flags b' = CLEAN -> b_data b' = disk_read (k_disk s) dev bno) -> (b_flags b' = DIRTY -> bno ∈ B) ->
  (forall j c, j <> i -> k_bufs s !! j = Some c -> ~ has_key dev bno c) ->
  thr me [] s' -> upto (setb i b' s) s' ->
  holds ((i, bno) :: H) B T s' /\ frame s s' /\ k_bufs s' = <[i := b']> (k_bufs s) /\ k_disk s' = k_disk s.
Proof.
  intros [Ht Hok Hnd Hdirty Hkeys] Hi HiH Hsize Hheld En Ep Hclean Hdirt Hno Ht' E.
  destruct (cache_replace H.*1 (i :: H.*1) i b b' (k_disk s) s s') as (Hok' & Hfr & Eb & Ed); try done.
  { apply Hok. }
  { rewrite bool_decide_true by (by left). by apply held_buf_ok with bno. }
  { intros j Hj. rewrite elem_of_cons. split; [by intros [->|]|by right]. }
  { intros _ j c Hj Hc. destruct Hheld as [[-> ->] _]. by apply (Hno j). }
  split_and!; try done. split; [done|done|by constructor|..].
  - rewrite Eb. eapply dirty_insert; [done|done|done|]. intros Hf. destruct Hheld as [[-> ->] _]. split; [done|by apply Hdirt].
  - intros j n Hj. rewrite Eb, Ed. apply elem_of_cons in Hj as [[= -> ->]|Hj].
    + exists b'. split_and!; try (done || lia); [|apply Hheld..].
      apply list_lookup_insert_eq. by eapply lookup_lt_Some.
    + destruct (Hkeys j n Hj) as (c & Hc & Hk & Hs & Hcl). exists c. split_and!; try (done || lia); [|apply Hk..].
      rewrite list_lookup_insert_ne; [done|]. intros ->. apply HiH. apply list_elem_of_fmap. by exists (j, n).
Qed.

Lemma wp_bread H B T s bno (Q : nat -> kstate -> Prop) :
  holds H B T s -> (length B + length H < NBUF)%nat -> 0 <= bno < size -> bno ∉ H.*2 ->
  (forall i s', holds ((i, bno) :: H) B T s' -> (forall n, vw s' n = vw s n) -> k_disk s' = k_disk s -> frame s s' -> Q i s') ->
  wp (bread fuel dev bno) Q s.
Proof.
  intros Hh Hroom Hsize HbH HQ. pose proof (ho_ok _ _ _ _ Hh) as Hok. unfold bread.
  apply wp_bind, (wp_bget H.*1 B s bno); [apply (ho_thr _ _ _ _ Hh)|done|apply (ho_dirty _ _ _ _ Hh)|by rewrite length_fmap|..].
  - intros j c Hj Hc Hk. apply list_elem_of_fmap in Hj as ([j' n] & -> & Hj).
    destruct (ho_key _ _ _ _ Hh j' n Hj) as (c' & Hc' & [Hk1 Hk2] & _). simpl in Hc. assert (c' = c) as -> by congruence.
    destruct Hk as [_ Hk]. apply HbH, list_elem_of_fmap. exists (j', n). split; [simpl; congruence|done].
  - intros i b s1 Hi HiH Hk H1 E1. destruct (bo_each _ _ _ _ (co_bufs _ _ _ _ Hok) i b Hi) as (Hf & Hl & He).
    rewrite bool_decide_false in He by done. destruct He as (_ & _ & He).
    pose proof Hk as [Hk1 Hk2]. pose proof (dl_dev : dev <> 0) as Hdev.
    assert (b_flags b = CLEAN \/ b_flags b = DIRTY) as Hf' by (destruct Hf as [[_ ?]|?]; [congruence|done]).
    destruct (holds_take H B T s i b (bget_hit pid b) bno s1) as (Hh' & Hfr & Eb & Ed); try done.
    { intros Hc. change (b_data b = disk_read (k_disk s) dev bno). by rewrite <- Hk1, <- Hk2, He. }
    { intros Hd. rewrite <- Hk2. by apply (ho_dirty _ _ _ _ Hh i b). }
    { intros j c Hj Hc Hkc. apply Hj. symmetry. apply (bo_unique _ _ _ _ (co_bufs _ _ _ _ Hok) i j b c); [done|done|congruence|].
      by rewrite Hk1, Hk2. }
    apply wp_bind. eapply wp_of_eq.
    { apply get_b_Ok. rewrite Eb. apply list_lookup_insert_eq. by eapply lookup_lt_Some. }
    assert (flag (bget_hit pid b) B_VALID = true) as ->.
    { unfold flag. change (b_flags (bget_hit pid b)) with (b_flags b). by destruct Hf' as [->| ->]. }
    apply wp_bind, wp_ret, wp_ret, HQ; [done| |done|done].
    intros n. unfold vw. rewrite Eb, Ed. by eapply (view_same _ _ _ _ _ i b); [apply Hok|..].
  - intros i b s1 Hi HiH Hnd Hno H1 E1. set (b1 := bget_miss dev bno pid b).
    assert (k_bufs s1 !! i = Some b1) as Hb1.
    { rewrite (upto_proj k_bufs _ _ ltac:(done) E1). by eapply lookup_setb. }
    apply wp_bind. eapply wp_of_eq; [by apply get_b_Ok|]. change (flag b1 B_VALID) with false.
    destruct (k_ptable s !! me) as [p|] eqn:Ep; [|pose proof (co_pid _ _ _ _ Hok) as Hx; by rewrite Ep in Hx].
    assert (p_pid p = pid) as Hpid by (pose proof (co_pid _ _ _ _ Hok) as Hx; rewrite Ep in Hx; by injection Hx).
    apply wp_bind. eapply (dl_load me i b1 p); [done|done| |by rewrite Hpid|done|done|done|].
    { rewrite (upto_proj k_ptable _ _ ltac:(done) E1). done. }
    intros s2 H2 E2. rewrite (upto_proj k_disk _ _ ltac:(done) E1) in E2.
    change (k_disk (setb i b1 s)) with (k_disk s) in E2. change (b_blockno b1) with bno in E2.
    set (b2 := b1 <| b_data := disk_read (k_disk s) dev bno |> <| b_flags := CLEAN |>) in E2.
    assert (upto (setb i b2 s) s2) as E.
    { etransitivity; [|exact E2]. rewrite <- (setb_setb i b1). by apply setb_upto. }
    destruct (holds_take H B T s i b b2 bno s2) as (Hh' & Hfr & Eb & Ed); try done.
    { split_and!; try done; [|by left]. apply disk_read_len, Hok. }
    { intros j c _. by apply Hno. }
    apply wp_ret, HQ; [done| |done|done]. intros n. unfold vw. rewrite Eb, Ed.
    eapply (view_load H.*1 _ pid _ _ i b); [apply Hok|done|done|done| |done|done|done|apply dl_dev].
    pose proof (co_bufs _ _ _ _ (ho_ok _ _ _ _ Hh')) as Hx. rewrite Eb, Ed in Hx. exact Hx.
Qed.

Lemma wp_get_held H B T s i bno (Q : buf -> kstate -> Prop) :
  holds H B T s -> (i, bno) ∈ H ->
  (forall b, b_data b = vw s bno -> length (b_data b) = Z.to_nat BSIZE -> has_key dev bno b -> Q b s) -> wp (get_b i) Q s.
Proof.
  intros Hh Hi HQ. destruct (held_inv _ _ _ _ _ _ Hh Hi) as (b & Hb & Hk & _ & _ & _ & _ & Hl & Hv & _).
  eapply wp_of_eq; [by apply get_b_Ok|]. by apply HQ.
Qed.

(** A held buffer is replaced by one for the same block. *)
Lemma holds_update H B B' T T' s i b b' bno d' s' :
  holds H B T s -> (i, bno) ∈ H -> k_bufs s !! i = Some b -> held_buf d' bno b' ->
  b_next b' = b_next b -> b_prev b' = b_prev b ->
  (T' <> Some bno -> b_flags b' = CLEAN -> b_data b' = disk_read d' dev bno) ->
  (b_flags b' = DIRTY -> bno ∈ B') -> (forall n, n <> bno -> n ∈ B -> n ∈ B') ->
  (forall n, n <> bno -> T = Some n -> T' = Some n) ->
  (forall dv n, (dv, n) <> (dev, bno) -> disk_read d' dv n = disk_read (k_disk s) dv n) ->
  Forall (fun x => length x.2 = Z.to_nat BSIZE) d' ->
  thr me [] s' -> upto (setb i b' (s <| k_disk := d' |>)) s' ->
  holds H B' T' s' /\ frame s s' /\ k_bufs s' = <[i := b']> (k_bufs s) /\ k_disk s' = d'.
Proof.
  intros Hh Hin Hi Hheld En Ep Hclean Hdirt HB HT Hdr Hd' Ht' E. pose proof Hh as [Ht Hok Hnd Hdirty Hkeys].
  assert (forall j c, j <> i -> k_bufs s !! j = Some c -> ~ has_key dev bno c) as Hno.
  { intros j c Hj Hc. by eapply other_key. }
  assert (i ∈ H.*1) as HiH by (apply list_elem_of_fmap; by exists (i, bno)).
  destruct (cache_replace H.*1 H.*1 i b b' d' s s') as (Hok' & Hfr & Eb & Ed); try done.
  { rewrite bool_decide_true by done. by apply held_buf_ok with bno. }
  { intros _ j c Hj Hc. destruct Hheld as [[-> ->] _]. by apply (Hno j). }
  { intros j c Hj Hc _. apply Hdr. intros [= E1 E2]. by apply (Hno j c). }
  split_and!; try done. split; [done|done|done|..].
  - rewrite Eb. eapply dirty_insert; [done|done| |].
    + intros j c Hj Hc Hf. apply HB. intros Ec. apply (Hno j c); [done..|]. split; [|done]. by apply (Hdirty j).
    + intros Hf. destruct Hheld as [[-> ->] _]. split; [done|by apply Hdirt].
  - intros j n Hj. rewrite Eb, Ed. destruct (decide (n = bno)) as [->|Hne].
    + assert (j = i) as -> by by eapply held_unique. exists b'. destruct (Hkeys i bno Hin) as (_ & _ & _ & Hs & _).
      split_and!; try (done || lia); [|apply Hheld..]. apply list_lookup_insert_eq. by eapply lookup_lt_Some.
    + destruct (Hkeys j n Hj) as (c & Hc & Hk & Hs & Hcl). exists c. split_and!; try (done || lia); [|apply Hk..|].
      * rewrite list_lookup_insert_ne; [done|]. intros ->. apply Hne. destruct (Hkeys j bno Hin) as (c' & Hc' & [_ Hk'] & _).
        destruct Hk as [_ Hk]. congruence.
      * intros HT' Hf. rewrite Hdr by congruence. apply Hcl; [|done]. intros HTn. apply HT'. by apply HT.
Qed.

Lemma wp_upd_data H B T s i bno g (Q : unit -> kstate -> Prop) :
  holds H B T s -> (i, bno) ∈ H -> T = None \/ T = Some bno -> length (g (vw s bno)) = Z.to_nat BSIZE ->
  (forall s', holds H B (Some bno) s' -> (forall n, vw s' n = if decide (n = bno) then g (vw s bno) else vw s n) ->
     k_disk s' = k_disk s -> frame s s' -> Q tt s') ->
  wp (upd_b i (set b_data g)) Q s.
Proof.
  intros Hh Hin HT Hlen HQ. destruct (held_inv _ _ _ _ _ _ Hh Hin) as (b & Hb & Hk & Hs & Hf & Hr & Hl & Hdl & Hv & Hc).
  eapply wp_of_eq; [by apply upd_b_Ok|]. rewrite <- Hv in Hlen.
  destruct (holds_update H B B T (Some bno) s i b (set b_data g b) bno (k_disk s) (setb i (set b_data g b) s))
    as (Hh' & Hfr & Eb & Ed); try done.
  - intros Hd. destruct Hk as [_ <-]. by apply (ho_dirty _ _ _ _ Hh i b).
  - intros n Hn ->. by destruct HT as [|[= ]].
  - apply (ho_ok _ _ _ _ Hh).
  - apply thr_setb, (ho_thr _ _ _ _ Hh).
  - apply HQ; [done| |done|done]. intros n. case_decide as Hn.
    + subst n. erewrite (holds_view _ _ _ _ i (set b_data g b) bno Hh'); [by rewrite <- Hv| |done|].
      * by eapply lookup_setb.
      * change (b_flags b <> 0). destruct Hf as [->| ->]; lia.
    + unfold vw, view. rewrite Ed, Eb. rewrite (find_insert _ _ i b); [done|done|..]; apply not_true_iff_false;
        rewrite in_cache_true; destruct Hk as [_ Hk]; intros [[_ Hx] _]; apply Hn; by rewrite <- Hx.
Qed.

Lemma holds_me H B T s : holds H B T s -> exists p, k_ptable s !! me = Some p /\ p_pid p = pid.
Proof.
  intros Hh. pose proof (co_pid _ _ _ _ (ho_ok _ _ _ _ Hh)) as Hp. destruct (k_ptable s !! me) as [p|]; [|done].
  exists p. split; [done|by injection Hp].
Qed.

Lemma wp_bwrite H B B' T s i bno (Q : unit -> kstate -> Prop) :
  holds H B T s -> (i, bno) ∈ H -> T = None \/ T = Some bno -> (forall n, n <> bno -> n ∈ B -> n ∈ B') ->
  (forall s', holds H B' None s' -> (forall n, vw s' n = vw s n) -> k_disk s' = (dev, bno, vw s bno) :: k_disk s ->
     frame s s' -> Q tt s') ->
  wp (bwrite i) Q s.
Proof.
  intros Hh Hin HT HB HQ. destruct (held_inv _ _ _ _ _ _ Hh Hin) as (b & Hb & Hk & Hs & Hf & Hr & Hl & Hdl & Hv & Hc).
  destruct (holds_me _ _ _ _ Hh) as (p & Hp & Hpid). unfold bwrite.
  apply wp_bind, (wp_holdingsleep me [] (SLbuf i) s (b_lock b) (ho_thr _ _ _ _ Hh) (not_elem_of_nil _)) with (p := p);
    [simpl; by rewrite Hb|by rewrite Hl, Hpid|done|]. intros s1 H1 E1. cbn [negb].
  assert (k_bufs s1 !! i = Some b) as Hb1 by by rewrite (upto_proj k_bufs _ _ ltac:(done) E1).
  apply wp_bind. eapply wp_of_eq; [by apply upd_b_Ok|].
  rewrite (set_flags (fun f => Z.lor f B_DIRTY) DIRTY) by (by destruct Hf as [->| ->]).
  set (b1 := b <| b_flags := DIRTY |>). pose proof Hk as [Hk1 Hk2].
  eapply (dl_store me i b1 p); [by apply thr_setb|by eapply lookup_setb| |by rewrite Hpid|done|by rewrite <- Hk2 in Hs|done|].
  { change (k_ptable s1 !! me = Some p). by rewrite (upto_proj k_ptable _ _ ltac:(done) E1). }
  intros s2 H2 E2. change (b_blockno b1) with (b_blockno b) in E2. change (b_data b1) with (b_data b) in E2.
  rewrite Hk2, Hv in E2. set (b2 := b1 <| b_flags := CLEAN |>) in E2. set (d' := (dev, bno, vw s bno) :: k_disk s).
  assert (upto (setb i b2 (s <| k_disk := d' |>)) s2) as E.
  { etransitivity; [|exact E2]. unfold d'. rewrite <- (upto_proj k_disk _ _ ltac:(done) E1).
    change (upto (setb i b2 (s <| k_disk := (dev, bno, vw s bno) :: k_disk s1 |>))
      (setb i b2 (setb i b1 (s1 <| k_disk := (dev, bno, vw s bno) :: k_disk s1 |>)))). rewrite setb_setb.
    apply setb_upto. by apply (upto_neutral (fun t => t <| k_disk := (dev, bno, vw s bno) :: k_disk s1 |>)). }
  assert (forall dv n, (dv, n) <> (dev, bno) -> disk_read d' dv n = disk_read (k_disk s) dv n) as Hdr.
  { intros dv n Hne. unfold d'. simpl. destruct (Z.eqb_spec dev dv), (Z.eqb_spec bno n); simpl; congruence. }
  destruct (holds_update H B B' T None s i b b2 bno d' s2) as (Hh' & Hfr & Eb & Ed); try done.
  - split_and!; try done. by left.
  - intros _ _. change (b_data b = disk_read d' dev bno). unfold d'. simpl. by rewrite !Z.eqb_refl.
  - intros n Hn ->. by destruct HT as [|[= ]].
  - constructor; [simpl; by rewrite <- Hv|apply (ho_ok _ _ _ _ Hh)].
  - apply HQ; [done| |done|done]. intros n. unfold vw. rewrite Eb, Ed.
    eapply (view_same _ _ _ _ _ i b); [apply (ho_ok _ _ _ _ Hh)|done|apply dl_dev|done|done| |].
    + change (CLEAN = 0 <-> b_flags b = 0). destruct Hf as [->| ->]; done.
    + intros Hnc. apply Hdr. intros [= ->]. specialize (Hnc i b Hb Hk). destruct Hf; lia.
Qed.

(** Releasing buffer [i]: the buffers do not change except for [i], which moves to the front. *)
Lemma cache_relinked H s s' l :
  cache_ok me H pid s -> relinked s s' -> linked s' l -> l ≡ₚ seq 0 NBUF -> cache_ok me H pid s'.
Proof.
  intros [Hb _ Hp Hd] (bufs & h & E & ->) Hl Hperm. split; [by eapply bufs_ok_strip|by exists l|done|done].
Qed.
Lemma cache_upto H s s' : cache_ok me H pid s -> upto s s' -> cache_ok me H pid s'.
Proof.
  intros [Hb (l & Hl & Hperm) Hp Hd] E. split.
  - by rewrite (upto_proj k_bufs _ _ ltac:(done) E), (upto_proj k_disk _ _ ltac:(done) E).
  - exists l. split; [by eapply linked_upto|done].
  - by rewrite (upto_proj k_ptable _ _ ltac:(done) E).
  - by rewrite (upto_proj k_disk _ _ ltac:(done) E).
Qed.
Lemma cache_wake H ch s : cache_ok me H pid s -> cache_ok me H pid (set k_ptable (wake ch) s).
Proof.
  intros [Hb (l & Hl & Hperm) Hp Hd]. split; [done|by exists l| |done].
  rewrite <- Hp, <- !list_lookup_fmap. apply (f_equal (.!! me)), pids_wake.
Qed.

Lemma holds_release H H' B T s i b b' bno s1 s2 s' l (Q : unit -> kstate -> Prop) :
  holds H B T s -> H ≡ₚ (i, bno) :: H' -> T <> Some bno -> k_bufs s !! i = Some b ->
  (b_refcnt b' = 0 /\ sl_locked (b_lock b') = 0) -> has_key (b_dev b) (b_blockno b) b' -> b_data b' = b_data b ->
  b_flags b' = b_flags b -> b_next b' = b_next b -> b_prev b' = b_prev b ->
  upto (setb i b' (set k_ptable (wake (ChSleepLock (SLbuf i))) s)) s1 ->
  relinked s1 s2 -> linked s2 l -> l ≡ₚ seq 0 NBUF -> thr me [] s' -> upto s2 s' ->
  (forall s', holds H' B T s' -> (forall n, vw s' n = vw s n) -> k_disk s' = k_disk s -> frame s s' -> Q tt s') -> Q tt s'.
Proof.
  intros Hh HH HT Hb [Hr Hlk] Hkey Hdata Hfl En Ep E1 Hrel Hlink Hperm Ht' E2 HQ.
  assert ((i, bno) ∈ H) as Hin by (rewrite HH; by left).
  destruct (held_inv _ _ _ _ _ _ Hh Hin) as (b0 & Hb0 & Hk & Hs & Hf & _ & _ & Hdl & Hv & Hc).
  assert (b0 = b) as -> by congruence. clear Hb0. destruct Hkey as [Hd' Hn'], Hk as [Hd Hn].
  pose proof (cache_wake _ (ChSleepLock (SLbuf i)) _ (ho_ok _ _ _ _ Hh)) as Hok.
  pose proof (ho_nodup _ _ _ _ Hh) as Hnd. rewrite HH in Hnd. apply NoDup_cons in Hnd as [HiH' Hnd].
  destruct (cache_replace H.*1 H'.*1 i b b' (k_disk s) _ s1 Hok) as (Hok1 & Hfr1 & Eb & Ed); try done.
  { apply Hok. }
  { rewrite bool_decide_false by done. split; [|split; [congruence|]].
    - rewrite Hfl. tauto.
    - split_and!; [done|done|]. rewrite Hfl, Hdata, Hd', Hn', Hd, Hn. by apply Hc. }
  { intros j Hj. rewrite HH. simpl. rewrite elem_of_cons. split; [by right|by intros [->|]]. }
  { intros _ j c Hj Hcj. rewrite Hd', Hn', Hd, Hn. by eapply other_key. }
  pose proof (cache_upto _ _ _ (cache_relinked _ _ _ _ Hok1 Hrel Hlink Hperm) E2) as Hok'.
  destruct Hrel as (bufs & h & Es & ->). change (k_bufs (set k_ptable (wake (ChSleepLock (SLbuf i))) s)) with (k_bufs s) in Eb.
  pose proof (upto_proj k_bufs _ _ ltac:(done) E2) as Eb2. pose proof (upto_proj k_disk _ _ ltac:(done) E2) as Ed2.
  change (k_bufs s' = bufs) in Eb2. change (k_disk s' = k_disk s1) in Ed2. rewrite Ed in Ed2.
  assert (dirty_in dev B (k_bufs s1)) as Hdirty1.
  { rewrite Eb. eapply dirty_insert; [apply Hh|done|done|]. rewrite Hfl, Hd', Hn'. by apply (ho_dirty _ _ _ _ Hh i b). }
  apply HQ; [split; [done|done|done|..]| |done|].
  - rewrite Eb2. intros j c Hj Hfc. destruct (strip_lookup _ _ _ _ Es Hj) as (c' & Hj' & (Ef & Edv & Ebn & _)%strip_inv).
    rewrite Edv, Ebn. apply (Hdirty1 j c'); [done|congruence].
  - intros j n Hj. assert ((j, n) ∈ H) as HjH by (rewrite HH; by right).
    destruct (ho_key _ _ _ _ Hh j n HjH) as (c & Hcj & Hkc & Hsc & Hcl).
    assert (j <> i) as Hne. { intros ->. apply HiH', list_elem_of_fmap. by exists (i, n). }
    assert (k_bufs s1 !! j = Some c) as Hc1 by (by rewrite Eb, list_lookup_insert_ne).
    destruct (strip_lookup _ _ _ _ (eq_sym Es) Hc1) as (c' & Hc' & (Ef & Edv & Ebn & _ & _ & Eda)%strip_inv).
    exists c'. rewrite Eb2, Ed2. destruct Hkc. split_and!; try (done || lia); [split; congruence|].
    intros HTn. rewrite <- Ef, <- Eda. by apply Hcl.
  - intros n. unfold vw. rewrite Eb2, Ed2, (view_strip _ _ _ _ _ Es), Eb.
    eapply (view_same _ _ _ _ _ i b); [apply (ho_ok _ _ _ _ Hh)|done|apply dl_dev|done|done|by rewrite Hfl|done].
  - apply upto_frame in E2. etransitivity; [|exact E2]. etransitivity; [|etransitivity; [exact Hfr1|]]; by destruct s.
Qed.

(** The second half of [brelse], under the lock of the cache. *)
Lemma wp_brelse_unref s i b l (Q : unit -> kstate -> Prop) :
  thr me [Lbcache] s -> k_bufs s !! i = Some b -> b_refcnt b = 1 -> linked s l -> l ≡ₚ seq 0 NBUF ->
  length (k_bufs s) = NBUF ->
  (forall s1 s2 l', linked s1 l' -> l' ≡ₚ seq 0 NBUF -> relinked (setb i (b <| b_refcnt := 0 |>) s) s1 ->
     thr me [] s2 -> upto s1 s2 -> Q tt s2) ->
  wp (upd_b i (set b_refcnt (fun n => u32 (n - 1))) ;;
      let* b := get_b i in
      when (b_refcnt b =? 0) (
        set_prev (b_next b) (b_prev b) ;; set_next (b_prev b) (b_next b) ;; link_first i ;; link_back i) ;;
      release Lbcache) Q s.
Proof.
  intros Ht Hb Hr Hlink Hl Hlen HQ. set (b1 := b <| b_refcnt := 0 |>).
  apply wp_bind. eapply wp_of_eq; [by apply upd_b_Ok|].
  assert (set b_refcnt (fun n => u32 (n - 1)) b = b1) as ->.
  { transitivity (b <| b_refcnt := u32 (b_refcnt b - 1) |>); [done|]. by rewrite Hr. }
  assert (k_bufs (setb i b1 s) !! i = Some b1) as Hb1 by by eapply lookup_setb.
  apply wp_bind. eapply wp_of_eq; [by apply get_b_Ok|]. change (b_refcnt b1 =? 0) with true. unfold when.
  assert (i ∈ l) as (l1 & l2 & ->)%list_elem_of_split.
  { rewrite Hl, elem_of_seq. apply lookup_lt_Some in Hb. lia. }
  apply wp_bind, (wp_relink _ l1 i l2) with (b := b1); [by apply (linked_setb s i b b1)| | |done|].
  { rewrite Hl. apply NoDup_ListNoDup, seq_NoDup. }
  { intros j. apply linked_range; [|done]. unfold setb. simpl. by rewrite length_insert. }
  intros s1 Hl1 Hrel. apply (wp_release me []); [|apply not_elem_of_nil|].
  { destruct Hrel as (bufs & h & _ & ->).
    apply (thr_neutral (fun t => t <| k_bufs := bufs |> <| k_bhead := h |>)); [split; done|done|by apply thr_setb]. }
  intros s2 H2 E2. apply (HQ s1 s2 (i :: l1 ++ l2)); try done. by rewrite <- Hl, <- Permutation_middle.
Qed.

Lemma wp_brelse H H' B T s i bno (Q : unit -> kstate -> Prop) :
  holds H B T s -> H ≡ₚ (i, bno) :: H' -> T <> Some bno ->
  (forall s', holds H' B T s' -> (forall n, vw s' n = vw s n) -> k_disk s' = k_disk s -> frame s s' -> Q tt s') ->
  wp (brelse i) Q s.
Proof.
  intros Hh HH HT HQ. assert ((i, bno) ∈ H) as Hin by (rewrite HH; by left).
  destruct (held_inv _ _ _ _ _ _ Hh Hin) as (b & Hb & Hk & Hs & Hf & Hr & Hl & Hdl & Hv & Hc).
  destruct (holds_me _ _ _ _ Hh) as (p & Hp & Hpid). unfold brelse.
  apply wp_bind, (wp_holdingsleep me [] (SLbuf i) s (b_lock b) (ho_thr _ _ _ _ Hh) (not_elem_of_nil _)) with (p := p);
    [simpl; by rewrite Hb|by rewrite Hl, Hpid|done|]. intros s1 H1 E1. cbn [negb].
  assert (k_bufs s1 !! i = Some b) as Hb1 by by rewrite (upto_proj k_bufs _ _ ltac:(done) E1).
  apply wp_bind, (wp_releasesleep me [] (SLbuf i) s1 (b_lock b) H1 (not_elem_of_nil _)); [simpl; by rewrite Hb1|apply not_elem_of_nil|].
  intros s2 H2 E2. rewrite (slset_setb i b) in E2 by done. set (b1 := b <| b_lock := MkSleeplock 0 0 |>) in E2.
  apply wp_bind, (wp_acquire me []); [done|apply not_elem_of_nil|]. intros s3 H3 E3.
  set (s0 := set k_ptable (wake (ChSleepLock (SLbuf i))) s).
  assert (upto (setb i b1 s0) s3) as E.
  { etransitivity; [|exact E3]. etransitivity; [|exact E2].
    change (setb i b1 s0) with (set k_ptable (wake (ChSleepLock (SLbuf i))) (setb i b1 s)).
    by apply (upto_neutral (set k_ptable (wake (ChSleepLock (SLbuf i))))), setb_upto. }
  pose proof (cache_wake _ (ChSleepLock (SLbuf i)) _ (ho_ok _ _ _ _ Hh)) as Hok. fold s0 in Hok.
  destruct (co_list _ _ _ _ Hok) as (l & Hlink & Hperm).
  assert (k_bufs s3 !! i = Some b1) as Hb3.
  { rewrite (upto_proj k_bufs _ _ ltac:(done) E). by apply (lookup_setb i b1 b s0). }
  apply (wp_brelse_unref s3 i b1 l); [done|done|done| |done| |].
  { apply (linked_upto _ _ _ E). by apply (linked_setb s0 i b b1). }
  { rewrite (upto_proj k_bufs _ _ ltac:(done) E). unfold setb. simpl. rewrite length_insert. apply Hok. }
  intros s4 s5 l' Hl' Hperm' Hrel H5 E5. set (b2 := b1 <| b_refcnt := 0 |>) in Hrel.
  apply (holds_release H H' B T s i b b2 bno (setb i b2 s3) s4 s5 l'); try done.
  etransitivity; [|apply setb_upto, E]. by rewrite setb_setb.
Qed.

(** A block that cannot be dirty is as on the disk. *)
Lemma vw_clean B s b : holds [] B None s -> b ∉ B -> vw s b = disk_read (k_disk s) dev b.
Proof.
  intros Hh Hb. pose proof (co_bufs _ _ _ _ (ho_ok _ _ _ _ Hh)) as Hok.
  destruct (cached_or_not (k_bufs s) dev b) as [(i & c & Hi & Hk & Hf)|Hno]; [|by apply view_uncached].
  rewrite (holds_view [] B None s i c b Hh Hi Hk Hf). destruct (bo_each _ _ _ _ Hok i c Hi) as (Hfl & _ & He).
  rewrite bool_decide_false in He by apply not_elem_of_nil. destruct He as (_ & _ & He). destruct Hk as [<- <-]. apply He.
  destruct Hfl as [[? ?]|[?|Hd]]; [done|done|]. by destruct Hb; apply (ho_dirty _ _ _ _ Hh i c).
Qed.

Lemma vw_len H B T s b : holds H B T s -> length (vw s b) = Z.to_nat BSIZE.
Proof.
  intros Hh. pose proof (ho_ok _ _ _ _ Hh) as [Hok _ _ Hd]. unfold vw, view.
  destruct (List.find _ _) as [c|] eqn:E; [|by apply disk_read_len].
  apply List.find_some in E as [Hin _]. apply list_elem_of_In, list_elem_of_lookup in Hin as [j Hj].
  by destruct (bo_each _ _ _ _ Hok j c Hj) as (_ & ? & _).
Qed.
End bio_rules.

(** ** Initialisation

    [binit] links the zeroed buffers; nothing is cached. *)

Definition bare (n : nat) (s s' : kstate) : Prop := map strip (k_bufs s') = replicate n buf0 /\ frame s s' /\ k_disk s' = k_disk s.

Lemma frame_relinked s s' : relinked s s' -> frame s s' /\ k_disk s' = k_disk s.
Proof. intros (b & h & _ & ->). done. Qed.

Lemma relinked_bare n s s' t : relinked s' t -> bare n s s' -> bare n s t.
Proof.
  intros Hr (H1 & H2 & H3). destruct (frame_relinked _ _ Hr) as [F D]. destruct Hr as (b & h & E & ->).
  split_and!; [simpl; congruence|by etransitivity|done].
Qed.

Definition slinit (i : nat) (t : kstate) : kstate :=
  slset (SLbuf i) (MkSleeplock 0 0) (set k_locks (insert (Lsleep (SLbuf i)) (MkLock 0 None)) t).

Lemma slinit_bare n i s t : bare n s t -> bare n s (slinit i t).
Proof.
  intros (H1 & H2 & H3). split_and!; [|done|done]. rewrite <- H1. apply list_eq. intros j. simpl.
  rewrite !list_lookup_fmap, list_lookup_alter. case_decide as Hd; [subst j|done].
  destruct (k_bufs t !! i) as [b|] eqn:Eb; [|done]. simpl. f_equal.
  assert (map strip (k_bufs t) !! i = Some (strip b)) as Hs by (by rewrite list_lookup_fmap, Eb).
  rewrite H1 in Hs. apply lookup_replicate in Hs as [Hs _]. apply (f_equal b_lock) in Hs.
  change (b_lock b = sleeplock0) in Hs. destruct b. simpl in Hs. by subst.
Qed.

Lemma wp_binit_step n s i l t (Q : unit -> kstate -> Prop) :
  (i < n)%nat -> linked t l -> i ∉ l -> NoDup l -> (forall j, j ∈ l -> (j < n)%nat) -> bare n s t ->
  (forall t', linked t' (i :: l) -> bare n s t' -> Q tt t') ->
  wp (link_first i ;; initsleeplock (SLbuf i) ;; link_back i) Q t.
Proof.
  intros Hin Hl Hi Hd Hr Hb HQ.
  assert (length (k_bufs t) = n) as Hlen.
  { destruct Hb as (Hb & _). apply (f_equal length) in Hb. by rewrite length_map, length_replicate in Hb. }
  set (f := nxt t BHead). set (t1 := setp (BBuf i) BHead (setn (BBuf i) f t)).
  assert (relinked t t1) as R1 by (eapply relinked_trans; [apply relinked_setn|apply relinked_setp]).
  assert (i < length (k_bufs t1))%nat as [b Hb1]%lookup_lt_is_Some by (rewrite (relinked_len _ _ R1); lia).
  assert (initsleeplock (SLbuf i) t1 = Ok tt (slinit i t1)) as Einit.
  { unfold initsleeplock, initlock, put_lk. rewrite (bind_Ok _ _ _ tt (set k_locks (insert (Lsleep (SLbuf i)) (MkLock 0 None)) t1)) by done.
    rewrite (upd_sl_Ok _ (SLbuf i) _ (b_lock b)); [done|]. exact (f_equal (fmap b_lock) Hb1). }
  assert (nxt (slinit i t1) BHead = f) as Ef by (unfold t1; simpl; by destruct t).
  eapply wp_of_eq.
  { unfold link_first, link_back. rewrite (bind_bind _ _ _ _ _ _ (get_next_Ok t BHead I)). fold f.
    rewrite (bind_bind _ _ _ _ _ _ (set_next_Ok _ _ _)). rewrite (bind_Ok _ _ _ _ _ (set_prev_Ok _ _ _)). fold t1.
    rewrite (bind_Ok _ _ _ _ _ Einit). rewrite (bind_Ok _ _ _ _ _ (get_next_Ok (slinit i t1) BHead I)), Ef.
    rewrite (bind_Ok _ _ _ _ _ (set_prev_Ok _ _ _)). apply set_next_Ok. }
  apply HQ.
  - apply (linked_front (slinit i)); try done; [..|lia|by rewrite Hlen].
    + intros u [|q]; simpl; [done|]. by apply from_option_alter.
    + intros u [|q]; simpl; [done|]. by apply from_option_alter.
    + intros u. apply length_alter.
  - eapply relinked_bare; [eapply relinked_trans; [apply relinked_setp|apply relinked_setn]|].
    by apply slinit_bare; eapply relinked_bare.
Qed.

Lemma wp_binit s (Q : unit -> kstate -> Prop) :
  k_bufs s = replicate NBUF buf0 ->
  (forall s', linked s' (rev (seq 0 NBUF)) -> bare NBUF s s' -> Q tt s') -> wp binit Q s.
Proof.
  intros Hb HQ. unfold binit. apply wp_bind, wp_modify, wp_bind.
  eapply wp_of_eq; [apply set_prev_Ok|]. apply wp_bind. eapply wp_of_eq; [apply set_next_Ok|].
  set (s1 := setn _ _ _). assert (bare NBUF s s1 /\ linked s1 []) as [Hb1 Hl1].
  { split; [|done]. split_and!; [|done|done]. change (k_bufs s1) with (k_bufs s). rewrite Hb. apply (fmap_replicate strip). }
  clearbody s1. revert HQ Hb1. generalize NBUF. intros n HQ Hb1.
  apply (wp_for_each _ (fun l t => exists j, (j <= n)%nat /\ l = seq j (n - j) /\ linked t (rev (seq 0 j)) /\ bare n s t)).
  - exists 0%nat. split_and!; [lia|by rewrite Nat.sub_0_r|done|apply Hb1..].
  - intros i l t (j & Hj & El & Hl & Hbt). destruct (n - j)%nat as [|m] eqn:Em; [done|]. injection El as -> ->.
    eapply (wp_binit_step n s j (rev (seq 0 j))); [lia|done|..|done|].
    + rewrite list_elem_of_In, <- in_rev, in_seq. lia.
    + rewrite <- Permutation_rev. apply NoDup_ListNoDup, seq_NoDup.
    + intros k. rewrite list_elem_of_In, <- in_rev, in_seq. lia.
    + intros t' Hl' Hb'. exists (S j). split_and!; [lia|f_equal; lia| |apply Hb'..].
      by rewrite seq_S, rev_app_distr.
  - intros t (j & Hj & El & Hl & Hbt). assert (j = n) as -> by (destruct (n - j)%nat eqn:?; [lia|done]). by apply HQ.
Qed.

Lemma bare_ok pid d n s s' : n = NBUF -> bare n s s' -> bufs_ok [] pid d (k_bufs s').
Proof.
  intros -> (Hb & _).
  assert (forall i b, k_bufs s' !! i = Some b -> strip b = buf0) as Hall.
  { intros i b Hi. assert (map strip (k_bufs s') !! i = Some (strip b)) as Hs by (by rewrite list_lookup_fmap, Hi).
    rewrite Hb in Hs. by apply lookup_replicate in Hs as [-> _]. }
  assert (forall b, strip b = buf0 -> b_flags b = 0 /\ b_dev b = 0 /\ b_refcnt b = 0 /\ sl_locked (b_lock b) = 0 /\
    length (b_data b) = Z.to_nat BSIZE) as Hz.
  { intros b E. destruct b. unfold strip, buf0, set in E. simpl in E. injection E as -> -> -> -> -> ->. done. }
  split.
  - apply (f_equal length) in Hb. by rewrite length_map, length_replicate in Hb.
  - intros i Hi. by apply not_elem_of_nil in Hi.
  - intros i j b c Hi _ Hd. destruct (Hz b) as (_ & E & _); [by eapply Hall|done].
  - intros i b Hi. destruct (Hz b) as (E1 & E2 & E3 & E4 & E5); [by eapply Hall|].
    rewrite bool_decide_false by apply not_elem_of_nil. unfold buf_ok. rewrite E1. split_and!; try done. by left.
Qed.

(** C7: The buffer cache is coherent.  [binit] establishes its invariant: the
    buffers form one ring, no block has two buffers, and a clean buffer that
    nobody holds agrees with the disk.  [bread] returns a locked buffer with
    the current content of its block and changes the content of none;
    [bwrite] and [brelse] put that content on the disk and give the buffer
    back.  All of them keep the invariant. *)
Theorem buffer_cache_coherent {D : Disk} (fuel : nat) (dev size : Z) {DL : DiskLaws D dev size} me pid :
  (forall s, k_bufs s = replicate NBUF buf0 ->
     exists s', binit s = Ok tt s' /\ frame s s' /\ bufs_ok [] pid (k_disk s') (k_bufs s') /\
       linked s' (rev (seq 0 NBUF))) /\
  (forall H B s bno, holds dev size me pid H B None s -> (length B + length H < NBUF)%nat -> 0 <= bno < size -> bno ∉ H.*2 ->
     exists i b s', bread fuel dev bno s = Ok i s' /\ holds dev size me pid ((i, bno) :: H) B None s' /\
       k_bufs s' !! i = Some b /\ has_key dev bno b /\ b_data b = vw dev s bno /\ forall n, vw dev s' n = vw dev s n) /\
  (forall H B s i bno, holds dev size me pid ((i, bno) :: H) B None s ->
     exists s', (bwrite i ;; brelse i) s = Ok tt s' /\ holds dev size me pid H B None s' /\
       disk_read (k_disk s') dev bno = vw dev s bno /\ forall n, vw dev s' n = vw dev s n).
Proof.
  split_and!.
  - intros s Hs.
    assert (wp binit (fun _ s' => linked s' (rev (seq 0 NBUF)) /\ bare NBUF s s') s) as Hwp by (by apply wp_binit).
    destruct (proj1 (wp_iff binit _ s) Hwp) as ([] & s' & E & Hl & Hb). clear Hwp. exists s'. pose proof Hb as (_ & F & _).
    split_and!; [exact E|exact F|by eapply bare_ok|exact Hl].
  - intros H B s bno Hh Hroom Hs Hn.
    assert (wp (bread fuel dev bno) (fun i s' => holds dev size me pid ((i, bno) :: H) B None s' /\ forall n, vw dev s' n = vw dev s n) s) as Hwp.
    { by apply (wp_bread fuel dev size me pid H B None s bno). }
    apply wp_iff in Hwp as (i & s' & E & Hh' & Hv).
    destruct (held_inv dev size me pid _ _ _ _ i bno Hh') as (b & Hb & Hk & _ & _ & _ & _ & _ & Hd & _); [by left|].
    exists i, b, s'. rewrite Hv in Hd. split_and!; done.
  - intros H B s i bno Hh.
    assert (wp (bwrite i ;; brelse i) (fun _ s' => holds dev size me pid H B None s' /\
      disk_read (k_disk s') dev bno = vw dev s bno /\ forall n, vw dev s' n = vw dev s n) s) as Hwp.
    { apply wp_bind, (wp_bwrite dev size me pid ((i, bno) :: H) B B None s i bno); [done|by left|by left|done|]. intros s1 H1 V1 D1 F1.
      eapply (wp_brelse dev size me pid); [done|reflexivity|done|]. intros s2 H2 V2 D2 F2. split_and!; [done| |].
      - rewrite D2, D1. simpl. by rewrite !Z.eqb_refl.
      - intros n. by rewrite V2, V1. }
    apply wp_iff in Hwp as ([] & s' & E & Hx). by exists s'.
Qed.

(** ** A cache with given buffers *)

Definition ring_bufs (f : nat -> buf) : list buf :=
  map (fun i => (f i) <| b_prev := if Nat.eqb i 29 then BHead else BBuf (S i) |>
                    <| b_next := match i with O => BHead | S j => BBuf j end |>) (seq 0 NBUF).
Definition with_bufs (f : nat -> buf) (d : history) (s : kstate) : kstate :=
  s <| k_bufs := ring_bufs f |> <| k_bhead := (BBuf 0, BBuf 29) |> <| k_disk := d |>.

Lemma with_bufs_linked f d s : linked (with_bufs f d s) (rev (seq 0 NBUF)).
Proof. vm_compute. repeat split. Qed.

Lemma ring_bufs_lookup f i b : ring_bufs f !! i = Some b -> (i < NBUF)%nat /\ strip b = strip (f i).
Proof.
  unfold ring_bufs. rewrite list_lookup_fmap. intros H. destruct (seq 0 NBUF !! i) as [j|] eqn:E; [|done].
  apply lookup_seq in E as [-> Hi]. split; [done|]. by injection H as <-.
Qed.

Lemma with_bufs_holds dev size me pid B f d s :
  thr me [] s -> p_pid <$> k_ptable s !! me = Some pid -> Forall (fun x => length x.2 = Z.to_nat BSIZE) d ->
  (forall i, buf_ok false pid d (f i) /\ (b_flags (f i) = DIRTY -> b_dev (f i) = dev /\ b_blockno (f i) ∈ B)) ->
  (forall i j, b_dev (f i) <> 0 -> has_key (b_dev (f i)) (b_blockno (f i)) (f j) -> i = j) ->
  holds dev size me pid [] B None (with_bufs f d s).
Proof.
  intros Ht Hp Hd Hf Hu. split.
  - by apply (thr_neutral (with_bufs f d)).
  - split; [split| |done|done].
    + change (k_bufs (with_bufs f d s)) with (ring_bufs f). unfold ring_bufs. by rewrite length_map, length_seq.
    + intros i Hi. by apply not_elem_of_nil in Hi.
    + intros i j b c [_ E1%strip_inv]%ring_bufs_lookup [_ E2%strip_inv]%ring_bufs_lookup.
      destruct E1 as (_ & -> & -> & _), E2 as (_ & E3 & E4 & _). intros Hb Hk. apply Hu; [done|]. unfold has_key in *. congruence.
    + intros i b [_ E%strip_inv]%ring_bufs_lookup. rewrite bool_decide_false by apply not_elem_of_nil.
      destruct E as (E1 & E2 & E3 & E4 & E5 & E6). destruct (Hf i) as [Hx _]. unfold buf_ok in *. by rewrite E1, E2, E3, E4, E5, E6.
    + exists (rev (seq 0 NBUF)). split; [apply with_bufs_linked|by rewrite <- Permutation_rev].
  - constructor.
  - intros i b [_ E%strip_inv]%ring_bufs_lookup Hfl. destruct E as (E1 & E2 & E3 & _). rewrite E2, E3. apply (Hf i). congruence.
  - intros i bno Hi. by apply not_elem_of_nil in Hi.
Qed.

Lemma buffer_cache_coherent_witness :
  (forall s, k_bufs s = replicate NBUF buf0 ->
     exists s', binit s = Ok tt s' /\ frame s s' /\ bufs_ok [] 1 (k_disk s') (k_bufs s') /\
       linked s' (rev (seq 0 NBUF))) /\
  (forall H B s bno, holds 1 1000 0 1 H B None s -> (length B + length H < NBUF)%nat -> 0 <= bno < 1000 -> bno ∉ H.*2 ->
     exists i b s', bread (D := memide 1000) 0 1 bno s = Ok i s' /\ holds 1 1000 0 1 ((i, bno) :: H) B None s' /\
       k_bufs s' !! i = Some b /\ has_key 1 bno b /\ b_data b = vw 1 s bno /\ forall n, vw 1 s' n = vw 1 s n) /\
  (forall H B s i bno, holds 1 1000 0 1 ((i, bno) :: H) B None s ->
     exists s', (bwrite (D := memide 1000) i ;; brelse i) s = Ok tt s' /\ holds 1 1000 0 1 H B None s' /\
       disk_read (k_disk s') 1 bno = vw 1 s bno /\ forall n, vw 1 s' n = vw 1 s n).
Proof. apply (buffer_cache_coherent (D := memide 1000) 0 1 1000 0 1). Defined.
