(* ===== verification/Log.v ===== *)
(** * Write-ahead log (log.c)

    A transaction collects the numbers of the blocks its system calls modify;
    [commit] writes their contents to the log area, then the header (the
    commit point), then the home blocks, then an empty header.
    [recover_from_log] replays a committed header after a crash. *)

From stdpp Require Import base numbers list list_numbers gmap strings.
From S2P Require Import Prelude Kmonad Params Kstate Spinlock KString Kalloc Cprintf Vm Umem Sched Sleeplock Bio.

Local Open Scope Z_scope.

(** ** The code *)

(** [sizeof(struct logheader)]; its fields are at 0 and [4 + 4*i]. *)
Definition LOGHEADER_SIZE : Z := 4 + 4 * LOGSIZE.
Definition hd_n (data : list Z) : Z := i32 (get_u32 data 0).
Definition hd_block (data : list Z) (i : Z) : Z := i32 (get_u32 data (Z.to_nat (4 + 4 * i))).

Definition get_log : KM log := gets k_log.
Definition upd_log (f : log -> log) : KM unit := modify (set k_log f).

(** [log.lh.block[i]], an array of [LOGSIZE] entries. *)
Definition get_block (i : Z) : KM Z :=
  let* l := get_log in
  if i <? 0 then undef "log.lh.block" else deref "log.lh.block" (lg_block l !! Z.to_nat i).
Definition set_block (i v : Z) : KM unit :=
  let* l := get_log in
  if (0 <=? i) && (i <? Z.of_nat (length (lg_block l)))
  then upd_log (set lg_block (insert (Z.to_nat i) v)) else undef "log.lh.block".

(** [memmove(b->data, data, BSIZE)]. *)
Definition put_data (i : nat) (data : list Z) : KM unit := upd_b i (fun b => b <| b_data := data |>).

Section log.
Context {D : Disk} (fuel : nat).

(** fs.c: [readsb], the superblock in block 1. *)
Definition sb_of (data : list Z) : superblock :=
  MkSb (get_u32 data 0) (get_u32 data 4) (get_u32 data 8) (get_u32 data 12) (get_u32 data 16)
    (get_u32 data 20) (get_u32 data 24).
Definition readsb (dev : Z) : KM superblock :=
  let* bp := bread fuel (u32 dev) 1 in
  let* b := get_b bp in
  brelse bp ;;
  ret (sb_of (b_data b)).

(** [for (tail = 0; tail < log.lh.n; tail++) body].  The body indexes
    [log.lh.block], so [LOGSIZE + 1] rounds are enough. *)
Fixpoint for_tail (n : nat) (tail : Z) (body : Z -> KM unit) : KM unit :=
  let* l := get_log in
  if negb (tail <? lg_n l) then ret tt else
  match n with
  | O => nofuel
  | S n => body tail ;; for_tail n (tail + 1) body
  end.

Definition install_trans : KM unit :=
  for_tail (S (Z.to_nat LOGSIZE)) 0 (fun tail =>
    let* l := get_log in
    let* lbuf := bread fuel (u32 (lg_dev l)) (u32 (lg_start l + tail + 1)) in
    let* l := get_log in
    let* home := get_block tail in
    let* dbuf := bread fuel (u32 (lg_dev l)) (u32 home) in
    let* lb := get_b lbuf in
    put_data dbuf (b_data lb) ;;
    bwrite dbuf ;;
    brelse lbuf ;;
    brelse dbuf).

Definition read_head : KM unit :=
  let* l := get_log in
  let* buf := bread fuel (u32 (lg_dev l)) (u32 (lg_start l)) in
  let* b := get_b buf in
  upd_log (fun l => l <| lg_n := hd_n (b_data b) |>) ;;
  for_each (seqZ 0 (hd_n (b_data b))) (fun i => set_block i (hd_block (b_data b) i)) ;;
  brelse buf.

Definition write_head : KM unit :=
  let* l := get_log in
  let* buf := bread fuel (u32 (lg_dev l)) (u32 (lg_start l)) in
  let* l := get_log in
  upd_b buf (set b_data (fun d => put_u32 d 0 (lg_n l))) ;;
  for_each (seqZ 0 (lg_n l)) (fun i =>
    let* v := get_block i in
    upd_b buf (set b_data (fun d => put_u32 d (Z.to_nat (4 + 4 * i)) v))) ;;
  bwrite buf ;;
  brelse buf.

Definition recover_from_log : KM unit :=
  read_head ;;
  install_trans ;;
  upd_log (fun l => l <| lg_n := 0 |>) ;;
  write_head.

Definition initlog (dev : Z) : KM unit :=
  if BSIZE <=? LOGHEADER_SIZE then panic "initlog: too big logheader" else
  initlock Llog ;;
  let* sb := readsb dev in
  upd_log (fun l => l <| lg_start := i32 (sb_logstart sb) |> <| lg_size := i32 (sb_nlog sb) |>
                      <| lg_dev := dev |>) ;;
  recover_from_log.

(** The [while(1)] loop of [begin_op]. *)
Fixpoint begin_op_loop (n : nat) : KM unit :=
  let* l := get_log in
  if negb (lg_committing l =? 0) || (LOGSIZE <? lg_n l + (lg_outstanding l + 1) * MAXOPBLOCKS) then
    sleep ChLog (Some Llog) ;;
    match n with O => nofuel | S n => begin_op_loop n end
  else
    upd_log (set lg_outstanding (fun n => n + 1)) ;;
    release Llog.

Definition begin_op : KM unit :=
  acquire Llog ;;
  begin_op_loop fuel.

Definition write_log : KM unit :=
  for_tail (S (Z.to_nat LOGSIZE)) 0 (fun tail =>
    let* l := get_log in
    let* to := bread fuel (u32 (lg_dev l)) (u32 (lg_start l + tail + 1)) in
    let* l := get_log in
    let* home := get_block tail in
    let* from := bread fuel (u32 (lg_dev l)) (u32 home) in
    let* fb := get_b from in
    put_data to (b_data fb) ;;
    bwrite to ;;
    brelse from ;;
    brelse to).

Definition commit : KM unit :=
  let* l := get_log in
  when (0 <? lg_n l) (
    write_log ;;
    write_head ;;
    install_trans ;;
    upd_log (fun l => l <| lg_n := 0 |>) ;;
    write_head).

Definition end_op : KM unit :=
  acquire Llog ;;
  upd_log (set lg_outstanding (fun n => n - 1)) ;;
  let* l := get_log in
  if negb (lg_committing l =? 0) then panic "log.committing" else
  let do_commit := lg_outstanding l =? 0 in
  (if do_commit then upd_log (fun l => l <| lg_committing := 1 |>) else wakeup ChLog) ;;
  release Llog ;;
  when do_commit (
    commit ;;
    acquire Llog ;;
    upd_log (fun l => l <| lg_committing := 0 |>) ;;
    wakeup ChLog ;;
    release Llog).

Definition log_write (i : nat) : KM unit :=
  let* l := get_log in
  if (LOGSIZE <=? lg_n l) || (lg_size l - 1 <=? lg_n l) then panic "too big a transaction" else
  if lg_outstanding l <? 1 then panic "log_write outside of trans" else
  acquire Llog ;;
  let* b := get_b i in
  let* l := get_log in
  let* found := for_break (seqZ 0 (lg_n l)) (fun k =>
    let* v := get_block k in
    ret (if u32 v =? b_blockno b then Some k else None)) in
  let k := default (lg_n l) found in
  set_block k (i32 (b_blockno b)) ;;
  when (k =? lg_n l) (upd_log (set lg_n (fun n => n + 1))) ;;
  upd_b i (set b_flags (fun f => Z.lor f B_DIRTY)) ;;
  release Llog.
End log.
