(* ===== verification/Commit.v ===== *)
(** * Commit and recovery of the log

    Proofs about log.c (the code is in Log.v).  [commit] makes the blocks of
    a transaction reach the disk together: whatever prefix of its writes the
    disk has when the machine stops, and however often recovery itself is cut
    short, [initlog] ends with all of the blocks or with none. *)

From stdpp Require Import base functions numbers list list_numbers gmap strings.
From S2P Require Import Prelude Kmonad Params Kstate Spinlock KString Kalloc Cprintf Vm Umem Demo Sched Thread Sleeplock Bio Cache Log.

Local Open Scope Z_scope.

(** ** Headers

    [head hs data] is what [write_head] makes of the old content [data] of
    the header block when the log has the blocks [hs]. *)

Definition head_upto (hs : list Z) (k : nat) (data : list Z) : list Z :=
  fold_left (fun d i => put_u32 d (4 + 4 * i) (hs !!! i)) (seq 0 k) (put_u32 data 0 (Z.of_nat (length hs))).
Definition head (hs : list Z) (data : list Z) : list Z := head_upto hs (length hs) data.

Lemma head_upto_S hs k data : head_upto hs (S k) data = put_u32 (head_upto hs k data) (4 + 4 * k) (hs !!! k).
Proof. unfold head_upto. by rewrite seq_S, fold_left_app. Qed.

Lemma length_head_upto hs k data : length (head_upto hs k data) = length data.
Proof.
  induction k as [|k IH]; [apply length_splice|]. rewrite head_upto_S. unfold put_u32. by rewrite length_splice.
Qed.

Lemma get_put_u32_ne bs off off' v :
  (off + 4 <= off' \/ off' + 4 <= off)%nat -> get_u32 (put_u32 bs off' v) off = get_u32 bs off.
Proof.
  intros Hoff. unfold get_u32, put_u32. f_equal. apply list_eq. intros j.
  destruct (decide (j < 4)%nat); [|by rewrite !lookup_take_ge by lia].
  rewrite !lookup_take_lt, !lookup_drop by lia. destruct Hoff.
  - by rewrite lookup_splice_lt by lia.
  - rewrite lookup_splice_ge; [done|]. rewrite length_le_bytes. lia.
Qed.

Section head.
Context (hs : list Z) (data : list Z).
Hypothesis Hlen : length data = Z.to_nat BSIZE.
Hypothesis Hn : Z.of_nat (length hs) < LOGSIZE.

Lemma head_n k : (k <= length hs)%nat -> hd_n (head_upto hs k data) = Z.of_nat (length hs).
Proof.
  change LOGSIZE with 30 in Hn. unfold hd_n. induction k as [|k IH]; intros Hk.
  - unfold head_upto. simpl. rewrite get_put_u32 by (rewrite Hlen; change (Z.to_nat BSIZE) with 512%nat; lia). rewrite i32_u32. apply i32_small. lia.
  - rewrite head_upto_S, get_put_u32_ne by lia. apply IH. lia.
Qed.

Lemma head_block k i : (i < k)%nat -> (k <= length hs)%nat -> hd_block (head_upto hs k data) (Z.of_nat i) = i32 (hs !!! i).
Proof.
  change LOGSIZE with 30 in Hn. unfold hd_block. intros Hi. induction k as [|k IH]; intros Hk; [lia|].
  replace (Z.to_nat (4 + 4 * Z.of_nat i)) with (4 + 4 * i)%nat in * by lia.
  rewrite head_upto_S. destruct (decide (i = k)) as [->|Hne].
  - rewrite get_put_u32; [by rewrite i32_u32|]. rewrite length_head_upto, Hlen. change (Z.to_nat BSIZE) with 512%nat. lia.
  - rewrite get_put_u32_ne by lia. apply IH; lia.
Qed.
End head.

(** ** Rules for the log record *)

Lemma wp_get_block s i v (Q : Z -> kstate -> Prop) :
  lg_block (k_log s) !! i = Some v -> Q v s -> wp (get_block (Z.of_nat i)) Q s.
Proof.
  intros E HQ. unfold get_block, get_log. apply wp_bind, wp_gets.
  destruct (Z.ltb_spec (Z.of_nat i) 0); [lia|]. rewrite Nat2Z.id, E. done.
Qed.

Lemma wp_set_block s i v (Q : unit -> kstate -> Prop) :
  (i < length (lg_block (k_log s)))%nat -> Q tt (set k_log (set lg_block (insert i v)) s) ->
  wp (set_block (Z.of_nat i) v) Q s.
Proof.
  intros E HQ. unfold set_block, get_log. apply wp_bind, wp_gets.
  destruct (Z.leb_spec 0 (Z.of_nat i)); [|lia]. destruct (Z.ltb_spec (Z.of_nat i) (Z.of_nat (length (lg_block (k_log s))))); [|lia].
  simpl. rewrite Nat2Z.id. done.
Qed.

(** The loop over the logged blocks. *)
Lemma wp_for_tail n body (I : nat -> kstate -> Prop) s Q :
  Z.of_nat n < LOGSIZE -> (forall k t, I k t -> lg_n (k_log t) = Z.of_nat n) -> I 0%nat s ->
  (forall k t, (k < n)%nat -> I k t -> wp (body (Z.of_nat k)) (fun _ => I (S k)) t) ->
  (forall t, I n t -> Q tt t) -> wp (for_tail (S (Z.to_nat LOGSIZE)) 0 body) Q s.
Proof.
  intros Hn HI H0 Hbody HQ. change (Z.to_nat LOGSIZE) with 30%nat. change LOGSIZE with 30 in Hn.
  assert (forall m k t, (k <= n)%nat -> (n - k < m)%nat -> I k t -> wp (for_tail m (Z.of_nat k) body) Q t) as Hgen.
  { induction m as [|m IH]; intros k t Hk Hm Ht; [lia|]. cbn [for_tail]. unfold get_log. apply wp_bind, wp_gets.
    rewrite (HI k t Ht). destruct (Z.ltb_spec (Z.of_nat k) (Z.of_nat n)) as [Hlt|Hge]; cbn [negb].
    - apply wp_bind. eapply wp_mono; [apply Hbody; [lia|done]|]. intros [] t' Ht'.
      replace (Z.of_nat k + 1) with (Z.of_nat (S k)) by lia. apply IH; [lia|lia|done].
    - apply wp_ret, HQ. by replace n with k by lia. }
  apply (Hgen 31%nat 0%nat); [lia|lia|done].
Qed.

(** ** The steps of a commit *)

Section log_rules.
Context {D : Disk} (fuel : nat) (dev size : Z) {DL : DiskLaws D dev size} (me : nat) (pid : Z).
(** The log is in [LOGSIZE] blocks from [ls] on, its header in the first. *)
Context (ls : Z).
Hypothesis Hdev : 0 <= dev < 2 ^ 32.
Hypothesis Hlog : 0 <= ls /\ ls + LOGSIZE <= size /\ size <= 2 ^ 31.

Abbreviation holds := (holds dev size me pid).
Abbreviation vw := (vw dev).

Definition data_block (b : Z) : Prop := 0 <= b < size /\ ~ (ls <= b < ls + LOGSIZE).

(** The log record lists the blocks [hs]. *)
Record log_at (hs : list Z) (s : kstate) : Prop := {
  la_dev : lg_dev (k_log s) = dev;
  la_start : lg_start (k_log s) = ls;
  la_n : lg_n (k_log s) = Z.of_nat (length hs);
  la_len : length (lg_block (k_log s)) = Z.to_nat LOGSIZE;
  la_block i h : hs !! i = Some h -> lg_block (k_log s) !! i = Some h
}.

Lemma log_at_frame hs s s' : frame s s' -> log_at hs s -> log_at hs s'.
Proof. intros E [? ? ? ? ?]. by split; rewrite (frame_proj k_log _ _ ltac:(done) E). Qed.

Lemma holds_log H B T f s : holds H B T s -> holds H B T (set k_log f s).
Proof.
  intros [Ht [Hb (l & Hl & Hperm) Hp Hd] Hn Hdi Hk]. split; [|split; [done|by exists l|done|done]|done|done|done].
  by apply (thr_neutral (set k_log f)).
Qed.

Lemma u32_dev : u32 dev = dev.
Proof. by apply u32_small. Qed.
Lemma u32_block b : 0 <= b < size -> u32 b = b.
Proof. intros. apply u32_small. lia. Qed.

(** [write_log] copies the blocks of the transaction to the log. *)
Fixpoint log_writes (new : Z -> list Z) (hs : list Z) (k : nat) : history :=
  match k with
  | O => []
  | S k => (dev, ls + Z.of_nat k + 1, new (hs !!! k)) :: log_writes new hs k
  end.

(** [install_trans] copies the log to the home blocks. *)
Fixpoint installs (c : nat -> list Z) (hs : list Z) (k : nat) : history :=
  match k with
  | O => []
  | S k => (dev, hs !!! k, c k) :: installs c hs k
  end.

Lemma not_data b : data_block b -> b <> ls /\ ~ (ls < b < ls + LOGSIZE).
Proof. unfold data_block, LOGSIZE, MAXOPBLOCKS. lia. Qed.

Section hs.
Context (hs : list Z).
Hypothesis Hhs : Forall data_block hs.
Hypothesis Hdup : NoDup hs.
Hypothesis Hmax : Z.of_nat (length hs) < LOGSIZE.

Lemma home k : (k < length hs)%nat -> hs !! k = Some (hs !!! k) /\ data_block (hs !!! k).
Proof.
  intros Hk. apply list_lookup_lookup_total_lt in Hk. split; [done|].
  rewrite Forall_lookup in Hhs. by apply (Hhs k).
Qed.

Lemma wp_write_log s (Q : unit -> kstate -> Prop) :
  holds [] hs None s -> log_at hs s -> (length hs + 1 < NBUF)%nat ->
  (forall s', holds [] hs None s' -> frame s s' -> k_disk s' = log_writes (vw s) hs (length hs) ++ k_disk s ->
     (forall n, ~ (ls < n < ls + LOGSIZE) -> vw s' n = vw s n) ->
     (forall i h, hs !! i = Some h -> vw s' (ls + Z.of_nat i + 1) = vw s h) -> Q tt s') ->
  wp (write_log fuel) Q s.
Proof.
  intros Hh Hla Hroom HQ. unfold write_log.
  set (I := fun k t => holds [] hs None t /\ frame s t /\ k_disk t = log_writes (vw s) hs k ++ k_disk s /\
     (forall n, ~ (ls < n < ls + LOGSIZE) -> vw t n = vw s n) /\
     (forall i h, (i < k)%nat -> hs !! i = Some h -> vw t (ls + Z.of_nat i + 1) = vw s h)).
  apply (wp_for_tail (length hs) _ I); [done| | | |].
  - intros k t (_ & E & _). by rewrite (frame_proj k_log _ _ ltac:(done) E), (la_n _ _ Hla).
  - split_and!; try done. intros i h Hi. lia.
  - intros k t Hk (Ht & E & Ed & Ev & El). pose proof (log_at_frame _ _ _ E Hla) as Hlat.
    destruct (home k Hk) as [Hhk [Hb1 Hb2]]. set (h := hs !!! k) in *.
    assert (0 <= ls + Z.of_nat k + 1 < size /\ ls < ls + Z.of_nat k + 1 < ls + LOGSIZE) as [Hlb Hlb'] by lia.
    unfold get_log. apply wp_bind, wp_gets. rewrite (la_dev _ _ Hlat), (la_start _ _ Hlat), u32_dev, u32_block by done.
    apply wp_bind. eapply (wp_bread fuel dev size me pid); [done|cbn [length]; lia|done|apply not_elem_of_nil|]. intros a t1 H1 V1 D1 F1.
    apply wp_bind, wp_gets. pose proof (log_at_frame _ _ _ F1 Hlat) as Hla1. apply wp_bind.
    eapply wp_get_block; [by apply (la_block _ _ Hla1)|]. rewrite (la_dev _ _ Hla1), u32_dev, u32_block by done.
    apply wp_bind. eapply (wp_bread fuel dev size me pid); [done|cbn [length]; lia|done| |].
    { simpl. rewrite list_elem_of_singleton. lia. }
    intros b t2 H2 V2 D2 F2. apply wp_bind. eapply (wp_get_held dev size me pid); [done|by left|]. intros fb Hfb Hfl _.
    apply wp_bind. eapply (wp_upd_data dev size me pid _ _ _ _ a _ (fun _ => b_data fb)); [done|by right; left|by left|done|].
    intros t3 H3 V3 D3 F3. apply wp_bind. eapply (wp_bwrite dev size me pid _ hs); [done|by right; left|by right|done|].
    intros t4 H4 V4 D4 F4. apply wp_bind. eapply (wp_brelse dev size me pid); [done|reflexivity|done|].
    intros t5 H5 V5 D5 F5. eapply (wp_brelse dev size me pid); [done|reflexivity|done|]. intros t6 H6 V6 D6 F6.
    assert (forall n, vw t6 n = if decide (n = ls + Z.of_nat k + 1) then vw s h else vw t n) as V.
    { intros n. rewrite V6, V5, V4, V3. case_decide; [|by rewrite V2, V1]. by rewrite Hfb, V2, V1, Ev by lia. }
    split_and!; [done|by rewrite E, F1, F2, F3, F4, F5, F6| | |].
    + rewrite D6, D5, D4, D3, D2, D1, Ed. cbn [log_writes app]. do 2 f_equal. rewrite <- V4, <- V5, <- V6, V. by rewrite decide_True.
    + intros n Hn. rewrite V. rewrite decide_False by lia. by apply Ev.
    + intros i g Hi Hg. rewrite V. destruct (decide (i = k)) as [->|Hne].
      * rewrite decide_True by done. congruence.
      * rewrite decide_False by lia. apply El; [lia|done].
  - intros t (Ht & E & Ed & Ev & El). apply HQ; try done. intros i h Hi. apply El; [by eapply lookup_lt_Some|done].
Qed.

Lemma wp_install_trans s B (Q : unit -> kstate -> Prop) :
  holds [] B None s -> log_at hs s -> B = hs \/ B = [] -> (length B + 1 < NBUF)%nat ->
  (forall s', holds [] [] None s' -> frame s s' ->
     k_disk s' = installs (fun i => vw s (ls + Z.of_nat i + 1)) hs (length hs) ++ k_disk s ->
     (forall n, n ∉ hs -> vw s' n = vw s n) ->
     (forall i h, hs !! i = Some h -> vw s' h = vw s (ls + Z.of_nat i + 1)) -> Q tt s') ->
  wp (install_trans fuel) Q s.
Proof.
  intros Hh Hla HB Hroom HQ. unfold install_trans. set (c := fun i => vw s (ls + Z.of_nat i + 1)).
  set (I := fun k t => holds [] (drop k B) None t /\ frame s t /\ k_disk t = installs c hs k ++ k_disk s /\
     (forall n, n ∉ take k hs -> vw t n = vw s n) /\
     (forall i h, (i < k)%nat -> hs !! i = Some h -> vw t h = c i)).
  apply (wp_for_tail (length hs) _ I); [done| | | |].
  - intros k t (_ & E & _). by rewrite (frame_proj k_log _ _ ltac:(done) E), (la_n _ _ Hla).
  - split_and!; try done. intros i h Hi. lia.
  - intros k t Hk (Ht & E & Ed & Ev & El). pose proof (log_at_frame _ _ _ E Hla) as Hlat.
    destruct (home k Hk) as [Hhk [Hb1 Hb2]]. pose proof (take_S_r _ _ _ Hhk) as Htk. set (h := hs !!! k) in *.
    assert (0 <= ls + Z.of_nat k + 1 < size /\ ls < ls + Z.of_nat k + 1 < ls + LOGSIZE) as [Hlb Hlb'] by lia.
    assert (length (drop k B) + 1 < NBUF)%nat as Hroom' by (rewrite length_drop; lia).
    unfold get_log. apply wp_bind, wp_gets. rewrite (la_dev _ _ Hlat), (la_start _ _ Hlat), u32_dev, u32_block by done.
    apply wp_bind. eapply (wp_bread fuel dev size me pid); [done|cbn [length]; lia|done|apply not_elem_of_nil|].
    intros a t1 H1 V1 D1 F1.
    apply wp_bind, wp_gets. pose proof (log_at_frame _ _ _ F1 Hlat) as Hla1. apply wp_bind.
    eapply wp_get_block; [by apply (la_block _ _ Hla1)|]. rewrite (la_dev _ _ Hla1), u32_dev, u32_block by done.
    apply wp_bind. eapply (wp_bread fuel dev size me pid); [done|cbn [length]; lia|done| |].
    { simpl. rewrite list_elem_of_singleton. lia. }
    intros b t2 H2 V2 D2 F2. apply wp_bind. eapply (wp_get_held dev size me pid); [done|by right; left|]. intros lb Hlbd Hll _.
    apply wp_bind. eapply (wp_upd_data dev size me pid _ _ _ _ b _ (fun _ => b_data lb)); [done|by left|by left|done|].
    intros t3 H3 V3 D3 F3. apply wp_bind. eapply (wp_bwrite dev size me pid _ _ (drop (S k) B)); [done|by left|by right| |].
    { intros n Hn. destruct HB as [->| ->]; [|by rewrite !drop_nil]. rewrite (drop_S _ _ _ Hhk), elem_of_cons. by intros [|]. }
    intros t4 H4 V4 D4 F4. apply wp_bind. eapply (wp_brelse dev size me pid); [done|apply Permutation_swap|done|].
    intros t5 H5 V5 D5 F5. eapply (wp_brelse dev size me pid); [done|reflexivity|done|]. intros t6 H6 V6 D6 F6.
    assert (vw t (ls + Z.of_nat k + 1) = c k) as Hck.
    { apply Ev. intros Hin. assert (ls + Z.of_nat k + 1 ∈ hs) as Hin' by (rewrite <- (take_drop k hs); apply elem_of_app; by left).
      rewrite Forall_forall in Hhs. destruct (Hhs _ Hin'). lia. }
    assert (forall n, vw t6 n = if decide (n = h) then c k else vw t n) as V.
    { intros n. rewrite V6, V5, V4, V3. case_decide; [|by rewrite V2, V1]. by rewrite Hlbd, V2, V1. }
    split_and!; [done|by rewrite E, F1, F2, F3, F4, F5, F6| | |].
    + rewrite D6, D5, D4, D3, D2, D1, Ed. cbn [installs app]. do 2 f_equal. rewrite <- V4, <- V5, <- V6, V. by rewrite decide_True.
    + intros n. rewrite Htk, not_elem_of_app, list_elem_of_singleton. intros [Hn1 Hn2]. rewrite V, decide_False by done. by apply Ev.
    + intros i g Hi Hg. rewrite V. destruct (decide (i = k)) as [->|Hne].
      * rewrite decide_True; [done|congruence].
      * rewrite decide_False; [apply El; [lia|done]|]. intros ->. apply Hne. by eapply NoDup_lookup.
  - intros t (Ht & E & Ed & Ev & El). apply HQ; try done.
    + rewrite drop_ge in Ht; [done|]. destruct HB as [->| ->]; simpl; lia.
    + intros n Hn. apply Ev. by rewrite take_ge by lia.
    + intros i h Hi. apply El; [by eapply lookup_lt_Some|done].
Qed.

Lemma wp_write_head s B (Q : unit -> kstate -> Prop) :
  holds [] B None s -> log_at hs s -> (length B < NBUF)%nat ->
  (forall s', holds [] B None s' -> frame s s' -> k_disk s' = (dev, ls, head hs (vw s ls)) :: k_disk s ->
     (forall n, vw s' n = if decide (n = ls) then head hs (vw s ls) else vw s n) -> Q tt s') ->
  wp (write_head fuel) Q s.
Proof.
  intros Hh Hla Hroom HQ. unfold write_head, get_log. change LOGSIZE with 30 in *.
  apply wp_bind, wp_gets. rewrite (la_dev _ _ Hla), (la_start _ _ Hla), u32_dev, u32_block by lia.
  apply wp_bind. eapply (wp_bread fuel dev size me pid); [done|cbn [length]; lia|lia|apply not_elem_of_nil|].
  intros a t1 H1 V1 D1 F1. apply wp_bind, wp_gets. pose proof (log_at_frame _ _ _ F1 Hla) as Hla1. rewrite (la_n _ _ Hla1).
  destruct (held_inv dev size me pid _ _ _ _ a ls H1) as (bb & _ & _ & _ & _ & _ & _ & Hbl & Hbv & _); [by left|].
  rewrite Hbv in Hbl. apply wp_bind.
  eapply (wp_upd_data dev size me pid _ _ _ _ a ls (fun d => put_u32 d 0 (Z.of_nat (length hs)))); [done|by left|by left| |].
  { unfold put_u32. by rewrite length_splice. }
  intros t2 H2 V2 D2 F2. apply wp_bind.
  apply (wp_for_each _ (fun l t => exists k, (k <= length hs)%nat /\ l = seqZ (Z.of_nat k) (Z.of_nat (length hs) - Z.of_nat k) /\
    holds [(a, ls)] B (Some ls) t /\ frame t1 t /\ k_disk t = k_disk s /\
    forall n, vw t n = if decide (n = ls) then head_upto hs k (vw s ls) else vw s n)).
  { exists 0%nat. split_and!; [lia|f_equal; lia|done|done|by rewrite D2, D1|]. intros n. rewrite V2, !V1. done. }
  - intros x l t (k & Hk & El & Ht & F & Dt & Vt). destruct (decide (k = length hs)) as [->|Hne].
    { by rewrite Z.sub_diag in El. }
    rewrite seqZ_cons in El by lia. injection El as -> ->. pose proof (log_at_frame _ _ _ F Hla1) as Hlat.
    destruct (home k ltac:(lia)) as [Hhk _]. apply wp_bind. eapply wp_get_block; [by apply (la_block _ _ Hlat)|].
    eapply (wp_upd_data dev size me pid _ _ _ _ a ls); [done|by left|by right| |].
    { unfold put_u32. rewrite length_splice, Vt, decide_True, length_head_upto, <- V1 by done. done. }
    intros t' H' V' D' F'. exists (S k). split_and!; [lia|f_equal; lia|done|by rewrite F, F'|congruence|].
    intros n. rewrite V'. case_decide; [|by rewrite Vt, decide_False by done].
    rewrite Vt, decide_True, head_upto_S by done. f_equal. lia.
  - intros t (k & Hk & El & Ht & F & Dt & Vt).
    assert (k = length hs) as ->. { destruct (decide (k = length hs)); [done|]. rewrite seqZ_cons in El by lia. done. }
    apply wp_bind. eapply (wp_bwrite dev size me pid _ _ B); [done|by left|by right|done|]. intros t4 H4 V4 D4 F4.
    eapply (wp_brelse dev size me pid); [done|reflexivity|done|]. intros t5 H5 V5 D5 F5. apply HQ; [done| | |].
    + by rewrite F1, F, F4, F5.
    + by rewrite D5, D4, Vt, decide_True, Dt by done.
    + intros n. rewrite V5, V4, Vt. done.
Qed.

(** ** The states of the disk *)

(** A write elsewhere. *)
Lemma disk_read_ne d n x b : b <> n -> disk_read ((dev, n, x) :: d) dev b = disk_read d dev b.
Proof. intros Hne. simpl. rewrite Z.eqb_refl. destruct (Z.eqb_spec n b); [congruence|done]. Qed.
Lemma disk_read_eq d n x : disk_read ((dev, n, x) :: d) dev n = x.
Proof. simpl. by rewrite !Z.eqb_refl. Qed.

Lemma read_log_writes new k d b :
  ~ (ls < b < ls + LOGSIZE) -> (k <= length hs)%nat -> disk_read (log_writes new hs k ++ d) dev b = disk_read d dev b.
Proof.
  intros Hb. induction k as [|k IH]; intros Hk; [done|]. cbn [log_writes app]. rewrite disk_read_ne by lia. apply IH. lia.
Qed.
Lemma read_log_written new k d i h :
  (i < k)%nat -> hs !! i = Some h -> disk_read (log_writes new hs k ++ d) dev (ls + Z.of_nat i + 1) = new h.
Proof.
  intros Hi Hh. induction k as [|k IH]; [lia|]. cbn [log_writes app]. destruct (decide (i = k)) as [->|Hne].
  - rewrite disk_read_eq. by rewrite (list_lookup_total_correct _ _ _ Hh).
  - rewrite disk_read_ne by lia. apply IH. lia.
Qed.
Lemma read_installs c k d b :
  b ∉ hs -> (k <= length hs)%nat -> disk_read (installs c hs k ++ d) dev b = disk_read d dev b.
Proof.
  intros Hb. induction k as [|k IH]; intros Hk; [done|]. cbn [installs app].
  destruct (home k ltac:(lia)) as [Hhk _]. rewrite disk_read_ne; [apply IH; lia|].
  intros ->. apply Hb. by eapply list_elem_of_lookup_2.
Qed.
Lemma read_installed c k d i h :
  (i < k)%nat -> (k <= length hs)%nat -> hs !! i = Some h -> disk_read (installs c hs k ++ d) dev h = c i.
Proof.
  intros Hi Hk Hh. induction k as [|k IH]; [lia|]. cbn [installs app]. destruct (decide (i = k)) as [->|Hne].
  - rewrite (list_lookup_total_correct _ _ _ Hh). apply disk_read_eq.
  - destruct (home k ltac:(lia)) as [Hhk _]. rewrite disk_read_ne; [apply IH; lia|].
    intros ->. apply Hne. by eapply NoDup_lookup.
Qed.

(** The log is empty and the data blocks have the content [f]. *)
Definition settled (f : Z -> list Z) (d : history) : Prop :=
  hd_n (disk_read d dev ls) = 0 /\ forall b, data_block b -> disk_read d dev b = f b.

(** The log has all that is missing to make the content [f]. *)
Definition logged (f : Z -> list Z) (d : history) : Prop :=
  hd_n (disk_read d dev ls) = Z.of_nat (length hs) /\
  (forall i h, hs !! i = Some h ->
     hd_block (disk_read d dev ls) (Z.of_nat i) = h /\ disk_read d dev (ls + Z.of_nat i + 1) = f h) /\
  (forall b, data_block b -> b ∉ hs -> disk_read d dev b = f b).

(** All the disks between [d] and [h]. *)
Definition always (P : history -> Prop) (d h : history) : Prop :=
  forall d', d `suffix_of` d' -> d' `suffix_of` h -> P d'.

Lemma always_refl (P : history -> Prop) d : P d -> always P d d.
Proof. intros HP d' H1 H2. by replace d' with d by (by apply (anti_symm suffix)). Qed.
Lemma always_cons (P : history -> Prop) d h x : always P d h -> P (x :: h) -> always P d (x :: h).
Proof.
  intros Ha HP d' H1 [[|y k] E]; simpl in E; [by rewrite <- E|]. injection E as <- ->. apply Ha; [done|by exists k].
Qed.
Lemma always_mono (P R : history -> Prop) d h : (forall x, P x -> R x) -> always P d h -> always R d h.
Proof. intros HPR Ha d' H1 H2. by apply HPR, Ha. Qed.

Lemma not_home b : b ∈ hs -> data_block b.
Proof. rewrite Forall_forall in Hhs. apply Hhs. Qed.

Lemma always_log_writes f new d k :
  settled f d -> (k <= length hs)%nat -> always (settled f) d (log_writes new hs k ++ d).
Proof.
  intros [Hn Hd]. induction k as [|k IH]; intros Hk; [by apply always_refl|].
  apply always_cons; [apply IH; lia|].
  change (settled f (log_writes new hs (S k) ++ d)). split.
  - rewrite read_log_writes by lia. done.
  - intros b Hb. rewrite read_log_writes by (done || by apply not_data). by apply Hd.
Qed.

Lemma always_installs f c d k :
  logged f d -> (forall i h, hs !! i = Some h -> c i = f h) -> (k <= length hs)%nat ->
  always (logged f) d (installs c hs k ++ d).
Proof.
  intros (Hn & Hl & Hd) Hc. induction k as [|k IH]; intros Hk; [by apply always_refl|].
  apply always_cons; [apply IH; lia|]. change (logged f (installs c hs (S k) ++ d)).
  assert (forall b, ~ data_block b -> b ∉ hs) as Hnot by (intros b Hb Hin; by apply Hb, not_home).
  change LOGSIZE with 30 in *. unfold data_block in Hnot. change LOGSIZE with 30 in Hnot.
  split_and!.
  - rewrite read_installs; [done|apply Hnot; lia|done].
  - intros i h Hi. pose proof (lookup_lt_Some _ _ _ Hi). rewrite !read_installs; [by apply Hl|apply Hnot; lia|done|apply Hnot; lia|done].
  - intros b Hb Hbh. rewrite read_installs by done. by apply Hd.
Qed.

(** Writing the header commits, writing an empty one ends the transaction. *)
Lemma logged_head f d data :
  length data = Z.to_nat BSIZE -> (forall i h, hs !! i = Some h -> disk_read d dev (ls + Z.of_nat i + 1) = f h) ->
  (forall b, data_block b -> b ∉ hs -> disk_read d dev b = f b) -> logged f ((dev, ls, head hs data) :: d).
Proof.
  intros Hlen Hl Hd. split_and!.
  - rewrite disk_read_eq. by apply head_n.
  - intros i h Hi. pose proof (lookup_lt_Some _ _ _ Hi) as Hlt. rewrite disk_read_eq, disk_read_ne by lia. split; [|by apply Hl].
    unfold head. rewrite head_block by (done || lia). rewrite (list_lookup_total_correct _ _ _ Hi). apply i32_small.
    apply list_elem_of_lookup_2, not_home in Hi as [Hi _]. lia.
  - intros b Hb Hbh. rewrite disk_read_ne by (by apply not_data). by apply Hd.
Qed.
Lemma installed_settled f c d data :
  length data = Z.to_nat BSIZE -> logged f d -> (forall i h, hs !! i = Some h -> c i = f h) ->
  settled f ((dev, ls, head [] data) :: installs c hs (length hs) ++ d).
Proof.
  intros Hlen (_ & _ & Hd) Hc. split.
  - rewrite disk_read_eq. by apply (head_n [] data Hlen ltac:(done) 0).
  - intros b Hb. rewrite disk_read_ne by (by apply not_data). destruct (decide (b ∈ hs)) as [Hin|Hin].
    + apply list_elem_of_lookup in Hin as [i Hi]. pose proof (lookup_lt_Some _ _ _ Hi).
      rewrite (read_installed c _ d i) by (done || lia). by apply Hc.
    + rewrite read_installs by done. by apply Hd.
Qed.
End hs.

Lemma settled_logged f d : settled f d <-> logged [] f d.
Proof.
  split; [intros [Hn Hd]|intros (Hn & _ & Hd)].
  - split_and!; [done|done|]. intros b Hb _. by apply Hd.
  - split; [done|]. intros b Hb. apply Hd; [done|apply not_elem_of_nil].
Qed.

Lemma always_trans (P : history -> Prop) d h1 h2 : h1 `suffix_of` h2 -> always P d h1 -> always P h1 h2 -> always P d h2.
Proof.
  intros Hs Ha1 Ha2 d' H1 H2. destruct (decide (d' `suffix_of` h1)) as [Hd|Hd]; [by apply Ha1|]. apply Ha2; [|done].
  apply suffix_prefix_reverse in Hs, H2. apply suffix_prefix_reverse.
  destruct (prefix_weak_total _ _ _ Hs H2) as [?|Hp]; [done|]. by apply suffix_prefix_reverse in Hp.
Qed.

Lemma log_cleared hs s : log_at hs s -> log_at [] (set k_log (fun l => l <| lg_n := 0 |>) s).
Proof. intros [? ? ? ? ?]. by split. Qed.

Lemma head_nil_ok data : length data = Z.to_nat BSIZE -> hd_n (head [] data) = 0.
Proof. intros H. by apply (head_n [] data H ltac:(done) 0). Qed.

Definition blocks_ok (hs : list Z) : Prop :=
  Forall data_block hs /\ NoDup hs /\ Z.of_nat (length hs) < LOGSIZE /\ 1 ∉ hs.

(** Only the log changes besides buffers and disk. *)
Lemma frame_relog s t l : frame s t -> frame (s <| k_log := l |>) (t <| k_log := l |>).
Proof. intros E. unfold frame in *. change (rest (?x <| k_log := l |>)) with ((rest x) <| k_log := l |>). by rewrite E. Qed.

Lemma wp_commit_some hs s (Q : unit -> kstate -> Prop) :
  blocks_ok hs -> hs <> [] -> (length hs + 1 < NBUF)%nat -> holds [] hs None s -> log_at hs s ->
  hd_n (disk_read (k_disk s) dev ls) = 0 ->
  (forall s', holds [] [] None s' -> k_log s' = (k_log s) <| lg_n := 0 |> -> settled (vw s) (k_disk s') ->
     k_disk s `suffix_of` k_disk s' ->
     always (fun d => settled (disk_read (k_disk s) dev) d \/ logged hs (vw s) d \/ settled (vw s) d) (k_disk s) (k_disk s') ->
     frame (s <| k_log := k_log s' |>) s' -> Q tt s') ->
  wp (commit fuel) Q s.
Proof.
  intros (Hhs & Hdup & Hmax & H1) Hne Hroom Hh Hla Hhd HQ.
  unfold commit, get_log. apply wp_bind, wp_gets. rewrite (la_n _ _ Hla).
  destruct (Z.ltb_spec 0 (Z.of_nat (length hs))); [|destruct hs; simpl in *; [done|lia]]. unfold when.
  assert (forall b, data_block b -> b ∉ hs -> vw s b = disk_read (k_disk s) dev b) as Hclean.
  { intros b _ Hb. by eapply vw_clean. }
  apply wp_bind, (wp_write_log hs Hhs Hmax s); [done|done|done|]. intros s1 Hh1 F1 D1 V1 L1.
  apply wp_bind, (wp_write_head hs Hhs s1 hs); [done|by eapply log_at_frame|lia|]. intros s2 Hh2 F2 D2 V2.
  apply wp_bind, (wp_install_trans hs Hhs Hdup Hmax s2 hs); [done|by eapply log_at_frame; [|eapply log_at_frame]|by left|done|].
  intros s3 Hh3 F3 D3 V3 L3. apply wp_bind, wp_modify. set (s4 := set k_log _ s3).
  assert (log_at [] s4) as Hla4. { eapply log_cleared. eapply log_at_frame; [|exact Hla]. by rewrite F1, F2. }
  apply (wp_write_head [] (Forall_nil_2 _) s4 []); [by apply holds_log|done|unfold NBUF; simpl; lia|]. intros s5 Hh5 F5 D5 V5.
  assert (Hc : forall i h, hs !! i = Some h -> vw s2 (ls + Z.of_nat i + 1) = vw s h).
  { intros i h Hi. rewrite V2, decide_False by lia. by apply L1. }
  set (d1 := k_disk s1) in *. set (d2 := k_disk s2) in *. set (d3 := k_disk s3) in *.
  assert (logged hs (vw s) d2) as HL2.
  { rewrite D2. apply logged_head; [done|done|by eapply vw_len|..].
    - intros i h Hi. rewrite D1. apply read_log_written; [by eapply lookup_lt_Some|done].
    - intros b Hb Hbh. rewrite D1, read_log_writes by (done || by apply not_data). symmetry. by apply Hclean. }
  assert (settled (vw s) (k_disk s5)) as HS5.
  { rewrite D5. change (k_disk s4) with d3. rewrite D3. apply installed_settled; [done|done| |done|done].
    change (vw s4 ls) with (vw s3 ls). by eapply vw_len. }
  assert (d1 `suffix_of` k_disk s5 /\ k_disk s `suffix_of` d1 /\ d2 `suffix_of` d3) as (Hs1 & Hs0 & Hs2).
  { rewrite D5. change (k_disk s4) with d3. rewrite D3, D2, D1. split_and!.
    - apply suffix_cons_r, suffix_app_r, suffix_cons_r. reflexivity.
    - by apply suffix_app_r.
    - by apply suffix_app_r. }
  apply HQ; [done| |done|by transitivity d1| |].
  { rewrite (frame_proj k_log _ _ ltac:(done) F5). unfold s4. simpl.
    by rewrite (frame_proj k_log _ _ ltac:(done) F3), (frame_proj k_log _ _ ltac:(done) F2), (frame_proj k_log _ _ ltac:(done) F1). }
  2: { set (l := k_log s5). etransitivity; [apply (frame_relog s s3); by rewrite F1, F2|]. etransitivity; [|apply F5].
       unfold l. by rewrite (frame_proj k_log _ _ ltac:(done) F5). }
  apply (always_trans _ _ d1); [done| |].
  { rewrite D1. eapply always_mono; [|apply always_log_writes; [done|done|]]; [by left|done]. }
  rewrite D5. change (k_disk s4) with d3. apply always_cons; [|right; right; by rewrite D5 in HS5].
  apply (always_trans _ _ d2); [done| |].
  - rewrite D2. apply always_cons; [|right; left; by rewrite D2 in HL2]. apply always_refl. left.
    rewrite D1. apply (always_log_writes hs Hmax _ (vw s) (k_disk s) (length hs)); [done|done| |done]. by apply suffix_app_r.
  - rewrite D3. eapply always_mono; [|by apply always_installs]. by right; left.
Qed.

(** An empty transaction leaves the disk alone. *)
Lemma wp_commit hs s (Q : unit -> kstate -> Prop) :
  blocks_ok hs -> (length hs + 1 < NBUF)%nat -> holds [] hs None s -> log_at hs s -> hd_n (disk_read (k_disk s) dev ls) = 0 ->
  (forall s', holds [] [] None s' -> k_log s' = (k_log s) <| lg_n := 0 |> -> settled (vw s) (k_disk s') ->
     always (fun d => settled (disk_read (k_disk s) dev) d \/ logged hs (vw s) d \/ settled (vw s) d) (k_disk s) (k_disk s') ->
     frame (s <| k_log := k_log s' |>) s' -> Q tt s') ->
  wp (commit fuel) Q s.
Proof.
  intros Hok Hroom Hh Hla Hhd HQ. destruct hs as [|h hs].
  - unfold commit, get_log. apply wp_bind, wp_gets. rewrite (la_n _ _ Hla). apply wp_ret, HQ; [done| |split; [done|]| |by destruct s].
    + pose proof (la_n _ _ Hla) as Hn. destruct (k_log s). simpl in Hn. by subst.
    + intros b _. symmetry. apply (vw_clean dev size me pid []); [done|apply not_elem_of_nil].
    + apply always_refl. left. by split.
  - apply (wp_commit_some (h :: hs)); try done. intros s' Hh' El HS _ Ha Fr. by apply HQ.
Qed.

(** ** Recovery *)

(** The record has its device and start block, as [initlog] sets them. *)
Definition log_started (s : kstate) : Prop :=
  lg_dev (k_log s) = dev /\ lg_start (k_log s) = ls /\ length (lg_block (k_log s)) = Z.to_nat LOGSIZE.

Lemma wp_read_head hs s (Q : unit -> kstate -> Prop) :
  Z.of_nat (length hs) < LOGSIZE -> holds [] [] None s -> log_started s ->
  hd_n (vw s ls) = Z.of_nat (length hs) ->
  (forall i h, hs !! i = Some h -> hd_block (vw s ls) (Z.of_nat i) = h) ->
  (forall s', holds [] [] None s' -> log_at hs s' -> k_disk s' = k_disk s -> (forall n, vw s' n = vw s n) -> Q tt s') ->
  wp (read_head fuel) Q s.
Proof.
  intros Hmax Hh (L1 & L2 & L3) Hn Hb HQ. unfold read_head, get_log. change LOGSIZE with 30 in *.
  apply wp_bind, wp_gets. rewrite L1, L2, u32_dev, u32_block by lia.
  apply wp_bind. eapply (wp_bread fuel dev size me pid); [done|unfold NBUF; simpl; lia|lia|apply not_elem_of_nil|].
  intros a t1 H1 V1 D1 F1. pose proof (frame_proj k_log _ _ ltac:(done) F1) as Elog.
  apply wp_bind. eapply (wp_get_held dev size me pid); [done|by left|]. intros b Hbd _ _. rewrite Hbd, V1.
  apply wp_bind, wp_modify. rewrite Hn. set (t2 := set k_log _ t1). apply wp_bind.
  apply (wp_for_each _ (fun l t => exists k, (k <= length hs)%nat /\ l = seqZ (Z.of_nat k) (Z.of_nat (length hs) - Z.of_nat k) /\
    holds [(a, ls)] [] None t /\ k_disk t = k_disk s /\ (forall n, vw t n = vw s n) /\ log_started t /\
    lg_n (k_log t) = Z.of_nat (length hs) /\ forall i h, (i < k)%nat -> hs !! i = Some h -> lg_block (k_log t) !! i = Some h)).
  - exists 0%nat. split_and!; [lia|f_equal; lia|by apply holds_log|done|done|..]; unfold t2; simpl; rewrite ?Elog; try done.
    + unfold log_started. simpl. by rewrite Elog.
    + intros i h Hi. lia.
  - intros x l t (k & Hk & El & Ht & Dt & Vt & Hls & Hln & Hlb). destruct (decide (k = length hs)) as [->|Hne].
    { by rewrite Z.sub_diag in El. }
    rewrite seqZ_cons in El by lia. injection El as -> ->. assert (k < length hs)%nat as Hlt by lia.
    pose proof (list_lookup_lookup_total_lt _ _ Hlt) as Hhk. destruct Hls as (S1 & S2 & S3).
    change (Z.to_nat LOGSIZE) with 30%nat in S3. apply wp_set_block; [lia|]. rewrite (Hb k _ Hhk).
    exists (S k). split_and!; [lia|f_equal; lia|by apply holds_log|done|done| |done|].
    + unfold log_started. simpl. by rewrite length_insert.
    + intros i h Hi Hih. simpl. destruct (decide (i = k)) as [->|Hik].
      * rewrite list_lookup_insert_eq by lia. congruence.
      * rewrite list_lookup_insert_ne by done. apply Hlb; [lia|done].
  - intros t (k & Hk & El & Ht & Dt & Vt & (S1 & S2 & S3) & Hln & Hlb).
    assert (k = length hs) as ->. { destruct (decide (k = length hs)); [done|]. rewrite seqZ_cons in El by lia. done. }
    eapply (wp_brelse dev size me pid); [done|reflexivity|done|]. intros t' H' V' D' F'.
    apply HQ; [done| |by rewrite D'|intros n; by rewrite V'].
    eapply log_at_frame; [done|]. split; try done. intros i h Hi. apply Hlb; [by eapply lookup_lt_Some|done].
Qed.

Definition recoverable (f : Z -> list Z) (d : history) : Prop := exists hs, blocks_ok hs /\ logged hs f d.

Lemma wp_recover f s (Q : unit -> kstate -> Prop) :
  holds [] [] None s -> log_started s -> recoverable f (k_disk s) ->
  (forall s', holds [] [] None s' -> log_at [] s' -> settled f (k_disk s') ->
     always (recoverable f) (k_disk s) (k_disk s') -> Q tt s') ->
  wp (recover_from_log fuel) Q s.
Proof.
  intros Hh Hls (hs & Hok & HL) HQ. pose proof Hok as (Hhs & Hdup & Hmax & H1). pose proof HL as (Hn & Hl & Hd).
  assert (forall n, vw s n = disk_read (k_disk s) dev n) as Hv.
  { intros n. apply (vw_clean dev size me pid []); [done|apply not_elem_of_nil]. }
  unfold recover_from_log. apply wp_bind, (wp_read_head hs); [done|done|done|by rewrite Hv| |].
  { intros i h Hi. rewrite Hv. by apply Hl. }
  intros s1 Hh1 Hla1 D1 V1.
  apply wp_bind, (wp_install_trans hs Hhs Hdup Hmax s1 []); [done|done|by right|unfold NBUF; simpl; lia|].
  intros s2 Hh2 F2 D2 V2 L2. apply wp_bind, wp_modify. set (s3 := set k_log _ s2).
  assert (log_at [] s3) as Hla3 by (by eapply log_cleared, log_at_frame).
  apply (wp_write_head [] (Forall_nil_2 _) s3 []); [by apply holds_log|done|unfold NBUF; simpl; lia|].
  intros s4 Hh4 F4 D4 V4. change (k_disk s3) with (k_disk s2) in D4. rewrite D2, D1 in D4.
  assert (Hc : forall i h, hs !! i = Some h -> vw s1 (ls + Z.of_nat i + 1) = f h).
  { intros i h Hi. rewrite V1, Hv. by apply Hl. }
  assert (settled f (k_disk s4)) as HS.
  { rewrite D4. apply installed_settled; [done|done| |done|done]. change (vw s3 ls) with (vw s2 ls). by eapply vw_len. }
  apply HQ; [done|by eapply log_at_frame|done|]. rewrite D4. apply always_cons.
  - eapply always_mono; [|by apply always_installs]. intros d Hd'. by exists hs.
  - rewrite <- D4. exists []. split; [|by apply settled_logged].
    split_and!; [constructor|constructor|done|apply not_elem_of_nil].
Qed.

Lemma thr_initlock lk s : thr me [] s -> thr me [] (set k_locks (insert lk (MkLock 0 None)) s).
Proof.
  intros (c & cp & Hr & Hok & Hp & Hn & Ht & Hm & Hl). exists c, cp. split_and!; try done. intros lk'.
  rewrite decide_False by apply not_elem_of_nil. destruct (decide (lk = lk')) as [<-|Hne]; [apply lock_of_insert|].
  specialize (Hl lk'). rewrite decide_False in Hl by apply not_elem_of_nil. rewrite <- Hl. unfold lock_of.
  by simpl; rewrite lookup_insert_ne.
Qed.

Lemma holds_upto H B T s s' : holds H B T s -> thr me [] s' -> upto s s' -> holds H B T s'.
Proof.
  intros [Ht Hok Hn Hdi Hk] Ht' E. split; [done|by eapply cache_upto|done|..].
  - by rewrite (upto_proj k_bufs _ _ ltac:(done) E).
  - by rewrite (upto_proj k_bufs _ _ ltac:(done) E), (upto_proj k_disk _ _ ltac:(done) E).
Qed.

(** The log starts where the superblock says. *)
Definition sb_start (data : list Z) : Z := i32 (sb_logstart (sb_of data)).

Lemma wp_initlog f s (Q : unit -> kstate -> Prop) :
  holds [] [] None s -> length (lg_block (k_log s)) = Z.to_nat LOGSIZE -> recoverable f (k_disk s) ->
  data_block 1 -> sb_start (f 1) = ls ->
  (forall s', holds [] [] None s' -> log_at [] s' -> settled f (k_disk s') ->
     always (recoverable f) (k_disk s) (k_disk s') -> Q tt s') ->
  wp (initlog fuel dev) Q s.
Proof.
  intros Hh Hlen HR Hb1 Hsb HQ. unfold initlog. change (BSIZE <=? LOGHEADER_SIZE) with false.
  apply wp_bind, wp_modify. set (s1 := set k_locks _ s).
  assert (holds [] [] None s1) as Hh1. { eapply holds_upto; [done|by apply thr_initlock, Hh|done]. }
  unfold readsb. rewrite u32_dev. apply wp_bind, wp_bind.
  eapply (wp_bread fuel dev size me pid); [done|unfold NBUF; simpl; lia|apply Hb1|apply not_elem_of_nil|].
  intros a t1 H1 V1 D1 F1. apply wp_bind. eapply (wp_get_held dev size me pid); [done|by left|]. intros b Hbd _ _.
  apply wp_bind. eapply (wp_brelse dev size me pid); [done|reflexivity|done|]. intros t2 H2 V2 D2 F2. apply wp_ret.
  apply wp_bind, wp_modify. set (t3 := set k_log _ t2).
  assert (k_disk t3 = k_disk s) as D3 by (change (k_disk t2 = k_disk s); by rewrite D2, D1).
  apply (wp_recover f); [by apply holds_log| |by rewrite D3|].
  - pose proof (frame_proj k_log _ _ ltac:(done) F1) as E1. pose proof (frame_proj k_log _ _ ltac:(done) F2) as E2.
    unfold log_started. split_and!; [done| |].
    + rewrite <- Hsb. unfold t3, sb_start. simpl. do 2 f_equal. rewrite Hbd, V1.
      destruct HR as (hs & (_ & _ & _ & Hns) & _ & _ & Hd). rewrite <- (Hd 1) by done.
      exact (vw_clean dev size me pid [] s1 1 Hh1 (not_elem_of_nil _)).
    + unfold t3. simpl. by rewrite E2, E1.
  - intros s' Hh' Hla HS Ha. rewrite D3 in Ha. by apply HQ.
Qed.

(** ** Recording a block *)

Definition absorb (hs : list Z) (bno : Z) : list Z := if decide (bno ∈ hs) then hs else hs ++ [bno].

(** The search loop of [log_write]. *)
Lemma wp_log_find hs bno s (Q : option Z -> kstate -> Prop) :
  log_at hs s -> Forall (fun h => 0 <= h < size) hs -> 
  (bno ∉ hs -> Q None s) -> (forall k, hs !! k = Some bno -> Q (Some (Z.of_nat k)) s) ->
  wp (for_break (seqZ 0 (Z.of_nat (length hs))) (fun k =>
        let* v := get_block k in ret (if u32 v =? bno then Some k else None))) Q s.
Proof.
  intros Hla Hhs Hno Hyes.
  apply (wp_for_break _ (fun l t => t = s /\ exists k, (k <= length hs)%nat /\
    l = seqZ (Z.of_nat k) (Z.of_nat (length hs) - Z.of_nat k) /\ bno ∉ take k hs)).
  - split; [done|]. exists 0%nat. split_and!; [lia|f_equal; lia|apply not_elem_of_nil].
  - intros x l t (-> & k & Hk & El & Hn). destruct (decide (k = length hs)) as [->|Hne].
    { by rewrite Z.sub_diag in El. }
    rewrite seqZ_cons in El by lia. injection El as -> ->. assert (k < length hs)%nat as Hlt by lia.
    pose proof (list_lookup_lookup_total_lt _ _ Hlt) as Hhk. apply wp_bind. eapply wp_get_block; [by apply (la_block _ _ Hla)|].
    apply wp_ret. rewrite Forall_lookup in Hhs. rewrite u32_block by (by apply (Hhs k)).
    destruct (Z.eqb_spec (hs !!! k) bno) as [E|E]; [apply Hyes; congruence|].
    split; [done|]. exists (S k). split_and!; [lia|f_equal; lia|].
    rewrite (take_S_r _ _ _ Hhk), not_elem_of_app, list_elem_of_singleton. split; congruence.
  - intros t (-> & k & Hk & El & Hn). apply Hno.
    assert (k = length hs) as ->. { destruct (decide (k = length hs)); [done|]. rewrite seqZ_cons in El by lia. done. }
    by rewrite take_ge in Hn by lia.
Qed.

Definition logged_block (hs : list Z) (bno : Z) (k : nat) (l : log) : log :=
  let l := set lg_block (insert k bno) l in if decide (k = length hs) then set lg_n (fun n => n + 1) l else l.

Lemma log_at_absorb hs bno k s s' :
  log_at hs s -> (length hs < Z.to_nat LOGSIZE)%nat ->
  ((bno ∉ hs) /\ k = length hs) \/ hs !! k = Some bno ->
  k_log s' = logged_block hs bno k (k_log s) -> log_at (absorb hs bno) s'.
Proof.
  intros [L1 L2 L3 L4 L5] Hlen Hk E. unfold absorb, logged_block in *. destruct Hk as [[Hn ->]|Hk].
  - rewrite (decide_False (P := bno ∈ hs)) by done. rewrite decide_True in E by done. split; rewrite E; simpl; try done.
    + rewrite length_app. simpl. lia.
    + by rewrite length_insert.
    + intros i h [Hi|[Hge Hi]]%lookup_app_Some.
      * rewrite list_lookup_insert_ne; [by apply L5|]. apply lookup_lt_Some in Hi. lia.
      * apply list_lookup_singleton_Some in Hi as [Hi <-]. replace i with (length hs) by lia. apply list_lookup_insert_eq. lia.
  - pose proof (lookup_lt_Some _ _ _ Hk) as Hlt. rewrite decide_False in E by lia.
    rewrite decide_True by (by eapply list_elem_of_lookup_2). split; rewrite E; simpl; try done.
    + by rewrite length_insert.
    + intros i h Hi. rewrite (list_insert_id (lg_block (k_log s)) k bno); [by apply L5|]. by apply L5.
Qed.

Lemma wp_log_write H B T hs s i bno (Q : unit -> kstate -> Prop) :
  holds H B T s -> (i, bno) ∈ H -> T = None \/ T = Some bno -> log_at hs s -> Forall (fun h => 0 <= h < size) hs ->
  (length hs < Z.to_nat LOGSIZE)%nat -> Z.of_nat (length hs) < lg_size (k_log s) - 1 -> 1 <= lg_outstanding (k_log s) ->
  (forall s', holds H (absorb B bno) None s' -> log_at (absorb hs bno) s' -> (forall n, vw s' n = vw s n) ->
     k_disk s' = k_disk s -> lg_size (k_log s') = lg_size (k_log s) ->
     lg_outstanding (k_log s') = lg_outstanding (k_log s) -> lg_committing (k_log s') = lg_committing (k_log s) ->
     frame (s <| k_log := k_log s' |>) s' -> Q tt s') ->
  wp (log_write i) Q s.
Proof.
  intros Hh Hin HT Hla Hhs Hlen Hsz Hout HQ. unfold log_write, get_log. apply wp_bind, wp_gets.
  rewrite (la_n _ _ Hla). change LOGSIZE with 30 in *. destruct (Z.leb_spec 30 (Z.of_nat (length hs))); [lia|].
  destruct (Z.leb_spec (lg_size (k_log s) - 1) (Z.of_nat (length hs))); [lia|]. cbn [orb].
  destruct (Z.ltb_spec (lg_outstanding (k_log s)) 1); [lia|].
  apply wp_bind, (wp_acquire me []); [apply Hh|apply not_elem_of_nil|]. intros s1 Ht1 E1.
  destruct (held_inv dev size me pid _ _ _ _ i bno Hh Hin) as (b & Hb & Hk & Hs & Hf & Hr & Hl & Hdl & Hv & Hc).
  assert (k_bufs s1 !! i = Some b) as Hb1 by by rewrite (upto_proj k_bufs _ _ ltac:(done) E1).
  pose proof (upto_proj k_log _ _ ltac:(done) E1) as Elog.
  assert (log_at hs s1) as Hla1 by (destruct Hla; split; by rewrite Elog).
  apply wp_bind. eapply wp_of_eq; [by apply get_b_Ok|]. pose proof Hk as [Hk1 Hk2]. rewrite Hk2.
  apply wp_bind, wp_gets. rewrite (la_n _ _ Hla1).
  assert (forall k, ((bno ∉ hs) /\ k = length hs) \/ hs !! k = Some bno ->
    wp (set_block (Z.of_nat k) (i32 bno) ;; when (Z.of_nat k =? Z.of_nat (length hs)) (upd_log (set lg_n (fun n => n + 1))) ;;
        upd_b i (set b_flags (fun f => Z.lor f B_DIRTY)) ;; release Llog) Q s1) as Hrest.
  { intros k Hkk. assert (k <= length hs)%nat as Hkl by (destruct Hkk as [[_ ->]|Hx%lookup_lt_Some]; lia).
    rewrite i32_small by lia. apply wp_bind, wp_set_block; [rewrite (la_len _ _ Hla1); change (Z.to_nat LOGSIZE) with 30%nat; lia|].
    set (g := logged_block hs bno k). set (b' := b <| b_flags := DIRTY |>).
    apply wp_bind. apply (wp_of_eq _ _ _ tt (set k_log g s1)).
    { unfold g, logged_block. destruct (decide (k = length hs)) as [->|Hne].
      - rewrite Z.eqb_refl. done.
      - destruct (Z.eqb_spec (Z.of_nat k) (Z.of_nat (length hs))); [lia|]. done. }
    apply wp_bind. eapply wp_of_eq; [by apply upd_b_Ok|].
    rewrite (set_flags (fun f => Z.lor f B_DIRTY) DIRTY) by (by destruct Hf as [->| ->]). fold b'.
    apply (wp_release me []); [by apply thr_setb, (thr_neutral (set k_log g))|apply not_elem_of_nil|]. intros s2 Ht2 E2.
    assert (upto (setb i b' (set k_log g s)) s2) as E.
    { etransitivity; [|exact E2]. by apply setb_upto, (upto_neutral (set k_log g)). }
    destruct (holds_update dev size me pid H B (absorb B bno) T None (set k_log g s) i b b' bno (k_disk s) s2)
      as (Hh' & _ & Eb & Ed); try done.
    - by apply holds_log.
    - split_and!; try done. by right.
    - intros _. unfold absorb. case_decide; [done|]. apply elem_of_app. right. by apply list_elem_of_singleton.
    - intros n _ Hn. unfold absorb. case_decide; [done|]. apply elem_of_app. by left.
    - intros n Hn ->. by destruct HT as [|[= ]].
    - apply Hh.
    - pose proof (upto_proj k_log _ _ ltac:(done) E) as El. change (k_log s2 = g (k_log s)) in El.
      apply HQ; [done| | |done|..]; try (rewrite El; unfold g, logged_block; by case_decide).
      3: { rewrite El. etransitivity; [|apply upto_frame; exact E]. done. }
      + eapply log_at_absorb; [exact Hla|change (Z.to_nat LOGSIZE) with 30%nat; lia|exact Hkk|exact El].
      + intros n. unfold Cache.vw. rewrite Eb, Ed. change (k_bufs (set k_log g s)) with (k_bufs s).
        eapply (view_same _ _ _ _ _ i b); [apply Hh|done|apply dl_dev|by split|done| |done].
        change (DIRTY = 0 <-> b_flags b = 0). destruct Hf as [->| ->]; done. }
  apply wp_bind, (wp_log_find hs bno); [done|done|..].
  - intros Hn. cbn [default from_option]. by apply Hrest; left.
  - intros k Hkk. cbn [default from_option]. by apply Hrest; right.
Qed.

(** ** Transactions *)

(** The log between transactions. *)
Definition log_idle (s : kstate) : Prop :=
  holds [] [] None s /\ log_at [] s /\ lg_outstanding (k_log s) = 0 /\ lg_committing (k_log s) = 0 /\
  1 < lg_size (k_log s) /\ hd_n (disk_read (k_disk s) dev ls) = 0.

(** The state up to [k_log]. *)
Lemma holds_set_log H B T g s t : holds H B T s -> thr me [] t -> upto (set k_log g s) t -> holds H B T t.
Proof. intros Hh Ht E. eapply holds_upto; [by apply (holds_log H B T g)|done|done]. Qed.

Lemma set_log_ext (f g : log -> log) s : f (k_log s) = g (k_log s) -> set k_log f s = set k_log g s.
Proof. intros E. unfold set, set_k_log. by rewrite E. Qed.

Lemma vw_upto s t n : upto s t -> vw t n = vw s n.
Proof. intros E. unfold Cache.vw. by rewrite (upto_proj k_bufs _ _ ltac:(done) E), (upto_proj k_disk _ _ ltac:(done) E). Qed.

Lemma wp_begin_op s (Q : unit -> kstate -> Prop) :
  thr me [] s -> lg_committing (k_log s) = 0 -> lg_n (k_log s) + (lg_outstanding (k_log s) + 1) * MAXOPBLOCKS <= LOGSIZE ->
  (forall s', thr me [] s' -> upto (set k_log (set lg_outstanding (fun n => n + 1)) s) s' -> Q tt s') ->
  wp (begin_op fuel) Q s.
Proof.
  intros Ht Hc Hn HQ. unfold begin_op. apply wp_bind, (wp_acquire me []); [done|apply not_elem_of_nil|]. intros s1 Ht1 E1.
  assert (begin_op_loop fuel = (fun t => (let* l := get_log in
    if negb (lg_committing l =? 0) || (LOGSIZE <? lg_n l + (lg_outstanding l + 1) * MAXOPBLOCKS) then
      sleep ChLog (Some Llog) ;; match fuel with O => nofuel | S n => begin_op_loop n end
    else upd_log (set lg_outstanding (fun n => n + 1)) ;; release Llog) t)) as -> by (by destruct fuel).
  apply wp_bind, wp_gets. rewrite (upto_proj k_log _ _ ltac:(done) E1), Hc.
  destruct (Z.ltb_spec LOGSIZE (lg_n (k_log s) + (lg_outstanding (k_log s) + 1) * MAXOPBLOCKS)); [lia|]. cbn [negb orb Z.eqb].
  apply wp_bind, wp_modify. apply (wp_release me []); [|apply not_elem_of_nil|].
  - by apply (thr_neutral (set k_log (set lg_outstanding (fun n => n + 1)))).
  - intros s2 Ht2 E2. apply HQ; [done|]. etransitivity; [|exact E2].
    by apply (upto_neutral (set k_log (set lg_outstanding (fun n => n + 1)))).
Qed.

Lemma holds_wake ch B s t : holds [] B None s -> thr me [] t -> upto (set k_ptable (wake ch) s) t -> holds [] B None t.
Proof.
  intros [Ht Hok Hn Hdi Hk] Ht' E. split; [done|eapply cache_upto; [by apply cache_wake|done]|done|..].
  - by rewrite (upto_proj k_bufs _ _ ltac:(done) E).
  - intros i bno Hi. by apply not_elem_of_nil in Hi.
Qed.

(** The last [end_op] of a transaction with the blocks [hs] commits it. *)
Lemma wp_end_op hs s (Q : unit -> kstate -> Prop) :
  blocks_ok hs -> (length hs + 1 < NBUF)%nat -> holds [] hs None s -> log_at hs s ->
  lg_outstanding (k_log s) = 1 -> lg_committing (k_log s) = 0 -> 1 < lg_size (k_log s) ->
  hd_n (disk_read (k_disk s) dev ls) = 0 ->
  (forall s', log_idle s' -> settled (vw s) (k_disk s') -> frame (s <| k_log := k_log s' |>) s' -> lg_size (k_log s') = lg_size (k_log s) -> Q tt s') ->
  wp (end_op fuel) Q s.
Proof.
  intros Hok Hroom Hh Hla Hout Hcom Hsz Hhd HQ. unfold end_op.
  apply wp_bind, (wp_acquire me []); [apply Hh|apply not_elem_of_nil|]. intros s1 Ht1 E1.
  apply wp_bind, wp_modify. unfold get_log. apply wp_bind, wp_gets.
  pose proof (upto_proj k_log _ _ ltac:(done) E1) as El1. cbn [k_log]. simpl lg_committing. simpl lg_outstanding.
  rewrite El1, Hcom, Hout. cbn [Z.eqb negb Z.sub Z.add Z.opp Z.pos_sub]. set (g := fun l : log => l <| lg_outstanding := 0 |> <| lg_committing := 1 |>).
  apply wp_bind. apply (wp_of_eq _ _ _ tt (set k_log g s1)).
  { apply (f_equal (Ok tt)).
    transitivity (set k_log (fun l => (set lg_outstanding (fun n => n - 1) l) <| lg_committing := 1 |>) s1); [done|].
    apply set_log_ext. rewrite El1. destruct (k_log s). simpl in Hout. by subst. }
  apply wp_bind, (wp_release me []); [by apply (thr_neutral (set k_log g))|apply not_elem_of_nil|]. intros s2 Ht2 E2.
  assert (upto (set k_log g s) s2) as E by (etransitivity; [|exact E2]; by apply (upto_neutral (set k_log g))).
  pose proof (upto_proj k_log _ _ ltac:(done) E) as El2. change (k_log s2 = g (k_log s)) in El2.
  assert (k_disk s2 = k_disk s) as Ed2 by (by rewrite (upto_proj k_disk _ _ ltac:(done) E)).
  assert (forall n, vw s2 n = vw s n) as Ev by (intros n; by rewrite (vw_upto _ _ n E)).
  apply wp_bind, (wp_commit hs s2); [done|done|by eapply holds_set_log| |by rewrite Ed2|].
  { destruct Hla. by split; rewrite El2. }
  intros s3 Hh3 El3 HS3 _ Fr3. apply wp_bind, (wp_acquire me []); [apply Hh3|apply not_elem_of_nil|]. intros s4 Ht4 E4.
  apply wp_bind, wp_modify. set (g' := fun l : log => l <| lg_committing := 0 |>).
  apply wp_bind, (wp_wakeup me [Llog]); [by apply (thr_neutral (set k_log g'))|rewrite list_elem_of_singleton; done|].
  intros s5 Ht5 E5. apply (wp_release me []); [done|apply not_elem_of_nil|]. intros s6 Ht6 E6.
  assert (upto (set k_ptable (wake ChLog) (set k_log g' s3)) s6) as E'.
  { etransitivity; [|exact E6]. etransitivity; [|exact E5].
    by apply (upto_neutral (set k_ptable (wake ChLog))), (upto_neutral (set k_log g')). }
  pose proof (upto_proj k_log _ _ ltac:(done) E') as El6. change (k_log s6 = g' (k_log s3)) in El6. rewrite El3, El2 in El6.
  assert (settled (vw s) (k_disk s6)) as HS.
  { rewrite (upto_proj k_disk _ _ ltac:(done) E'). destruct HS3 as [H3 H3']. split; [done|]. intros b Hb. rewrite <- Ev. by apply H3'. }
  apply HQ; [|done| |by rewrite El6]; [split_and!; try (rewrite El6; done)|].
  - eapply holds_wake; [by apply (holds_log _ _ _ g')|done|done].
  - destruct Hla as [? ? ? ? ?]. split; rewrite El6; done.
  - apply HS.
  - rewrite El6. set (l := g' _). etransitivity; [|apply upto_frame, E'].
    assert (frame (s <| k_log := l |>) (s2 <| k_log := l |>)) as F2 by exact (frame_relog (set k_log g s) s2 l (upto_frame _ _ E)).
    etransitivity; [exact F2|]. etransitivity; [exact (frame_relog _ _ l Fr3)|]. unfold frame, l. by rewrite <- El2, <- El3.
Qed.

(** A system call that writes [data] to block [bno] within a transaction. *)
Definition write_block (bno : Z) (data : list Z) : KM unit :=
  begin_op fuel ;;
  let* i := bread fuel dev bno in
  put_data i data ;;
  log_write i ;;
  brelse i ;;
  end_op fuel.

Lemma wp_write_block bno data s (Q : unit -> kstate -> Prop) :
  log_idle s -> data_block bno -> bno <> 1 -> length data = Z.to_nat BSIZE ->
  (forall s', log_idle s' -> settled (fun b => if decide (b = bno) then data else vw s b) (k_disk s') -> Q tt s') ->
  wp (write_block bno data) Q s.
Proof.
  intros (Hh & Hla & Hout & Hcom & Hsz & Hhd) Hb Hb1 Hlen HQ. unfold write_block. pose proof Hb as [Hbs _].
  apply wp_bind, wp_begin_op; [apply Hh|done|rewrite (la_n _ _ Hla), Hout; unfold LOGSIZE, MAXOPBLOCKS; simpl; lia|].
  intros s1 Ht1 E1. pose proof (upto_proj k_log _ _ ltac:(done) E1) as El1.
  change (k_log s1 = set lg_outstanding (fun n => n + 1) (k_log s)) in El1.
  assert (k_disk s1 = k_disk s) as Ed1 by (by rewrite (upto_proj k_disk _ _ ltac:(done) E1)).
  apply wp_bind. eapply (wp_bread fuel dev size me pid [] [] None); [by eapply holds_set_log|unfold NBUF; simpl; lia|done|apply not_elem_of_nil|].
  intros i s2 Hh2 V2 D2 F2. apply wp_bind.
  eapply (wp_upd_data dev size me pid _ _ _ _ i bno (fun _ => data)); [done|by left|by left|done|]. intros s3 Hh3 V3 D3 F3.
  assert (k_log s3 = set lg_outstanding (fun n => n + 1) (k_log s)) as El3.
  { by rewrite (frame_proj k_log _ _ ltac:(done) F3), (frame_proj k_log _ _ ltac:(done) F2). }
  assert (log_at [] s3) as Hla3 by (destruct Hla; split; by rewrite El3).
  apply wp_bind. eapply (wp_log_write _ _ _ []); [done|by left|by right|done|constructor|..].
  { change (Z.to_nat LOGSIZE) with 30%nat. simpl. lia. }
  { rewrite El3. simpl. lia. }
  { rewrite El3. simpl. lia. }
  intros s4 Hh4 Hla4 V4 D4 G1 G2 G3 _. rewrite El3 in G1, G2, G3. simpl in G1, G2, G3.
  assert (absorb [] bno = [bno]) as Ea by (unfold absorb; by rewrite decide_False by apply not_elem_of_nil). rewrite Ea in *.
  apply wp_bind. eapply (wp_brelse dev size me pid); [done|reflexivity|done|]. intros s5 Hh5 V5 D5 F5.
  pose proof (frame_proj k_log _ _ ltac:(done) F5) as El5.
  apply (wp_end_op [bno]); [|unfold NBUF; simpl; lia|done|by eapply log_at_frame|rewrite El5; lia|by rewrite El5, G3|rewrite El5; lia| |].
  - split_and!; [by constructor|apply NoDup_singleton|done|]. rewrite list_elem_of_singleton. congruence.
  - by rewrite D5, D4, D3, D2, Ed1.
  - intros s6 Hidle [HS1 HS2] _ _. apply HQ; [done|]. split; [done|]. intros b Hdb. rewrite (HS2 b Hdb), V5, V4, V3.
    case_decide; [done|]. by rewrite V2, (vw_upto _ _ b E1).
Qed.
End log_rules.

(** ** Crashes *)

(** A machine that starts with the disk [d]: no buffer is held or dirty. *)
Definition boots (dev size : Z) (me : nat) (pid : Z) (d : history) (t : kstate) : Prop :=
  holds dev size me pid [] [] None t /\ k_disk t = d /\ length (lg_block (k_log t)) = Z.to_nat LOGSIZE.

(** The disks that a machine can be left with that stops during [commit] in
    state [s], and then any number of times during the recovery at boot. *)
Inductive crashed {D : Disk} (fuel : nat) (dev size : Z) (me : nat) (pid : Z) (s : kstate) : history -> Prop :=
  | crash_commit s' d :
      commit fuel s = Ok tt s' -> k_disk s `suffix_of` d -> d `suffix_of` k_disk s' ->
      crashed fuel dev size me pid s d
  | crash_recovery d t t' d' :
      crashed fuel dev size me pid s d -> boots dev size me pid d t ->
      initlog fuel dev t = Ok tt t' -> d `suffix_of` d' -> d' `suffix_of` k_disk t' ->
      crashed fuel dev size me pid s d'.

(** A log in the [LOGSIZE] blocks of the disk from [ls] on, whose superblock says so. *)
Definition log_layout (dev size ls : Z) (s : kstate) : Prop :=
  0 <= dev < 2 ^ 32 /\ (0 <= ls /\ ls + LOGSIZE <= size /\ size <= 2 ^ 31) /\ data_block size ls 1 /\ sb_start (vw dev s 1) = ls.

(** A transaction of the blocks [hs] that is ready to commit. *)
Definition committable (dev size : Z) (me : nat) (pid ls : Z) (hs : list Z) (s : kstate) : Prop :=
  blocks_ok size ls hs /\ (length hs + 1 < NBUF)%nat /\ holds dev size me pid [] hs None s /\
  log_at dev ls hs s /\ hd_n (disk_read (k_disk s) dev ls) = 0.

Section crash.
Context {D : Disk} (fuel : nat) (dev size : Z) {DL : DiskLaws D dev size} (me : nat) (pid ls : Z) (hs : list Z) (s : kstate).
Hypothesis Hlay : log_layout dev size ls s.
Hypothesis Hcom : committable dev size me pid ls hs s.

Abbreviation new := (vw dev s).
Abbreviation old := (disk_read (k_disk s) dev).

Lemma commit_ends : exists s', commit fuel s = Ok tt s' /\ settled dev size ls new (k_disk s') /\
  always (fun d => recoverable dev size ls old d \/ recoverable dev size ls new d) (k_disk s) (k_disk s').
Proof.
  destruct Hlay as (Hdev & Hlog & Hb1 & Hsb), Hcom as (Hok & Hroom & Hh & Hla & Hhd).
  assert (forall f d, settled dev size ls f d -> recoverable dev size ls f d) as Hset.
  { intros f d Hd. exists []. split; [|by apply settled_logged].
    split_and!; [constructor|constructor|done|apply not_elem_of_nil]. }
  assert (wp (commit fuel) (fun _ s' => settled dev size ls new (k_disk s') /\
    always (fun d => recoverable dev size ls old d \/ recoverable dev size ls new d) (k_disk s) (k_disk s')) s) as Hwp.
  { apply (wp_commit fuel dev size me pid ls Hdev Hlog hs); try done. intros s' _ _ HS Ha _. split; [done|].
    eapply always_mono; [|exact Ha]. intros d [Hd|[Hd|Hd]]; [left; by apply Hset|right; by exists hs|right; by apply Hset]. }
  apply wp_iff in Hwp as ([] & s' & E & HS & Ha). by exists s'.
Qed.

Lemma initlog_recovers f t :
  boots dev size me pid (k_disk t) t -> recoverable dev size ls f (k_disk t) -> sb_start (f 1) = ls ->
  exists t', initlog fuel dev t = Ok tt t' /\ settled dev size ls f (k_disk t') /\
    always (recoverable dev size ls f) (k_disk t) (k_disk t').
Proof.
  intros (Hh & _ & Hlen) HR Hsb. destruct Hlay as (Hdev & Hlog & Hb1 & _).
  assert (wp (initlog fuel dev) (fun _ t' => settled dev size ls f (k_disk t') /\
    always (recoverable dev size ls f) (k_disk t) (k_disk t')) t) as Hwp.
  { by apply (wp_initlog fuel dev size me pid ls Hdev Hlog f). }
  apply wp_iff in Hwp as ([] & t' & E & HS & Ha). by exists t'.
Qed.

Lemma sb_old : sb_start (old 1) = ls.
Proof.
  destruct Hlay as (_ & _ & _ & Hsb), Hcom as ((_ & _ & _ & H1) & _ & Hh & _).
  by rewrite <- (vw_clean dev size me pid hs s 1 Hh H1).
Qed.

Lemma crashed_recoverable d :
  crashed fuel dev size me pid s d -> recoverable dev size ls old d \/ recoverable dev size ls new d.
Proof.
  induction 1 as [s' d E H1 H2|d t t' d' _ IH (Hh & Hd & Hlen) E H1 H2].
  - destruct commit_ends as (s1 & E1 & _ & Ha). rewrite E1 in E. injection E as ->. by apply Ha.
  - destruct Hlay as (_ & _ & _ & Hsb). rewrite <- Hd in *.
    destruct IH as [HR|HR]; [left|right].
    + destruct (initlog_recovers old t) as (t1 & E1 & _ & Ha); [done|done|apply sb_old|].
      rewrite E1 in E. injection E as ->. by apply Ha.
    + destruct (initlog_recovers new t) as (t1 & E1 & _ & Ha); [done..|]. rewrite E1 in E. injection E as ->. by apply Ha.
Qed.

Lemma crash_recovers d t : crashed fuel dev size me pid s d -> boots dev size me pid d t ->
  exists t', initlog fuel dev t = Ok tt t' /\ (settled dev size ls old (k_disk t') \/ settled dev size ls new (k_disk t')).
Proof.
  intros Hc (Hh & <- & Hlen). pose proof Hlay as (_ & _ & _ & Hsb).
  destruct (crashed_recoverable _ Hc) as [HR|HR].
  - destruct (initlog_recovers old t (conj Hh (conj eq_refl Hlen)) HR) as (t' & E & HS & _); [apply sb_old|]. exists t'. split; [done|by left].
  - destruct (initlog_recovers new t (conj Hh (conj eq_refl Hlen)) HR Hsb) as (t' & E & HS & _). exists t'. split; [done|by right].
Qed.
End crash.

(** C1: Commit is atomic: [commit] puts the transaction's blocks on the disk,
    and if the machine stops at any point of it, and again at any points of
    the recovery at boot, then the next complete [initlog] leaves the data
    blocks of the disk either all as they were before the transaction or all
    as the transaction made them, with an empty log. *)
Theorem commit_crash_safe {D : Disk} (fuel : nat) (dev size : Z) {DL : DiskLaws D dev size} me pid ls hs s :
  log_layout dev size ls s -> committable dev size me pid ls hs s ->
  (exists s', commit fuel s = Ok tt s' /\ settled dev size ls (vw dev s) (k_disk s')) /\
  (forall d t, crashed fuel dev size me pid s d -> boots dev size me pid d t ->
     exists t', initlog fuel dev t = Ok tt t' /\
       (settled dev size ls (disk_read (k_disk s) dev) (k_disk t') \/ settled dev size ls (vw dev s) (k_disk t'))).
Proof.
  intros Hlay Hcom. split.
  - destruct (commit_ends fuel dev size me pid ls hs s Hlay Hcom) as (s' & E & HS & _). by exists s'.
  - intros d t. by apply (crash_recovers fuel dev size me pid ls hs s).
Qed.

(** A transaction that wrote block 100 of a disk whose log starts at block 2. *)
Definition commit_buf (i : nat) : buf :=
  match i with
  | O => buf0 <| b_flags := DIRTY |> <| b_dev := 1 |> <| b_blockno := 100 |>
              <| b_data := replicate (Z.to_nat BSIZE) 7 |>
  | S _ => buf0
  end.
Definition commit_state : kstate :=
  (with_bufs commit_buf [(1, 1, put_u32 zero_block 16 2)] (demo [demo_proc 1 RUNNING ChNull]))
    <| k_log := MkLog 2 30 0 1 1 1 (100 :: replicate 29 0) |>.

Lemma commit_state_holds : holds 1 1000 0 1 [] [100] None commit_state.
Proof.
  apply (holds_log 1 1000 0 1 [] [100] None). apply with_bufs_holds.
  - by apply demo_thr; [|unfold NPROC; simpl; lia].
  - done.
  - by constructor.
  - intros [|i]; (split; [split_and!|]); try done; [by right; right|..].
    + intros _. split; [done|]. by apply list_elem_of_singleton.
    + by left.
  - intros [|i] [|j]; try done. by intros _ [? ?].
Qed.

Lemma commit_crash_safe_witness :
  (exists s', commit (D := memide 1000) 0 commit_state = Ok tt s' /\ settled 1 1000 2 (vw 1 commit_state) (k_disk s')) /\
  (forall d t, crashed (D := memide 1000) 0 1 1000 0 1 commit_state d -> boots 1 1000 0 1 d t ->
     exists t', initlog (D := memide 1000) 0 1 t = Ok tt t' /\
       (settled 1 1000 2 (disk_read (k_disk commit_state) 1) (k_disk t') \/
        settled 1 1000 2 (vw 1 commit_state) (k_disk t'))).
Proof.
  apply (commit_crash_safe (D := memide 1000) 0 1 1000 0 1 2 [100] commit_state).
  - split_and!; [lia|lia|lia| |lia| |done]; change LOGSIZE with 30; [lia|split; [lia|change LOGSIZE with 30; lia]].
  - unfold committable, blocks_ok. split_and!; try done.
    + constructor; [|constructor]. split; [lia|]. change LOGSIZE with 30. lia.
    + by apply NoDup_singleton.
    + rewrite list_elem_of_singleton. lia.
    + unfold NBUF. simpl. lia.
    + apply commit_state_holds.
    + split; try done. intros [|i] h; [by intros [= <-]|done].
Defined.

(** A transaction is durable: a system call that writes a block within
    [begin_op] and [end_op] on an idle log returns with the new content of
    exactly that block on the disk, and leaves the log idle. *)
Theorem transaction_durable {D : Disk} (fuel : nat) (dev size : Z) {DL : DiskLaws D dev size} me pid ls s bno data :
  0 <= dev < 2 ^ 32 -> 0 <= ls /\ ls + LOGSIZE <= size /\ size <= 2 ^ 31 -> log_idle dev size me pid ls s ->
  data_block size ls bno -> bno <> 1 -> length data = Z.to_nat BSIZE ->
  exists s', write_block fuel dev bno data s = Ok tt s' /\ log_idle dev size me pid ls s' /\
    disk_read (k_disk s') dev bno = data /\
    forall b, data_block size ls b -> b <> bno -> disk_read (k_disk s') dev b = disk_read (k_disk s) dev b.
Proof.
  intros Hdev Hlog Hidle Hb Hb1 Hlen.
  assert (wp (write_block fuel dev bno data) (fun _ s' => log_idle dev size me pid ls s' /\
    settled dev size ls (fun b => if decide (b = bno) then data else vw dev s b) (k_disk s')) s) as Hwp.
  { by apply (wp_write_block fuel dev size me pid ls Hdev Hlog bno data s). }
  apply wp_iff in Hwp as ([] & s' & E & Hidle' & _ & HS). exists s'. split_and!; [done|exact Hidle'| |].
  - rewrite HS by done. by rewrite decide_True.
  - intros b Hdb Hne. rewrite HS, decide_False by done. apply (vw_clean dev size me pid []); [apply Hidle|apply not_elem_of_nil].
Qed.

(** An idle log. *)
Definition idle_state : kstate :=
  (with_bufs (fun _ => buf0) [(1, 1, put_u32 zero_block 16 2)] (demo [demo_proc 1 RUNNING ChNull]))
    <| k_log := MkLog 2 30 0 0 1 0 (replicate 30 0) |>.

Lemma transaction_durable_witness :
  exists s', write_block (D := memide 1000) 0 1 100 (replicate (Z.to_nat BSIZE) 7) idle_state = Ok tt s' /\
    log_idle 1 1000 0 1 2 s' /\ disk_read (k_disk s') 1 100 = replicate (Z.to_nat BSIZE) 7 /\
    forall b, data_block 1000 2 b -> b <> 100 -> disk_read (k_disk s') 1 b = disk_read (k_disk idle_state) 1 b.
Proof.
  apply (transaction_durable (D := memide 1000) 0 1 1000 0 1 2); [lia|change LOGSIZE with 30; lia| | |lia|done].
  - split_and!; try done.
    + apply (holds_log 1 1000 0 1 [] [] None), with_bufs_holds; [by apply demo_thr; [|unfold NPROC; simpl; lia]|done|by constructor|..|done].
      intros i. split; [|done]. split_and!; try done. by left.
  - split; [lia|]. change LOGSIZE with 30. lia.
Defined.
