(* ===== verification/Fs.v ===== *)
(** * File system: blocks, inodes, directories, paths (fs.c)

    The inode cache is the table [k_icache]; a [struct inode*] is an index
    into it.  On disk an inode is 64 bytes of its inode block ([dinode]), a
    directory entry is 16 bytes of the directory's content.  [readi] and
    [writei] copy to and from a place [ptr]: user memory, a page of the
    kernel or a local variable of the caller.  The device switch [devsw] is
    filled by the device drivers (console.c). *)

From stdpp Require Import base numbers list list_numbers gmap strings.
From S2P Require Import Prelude Kmonad Params Kstate Spinlock KString Kalloc Cprintf Vm Umem Sched Sleeplock Bio Log.

Local Open Scope Z_scope.

(** ** On-disk structures *)

(** [struct dinode]. *)
Record dinode := MkDinode {
  d_type : Z;
  d_major : Z;
  d_minor : Z;
  d_nlink : Z;
  d_size : Z;
  d_addrs : list Z
}.

(** Its 64 bytes. *)
Definition dinode_bytes (d : dinode) : list Z :=
  le_bytes 2 (d_type d) ++ le_bytes 2 (d_major d) ++ le_bytes 2 (d_minor d) ++
  le_bytes 2 (d_nlink d) ++ le_bytes 4 (d_size d) ++ flat_map (le_bytes 4) (d_addrs d).
(** The dinode at byte [off] of a block. *)
Definition dinode_at (data : list Z) (off : nat) : dinode :=
  MkDinode (i16 (get_u16 data off)) (i16 (get_u16 data (off + 2)))
    (i16 (get_u16 data (off + 4))) (i16 (get_u16 data (off + 6))) (get_u32 data (off + 8))
    (map (fun k => get_u32 data (off + 12 + 4 * k)) (seq 0 (S NDIRECT))).

Definition IBLOCK (i : Z) (sb : superblock) : Z := u32 (i / IPB + sb_inodestart sb).
Definition BBLOCK (b : Z) (sb : superblock) : Z := u32 (b / BPB + sb_bmapstart sb).
(** Offset of inode [i] in its block. *)
Definition IOFF (i : Z) : nat := Z.to_nat (i mod IPB * DINODE_SIZE).

(** [struct dirent]: the inode number and [DIRSIZ] bytes of name. *)
Definition de_inum (de : list Z) : Z := get_u16 de 0.
Definition de_name (de : list Z) : list Z := drop 2 de.
Definition dirent_bytes (inum : Z) (name : list Z) : list Z := le_bytes 2 inum ++ strncpy name DIRSIZ.

(** ** Where file data is copied *)

Inductive ptr : Type :=
| PUser (va : Z)          (** a user address *)
| PPage (a : Z)           (** the kernel address of a page *)
| PLocal (bs : list Z)    (** a variable: written so far, or left to read *).

(** [memmove(dst, bs)], and [dst] advanced over it. *)
Definition put (dst : ptr) (bs : list Z) : KM ptr :=
  match dst with
  | PUser va => ustores va bs ;; ret (PUser (va + Z.of_nat (length bs)))
  | PPage a =>
      modify (set k_mem (fun m => stores m (V2P a) bs)) ;; ret (PPage (a + Z.of_nat (length bs)))
  | PLocal l => ret (PLocal (l ++ bs))
  end.
(** The next [n] bytes at [src], and [src] advanced over them. *)
Definition fetch (src : ptr) (n : nat) : KM (list Z * ptr) :=
  match src with
  | PUser va => let* bs := uloads va n in ret (bs, PUser (va + Z.of_nat n))
  | PPage a => let* m := gets k_mem in ret (loads m (V2P a) n, PPage (a + Z.of_nat n))
  | PLocal l => ret (take n l, PLocal (drop n l))
  end.
Definition local (p : ptr) : list Z := match p with PLocal l => l | _ => [] end.

(** An entry of [devsw]: [None] for a null function pointer. *)
Record devops := MkDev {
  dv_read : option (nat -> ptr -> Z -> KM (Z * ptr));
  dv_write : option (nat -> ptr -> Z -> KM Z)
}.

Section fs.
Context {D : Disk} (fuel : nat) (devsw : Z -> devops).

(** ** Blocks *)

Definition get_sb : KM superblock := gets k_sb.
Definition upd_data (i : nat) (f : list Z -> list Z) : KM unit := upd_b i (set b_data f).

Definition bzero (dev bno : Z) : KM unit :=
  let* bp := bread fuel dev bno in
  upd_data bp (fun _ => zero_block) ;;
  log_write bp ;;
  brelse bp.

(** The outer loop of [balloc]: one round per bitmap block. *)
Fixpoint balloc_loop (n : nat) (dev b : Z) : KM Z :=
  let* sb := get_sb in
  if negb (b <? sb_size sb) then panic "balloc: out of blocks" else
  match n with
  | O => nofuel
  | S n =>
      let* bp := bread fuel dev (BBLOCK b sb) in
      let* sb := get_sb in
      let* buf := get_b bp in
      let free bi :=
        Z.land (nthZ (b_data buf) (Z.to_nat (bi / 8))) (Z.shiftl 1 (bi mod 8)) =? 0 in
      let* r := for_break (seqZ 0 (Z.min BPB (sb_size sb - b))) (fun bi =>
        ret (if free bi then Some bi else None)) in
      match r with
      | Some bi =>
          upd_data bp (alter (fun x => Z.lor x (Z.shiftl 1 (bi mod 8))) (Z.to_nat (bi / 8))) ;;
          log_write bp ;;
          brelse bp ;;
          bzero dev (b + bi) ;;
          ret (b + bi)
      | None => brelse bp ;; balloc_loop n dev (b + BPB)
      end
  end.

Definition balloc (dev : Z) : KM Z :=
  let* sb := get_sb in
  balloc_loop (S (Z.to_nat (sb_size sb / BPB))) dev 0.

Definition bfree (dev b : Z) : KM unit :=
  let* sb := readsb fuel dev in
  modify (fun s => s <| k_sb := sb |>) ;;
  let* bp := bread fuel dev (BBLOCK b sb) in
  let bi := b mod BPB in
  let m := Z.shiftl 1 (bi mod 8) in
  let* buf := get_b bp in
  if Z.land (nthZ (b_data buf) (Z.to_nat (bi / 8))) m =? 0 then panic "freeing free block" else
  upd_data bp (alter (fun x => Z.land x (u8 (Z.lnot m))) (Z.to_nat (bi / 8))) ;;
  log_write bp ;;
  brelse bp.

(** ** Inodes *)

Definition iinit (dev : Z) : KM unit :=
  initlock Licache ;;
  for_each (seq 0 NINODE) (fun i => initsleeplock (SLinode i)) ;;
  let* sb := readsb fuel dev in
  modify (fun s => s <| k_sb := sb |>) ;;
  cprintf (bytes "sb: size %d nblocks %d ninodes %d nlog %d logstart %d inodestart %d bmap start %d"
           ++ [10])
    [CInt (sb_size sb); CInt (sb_nblocks sb); CInt (sb_ninodes sb); CInt (sb_nlog sb);
     CInt (sb_logstart sb); CInt (sb_inodestart sb); CInt (sb_bmapstart sb)].

Definition iget (dev inum : Z) : KM nat :=
  acquire Licache ;;
  let* r := for_fold (seq 0 NINODE) (inr None) (fun acc i =>
    match acc with
    | inl i => ret (inl i)
    | inr empty =>
        let* ip := get_i i in
        if (0 <? i_ref ip) && (i_dev ip =? dev) && (i_inum ip =? inum) then
          upd_i i (set i_ref (fun n => n + 1)) ;;
          release Licache ;;
          ret (inl i)
        else ret (inr (if bool_decide (empty = None) && (i_ref ip =? 0) then Some i else empty))
    end) in
  match r with
  | inl i => ret i
  | inr None => panic "iget: no inodes"
  | inr (Some i) =>
      upd_i i (fun ip => ip <| i_dev := dev |> <| i_inum := inum |> <| i_ref := 1 |>
                            <| i_valid := 0 |>) ;;
      release Licache ;;
      ret i
  end.

Definition ialloc (dev type : Z) : KM nat :=
  let* sb := get_sb in
  let* r := for_break (seqZ 1 (sb_ninodes sb - 1)) (fun inum =>
    let* sb := get_sb in
    let* bp := bread fuel dev (IBLOCK inum sb) in
    let* buf := get_b bp in
    if d_type (dinode_at (b_data buf) (IOFF inum)) =? 0 then
      upd_data bp (fun d => splice d (IOFF inum)
        (dinode_bytes (MkDinode type 0 0 0 0 (replicate (S NDIRECT) 0)))) ;;
      log_write bp ;;
      brelse bp ;;
      let* i := iget dev inum in
      ret (Some i)
    else brelse bp ;; ret None) in
  match r with Some i => ret i | None => panic "ialloc: no inodes" end.

Definition iupdate (i : nat) : KM unit :=
  let* ip := get_i i in
  let* sb := get_sb in
  let* bp := bread fuel (i_dev ip) (IBLOCK (i_inum ip) sb) in
  let* ip := get_i i in
  upd_data bp (fun d => splice d (IOFF (i_inum ip))
    (dinode_bytes (MkDinode (i_type ip) (i_major ip) (i_minor ip) (i_nlink ip) (i_size ip)
                            (i_addrs ip)))) ;;
  log_write bp ;;
  brelse bp.

Definition idup (i : nat) : KM nat :=
  acquire Licache ;;
  upd_i i (set i_ref (fun n => n + 1)) ;;
  release Licache ;;
  ret i.

Definition ilock (o : option nat) : KM unit :=
  match o with
  | None => panic "ilock"
  | Some i =>
      let* ip := get_i i in
      if i_ref ip <? 1 then panic "ilock" else
      acquiresleep fuel (SLinode i) ;;
      let* ip := get_i i in
      when (i_valid ip =? 0) (
        let* sb := get_sb in
        let* bp := bread fuel (i_dev ip) (IBLOCK (i_inum ip) sb) in
        let* buf := get_b bp in
        let d := dinode_at (b_data buf) (IOFF (i_inum ip)) in
        upd_i i (fun ip => ip <| i_type := d_type d |> <| i_major := d_major d |>
          <| i_minor := d_minor d |> <| i_nlink := d_nlink d |> <| i_size := d_size d |>
          <| i_addrs := d_addrs d |>) ;;
        brelse bp ;;
        upd_i i (fun ip => ip <| i_valid := 1 |>) ;;
        let* ip := get_i i in
        when (i_type ip =? 0) (panic "ilock: no type"))
  end.

Definition iunlock (o : option nat) : KM unit :=
  match o with
  | None => panic "iunlock"
  | Some i =>
      let* h := holdingsleep (SLinode i) in
      if negb h then panic "iunlock" else
      let* ip := get_i i in
      if i_ref ip <? 1 then panic "iunlock" else
      releasesleep (SLinode i)
  end.

(** *** Content *)

Definition set_addr (i : nat) (k : nat) (a : Z) : KM unit := upd_i i (set i_addrs (insert k a)).
Definition get_addr (i : nat) (k : nat) : KM Z :=
  let* ip := get_i i in ret (nthZ (i_addrs ip) k).

(** [ip->addrs[k]], allocated when it is 0. *)
Definition addr_or_alloc (i : nat) (k : nat) : KM Z :=
  let* addr := get_addr i k in
  if negb (addr =? 0) then ret addr else
  let* ip := get_i i in
  let* addr := balloc (i_dev ip) in
  set_addr i k addr ;;
  ret addr.

Definition bmap (i : nat) (bn : Z) : KM Z :=
  if bn <? Z.of_nat NDIRECT then addr_or_alloc i (Z.to_nat bn) else
  let bn := bn - Z.of_nat NDIRECT in
  if negb (bn <? NINDIRECT) then panic "bmap: out of range" else
  let* addr := addr_or_alloc i NDIRECT in
  let* ip := get_i i in
  let* bp := bread fuel (i_dev ip) addr in
  let* buf := get_b bp in
  let addr := get_u32 (b_data buf) (Z.to_nat (4 * bn)) in
  let* addr := (if negb (addr =? 0) then ret addr else
    let* addr := balloc (i_dev ip) in
    upd_data bp (fun d => put_u32 d (Z.to_nat (4 * bn)) addr) ;;
    log_write bp ;;
    ret addr) in
  brelse bp ;;
  ret addr.

Definition itrunc (i : nat) : KM unit :=
  for_each (seq 0 NDIRECT) (fun k =>
    let* addr := get_addr i k in
    when (negb (addr =? 0)) (
      let* ip := get_i i in
      bfree (i_dev ip) addr ;;
      set_addr i k 0)) ;;
  let* addr := get_addr i NDIRECT in
  when (negb (addr =? 0)) (
    let* ip := get_i i in
    let* bp := bread fuel (i_dev ip) addr in
    for_each (seqZ 0 NINDIRECT) (fun j =>
      let* buf := get_b bp in
      let a := get_u32 (b_data buf) (Z.to_nat (4 * j)) in
      when (negb (a =? 0)) (bfree (i_dev ip) a)) ;;
    brelse bp ;;
    bfree (i_dev ip) addr ;;
    set_addr i NDIRECT 0) ;;
  upd_i i (fun ip => ip <| i_size := 0 |>) ;;
  iupdate i.

Definition iput (i : nat) : KM unit :=
  acquiresleep fuel (SLinode i) ;;
  let* ip := get_i i in
  when (negb (i_valid ip =? 0) && (i_nlink ip =? 0)) (
    acquire Licache ;;
    let* ip := get_i i in
    let r := i_ref ip in
    release Licache ;;
    when (r =? 1) (
      itrunc i ;;
      upd_i i (fun ip => ip <| i_type := 0 |>) ;;
      iupdate i ;;
      upd_i i (fun ip => ip <| i_valid := 0 |>))) ;;
  releasesleep (SLinode i) ;;
  acquire Licache ;;
  upd_i i (set i_ref (fun n => n - 1)) ;;
  release Licache.

Definition iunlockput (i : nat) : KM unit :=
  iunlock (Some i) ;;
  iput i.

(** [struct stat] in user memory: type, dev, ino, nlink, size at offsets
    0, 4, 8, 12, 16. *)
Definition stati (i : nat) (st : Z) : KM unit :=
  let* ip := get_i i in
  ustore32 (st + 4) (i_dev ip) ;;
  ustore32 (st + 8) (i_inum ip) ;;
  ustores st (le_bytes 2 (i_type ip)) ;;
  ustores (st + 12) (le_bytes 2 (i_nlink ip)) ;;
  ustore32 (st + 16) (i_size ip).

(** The copy loop of [readi]: every round but the first and the last moves a
    whole block. *)
Fixpoint readi_loop (rounds : nat) (i : nat) (dst : ptr) (off tot n : Z) : KM ptr :=
  if negb (tot <? n) then ret dst else
  match rounds with
  | O => nofuel
  | S rounds =>
      let* bno := bmap i (off / BSIZE) in
      let* ip := get_i i in
      let* bp := bread fuel (i_dev ip) bno in
      let m := Z.min (n - tot) (BSIZE - off mod BSIZE) in
      let* buf := get_b bp in
      let* dst := put dst (take (Z.to_nat m) (drop (Z.to_nat (off mod BSIZE)) (b_data buf))) in
      brelse bp ;;
      readi_loop rounds i dst (off + m) (tot + m) n
  end.

(** Result, and [dst] after the copy. *)
Definition readi (i : nat) (dst : ptr) (off n : Z) : KM (Z * ptr) :=
  let* ip := get_i i in
  if i_type ip =? T_DEV then
    if (i_major ip <? 0) || (NDEV <=? i_major ip) then ret (-1, dst) else
    match dv_read (devsw (i_major ip)) with
    | None => ret (-1, dst)
    | Some read => read i dst (i32 n)
    end
  else
  if (i_size ip <? off) || (u32 (off + n) <? off) then ret (-1, dst) else
  let n := if i_size ip <? u32 (off + n) then u32 (i_size ip - off) else n in
  let* dst := readi_loop (Z.to_nat (n / BSIZE + 2)) i dst off 0 n in
  ret (i32 n, dst).

Fixpoint writei_loop (rounds : nat) (i : nat) (src : ptr) (off tot n : Z) : KM unit :=
  if negb (tot <? n) then ret tt else
  match rounds with
  | O => nofuel
  | S rounds =>
      let* bno := bmap i (off / BSIZE) in
      let* ip := get_i i in
      let* bp := bread fuel (i_dev ip) bno in
      let m := Z.min (n - tot) (BSIZE - off mod BSIZE) in
      let* (bs, src) := fetch src (Z.to_nat m) in
      upd_data bp (fun d => splice d (Z.to_nat (off mod BSIZE)) bs) ;;
      log_write bp ;;
      brelse bp ;;
      writei_loop rounds i src (off + m) (tot + m) n
  end.

Definition writei (i : nat) (src : ptr) (off n : Z) : KM Z :=
  let* ip := get_i i in
  if i_type ip =? T_DEV then
    if (i_major ip <? 0) || (NDEV <=? i_major ip) then ret (-1) else
    match dv_write (devsw (i_major ip)) with
    | None => ret (-1)
    | Some write => write i src (i32 n)
    end
  else
  if (i_size ip <? off) || (u32 (off + n) <? off) then ret (-1) else
  if MAXFILE * BSIZE <? u32 (off + n) then ret (-1) else
  writei_loop (Z.to_nat (n / BSIZE + 2)) i src off 0 n ;;
  let* ip := get_i i in
  when ((0 <? n) && (i_size ip <? off + n)) (
    upd_i i (fun ip => ip <| i_size := off + n |>) ;;
    iupdate i) ;;
  ret (i32 n).

(** ** Directories *)

Definition namecmp (s t : list Z) : Z := strncmp s t DIRSIZ.

(** [readi] of the directory entry at [off] into a local [de]. *)
Definition read_dirent (dp : nat) (off : Z) (msg : string) : KM (list Z) :=
  let* (r, de) := readi dp (PLocal []) off DIRENT_SIZE in
  if negb (r =? DIRENT_SIZE) then panic msg else ret (local de).

(** The scan of [dirlookup]; the result carries [*poff]. *)
Fixpoint dirlookup_loop (n : nat) (dp : nat) (name : list Z) (off : Z) : KM (option (nat * Z)) :=
  let* ip := get_i dp in
  if negb (off <? i_size ip) then ret None else
  match n with
  | O => nofuel
  | S n =>
      let* de := read_dirent dp off "dirlookup read" in
      if de_inum de =? 0 then dirlookup_loop n dp name (off + DIRENT_SIZE) else
      if namecmp name (de_name de) =? 0 then
        let* ip := get_i dp in
        let* i := iget (i_dev ip) (de_inum de) in
        ret (Some (i, off))
      else dirlookup_loop n dp name (off + DIRENT_SIZE)
  end.

Definition dirlookup (dp : nat) (name : list Z) : KM (option (nat * Z)) :=
  let* ip := get_i dp in
  if negb (i_type ip =? T_DIR) then panic "dirlookup not DIR" else
  dirlookup_loop (S (Z.to_nat (i_size ip / DIRENT_SIZE))) dp name 0.

(** The offset [dirlink] writes at: the first free entry or the end. *)
Fixpoint dirlink_off (n : nat) (dp : nat) (off : Z) : KM Z :=
  let* ip := get_i dp in
  if negb (off <? i_size ip) then ret off else
  match n with
  | O => nofuel
  | S n =>
      let* de := read_dirent dp off "dirlink read" in
      if de_inum de =? 0 then ret off else dirlink_off n dp (off + DIRENT_SIZE)
  end.

Definition dirlink (dp : nat) (name : list Z) (inum : Z) : KM Z :=
  let* r := dirlookup dp name in
  match r with
  | Some (i, _) => iput i ;; ret (-1)
  | None =>
      let* ip := get_i dp in
      let* off := dirlink_off (S (Z.to_nat (i_size ip / DIRENT_SIZE))) dp 0 in
      let* r := writei dp (PLocal (dirent_bytes inum name)) off DIRENT_SIZE in
      if negb (r =? DIRENT_SIZE) then panic "dirlink" else ret 0
  end.

(** ** Paths: C strings without their terminating 0 *)

Definition slash : Z := 47.
Fixpoint skip_slashes (path : list Z) : list Z :=
  match path with
  | c :: rest => if c =? slash then skip_slashes rest else path
  | [] => []
  end.
(** The scan to the next slash or the end: what was passed, the rest. *)
Fixpoint elem (path : list Z) : list Z * list Z :=
  match path with
  | c :: rest => if c =? slash then ([], path) else let '(e, r) := elem rest in (c :: e, r)
  | [] => ([], [])
  end.

(** The element copied to [name] and the path after it. *)
Definition skipelem (path : list Z) : option (list Z * list Z) :=
  match skip_slashes path with
  | [] => None
  | path => let '(e, rest) := elem path in Some (take DIRSIZ e, skip_slashes rest)
  end.

(** The loop of [namex]; every round removes an element from [path]. *)
Fixpoint namex_loop (n : nat) (path : list Z) (nameiparent : bool) (name : list Z) (i : nat)
    : KM (option nat * list Z) :=
  match skipelem path with
  | None => if nameiparent then iput i ;; ret (None, name) else ret (Some i, name)
  | Some (name, path) =>
      match n with
      | O => nofuel
      | S n =>
          ilock (Some i) ;;
          let* ip := get_i i in
          if negb (i_type ip =? T_DIR) then iunlockput i ;; ret (None, name) else
          if nameiparent && bool_decide (path = []) then iunlock (Some i) ;; ret (Some i, name)
          else
          let* next := dirlookup i name in
          match next with
          | None => iunlockput i ;; ret (None, name)
          | Some (next, _) => iunlockput i ;; namex_loop n path nameiparent name next
          end
      end
  end.

Definition namex (path : list Z) (nameiparent : bool) : KM (option nat * list Z) :=
  let* i := (if chr path =? slash then iget ROOTDEV ROOTINO else
    let* c := curproc in
    let* p := get_p c in
    let* cwd := deref "null cwd" (p_cwd p) in
    idup cwd) in
  namex_loop (length path) path nameiparent [] i.

Definition namei (path : list Z) : KM (option nat) :=
  let* (r, _) := namex path false in ret r.
Definition nameiparent (path : list Z) : KM (option nat * list Z) := namex path true.
End fs.
