(* ===== verification/Blockmap.v ===== *)
(** * The blocks of a disk and of a file (fs.c)

    The disk is seen as a function [v] from block numbers to their bytes.  The
    bitmap says which blocks are in use ([used]); a file has slots for the
    numbers of its blocks ([slot]), in the inode and in the indirect block.
    [takes], [added] and [wrote] say how allocating a block, adding it to a
    file and writing to a file change the disk. *)

From stdpp Require Import base functions numbers list list_numbers strings.
From S2P Require Import Prelude Kmonad Params Kstate Bio Commit Fs.

Local Open Scope Z_scope.

(** ** Bits of a bitmap *)

Lemma land_bit x k : 0 <= k -> (Z.land x (Z.shiftl 1 k) =? 0) = negb (Z.testbit x k).
Proof.
  intros Hk. rewrite Z.shiftl_1_l. destruct (Z.testbit x k) eqn:E; simpl.
  - apply Z.eqb_neq. intros H. assert (Z.testbit (Z.land x (2 ^ k)) k = true) as Ht.
    { by rewrite Z.land_spec, E, Z.pow2_bits_true. }
    rewrite H, Z.bits_0 in Ht. done.
  - apply Z.eqb_eq, Z.bits_inj'. intros n Hn. rewrite Z.land_spec, Z.bits_0. destruct (Z.eq_dec n k) as [->|Hne].
    + by rewrite E.
    + by rewrite Z.pow2_bits_false, andb_false_r by lia.
Qed.

Lemma lor_bit x k n : 0 <= k -> 0 <= n -> Z.testbit (Z.lor x (Z.shiftl 1 k)) n = (n =? k) || Z.testbit x n.
Proof.
  intros Hk Hn. rewrite Z.shiftl_1_l, Z.lor_spec, orb_comm. f_equal. destruct (Z.eqb_spec n k) as [->|Hne].
  - by apply Z.pow2_bits_true.
  - apply Z.pow2_bits_false. lia.
Qed.

Section bitmap.
Context (sb : superblock).

(** Block [b] is in use, in the bitmap seen through [v]. *)
Definition used (v : Z -> list Z) (b : Z) : bool :=
  Z.testbit (nthZ (v (BBLOCK b sb)) (Z.to_nat (b mod BPB / 8))) (b mod 8).

(** The bitmap block with the bit of [r] set. *)
Definition set_bit (r : Z) (data : list Z) : list Z :=
  alter (fun x => Z.lor x (Z.shiftl 1 (r mod 8))) (Z.to_nat (r mod BPB / 8)) data.

Lemma mod8 b : (b mod BPB) mod 8 = b mod 8.
Proof. unfold BPB, BSIZE. apply (Z.mod_mod_divide b (512 * 8) 8). by exists 512. Qed.

Lemma bit_index b c : b / BPB = c / BPB -> b mod BPB / 8 = c mod BPB / 8 -> b mod 8 = c mod 8 -> b = c.
Proof.
  intros H1 H2 H3. pose proof (mod8 b) as Mb. pose proof (mod8 c) as Mc. unfold BPB, BSIZE in *.
  pose proof (Z.div_mod b (512 * 8) ltac:(lia)). pose proof (Z.div_mod c (512 * 8) ltac:(lia)).
  pose proof (Z.div_mod (b mod (512 * 8)) 8 ltac:(lia)). pose proof (Z.div_mod (c mod (512 * 8)) 8 ltac:(lia)). lia.
Qed.

Lemma nthZ_alter f i j (l : list Z) : (i < length l)%nat -> nthZ (alter f i l) j = if decide (j = i) then f (nthZ l j) else nthZ l j.
Proof.
  intros Hi. unfold nthZ. case_decide as E.
  - subst j. destruct (lookup_lt_is_Some_2 l i Hi) as [x Hx]. by rewrite list_lookup_alter_eq, Hx.
  - by rewrite list_lookup_alter_ne by congruence.
Qed.

Lemma bit_byte r : (Z.to_nat (r mod BPB / 8) < Z.to_nat BSIZE)%nat.
Proof.
  unfold BPB, BSIZE. pose proof (Z.mod_pos_bound r (512 * 8) ltac:(lia)).
  pose proof (Z.div_lt_upper_bound (r mod (512 * 8)) 8 512 ltac:(lia) ltac:(lia)). pose proof (Z.div_pos (r mod (512 * 8)) 8 ltac:(lia) ltac:(lia)). lia.
Qed.

(** After the bit of [r] is set, exactly [r] is used besides the used ones. *)
Lemma used_set v v' r b : 0 <= b -> 0 <= r -> length (v (BBLOCK r sb)) = Z.to_nat BSIZE ->
  (BBLOCK b sb = BBLOCK r sb -> b / BPB = r / BPB) ->
  (forall n, v' n = if decide (n = BBLOCK r sb) then set_bit r (v n) else v n) ->
  used v' b = (b =? r) || used v b.
Proof.
  intros Hb Hr Hlen Hdiv Hv. unfold used. rewrite Hv. case_decide as E.
  - rewrite E. unfold set_bit. rewrite nthZ_alter by (rewrite Hlen; apply bit_byte). case_decide as Ei.
    + rewrite lor_bit by (apply Z.mod_pos_bound; lia). f_equal.
      destruct (Z.eqb_spec b r) as [->|Hne]; [by rewrite Z.eqb_refl|]. apply Z.eqb_neq. intros Em. apply Hne, bit_index; [by apply Hdiv| |done].
      apply Z2Nat.inj in Ei; [done|..]; apply Z.div_pos; try lia; apply Z.mod_pos_bound; unfold BPB, BSIZE; lia.
    + destruct (Z.eqb_spec b r) as [->|]; [done|done].
  - destruct (Z.eqb_spec b r) as [->|]; [done|done].
Qed.
End bitmap.

(** ** Inodes in their block *)

(** A dinode whose fields fit: three shorts and a link count, a size and
    block numbers. *)
Definition dinode_ok (d : dinode) : Prop :=
  Forall (fun x => - 2 ^ 15 <= x < 2 ^ 15) [d_type d; d_major d; d_minor d; d_nlink d] /\
  0 <= d_size d < 2 ^ 32 /\ Forall (fun x => 0 <= x < 2 ^ 32) (d_addrs d) /\ length (d_addrs d) = S NDIRECT.

Lemma drop_splice (l : list Z) i bs k n : (i + length bs <= length l)%nat -> (k + n <= length bs)%nat ->
  take n (drop (i + k) (splice l i bs)) = take n (drop k bs).
Proof.
  intros Hl Hk. apply list_eq. intros j. destruct (decide (j < n)%nat); [|by rewrite !lookup_take_ge by lia].
  rewrite !lookup_take_lt, !lookup_drop by done. rewrite lookup_splice_in by lia. f_equal. lia.
Qed.
Lemma drop_splice_out (l : list Z) i bs k n : (k + n <= i \/ i + length bs <= k)%nat ->
  take n (drop k (splice l i bs)) = take n (drop k l).
Proof.
  intros Hk. apply list_eq. intros j. destruct (decide (j < n)%nat); [|by rewrite !lookup_take_ge by lia].
  rewrite !lookup_take_lt, !lookup_drop by done. destruct Hk; [apply lookup_splice_lt; lia|apply lookup_splice_ge; lia].
Qed.

Lemma drop_le_bytes n x (l : list Z) k : drop (n + k) (le_bytes n x ++ l) = drop k l.
Proof. rewrite drop_app_ge; rewrite length_le_bytes; [f_equal; lia|lia]. Qed.
Lemma take_le_bytes n x (l : list Z) : take n (le_bytes n x ++ l) = le_bytes n x.
Proof. by rewrite take_app_length' by (by rewrite length_le_bytes). Qed.
Lemma length_words (l : list Z) : length (flat_map (le_bytes 4) l) = (4 * length l)%nat.
Proof. induction l as [|x l IH]; cbn [flat_map length]; [done|]. rewrite length_app, length_le_bytes, IH. lia. Qed.

Lemma nth_word (l : list Z) k : (k < length l)%nat -> of_le (take 4 (drop (4 * k) (flat_map (le_bytes 4) l))) = u32 (nthZ l k).
Proof.
  revert k. induction l as [|x l IH]; intros [|k] Hk; cbn [length flat_map] in *; [lia|lia| |].
  - rewrite Nat.mul_0_r, drop_0, take_le_bytes. apply of_le_le4.
  - replace (4 * S k)%nat with (4 + 4 * k)%nat by lia. rewrite drop_le_bytes, IH by lia. done.
Qed.

Lemma length_dinode_bytes d : length (d_addrs d) = S NDIRECT -> length (dinode_bytes d) = 64%nat.
Proof. intros H. unfold dinode_bytes. rewrite !length_app, !length_le_bytes, length_words, H. done. Qed.

Lemma i16_le2 x : - 2 ^ 15 <= x < 2 ^ 15 -> i16 (of_le (le_bytes 2 x)) = x.
Proof.
  intros Hx. rewrite of_le_bytes. change (256 ^ Z.of_nat 2) with (2 ^ 16). unfold i16. rewrite Z.add_mod_idemp_l by lia.
  rewrite Z.mod_small; lia.
Qed.

(** An inode written to its place in the block is read back from there. *)
Lemma dinode_at_splice l off d : dinode_ok d -> (off + 64 <= length l)%nat -> dinode_at (splice l off (dinode_bytes d)) off = d.
Proof.
  intros (Hs & Hsz & Ha & Hl) Hoff. pose proof (length_dinode_bytes d Hl) as Hlen.
  assert (forall k n, (k + n <= 64)%nat -> take n (drop (off + k) (splice l off (dinode_bytes d))) = take n (drop k (dinode_bytes d))) as Hget.
  { intros k n Hk. apply drop_splice; lia. }
  unfold dinode_at, get_u16, get_u32. pose proof (Hget 0%nat 2%nat ltac:(lia)) as H0. rewrite Nat.add_0_r, drop_0 in H0.
  rewrite H0, !Hget by lia. unfold dinode_bytes in *. clear H0.
  destruct d as [ty ma mi nl si ad]; cbn [d_type d_major d_minor d_nlink d_size d_addrs] in *.
  rewrite !Forall_cons in Hs. destruct Hs as (H1 & H2 & H3 & H4 & _).
  pose proof (fun l k x => drop_le_bytes 2 x l k) as D2. f_equal.
  - by rewrite take_le_bytes, i16_le2.
  - by rewrite (D2 _ 0%nat), drop_0, take_le_bytes, i16_le2.
  - by rewrite (D2 _ 2%nat), (D2 _ 0%nat), drop_0, take_le_bytes, i16_le2.
  - by rewrite (D2 _ 4%nat), (D2 _ 2%nat), (D2 _ 0%nat), drop_0, take_le_bytes, i16_le2.
  - by rewrite (D2 _ 6%nat), (D2 _ 4%nat), (D2 _ 2%nat), (D2 _ 0%nat), drop_0, take_le_bytes, of_le_le4, u32_small.
  - apply list_eq. intros k. rewrite list_lookup_fmap. destruct (decide (k < S NDIRECT)%nat) as [Hk|Hk].
    + rewrite lookup_seq_lt by done. cbn [fmap option_fmap option_map]. rewrite Nat.add_0_l, <- Nat.add_assoc, Hget by (unfold NDIRECT in Hk; lia).
      change (12 + 4 * k)%nat with (2 + (2 + (2 + (2 + (4 + 4 * k)))))%nat. rewrite !D2, drop_le_bytes, nth_word by lia.
      unfold nthZ. destruct (lookup_lt_is_Some_2 ad k) as [x Hx]; [lia|]. rewrite Hx. cbn. rewrite u32_small; [done|].
      rewrite Forall_lookup in Ha. by eapply Ha.
    + rewrite !lookup_ge_None_2; [done|lia|rewrite length_seq; lia].
Qed.

(** The other inodes of the block keep their bytes. *)
Lemma dinode_at_splice_out l off d off' : length (d_addrs d) = S NDIRECT -> (off' + 64 <= off \/ off + 64 <= off')%nat ->
  dinode_at (splice l off (dinode_bytes d)) off' = dinode_at l off'.
Proof.
  intros Hl Hoff. pose proof (length_dinode_bytes d Hl) as Hlen. unfold dinode_at, get_u16, get_u32.
  rewrite !drop_splice_out by (rewrite Hlen; lia). f_equal. apply map_ext_in. intros k Hk%in_seq. unfold NDIRECT in Hk.
  by rewrite drop_splice_out by (rewrite Hlen; lia).
Qed.

(** ** The layout of the disk *)

(** As mkfs lays it out: superblock, log, inodes, bitmap, and the data from
    block [ds] on. *)
Class Layout (size ls : Z) (sb : superblock) (ds : Z) : Prop := {
  lay_disk : 0 <= ls /\ ls + LOGSIZE <= size /\ size <= 2 ^ 31;
  lay_log : 1 < ls /\ ls + LOGSIZE <= sb_inodestart sb;
  lay_inodes : 1 <= sb_ninodes sb /\ sb_inodestart sb + (sb_ninodes sb - 1) / IPB < sb_bmapstart sb;
  lay_bmap : sb_bmapstart sb < ds /\ sb_bmapstart sb + (sb_size sb - 1) / BPB < ds;
  lay_data : ds <= sb_size sb <= size
}.

Section blockmap.
Context {size ls : Z} {sb : superblock} {ds : Z} {Hlay : Layout size ls sb ds}.

Abbreviation used := (used sb).

Lemma BPB_pos : 0 < BPB.
Proof. done. Qed.

Lemma start_pos : 31 < sb_inodestart sb <= sb_bmapstart sb /\ 0 <= ls < 2 ^ 31.
Proof.
  destruct Hlay as [L0 L1 [L2 L2'] _ _]. change LOGSIZE with 30 in *. pose proof (Z.div_pos (sb_ninodes sb - 1) IPB ltac:(lia) ltac:(done)). lia.
Qed.

Lemma BBLOCK_at b : 0 <= b < sb_size sb -> BBLOCK b sb = b / BPB + sb_bmapstart sb /\ sb_bmapstart sb <= BBLOCK b sb < ds.
Proof.
  intros Hb. pose proof start_pos. destruct Hlay as [L0 _ _ L3 L4].
  pose proof (Z.div_pos b BPB ltac:(lia) BPB_pos). pose proof (Z.div_le_mono b (sb_size sb - 1) BPB BPB_pos ltac:(lia)).
  assert (BBLOCK b sb = b / BPB + sb_bmapstart sb) as E by (apply u32_small; lia). rewrite E. lia.
Qed.

Lemma meta_block b : 0 <= b < sb_size sb -> data_block size ls (BBLOCK b sb) /\ BBLOCK b sb <> 1.
Proof.
  intros Hb. destruct (BBLOCK_at b Hb) as [_ Hr]. pose proof start_pos. destruct Hlay as [L0 L1 _ _ L4].
  unfold data_block. change LOGSIZE with 30 in *. lia.
Qed.
Lemma file_block b : ds <= b < sb_size sb -> data_block size ls b /\ b <> 1 /\ 0 <= b < size.
Proof.
  intros Hb. pose proof start_pos. destruct Hlay as [L0 L1 _ L3 L4]. unfold data_block. change LOGSIZE with 30 in *. lia.
Qed.

(** Block [r] was the first free one and is taken: its bit is set and it is
    zeroed. *)
Record takes (v : Z -> list Z) (r : Z) (v' : Z -> list Z) : Prop := {
  ta_range : ds <= r < sb_size sb;
  ta_free : used v r = false;
  ta_first b : 0 <= b < r -> used v b = true;
  ta_used b : 0 <= b < sb_size sb -> used v' b = (b =? r) || used v b;
  ta_zero : v' r = zero_block;
  ta_same n : n <> r -> n < sb_bmapstart sb \/ ds <= n -> v' n = v n
}.

Lemma used_ext v v' b : v' (BBLOCK b sb) = v (BBLOCK b sb) -> used v' b = used v b.
Proof. unfold Blockmap.used. by intros ->. Qed.

Lemma takes_ext v v1 r v' : (forall n, v1 n = v n) -> takes v1 r v' -> takes v r v'.
Proof.
  intros E [T1 T2 T3 T4 T5 T6]. assert (forall b, used v1 b = used v b) as Eu by (intros b; by apply used_ext).
  split; [done|by rewrite <- Eu| | |done|].
  - intros b Hb. rewrite <- Eu. by apply T3.
  - intros b Hb. rewrite <- Eu. by apply T4.
  - intros n Hn Hr. rewrite <- E. by apply T6.
Qed.

Lemma takes_intro v r v1 v' :
  0 <= r < sb_size sb -> used v r = false -> (forall b, 0 <= b < r -> used v b = true) -> (forall b, 0 <= b < ds -> used v b = true) ->
  length (v (BBLOCK r sb)) = Z.to_nat BSIZE ->
  (forall n, v1 n = if decide (n = BBLOCK r sb) then set_bit r (v n) else v n) ->
  (forall n, v' n = if decide (n = r) then zero_block else v1 n) -> takes v r v'.
Proof.
  intros Hr Hfree Hfirst Hmeta Hlen H1 H2.
  assert (ds <= r) as Hds. { destruct (Z.le_gt_cases ds r); [done|]. rewrite Hmeta in Hfree by lia. done. }
  destruct (BBLOCK_at r Hr) as [Er Hbr]. split; [lia|done|done| | |].
  - intros b Hb. destruct (BBLOCK_at b Hb) as [Eb Hbb]. rewrite <- (used_set sb v v1 r b); [|lia|lia|done|lia|done].
    apply used_ext. by rewrite H2, decide_False by lia.
  - by rewrite H2, decide_True.
  - intros n Hn Hnn. rewrite H2, decide_False by done. by rewrite H1, decide_False by lia.
Qed.

Lemma bit_at b bi : b mod BPB = 0 -> 0 <= bi < BPB -> 0 <= b ->
  (b + bi) mod BPB = bi /\ BBLOCK (b + bi) sb = BBLOCK b sb /\ (b + bi) mod 8 = bi mod 8.
Proof.
  intros Hb Hbi H0. assert ((b + bi) mod BPB = bi) as E.
  { rewrite Z.add_mod, Hb, Z.add_0_l, Z.mod_mod by done. by apply Z.mod_small. }
  split_and!; [done| |by rewrite <- mod8, E]. unfold BBLOCK. do 2 f_equal.
  apply Z.mod_divide in Hb as [j ->]; [|done]. rewrite Z.div_add_l, Z.div_mul, Z.div_small by done. lia.
Qed.

Lemma takes_meta v r v' : takes v r v' -> (forall b, 0 <= b < ds -> used v b = true) -> forall b, 0 <= b < ds -> used v' b = true.
Proof. intros Ht Hm b Hb. pose proof lay_data. rewrite (ta_used _ _ _ Ht) by lia. by rewrite Hm, orb_true_r. Qed.

(** ** The blocks of a file

    An inode has [NSLOT] slots for block numbers, 0 when there is no block:
    slots 0 to [NDIRECT - 1] and the indirect block in its array, the others in
    the indirect block.  [pos bn]: the slot of block [bn] of the file. *)

Definition NSLOT : nat := S (Z.to_nat MAXFILE).
Definition slot (v : Z -> list Z) (a : list Z) (k : nat) : Z :=
  if decide (k <= NDIRECT)%nat then nthZ a k
  else if nthZ a NDIRECT =? 0 then 0 else get_u32 (v (nthZ a NDIRECT)) (4 * (k - S NDIRECT)).
Definition pos (bn : nat) : nat := if decide (bn < NDIRECT)%nat then bn else S bn.

(** Byte [o] of a file. *)
Definition byte_at (v : Z -> list Z) (a : list Z) (o : nat) : Z := nthZ (v (slot v a (pos (o / 512)))) (o mod 512).

(** The blocks of a file are distinct, in the data area and in use. *)
Record file_ok (v : Z -> list Z) (a : list Z) : Prop := {
  fo_len : length a = S NDIRECT;
  fo_slot k : (k < NSLOT)%nat -> slot v a k <> 0 -> ds <= slot v a k < sb_size sb /\ used v (slot v a k) = true;
  fo_inj k j : (k < NSLOT)%nat -> (j < NSLOT)%nat -> slot v a k <> 0 -> slot v a k = slot v a j -> k = j
}.

(** From [v], [a] to [v'], [a'] the bytes [bs] were written at [off]: blocks
    may have been added to the file, and nothing else has changed. *)
Record wrote (v : Z -> list Z) (a : list Z) (v' : Z -> list Z) (a' : list Z) (off : nat) (bs : list Z) : Prop := {
  wr_slot k : (k < NSLOT)%nat -> slot v a k <> 0 -> slot v' a' k = slot v a k;
  wr_fresh k : (k < NSLOT)%nat -> slot v a k = 0 -> slot v' a' k <> 0 -> used v (slot v' a' k) = false;
  wr_used b : 0 <= b < sb_size sb -> used v b = true -> used v' b = true;
  wr_new b : ds <= b < sb_size sb -> used v' b = true -> used v b = true \/ exists k, (k < NSLOT)%nat /\ slot v' a' k = b;
  wr_low n : n < sb_bmapstart sb -> v' n = v n;
  wr_other b : ds <= b < sb_size sb -> used v b = true -> (forall k, (k < NSLOT)%nat -> slot v a k <> b) -> v' b = v b;
  wr_mapped o : (off <= o < off + length bs)%nat -> slot v' a' (pos (o / 512)) <> 0;
  wr_in o : (off <= o < off + length bs)%nat -> byte_at v' a' o = nthZ bs (o - off);
  wr_out o : (o / 512 < Z.to_nat MAXFILE)%nat -> (o < off \/ off + length bs <= o)%nat -> slot v a (pos (o / 512)) <> 0 ->
    byte_at v' a' o = byte_at v a o;
  wr_zero o : (o / 512 < Z.to_nat MAXFILE)%nat -> (o < off \/ off + length bs <= o)%nat -> slot v a (pos (o / 512)) = 0 ->
    slot v' a' (pos (o / 512)) <> 0 -> byte_at v' a' o = 0
}.

Lemma pos_lt bn : (bn < Z.to_nat MAXFILE)%nat -> (pos bn < NSLOT)%nat /\ pos bn <> NDIRECT.
Proof. unfold pos, NSLOT. change (Z.to_nat MAXFILE) with 140%nat. unfold NDIRECT. case_decide; lia. Qed.

Lemma data_pos b : ds <= b -> b <> 0.
Proof. pose proof start_pos. destruct Hlay as [_ _ _ L3 _]. lia. Qed.

Lemma slot_ext v v' a k : (forall n, v' n = v n) -> slot v' a k = slot v a k.
Proof. intros E. unfold slot. by rewrite E. Qed.
Lemma byte_at_ext v v' a o : (forall n, v' n = v n) -> byte_at v' a o = byte_at v a o.
Proof. intros E. unfold byte_at. by rewrite (slot_ext v v'), E. Qed.
Lemma file_ok_ext v v' a : (forall n, v' n = v n) -> file_ok v a -> file_ok v' a.
Proof.
  intros E [Hl Hs Hi]. split; [done|..].
  - intros k Hk. rewrite (slot_ext v v'), (used_ext v v') by done. by apply Hs.
  - intros k j. rewrite !(slot_ext v v') by done. apply Hi.
Qed.

Lemma in_block o j : (o mod 512 + j < 512)%nat -> ((o + j) / 512 = o / 512 /\ (o + j) mod 512 = o mod 512 + j)%nat.
Proof.
  intros Hj. pose proof (Nat.div_mod_eq o 512). pose proof (Nat.div_mod_eq (o + j) 512).
  assert (o / 512 = (o + j) / 512)%nat by (apply (Nat.div_unique _ _ _ (o mod 512 + j)); lia). lia.
Qed.

(** The bytes of a file from [o] on, within one block. *)
Lemma block_bytes v a o m : (o mod 512 + m <= 512)%nat -> length (v (slot v a (pos (o / 512)))) = Z.to_nat BSIZE ->
  take m (drop (o mod 512) (v (slot v a (pos (o / 512))))) = map (byte_at v a) (seq o m).
Proof.
  intros Hm Hlen. change (Z.to_nat BSIZE) with 512%nat in Hlen. apply list_eq. intros j. destruct (decide (j < m)%nat) as [Hj|Hj].
  - rewrite lookup_take_lt, lookup_drop, list_lookup_fmap, lookup_seq_lt by done. cbn [option_map fmap option_fmap]. unfold byte_at, nthZ.
    destruct (in_block o j) as [-> ->]; [lia|]. destruct (lookup_lt_is_Some_2 (v (slot v a (pos (o / 512)))) (o mod 512 + j)) as [x ->]; [lia|done].
  - rewrite !lookup_ge_None_2; [done|rewrite length_fmap, length_seq; lia|rewrite length_take; lia].
Qed.

Section trans.
Context (v : Z -> list Z) (a : list Z) (v1 : Z -> list Z) (a1 : list Z) (v2 : Z -> list Z) (a2 : list Z) (off : nat) (bs bs2 : list Z).
Hypothesis Hmax : forall o, (off <= o < off + length bs + length bs2)%nat -> (o / 512 < Z.to_nat MAXFILE)%nat.
Hypothesis Hok2 : file_ok v2 a2.
Hypothesis W1 : wrote v a v1 a1 off bs.
Hypothesis W2 : wrote v1 a1 v2 a2 (off + length bs) bs2.

Lemma trans_keep k : (k < NSLOT)%nat -> slot v a k <> 0 -> slot v1 a1 k <> 0.
Proof. intros Hk Hs. by rewrite (wr_slot _ _ _ _ _ _ W1). Qed.

Lemma trans_fresh k : (k < NSLOT)%nat -> slot v a k = 0 -> slot v2 a2 k <> 0 -> used v (slot v2 a2 k) = false.
Proof.
  intros Hk Hs Hs2. destruct (Z.eq_dec (slot v1 a1 k) 0) as [E|E].
  - pose proof (wr_fresh _ _ _ _ _ _ W2 k Hk E Hs2) as Hf. destruct (used v (slot v2 a2 k)) eqn:Eu; [|done].
    destruct (fo_slot _ _ Hok2 k Hk Hs2) as [Hr _]. pose proof start_pos. pose proof lay_bmap.
    rewrite (wr_used _ _ _ _ _ _ W1) in Hf; [done|lia|done].
  - rewrite (wr_slot _ _ _ _ _ _ W2) by done. by apply (wr_fresh _ _ _ _ _ _ W1).
Qed.

Lemma trans_other b : ds <= b < sb_size sb -> used v b = true -> (forall k, (k < NSLOT)%nat -> slot v a k <> b) -> v2 b = v b.
Proof.
  intros Hb Hu Hno. pose proof start_pos. pose proof lay_bmap. pose proof (data_pos b ltac:(lia)) as Hb0.
  rewrite (wr_other _ _ _ _ _ _ W2), (wr_other _ _ _ _ _ _ W1); [done|done|done|done|done|by apply (wr_used _ _ _ _ _ _ W1); [lia|]|].
  intros k Hk E. destruct (Z.eq_dec (slot v a k) 0) as [E0|E0].
  - pose proof (wr_fresh _ _ _ _ _ _ W1 k Hk E0 ltac:(congruence)). congruence.
  - apply (Hno k Hk). by rewrite <- (wr_slot _ _ _ _ _ _ W1).
Qed.

Lemma wrote_trans : wrote v a v2 a2 off (bs ++ bs2).
Proof.
  assert (forall o, (off <= o < off + length bs + length bs2)%nat -> (pos (o / 512) < NSLOT)%nat) as Hp by (intros o Ho; by apply pos_lt, Hmax).
  split; try rewrite length_app.
  - intros k Hk Hs. rewrite (wr_slot _ _ _ _ _ _ W2), (wr_slot _ _ _ _ _ _ W1); auto using trans_keep.
  - apply trans_fresh.
  - intros b Hb Hu. by apply (wr_used _ _ _ _ _ _ W2), (wr_used _ _ _ _ _ _ W1).
  - intros b Hb Hu. destruct (wr_new _ _ _ _ _ _ W2 b Hb Hu) as [Hu1|]; [|by right].
    destruct (wr_new _ _ _ _ _ _ W1 b Hb Hu1) as [|(k & Hk & E)]; [by left|]. right. exists k. split; [done|].
    pose proof (data_pos b ltac:(lia)). by rewrite (wr_slot _ _ _ _ _ _ W2) by congruence.
  - intros n Hn. by rewrite (wr_low _ _ _ _ _ _ W2), (wr_low _ _ _ _ _ _ W1).
  - apply trans_other.
  - intros o Ho. destruct (decide (o < off + length bs)%nat) as [Hlt|Hge]; [|apply (wr_mapped _ _ _ _ _ _ W2); lia].
    rewrite (wr_slot _ _ _ _ _ _ W2); [apply (wr_mapped _ _ _ _ _ _ W1); lia|apply Hp; lia|apply (wr_mapped _ _ _ _ _ _ W1); lia].
  - intros o Ho. destruct (decide (o < off + length bs)%nat) as [Hlt|Hge].
    + rewrite (wr_out _ _ _ _ _ _ W2); [|apply Hmax; lia|lia|apply (wr_mapped _ _ _ _ _ _ W1); lia].
      rewrite (wr_in _ _ _ _ _ _ W1) by lia. unfold nthZ. by rewrite lookup_app_l by lia.
    + rewrite (wr_in _ _ _ _ _ _ W2) by lia. unfold nthZ. rewrite lookup_app_r by lia. do 2 f_equal. lia.
  - intros o Hm Ho Hs. rewrite (wr_out _ _ _ _ _ _ W2), (wr_out _ _ _ _ _ _ W1); [done|done|lia|done|done|lia|].
    apply trans_keep; [by apply pos_lt|done].
  - intros o Hm Ho Hs Hs2. destruct (Z.eq_dec (slot v1 a1 (pos (o / 512))) 0) as [E|E]; [apply (wr_zero _ _ _ _ _ _ W2); (done || lia)|].
    rewrite (wr_out _ _ _ _ _ _ W2) by (done || lia). apply (wr_zero _ _ _ _ _ _ W1); (done || lia).
Qed.
End trans.

(** Block [r], free before, was put in slot [k], which was empty. *)
Record added (v : Z -> list Z) (a : list Z) (k : nat) (r : Z) (v' : Z -> list Z) (a' : list Z) : Prop := {
  ad_k : (k < NSLOT)%nat;
  ad_empty : slot v a k = 0;
  ad_range : ds <= r < sb_size sb;
  ad_free : used v r = false;
  ad_len : length a' = S NDIRECT;
  ad_slot : slot v' a' k = r;
  ad_slots j : (j < NSLOT)%nat -> j <> k -> slot v' a' j = slot v a j;
  ad_used b : 0 <= b < sb_size sb -> used v' b = (b =? r) || used v b;
  ad_same n : n <> r -> (n = nthZ a NDIRECT -> n = 0) -> n < sb_bmapstart sb \/ ds <= n -> v' n = v n;
  ad_zero : v' r = zero_block
}.

Lemma data_nonneg b : ds <= b < sb_size sb -> 0 <= b < sb_size sb.
Proof. pose proof start_pos. destruct Hlay as [_ _ _ L3 _]. lia. Qed.

Lemma indirect_slot : (NDIRECT < NSLOT)%nat.
Proof. unfold NSLOT. change (Z.to_nat MAXFILE) with 140%nat. unfold NDIRECT. lia. Qed.
Lemma slot_indirect v a : slot v a NDIRECT = nthZ a NDIRECT.
Proof. unfold slot. by rewrite decide_True by lia. Qed.
Lemma indirect_ok v a : file_ok v a -> nthZ a NDIRECT <> 0 -> ds <= nthZ a NDIRECT < sb_size sb /\ used v (nthZ a NDIRECT) = true.
Proof. rewrite <- (slot_indirect v). intros Hf. apply (fo_slot _ _ Hf), indirect_slot. Qed.

(** A change before the bitmap changes no file. *)
Section low.
Context (v v' : Z -> list Z) (a : list Z).
Hypothesis Hok : file_ok v a.
Hypothesis Hv : forall n, sb_bmapstart sb <= n -> v' n = v n.

Lemma used_low b : 0 <= b < sb_size sb -> used v' b = used v b.
Proof. intros Hb. apply used_ext, Hv. destruct (BBLOCK_at b Hb). lia. Qed.
Lemma slot_low k : slot v' a k = slot v a k.
Proof.
  unfold slot. case_decide; [done|]. destruct (Z.eqb_spec (nthZ a NDIRECT) 0) as [|Hi]; [done|]. rewrite Hv; [done|].
  destruct (indirect_ok _ _ Hok Hi). pose proof lay_bmap. lia.
Qed.
Lemma file_ok_low : file_ok v' a.
Proof.
  destruct Hok as [H1 H2 H3]. split; [done|..].
  - intros k Hk. rewrite slot_low. intros Hs. destruct (H2 k Hk Hs) as [Hr Hu]. split; [done|]. by rewrite used_low by (by apply data_nonneg).
  - intros k j. rewrite !slot_low. apply H3.
Qed.
Lemma byte_low o : (o / 512 < Z.to_nat MAXFILE)%nat -> slot v a (pos (o / 512)) <> 0 -> byte_at v' a o = byte_at v a o.
Proof.
  intros Hm Hs. unfold byte_at. rewrite slot_low, Hv; [done|]. destruct (pos_lt _ Hm) as [Hp _].
  destruct (fo_slot _ _ Hok _ Hp Hs). pose proof lay_bmap. lia.
Qed.
End low.

Lemma added_ok v a k r v' a' : file_ok v a -> added v a k r v' a' -> file_ok v' a'.
Proof.
  intros [Fl Fs Fi] [Ak Ae Ar Af Al Asl Ass Au _ _]. split; [done|..].
  - intros j Hj Hs. destruct (decide (j = k)) as [->|Hne].
    + rewrite Asl. split; [done|]. rewrite Au by (by apply data_nonneg). by rewrite Z.eqb_refl.
    + rewrite (Ass j Hj Hne) in *. destruct (Fs j Hj Hs) as [Hr Hu]. split; [done|]. rewrite Au by (by apply data_nonneg).
      by rewrite Hu, orb_true_r.
  - assert (forall j, (j < NSLOT)%nat -> slot v a j <> r) as Hnr.
    { intros j Hj E. pose proof (data_pos r ltac:(lia)). destruct (Fs j Hj) as [_ Hu]; congruence. }
    intros j i Hj Hi Hs E. destruct (decide (j = k)) as [->|Hjk], (decide (i = k)) as [->|Hik]; [done|..].
    + rewrite Asl, Ass in E by done. by destruct (Hnr i).
    + rewrite Asl, Ass in E by done. by destruct (Hnr j).
    + rewrite !Ass in * by done. by apply Fi.
Qed.

Lemma nthZ_zero j : nthZ zero_block j = 0.
Proof.
  unfold nthZ, zero_block. destruct (decide (j < Z.to_nat BSIZE)%nat); [by rewrite lookup_replicate_2|].
  by rewrite lookup_ge_None_2 by (rewrite length_replicate; lia).
Qed.

Lemma added_wrote v a k r v' a' off : file_ok v a -> added v a k r v' a' -> wrote v a v' a' off [].
Proof.
  intros [Fl Fs Fi] [Ak Ae Ar Af Al Asl Ass Au Asm Az].
  assert (forall j, (j < NSLOT)%nat -> slot v a j <> 0 -> j <> k /\ slot v a j <> r) as Hnk.
  { intros j Hj Hs. split; [congruence|]. destruct (Fs j Hj Hs). congruence. }
  pose proof (slot_indirect v a) as Ei.
  split; [..|intros o Hm _ Hs|].
  - intros j Hj Hs. destruct (Hnk j Hj Hs). by apply Ass.
  - intros j Hj Hs Hs'. destruct (decide (j = k)) as [->|Hne]; [by rewrite Asl|]. rewrite Ass in Hs' by done. done.
  - intros b Hb Hu. by rewrite Au, Hu, orb_true_r.
  - intros b Hb Hu. rewrite Au in Hu by (by apply data_nonneg). destruct (Z.eqb_spec b r) as [->|]; [right|by left]. by exists k.
  - intros n Hn. pose proof lay_bmap. apply Asm; [lia| |by left]. intros ->. rewrite <- Ei in *.
    destruct (Z.eq_dec (slot v a NDIRECT) 0) as [|Hs]; [done|]. destruct (Fs NDIRECT indirect_slot Hs). lia.
  - intros b Hb Hu Hno. apply Asm; [congruence| |right; lia]. rewrite <- Ei. intros ->.
    by destruct (Hno NDIRECT indirect_slot).
  - simpl. lia.
  - simpl. lia.
  - destruct (pos_lt _ Hm) as [Hp Hp']. destruct (Hnk _ Hp Hs) as [Hpk Hpr]. unfold byte_at. rewrite Ass by done. f_equal.
    destruct (Fs _ Hp Hs) as [Hr _]. apply Asm; [done| |right; lia]. rewrite <- Ei. intros E. destruct Hp'.
    by apply Fi; [|apply indirect_slot|..].
  - intros o Hm _ Hs Hs'. destruct (pos_lt _ Hm) as [Hp _]. unfold byte_at. destruct (decide (pos (o / 512) = k)) as [E|E].
    + rewrite E, Asl, Az. apply nthZ_zero.
    + by rewrite Ass in Hs'.
Qed.

Lemma pos_inj x y : pos x = pos y -> x = y.
Proof. unfold pos. repeat case_decide; lia. Qed.

(** Bytes are written within one block of a file. *)
Section write_block.
Context (v : Z -> list Z) (a : list Z) (v' : Z -> list Z) (off : nat) (bs : list Z).
Hypothesis Hok : file_ok v a.
Hypothesis Hmax : (off / 512 < Z.to_nat MAXFILE)%nat.
Hypothesis Hs : slot v a (pos (off / 512)) <> 0.
Hypothesis Hin : (off mod 512 + length bs <= 512)%nat.
Hypothesis Hlen : length (v (slot v a (pos (off / 512)))) = Z.to_nat BSIZE.
Hypothesis Hv : forall n, v' n = if decide (n = slot v a (pos (off / 512))) then splice (v n) (off mod 512) bs else v n.

Lemma block_slot : ds <= slot v a (pos (off / 512)) < sb_size sb /\ used v (slot v a (pos (off / 512))) = true.
Proof. apply (fo_slot _ _ Hok); [by apply pos_lt|done]. Qed.

Lemma block_slots k : (k < NSLOT)%nat -> slot v' a k = slot v a k.
Proof.
  intros Hk. unfold slot at 1 2. case_decide; [done|]. destruct (Z.eqb_spec (nthZ a NDIRECT) 0) as [|Hi]; [done|].
  rewrite Hv, decide_False; [done|]. rewrite <- (slot_indirect v). intros E. destruct (pos_lt _ Hmax) as [Hp Hp']. destruct Hp'.
  by apply (fo_inj _ _ Hok); [..|apply indirect_slot| |].
Qed.

Lemma block_used b : 0 <= b < sb_size sb -> used v' b = used v b.
Proof. intros Hb. destruct (BBLOCK_at b Hb) as [_ Hr]. apply used_ext. rewrite Hv, decide_False; [done|]. pose proof block_slot. lia. Qed.

Lemma block_ok : file_ok v' a.
Proof.
  pose proof start_pos. pose proof lay_bmap. split; [apply Hok|..].
  - intros k Hk Hs'. rewrite block_slots in * by done. destruct (fo_slot _ _ Hok k Hk Hs') as [Hr Hu]. split; [done|]. rewrite block_used; [done|lia].
  - intros k j Hk Hj. rewrite !block_slots by done. by apply Hok.
Qed.

Lemma block_byte o : (o / 512 < Z.to_nat MAXFILE)%nat -> slot v a (pos (o / 512)) <> 0 ->
  byte_at v' a o = if decide (off <= o < off + length bs)%nat then nthZ bs (o - off) else byte_at v a o.
Proof.
  intros Hm Ho. destruct (pos_lt _ Hm) as [Hp _]. unfold byte_at. rewrite block_slots, Hv by done. change (Z.to_nat BSIZE) with 512%nat in Hlen.
  pose proof (Nat.div_mod_eq o 512). pose proof (Nat.div_mod_eq off 512). pose proof (Nat.mod_upper_bound o 512 ltac:(lia)). unfold nthZ.
  destruct (decide (slot v a (pos (o / 512)) = _)) as [E|E].
  - apply (fo_inj _ _ Hok) in E; [|done|by apply pos_lt|done]. apply pos_inj in E. case_decide.
    + rewrite lookup_splice_in by (rewrite ?E; lia). do 2 f_equal. lia.
    + f_equal. destruct (decide (o < off)%nat); [apply lookup_splice_lt; lia|apply lookup_splice_ge; lia].
  - rewrite decide_False; [done|]. intros Hr. apply E. do 2 f_equal. destruct (in_block off (o - off)) as [<- _]; [lia|]. f_equal. lia.
Qed.

Lemma block_wrote : wrote v a v' a off bs.
Proof.
  pose proof start_pos. pose proof lay_bmap. destruct block_slot as [Hr Hu].
  assert (forall o, (off <= o < off + length bs)%nat -> o / 512 = off / 512)%nat as Hdiv.
  { intros o Ho. destruct (in_block off (o - off)) as [<- _]; [lia|]. f_equal. lia. }
  split.
  - intros k Hk _. by apply block_slots.
  - intros k Hk E. by rewrite block_slots.
  - intros b Hb. by rewrite block_used.
  - intros b Hb. rewrite block_used by (apply data_nonneg; lia). by left.
  - intros n Hn. rewrite Hv, decide_False; [done|lia].
  - intros b Hb _ Hno. rewrite Hv, decide_False; [done|]. intros ->. by apply (Hno (pos (off / 512))); [apply pos_lt|].
  - intros o Ho. rewrite block_slots; [|apply pos_lt]; by rewrite (Hdiv o Ho).
  - intros o Ho. rewrite block_byte, decide_True; [done|done|..]; by rewrite (Hdiv o Ho).
  - intros o Hm Ho Hs'. rewrite block_byte, decide_False; [done|lia|done|done].
  - intros o Hm _ Hs' Hs2. by rewrite block_slots in Hs2 by (by apply pos_lt).
Qed.
End write_block.

Lemma get_zero off : get_u32 zero_block off = 0.
Proof.
  unfold get_u32, zero_block. rewrite drop_replicate, take_replicate. generalize (4 `min` (Z.to_nat BSIZE - off))%nat. intros n.
  induction n as [|n IH]; [done|]. cbn [replicate of_le]. by rewrite IH.
Qed.

Lemma nthZ_insert a (k j : nat) (r : Z) : (k < length a)%nat -> nthZ (<[k:=r]> a) j = if decide (j = k) then r else nthZ a j.
Proof. intros Hk. unfold nthZ. case_decide as E; [subst j; by rewrite list_lookup_insert_eq|by rewrite list_lookup_insert_ne]. Qed.

Lemma added_direct v a k r v' : file_ok v a -> (k <= NDIRECT)%nat -> slot v a k = 0 -> takes v r v' -> added v a k r v' (<[k:=r]> a).
Proof.
  intros Hf Hk Hs [Tr Tf _ Tu Tz Ts]. pose proof (fo_len _ _ Hf) as Hl.
  assert (k < length a)%nat as Hka by lia. pose proof (data_pos r ltac:(lia)) as Hr0. split; try done.
  - unfold NSLOT. change (Z.to_nat MAXFILE) with 140%nat. unfold NDIRECT in *. lia.
  - by rewrite length_insert.
  - unfold slot. rewrite decide_True by done. by rewrite nthZ_insert, decide_True.
  - intros j Hj Hne. unfold slot in *. rewrite decide_True in Hs by done. rewrite !nthZ_insert by done.
    destruct (decide (j <= NDIRECT)%nat); [by rewrite decide_False by done|]. case_decide as E; [|destruct (Z.eqb_spec (nthZ a NDIRECT) 0) as [|Hi]; [done|]].
    + rewrite <- E in Hs. rewrite Hs, Tz, get_zero. by case_match.
    + destruct (indirect_ok _ _ Hf Hi) as [Hd Hu]. rewrite Ts; [done|congruence|right; lia].
  - intros n Hn _ Hr. by apply Ts.
Qed.

Lemma added_indirect v a k r v1 v' :
  file_ok v a -> (NDIRECT < k < NSLOT)%nat -> nthZ a NDIRECT <> 0 -> slot v a k = 0 -> takes v r v1 ->
  length (v1 (nthZ a NDIRECT)) = Z.to_nat BSIZE ->
  (forall n, v' n = if decide (n = nthZ a NDIRECT) then put_u32 (v1 n) (4 * (k - S NDIRECT)) r else v1 n) -> added v a k r v' a.
Proof.
  intros Hf Hk Hi Hs [Tr Tf _ Tu Tz Ts] Hlen Hv. destruct (indirect_ok _ _ Hf Hi) as [Hd Hu].
  pose proof start_pos as Hst. pose proof lay_bmap as Hlb. pose proof lay_data as Hld. set (d := nthZ a NDIRECT) in *.
  assert (v1 d = v d) as Ed by (apply Ts; [congruence|right; lia]).
  assert (k - S NDIRECT < 128)%nat as Hk8. { unfold NSLOT in Hk. change (Z.to_nat MAXFILE) with 140%nat in Hk. unfold NDIRECT in *. lia. }
  change (Z.to_nat BSIZE) with 512%nat in Hlen. split; [lia|done|done|done|by apply fo_len in Hf|..].
  - unfold slot. rewrite decide_False by lia. fold d. destruct (Z.eqb_spec d 0); [done|]. rewrite Hv, decide_True by done.
    rewrite get_put_u32 by lia. pose proof lay_disk. apply u32_small. lia.
  - intros j Hj Hne. unfold slot. destruct (decide (j <= NDIRECT)%nat); [done|]. fold d. destruct (Z.eqb_spec d 0); [done|].
    rewrite Hv, decide_True, Ed by done. apply get_put_u32_ne. lia.
  - intros b Hb. rewrite <- Tu by done. apply used_ext. rewrite Hv, decide_False; [done|]. destruct (BBLOCK_at b Hb). lia.
  - intros n Hn Hnd Hr. rewrite Hv. case_decide as E; [|by apply Ts]. specialize (Hnd E). lia.
  - rewrite Hv, decide_False; [done|]. congruence.
Qed.
(** At least [m] blocks are free. *)
Definition room (m : nat) (v : Z -> list Z) : Prop :=
  exists l, NoDup l /\ length l = m /\ Forall (fun b => 0 <= b < sb_size sb /\ used v b = false) l.

Lemma room_free m v : room (S m) v -> exists f, 0 <= f < sb_size sb /\ used v f = false.
Proof. intros ([|f l] & _ & Hlen & Hl); [done|]. inversion Hl. by exists f. Qed.
Lemma room_le m n v : (m <= n)%nat -> room n v -> room m v.
Proof.
  intros Hmn (l & Hd & Hlen & Hl). exists (take m l). split_and!; [|rewrite length_take; lia|by apply Forall_take].
  eapply sublist_NoDup; [exact Hd|apply sublist_take].
Qed.
Lemma room_kept v v' m : (forall b, 0 <= b < sb_size sb -> used v' b = used v b) -> room m v -> room m v'.
Proof.
  intros E (l & Hd & Hlen & Hl). exists l. split_and!; [done|done|]. eapply Forall_impl; [exact Hl|]. intros b [Hb Hu].
  by rewrite (E b Hb).
Qed.

Lemma room_taken m v r v' : room (S m) v -> (forall b, 0 <= b < sb_size sb -> used v' b = (b =? r) || used v b) -> room m v'.
Proof.
  intros (l & Hd & Hlen & Hl) Hu.
  assert (exists l', NoDup l' /\ length l' = m /\ (r ∉ l') /\ Forall (fun b => 0 <= b < sb_size sb /\ used v b = false) l') as (l' & Hd' & Hlen' & Hr & Hl').
  { destruct (decide (r ∈ l)) as [Hin|Hin].
    - apply list_elem_of_split in Hin as (l1 & l2 & ->). rewrite length_app in Hlen. simpl in Hlen.
      apply Forall_app in Hl as [H1 H2]. inversion H2. rewrite <- Permutation_middle in Hd. apply NoDup_cons in Hd as [Hnr Hd].
      exists (l1 ++ l2). split_and!; [done|rewrite length_app; lia|done|by apply Forall_app].
    - destruct l as [|x l]; [done|]. apply NoDup_cons in Hd as [_ Hd]. inversion Hl. injection Hlen as Hlen.
      exists l. split_and!; [done|done|by intros ?; apply Hin; right|done]. }
  exists l'. split_and!; [done|done|]. apply Forall_forall. intros b Hb. rewrite Forall_forall in Hl'. destruct (Hl' b Hb) as [Hrg Hf].
  split; [done|]. rewrite Hu, Hf by done. by destruct (Z.eqb_spec b r) as [->|].
Qed.
End blockmap.

Arguments takes : clear implicits.
Arguments file_ok : clear implicits.
Arguments wrote : clear implicits.
Arguments added : clear implicits.
Arguments room : clear implicits.
