(* ===== verification/Inode.v ===== *)
(** * Files on the disk (fs.c)

    The content of a file as bytes, and what [readi] and [writei] do to it:
    the blocks are seen through the buffer cache ([vw]), and what is written is
    logged in a transaction. *)

From stdpp Require Import base functions numbers list list_numbers sets gmap strings.
From S2P Require Import Prelude Kmonad Params Kstate Spinlock KString Kalloc Cprintf Vm Umem Demo Sched Thread Sleeplock Bio Cache Log Commit Fs Blockmap.

Local Open Scope Z_scope.

(** ** Blocks within a transaction *)

(** What reading and logging blocks leave alone. *)
Definition others (s : kstate) : kstate := (rest s) <| k_log := log0 |> <| k_icache := [] |>.
Definition calm (s s' : kstate) : Prop := others s' = others s /\ k_icache s' = k_icache s.

#[export] Instance calm_equiv : Equivalence calm.
Proof. split; unfold calm; [done|by intros ? ? [-> ->]|]. by intros ? ? ? [-> ->] [-> ->]. Qed.

Lemma frame_calm s s' : frame s s' -> calm s s'.
Proof. intros E. split; [unfold others; by rewrite E|by apply (frame_proj k_icache)]. Qed.
Lemma frame_log_calm s s' l : frame (s <| k_log := l |>) s' -> calm s s'.
Proof. intros E. split; [unfold others; rewrite E; by destruct s|by apply (frame_proj k_icache) in E]. Qed.
Lemma others_proj {A} (f : kstate -> A) s s' : (forall x, f (others x) = f x) -> others s' = others s -> f s' = f s.
Proof. intros Hf E. by rewrite <- (Hf s'), E. Qed.

(** ** Where the bytes of a write come from *)

(** The bytes [bs] at the user address [va]. *)
Definition user_has (s : kstate) (va : Z) (bs : list Z) : Prop :=
  exists pd, user_pd s = Some pd /\ ureadable (k_mem s) pd va (length bs) /\ ubytes (k_mem s) pd va (length bs) = bs.
Definition src_has (src : ptr) (bs : list Z) (s : kstate) : Prop :=
  match src with
  | PUser va => user_has s va bs
  | PPage _ => False  (** nothing is written from a page *)
  | PLocal l => l = bs
  end.

Lemma user_has_others s s' va bs : others s' = others s -> user_has s va bs -> user_has s' va bs.
Proof.
  intros E (pd & H1 & H2 & H3). exists pd.
  rewrite (others_proj user_pd s s' (fun x => erase_user_pd x) E), (others_proj k_mem s s' ltac:(done) E). done.
Qed.
Lemma src_has_others src bs s s' : others s' = others s -> src_has src bs s -> src_has src bs s'.
Proof. intros E. destruct src; simpl; [by apply user_has_others|done|done]. Qed.

Lemma user_has_app s va bs bs' : user_has s va (bs ++ bs') <-> user_has s va bs /\ user_has s (va + Z.of_nat (length bs)) bs'.
Proof.
  unfold user_has. split.
  - intros (pd & H1 & H2 & H3). rewrite length_app in H2, H3. rewrite ubytes_app in H3. apply app_inj_1 in H3 as [H3 H4]; [|apply length_ubytes].
    split; exists pd; (split; [done|]); (split; [|done]); intros k Hk; [apply H2; lia|].
    replace (va + Z.of_nat (length bs) + Z.of_nat k) with (va + Z.of_nat (length bs + k)) by lia. apply H2. lia.
  - intros [(pd & H1 & H2 & H3) (pd' & H1' & H2' & H3')]. rewrite H1 in H1'. injection H1' as <-. exists pd. split; [done|].
    rewrite length_app, ubytes_app, H3, H3'. split; [|done]. intros k Hk. destruct (decide (k < length bs)%nat); [by apply H2|].
    replace (va + Z.of_nat k) with (va + Z.of_nat (length bs) + Z.of_nat (k - length bs)) by lia. apply H2'. lia.
Qed.

Lemma thr_user_pd me L s pd : thr me L s -> user_pd s = Some pd -> exists c cp, running c cp s /\ cpu_cr3 cp = pd.
Proof.
  intros (c & cp & [Hc Hl] & _) H. exists c, cp. split; [done|]. unfold user_pd in H. rewrite Hc, Hl in H. by injection H.
Qed.

Lemma wp_fetch me L s src bs n (Q : list Z * ptr -> kstate -> Prop) : thr me L s -> src_has src bs s -> (n <= length bs)%nat ->
  (forall src', src_has src' (drop n bs) s -> Q (take n bs, src') s) -> wp (fetch src n) Q s.
Proof.
  intros Ht Hsrc Hn HQ. assert (length (take n bs) = n) as Hl by (rewrite length_take; lia). destruct src as [va|a|l]; cbn [fetch src_has] in *.
  - rewrite <- (take_drop n bs) in Hsrc. apply user_has_app in Hsrc as [(pd & H1 & H2 & H3) Hd]. rewrite Hl in *.
    destruct (thr_user_pd _ _ _ _ Ht H1) as (c & cp & Hr & <-). apply wp_bind. eapply wp_of_eq; [by apply (uloads_Ok c cp)|]. rewrite H3. by apply wp_ret, HQ.
  - done.
  - subst l. by apply wp_ret, HQ.
Qed.

Lemma length_absorb hs b : (length (absorb hs b) <= S (length hs))%nat.
Proof. unfold absorb. case_decide; [lia|]. rewrite length_app. simpl. lia. Qed.
Lemma elem_of_absorb hs b n : n ∈ absorb hs b <-> n ∈ hs \/ n = b.
Proof. unfold absorb. case_decide; [|by rewrite elem_of_app, list_elem_of_singleton]. split; [by left|]. by intros [| ->]. Qed.

Section tx.
Context {D : Disk} (fuel : nat) {dev size : Z} {DL : DiskLaws D dev size} {me : nat} {pid ls : Z}.
(** [o] system calls are in the transaction, the log is committing if [cm] is
    not 0, and the disk is [dk]: what is logged is not on the disk. *)
Context {o cm : Z} {dk : history}.
Context {sb : superblock} {ds : Z} {Hlay : Layout size ls sb ds}.
Hypothesis Hdev : 0 <= dev < 2 ^ 32.

Abbreviation vw := (vw dev).
Abbreviation used := (used sb).
Abbreviation takes := (takes sb ds).
Abbreviation file_ok := (file_ok sb ds).
Abbreviation wrote := (wrote sb ds).
Abbreviation added := (added sb ds).

(** A transaction that has logged the blocks [hs], of a thread that holds the
    buffers [H]. *)
Record tx (H : list (nat * Z)) (hs : list Z) (s : kstate) : Prop := {
  tx_holds : holds dev size me pid H hs None s;
  tx_log : log_at dev ls hs s;
  tx_blocks : Forall (data_block size ls) hs /\ NoDup hs /\ 1 ∉ hs;
  tx_size : LOGSIZE <= lg_size (k_log s);
  tx_open : lg_outstanding (k_log s) = o;
  tx_commit : lg_committing (k_log s) = cm;
  tx_disk : k_disk s = dk
}.

Lemma tx_frame H H' hs s s' : tx H hs s -> holds dev size me pid H' hs None s' -> k_disk s' = k_disk s -> frame s s' -> tx H' hs s'.
Proof.
  intros [Hh Hl Hb Hs Ho Hc Hd] Hh' Ed E. pose proof (frame_proj k_log _ _ ltac:(done) E) as El.
  split; [done|by eapply log_at_frame|done|by rewrite El..|by rewrite Ed].
Qed.

Lemma wp_tx_bread H hs s bno (Q : nat -> kstate -> Prop) :
  tx H hs s -> (length hs + length H < NBUF)%nat -> 0 <= bno < size -> bno ∉ H.*2 ->
  (forall i s', tx ((i, bno) :: H) hs s' -> (forall n, vw s' n = vw s n) -> calm s s' -> Q i s') ->
  wp (bread fuel dev bno) Q s.
Proof.
  intros Ht Hroom Hb HbH HQ. eapply (wp_bread fuel dev size me pid); [apply Ht|done|done|done|].
  intros i s' Hh V Ed F. apply HQ; [by eapply tx_frame|done|by apply frame_calm].
Qed.

Lemma wp_tx_get H hs s i bno (Q : buf -> kstate -> Prop) :
  tx H hs s -> (i, bno) ∈ H -> (forall b, b_data b = vw s bno -> length (vw s bno) = Z.to_nat BSIZE -> Q b s) -> wp (get_b i) Q s.
Proof.
  intros Ht Hi HQ. eapply (wp_get_held dev size me pid); [apply Ht|done|]. intros b Hb Hl _. apply HQ; [done|by rewrite <- Hb].
Qed.

Lemma tx_len H hs s i bno : tx H hs s -> (i, bno) ∈ H -> length (vw s bno) = Z.to_nat BSIZE.
Proof.
  intros Ht Hi. destruct (held_inv dev size me pid _ _ _ _ i bno (tx_holds _ _ _ Ht) Hi) as (b & _ & _ & _ & _ & _ & _ & Hl & Hv & _).
  by rewrite <- Hv.
Qed.

Lemma wp_tx_brelse H H' hs s i bno (Q : unit -> kstate -> Prop) :
  tx H hs s -> H ≡ₚ (i, bno) :: H' -> (forall s', tx H' hs s' -> (forall n, vw s' n = vw s n) -> calm s s' -> Q tt s') ->
  wp (brelse i) Q s.
Proof.
  intros Ht HH HQ. eapply (wp_brelse dev size me pid); [apply Ht|done|done|].
  intros s' Hh V Ed F. apply HQ; [by eapply tx_frame|done|by apply frame_calm].
Qed.

(** The first index that satisfies [f]. *)
Lemma wp_first (f : Z -> bool) m s (Q : option Z -> kstate -> Prop) :
  0 <= m -> (forall r, 0 <= r < m -> f r = true -> (forall x, 0 <= x < r -> f x = false) -> Q (Some r) s) ->
  ((forall x, 0 <= x < m -> f x = false) -> Q None s) ->
  wp (for_break (seqZ 0 m) (fun x => ret (if f x then Some x else None)) : KM (option Z)) Q s.
Proof.
  intros Hm Hyes Hno. apply (wp_for_break _ (fun l t => t = s /\ exists k, 0 <= k <= m /\ l = seqZ k (m - k) /\ forall x, 0 <= x < k -> f x = false)).
  - split; [done|]. exists 0. split_and!; [lia|lia|f_equal; lia|intros; lia].
  - intros x l t (-> & k & Hk & El & Hf). destruct (decide (k = m)) as [->|Hne]; [by rewrite Z.sub_diag in El|].
    rewrite seqZ_cons in El by lia. injection El as -> ->. apply wp_ret. destruct (f k) eqn:E; [apply Hyes; [lia|done|done]|].
    split; [done|]. exists (k + 1). split_and!; [lia|lia|f_equal; lia|]. intros x Hx. destruct (decide (x = k)) as [->|]; [done|]. apply Hf. lia.
  - intros t (-> & k & Hk & El & Hf). assert (k = m) as ->. { destruct (decide (k = m)); [done|]. rewrite seqZ_cons in El by lia. done. }
    by apply Hno.
Qed.

Lemma calm_sb s s' : calm s s' -> k_sb s' = k_sb s.
Proof. intros [E _]. by apply (others_proj k_sb). Qed.

(** ** The inode in the cache *)

Definition icset (i : nat) (ip : inode) (s : kstate) : kstate := set k_icache (insert i ip) s.

(** A file open in a transaction: its inode is entry [i] of the inode cache,
    and the blocks before the data are in use. *)
Record file_at (i : nat) (ip : inode) (hs : list Z) (s : kstate) : Prop := {
  fa_tx : tx [] hs s;
  fa_sb : k_sb s = sb;
  fa_ip : k_icache s !! i = Some ip;
  fa_dev : i_dev ip = dev;
  fa_meta b : 0 <= b < ds -> used (vw s) b = true;
  fa_ok : file_ok (vw s) (i_addrs ip)
}.

Lemma get_i_Ok i ip s : k_icache s !! i = Some ip -> get_i i s = Ok ip s.
Proof. intros H. unfold get_i. cbn. by rewrite H. Qed.
Lemma upd_i_Ok i ip f s : k_icache s !! i = Some ip -> upd_i i f s = Ok tt (icset i (f ip) s).
Proof.
  intros H. unfold upd_i, modify, icset. f_equal. unfold set, set_k_icache. simpl. f_equal.
  apply list_eq. intros j. rewrite list_lookup_alter. case_decide as Hd; [subst j|by rewrite list_lookup_insert_ne].
  by rewrite H, list_lookup_insert_eq by (by eapply lookup_lt_Some).
Qed.

Lemma tx_icset H hs i ip s : tx H hs s -> tx H hs (icset i ip s).
Proof.
  intros [[Ht [Hb (l & Hl & Hperm) Hp Hd] Hn Hdi Hk] [? ? ? ? ?] Hbl Hs Ho Hc Hdk]. split; [|by split|done..].
  split; [|split; [done|by exists l|done|done]|done|done|done]. by apply (thr_neutral (set k_icache (insert i ip))).
Qed.

(** ** Reading a file *)

Lemma file_at_calm i ip hs s s' : file_at i ip hs s -> tx [] hs s' -> calm s s' -> (forall n, vw s' n = vw s n) -> file_at i ip hs s'.
Proof.
  intros [Ht Hsb Hip Hd Hm Hok] Ht' Hc V. split; [done|by rewrite (calm_sb _ _ Hc)|by rewrite (proj2 Hc)|done|..].
  - intros b Hb. rewrite (used_ext (vw s)) by done. by apply Hm.
  - by apply (file_ok_ext (vw s)).
Qed.

Lemma wp_addr_mapped i ip hs s k (Q : Z -> kstate -> Prop) :
  file_at i ip hs s -> nthZ (i_addrs ip) k <> 0 -> Q (nthZ (i_addrs ip) k) s -> wp (addr_or_alloc fuel i k) Q s.
Proof.
  intros Hf Hk HQ. unfold addr_or_alloc, get_addr. do 2 apply wp_bind.
  eapply wp_of_eq; [apply get_i_Ok, Hf|]. apply wp_ret. destruct (Z.eqb_spec (nthZ (i_addrs ip) k) 0); [done|]. by apply wp_ret.
Qed.

Lemma slot_bmap v a bn : 0 <= bn < MAXFILE -> slot v a (pos (Z.to_nat bn)) =
  if bn <? Z.of_nat NDIRECT then nthZ a (Z.to_nat bn)
  else if nthZ a NDIRECT =? 0 then 0 else get_u32 (v (nthZ a NDIRECT)) (Z.to_nat (4 * (bn - Z.of_nat NDIRECT))).
Proof.
  intros Hbn. unfold slot, pos. destruct (Z.ltb_spec bn (Z.of_nat NDIRECT)).
  - rewrite (decide_True (P := (Z.to_nat bn < NDIRECT)%nat)) by lia. by rewrite decide_True by lia.
  - rewrite (decide_False (P := (Z.to_nat bn < NDIRECT)%nat)) by lia. rewrite decide_False by lia.
    replace (4 * (S (Z.to_nat bn) - S NDIRECT))%nat with (Z.to_nat (4 * (bn - Z.of_nat NDIRECT))) by lia. done.
Qed.

Lemma wp_bmap_mapped i ip hs s bn (Q : Z -> kstate -> Prop) :
  file_at i ip hs s -> (length hs < NBUF)%nat -> 0 <= bn < MAXFILE -> slot (vw s) (i_addrs ip) (pos (Z.to_nat bn)) <> 0 ->
  (forall s', file_at i ip hs s' -> calm s s' -> (forall n, vw s' n = vw s n) -> Q (slot (vw s) (i_addrs ip) (pos (Z.to_nat bn))) s') ->
  wp (bmap fuel i bn) Q s.
Proof.
  intros Hf Hroom Hbn Hs HQ. rewrite slot_bmap in * by done. unfold bmap. destruct (Z.ltb_spec bn (Z.of_nat NDIRECT)).
  - eapply wp_addr_mapped; [done|done|]. by apply HQ.
  - destruct (Z.ltb_spec (bn - Z.of_nat NDIRECT) NINDIRECT) as [Hlt|Hge]; [cbn [negb]|unfold MAXFILE in Hbn; lia].
    destruct (Z.eqb_spec (nthZ (i_addrs ip) NDIRECT) 0) as [|Hi]; [done|]. pose proof Hf as [Ht Hsb Hip Hd Hm Hok].
    destruct (indirect_ok _ _ Hok Hi) as [Hr _]. destruct (file_block _ Hr) as (_ & _ & Hr').
    apply wp_bind. eapply wp_addr_mapped; [done|done|]. apply wp_bind. eapply wp_of_eq; [by apply get_i_Ok|]. rewrite Hd.
    apply wp_bind, (wp_tx_bread [] hs); [done|simpl; lia|done|apply not_elem_of_nil|]. intros bp s1 T1 V1 C1.
    apply wp_bind. eapply wp_tx_get; [done|by left|]. intros buf Hbuf _. rewrite Hbuf, V1.
    apply wp_bind. destruct (Z.eqb_spec (get_u32 (vw s (nthZ (i_addrs ip) NDIRECT)) (Z.to_nat (4 * (bn - Z.of_nat NDIRECT)))) 0) as [|_]; [done|].
    cbn [negb]. apply wp_ret, wp_bind. eapply wp_tx_brelse; [done|reflexivity|]. intros s2 T2 V2 C2.
    apply wp_ret, HQ; [|by rewrite C1, C2|intros n; by rewrite V2, V1].
    eapply file_at_calm; [exact Hf|done|by rewrite C1, C2|intros n; by rewrite V2, V1].
Qed.

(** The blocks that [n] bytes from [off] on are in. *)
Definition span (off n : nat) : nat := match n with O => 0 | _ => S ((off + n - 1) / 512 - off / 512) end.

Definition chunk (off n : nat) : nat := (n `min` (512 - off mod 512))%nat.

Lemma chunk_pos off n : (0 < n -> 0 < chunk off n)%nat /\ (chunk off n <= n)%nat /\ (off mod 512 + chunk off n <= 512)%nat.
Proof. unfold chunk. pose proof (Nat.mod_upper_bound off 512 ltac:(lia)). lia. Qed.

Lemma span_pos off n : (0 < n)%nat -> span off n = S ((off + n - 1) / 512 - off / 512).
Proof. by destruct n; [lia|]. Qed.

Lemma span_next off n : (0 < n)%nat -> (S (span (off + chunk off n) (n - chunk off n)) <= span off n)%nat.
Proof.
  intros Hn. unfold chunk. pose proof (Nat.mod_upper_bound off 512 ltac:(lia)). pose proof (Nat.div_mod_eq off 512) as E.
  rewrite (span_pos off n) by done. destruct (decide (n <= 512 - off mod 512)%nat).
  { rewrite Nat.min_l, Nat.sub_diag by lia. unfold span at 1. lia. }
  rewrite Nat.min_r, span_pos by lia.
  replace (off + (512 - off mod 512) + (n - (512 - off mod 512)) - 1)%nat with (off + n - 1)%nat by lia.
  replace (off + (512 - off mod 512))%nat with ((off / 512 + 1) * 512)%nat by lia. rewrite Nat.div_mul by lia.
  assert (off / 512 + 1 <= (off + n - 1) / 512)%nat; [|lia]. apply Nat.div_le_lower_bound; lia.
Qed.

Lemma span_start off n : (span off n <= Z.to_nat (Z.of_nat n / BSIZE + 2))%nat.
Proof.
  destruct (decide (n = 0)%nat) as [->|]; [simpl; lia|]. rewrite span_pos by lia. change BSIZE with (Z.of_nat 512). rewrite <- Nat2Z.inj_div.
  replace (Z.to_nat (Z.of_nat (n / 512) + 2)) with (n / 512 + 2)%nat by lia.
  pose proof (Nat.div_mod_eq off 512). pose proof (Nat.div_mod_eq n 512). pose proof (Nat.mod_upper_bound off 512 ltac:(lia)).
  pose proof (Nat.mod_upper_bound n 512 ltac:(lia)).
  assert ((off + n - 1) / 512 < off / 512 + n / 512 + 2)%nat; [|lia]. apply Nat.Div0.div_lt_upper_bound. lia.
Qed.

Lemma chunk_Z off tot n : (tot <= n)%nat ->
  Z.min (Z.of_nat n - Z.of_nat tot) (BSIZE - Z.of_nat off mod BSIZE) = Z.of_nat (chunk off (n - tot)).
Proof.
  intros H. change BSIZE with (Z.of_nat 512). rewrite <- Nat2Z.inj_mod. unfold chunk.
  pose proof (Nat.mod_upper_bound off 512 ltac:(lia)). lia.
Qed.

Lemma off_div off : Z.of_nat off / BSIZE = Z.of_nat (off / 512).
Proof. change BSIZE with (Z.of_nat 512). by rewrite <- Nat2Z.inj_div. Qed.
Lemma off_mod off : Z.to_nat (Z.of_nat off mod BSIZE) = (off mod 512)%nat.
Proof. change BSIZE with (Z.of_nat 512). rewrite <- Nat2Z.inj_mod. apply Nat2Z.id. Qed.

(** The bytes [off] to [off + n - 1] have blocks. *)
Definition mapped (v : Z -> list Z) (a : list Z) (off n : nat) : Prop :=
  forall x, (off <= x < off + n)%nat -> (x / 512 < Z.to_nat MAXFILE)%nat /\ slot v a (pos (x / 512)) <> 0.

Lemma wp_readi_loop i ip hs rounds : forall s l off tot n (Q : ptr -> kstate -> Prop),
  file_at i ip hs s -> (length hs < NBUF)%nat -> (tot <= n)%nat -> (span off (n - tot) <= rounds)%nat ->
  mapped (vw s) (i_addrs ip) off (n - tot) ->
  (forall s', file_at i ip hs s' -> calm s s' -> (forall n, vw s' n = vw s n) ->
     Q (PLocal (l ++ map (byte_at (vw s) (i_addrs ip)) (seq off (n - tot)))) s') ->
  wp (readi_loop fuel rounds i (PLocal l) (Z.of_nat off) (Z.of_nat tot) (Z.of_nat n)) Q s.
Proof.
  induction rounds as [|rounds IH]; intros s l off tot n Q Hf Hroom Htot Hr Hmap HQ; cbn [readi_loop];
    (destruct (Z.ltb_spec (Z.of_nat tot) (Z.of_nat n)) as [Hlt|Hge]; cbn [negb];
     [pose proof (span_next off (n - tot) ltac:(lia)); try lia|]);
    try (apply wp_ret; replace (n - tot)%nat with 0%nat in HQ by lia; rewrite app_nil_r in HQ; by apply HQ).
  destruct (chunk_pos off (n - tot)) as (Hc1 & Hc2 & Hc3). specialize (Hc1 ltac:(lia)).
  destruct (Hmap off ltac:(lia)) as [Hm1 Hm2]. rewrite off_div, chunk_Z, off_mod, !Nat2Z.id by lia. set (m := chunk off (n - tot)) in *.
  apply wp_bind. eapply wp_bmap_mapped; [done|done|lia|by rewrite Nat2Z.id|]. intros s1 F1 C1 V1. rewrite Nat2Z.id.
  pose proof F1 as [T1 _ Hip Hd _ Hok]. apply wp_bind. eapply wp_of_eq; [by apply get_i_Ok|]. rewrite Hd.
  destruct (pos_lt _ Hm1) as [Hp _]. destruct (fo_slot _ _ (fa_ok _ _ _ _ Hf) _ Hp Hm2) as [Hrng _].
  destruct (file_block _ Hrng) as (_ & _ & Hsz).
  apply wp_bind, (wp_tx_bread [] hs); [done|simpl; lia|done|apply not_elem_of_nil|]. intros bp s2 T2 V2 C2.
  apply wp_bind. eapply wp_tx_get; [done|by left|]. intros buf Hbuf Hlen. rewrite Hbuf. rewrite V2, V1 in *.
  rewrite block_bytes by done. apply wp_bind, wp_ret, wp_bind. eapply wp_tx_brelse; [done|reflexivity|]. intros s3 T3 V3 C3.
  replace (Z.of_nat off + Z.of_nat m) with (Z.of_nat (off + m)) by lia. replace (Z.of_nat tot + Z.of_nat m) with (Z.of_nat (tot + m)) by lia.
  assert (forall x, vw s3 x = vw s x) as V by (intros x; by rewrite V3, V2, V1).
  assert (calm s s3) as C by (by rewrite C1, C2, C3).
  apply IH; [exact (file_at_calm i ip hs s s3 Hf T3 C V)|done|lia|replace (n - (tot + m))%nat with (n - tot - m)%nat by lia; lia| |].
  { intros x Hx. rewrite (slot_ext (vw s)) by done. apply Hmap. lia. }
  intros s4 F4 C4 V4. rewrite <- app_assoc, (map_ext (byte_at (vw s3) (i_addrs ip)) (byte_at (vw s) (i_addrs ip))), <- map_app, <- seq_app
    by (intros x; by apply byte_at_ext).
  replace (m + (n - (tot + m)))%nat with (n - tot)%nat by lia. apply HQ; [done|by rewrite C|intros x; by rewrite V4].
Qed.

Definition content (v : Z -> list Z) (ip : inode) : list Z := map (byte_at v (i_addrs ip)) (seq 0 (Z.to_nat (i_size ip))).

(** Every byte below the size of the file has a block. *)
Definition sized (v : Z -> list Z) (ip : inode) : Prop :=
  0 <= i_size ip <= MAXFILE * BSIZE /\ mapped v (i_addrs ip) 0 (Z.to_nat (i_size ip)).

Lemma take_drop_content v ip (off n : nat) :
  take n (drop off (content v ip)) = map (byte_at v (i_addrs ip)) (seq off (n `min` (Z.to_nat (i_size ip) - off))).
Proof.
  unfold content. rewrite <- !fmap_drop, <- fmap_take. f_equal. apply list_eq. intros j. destruct (decide (j < n)%nat) as [Hj|Hj].
  - rewrite lookup_take_lt, lookup_drop by done. destruct (decide (off + j < Z.to_nat (i_size ip))%nat).
    + by rewrite !lookup_seq_lt by lia.
    + rewrite !lookup_ge_None_2; [done|rewrite length_seq; lia..].
  - rewrite !lookup_ge_None_2; [done|rewrite length_seq; lia|rewrite length_take; lia].
Qed.

(** What [readi] reads: nothing when [off] is after the end or [off + n]
    overflows, otherwise the bytes that are there. *)
Definition read_of (c : list Z) (off n : Z) : option (list Z) :=
  if (Z.of_nat (length c) <? off) || (2 ^ 32 <=? off + n) then None else Some (take (Z.to_nat n) (drop (Z.to_nat off) c)).

Lemma wp_readi devsw i ip hs s l (off n : Z) (Q : Z * ptr -> kstate -> Prop) :
  file_at i ip hs s -> (length hs < NBUF)%nat -> i_type ip <> T_DEV -> sized (vw s) ip -> 0 <= off < 2 ^ 32 -> 0 <= n < 2 ^ 32 ->
  (forall s', file_at i ip hs s' -> calm s s' -> (forall n, vw s' n = vw s n) ->
     Q (match read_of (content (vw s) ip) off n with
        | Some bs => (Z.of_nat (length bs), PLocal (l ++ bs)) | None => (-1, PLocal l) end) s') ->
  wp (readi fuel devsw i (PLocal l) off n) Q s.
Proof.
  intros Hf Hroom Hty [Hsz Hmap] Hoff Hn HQ. unfold readi, read_of in *. apply wp_bind. eapply wp_of_eq; [apply get_i_Ok, Hf|].
  destruct (Z.eqb_spec (i_type ip) T_DEV); [done|]. assert (length (content (vw s) ip) = Z.to_nat (i_size ip)) as Hlc.
  { unfold content. by rewrite length_map, length_seq. }
  rewrite Hlc, Z2Nat.id in HQ by lia. change (MAXFILE * BSIZE) with 71680 in Hsz.
  destruct (Z.ltb_spec (i_size ip) off) as [Hlt|Hge]; cbn [orb] in *; [by apply wp_ret, HQ|].
  destruct (Z.leb_spec (2 ^ 32) (off + n)) as [Hov|Hov].
  { replace (u32 (off + n)) with (off + n - 2 ^ 32). 2:{ unfold u32. apply (Z.mod_unique _ _ 1); lia. }
    destruct (Z.ltb_spec (off + n - 2 ^ 32) off); [|lia]. by apply wp_ret, HQ. }
  rewrite !u32_small by lia. destruct (Z.ltb_spec (off + n) off); [lia|].
  set (k := if i_size ip <? off + n then i_size ip - off else n). assert (0 <= k <= i_size ip - off /\ k <= n) as Hk.
  { unfold k. destruct (Z.ltb_spec (i_size ip) (off + n)); lia. }
  assert (take (Z.to_nat n) (drop (Z.to_nat off) (content (vw s) ip)) = map (byte_at (vw s) (i_addrs ip)) (seq (Z.to_nat off) (Z.to_nat k))) as Ec.
  { rewrite take_drop_content. do 2 f_equal. unfold k. destruct (Z.ltb_spec (i_size ip) (off + n)); lia. }
  rewrite Ec, length_map, length_seq in HQ.
  pose proof (wp_readi_loop i ip hs (Z.to_nat (k / BSIZE + 2)) s l (Z.to_nat off) 0 (Z.to_nat k)) as Hloop.
  rewrite Nat.sub_0_r, !Z2Nat.id in Hloop by lia. change (Z.of_nat 0) with 0 in Hloop. apply wp_bind, Hloop; [done|done|lia| | |].
  - pose proof (span_start (Z.to_nat off) (Z.to_nat k)) as Hr. by rewrite Z2Nat.id in Hr by lia.
  - intros x Hx. apply Hmap. lia.
  - intros s' Hf' Hc V. apply wp_ret. rewrite i32_small by lia. specialize (HQ s' Hf' Hc V). by rewrite Z2Nat.id in HQ by lia.
Qed.

(** ** Writing blocks *)

Hypothesis Hopen : 1 <= o.

(** The content of a held buffer is replaced and the block logged. *)
Lemma wp_tx_update {A} H hs s i bno g (k : KM A) (Q : A -> kstate -> Prop) :
  tx H hs s -> (i, bno) ∈ H -> data_block size ls bno -> bno <> 1 -> (length hs < 29)%nat ->
  length (g (vw s bno)) = Z.to_nat BSIZE ->
  (forall s', tx H (absorb hs bno) s' -> (forall n, vw s' n = if decide (n = bno) then g (vw s bno) else vw s n) ->
     calm s s' -> wp k Q s') ->
  wp (upd_data i g ;; log_write i ;; k) Q s.
Proof.
  intros [Hh Hl (Hb1 & Hb2 & Hb3) Hs Ho Hc Hd] Hi Hdb Hne Hroom Hlen HQ. unfold upd_data. apply wp_bind.
  eapply (wp_upd_data dev size me pid); [done|done|by left|done|]. intros s1 Hh1 V1 D1 F1.
  pose proof (frame_proj k_log _ _ ltac:(done) F1) as El. change LOGSIZE with 30 in *.
  apply wp_bind. eapply (wp_log_write dev size me pid ls); [apply lay_disk|exact Hh1|done|by right|by eapply log_at_frame|..].
  { eapply Forall_impl; [exact Hb1|]. by intros h [? _]. }
  { change (Z.to_nat LOGSIZE) with 30%nat. lia. }
  { rewrite El. lia. }
  { rewrite El; lia. }
  intros s2 Hh2 Hl2 V2 D2 G1 G2 G3 F2. rewrite El in G1, G2, G3. apply HQ.
  - split; [done|done| |change LOGSIZE with 30; lia|lia|lia|congruence]. unfold absorb. case_decide as E; [done|]. split_and!.
    + apply Forall_app. split; [done|]. by constructor.
    + apply NoDup_app. split_and!; [done| |apply NoDup_singleton]. intros x Hx. rewrite list_elem_of_singleton. by intros ->.
    + rewrite not_elem_of_app, list_elem_of_singleton. split; [done|congruence].
  - intros n. by rewrite V2, V1.
  - etransitivity; [by apply frame_calm|by eapply frame_log_calm].
Qed.

Lemma wp_bzero H hs s bno (Q : unit -> kstate -> Prop) :
  tx H hs s -> data_block size ls bno -> bno <> 1 -> bno ∉ H.*2 -> (length hs < 29)%nat -> (length hs + length H < NBUF)%nat ->
  (forall s', tx H (absorb hs bno) s' -> (forall n, vw s' n = if decide (n = bno) then zero_block else vw s n) -> calm s s' -> Q tt s') ->
  wp (bzero fuel dev bno) Q s.
Proof.
  intros Ht Hb Hb1 HbH Hr1 Hr2 HQ. unfold bzero. apply wp_bind, (wp_tx_bread H hs); [done|done|apply Hb|done|]. intros i s1 T1 V1 C1.
  eapply wp_tx_update; [done|by left|done|done|done|done|]. intros s2 T2 V2 C2.
  eapply wp_tx_brelse; [done|reflexivity|]. intros s3 T3 V3 C3. apply HQ; [done| |by rewrite C1, C2, C3].
  intros n. rewrite V3, V2. case_decide; [done|]. by rewrite V1.
Qed.

Section balloc.
Context (H : list (nat * Z)) (hs : list Z) (s0 : kstate) (Q : Z -> kstate -> Prop).
Hypothesis Hroom : (length hs < 28)%nat.
Hypothesis HH : (length H <= 1)%nat.
Hypothesis Hheld : forall b, b ∈ H.*2 -> ds <= b < sb_size sb /\ used (vw s0) b = true.
Hypothesis Hmeta : forall b, 0 <= b < ds -> used (vw s0) b = true.
Hypothesis HQ : forall r hs' s', tx H hs' s' -> (length hs' <= length hs + 2)%nat -> calm s0 s' -> takes (vw s0) r (vw s') -> Q r s'.

Lemma not_held b : 0 <= b < sb_size sb -> BBLOCK b sb ∉ H.*2.
Proof. intros Hb Hin. destruct (BBLOCK_at b Hb) as [_ Hr]. apply Hheld in Hin. lia. Qed.

Lemma wp_balloc_take s i b bi : tx ((i, BBLOCK b sb) :: H) hs s -> calm s0 s -> (forall n, vw s n = vw s0 n) ->
  b mod BPB = 0 -> 0 <= b -> 0 <= bi < BPB -> b + bi < sb_size sb ->
  used (vw s0) (b + bi) = false -> (forall x, 0 <= x < b + bi -> used (vw s0) x = true) ->
  wp (upd_data i (alter (fun x => Z.lor x (Z.shiftl 1 (bi mod 8))) (Z.to_nat (bi / 8))) ;;
      log_write i ;; brelse i ;; bzero fuel dev (b + bi) ;; ret (b + bi)) Q s.
Proof.
  intros Ht Hc Hv Hmod Hb Hbi Hlt Hfree Hfirst. destruct (bit_at (sb := sb) b bi Hmod Hbi Hb) as (E1 & E2 & E3).
  rewrite <- E3. replace (bi / 8) with ((b + bi) mod BPB / 8) by (by rewrite E1). rewrite <- E2 in Ht.
  set (r := b + bi) in *. change (alter _ _) with (set_bit r). destruct (meta_block r) as [M1 M2]; [lia|].
  pose proof (tx_len _ _ _ _ _ Ht ltac:(by left)) as Hlen.
  eapply wp_tx_update; [done|by left|done|done|lia| |].
  { unfold set_bit. by rewrite length_alter. }
  intros s1 T1 V1 C1. apply wp_bind. eapply wp_tx_brelse; [done|reflexivity|]. intros s2 T2 V2 C2.
  assert (ds <= r < sb_size sb) as Hr.
  { destruct (Z.le_gt_cases ds r); [lia|]. rewrite Hmeta in Hfree by lia. done. }
  destruct (file_block r Hr) as (F1 & F2 & F3). pose proof (length_absorb hs (BBLOCK r sb)).
  apply wp_bind. eapply wp_bzero; [done|done|done| |lia|unfold NBUF; lia|].
  { intros Hin. apply Hheld in Hin as [_ Hu]. congruence. }
  intros s3 T3 V3 C3. apply wp_ret. eapply HQ; [done| |by rewrite Hc, C1, C2, C3|].
  { pose proof (length_absorb (absorb hs (BBLOCK r sb)) r). lia. }
  apply (takes_intro _ _ (vw s2)); [lia|done|done|done|by rewrite <- Hv| |done].
  intros n. rewrite V2, V1, !Hv. case_decide as E; [by rewrite E|done].
Qed.

Lemma wp_balloc_loop n : forall s b, tx H hs s -> calm s0 s -> (forall n, vw s n = vw s0 n) -> k_sb s0 = sb ->
  b mod BPB = 0 -> 0 <= b -> sb_size sb < b + BPB * Z.of_nat n -> (forall x, 0 <= x < b -> used (vw s0) x = true) ->
  (exists f, 0 <= f < sb_size sb /\ used (vw s0) f = false) -> wp (balloc_loop fuel n dev b) Q s.
Proof.
  induction n as [|n IH]; intros s b Ht Hc Hv Esb Hmod Hb Hn Hfirst (f & Hf & Hff); cbn [balloc_loop]; unfold get_sb;
    assert (b <= f) as Hbf by (destruct (Z.le_gt_cases b f); [done|rewrite Hfirst in Hff by lia; done]); [lia|].
  apply wp_bind, wp_gets. rewrite (calm_sb _ _ Hc), Esb. destruct (Z.ltb_spec b (sb_size sb)); [cbn [negb]|lia].
  destruct (meta_block b) as [[M1 _] M2]; [lia|]. assert (BPB = 4096) as EB by done.
  apply wp_bind, (wp_tx_bread H hs); [done|unfold NBUF; lia|done|apply not_held; lia|]. intros i s1 T1 V1 C1.
  apply wp_bind, wp_gets. rewrite (calm_sb _ _ C1), (calm_sb _ _ Hc), Esb.
  apply wp_bind. eapply wp_tx_get; [done|by left|]. intros buf Hbuf _. rewrite Hbuf, V1, Hv.
  assert (forall bi, 0 <= bi < BPB ->
    (Z.land (nthZ (vw s0 (BBLOCK b sb)) (Z.to_nat (bi / 8))) (Z.shiftl 1 (bi mod 8)) =? 0) = negb (used (vw s0) (b + bi))) as Hbit.
  { intros bi Hbi. destruct (bit_at (sb := sb) b bi Hmod Hbi Hb) as (E1 & E2 & E3). rewrite land_bit by (apply Z.mod_pos_bound; lia).
    unfold Blockmap.used. by rewrite E1, E2, E3. }
  apply wp_bind, wp_first; [lia|..].
  - intros bi Hbi Hfr Hlow. rewrite Hbit in Hfr by lia. apply negb_true_iff in Hfr.
    apply wp_balloc_take; [done|by rewrite Hc, C1|intros m; by rewrite V1|done|done|lia|lia|done|].
    intros x Hx. destruct (Z.lt_ge_cases x b) as [Hxb|Hxb]; [apply Hfirst; lia|]. specialize (Hlow (x - b) ltac:(lia)).
    rewrite Hbit in Hlow by lia. apply negb_false_iff in Hlow. by replace (b + (x - b)) with x in Hlow by lia.
  - intros Hnone. apply wp_bind. eapply wp_tx_brelse; [exact T1|reflexivity|]. intros s2 T2 V2 C2.
    assert (forall x, 0 <= x < Z.min (b + BPB) (sb_size sb) -> used (vw s0) x = true) as Hlow.
    { intros x Hx. destruct (Z.lt_ge_cases x b) as [Hxb|Hxb]; [apply Hfirst; lia|]. specialize (Hnone (x - b) ltac:(lia)).
      rewrite Hbit in Hnone by lia. apply negb_false_iff in Hnone. by replace (b + (x - b)) with x in Hnone by lia. }
    assert (Z.min (b + BPB) (sb_size sb) <= f) as Hge.
    { destruct (Z.le_gt_cases (Z.min (b + BPB) (sb_size sb)) f); [done|]. rewrite Hlow in Hff by lia. done. }
    apply IH; [done|by rewrite Hc, C1, C2|intros m; by rewrite V2, V1|done| |lia|lia|intros; apply Hlow; lia|by exists f].
    by rewrite <- Z.add_mod_idemp_r, Z_mod_same_full, Z.add_0_r.
Qed.

Lemma wp_balloc : tx H hs s0 -> k_sb s0 = sb -> (exists f, 0 <= f < sb_size sb /\ used (vw s0) f = false) -> wp (balloc fuel dev) Q s0.
Proof.
  intros Ht Esb Hf. unfold balloc, get_sb. apply wp_bind, wp_gets. rewrite Esb.
  apply wp_balloc_loop; [done|done|done|done|done|lia| |intros; lia|done].
  pose proof (Z.mod_pos_bound (sb_size sb) BPB BPB_pos). pose proof (Z.div_mod (sb_size sb) BPB ltac:(done)).
  destruct Hf as (f & ? & _). pose proof (Z.div_pos (sb_size sb) BPB ltac:(lia) BPB_pos). change BPB with 4096 in *. lia.
Qed.
End balloc.

Lemma wp_addr_or_alloc i ip hs s k (Q : Z -> kstate -> Prop) :
  file_at i ip hs s -> (k <= NDIRECT)%nat ->
  (slot (vw s) (i_addrs ip) k <> 0 -> Q (slot (vw s) (i_addrs ip) k) s) ->
  (slot (vw s) (i_addrs ip) k = 0 -> (length hs < 28)%nat /\ (exists f, 0 <= f < sb_size sb /\ used (vw s) f = false) /\
     forall r hs' s', let ip' := ip <| i_addrs := <[k:=r]> (i_addrs ip) |> in
       file_at i ip' hs' s' -> (length hs' <= length hs + 2)%nat -> others s' = others s -> k_icache s' = <[i:=ip']> (k_icache s) ->
       added (vw s) (i_addrs ip) k r (vw s') (i_addrs ip') -> Q r s') ->
  wp (addr_or_alloc fuel i k) Q s.
Proof.
  intros [Ht Esb Hip Hdv Hm Hok] Hk Hyes Hno. unfold addr_or_alloc, get_addr. assert (slot (vw s) (i_addrs ip) k = nthZ (i_addrs ip) k) as Es.
  { unfold slot. by rewrite decide_True. }
  rewrite Es in *. do 2 apply wp_bind. eapply wp_of_eq; [by apply get_i_Ok|]. apply wp_ret.
  destruct (Z.eqb_spec (nthZ (i_addrs ip) k) 0) as [E0|E0]; cbn [negb]; [|by apply wp_ret, Hyes].
  destruct (Hno E0) as (Hroom & Hfree & HQ). apply wp_bind. eapply wp_of_eq; [by apply get_i_Ok|]. rewrite Hdv.
  apply wp_bind, (wp_balloc [] hs s); [done|simpl; lia| |done| |done|done|done].
  { intros b Hb. by apply not_elem_of_nil in Hb. }
  intros r hs' s1 T1 Hl1 [C1 C1'] K1. apply wp_bind. unfold set_addr. rewrite <- C1' in Hip. eapply wp_of_eq; [by apply upd_i_Ok|].
  apply wp_ret. assert (added (vw s) (i_addrs ip) k r (vw s1) (<[k:=r]> (i_addrs ip))) as Ha.
  { apply added_direct; [done|done|by rewrite Es|done]. }
  apply (HQ r hs'); [|done|exact C1|unfold icset; simpl; by rewrite C1'|done]. split.
  - by apply tx_icset.
  - unfold icset. simpl. by rewrite (others_proj k_sb _ _ ltac:(done) C1).
  - unfold icset. simpl. rewrite list_lookup_insert_eq; [done|by eapply lookup_lt_Some].
  - done.
  - by eapply takes_meta.
  - by eapply added_ok.
Qed.

(** A block was found or made for block [bn] of the file. *)
Record grown (i : nat) (ip : inode) (hs : list Z) (s : kstate) (bn : nat) (ip' : inode) (hs' : list Z) (s' : kstate) : Prop := {
  gr_at : file_at i ip' hs' s';
  gr_log : (length hs' <= length hs + 5)%nat;
  gr_others : others s' = others s;
  gr_icache : k_icache s' = <[i:=ip']> (k_icache s);
  gr_ip : ip' = ip <| i_addrs := i_addrs ip' |>;
  gr_wrote off : wrote (vw s) (i_addrs ip) (vw s') (i_addrs ip') off [];
  gr_slot : slot (vw s') (i_addrs ip') (pos bn) <> 0;
  gr_room m : room sb (S (S m)) (vw s) -> room sb m (vw s');
  gr_same : slot (vw s) (i_addrs ip) (pos bn) <> 0 -> i_addrs ip' = i_addrs ip
}.

Lemma wrote_refl v v' a off : (forall n, v' n = v n) -> wrote v a v' a off [].
Proof.
  intros E. split; simpl; try lia.
  - intros k _ _. by apply slot_ext.
  - intros k _ Hs Hs'. by rewrite (slot_ext v) in Hs' by done.
  - intros b _. by rewrite (used_ext v v').
  - intros b _. rewrite (used_ext v v') by done. by left.
  - done.
  - done.
  - intros x _ _ _. by apply byte_at_ext.
  - intros x _ _ Hs Hs'. by rewrite (slot_ext v) in Hs' by done.
Qed.

Lemma room_ext m v v' : (forall n, v' n = v n) -> room sb m v -> room sb m v'.
Proof.
  intros E (l & Hd & Hlen & Hl). exists l. split_and!; [done|done|]. eapply Forall_impl; [exact Hl|]. intros b. by rewrite (used_ext v v').
Qed.

Lemma addrs_same ip : ip <| i_addrs := i_addrs ip |> = ip.
Proof. by destruct ip. Qed.

Lemma grown_found i ip hs s bn s' : file_at i ip hs s' -> calm s s' -> (forall n, vw s' n = vw s n) ->
  slot (vw s) (i_addrs ip) (pos bn) <> 0 -> grown i ip hs s bn ip hs s'.
Proof.
  intros Hf [C1 C2] V Hs. split; [done|lia|done|..].
  - rewrite C2. symmetry. apply list_insert_id. rewrite <- C2. apply Hf.
  - by rewrite addrs_same.
  - intros off. by apply wrote_refl.
  - by rewrite (slot_ext (vw s)).
  - intros m Hr. eapply room_ext; [exact V|]. by eapply room_le; [|exact Hr]; lia.
  - done.
Qed.

(** The block of an empty slot of the inode. *)
Lemma grown_direct i ip hs s (k bn : nat) r hs' s' : let ip' := ip <| i_addrs := <[k:=r]> (i_addrs ip) |> in
  file_at i ip hs s -> k = pos bn -> file_at i ip' hs' s' -> (length hs' <= length hs + 2)%nat -> others s' = others s ->
  k_icache s' = <[i:=ip']> (k_icache s) -> added (vw s) (i_addrs ip) k r (vw s') (i_addrs ip') ->
  grown i ip hs s bn ip' hs' s'.
Proof.
  intros ip' Hf -> Hf' Hlen Ho Hi Ha. split; [done|lia|done|done|done| | | |].
  - intros off. eapply added_wrote; [apply Hf|done].
  - rewrite (ad_slot _ _ _ _ _ _ Ha). apply data_pos, Ha.
  - intros m Hr. eapply room_le; [|eapply room_taken; [exact Hr|apply Ha]]. lia.
  - by rewrite (ad_empty _ _ _ _ _ _ Ha).
Qed.

(** The second part of [bmap], from the indirect block on. *)
Lemma wp_bmap_indirect i ip hs s bn m (Q : Z -> kstate -> Prop) :
  file_at i ip hs s -> (length hs < 26)%nat -> Z.of_nat NDIRECT <= bn < MAXFILE -> nthZ (i_addrs ip) NDIRECT <> 0 ->
  slot (vw s) (i_addrs ip) (pos (Z.to_nat bn)) = 0 -> room sb (S m) (vw s) ->
  (forall r hs' s', file_at i ip hs' s' -> (length hs' <= length hs + 3)%nat -> calm s s' ->
     added (vw s) (i_addrs ip) (pos (Z.to_nat bn)) r (vw s') (i_addrs ip) -> Q r s') ->
  wp (let* ip0 := get_i i in
      let* bp := bread fuel (i_dev ip0) (nthZ (i_addrs ip) NDIRECT) in
      let* buf := get_b bp in
      let addr := get_u32 (b_data buf) (Z.to_nat (4 * (bn - Z.of_nat NDIRECT))) in
      let* addr := (if negb (addr =? 0) then ret addr else
        let* addr := balloc fuel (i_dev ip0) in
        upd_data bp (fun d => put_u32 d (Z.to_nat (4 * (bn - Z.of_nat NDIRECT))) addr) ;;
        log_write bp ;;
        ret addr) in
      brelse bp ;;
      ret addr) Q s.
Proof.
  intros Hf Hroom Hbn Hi Hs Hr HQ. pose proof Hf as [Ht Hsb Hip Hd Hm Hok].
  pose proof Hs as Hs'. rewrite slot_bmap in Hs' by lia. destruct (Z.ltb_spec bn (Z.of_nat NDIRECT)); [lia|].
  destruct (Z.eqb_spec (nthZ (i_addrs ip) NDIRECT) 0); [done|].
  destruct (indirect_ok _ _ Hok Hi) as [Hrg Hu]. destruct (file_block _ Hrg) as (Hdb & Hd1 & Hsz).
  apply wp_bind. eapply wp_of_eq; [by apply get_i_Ok|]. rewrite Hd. set (d := nthZ (i_addrs ip) NDIRECT) in *.
  apply wp_bind, (wp_tx_bread [] hs); [done|unfold NBUF; simpl; lia|done|apply not_elem_of_nil|]. intros bp s1 T1 V1 C1.
  apply wp_bind. eapply wp_tx_get; [done|by left|]. intros buf Hbuf _. rewrite Hbuf, V1, Hs'. cbn [Z.eqb negb].
  do 2 apply wp_bind. eapply (wp_balloc [(bp, d)] hs s1); [lia|simpl; lia| | | |done|by rewrite (calm_sb _ _ C1)|].
  { intros b Hb. apply list_elem_of_singleton in Hb as ->. by rewrite (used_ext (vw s)). }
  { intros b Hb. rewrite (used_ext (vw s)) by done. by apply Hm. }
  2:{ eapply room_free, room_ext; [|exact Hr]. done. }
  intros r hs2 s2 T2 L2 C2 K2. assert (takes (vw s) r (vw s2)) as K.
  { by eapply takes_ext. }
  eapply wp_tx_update; [done|by left|done|done|lia| |].
  { unfold put_u32. rewrite length_splice. by eapply vw_len, tx_holds. }
  intros s3 T3 V3 C3. apply wp_ret, wp_bind. eapply wp_tx_brelse; [done|reflexivity|]. intros s4 T4 V4 C4.
  assert (calm s s4) as C by (by rewrite C1, C2, C3, C4).
  assert (added (vw s) (i_addrs ip) (pos (Z.to_nat bn)) r (vw s4) (i_addrs ip)) as Ha.
  { eapply (added_indirect _ _ _ _ (vw s2)); [done| |done|done|done|by eapply vw_len, tx_holds|].
    - destruct (pos_lt (Z.to_nat bn)); [lia|]. unfold pos in *. rewrite decide_False in * by lia. lia.
    - intros x. rewrite V4, V3. fold d. case_decide as E; [|done]. rewrite E. f_equal.
      unfold pos. rewrite decide_False by lia. lia. }
  apply wp_ret. apply (HQ r (absorb hs2 d) s4); [|pose proof (length_absorb hs2 d)|done|done]; [|lia].
  split; [done|by rewrite (calm_sb _ _ C)|by rewrite (proj2 C)|done| |by eapply added_ok].
  intros b Hb. pose proof lay_data. pose proof start_pos. rewrite (ad_used _ _ _ _ _ _ Ha) by lia. by rewrite Hm, orb_true_r.
Qed.

(** A new block in the indirect block, which was there or is new. *)
Lemma grown_indirect i ip hs s bn ip1 hs1 s1 (r : Z) hs' s' :
  file_at i ip1 hs1 s1 -> (length hs1 <= length hs + 2)%nat -> others s1 = others s -> k_icache s1 = <[i:=ip1]> (k_icache s) ->
  ip1 = ip <| i_addrs := i_addrs ip1 |> -> (forall off, wrote (vw s) (i_addrs ip) (vw s1) (i_addrs ip1) off []) ->
  (forall m, room sb (S m) (vw s) -> room sb m (vw s1)) -> slot (vw s) (i_addrs ip) (pos bn) = 0 ->
  file_at i ip1 hs' s' -> (length hs' <= length hs1 + 3)%nat -> calm s1 s' ->
  added (vw s1) (i_addrs ip1) (pos bn) r (vw s') (i_addrs ip1) -> grown i ip hs s bn ip1 hs' s'.
Proof.
  intros F1 L1 O1 I1 E1 W1 R1 Hs F' L' [C1 C2] Ha. split; [done|lia|congruence|congruence|done| | | |done].
  - intros off. apply (wrote_trans (vw s) (i_addrs ip) (vw s1) (i_addrs ip1) (vw s') (i_addrs ip1) off [] []);
      [intros x; simpl; lia|apply F'|done|]. eapply added_wrote; [apply F1|done].
  - rewrite (ad_slot _ _ _ _ _ _ Ha). apply data_pos, Ha.
  - intros m Hr. eapply room_taken; [by apply R1|apply Ha].
Qed.

Lemma wp_bmap i ip hs s bn (Q : Z -> kstate -> Prop) :
  file_at i ip hs s -> (length hs < 24)%nat -> (bn < Z.to_nat MAXFILE)%nat ->
  slot (vw s) (i_addrs ip) (pos bn) <> 0 \/ room sb 2 (vw s) ->
  (forall ip' hs' s', grown i ip hs s bn ip' hs' s' -> Q (slot (vw s') (i_addrs ip') (pos bn)) s') ->
  wp (bmap fuel i (Z.of_nat bn)) Q s.
Proof.
  intros Hf Hroom Hbn Hor HQ. destruct (Z.eq_dec (slot (vw s) (i_addrs ip) (pos bn)) 0) as [E0|E0].
  2:{ eapply wp_bmap_mapped; [done|unfold NBUF; lia|lia|by rewrite Nat2Z.id|]. intros s' Hf' C V. rewrite Nat2Z.id, <- (slot_ext _ _ _ _ V).
      eapply HQ. by apply grown_found. }
  destruct Hor as [?|Hr]; [done|]. unfold bmap. destruct (Z.ltb_spec (Z.of_nat bn) (Z.of_nat NDIRECT)) as [Hlt|Hge].
  - rewrite Nat2Z.id. assert (pos bn = bn) as Ep by (unfold pos; by rewrite decide_True by lia). rewrite Ep in *.
    eapply wp_addr_or_alloc; [done|lia|done|]. intros _. split_and!; [lia|by eapply room_free|].
    intros r hs' s' ip' Hf' Hlen Ho Hi Ha. rewrite <- (ad_slot _ _ _ _ _ _ Ha) at 1. eapply HQ. by eapply grown_direct.
  - destruct (Z.ltb_spec (Z.of_nat bn - Z.of_nat NDIRECT) NINDIRECT) as [Hlt|]; [cbn [negb]|unfold MAXFILE in Hbn; lia].
    rewrite <- (Nat2Z.id bn) in HQ, E0. apply wp_bind. eapply wp_addr_or_alloc; [done|lia|..]; rewrite slot_indirect; intros Hi.
    + eapply (wp_bmap_indirect _ _ _ _ _ 0); [done|lia|lia|done|done|by eapply room_le; [|done]; lia|]. intros r hs' s' F' L' C Ha.
      rewrite <- (ad_slot _ _ _ _ _ _ Ha). eapply HQ, (grown_indirect _ _ _ _ _ ip hs s); try done; [lia| | | |].
      * by rewrite list_insert_id by apply Hf.
      * by rewrite addrs_same.
      * intros off. by apply wrote_refl.
      * intros m. apply room_le. lia.
    + split_and!; [lia|by eapply room_free|]. intros r hs1 s1 ip1 F1 L1 O1 I1 A1.
      assert (r = nthZ (i_addrs ip1) NDIRECT) as Er by (by rewrite <- (slot_indirect (vw s1)), (ad_slot _ _ _ _ _ _ A1)).
      assert (slot (vw s1) (i_addrs ip1) (pos (Z.to_nat (Z.of_nat bn))) = 0) as Hs1.
      { destruct (pos_lt (Z.to_nat (Z.of_nat bn))) as [Hp Hp']; [lia|]. by rewrite (ad_slots _ _ _ _ _ _ A1). }
      rewrite Er. eapply (wp_bmap_indirect _ _ _ _ _ 0); [done|lia|lia| |done|by eapply room_taken; [done|apply A1]|].
      { rewrite <- Er. apply data_pos, A1. }
      intros r' hs' s' F' L' C Ha. rewrite <- (ad_slot _ _ _ _ _ _ Ha). eapply HQ, (grown_indirect _ _ _ _ _ ip1 hs1 s1); try done.
      * intros off. eapply added_wrote; [apply Hf|done].
      * intros m Hm. eapply room_taken; [done|apply A1].
Qed.

(** ** Writing a file *)

(** The bytes [bs] were written at [off] in [k] rounds, each of which logs at
    most six blocks and takes at most two. *)
Record written (i : nat) (ip : inode) (hs : list Z) (s : kstate) (off : nat) (bs : list Z) (k : nat)
    (ip' : inode) (hs' : list Z) (s' : kstate) : Prop := {
  wt_at : file_at i ip' hs' s';
  wt_log : (length hs' <= length hs + 6 * k)%nat;
  wt_room m : room sb (2 * k + m) (vw s) -> room sb m (vw s');
  wt_others : others s' = others s;
  wt_icache : k_icache s' = <[i:=ip']> (k_icache s);
  wt_ip : ip' = ip <| i_addrs := i_addrs ip' |>;
  wt_wrote : wrote (vw s) (i_addrs ip) (vw s') (i_addrs ip') off bs;
  wt_same : mapped (vw s) (i_addrs ip) off (length bs) -> i_addrs ip' = i_addrs ip
}.

Lemma written_nil i ip hs s off : file_at i ip hs s -> written i ip hs s off [] 0 ip hs s.
Proof.
  intros Hf. split; [done|lia|done|done| | |by apply wrote_refl|done].
  - symmetry. apply list_insert_id, Hf.
  - by rewrite addrs_same.
Qed.

Lemma mapped_app v a off m n : mapped v a off (m + n) -> mapped v a off m /\ mapped v a (off + m) n.
Proof. intros H. split; intros x Hx; apply H; lia. Qed.

Lemma mapped_kept v a v1 a1 off bs off' n : wrote v a v1 a1 off bs -> mapped v a off' n -> mapped v1 a1 off' n.
Proof.
  intros W H x Hx. destruct (H x Hx) as [Hm Hs]. split; [done|]. rewrite (wr_slot _ _ _ _ _ _ W); [done|by apply pos_lt|done].
Qed.

Lemma written_trans i ip hs s off bs k ip1 hs1 s1 bs2 k2 ip2 hs2 s2 :
  (forall x, (off <= x < off + length bs + length bs2)%nat -> (x / 512 < Z.to_nat MAXFILE)%nat) ->
  written i ip hs s off bs k ip1 hs1 s1 -> written i ip1 hs1 s1 (off + length bs) bs2 k2 ip2 hs2 s2 ->
  written i ip hs s off (bs ++ bs2) (k + k2) ip2 hs2 s2.
Proof.
  intros Hmax [A1 L1 R1 O1 I1 P1 W1 S1] [A2 L2 R2 O2 I2 P2 W2 S2]. split; [done|lia| |congruence| | | |].
  - intros m Hr. apply R2, R1. by replace (2 * k + (2 * k2 + m))%nat with (2 * (k + k2) + m)%nat by lia.
  - rewrite I2, I1. apply list_insert_insert_eq.
  - rewrite P2, P1. by destruct ip.
  - eapply wrote_trans; [done|apply A2|done|done].
  - rewrite length_app. intros [M1 M2]%mapped_app. rewrite S2; [by apply S1|by eapply mapped_kept].
Qed.

(** One round: the block for [off] is found or made, and written to. *)
Lemma written_round i ip hs s off bs ip1 hs1 s1 hs2 s2 : (off / 512 < Z.to_nat MAXFILE)%nat -> (0 < length bs)%nat ->
  (off mod 512 + length bs <= 512)%nat -> file_at i ip hs s -> grown i ip hs s (off / 512) ip1 hs1 s1 -> tx [] hs2 s2 -> (length hs2 <= S (length hs1))%nat ->
  calm s1 s2 -> (forall n, vw s2 n = if decide (n = slot (vw s1) (i_addrs ip1) (pos (off / 512)))
    then splice (vw s1 n) (off mod 512) bs else vw s1 n) -> written i ip hs s off bs 1 ip1 hs2 s2.
Proof.
  intros Hmax Hpos Hin Hf [A1 L1 O1 I1 P1 W1 S1 R1 E1] T2 L2 [C1 C2] V2. pose proof (fa_ok _ _ _ _ A1) as Hok1.
  assert (length (vw s1 (slot (vw s1) (i_addrs ip1) (pos (off / 512)))) = Z.to_nat BSIZE) as Hlen by (eapply vw_len, tx_holds, A1).
  assert (file_at i ip1 hs2 s2) as A2.
  { destruct A1 as [_ B1 B2 B3 B4 B5]. split; [done|by rewrite (calm_sb s1)|by rewrite C2|done| |by eapply block_ok].
    intros b Hb. pose proof lay_data. pose proof start_pos. rewrite (block_used (vw s1) (i_addrs ip1) _ off bs); try done; [by apply B4|lia]. }
  split; [done|lia| |congruence|congruence|done| |].
  - intros m Hr. eapply (room_kept (vw s1)); [|by apply R1]. intros x Hx. by apply (block_used (vw s1) (i_addrs ip1) (vw s2) off bs).
  - apply (wrote_trans (vw s) (i_addrs ip) (vw s1) (i_addrs ip1) (vw s2) (i_addrs ip1) off [] bs); [|apply A2|apply W1|].
    + intros x Hx. simpl in Hx. destruct (in_block off (x - off)) as [Hd _]; [lia|]. replace (off + (x - off))%nat with x in Hd by lia. by rewrite Hd.
    + simpl. rewrite Nat.add_0_r. by apply block_wrote.
  - intros Hm. apply E1, (Hm off). lia.
Qed.

Lemma written_le i ip hs s off bs k k' ip' hs' s' : (k <= k')%nat -> written i ip hs s off bs k ip' hs' s' -> written i ip hs s off bs k' ip' hs' s'.
Proof. intros Hk [? ? HR ? ? ? ? ?]. split; try done; [lia|]. intros m Hr. apply HR. eapply room_le; [|exact Hr]. lia. Qed.

Lemma wp_writei_loop i rounds : forall ip hs s src bs off tot n (Q : unit -> kstate -> Prop),
  file_at i ip hs s -> src_has src bs s -> (tot <= n)%nat -> length bs = (n - tot)%nat -> (span off (n - tot) <= rounds)%nat ->
  (forall x, (off <= x < off + (n - tot))%nat -> (x / 512 < Z.to_nat MAXFILE)%nat) ->
  (length hs + 6 * span off (n - tot) <= 28)%nat ->
  mapped (vw s) (i_addrs ip) off (n - tot) \/ room sb (2 * span off (n - tot)) (vw s) ->
  (forall ip' hs' s', written i ip hs s off bs (span off (n - tot)) ip' hs' s' -> Q tt s') ->
  wp (writei_loop fuel rounds i src (Z.of_nat off) (Z.of_nat tot) (Z.of_nat n)) Q s.
Proof.
  induction rounds as [|rounds IH]; intros ip hs s src bs off tot n Q Hf Hsrc Htot Hbs Hr Hmax Hroom Hor HQ; cbn [writei_loop];
    (destruct (Z.ltb_spec (Z.of_nat tot) (Z.of_nat n)) as [Hlt|Hge]; cbn [negb];
     [pose proof (span_next off (n - tot) ltac:(lia)) as Hnext; try lia|]);
    try (apply wp_ret; eapply HQ; replace (n - tot)%nat with 0%nat in * by lia; apply nil_length_inv in Hbs as ->; by apply written_nil).
  destruct (chunk_pos off (n - tot)) as (Hc1 & Hc2 & Hc3). specialize (Hc1 ltac:(lia)).
  rewrite off_div, chunk_Z, off_mod, !Nat2Z.id by lia. set (m := chunk off (n - tot)) in *.
  assert (off / 512 < Z.to_nat MAXFILE)%nat as Hm by (apply Hmax; lia).
  replace (n - tot - m)%nat with (n - (tot + m))%nat in Hnext by lia. set (k := span (off + m) (n - (tot + m))) in *.
  apply wp_bind. eapply wp_bmap; [done|lia|done| |].
  { destruct Hor as [Hmap|Hrm]; [left; apply (Hmap off); lia|right; by eapply room_le; [|done]; lia]. }
  intros ip1 hs1 s1 G. pose proof (gr_at _ _ _ _ _ _ _ _ G) as F1. pose proof F1 as [T1 _ Hip Hd _ Hok1].
  apply wp_bind. eapply wp_of_eq; [by apply get_i_Ok|]. rewrite Hd. destruct (pos_lt _ Hm) as [Hp _].
  set (b := slot (vw s1) (i_addrs ip1) (pos (off / 512))) in *.
  destruct (fo_slot _ _ Hok1 _ Hp (gr_slot _ _ _ _ _ _ _ _ G)) as [Hrng _]. destruct (file_block _ Hrng) as (Hdb & Hb1 & Hsz). fold b in Hrng, Hdb, Hb1, Hsz.
  pose proof (gr_log _ _ _ _ _ _ _ _ G) as L1.
  apply wp_bind, (wp_tx_bread [] hs1); [done|unfold NBUF; simpl; lia|done|apply not_elem_of_nil|]. intros bp s2 T2 V2 C2.
  assert (length (take m bs) = m) as Hlt' by (rewrite length_take; lia).
  assert (others s2 = others s) as O2 by (rewrite (proj1 C2); apply G).
  apply wp_bind. eapply wp_fetch; [apply (ho_thr _ _ _ _ _ _ _ _ (tx_holds _ _ _ T2))|by eapply src_has_others|lia|]. intros src' Hsrc'.
  eapply wp_tx_update; [done|by left|done|done|lia| |].
  { rewrite length_splice. by eapply vw_len, tx_holds. }
  intros s3 T3 V3 C3. apply wp_bind. eapply wp_tx_brelse; [done|reflexivity|]. intros s4 T4 V4 C4.
  pose proof (length_absorb hs1 b) as La.
  assert (forall x, vw s4 x = if decide (x = b) then splice (vw s1 x) (off mod 512) (take m bs) else vw s1 x) as V.
  { intros x. rewrite V4, V3. case_decide as E; [by rewrite E, V2|by rewrite V2]. }
  assert (written i ip hs s off (take m bs) 1 ip1 (absorb hs1 b) s4) as W.
  { by eapply (written_round _ _ _ _ _ _ _ hs1 s1); [|lia|lia|..|rewrite C2, C3, C4|]. }
  replace (Z.of_nat off + Z.of_nat m) with (Z.of_nat (off + m)) by lia. replace (Z.of_nat tot + Z.of_nat m) with (Z.of_nat (tot + m)) by lia.
  apply (IH ip1 (absorb hs1 b) s4 src' (drop m bs)); fold k; [apply W| |lia|rewrite length_drop; lia|lia|intros x Hx; apply Hmax; lia|lia| |].
  - eapply src_has_others; [|exact Hsrc']. by rewrite (proj1 C4), (proj1 C3).
  - destruct Hor as [Hmap|Hrm].
    + left. eapply mapped_kept; [apply W|]. intros x Hx. apply Hmap. lia.
    + right. apply (wt_room _ _ _ _ _ _ _ _ _ _ W). eapply room_le; [|exact Hrm]. lia.
  - intros ip' hs' s' W'. eapply HQ. rewrite <- (take_drop m bs). eapply (written_le _ _ _ _ _ _ (1 + k)); [lia|].
    eapply written_trans; [|exact W|rewrite Hlt'; exact W'].
    intros x. rewrite length_drop, Hlt'. intros Hx. apply Hmax. lia.
Qed.

(** ** The inode on the disk *)

Definition dinode_of (ip : inode) : dinode :=
  MkDinode (i_type ip) (i_major ip) (i_minor ip) (i_nlink ip) (i_size ip) (i_addrs ip).
Definition inode_of (v : Z -> list Z) (j : Z) : dinode := dinode_at (v (IBLOCK j sb)) (IOFF j).

Definition inum_ok (j : Z) : Prop := 0 <= j < sb_ninodes sb.

Lemma IBLOCK_at j : inum_ok j -> IBLOCK j sb = j / IPB + sb_inodestart sb /\ sb_inodestart sb <= IBLOCK j sb < sb_bmapstart sb /\
  data_block size ls (IBLOCK j sb) /\ IBLOCK j sb <> 1.
Proof.
  intros Hj. unfold inum_ok in Hj. pose proof start_pos. pose proof lay_inodes. pose proof lay_bmap. pose proof lay_data. pose proof lay_disk.
  pose proof lay_log. pose proof (Z.div_pos j IPB ltac:(lia) ltac:(done)). pose proof (Z.div_le_mono j (sb_ninodes sb - 1) IPB ltac:(done) ltac:(lia)).
  assert (IBLOCK j sb = j / IPB + sb_inodestart sb) as E by (apply u32_small; lia). rewrite E. unfold data_block. change LOGSIZE with 30 in *. lia.
Qed.

Lemma IOFF_at j : Z.of_nat (IOFF j) = 64 * (j mod 8) /\ (IOFF j + 64 <= 512)%nat.
Proof. unfold IOFF. change IPB with 8. change DINODE_SIZE with 64. pose proof (Z.mod_pos_bound j 8). lia. Qed.

(** The block with the inode [j] replaced. *)
Lemma inode_replaced v v' j d : inum_ok j -> dinode_ok d -> length (v (IBLOCK j sb)) = Z.to_nat BSIZE ->
  (forall n, v' n = if decide (n = IBLOCK j sb) then splice (v n) (IOFF j) (dinode_bytes d) else v n) ->
  inode_of v' j = d /\ forall k, inum_ok k -> k <> j -> inode_of v' k = inode_of v k.
Proof.
  intros Hj Hd Hlen Hv. change (Z.to_nat BSIZE) with 512%nat in Hlen. destruct (IOFF_at j) as [Oj1 Oj2]. unfold inode_of. split.
  - rewrite Hv, decide_True by done. apply dinode_at_splice; [done|lia].
  - intros k Hk Hne. rewrite Hv. case_decide as E; [|done]. rewrite E. apply dinode_at_splice_out; [apply Hd|].
    destruct (IBLOCK_at j Hj) as [Ej _]. destruct (IBLOCK_at k Hk) as [Ek _]. destruct (IOFF_at k) as [Ok1 Ok2]. change IPB with 8 in *.
    pose proof (Z.div_mod j 8 ltac:(lia)). pose proof (Z.div_mod k 8 ltac:(lia)). lia.
Qed.

(** The numbers of an inode fit their fields. *)
Definition shorts (ip : inode) : Prop :=
  Forall (fun x => - 2 ^ 15 <= x < 2 ^ 15) [i_type ip; i_major ip; i_minor ip; i_nlink ip].

Lemma file_dinode v ip : file_ok v (i_addrs ip) -> shorts ip -> 0 <= i_size ip < 2 ^ 32 -> dinode_ok (dinode_of ip).
Proof.
  intros Hok Hs Hsz. split; [exact Hs|]. split; [exact Hsz|]. split; [|apply Hok]. simpl. apply Forall_lookup. intros k x Hx.
  pose proof (lookup_lt_Some _ _ _ Hx) as Hk. rewrite (fo_len _ _ Hok) in Hk. assert (slot v (i_addrs ip) k = x) as E.
  { unfold slot, nthZ. by rewrite decide_True, Hx by lia. }
  destruct (Z.eq_dec x 0) as [->|Hne]; [lia|]. pose proof indirect_slot.
  destruct (fo_slot _ _ Hok k) as [Hr _]; [lia|congruence|]. rewrite E in Hr. pose proof lay_data. pose proof lay_disk. pose proof start_pos. pose proof lay_bmap. lia.
Qed.

Lemma wp_iupdate i ip hs s (Q : unit -> kstate -> Prop) :
  file_at i ip hs s -> inum_ok (i_inum ip) -> (length hs < 29)%nat ->
  (forall s', file_at i ip (absorb hs (IBLOCK (i_inum ip) sb)) s' -> calm s s' ->
     (forall n, vw s' n = if decide (n = IBLOCK (i_inum ip) sb) then splice (vw s n) (IOFF (i_inum ip)) (dinode_bytes (dinode_of ip)) else vw s n) ->
     Q tt s') ->
  wp (iupdate fuel i) Q s.
Proof.
  intros Hf Hj Hroom HQ. pose proof Hf as [Ht Hsb Hip Hd Hm Hok]. destruct (IBLOCK_at _ Hj) as (_ & Hr & [Hb Hb'] & Hb1). unfold iupdate, get_sb.
  apply wp_bind. eapply wp_of_eq; [by apply get_i_Ok|]. apply wp_bind, wp_gets. rewrite Hsb, Hd. set (b := IBLOCK (i_inum ip) sb) in *.
  apply wp_bind, (wp_tx_bread [] hs); [done|unfold NBUF; simpl; lia|done|apply not_elem_of_nil|]. intros bp s1 T1 V1 C1.
  apply wp_bind. eapply wp_of_eq; [by apply get_i_Ok; rewrite (proj2 C1)|]. change (MkDinode _ _ _ _ _ _) with (dinode_of ip).
  eapply wp_tx_update; [done|by left|done|done|done| |].
  { rewrite length_splice. by eapply vw_len, tx_holds. }
  intros s2 T2 V2 C2. eapply wp_tx_brelse; [done|reflexivity|]. intros s3 T3 V3 C3.
  assert (calm s s3) as C by (by rewrite C1, C2, C3).
  assert (forall n, vw s3 n = if decide (n = b) then splice (vw s n) (IOFF (i_inum ip)) (dinode_bytes (dinode_of ip)) else vw s n) as V.
  { intros n. rewrite V3, V2. case_decide as E; [by rewrite E, V1|by rewrite V1]. }
  apply HQ; [|done|done]. pose proof lay_bmap. assert (forall n, sb_bmapstart sb <= n -> vw s3 n = vw s n) as Vl by (intros n Hn; by rewrite V, decide_False by lia).
  split; [done|by rewrite (calm_sb _ _ C)|by rewrite (proj2 C)|done| |by eapply file_ok_low].
  intros x Hx. pose proof lay_data. rewrite (used_low (vw s)) by (done || lia). by apply Hm.
Qed.

(** What a write does to the content. *)
Definition put_at (c : list Z) (off : nat) (bs : list Z) : list Z := take off c ++ bs ++ drop (off + length bs) c.

Record file_written (v : Z -> list Z) (ip : inode) (v' : Z -> list Z) (ip' : inode) (off : nat) (bs : list Z) : Prop := {
  fw_ip : ip' = ip <| i_addrs := i_addrs ip' |> <| i_size := Z.max (i_size ip) (Z.of_nat (off + length bs)) |>;
  fw_content : content v' ip' = put_at (content v ip) off bs;
  fw_sized : sized v' ip';
  fw_synced : inode_of v (i_inum ip) = dinode_of ip -> inode_of v' (i_inum ip) = dinode_of ip';
  fw_inodes j : inum_ok j -> j <> i_inum ip -> inode_of v' j = inode_of v j;
  fw_used b : ds <= b < sb_size sb -> used v' b = true <-> used v b = true \/ exists k, (k < NSLOT)%nat /\ slot v' (i_addrs ip') k = b;
  fw_other b : ds <= b < sb_size sb -> used v b = true -> (forall k, (k < NSLOT)%nat -> slot v (i_addrs ip) k <> b) -> v' b = v b;
  fw_slot k : (k < NSLOT)%nat -> slot v (i_addrs ip) k <> 0 -> slot v' (i_addrs ip') k = slot v (i_addrs ip) k;
  fw_fresh k : (k < NSLOT)%nat -> slot v (i_addrs ip) k = 0 -> slot v' (i_addrs ip') k <> 0 -> used v (slot v' (i_addrs ip') k) = false
}.

Lemma length_content v ip : length (content v ip) = Z.to_nat (i_size ip).
Proof. unfold content. by rewrite length_map, length_seq. Qed.

Lemma lookup_content v ip j : (j < Z.to_nat (i_size ip))%nat -> content v ip !! j = Some (byte_at v (i_addrs ip) j).
Proof. intros Hj. unfold content. rewrite list_lookup_fmap, lookup_seq_lt by done. done. Qed.

Lemma content_put v ip v' ip' off bs :
  wrote v (i_addrs ip) v' (i_addrs ip') off bs -> sized v ip -> Z.of_nat off <= i_size ip ->
  i_size ip' = Z.max (i_size ip) (Z.of_nat (off + length bs)) -> content v' ip' = put_at (content v ip) off bs.
Proof.
  intros W [Hsz Hmap] Hoff Esz. set (c := content v ip). pose proof (length_content v ip) as Hl. fold c in Hl.
  assert (length (take off c) = off) as Ht by (rewrite length_take; lia).
  apply list_eq. intros j. unfold put_at. destruct (decide (j < Z.to_nat (i_size ip'))%nat) as [Hj|Hj].
  2:{ rewrite !lookup_ge_None_2; [done| |rewrite length_content; lia]. rewrite !length_app, length_drop, Ht. lia. }
  rewrite lookup_content by done. destruct (decide (j < off)%nat) as [H1|H1].
  { rewrite lookup_app_l, lookup_take_lt by lia. unfold c. rewrite lookup_content by lia. f_equal. destruct (Hmap j ltac:(lia)).
    apply (wr_out _ _ _ _ _ _ W); [done|lia|done]. }
  rewrite lookup_app_r, Ht by lia. destruct (decide (j < off + length bs)%nat) as [H2|H2].
  - rewrite lookup_app_l by lia. rewrite (wr_in _ _ _ _ _ _ W) by lia. unfold nthZ.
    destruct (lookup_lt_is_Some_2 bs (j - off)) as [x ->]; [lia|done].
  - rewrite lookup_app_r, lookup_drop by lia. replace (off + length bs + (j - off - length bs))%nat with j by lia. unfold c.
    rewrite lookup_content by lia. f_equal. destruct (Hmap j ltac:(lia)). apply (wr_out _ _ _ _ _ _ W); [done|lia|done].
Qed.

Lemma sized_put v ip v' ip' off bs :
  wrote v (i_addrs ip) v' (i_addrs ip') off bs -> sized v ip -> Z.of_nat off <= i_size ip -> Z.of_nat (off + length bs) <= MAXFILE * BSIZE ->
  i_size ip' = Z.max (i_size ip) (Z.of_nat (off + length bs)) -> sized v' ip'.
Proof.
  intros W [Hsz Hmap] Hoff Hmax Esz. split; [lia|]. intros x Hx. destruct (decide (x < Z.to_nat (i_size ip))%nat) as [Hlt|Hge].
  - apply (mapped_kept _ _ _ _ _ _ _ _ W Hmap). lia.
  - split; [|apply (wr_mapped _ _ _ _ _ _ W); lia]. change (MAXFILE * BSIZE) with 71680 in *. change (Z.to_nat MAXFILE) with 140%nat.
    apply Nat.Div0.div_lt_upper_bound. lia.
Qed.

Lemma inode_of_low v v' j : inum_ok j -> (forall n, n < sb_bmapstart sb -> v' n = v n) -> inode_of v' j = inode_of v j.
Proof. intros Hj Hv. destruct (IBLOCK_at j Hj) as (_ & Hr & _). unfold inode_of. by rewrite Hv by lia. Qed.

Section intro.
Context (v : Z -> list Z) (ip : inode) (v1 : Z -> list Z) (ip' : inode) (off : nat) (bs : list Z).
Hypothesis W : wrote v (i_addrs ip) v1 (i_addrs ip') off bs.
Hypothesis Hok : file_ok v1 (i_addrs ip').
Hypothesis Hsz : sized v ip.
Hypothesis Hoff : Z.of_nat off <= i_size ip.
Hypothesis Hmax : Z.of_nat (off + length bs) <= MAXFILE * BSIZE.
Hypothesis Hj : inum_ok (i_inum ip).
Hypothesis Hip : ip' = ip <| i_addrs := i_addrs ip' |> <| i_size := Z.max (i_size ip) (Z.of_nat (off + length bs)) |>.

Lemma written_used b : ds <= b < sb_size sb ->
  used v1 b = true <-> used v b = true \/ exists k, (k < NSLOT)%nat /\ slot v1 (i_addrs ip') k = b.
Proof.
  intros Hb. pose proof (data_pos b (proj1 Hb)). split; [by apply W|]. intros [Hu|(k & Hk & E)].
  - apply (wr_used _ _ _ _ _ _ W); [by apply data_nonneg|done].
  - rewrite <- E. apply Hok; [done|congruence].
Qed.

(** A write within the file changes no inode. *)
Lemma written_within : i_addrs ip' = i_addrs ip -> Z.of_nat (off + length bs) <= i_size ip -> file_written v ip v1 ip' off bs.
Proof.
  intros Ea Hle. assert (i_size ip' = Z.max (i_size ip) (Z.of_nat (off + length bs))) as Es by (rewrite Hip; by destruct ip).
  split; [done|by eapply content_put|by eapply sized_put| |..].
  - rewrite (inode_of_low v v1) by (done || apply W). intros ->. rewrite Hip, Ea, Z.max_l by lia. by destruct ip.
  - intros j Hj' _. apply inode_of_low; [done|apply W].
  - apply written_used.
  - apply W.
  - apply W.
  - apply W.
Qed.

(** A write past the end updates the inode. *)
Lemma written_past v2 : shorts ip -> length (v1 (IBLOCK (i_inum ip) sb)) = Z.to_nat BSIZE ->
  (forall n, v2 n = if decide (n = IBLOCK (i_inum ip) sb) then splice (v1 n) (IOFF (i_inum ip)) (dinode_bytes (dinode_of ip')) else v1 n) ->
  file_written v ip v2 ip' off bs.
Proof.
  intros Hsh Hlen Hv. assert (i_size ip' = Z.max (i_size ip) (Z.of_nat (off + length bs))) as Es by (rewrite Hip; by destruct ip).
  pose proof (sized_put _ _ _ _ _ _ W Hsz Hoff Hmax Es) as [Hs1 Hm1]. destruct (IBLOCK_at _ Hj) as (_ & Hr & _). pose proof lay_bmap.
  assert (forall n, sb_bmapstart sb <= n -> v2 n = v1 n) as Vl by (intros n Hn; by rewrite Hv, decide_False by lia).
  assert (dinode_ok (dinode_of ip')) as Hd.
  { eapply file_dinode; [done|rewrite Hip; by destruct ip|]. change (MAXFILE * BSIZE) with 71680 in Hs1. lia. }
  destruct (inode_replaced v1 v2 _ _ Hj Hd Hlen Hv) as [R1 R2]. split; [done| | |done|..].
  - rewrite <- (content_put _ _ _ _ _ _ W Hsz Hoff Es). unfold content. apply map_ext_in. intros x Hx%in_seq.
    destruct (Hm1 x ltac:(lia)). by apply byte_low.
  - split; [done|]. intros x Hx. rewrite (slot_low v1) by done. by apply Hm1.
  - intros j Hj' Hne. rewrite R2 by done. apply inode_of_low; [done|apply W].
  - intros b Hb. rewrite (used_low v1 v2) by (done || by apply data_nonneg). rewrite written_used by done.
    by setoid_rewrite (slot_low v1 v2 (i_addrs ip') Hok Vl).
  - intros b Hb Hu Hno. rewrite Vl by lia. by apply (wr_other _ _ _ _ _ _ W).
  - intros k. rewrite (slot_low v1 v2 (i_addrs ip') Hok Vl). apply W.
  - intros k. rewrite (slot_low v1 v2 (i_addrs ip') Hok Vl). apply W.
Qed.
End intro.

Lemma file_at_icset i ip hs s ip2 : file_at i ip hs s -> i_dev ip2 = i_dev ip -> i_addrs ip2 = i_addrs ip -> file_at i ip2 hs (icset i ip2 s).
Proof.
  intros [Ht Hsb Hip Hd Hm Hok] E1 E2. split; [by apply tx_icset|done| |congruence|done|by rewrite E2].
  unfold icset. simpl. apply list_lookup_insert_eq. by eapply lookup_lt_Some.
Qed.

Lemma wp_writei devsw i ip hs s src (off : Z) (bs : list Z) (Q : Z -> kstate -> Prop) :
  let n := Z.of_nat (length bs) in let k := span (Z.to_nat off) (length bs) in
  file_at i ip hs s -> src_has src bs s -> i_type ip <> T_DEV -> sized (vw s) ip -> shorts ip -> inum_ok (i_inum ip) -> 0 <= off < 2 ^ 32 -> n < 2 ^ 32 ->
  (if (i_size ip <? off) || (MAXFILE * BSIZE <? off + n) then Q (-1) s else
   (length hs + 6 * k <= 28)%nat /\ (mapped (vw s) (i_addrs ip) (Z.to_nat off) (length bs) \/ room sb (2 * k) (vw s)) /\
   forall ip' hs' s', file_at i ip' hs' s' -> (length hs' <= length hs + 6 * k + 1)%nat -> others s' = others s ->
     k_icache s' = <[i:=ip']> (k_icache s) -> (forall m, room sb (2 * k + m) (vw s) -> room sb m (vw s')) ->
     file_written (vw s) ip (vw s') ip' (Z.to_nat off) bs -> Q n s') ->
  wp (writei fuel devsw i src off n) Q s.
Proof.
  intros n k Hf Hsrc Hty Hsz Hsh Hj Hoff Hn HQ. pose proof Hsz as [Hsz1 Hmap]. unfold writei. apply wp_bind. eapply wp_of_eq; [apply get_i_Ok, Hf|].
  destruct (Z.eqb_spec (i_type ip) T_DEV); [done|]. change (MAXFILE * BSIZE) with 71680 in *.
  destruct (Z.ltb_spec (i_size ip) off) as [Hlt|Hge]; cbn [orb] in *; [by apply wp_ret|].
  destruct (Z.ltb_spec 71680 (off + n)) as [Hbig|Hfit].
  { destruct (Z.ltb_spec (u32 (off + n)) off) as [|Hno]; [by apply wp_ret|].
    destruct (Z.leb_spec (2 ^ 32) (off + n)) as [Hov|Hov].
    - assert (u32 (off + n) = off + n - 2 ^ 32) as E by (unfold u32; symmetry; apply (Z.mod_unique _ _ 1); lia). lia.
    - rewrite u32_small by lia. destruct (Z.ltb_spec 71680 (off + n)); [by apply wp_ret|lia]. }
  destruct HQ as (Hroom & Hor & HQ). rewrite u32_small by lia. destruct (Z.ltb_spec (off + n) off); [lia|].
  destruct (Z.ltb_spec 71680 (off + n)); [lia|].
  assert (forall x, (Z.to_nat off <= x < Z.to_nat off + length bs)%nat -> (x / 512 < Z.to_nat MAXFILE)%nat) as Hmax.
  { intros x Hx. change (Z.to_nat MAXFILE) with 140%nat. apply Nat.Div0.div_lt_upper_bound. lia. }
  pose proof (wp_writei_loop i (Z.to_nat (n / BSIZE + 2)) ip hs s src bs (Z.to_nat off) 0 (length bs)) as Hloop.
  rewrite Nat.sub_0_r, Z2Nat.id in Hloop by lia. fold n k in Hloop. change (Z.of_nat 0) with 0 in Hloop.
  apply wp_bind, Hloop; [done|done|lia|done|apply span_start|done|done|done|]. clear Hloop. intros ip1 hs1 s1 [A1 L1 R1 O1 I1 P1 W1 S1].
  apply wp_bind. eapply wp_of_eq; [apply get_i_Ok, A1|]. assert (i_size ip1 = i_size ip) as Es by (rewrite P1; by destruct ip). rewrite Es.
  assert (Z.of_nat (Z.to_nat off + length bs) = off + n) as En by lia. rewrite i32_small by lia.
  destruct ((0 <? n) && (i_size ip <? off + n)) eqn:Eg; cbn [when].
  - apply andb_prop in Eg as [_ Eg%Z.ltb_lt]. set (ip2 := ip1 <| i_size := off + n |>). do 2 apply wp_bind.
    eapply wp_of_eq; [apply upd_i_Ok, A1|]. fold ip2. assert (file_at i ip2 hs1 (icset i ip2 s1)) as A2 by (by apply file_at_icset with (ip := ip1)).
    assert (i_inum ip2 = i_inum ip) as Ej by (unfold ip2; rewrite P1; by destruct ip).
    eapply wp_iupdate; [exact A2|by rewrite Ej|lia|]. rewrite Ej. intros s3 A3 [C3 C3'] V3. apply wp_ret. eapply HQ; [exact A3| | | | |].
    + pose proof (length_absorb hs1 (IBLOCK (i_inum ip) sb)). lia.
    + rewrite C3. exact O1.
    + rewrite C3'. unfold icset. simpl. rewrite I1. apply list_insert_insert_eq.
    + intros m Hr. apply R1 in Hr. eapply room_kept; [|exact Hr]. intros b Hb. apply used_ext. rewrite V3. destruct (BBLOCK_at b Hb) as [_ Hbb].
      destruct (IBLOCK_at _ Hj) as (_ & Hir & _). rewrite decide_False by lia. done.
    + eapply (written_past _ _ (vw s1)); [exact W1|apply A1|done|lia|change (MAXFILE * BSIZE) with 71680; lia|done| |done|eapply vw_len, tx_holds, A1|done].
      unfold ip2. rewrite P1, En, Z.max_r by lia. by destruct ip.
  - apply wp_bind, wp_ret, wp_ret. assert (Z.of_nat (Z.to_nat off + length bs) <= i_size ip) as Hle.
    { apply andb_false_iff in Eg as [Eg%Z.ltb_ge|Eg%Z.ltb_ge]; lia. }
    eapply HQ; [exact A1|lia|done|done|done|]. apply written_within; [done|apply A1|done|lia|change (MAXFILE * BSIZE) with 71680; lia|done| | |lia].
    + rewrite P1, Z.max_l by lia. by destruct ip.
    + apply S1. intros x Hx. split; [by apply Hmax|]. apply Hmap. lia.
Qed.
End tx.

Arguments tx : clear implicits.
Arguments file_at : clear implicits.
Arguments inode_of : clear implicits.
Arguments inum_ok : clear implicits.
Arguments file_written : clear implicits.
