(* ===== verification/Filewrite.v ===== *)
(** * Files on the disk (fs.c, log.c)

    What a file is on the disk, and what a transaction that writes one leaves:
    all of it when [end_op] returns, and all or nothing when the machine stops
    during the commit. [readi] returns the bytes of the file. *)

From stdpp Require Import base functions numbers list list_numbers sets gmap strings.
From S2P Require Import Prelude Kmonad Params Kstate Spinlock KString Kalloc Cprintf Vm Umem Demo Sched Thread Sleeplock Bio Cache Log Commit Fs Blockmap Inode.

Local Open Scope Z_scope.

(** ** Files on a disk *)

Section disk.
Context {size ls : Z} (sb : superblock) (ds : Z) {Hlay : Layout size ls sb ds}.

(** The bytes of the file with inode number [j] on the disk [v]. *)
Definition disk_content (v : Z -> list Z) (j : Z) : list Z :=
  map (byte_at v (d_addrs (inode_of sb v j))) (seq 0 (Z.to_nat (d_size (inode_of sb v j)))).

Definition disk_file (v : Z -> list Z) (j : Z) : Prop :=
  inum_ok sb j /\ file_ok sb ds v (d_addrs (inode_of sb v j)) /\
  mapped v (d_addrs (inode_of sb v j)) 0 (Z.to_nat (d_size (inode_of sb v j))).

(** Two files share no block. *)
Definition apart (v : Z -> list Z) (a a' : list Z) : Prop :=
  forall k k', (k < NSLOT)%nat -> (k' < NSLOT)%nat -> slot v a k <> 0 -> slot v a' k' <> slot v a k.

(** A file is where its inode and its blocks are. *)
Lemma slot_agree v v' a k : file_ok sb ds v a -> (forall k, (k < NSLOT)%nat -> slot v a k <> 0 -> v' (slot v a k) = v (slot v a k)) ->
  slot v' a k = slot v a k.
Proof.
  intros Hok Hv. unfold slot. case_decide; [done|]. destruct (Z.eqb_spec (nthZ a NDIRECT) 0) as [|Hi]; [done|].
  specialize (Hv NDIRECT indirect_slot). rewrite slot_indirect in Hv. by rewrite Hv.
Qed.

Lemma content_agree v v' j : disk_file v j -> inode_of sb v' j = inode_of sb v j ->
  (forall k, (k < NSLOT)%nat -> slot v (d_addrs (inode_of sb v j)) k <> 0 ->
     v' (slot v (d_addrs (inode_of sb v j)) k) = v (slot v (d_addrs (inode_of sb v j)) k)) ->
  disk_content v' j = disk_content v j.
Proof.
  intros (_ & Hok & Hm) Ei Hv. unfold disk_content. rewrite Ei. apply map_ext_in. intros x Hx%in_seq.
  destruct (Hm x ltac:(lia)) as [Hb Hs]. unfold byte_at. rewrite (slot_agree v v') by done.
  rewrite Hv; [done|by apply pos_lt|done].
Qed.

(** A disk that has the data blocks [v] has its files. *)
Lemma content_settled v v' j : disk_file v j -> (forall b, data_block size ls b -> v' b = v b) -> disk_content v' j = disk_content v j.
Proof.
  intros Hf Hv. pose proof Hf as (Hj & Hok & _). apply content_agree; [done| |].
  - destruct (IBLOCK_at j Hj) as (_ & _ & Hb & _). unfold inode_of. by rewrite Hv.
  - intros k Hk Hs. apply Hv. destruct (fo_slot _ _ Hok k Hk Hs) as [Hr _]. by destruct (file_block _ Hr).
Qed.

Lemma content_synced v ip : inode_of sb v (i_inum ip) = dinode_of ip -> disk_content v (i_inum ip) = content v ip.
Proof. intros E. unfold disk_content. by rewrite E. Qed.

(** Writing to a file leaves the other files alone. *)
Lemma other_file v ip v' ip' off bs w j : file_written sb ds v ip v' ip' off bs -> (forall b, data_block size ls b -> w b = v' b) ->
  disk_file v j -> j <> i_inum ip -> apart v (d_addrs (inode_of sb v j)) (i_addrs ip) -> disk_content w j = disk_content v j.
Proof.
  intros W Hw Hf Hne Ha. pose proof Hf as (Hj & Hok & _). apply content_agree; [done|..].
  - rewrite <- (fw_inodes _ _ _ _ _ _ W) by done. destruct (IBLOCK_at j Hj) as (_ & _ & Hb & _). unfold inode_of. by rewrite Hw.
  - intros k Hk Hs. destruct (fo_slot _ _ Hok k Hk Hs) as [Hr Hu]. destruct (file_block _ Hr) as [Hb _]. rewrite Hw by done.
    apply (fw_other _ _ _ _ _ _ W); [done|done|]. intros k' Hk'. by apply Ha.
Qed.
Lemma file_written_ext v v1 ip v' ip' off bs : (forall n, v1 n = v n) -> file_written sb ds v1 ip v' ip' off bs -> file_written sb ds v ip v' ip' off bs.
Proof.
  intros E [W1 W2 W3 W4 W5 W6 W7 W8 W9]. assert (forall j, inode_of sb v1 j = inode_of sb v j) as Ei by (intros j; unfold inode_of; by rewrite E).
  assert (forall b, used sb v1 b = used sb v b) as Eu by (intros b; by apply used_ext). split; [done| |done|..].
  - rewrite W2. f_equal. unfold content. apply map_ext. intros x. by apply byte_at_ext.
  - by rewrite <- Ei.
  - intros j. rewrite <- Ei. apply W5.
  - intros b. rewrite <- Eu. apply W6.
  - intros b Hb Hu Hk. rewrite <- E. apply W7; [done|by rewrite Eu|]. intros k Hk'. rewrite (slot_ext v v1) by done. by apply Hk.
  - intros k Hk. rewrite <- (slot_ext v v1) by done. by apply W8.
  - intros k Hk. rewrite <- (slot_ext v v1), <- Eu by done. by apply W9.
Qed.

(** What the data blocks say, and nothing else, makes a file. *)
Lemma used_settled v v' b : (forall n, data_block size ls n -> v' n = v n) -> 0 <= b < sb_size sb -> used sb v' b = used sb v b.
Proof. intros E Hb. apply used_ext, E. by destruct (meta_block b Hb). Qed.
Lemma slot_settled v v' a k : file_ok sb ds v a -> (forall n, data_block size ls n -> v' n = v n) -> slot v' a k = slot v a k.
Proof.
  intros Hok E. apply slot_agree; [done|]. intros k' Hk' Hs. apply E. destruct (fo_slot _ _ Hok k' Hk' Hs) as [Hr _]. by destruct (file_block _ Hr).
Qed.
Lemma mapped_settled v v' a off n : file_ok sb ds v a -> (forall b, data_block size ls b -> v' b = v b) -> mapped v a off n -> mapped v' a off n.
Proof. intros Hok E H x Hx. rewrite (slot_settled v v') by done. by apply H. Qed.
Lemma file_ok_settled v v' a : file_ok sb ds v a -> (forall b, data_block size ls b -> v' b = v b) -> file_ok sb ds v' a.
Proof.
  intros Hok E. pose proof (fun k => slot_settled v v' a k Hok E) as Es. pose proof lay_data. destruct (Hok) as [H1 H2 H3]. split; [done|..].
  - intros k Hk. rewrite Es. intros Hs. destruct (H2 k Hk Hs) as [Hr Hu]. split; [done|].
    destruct (file_block _ Hr) as [[? _] _]. rewrite (used_settled v); [done|done|lia].
  - intros k j Hk Hj. rewrite !Es. by apply H3.
Qed.
Lemma file_written_settled v ip v1 v' ip' off bs : file_ok sb ds v1 (i_addrs ip') -> inum_ok sb (i_inum ip) ->
  (forall b, data_block size ls b -> v' b = v1 b) -> file_written sb ds v ip v1 ip' off bs -> file_written sb ds v ip v' ip' off bs.
Proof.
  intros Hok Hj E [W1 W2 W3 W4 W5 W6 W7 W8 W9]. pose proof (fun k => slot_settled v1 v' _ k Hok E) as Es. pose proof lay_data.
  assert (forall j, inum_ok sb j -> inode_of sb v' j = inode_of sb v1 j) as Ei.
  { intros j Hj'. destruct (IBLOCK_at j Hj') as (_ & _ & Hb & _). unfold inode_of. by rewrite E. }
  split; [done| | |by rewrite Ei|..].
  - rewrite <- W2. unfold content. apply map_ext_in. intros x Hx%in_seq. destruct (proj2 W3 x ltac:(lia)) as [Hb Hs].
    unfold byte_at. rewrite Es, E; [done|]. destruct (fo_slot _ _ Hok _ (proj1 (pos_lt _ Hb)) Hs) as [Hr _]. by destruct (file_block _ Hr).
  - destruct W3 as [H1 H2]. split; [done|]. by eapply mapped_settled.
  - intros j Hj' Hne. rewrite Ei by done. by apply W5.
  - intros b Hb. destruct (file_block _ Hb) as [[? _] _]. rewrite (used_settled v1) by (done || lia). setoid_rewrite Es. by apply W6.
  - intros b Hb Hu Hk. destruct (file_block _ Hb) as [Hd _]. rewrite E by done. by apply W7.
  - intros k. rewrite Es. apply W8.
  - intros k. rewrite Es. apply W9.
Qed.

(** A write followed by a write where it ended is one write. *)
Lemma put_at_app c off a b : (off <= length c)%nat -> put_at (put_at c off a) (off + length a) b = put_at c off (a ++ b).
Proof.
  intros Hl. unfold put_at. rewrite (app_assoc (take off c) a). set (h := take off c ++ a).
  assert (length h = off + length a)%nat as Hh by (unfold h; rewrite length_app, length_take; lia).
  rewrite take_app_length' by done. rewrite <- (drop_drop _ (length b)), (drop_app_length' h) by done. unfold h.
  rewrite drop_drop, length_app, <- !app_assoc. by rewrite Nat.add_assoc.
Qed.

Lemma file_written_app v ip v1 ip1 v2 ip2 off a b : 0 <= Z.of_nat off <= i_size ip -> file_ok sb ds v2 (i_addrs ip2) ->
  file_written sb ds v ip v1 ip1 off a -> file_written sb ds v1 ip1 v2 ip2 (off + length a) b -> file_written sb ds v ip v2 ip2 off (a ++ b).
Proof.
  intros Hoff Hok [A1 A2 A3 A4 A5 A6 A7 A8 A9] [B1 B2 B3 B4 B5 B6 B7 B8 B9]. pose proof lay_data. pose proof lay_bmap. pose proof start_pos.
  assert (i_inum ip1 = i_inum ip) as Ej by (rewrite A1; by destruct ip). rewrite Ej in *.
  assert (forall k, (k < NSLOT)%nat -> slot v2 (i_addrs ip2) k <> 0 -> ds <= slot v2 (i_addrs ip2) k < sb_size sb) as Hr.
  { intros k Hk Hs. by destruct (fo_slot _ _ Hok k Hk Hs). }
  split; [| |done|by intros; apply B4, A4| | | | |].
  - assert (i_size ip1 = Z.max (i_size ip) (Z.of_nat (off + length a))) as Esz by (rewrite A1; by destruct ip).
    etransitivity; [exact B1|]. rewrite Esz, A1, length_app, <- Z.max_assoc, (Z.max_r (Z.of_nat (off + length a))), Nat.add_assoc by lia. by destruct ip.
  - rewrite B2, A2. apply put_at_app. rewrite length_content. lia.
  - intros j Hj Hne. rewrite B5, A5 by done. done.
  - intros x Hx. rewrite B6, A6 by done. split; [|naive_solver]. intros [[Hu|(k & Hk & <-)]|Hk]; [by left| |by right].
    right. exists k. split; [done|]. apply B8; [done|]. lia.
  - intros x Hx Hu Hno. rewrite B7, A7; [done|done|done|done|done|by apply A6; [|left]|]. intros k Hk Es.
    destruct (decide (slot v (i_addrs ip) k = 0)) as [E0|E0]; [|by apply (Hno k Hk); rewrite <- A8].
    apply A9 in E0; [|done|lia]. congruence.
  - intros k Hk Hs. rewrite B8; [by apply A8|done|by rewrite A8].
  - intros k Hk Hz Hs. destruct (decide (slot v1 (i_addrs ip1) k = 0)) as [E0|E0]; [|by rewrite (B8 k Hk E0); apply A9].
    pose proof (B9 k Hk E0 Hs) as Hu. apply not_true_is_false. intros Ht. assert (used sb v1 (slot v2 (i_addrs ip2) k) = true); [|congruence].
    apply A6; [by apply Hr|by left].
Qed.

Lemma file_written_nil v ip off : 0 <= Z.of_nat off <= i_size ip -> file_ok sb ds v (i_addrs ip) -> sized v ip -> file_written sb ds v ip v ip off [].
Proof.
  intros Hoff Hok Hsz. pose proof lay_data. pose proof lay_bmap. pose proof start_pos. split; [|..|done|done|done| |done|done|congruence].
  - rewrite Nat.add_0_r, Z.max_l by lia. by destruct ip.
  - unfold put_at. rewrite Nat.add_0_r. symmetry. apply take_drop.
  - intros b Hb. split; [by left|]. intros [Hu|(k & Hk & <-)]; [done|]. apply (fo_slot _ _ Hok k Hk). lia.
Qed.

End disk.

(** ** Open files *)

Section open.
Context {D : Disk} (fuel : nat) (devsw : Z -> devops) (dev size : Z) {DL : DiskLaws D dev size} (me : nat) (pid ls : Z).
Context (sb : superblock) (ds : Z) {Hlay : Layout size ls sb ds}.

Abbreviation vw := (vw dev).

(** Entry [i] of the inode cache is a file, with no system call in a
    transaction: the inode is as on the disk, its blocks are its own and cover
    its size, and the bitmap marks the blocks before the data as used. *)
Record open_file (i : nat) (ip : inode) (s : kstate) : Prop := {
  of_idle : log_idle dev size me pid ls s;
  of_log : LOGSIZE <= lg_size (k_log s);
  of_sb : k_sb s = sb;
  of_ip : k_icache s !! i = Some ip;
  of_dev : i_dev ip = dev;
  of_type : i_type ip <> T_DEV;
  of_shorts : shorts ip;
  of_inum : inum_ok sb (i_inum ip);
  of_disk : inode_of sb (vw s) (i_inum ip) = dinode_of ip;
  of_meta b : 0 <= b < ds -> used sb (vw s) b = true;
  of_ok : file_ok sb ds (vw s) (i_addrs ip);
  of_sized : sized (vw s) ip
}.

Lemma open_tx i ip s : open_file i ip s -> file_at dev size me pid ls 0 0 (k_disk s) sb ds i ip [] s.
Proof.
  intros [(Hh & Hl & Ho & Hc & _) Hs Hsb Hip Hd _ _ _ _ Hm Hok _]. split; try done. split; try done.
  split; [constructor|]. split; [constructor|apply not_elem_of_nil].
Qed.

(** A system call that has begun. *)
Lemma begun i ip s s1 : open_file i ip s -> thr me [] s1 -> upto (set k_log (set lg_outstanding (fun n => n + 1)) s) s1 ->
  file_at dev size me pid ls 1 0 (k_disk s) sb ds i ip [] s1 /\ (forall n, vw s1 n = vw s n) /\ k_icache s1 = k_icache s.
Proof.
  intros Hf Ht E. pose proof Hf as [(Hh & Hl & Ho & Hc & _) Hs Hsb Hip Hd _ _ _ _ Hm Hok _].
  pose proof (upto_proj k_log _ _ ltac:(done) E) as El. change (k_log s1 = set lg_outstanding (fun n => n + 1) (k_log s)) in El.
  assert (k_disk s1 = k_disk s) as Ed by (by rewrite (upto_proj k_disk _ _ ltac:(done) E)).
  assert (forall n, vw s1 n = vw s n) as V by (intros n; by rewrite (vw_upto dev _ _ n E)).
  assert (k_icache s1 = k_icache s) as Ei by (by rewrite (upto_proj k_icache _ _ ltac:(done) E)).
  split; [|done]. split.
  - split; [by eapply holds_set_log|..|done].
    + destruct Hl. by split; rewrite El.
    + split; [constructor|]. split; [constructor|apply not_elem_of_nil].
    + by rewrite El.
    + rewrite El. simpl. lia.
    + by rewrite El.
  - by rewrite (upto_proj k_sb _ _ ltac:(done) E).
  - by rewrite Ei.
  - done.
  - intros b Hb. rewrite (used_ext (vw s)) by done. by apply Hm.
  - by apply (file_ok_ext (vw s)).
Qed.

Lemma open_view i ip s n : open_file i ip s -> vw s n = disk_read (k_disk s) dev n.
Proof. intros Hf. apply (vw_clean dev size me pid []); [apply Hf|apply not_elem_of_nil]. Qed.

Lemma disk_content_ext v v' j : (forall n, v' n = v n) -> disk_content sb v' j = disk_content sb v j.
Proof.
  intros E. unfold disk_content, inode_of. rewrite E. apply map_ext. intros x. by apply byte_at_ext.
Qed.

Lemma open_content i ip s : open_file i ip s -> content (vw s) ip = disk_content sb (disk_read (k_disk s) dev) (i_inum ip).
Proof.
  intros Hf. rewrite <- (disk_content_ext (disk_read (k_disk s) dev) (vw s)) by (intros n; by eapply open_view).
  symmetry. apply content_synced, Hf.
Qed.

(** ** Writing in a transaction *)

Hypothesis Hdev : 0 <= dev < 2 ^ 32.

(** The log as [end_op] leaves it to [commit]. *)
Definition committing (s : kstate) : kstate := set k_log (fun l => l <| lg_outstanding := 0 |> <| lg_committing := 1 |>) s.

(** What the disk [w] has after a write to file [j] of the disk [v]: the
    content [c], and the other files. *)
Definition file_is (v : Z -> list Z) (ip : inode) (w : Z -> list Z) (c : list Z) : Prop :=
  disk_content sb w (i_inum ip) = c /\
  forall j, disk_file sb ds v j -> j <> i_inum ip -> apart v (d_addrs (inode_of sb v j)) (i_addrs ip) ->
    disk_content sb w j = disk_content sb v j.

Lemma span_small off n : (n <= 1536)%nat -> (span off n <= 4)%nat.
Proof.
  intros Hn. destruct (decide (n = 0)%nat) as [->|]; [simpl; lia|]. rewrite span_pos by lia.
  pose proof (Nat.div_mod_eq off 512). pose proof (Nat.mod_upper_bound off 512 ltac:(lia)).
  assert ((off + n - 1) / 512 < off / 512 + 4)%nat; [|lia]. apply Nat.Div0.div_lt_upper_bound. lia.
Qed.

(** What a file that was written has on a disk with the blocks of the cache. *)
Lemma written_on_disk i ip ip' s s1 off bs w : open_file i ip s ->
  file_ok sb ds (vw s1) (i_addrs ip') -> file_written sb ds (vw s) ip (vw s1) ip' off bs ->
  (forall b, data_block size ls b -> w b = vw s1 b) ->
  file_is (disk_read (k_disk s) dev) ip w (put_at (disk_content sb (disk_read (k_disk s) dev) (i_inum ip)) off bs).
Proof.
  intros Hf F1 W Hw. assert (i_inum ip' = i_inum ip) as Ej by (rewrite (fw_ip _ _ _ _ _ _ W); by destruct ip).
  pose proof (fw_synced _ _ _ _ _ _ W (of_disk _ _ _ Hf)) as Hsy. pose proof (of_inum _ _ _ Hf) as Hj.
  assert (forall n, disk_read (k_disk s) dev n = vw s n) as V by (intros n; symmetry; by eapply open_view).
  split.
  - rewrite <- (open_content i ip s Hf), <- (fw_content _ _ _ _ _ _ W). rewrite (content_settled sb ds (vw s1)); [| |done].
    + rewrite <- Ej in *. by apply content_synced.
    + split; [done|]. rewrite Hsy. split; [exact F1|]. apply (fw_sized _ _ _ _ _ _ W).
  - intros j (H1 & H2 & H3) Hne Ha. rewrite (disk_content_ext (vw s) (disk_read (k_disk s) dev)) by done.
    assert (inode_of sb (disk_read (k_disk s) dev) j = inode_of sb (vw s) j) as Ei by (unfold inode_of; by rewrite V).
    rewrite Ei in *. pose proof (fun a k => slot_ext (vw s) (disk_read (k_disk s) dev) a k V) as Es.
    eapply (other_file sb ds (Hlay := Hlay)); [exact W|done| |done|].
    + split; [done|]. split; [by apply (file_ok_ext (disk_read (k_disk s) dev))|]. intros x Hx. rewrite <- Es. by apply H3.
    + intros k k' Hk Hk'. rewrite <- !Es. by apply Ha.
Qed.

Lemma open_disk_file i ip s : open_file i ip s -> disk_file sb ds (disk_read (k_disk s) dev) (i_inum ip).
Proof.
  intros Hf. assert (forall n, vw s n = disk_read (k_disk s) dev n) as V by (intros n; by eapply open_view).
  assert (inode_of sb (disk_read (k_disk s) dev) (i_inum ip) = dinode_of ip) as Ei.
  { unfold inode_of. rewrite <- V. apply Hf. }
  split; [apply Hf|]. rewrite Ei. split; [apply (file_ok_ext (vw s)); [done|apply Hf]|].
  intros x Hx. rewrite (slot_ext (vw s)) by done. by apply (of_sized _ _ _ Hf).
Qed.

(** A disk with the old data blocks has the old files. *)
Lemma unwritten_on_disk i ip s w : open_file i ip s -> (forall b, data_block size ls b -> w b = disk_read (k_disk s) dev b) ->
  file_is (disk_read (k_disk s) dev) ip w (disk_content sb (disk_read (k_disk s) dev) (i_inum ip)).
Proof.
  intros Hf Hw. split.
  - by eapply (content_settled sb ds (Hlay := Hlay)); [by eapply open_disk_file|].
  - intros j Hdj _ _. by eapply (content_settled sb ds (Hlay := Hlay)).
Qed.

Lemma tx_blocks_ok H hs s o cm dk : tx dev size me pid ls o cm dk H hs s -> (length hs < 30)%nat -> blocks_ok size ls hs.
Proof. intros [_ _ (H1 & H2 & H3) _ _ _ _] Hl. split_and!; [done|done| |done]. change LOGSIZE with 30. lia. Qed.

(** The transaction commits. *)
Lemma wp_write_end i ip ip' hs s s1 off bs (Q : unit -> kstate -> Prop) : open_file i ip s ->
  file_at dev size me pid ls 1 0 (k_disk s) sb ds i ip' hs s1 -> (length hs <= 25)%nat ->
  file_written sb ds (vw s) ip (vw s1) ip' off bs ->
  (forall s2, log_idle dev size me pid ls s2 -> file_is (disk_read (k_disk s) dev) ip (disk_read (k_disk s2) dev)
     (put_at (disk_content sb (disk_read (k_disk s) dev) (i_inum ip)) off bs) -> Q tt s2) ->
  wp (end_op fuel) Q s1.
Proof.
  intros Hf F1 Hlen W HQ. pose proof (fa_tx _ _ _ _ F1) as Ht. pose proof Ht as [Hh Hl Hb Hs Ho Hc Hd]. change LOGSIZE with 30 in Hs.
  eapply (wp_end_op fuel dev size me pid ls Hdev lay_disk hs); [eapply tx_blocks_ok; [done|lia]|unfold NBUF; lia|done|done|done|done|lia| |].
  - rewrite Hd. apply (of_idle _ _ _ Hf).
  - intros s2 Hidle [_ HS] _ _. apply HQ; [done|]. eapply written_on_disk; [done|apply F1|done|done].
Qed.

(** The commit can stop anywhere. *)
Lemma tx_crash i ip ip' hs s s1 s' dk t : open_file i ip s ->
  file_at dev size me pid ls 1 0 (k_disk s) sb ds i ip' hs s1 -> (length hs <= 25)%nat -> sb_start (disk_read (k_disk s) dev 1) = ls ->
  thr me [] s' -> upto (committing s1) s' -> crashed fuel dev size me pid s' dk -> boots dev size me pid dk t ->
  exists t', initlog fuel dev t = Ok tt t' /\
    ((forall b, data_block size ls b -> disk_read (k_disk t') dev b = disk_read (k_disk s) dev b) \/
     (forall b, data_block size ls b -> disk_read (k_disk t') dev b = vw s1 b)).
Proof.
  intros Hf F1 Hlen Hsb Ht' E Hcr Hbt. pose proof (fa_tx _ _ _ _ F1) as Ht. pose proof Ht as [Hh Hl Hb Hs Ho Hc Hd].
  pose proof (upto_proj k_log _ _ ltac:(done) E) as El. assert (k_disk s' = k_disk s1) as Ed by (by rewrite (upto_proj k_disk _ _ ltac:(done) E)).
  assert (forall n, vw s' n = vw s1 n) as V by (intros n; by rewrite (vw_upto dev _ _ n E)).
  assert (holds dev size me pid [] hs None s') as Hh' by (by eapply holds_set_log).
  destruct (crash_recovers fuel dev size me pid ls hs s') with (d := dk) (t := t) as (t' & Et & HS); [| |done|done|].
  - pose proof lay_disk. pose proof lay_log. split; [done|]. split; [done|]. split; [unfold data_block; change LOGSIZE with 30 in *; lia|].
    rewrite V, (vw_clean dev size me pid hs s1 1 Hh), Hd; [done|apply Hb].
  - split; [eapply tx_blocks_ok; [done|lia]|]. split; [unfold NBUF; lia|]. split; [done|]. split.
    + destruct Hl. by split; rewrite El.
    + rewrite Ed, Hd. apply (of_idle _ _ _ Hf).
  - exists t'. split; [done|]. rewrite Ed, Hd in HS. destruct HS as [[_ HS]|[_ HS]]; [by left|right].
    intros b Hb'. by rewrite <- V, HS.
Qed.

Lemma write_crash i ip ip' hs s s1 off bs s' dk t : open_file i ip s ->
  file_at dev size me pid ls 1 0 (k_disk s) sb ds i ip' hs s1 -> (length hs <= 25)%nat ->
  file_written sb ds (vw s) ip (vw s1) ip' off bs -> sb_start (disk_read (k_disk s) dev 1) = ls ->
  thr me [] s' -> upto (committing s1) s' -> crashed fuel dev size me pid s' dk -> boots dev size me pid dk t ->
  exists t', initlog fuel dev t = Ok tt t' /\ exists c, (c = disk_content sb (disk_read (k_disk s) dev) (i_inum ip) \/
      c = put_at (disk_content sb (disk_read (k_disk s) dev) (i_inum ip)) off bs) /\
    file_is (disk_read (k_disk s) dev) ip (disk_read (k_disk t') dev) c.
Proof.
  intros Hf F1 Hlen W Hsb Ht' E Hcr Hbt. destruct (tx_crash i ip ip' hs s s1 s' dk t) as (t' & Et & HS); try done.
  exists t'. split; [done|]. destruct HS as [HS|HS].
  - eexists. split; [by left|]. by eapply unwritten_on_disk.
  - eexists. split; [by right|]. eapply written_on_disk; [done|apply F1|done|done].
Qed.

(** After the commit the file is open as before the system call. *)
Lemma reopened i ip ip' hs s s1 s2 off bs : open_file i ip s ->
  file_at dev size me pid ls 1 0 (k_disk s) sb ds i ip' hs s1 -> file_written sb ds (vw s) ip (vw s1) ip' off bs ->
  log_idle dev size me pid ls s2 -> settled dev size ls (vw s1) (k_disk s2) -> frame (s1 <| k_log := k_log s2 |>) s2 ->
  lg_size (k_log s2) = lg_size (k_log s1) ->
  open_file i ip' s2 /\ (forall b, data_block size ls b -> vw s2 b = vw s1 b).
Proof.
  intros Hf F1 W Hi [_ HS] Hfr Hlg. pose proof F1 as [Ht Hsb Hip Hd Hm Hok]. pose proof Hf as [_ _ _ _ _ Hty Hsh Hj Hsy _ _ _].
  assert (forall b, data_block size ls b -> vw s2 b = vw s1 b) as E.
  { intros b Hb. rewrite (vw_clean dev size me pid [] s2); [by apply HS|apply Hi|apply not_elem_of_nil]. }
  split; [|done]. pose proof (fw_ip _ _ _ _ _ _ W) as Eip. destruct (IBLOCK_at (i_inum ip) Hj) as (_ & _ & Hbl & _). pose proof lay_data.
  assert (i_inum ip' = i_inum ip) as Ej by (rewrite Eip; by destruct ip).
  split; [done| | | |done|..|by apply (file_ok_settled sb ds (vw s1))|].
  - rewrite Hlg. apply Ht.
  - by rewrite (frame_proj k_sb _ _ ltac:(done) Hfr).
  - by rewrite (frame_proj k_icache _ _ ltac:(done) Hfr).
  - rewrite Eip. by destruct ip.
  - rewrite Eip. by destruct ip.
  - by rewrite Ej.
  - rewrite Ej, <- (fw_synced _ _ _ _ _ _ W Hsy). unfold inode_of. by rewrite E.
  - intros b Hb. rewrite (used_settled sb ds (vw s1)) by (done || lia). by apply Hm.
  - destruct (fw_sized _ _ _ _ _ _ W) as [H1 H2]. split; [done|]. by apply (mapped_settled sb ds (vw s1)).
Qed.
End open.

(** ** Theorems *)

(** C27: Reading a file returns its bytes: [readi] of [n] bytes at [off] of an
    open file gives the bytes that the file has there on the disk, as many as
    there are, or -1 when [off] is after the end or [off + n] overflows; it
    changes neither the disk nor what the cache shows of it. *)
Theorem readi_reads {D : Disk} fuel devsw dev size {DL : DiskLaws D dev size} me pid ls sb ds {L : Layout size ls sb ds} i ip s l off n :
  open_file dev size me pid ls sb ds i ip s -> 0 <= off < 2 ^ 32 -> 0 <= n < 2 ^ 32 ->
  exists s', readi fuel devsw i (PLocal l) off n s =
      Ok match read_of (disk_content sb (disk_read (k_disk s) dev) (i_inum ip)) off n with
         | Some bs => (Z.of_nat (length bs), PLocal (l ++ bs))
         | None => (-1, PLocal l)
         end s' /\
    k_disk s' = k_disk s /\ forall b, vw dev s' b = vw dev s b.
Proof.
  intros Hf Hoff Hn. pose proof (open_tx _ _ _ _ _ _ _ _ _ _ Hf) as F. rewrite <- (open_content _ _ _ _ _ _ _ _ _ _ Hf).
  enough (wp (readi fuel devsw i (PLocal l) off n) (fun r s' => r = match read_of (content (vw dev s) ip) off n with
      | Some bs => (Z.of_nat (length bs), PLocal (l ++ bs)) | None => (-1, PLocal l) end /\
    k_disk s' = k_disk s /\ forall b, vw dev s' b = vw dev s b) s) as Hwp.
  { apply wp_iff in Hwp as (r & s' & E & -> & H). by exists s'. }
  eapply (wp_readi fuel (size := size) (ls := ls) (sb := sb) (ds := ds)); [exact F|simpl; unfold NBUF; lia|apply Hf|apply Hf|done|done|].
  intros s' F' _ V. split; [done|]. split; [|done]. apply (tx_disk _ _ _ (fa_tx _ _ _ _ F')).
Qed.

(** ** A file on a disk

    A disk of 1000 blocks with a file of five bytes: inode 2, block 60. *)

Definition demo_sb : superblock := MkSb 1000 941 200 30 2 32 58.
Definition demo_addrs : list Z := 60 :: replicate NDIRECT 0.
Definition demo_file : inode := MkInode 1 2 1 sleeplock0 1 T_FILE 0 0 1 5 demo_addrs.
Definition demo_disk : history :=
  [(1, 1, put_u32 zero_block 16 2);
   (1, 32, splice zero_block 128 (dinode_bytes (dinode_of demo_file)));
   (1, 58, splice zero_block 0 (replicate 7 255 ++ [23]));
   (1, 60, splice zero_block 0 (bytes "hello"))].
Definition file_state : kstate :=
  (with_bufs (fun _ => buf0) demo_disk ((demo [demo_proc 1 RUNNING ChNull]) <| k_sb := demo_sb |> <| k_icache := [demo_file] |>))
    <| k_log := MkLog 2 30 0 0 1 0 (replicate 30 0) |>.

#[export] Instance demo_layout : Layout 1000 2 demo_sb 59.
Proof. by split. Qed.

Lemma demo_slot v k : slot v demo_addrs k <> 0 -> k = 0%nat.
Proof.
  unfold slot. case_decide; [|done]. destruct k as [|k]; [done|]. unfold nthZ, demo_addrs.
  rewrite lookup_cons_ne_0, lookup_replicate_2; [done|simpl; lia|done].
Qed.

Lemma file_state_open : open_file 1 1000 0 1 2 demo_sb 59 0 demo_file file_state.
Proof.
  split; try done.
  - split_and!; try done.
    apply (holds_log 1 1000 0 1 [] [] None), with_bufs_holds; [|done|by repeat constructor|..|done].
    + apply (thr_neutral (fun s => s <| k_sb := demo_sb |> <| k_icache := [demo_file] |>)); try done.
      by apply demo_thr; [|unfold NPROC; simpl; lia].
    + intros i. split; [|done]. split_and!; try done. by left.
  - by repeat constructor.
  - intros b Hb. assert (forallb (used demo_sb (vw 1 file_state)) (seqZ 0 59) = true) as Hall by (vm_compute; reflexivity).
    rewrite forallb_forall in Hall. apply Hall, list_elem_of_In, elem_of_seqZ. lia.
  - split; [done|..].
    + intros k Hk Hs. apply demo_slot in Hs as ->. split; [done|]. vm_compute. reflexivity.
    + intros k j Hk Hj Hs E. pose proof Hs as Hs'. rewrite E in Hs'. apply demo_slot in Hs, Hs'. congruence.
  - split; [done|]. intros x Hx. simpl in Hx. change (Z.to_nat 5) with 5%nat in Hx.
    rewrite Nat.div_small by lia. split; [|done]. change (Z.to_nat MAXFILE) with 140%nat. lia.
Qed.

Definition no_dev (n : Z) : devops := MkDev None None.

Lemma demo_read : match read_of (disk_content demo_sb (disk_read (k_disk file_state) 1) (i_inum demo_file)) 1 10 with
  | Some bs => (Z.of_nat (length bs), PLocal ([] ++ bs)) | None => (-1, PLocal []) end = (4, PLocal (bytes "ello")).
Proof. vm_compute. reflexivity. Qed.

Lemma readi_reads_witness : exists s', readi (D := memide 1000) 0 no_dev 0 (PLocal []) 1 10 file_state = Ok (4, PLocal (bytes "ello")) s' /\
  k_disk s' = demo_disk /\ forall b, vw 1 s' b = vw 1 file_state b.
Proof.
  destruct (readi_reads (D := memide 1000) 0 no_dev 1 1000 0 1 2 demo_sb 59 0 demo_file file_state [] 1 10 file_state_open ltac:(lia) ltac:(lia))
    as (s' & E & Hd & Hv).
  exists s'. split; [exact (eq_trans E (f_equal (fun r => Ok r s') demo_read))|]. split; [exact Hd|exact Hv].
Defined.
