(* ===== verification/Directory.v ===== *)
(** * Directories (fs.c)

    A directory is a file of entries: [dirlookup] finds the first entry with a
    name, [iget] gives the entry of the inode cache for its inode, and
    [dirlink] adds a name in the first free entry, or at the end, in a
    transaction that is either completely on the disk or not at all. *)

From stdpp Require Import base functions numbers list list_numbers sets gmap strings.
From S2P Require Import Prelude Kmonad Params Kstate Spinlock KString Kalloc Cprintf Vm Umem Demo Sched Thread Sleeplock Bio Cache Log Commit Fs Blockmap Inode Filewrite.

Local Open Scope Z_scope.

(** ** Entries *)

(** An entry: the inode number, 0 when the entry is free, and the name. *)
Definition dent : Type := Z * list Z.
Definition dent_bytes (e : dent) : list Z := dirent_bytes e.1 e.2.
Definition dir_bytes (es : list dent) : list Z := flat_map dent_bytes es.
Definition dent_ok (e : dent) : Prop := 0 <= e.1 < 2 ^ 16 /\ Forall byte_ok e.2.

(** Names are equal when they are in the [DIRSIZ] bytes of an entry. *)
Definition same_name (n m : list Z) : Prop := strncpy n DIRSIZ = strncpy m DIRSIZ.
Definition names (name : list Z) (e : dent) : Prop := e.1 <> 0 /\ same_name name e.2.
Definition unused (e : dent) : Prop := e.1 = 0.
#[export] Instance same_name_dec n m : Decision (same_name n m).
Proof. unfold same_name. apply _. Defined.
#[export] Instance names_dec name e : Decision (names name e).
Proof. unfold names. apply _. Defined.
#[export] Instance unused_dec e : Decision (unused e).
Proof. unfold unused. apply _. Defined.

(** The directory as a map from names to inode numbers, and the entry that
    [dirlink] writes. *)
Definition dir_lookup (es : list dent) (name : list Z) : option Z :=
  match list_find (names name) es with Some (_, e) => Some e.1 | None => None end.
Definition dir_slot (es : list dent) : nat :=
  match list_find unused es with Some (k, _) => k | None => length es end.
Definition dir_add (es : list dent) (e : dent) : list dent := take (dir_slot es) es ++ e :: drop (S (dir_slot es)) es.

Lemma length_dent_bytes e : length (dent_bytes e) = 16%nat.
Proof. unfold dent_bytes, dirent_bytes. by rewrite length_app, length_le_bytes, length_strncpy. Qed.

Lemma length_dir_bytes es : length (dir_bytes es) = (16 * length es)%nat.
Proof. induction es as [|e es IH]; [done|]. cbn [dir_bytes flat_map length]. rewrite length_app, length_dent_bytes. fold (dir_bytes es). lia. Qed.

Lemma dir_bytes_app es es' : dir_bytes (es ++ es') = dir_bytes es ++ dir_bytes es'.
Proof. apply flat_map_app. Qed.

Lemma dir_bytes_drop es k : drop (16 * k) (dir_bytes es) = dir_bytes (drop k es).
Proof.
  revert es. induction k as [|k IH]; intros es; [done|]. destruct es as [|e es]; [by rewrite drop_nil|].
  cbn [dir_bytes flat_map drop]. replace (16 * S k)%nat with (length (dent_bytes e) + 16 * k)%nat by (rewrite length_dent_bytes; lia).
  rewrite drop_app_add. apply IH.
Qed.

Lemma dir_bytes_take es k : take (16 * k) (dir_bytes es) = dir_bytes (take k es).
Proof.
  revert es. induction k as [|k IH]; intros es; [done|]. destruct es as [|e es]; [by rewrite take_nil|].
  cbn [dir_bytes flat_map take]. replace (16 * S k)%nat with (length (dent_bytes e) + 16 * k)%nat by (rewrite length_dent_bytes; lia).
  rewrite take_app_add. f_equal. apply IH.
Qed.

Lemma dir_bytes_at es k e : es !! k = Some e -> take 16 (drop (16 * k) (dir_bytes es)) = dent_bytes e.
Proof.
  intros H. rewrite dir_bytes_drop, (drop_S _ _ _ H). cbn [dir_bytes flat_map]. apply take_app_length'. by rewrite length_dent_bytes.
Qed.

Lemma dir_slot_le es : (dir_slot es <= length es)%nat.
Proof. unfold dir_slot. destruct (list_find unused es) as [[k e]|] eqn:E; [|done]. apply list_find_Some in E as [E%lookup_lt_Some _]. lia. Qed.

Lemma put_dir es e : put_at (dir_bytes es) (16 * dir_slot es) (dent_bytes e) = dir_bytes (dir_add es e).
Proof.
  unfold put_at, dir_add. rewrite length_dent_bytes, dir_bytes_app, dir_bytes_take.
  replace (16 * dir_slot es + 16)%nat with (16 * S (dir_slot es))%nat by lia. by rewrite dir_bytes_drop.
Qed.

Lemma strncpy_idemp t n : strncpy (strncpy t n) n = strncpy t n.
Proof.
  revert t. induction n as [|n IH]; intros t; [done|]. destruct t as [|c t]; [done|].
  simpl. destruct (Z.eqb_spec c 0) as [->|Hc]; simpl; [done|]. by rewrite IH.
Qed.

Lemma strncpy_bytes t n : Forall byte_ok t -> Forall byte_ok (strncpy t n).
Proof.
  intros Ht. rewrite strncpy_spec. apply Forall_app. split; [|by apply Forall_replicate].
  apply Forall_take. induction Ht as [|c t Hc _ IH]; [done|]. cbn [cbytes]. destruct (c =? 0); by constructor.
Qed.

(** What the code reads of an entry. *)
Lemma dent_decode name e : dent_ok e -> Forall byte_ok name ->
  de_inum (dent_bytes e) = e.1 /\ (namecmp name (de_name (dent_bytes e)) = 0 <-> same_name name e.2).
Proof.
  intros [Hi Hb] Hn. unfold dent_bytes, dirent_bytes. split.
  - unfold de_inum, get_u16. rewrite drop_0, take_app_length' by done. rewrite of_le_bytes. by apply Z.mod_small.
  - unfold de_name, namecmp, same_name. rewrite drop_app_length' by done. rewrite strncmp_zero; [by rewrite strncpy_idemp|done|by apply strncpy_bytes].
Qed.

(** ** The directory as a map *)

Lemma dir_lookup_cons e es m : dir_lookup (e :: es) m = if decide (names m e) then Some e.1 else dir_lookup es m.
Proof. unfold dir_lookup. simpl. case_decide; [done|]. by destruct (list_find (names m) es) as [[k x]|]. Qed.

Lemma dir_lookup_app es es' m : dir_lookup (es ++ es') m = match dir_lookup es m with Some i => Some i | None => dir_lookup es' m end.
Proof. induction es as [|e es IH]; [done|]. cbn [app]. rewrite !dir_lookup_cons. by case_decide. Qed.

(** Adding a name that is not there adds that name and no other. *)
Lemma dir_lookup_add es inum name m : inum <> 0 -> dir_lookup es name = None ->
  dir_lookup (dir_add es (inum, name)) m = if decide (same_name m name) then Some inum else dir_lookup es m.
Proof.
  intros Hi Hnone. set (k := dir_slot es). assert (dir_lookup es m = match dir_lookup (take k es) m with Some i => Some i | None => dir_lookup (drop (S k) es) m end) as E.
  { rewrite <- (take_drop k es) at 1. rewrite dir_lookup_app. unfold k, dir_slot. destruct (list_find unused es) as [[j e]|] eqn:Ej.
    - apply list_find_Some in Ej as (Hj & Hu & _). rewrite (drop_S _ _ _ Hj), dir_lookup_cons. rewrite decide_False; [done|]. by intros [].
    - by rewrite !drop_ge by lia. }
  unfold dir_add. fold k. rewrite dir_lookup_app, dir_lookup_cons, E. unfold names. cbn [fst snd].
  destruct (decide (same_name m name)) as [Hs|Hs].
  - rewrite (decide_True _ _ (conj Hi Hs)). assert (dir_lookup es m = None) as Hm.
    { rewrite <- Hnone. unfold dir_lookup. by rewrite (list_find_ext (names m) (names name)) by (intros x; unfold names, same_name in *; by rewrite Hs). }
    rewrite E in Hm. by destruct (dir_lookup (take k es) m).
  - rewrite decide_False; [done|]. by intros [].
Qed.

(** ** The entries in the bytes of a directory

    [dir_on] is the directory with inode number [n] on the disk [v], its
    entries decoded from the bytes as the code decodes them. *)

Definition parse_dent (b : list Z) : dent := (de_inum b, de_name b).
Definition parse_dir (bs : list Z) : list dent := map (fun k => parse_dent (take 16 (drop (16 * k) bs))) (seq 0 (length bs / 16)).
Definition dir_on (sb : superblock) (v : Z -> list Z) (n : Z) : list dent := parse_dir (disk_content sb v n).

Lemma parse_dent_bytes e : dent_ok e -> parse_dent (dent_bytes e) = (e.1, strncpy e.2 DIRSIZ).
Proof.
  intros He. unfold parse_dent. destruct (dent_decode [] e He (Forall_nil_2 _)) as [-> _].
  unfold dent_bytes, dirent_bytes, de_name. by rewrite drop_app_length'.
Qed.

Lemma parse_dir_bytes es : Forall dent_ok es -> parse_dir (dir_bytes es) = map (fun e : dent => (e.1, strncpy e.2 DIRSIZ)) es.
Proof.
  intros Hok. unfold parse_dir. rewrite length_dir_bytes, Nat.mul_comm, Nat.div_mul by done. apply list_eq. intros k.
  change (map ?f ?l) with (f <$> l). rewrite !list_lookup_fmap. destruct (es !! k) as [e|] eqn:E.
  - rewrite lookup_seq_lt by by eapply lookup_lt_Some. cbn [fmap option_fmap option_map]. rewrite Nat.add_0_l, (dir_bytes_at _ _ _ E).
    cbn [fmap option_fmap option_map]. f_equal. apply parse_dent_bytes. by eapply Forall_lookup_1.
  - rewrite lookup_seq_ge by by apply lookup_ge_None. done.
Qed.

Lemma dir_on_lookup es sb v n m : disk_content sb v n = dir_bytes es -> Forall dent_ok es -> dir_lookup (dir_on sb v n) m = dir_lookup es m.
Proof.
  intros E Hok. unfold dir_on. rewrite E, parse_dir_bytes by done. clear E Hok. induction es as [|e es IH]; [done|]. cbn [map].
  rewrite !dir_lookup_cons, IH. apply decide_ext. unfold names, same_name. cbn [fst snd]. by rewrite strncpy_idemp.
Qed.

Lemma dir_add_ok es e : Forall dent_ok es -> dent_ok e -> Forall dent_ok (dir_add es e).
Proof. intros Hes He. unfold dir_add. apply Forall_app. split; [by apply Forall_take|]. constructor; [done|by apply Forall_drop]. Qed.

(** ** Scanning a directory *)

Section scan.
Context {D : Disk} (fuel : nat) (devsw : Z -> devops) {dev size : Z} {DL : DiskLaws D dev size} {me : nat} {pid ls : Z}.
Context {o cm : Z} {dk : history} {sb : superblock} {ds : Z} {Hlay : Layout size ls sb ds}.
Context (i : nat) (ip : inode) (hs : list Z) (es : list dent).

Abbreviation vw := (vw dev).

(** Entry [i] of the inode cache is a directory with the entries [es]. *)
Record dir_at (s : kstate) : Prop := {
  da_at : file_at dev size me pid ls o cm dk sb ds i ip hs s;
  da_room : (length hs < NBUF)%nat;
  da_type : i_type ip = T_DIR;
  da_sized : sized (vw s) ip;
  da_content : content (vw s) ip = dir_bytes es;
  da_ok : Forall dent_ok es
}.

Lemma dir_at_keep s s' : dir_at s -> file_at dev size me pid ls o cm dk sb ds i ip hs s' -> (forall n, vw s' n = vw s n) -> dir_at s'.
Proof.
  intros [_ Hr Ht [Hs1 Hs2] Hc Hok] F V. split; try done.
  - split; [done|]. intros x Hx. rewrite (slot_ext (vw s)) by done. by apply Hs2.
  - rewrite <- Hc. unfold content. apply map_ext. intros x. by apply byte_at_ext.
Qed.

Lemma dir_size s : dir_at s -> i_size ip = 16 * Z.of_nat (length es) /\ i_size ip <= 71680.
Proof.
  intros [_ _ _ [Hs _] Hc _]. apply (f_equal length) in Hc. rewrite length_dir_bytes in Hc. unfold content in Hc.
  rewrite length_map, length_seq in Hc. change (MAXFILE * BSIZE) with 71680 in Hs. lia.
Qed.

Lemma wp_read_dirent s k e msg (Q : list Z -> kstate -> Prop) : dir_at s -> es !! k = Some e ->
  (forall s', dir_at s' -> calm s s' -> (forall n, vw s' n = vw s n) -> Q (dent_bytes e) s') ->
  wp (read_dirent fuel devsw i (16 * Z.of_nat k) msg) Q s.
Proof.
  intros Hd Hk HQ. pose proof (dir_size _ Hd) as [Hsz Hmax]. pose proof (lookup_lt_Some _ _ _ Hk) as Hlt. pose proof Hd as [F Hr Ht Hs Hc Hok].
  unfold read_dirent. apply wp_bind. eapply (wp_readi fuel (size := size) (ls := ls) (sb := sb) (ds := ds));
    [exact F|done|by rewrite Ht|done|lia|unfold DIRENT_SIZE; lia|]. intros s' F' C V.
  assert (read_of (content (vw s) ip) (16 * Z.of_nat k) DIRENT_SIZE = Some (dent_bytes e)) as ->.
  { unfold read_of. rewrite Hc, length_dir_bytes. change DIRENT_SIZE with 16. rewrite (proj2 (Z.ltb_ge _ _)), (proj2 (Z.leb_gt _ _)) by lia. cbn [orb].
    replace (Z.to_nat (16 * Z.of_nat k)) with (16 * k)%nat by lia. change (Z.to_nat 16) with 16%nat. by rewrite (dir_bytes_at _ _ _ Hk). }
  rewrite length_dent_bytes. apply wp_ret, HQ; [by eapply dir_at_keep|done|done].
Qed.

(** Reading before the end of the directory, and at the end. *)
Lemma size_test s k : dir_at s -> (k <= length es)%nat -> (16 * Z.of_nat k <? i_size ip) = bool_decide (k < length es)%nat.
Proof.
  intros Hd Hk. pose proof (dir_size _ Hd) as [Hsz _]. destruct (Z.ltb_spec (16 * Z.of_nat k) (i_size ip)) as [H|H]; symmetry.
  - apply bool_decide_eq_true. lia.
  - apply bool_decide_eq_false. lia.
Qed.

Lemma next_off k : 16 * Z.of_nat k + DIRENT_SIZE = 16 * Z.of_nat (S k).
Proof. unfold DIRENT_SIZE. lia. Qed.

Lemma wp_dirlookup_loop name n : forall k s (Q : option (nat * Z) -> kstate -> Prop), Forall byte_ok name ->
  dir_at s -> (k <= length es)%nat -> (length es - k <= n)%nat ->
  (forall s', dir_at s' -> calm s s' -> (forall n, vw s' n = vw s n) ->
     match list_find (names name) (drop k es) with
     | None => Q None s'
     | Some (j, e) => wp (iget dev e.1) (fun i' => Q (Some (i', 16 * Z.of_nat (k + j)))) s'
     end) ->
  wp (dirlookup_loop fuel devsw n i name (16 * Z.of_nat k)) Q s.
Proof.
  induction n as [|n IH]; intros k s Q Hname Hd Hk Hn HQ; cbn [dirlookup_loop]; pose proof (fa_ip _ _ _ _ (da_at _ Hd)) as Hip;
    (apply wp_bind; eapply wp_of_eq; [by apply get_i_Ok|]; rewrite (size_test s) by done;
     case_bool_decide as Hlt; cbn [negb]; [|apply wp_ret; rewrite drop_ge in HQ by lia; by apply HQ]).
  { lia. }
  destruct (lookup_lt_is_Some_2 _ _ Hlt) as [e He]. rewrite (drop_S _ _ _ He) in HQ. cbn [list_find] in HQ.
  apply wp_bind. eapply wp_read_dirent; [done|done|]. intros s1 Hd1 C1 V1.
  destruct (dent_decode name e) as [Ei En]; [by eapply Forall_lookup_1; [apply (da_ok _ Hd)|]|done|]. rewrite Ei.
  assert (~ names name e -> wp (dirlookup_loop fuel devsw n i name (16 * Z.of_nat k + DIRENT_SIZE)) Q s1) as Hnext.
  { intros Hne. rewrite next_off. apply IH; [done|done|lia|lia|]. intros s2 Hd2 C2 V2. rewrite decide_False in HQ by done.
    specialize (HQ s2 Hd2 (transitivity C1 C2) ltac:(intros x; by rewrite V2, V1)).
    destruct (list_find (names name) (drop (S k) es)) as [[j e']|]; [|done]. cbn [fmap option_fmap option_map prod_map id] in HQ. by rewrite Nat.add_succ_r in HQ. }
  destruct (Z.eqb_spec e.1 0) as [Ez|Ez]; [apply Hnext; by intros []|].
  destruct (Z.eqb_spec (namecmp name (de_name (dent_bytes e))) 0) as [Ec|Ec]; [|apply Hnext; intros [_ Hs]; tauto].
  apply wp_bind. eapply wp_of_eq; [apply get_i_Ok, (da_at _ Hd1)|]. rewrite (fa_dev _ _ _ _ (da_at _ Hd)).
  rewrite decide_True in HQ by (split; tauto). specialize (HQ s1 Hd1 C1 V1). rewrite Nat.add_0_r in HQ.
  apply wp_bind. eapply wp_mono; [exact HQ|]. intros i' s2 H. by apply wp_ret.
Qed.

Lemma wp_dirlink_off n : forall k s (Q : Z -> kstate -> Prop),
  dir_at s -> (k <= length es)%nat -> (length es - k <= n)%nat -> list_find unused (take k es) = None ->
  (forall s', dir_at s' -> calm s s' -> (forall n, vw s' n = vw s n) -> Q (16 * Z.of_nat (dir_slot es)) s') ->
  wp (dirlink_off fuel devsw n i (16 * Z.of_nat k)) Q s.
Proof.
  induction n as [|n IH]; intros k s Q Hd Hk Hn Hpre HQ; cbn [dirlink_off]; pose proof (fa_ip _ _ _ _ (da_at _ Hd)) as Hip;
    (apply wp_bind; eapply wp_of_eq; [by apply get_i_Ok|]; rewrite (size_test s) by done;
     case_bool_decide as Hlt; cbn [negb];
     [|apply wp_ret; rewrite take_ge in Hpre by lia; unfold dir_slot in HQ; rewrite Hpre in HQ; replace k with (length es) by lia; by apply HQ]).
  { lia. }
  destruct (lookup_lt_is_Some_2 _ _ Hlt) as [e He]. apply wp_bind. eapply wp_read_dirent; [done|done|]. intros s1 Hd1 C1 V1.
  destruct (dent_decode [] e) as [Ei _]; [by eapply Forall_lookup_1; [apply (da_ok _ Hd)|]|done|]. rewrite Ei.
  destruct (Z.eqb_spec e.1 0) as [Ez|Ez].
  - apply wp_ret. replace k with (dir_slot es); [by apply HQ|]. unfold dir_slot. rewrite <- (take_drop k es), (drop_S _ _ _ He).
    rewrite list_find_app_r by done. cbn [list_find]. rewrite decide_True by done. simpl. rewrite length_take. lia.
  - rewrite next_off. apply IH; [done|lia|lia| |].
    + rewrite (take_S_r _ _ _ He). apply list_find_app_None. split; [done|]. simpl. by rewrite decide_False.
    + intros s2 Hd2 C2 V2. apply HQ; [done|by etransitivity|]. intros x. by rewrite V2, V1.
Qed.

Lemma wp_dirlookup name s (Q : option (nat * Z) -> kstate -> Prop) : Forall byte_ok name -> dir_at s ->
  (forall s', dir_at s' -> calm s s' -> (forall n, vw s' n = vw s n) ->
     match list_find (names name) es with
     | None => Q None s'
     | Some (j, e) => wp (iget dev e.1) (fun i' => Q (Some (i', 16 * Z.of_nat j))) s'
     end) ->
  wp (dirlookup fuel devsw i name) Q s.
Proof.
  intros Hname Hd HQ. unfold dirlookup. apply wp_bind. eapply wp_of_eq; [apply get_i_Ok, (da_at _ Hd)|].
  rewrite (da_type _ Hd). cbn [negb Z.eqb Pos.eqb T_DIR]. apply (wp_dirlookup_loop name _ 0); [done|done|lia| |exact HQ].
  pose proof (dir_size _ Hd) as [-> _]. unfold DIRENT_SIZE. rewrite (Z.mul_comm 16), Z.div_mul by done. lia.
Qed.

Lemma wp_dirlink_slot s (Q : Z -> kstate -> Prop) : dir_at s ->
  (forall s', dir_at s' -> calm s s' -> (forall n, vw s' n = vw s n) -> Q (16 * Z.of_nat (dir_slot es)) s') ->
  wp (dirlink_off fuel devsw (S (Z.to_nat (i_size ip / DIRENT_SIZE))) i 0) Q s.
Proof.
  intros Hd HQ. apply (wp_dirlink_off _ 0); [done|lia| |done|exact HQ].
  pose proof (dir_size _ Hd) as [-> _]. unfold DIRENT_SIZE. rewrite (Z.mul_comm 16), Z.div_mul by done. lia.
Qed.

End scan.

(** ** The inode cache *)

Definition cached (dev inum : Z) (ip : inode) : Prop := 0 < i_ref ip /\ i_dev ip = dev /\ i_inum ip = inum.
Definition vacant (ip : inode) : Prop := i_ref ip = 0.
#[export] Instance cached_dec dev inum ip : Decision (cached dev inum ip).
Proof. unfold cached. apply _. Defined.
#[export] Instance vacant_dec ip : Decision (vacant ip).
Proof. unfold vacant. apply _. Defined.

(** The entry that [iget] returns and how it changes: a reference more to the
    entry of the inode, or the first unreferenced entry taken over for it. *)
Definition got (dev inum : Z) (ic : list inode) : option (nat * (inode -> inode)) :=
  match list_find (cached dev inum) ic with
  | Some (k, _) => Some (k, set i_ref (fun n => n + 1))
  | None =>
      match list_find vacant ic with
      | Some (k, _) => Some (k, fun ip => ip <| i_dev := dev |> <| i_inum := inum |> <| i_ref := 1 |> <| i_valid := 0 |>)
      | None => None
      end
  end.

Section iget.
Context (dev inum : Z).

(** A round of the scan of [iget]. *)
Definition iget_body (acc : nat + option nat) (i : nat) : KM (nat + option nat) :=
  match acc with
  | inl i => ret (inl i)
  | inr empty =>
      let* ip := get_i i in
      if (0 <? i_ref ip) && (i_dev ip =? dev) && (i_inum ip =? inum) then
        upd_i i (set i_ref (fun n => n + 1)) ;;
        release Licache ;;
        ret (inl i)
      else ret (inr (if bool_decide (empty = None) && (i_ref ip =? 0) then Some i else empty))
  end.

Lemma cached_test ip : (0 <? i_ref ip) && (i_dev ip =? dev) && (i_inum ip =? inum) = bool_decide (cached dev inum ip).
Proof.
  apply Bool.eq_true_iff_eq. rewrite bool_decide_eq_true, !andb_true_iff, Z.ltb_lt, !Z.eqb_eq. unfold cached. tauto.
Qed.

Lemma wp_iget_scan n : forall a empty s (Q : nat + option nat -> kstate -> Prop), (a + n)%nat = length (k_icache s) ->
  match list_find (cached dev inum) (drop a (k_icache s)) with
  | Some (j, _) => wp (upd_i (a + j) (set i_ref (fun n => n + 1)) ;; release Licache) (fun _ => Q (inl (a + j)%nat)) s
  | None => Q (inr (match empty with Some k => Some k | None => (fun p => a + p.1)%nat <$> list_find vacant (drop a (k_icache s)) end)) s
  end -> wp (for_fold (seq a n) (inr empty) iget_body) Q s.
Proof.
  induction n as [|n IH]; intros a empty s Q Hn HQ.
  { rewrite drop_ge in HQ by lia. apply wp_ret. by destruct empty. }
  cbn [seq for_fold]. destruct (lookup_lt_is_Some_2 (k_icache s) a ltac:(lia)) as [ip Hip]. rewrite (drop_S _ _ _ Hip) in HQ.
  apply wp_bind. cbn [iget_body]. apply wp_bind. eapply wp_of_eq; [by apply get_i_Ok|]. rewrite cached_test. cbn [list_find] in HQ.
  case_bool_decide as Hc.
  - rewrite decide_True, Nat.add_0_r in HQ by done. apply wp_iff in HQ as ([] & s1 & E & HQ). apply bind_Ok_inv in E as ([] & s2 & E1 & E2).
    apply wp_bind. eapply wp_of_eq; [exact E1|]. apply wp_bind. eapply wp_of_eq; [exact E2|]. apply wp_ret.
    eapply wp_of_eq; [apply for_fold_inert; by intros x _|done].
  - apply wp_ret. rewrite decide_False in HQ by done. apply IH; [lia|].
    destruct (list_find (cached dev inum) (drop (S a) (k_icache s))) as [[j ip']|].
    { cbn [fmap option_fmap option_map prod_map id] in HQ. by rewrite Nat.add_succ_r in HQ. }
    cbn [fmap option_fmap option_map] in HQ. destruct empty as [k|]; [done|]. rewrite bool_decide_eq_true_2 by done. cbn [andb].
    destruct (Z.eqb_spec (i_ref ip) 0) as [Ez|Ez].
    + rewrite decide_True in HQ by done. cbn [fmap option_fmap option_map fst] in HQ. by rewrite Nat.add_0_r in HQ.
    + rewrite decide_False in HQ by done. destruct (list_find vacant (drop (S a) (k_icache s))) as [[j ip']|]; [|done].
      cbn [fmap option_fmap option_map prod_map id fst] in *. by rewrite Nat.add_succ_r in HQ.
Qed.

Lemma wp_iget me s k f (Q : nat -> kstate -> Prop) : thr me [] s -> length (k_icache s) = NINODE -> got dev inum (k_icache s) = Some (k, f) ->
  (forall s', thr me [] s' -> upto (set k_icache (alter f k) s) s' -> Q k s') -> wp (iget dev inum) Q s.
Proof.
  intros H Hlen Hgot HQ. unfold iget. apply wp_bind, (wp_acquire me [] s H); [apply not_elem_of_nil|]. intros s1 H1 U1.
  assert (wp (upd_i k f ;; release Licache) (fun _ => Q k) s1) as Hup.
  { unfold upd_i. apply wp_bind, (wp_neutral me [Licache] s1 H1); [by split|done|]. intros H2.
    apply (wp_release me [] Licache _ _ H2); [apply not_elem_of_nil|]. intros s3 H3 U3. apply HQ; [done|].
    etransitivity; [|exact U3]. by apply (upto_neutral (set k_icache (alter f k))). }
  pose proof (upto_proj k_icache _ _ ltac:(done) U1) as Ei. rewrite <- Ei in Hgot, Hlen.
  apply wp_bind, (wp_iget_scan NINODE 0 None); [by rewrite Hlen|]. rewrite drop_0. unfold got in Hgot.
  destruct (list_find (cached dev inum) (k_icache s1)) as [[j x]|]; [injection Hgot as -> <-|].
  - eapply wp_mono; [exact Hup|]. intros [] s2 HQ2. by apply wp_ret.
  - destruct (list_find vacant (k_icache s1)) as [[j x]|]; [|done]. injection Hgot as -> <-. cbn [fmap option_fmap option_map fst].
    apply wp_iff in Hup as ([] & s3 & E & HQ3). apply bind_Ok_inv in E as ([] & s2 & E1 & E2).
    apply wp_bind. eapply wp_of_eq; [exact E1|]. apply wp_bind. eapply wp_of_eq; [exact E2|]. by apply wp_ret.
Qed.
End iget.

(** ** Open directories *)

Section open.
Context {D : Disk} (fuel : nat) (devsw : Z -> devops) (dev size : Z) {DL : DiskLaws D dev size} (me : nat) (pid ls : Z).
Context (sb : superblock) (ds : Z) {Hlay : Layout size ls sb ds}.

Abbreviation vw := (vw dev).

(** Entry [i] of the inode cache is a directory, with no system call in a
    transaction; its entries on the disk are [es]. *)
Definition open_dir (i : nat) (ip : inode) (es : list dent) (s : kstate) : Prop :=
  open_file dev size me pid ls sb ds i ip s /\ i_type ip = T_DIR /\ Forall dent_ok es /\
  disk_content sb (disk_read (k_disk s) dev) (i_inum ip) = dir_bytes es.

Lemma open_dir_at i ip es s s' o : open_dir i ip es s -> file_at dev size me pid ls o 0 (k_disk s) sb ds i ip [] s' -> (forall n, vw s' n = vw s n) ->
  dir_at (me := me) (pid := pid) (size := size) (ls := ls) (dev := dev) (o := o) (cm := 0) (dk := k_disk s) (sb := sb) (ds := ds) i ip [] es s'.
Proof.
  intros (Hf & Ht & Hok & Hc) F V. pose proof (of_sized _ _ _ _ _ _ _ _ _ _ Hf) as [Hs1 Hs2]. split; try done.
  - simpl. unfold NBUF. lia.
  - split; [done|]. intros x Hx. rewrite (slot_ext (vw s)) by done. by apply Hs2.
  - rewrite <- Hc, <- (open_content _ _ _ _ _ _ _ _ _ _ Hf). unfold content. apply map_ext. intros x. by apply byte_at_ext.
Qed.

Hypothesis Hdev : 0 <= dev < 2 ^ 32.

(** A transaction of [dirlink] up to its [end_op]. *)
Definition link_op (i : nat) (name : list Z) (inum : Z) : KM Z := begin_op fuel ;; dirlink fuel devsw i name inum.

Lemma dir_room i ip es s : open_dir i ip es s -> i_size ip = 16 * Z.of_nat (length es) /\ i_size ip <= 71680.
Proof. intros Hd. eapply dir_size, (open_dir_at i ip es s s 0 Hd); [|done]. apply (open_tx dev size me pid ls sb ds), Hd. Qed.

Lemma wp_link_op i ip es s name inum (Q : Z -> kstate -> Prop) :
  open_dir i ip es s -> Forall byte_ok name -> dir_lookup es name = None -> (length es < 4480)%nat -> room sb 8 (vw s) ->
  (forall ip' hs s1, file_at dev size me pid ls 1 0 (k_disk s) sb ds i ip' hs s1 -> (length hs <= 25)%nat ->
     file_written sb ds (vw s) ip (vw s1) ip' (16 * dir_slot es) (dent_bytes (inum, name)) -> Q 0 s1) ->
  wp (link_op i name inum) Q s.
Proof.
  intros Hd Hname Hnone Hlen Hroom HQ. pose proof Hd as (Hf & Ht & _). pose proof Hf as [(Hh & Hl & Ho & Hc & _) _ _ _ _ Hty Hsh Hj _ _ _ _].
  pose proof (dir_slot_le es) as Hslot. destruct (dir_room _ _ _ _ Hd) as [Hsz _].
  unfold link_op. apply wp_bind, (wp_begin_op fuel me); [apply Hh|done|rewrite (la_n _ _ _ _ Hl), Ho; unfold LOGSIZE, MAXOPBLOCKS; simpl; lia|].
  intros s1 Ht1 E1. destruct (begun dev size me pid ls sb ds i ip s s1 Hf Ht1 E1) as (F1 & V1 & _).
  pose proof (open_dir_at _ _ _ _ _ _ Hd F1 V1) as D1. unfold dirlink. apply wp_bind. eapply (wp_dirlookup fuel devsw (size := size) (ls := ls) (sb := sb) (ds := ds)); [done|exact D1|]. intros s2 D2 _ V2.
  assert (list_find (names name) es = None) as ->.
  { unfold dir_lookup in Hnone. by destruct (list_find (names name) es) as [[k e]|]. }
  apply wp_bind. eapply wp_of_eq; [apply get_i_Ok, (da_at _ _ _ _ _ D2)|]. apply wp_bind. eapply (wp_dirlink_slot fuel devsw (size := size) (ls := ls) (sb := sb) (ds := ds)); [exact D2|]. intros s3 D3 _ V3.
  assert (forall n, vw s3 n = vw s n) as V by (intros n; by rewrite V3, V2, V1).
  apply wp_bind. change (dirent_bytes inum name) with (dent_bytes (inum, name)). change DIRENT_SIZE with (Z.of_nat 16).
  rewrite <- (length_dent_bytes (inum, name)). pose proof (span_small (16 * dir_slot es) 16 ltac:(lia)) as Hspan.
  eapply (wp_writei fuel (dev := dev) (size := size) (ls := ls) (o := 1) (sb := sb) (ds := ds)); [lia|apply (da_at _ _ _ _ _ D3)|done|done|apply (da_sized _ _ _ _ _ D3)|done|done|lia|rewrite length_dent_bytes; lia|].
  rewrite length_dent_bytes. change (MAXFILE * BSIZE) with 71680. rewrite !(proj2 (Z.ltb_ge _ _)) by lia. cbn [orb].
  replace (Z.to_nat (16 * Z.of_nat (dir_slot es))) with (16 * dir_slot es)%nat by lia. split_and!; [cbn [length]; lia| |].
  - right. eapply room_ext; [exact V|]. eapply room_le; [|exact Hroom]. lia.
  - intros ip' hs' s4 F4 L4 _ _ _ W. apply wp_ret. eapply HQ; [exact F4|cbn [length] in L4; lia|]. by eapply file_written_ext.
Qed.
End open.

(** ** Theorems *)

(** C28: Looking up a name in a directory: [dirlookup] returns no inode when no
    entry in use has the name, and otherwise the offset of the first entry that
    has it and the entry of the inode cache for its inode number, the one that
    holds the inode already, with a reference more, or else the first
    unreferenced one, taken over for the inode and marked not yet read; nothing
    else in the inode cache and nothing on the disk changes. *)
Theorem dirlookup_finds {D : Disk} fuel devsw dev size {DL : DiskLaws D dev size} me pid ls sb ds {L : Layout size ls sb ds} i ip es s name :
  open_dir dev size me pid ls sb ds i ip es s -> Forall byte_ok name -> length (k_icache s) = NINODE ->
  match list_find (names name) es with
  | None => exists s', dirlookup fuel devsw i name s = Ok None s' /\ k_disk s' = k_disk s /\ k_icache s' = k_icache s
  | Some (j, e) => forall k f, got dev e.1 (k_icache s) = Some (k, f) ->
      exists s', dirlookup fuel devsw i name s = Ok (Some (k, 16 * Z.of_nat j)) s' /\
        k_disk s' = k_disk s /\ k_icache s' = alter f k (k_icache s)
  end.
Proof.
  intros Hd Hname Hlen. pose proof (open_tx dev size me pid ls sb ds i ip s (proj1 Hd)) as F.
  pose proof (open_dir_at dev size me pid ls sb ds _ _ _ _ _ _ Hd F ltac:(done)) as D0.
  pose proof (fun Q Hn => wp_dirlookup fuel devsw i ip [] es name s Q Hn D0) as Hwp.
  destruct (list_find (names name) es) as [[j e]|].
  - intros k f Hgot. enough (wp (dirlookup fuel devsw i name) (fun r s' => r = Some (k, 16 * Z.of_nat j) /\ k_disk s' = k_disk s /\ k_icache s' = alter f k (k_icache s)) s) as H.
    { apply wp_iff in H as (r & s' & E & -> & H). by exists s'. }
    apply Hwp; [done|]. intros s1 D1 [_ C1] _. pose proof (fa_tx _ _ _ _ (da_at _ _ _ _ _ D1)) as T1.
    apply (wp_iget dev e.1 me s1 k f); [apply T1|by rewrite C1|by rewrite C1|]. intros s2 _ U. split; [done|].
    rewrite (upto_proj k_disk _ _ ltac:(done) U), (upto_proj k_icache _ _ ltac:(done) U), <- C1. split; [apply (tx_disk _ _ _ T1)|done].
  - enough (wp (dirlookup fuel devsw i name) (fun r s' => r = None /\ k_disk s' = k_disk s /\ k_icache s' = k_icache s) s) as H.
    { apply wp_iff in H as (r & s' & E & -> & H). by exists s'. }
    apply Hwp; [done|]. intros s1 D1 [_ C1] _. split; [done|]. split; [|done]. apply (tx_disk _ _ _ (fa_tx _ _ _ _ (da_at _ _ _ _ _ D1))).
Qed.

(** C6: Linking a name is atomic: a transaction whose operation is [dirlink] of
    a name that the directory does not have, to an inode number that fits in an
    entry, puts the entry into the first free slot, or at the end, so that the
    directory as read back from the bytes on the disk maps the name to the inode
    number and every other name as before, and no other file changes; if the
    machine stops at any point of the commit, and again at any points of the
    recovery at boot, then the next complete [initlog] leaves the directory on
    the disk either as it was or with the name. *)
Theorem dirlink_atomic {D : Disk} fuel devsw dev size {DL : DiskLaws D dev size} me pid ls sb ds {L : Layout size ls sb ds} i ip es s name inum :
  0 <= dev < 2 ^ 32 -> open_dir dev size me pid ls sb ds i ip es s -> sb_start (disk_read (k_disk s) dev 1) = ls ->
  Forall byte_ok name -> 0 < inum < 2 ^ 16 -> dir_lookup es name = None -> (length es < 4480)%nat -> room sb 8 (vw dev s) ->
  let v := disk_read (k_disk s) dev in
  let es' := dir_add es (inum, name) in
  let lookup_on dk := dir_lookup (dir_on sb (disk_read dk dev) (i_inum ip)) in
  let linked dk := forall m, lookup_on dk m = if decide (same_name m name) then Some inum else lookup_on (k_disk s) m in
  exists s1, link_op fuel devsw i name inum s = Ok 0 s1 /\
    (exists s2, end_op fuel s1 = Ok tt s2 /\ log_idle dev size me pid ls s2 /\ linked (k_disk s2) /\
       file_is sb ds v ip (disk_read (k_disk s2) dev) (dir_bytes es')) /\
    (forall s' dk t, thr me [] s' -> upto (committing s1) s' -> crashed fuel dev size me pid s' dk -> boots dev size me pid dk t ->
       exists t', initlog fuel dev t = Ok tt t' /\ ((forall m, lookup_on (k_disk t') m = lookup_on (k_disk s) m) \/ linked (k_disk t')) /\
         exists c, (c = es \/ c = es') /\ file_is sb ds v ip (disk_read (k_disk t') dev) (dir_bytes c)).
Proof.
  intros Hdev Hd Hsb Hname Hi Hnone Hlen Hroom v es' lookup_on linked. pose proof Hd as (Hf & _ & Hok & Hc).
  assert (forall m, lookup_on (k_disk s) m = dir_lookup es m) as El by (intros m; by apply dir_on_lookup).
  assert (forall dk, file_is sb ds v ip (disk_read dk dev) (dir_bytes es') -> linked dk) as Hlinked.
  { intros dk (Hdk & _) m. rewrite El. unfold lookup_on. rewrite (dir_on_lookup es') by first [done|apply dir_add_ok; [done|split; [simpl; lia|done]]]. by apply dir_lookup_add; [lia|]. }
  assert (wp (link_op fuel devsw i name inum) (fun r s1 => r = 0 /\
    exists ip' hs, file_at dev size me pid ls 1 0 (k_disk s) sb ds i ip' hs s1 /\ (length hs <= 25)%nat /\
      file_written sb ds (vw dev s) ip (vw dev s1) ip' (16 * dir_slot es) (dent_bytes (inum, name))) s) as Hwp.
  { eapply (wp_link_op fuel devsw dev size me pid ls sb ds); try (done || lia). intros ip' hs s1 F1 H1 W. split; [done|]. by exists ip', hs. }
  apply wp_iff in Hwp as (r & s1 & E & -> & ip' & hs & F1 & H1 & W). exists s1. split; [done|].
  assert (put_at (disk_content sb v (i_inum ip)) (16 * dir_slot es) (dent_bytes (inum, name)) = dir_bytes es') as Eput by (unfold v; by rewrite Hc, put_dir).
  split.
  - assert (wp (end_op fuel) (fun _ s2 => log_idle dev size me pid ls s2 /\ file_is sb ds v ip (disk_read (k_disk s2) dev) (dir_bytes es')) s1) as Hend.
    { eapply (wp_write_end fuel dev size me pid ls sb ds Hdev i ip ip' hs s s1); [done|done|done|exact W|]. fold v. by rewrite Eput. }
    apply wp_iff in Hend as ([] & s2 & E2 & H2 & H3). exists s2. split_and!; [done|done|by apply Hlinked|done].
  - intros s' dk t Ht Hu Hcr Hb.
    destruct (write_crash fuel dev size me pid ls sb ds Hdev i ip ip' hs s s1 _ _ s' dk t Hf F1 H1 W Hsb Ht Hu Hcr Hb) as (t' & Et & c & Ec & Hfi).
    fold v in Ec, Hfi. rewrite Eput in Ec. unfold v in Ec. rewrite Hc in Ec. exists t'. split; [done|]. destruct Ec as [-> | ->].
    + split; [|by exists es; auto]. left. intros m. rewrite El. destruct Hfi as [Hdk _]. by apply dir_on_lookup.
    + split; [|by exists es'; auto]. right. by apply Hlinked.
Qed.

(** ** A directory on a disk

    Inode 2 with three entries, the second one free. *)

Definition dir_inode : inode := MkInode 1 2 1 sleeplock0 1 T_DIR 0 0 1 48 demo_addrs.
Definition demo_dents : list dent := [(2, bytes "."); (0, bytes "old"); (5, bytes "cat")].
Definition dir_disk : history :=
  [(1, 1, put_u32 zero_block 16 2);
   (1, 32, splice zero_block 128 (dinode_bytes (dinode_of dir_inode)));
   (1, 58, splice zero_block 0 (replicate 7 255 ++ [23]));
   (1, 60, splice zero_block 0 (dir_bytes demo_dents))].
Definition dir_cache : list inode := dir_inode :: replicate 49 (MkInode 0 0 0 sleeplock0 0 0 0 0 0 0 []).
Definition dir_state : kstate :=
  (with_bufs (fun _ => buf0) dir_disk ((demo [demo_proc 1 RUNNING ChNull]) <| k_sb := demo_sb |> <| k_icache := dir_cache |>))
    <| k_log := MkLog 2 30 0 0 1 0 (replicate 30 0) |>.

Lemma dir_state_open : open_dir 1 1000 0 1 2 demo_sb 59 0 dir_inode demo_dents dir_state.
Proof.
  split; [|split; [done|split; [by repeat constructor|vm_compute; reflexivity]]]. split; try done.
  - split_and!; try done.
    apply (holds_log 1 1000 0 1 [] [] None), with_bufs_holds; [|done|by repeat constructor|..|done].
    + apply (thr_neutral (fun s => s <| k_sb := demo_sb |> <| k_icache := dir_cache |>)); try done.
      by apply demo_thr; [|unfold NPROC; simpl; lia].
    + intros i. split; [|done]. split_and!; try done. by left.
  - by repeat constructor.
  - intros b Hb. assert (forallb (used demo_sb (vw 1 dir_state)) (seqZ 0 59) = true) as Hall by (vm_compute; reflexivity).
    rewrite forallb_forall in Hall. apply Hall, list_elem_of_In, elem_of_seqZ. lia.
  - split; [done|..].
    + intros k Hk Hs. apply demo_slot in Hs as ->. split; [done|]. vm_compute. reflexivity.
    + intros k j Hk Hj Hs E. pose proof Hs as Hs'. rewrite E in Hs'. apply demo_slot in Hs, Hs'. congruence.
  - split; [done|]. intros x Hx. simpl in Hx. change (Z.to_nat 48) with 48%nat in Hx.
    rewrite Nat.div_small by lia. split; [|done]. change (Z.to_nat MAXFILE) with 140%nat. lia.
Qed.

Lemma dir_state_room : room demo_sb 8 (vw 1 dir_state).
Proof.
  exists (seqZ 61 8). split_and!; [apply NoDup_seqZ|reflexivity|]. apply Forall_seqZ. intros b Hb. split; [simpl; lia|].
  assert (forallb (fun b => negb (used demo_sb (vw 1 dir_state) b)) (seqZ 61 8) = true) as Hall by (vm_compute; reflexivity).
  rewrite forallb_forall in Hall. apply negb_true_iff, Hall, list_elem_of_In, elem_of_seqZ. lia.
Qed.

Lemma dirlookup_finds_witness : exists s', dirlookup (D := memide 1000) 0 no_dev 0 (bytes "cat") dir_state = Ok (Some (1%nat, 32)) s' /\
  k_disk s' = dir_disk /\ (k_icache s' !! 1%nat) = Some (MkInode 1 5 1 sleeplock0 0 0 0 0 0 0 []).
Proof.
  destruct (dirlookup_finds (D := memide 1000) 0 no_dev 1 1000 0 1 2 demo_sb 59 0 dir_inode demo_dents dir_state (bytes "cat") dir_state_open
    ltac:(by repeat constructor) eq_refl 1%nat _ eq_refl) as (s' & E & Hd & Hi).
  exists s'. split; [exact E|]. split; [exact Hd|]. rewrite Hi. reflexivity.
Defined.

Lemma dirlink_atomic_witness : exists s1, link_op (D := memide 1000) 0 no_dev 0 (bytes "ls") 7 dir_state = Ok 0 s1 /\
  (exists s2, end_op (D := memide 1000) 0 s1 = Ok tt s2 /\
     disk_content demo_sb (disk_read (k_disk s2) 1) 2 = dir_bytes [(2, bytes "."); (7, bytes "ls"); (5, bytes "cat")] /\
     dir_lookup (dir_on demo_sb (disk_read (k_disk s2) 1) 2) (bytes "ls") = Some 7) /\
  (forall s' dk t, thr 0 [] s' -> upto (committing s1) s' -> crashed (D := memide 1000) 0 1 1000 0 1 s' dk -> boots 1 1000 0 1 dk t ->
     exists t', initlog (D := memide 1000) 0 1 t = Ok tt t').
Proof.
  destruct (dirlink_atomic (D := memide 1000) 0 no_dev 1 1000 0 1 2 demo_sb 59 0 dir_inode demo_dents dir_state (bytes "ls") 7)
    as (s1 & E & (s2 & E2 & _ & Hl & Hn & _) & Hc);
    [lia|exact dir_state_open|vm_compute; reflexivity|by apply (bool_decide_unpack _)|lia|vm_compute; reflexivity|simpl; lia|exact dir_state_room|].
  exists s1. split; [exact E|]. split; [exists s2; split; [exact E2|split; [exact Hn|apply (Hl (bytes "ls"))]]|].
  intros s' dk t Ht Hu Hcr Hb. destruct (Hc s' dk t Ht Hu Hcr Hb) as (t' & Et & _). exists t'. exact Et.
Defined.
