(* ===== verification/Mkfs.v ===== *)
(** * The tool that makes a file system (mkfs.c)

    [mkfs] runs on the host: it writes an image of the disk with the boot and
    super blocks, an empty log, the inodes, the bitmap and the blocks of a root
    directory and of the files named on its command line.  The state has the
    sectors of the image and the tool's global variables.  A run that ends in
    [exit(1)] or in a failed [assert] is a [Panic]. *)

From stdpp Require Import base functions numbers list list_numbers strings.
From S2P Require Import Prelude Kmonad Params Kstate KString Bio Log Commit Fs Blockmap Inode Filewrite.

Local Open Scope Z_scope.
Local Open Scope kern_scope.

Definition NINODES : Z := 200.
Definition nbitmap : Z := FSSIZE / (BSIZE * 8) + 1.
Definition ninodeblocks : Z := NINODES / IPB + 1.
Definition nlog : Z := LOGSIZE.

Record mstate := MkM {
  m_img : list (list Z);  (** the file [fsfd], by sector *)
  m_sb : superblock;
  m_freeinode : Z;
  m_freeblock : Z
}.
#[export] Instance eta_mstate : Eta mstate := fun x => MkM (m_img x) (m_sb x) (m_freeinode x) (m_freeblock x).
#[export] Instance set_m_img : Setter m_img := ltac:(derive_setter).
#[export] Instance set_m_sb : Setter m_sb := ltac:(derive_setter).
#[export] Instance set_m_freeinode : Setter m_freeinode := ltac:(derive_setter).
#[export] Instance set_m_freeblock : Setter m_freeblock := ltac:(derive_setter).

Abbreviation MM := (K Empty_set mstate).

Definition assert (b : bool) : MM unit := if b then ret tt else panic "assert".

(** The bytes [a] of [y], read back on a little-endian host. *)
Definition xshort (x : Z) : Z := of_le [u8 x; u8 (Z.shiftr x 8)].
Definition xint (x : Z) : Z := of_le [u8 x; u8 (Z.shiftr x 8); u8 (Z.shiftr x 16); u8 (Z.shiftr x 24)].

(** ** Sectors *)

(** The sector at byte [sec * BSIZE] of the image. *)
Definition sector (sec : Z) : nat := Z.to_nat (u32 (sec * BSIZE) / BSIZE).

(** Writing past the end of the image fills the gap with zeroes. *)
Definition wsect (sec : Z) (buf : list Z) : MM unit :=
  modify (set m_img (fun img =>
    if decide (sector sec < length img)%nat then <[sector sec := buf]> img
    else img ++ replicate (sector sec - length img) zero_block ++ [buf])).

(** Reading there fails. *)
Definition rsect (sec : Z) : MM (list Z) :=
  let* img := gets m_img in
  match img !! sector sec with Some buf => ret buf | None => panic "read" end.

(** ** Inodes *)

Definition winode (inum : Z) (ip : dinode) : MM unit :=
  let* sb := gets m_sb in
  let bn := IBLOCK inum sb in
  let* buf := rsect bn in
  wsect bn (splice buf (IOFF inum) (dinode_bytes ip)).

Definition rinode (inum : Z) : MM dinode :=
  let* sb := gets m_sb in
  let* buf := rsect (IBLOCK inum sb) in
  ret (dinode_at buf (IOFF inum)).

Definition ialloc (type : Z) : MM Z :=
  let* inum := gets m_freeinode in
  modify (set m_freeinode (fun n => u32 (n + 1))) ;;
  winode inum (MkDinode (i16 (xshort type)) 0 0 (i16 (xshort 1)) (xint 0) (replicate (S NDIRECT) 0)) ;;
  ret inum.

Definition balloc (used : Z) : MM unit :=
  assert (used <? BSIZE * 8) ;;
  let buf := fold_left (fun buf i => alter (fun x => Z.lor x (Z.shiftl 1 (i mod 8))) (Z.to_nat (i / 8)) buf)
    (seqZ 0 used) zero_block in
  let* sb := gets m_sb in
  wsect (sb_bmapstart sb) buf.

(** [freeblock++] *)
Definition freeblock : MM Z :=
  let* b := gets m_freeblock in
  modify (set m_freeblock (fun n => u32 (n + 1))) ;;
  ret b.

Definition set_addrs (din : dinode) (a : list Z) : dinode :=
  MkDinode (d_type din) (d_major din) (d_minor din) (d_nlink din) (d_size din) a.

(** [if(xint(din.addrs[k]) == 0) din.addrs[k] = xint(freeblock++)] *)
Definition new_addr (din : dinode) (k : nat) : MM dinode :=
  if xint (nthZ (d_addrs din) k) =? 0 then
    let* b := freeblock in
    ret (set_addrs din (<[k := xint b]> (d_addrs din)))
  else ret din.

(** The sector of block [fbn] of the file, and the inode with it. *)
Definition isect (din : dinode) (fbn : Z) : MM (dinode * Z) :=
  if fbn <? Z.of_nat NDIRECT then
    let* din := new_addr din (Z.to_nat fbn) in
    ret (din, xint (nthZ (d_addrs din) (Z.to_nat fbn)))
  else
    let* din := new_addr din NDIRECT in
    let k := Z.to_nat (4 * (fbn - Z.of_nat NDIRECT)) in
    let* indirect := rsect (xint (nthZ (d_addrs din) NDIRECT)) in
    if get_u32 indirect k =? 0 then
      let* b := freeblock in
      let indirect := put_u32 indirect k (xint b) in
      wsect (xint (nthZ (d_addrs din) NDIRECT)) indirect ;;
      ret (din, xint (get_u32 indirect k))
    else ret (din, xint (get_u32 indirect k)).

(** The loop of [iappend]: every round copies at least one byte. *)
Fixpoint iappend_loop (rounds : nat) (din : dinode) (off : Z) (p : list Z) : MM (dinode * Z) :=
  if negb (0 <? Z.of_nat (length p)) then ret (din, off) else
  match rounds with
  | O => nofuel
  | S rounds =>
      let fbn := off / BSIZE in
      assert (fbn <? MAXFILE) ;;
      let* (din, x) := isect din fbn in
      let n1 := Z.min (Z.of_nat (length p)) ((fbn + 1) * BSIZE - off) in
      let* buf := rsect x in
      wsect x (splice buf (Z.to_nat (off - fbn * BSIZE)) (take (Z.to_nat n1) p)) ;;
      iappend_loop rounds din (off + n1) (drop (Z.to_nat n1) p)
  end.

Definition iappend (inum : Z) (p : list Z) : MM unit :=
  let* din := rinode inum in
  let* (din, off) := iappend_loop (length p) din (xint (d_size din)) p in
  winode inum (MkDinode (d_type din) (d_major din) (d_minor din) (d_nlink din) (xint off) (d_addrs din)).

(** ** The image *)

Definition sb_bytes (sb : superblock) : list Z :=
  flat_map (le_bytes 4)
    [sb_size sb; sb_nblocks sb; sb_ninodes sb; sb_nlog sb; sb_logstart sb; sb_inodestart sb; sb_bmapstart sb].

(** A directory entry with a copied name. *)
Definition dirent (inum : Z) (name : list Z) : list Z := le_bytes 2 (xshort inum) ++ name.
(** [strcpy] into a zeroed name. *)
Definition copied (name : list Z) : list Z := splice (replicate DIRSIZ 0) 0 (name ++ [0]).

(** [reads]: what the calls of [read] return. *)
Fixpoint copy_in (inum : Z) (reads : list (list Z)) : MM unit :=
  match reads with
  | [] | [] :: _ => ret tt
  | buf :: reads => iappend inum buf ;; copy_in inum reads
  end.

(** One file of the command line; [reads] is [None] when it does not open. *)
Definition add_file (rootino : Z) (arg : list Z) (reads : option (list (list Z))) : MM unit :=
  assert (bool_decide (47 ∉ arg)) ;;
  match reads with
  | None => panic "open"
  | Some reads =>
      let arg := if chr arg =? 95 then adv arg else arg in
      let* inum := ialloc T_FILE in
      iappend rootino (dirent inum (strncpy arg DIRSIZ)) ;;
      copy_in inum reads
  end.

Definition nmeta : Z := 2 + nlog + ninodeblocks + nbitmap.
Definition nblocks : Z := FSSIZE - nmeta.

(** [files]: the arguments after the name of the image, with what opening and
    reading them gives. *)
Definition mkfs (files : list (list Z * option (list (list Z)))) : MM Z :=
  let sb := MkSb (xint FSSIZE) (xint nblocks) (xint NINODES) (xint nlog) (xint 2) (xint (2 + nlog))
    (xint (2 + nlog + ninodeblocks)) in
  modify (fun s => s <| m_sb := sb |> <| m_freeblock := nmeta |>) ;;
  for_each (seqZ 0 FSSIZE) (fun i => wsect i zero_block) ;;
  wsect 1 (splice zero_block 0 (sb_bytes sb)) ;;
  let* rootino := ialloc T_DIR in
  assert (rootino =? ROOTINO) ;;
  iappend rootino (dirent rootino (copied (bytes "."))) ;;
  iappend rootino (dirent rootino (copied (bytes ".."))) ;;
  for_each files (fun '(arg, reads) => add_file rootino arg reads) ;;
  let* din := rinode rootino in
  let off := xint (d_size din) in
  let off := (off / BSIZE + 1) * BSIZE in
  winode rootino (MkDinode (d_type din) (d_major din) (d_minor din) (d_nlink din) (xint off) (d_addrs din)) ;;
  let* fb := gets m_freeblock in
  balloc fb ;;
  ret 0.

(** [main]: [argv] after the name of the program; the first is the image. *)
Definition mkfs_main (argv : list (list Z * option (list (list Z)))) : MM Z :=
  match argv with
  | [] => panic "usage"
  | (_, img) :: files =>
      assert (BSIZE mod 64 =? 0) ;; assert (BSIZE mod 16 =? 0) ;;
      match img with None => panic "open" | Some _ => mkfs files end
  end.

(** The image is empty and no inode is taken. *)
Definition mstart : mstate := MkM [] (MkSb 0 0 0 0 0 0 0) 1 0.
