(* ===== verification/Mkimage.v ===== *)
(** * The image that mkfs makes (mkfs.c)

    The files of an image as a list of types and contents ([files_at]), and a
    refinement: [ialloc] adds an empty file to the list, [iappend] appends to a
    file of it, and the image that [mkfs] ends with has the files of the command
    line, in the format that the kernel reads.

    Until [balloc] writes the bitmap, the tool knows the blocks that are taken by
    [freeblock] only; [vimg] is the image with the bitmap that it would write. *)

From stdpp Require Import base functions numbers list list_numbers strings.
From S2P Require Import Prelude Kmonad Params Kstate KString Bio Log Commit Fs Blockmap Inode Filewrite Mkfs.

Local Open Scope Z_scope.

(** ** Sectors and the bitmap *)

Definition image (img : list (list Z)) (b : Z) : list Z :=
  if decide (0 <= b) then default zero_block (img !! Z.to_nat b) else zero_block.

Definition bitmap (n : nat) : list Z :=
  fold_left (fun buf i => alter (fun x => Z.lor x (Z.shiftl 1 (i mod 8))) (Z.to_nat (i / 8)) buf) (seqZ 0 (Z.of_nat n)) zero_block.

Definition vimg (s : mstate) (b : Z) : list Z :=
  if decide (b = 58) then bitmap (Z.to_nat (m_freeblock s)) else image (m_img s) b.

Lemma xint_u32 x : xint x = u32 x.
Proof.
  unfold xint, u32, u8. cbn [of_le]. rewrite !Z.shiftr_div_pow2 by lia.
  change (2 ^ 8) with 256. change (2 ^ 16) with (256 * 256). change (2 ^ 24) with (256 * 256 * 256). change (2 ^ 32) with (256 * (256 * (256 * 256))).
  rewrite !Z.rem_mul_r by lia. rewrite !Z.div_div by lia. rewrite ?Z.mul_assoc. lia.
Qed.
Lemma xint_small x : 0 <= x < 2 ^ 32 -> xint x = x.
Proof. intros. rewrite xint_u32. by apply u32_small. Qed.
Lemma xshort_small x : 0 <= x < 2 ^ 16 -> xshort x = x.
Proof.
  intros Hx. unfold xshort, u8. cbn [of_le]. rewrite Z.shiftr_div_pow2 by lia. change (2 ^ 8) with 256. change (2 ^ 16) with (256 * 256) in Hx.
  rewrite Z.mul_0_r, Z.add_0_r. rewrite (Z.mod_small (x / 256)); [symmetry; rewrite Z.add_comm; apply Z.div_mod; lia|].
  split; [apply Z.div_pos; lia|apply Z.div_lt_upper_bound; lia].
Qed.

Lemma bitmap_S n : (n < 4096)%nat -> bitmap (S n) = set_bit (Z.of_nat n) (bitmap n).
Proof.
  intros Hn. unfold bitmap. rewrite seqZ_S. rewrite fold_left_app. cbn [fold_left]. rewrite Z.add_0_l. unfold set_bit.
  change BPB with 4096. rewrite (Z.mod_small _ 4096) by lia. done.
Qed.
Lemma length_bitmap n : length (bitmap n) = Z.to_nat BSIZE.
Proof.
  unfold bitmap. generalize (seqZ 0 (Z.of_nat n)). intros l. assert (length zero_block = Z.to_nat BSIZE) as H by done. revert H. generalize zero_block.
  induction l as [|x l IH]; intros b Hb; [done|]. cbn [fold_left]. apply IH. by rewrite length_alter.
Qed.

(** ** The image in the state *)

Definition isb : superblock := MkSb 1000 941 200 30 2 32 58.
#[export] Instance image_layout : Layout 1000 2 isb 59.
Proof. by split. Qed.

Abbreviation used := (used isb).
Abbreviation file_ok := (file_ok isb 59).
Abbreviation wrote := (wrote isb 59).

Definition super : list Z := splice zero_block 0 (sb_bytes isb).

(** The superblock and an empty log are in place, the sectors from [freeblock]
    on are zero. *)
Record mok (s : mstate) : Prop := {
  mo_len : length (m_img s) = 1000%nat;
  mo_sec : Forall (fun x => length x = Z.to_nat BSIZE) (m_img s);
  mo_sb : m_sb s = isb;
  mo_free : 59 <= m_freeblock s <= 1000;
  mo_zero b : m_freeblock s <= b < 1000 -> image (m_img s) b = zero_block;
  mo_super : image (m_img s) 1 = super;
  mo_log : image (m_img s) 2 = zero_block
}.

Lemma BBLOCK_58 b : 0 <= b < 1000 -> BBLOCK b isb = 58.
Proof. intros Hb. unfold BBLOCK. rewrite Z.div_small; [done|]. change BPB with 4096. lia. Qed.

(** The bitmap has the bits of the first [n] blocks. *)
Lemma bitmap_used n : forall v b, v 58 = bitmap n -> (n <= 1000)%nat -> 0 <= b < 1000 -> used v b = (b <? Z.of_nat n).
Proof.
  induction n as [|n IH]; intros v b Hv Hn Hb.
  - unfold Blockmap.used. rewrite BBLOCK_58, Hv by done. unfold bitmap, nthZ, zero_block. change (seqZ 0 (Z.of_nat 0)) with (@nil Z). cbn [fold_left].
    rewrite lookup_replicate_2 by (apply bit_byte). cbn. rewrite Z.testbit_0_l. symmetry. apply Z.ltb_ge. lia.
  - set (v0 := fun m => if decide (m = 58) then bitmap n else v m).
    rewrite (used_set isb v0 v (Z.of_nat n) b); [|lia|lia| | |].
    + rewrite IH by (done || lia). destruct (Z.eqb_spec b (Z.of_nat n)), (Z.ltb_spec b (Z.of_nat n)), (Z.ltb_spec b (Z.of_nat (S n))); simpl; lia || done.
    + rewrite BBLOCK_58 by lia. apply length_bitmap.
    + intros _. by rewrite !Z.div_small by (change BPB with 4096; lia).
    + intros m. rewrite BBLOCK_58 by lia. unfold v0. case_decide as E; [|done]. by rewrite E, Hv, bitmap_S by lia.
Qed.

Lemma vimg_used s b : mok s -> 0 <= b < 1000 -> used (vimg s) b = (b <? m_freeblock s).
Proof.
  intros Hs Hb. pose proof (mo_free _ Hs). rewrite (bitmap_used (Z.to_nat (m_freeblock s))); [by rewrite Z2Nat.id by lia|done|lia|done].
Qed.

Lemma image_len s b : mok s -> length (image (m_img s) b) = Z.to_nat BSIZE.
Proof.
  intros Hs. unfold image. case_decide; [|done]. destruct (m_img s !! Z.to_nat b) as [x|] eqn:E; [|done].
  pose proof (mo_sec _ Hs) as Hf. rewrite Forall_lookup in Hf. by eapply Hf.
Qed.
Lemma vimg_len s b : mok s -> length (vimg s b) = Z.to_nat BSIZE.
Proof. intros Hs. unfold vimg. case_decide; [apply length_bitmap|by apply image_len]. Qed.

(** ** Reading and writing sectors *)

Lemma sector_small sec : 0 <= sec < 1000 -> sector sec = Z.to_nat sec.
Proof. intros H. unfold sector. change BSIZE with 512. rewrite u32_small by lia. by rewrite Z.div_mul by lia. Qed.

Lemma wp_rsect sec s (Q : list Z -> mstate -> Prop) : mok s -> 0 <= sec < 1000 -> Q (image (m_img s) sec) s -> wp (rsect sec) Q s.
Proof.
  intros Hs Hsec HQ. unfold rsect. apply wp_bind, wp_gets. rewrite sector_small by done. unfold image in HQ. rewrite decide_True in HQ by lia.
  destruct (lookup_lt_is_Some_2 (m_img s) (Z.to_nat sec)) as [x Hx]; [rewrite (mo_len _ Hs); lia|]. rewrite Hx in *. by apply wp_ret.
Qed.

Definition put_sect (sec : Z) (buf : list Z) (s : mstate) : mstate := set m_img (insert (Z.to_nat sec) buf) s.

Lemma wp_wsect sec buf s (Q : unit -> mstate -> Prop) : mok s -> 0 <= sec < 1000 -> Q tt (put_sect sec buf s) -> wp (wsect sec buf) Q s.
Proof.
  intros Hs Hsec HQ. unfold wsect. apply wp_modify. rewrite sector_small by done. unfold put_sect in HQ.
  enough (set m_img (fun img => if decide (Z.to_nat sec < length img)%nat then <[Z.to_nat sec:=buf]> img
    else img ++ replicate (Z.to_nat sec - length img) zero_block ++ [buf]) s = set m_img (insert (Z.to_nat sec) buf) s) as -> by done.
  unfold set, set_m_img. by rewrite decide_True by (rewrite (mo_len _ Hs); lia).
Qed.

Lemma image_put sec buf s b : mok s -> 0 <= sec < 1000 ->
  image (m_img (put_sect sec buf s)) b = if decide (b = sec) then buf else image (m_img s) b.
Proof.
  intros Hs Hsec. pose proof (mo_len _ Hs). unfold image, put_sect. simpl. destruct (decide (b = sec)) as [->|Hne].
  - rewrite decide_True by lia. by rewrite list_lookup_insert_eq by lia.
  - case_decide; [|done]. by rewrite list_lookup_insert_ne by lia.
Qed.

Lemma vimg_put sec buf s b : mok s -> 0 <= sec < 1000 -> sec <> 58 ->
  vimg (put_sect sec buf s) b = if decide (b = sec) then buf else vimg s b.
Proof.
  intros Hs Hsec Hne. unfold vimg. rewrite image_put by done. change (m_freeblock (put_sect sec buf s)) with (m_freeblock s).
  repeat case_decide; congruence || done.
Qed.

Lemma mok_put sec buf s : mok s -> 32 <= sec < m_freeblock s -> length buf = Z.to_nat BSIZE -> mok (put_sect sec buf s).
Proof.
  intros Hs Hsec Hl. pose proof Hs as [H1 H2 H3 H4 H5 H6 H7].
  assert (forall b, b <> sec -> image (m_img (put_sect sec buf s)) b = image (m_img s) b) as E by (intros b Hb; rewrite image_put by (done || lia); by rewrite decide_False).
  split; [by rewrite <- H1; apply length_insert|by apply Forall_insert|done|done| |rewrite E by lia; done..].
  intros b Hb. change (m_freeblock (put_sect sec buf s)) with (m_freeblock s) in Hb. rewrite E by lia. by apply H5.
Qed.

(** ** Taking the next block *)

Definition bump (s : mstate) : mstate := set m_freeblock (fun n => u32 (n + 1)) s.

Lemma wp_freeblock s (Q : Z -> mstate -> Prop) : mok s -> m_freeblock s < 1000 ->
  (m_freeblock (bump s) = m_freeblock s + 1 -> mok (bump s) -> takes isb 59 (vimg s) (m_freeblock s) (vimg (bump s)) -> Q (m_freeblock s) (bump s)) ->
  wp freeblock Q s.
Proof.
  intros Hs Hlt HQ. pose proof (mo_free _ Hs) as Hf. unfold freeblock. apply wp_bind, wp_gets, wp_bind, wp_modify, wp_ret.
  assert (m_freeblock (bump s) = m_freeblock s + 1) as E by (unfold bump; simpl; apply u32_small; lia).
  apply HQ; [done|..].
  - pose proof Hs as [H1 H2 H3 H4 H5 H6 H7]. split; try done; [lia|]. intros b Hb. apply H5. lia.
  - assert (vimg (bump s) 58 = set_bit (m_freeblock s) (vimg s 58)) as Eb.
    { change (bitmap (Z.to_nat (m_freeblock (bump s))) = set_bit (m_freeblock s) (bitmap (Z.to_nat (m_freeblock s)))). rewrite E.
      replace (Z.to_nat (m_freeblock s + 1)) with (S (Z.to_nat (m_freeblock s))) by lia. by rewrite bitmap_S, Z2Nat.id by lia. }
    apply (takes_intro (vimg s) _ (vimg (bump s))); [change (sb_size isb) with 1000; lia|rewrite vimg_used by (done || lia); by rewrite Z.ltb_irrefl|..].
    + intros b Hb. rewrite vimg_used by (done || lia). apply Z.ltb_lt. lia.
    + intros b Hb. rewrite vimg_used by (done || lia). apply Z.ltb_lt. lia.
    + by apply vimg_len.
    + intros n. rewrite BBLOCK_58 by lia. case_decide as En; [by rewrite En|]. unfold vimg. by rewrite !decide_False.
    + intros n. case_decide as En; [|done]. rewrite En. unfold vimg. rewrite decide_False by lia. apply (mo_zero _ Hs). lia.
Qed.

(** ** The block of a file *)

(** The file has exactly its first [B] blocks. *)
Definition exact (v : Z -> list Z) (a : list Z) (B : nat) : Prop :=
  (forall bn, (bn < Z.to_nat MAXFILE)%nat -> slot v a (pos bn) <> 0 <-> (bn < B)%nat) /\ (slot v a NDIRECT <> 0 <-> (NDIRECT < B)%nat).

(** What they take, with the indirect block. *)
Definition cnt (B : nat) : Z := Z.of_nat B + (if (NDIRECT <? B)%nat then 1 else 0).

Lemma added_iff v a k r v' a' j : added isb 59 v a k r v' a' -> (j < NSLOT)%nat -> slot v' a' j <> 0 <-> slot v a j <> 0 \/ j = k.
Proof.
  intros Ha Hj. destruct (decide (j = k)) as [->|Hne].
  - rewrite (ad_slot _ _ _ _ _ _ Ha). pose proof (data_pos r (proj1 (ad_range _ _ _ _ _ _ Ha))). naive_solver.
  - rewrite (ad_slots _ _ _ _ _ _ Ha) by done. naive_solver.
Qed.

(** What one step of a file's growth leaves. *)
Record grew (s : mstate) (din : dinode) (n : Z) (s' : mstate) (din' : dinode) : Prop := {
  ge_ok : mok s';
  ge_inodes : m_freeinode s' = m_freeinode s;
  ge_free : m_freeblock s' = m_freeblock s + n;
  ge_din : din' = set_addrs din (d_addrs din');
  ge_file : file_ok (vimg s') (d_addrs din');
  ge_wrote off : wrote (vimg s) (d_addrs din) (vimg s') (d_addrs din') off []
}.

Lemma grew_refl s din : mok s -> file_ok (vimg s) (d_addrs din) -> grew s din 0 s din.
Proof. intros Hs Hf. split; [done|done|lia|by destruct din|done|]. intros off. by apply wrote_refl. Qed.

Lemma grew_trans s din n s1 din1 n1 s2 din2 : grew s din n s1 din1 -> grew s1 din1 n1 s2 din2 -> grew s din (n + n1) s2 din2.
Proof.
  intros [A1 A2 A3 A4 A5 A6] [B1 B2 B3 B4 B5 B6]. split; [done|congruence|lia| |done|].
  - rewrite B4, A4. by destruct din.
  - intros off. apply (wrote_trans (vimg s) (d_addrs din) (vimg s1) (d_addrs din1) (vimg s2) (d_addrs din2) off [] []); [intros x; simpl; lia|done|done|done].
Qed.

Lemma slot_word v a k : file_ok v a -> (k < NSLOT)%nat -> 0 <= slot v a k < 1000.
Proof.
  intros Hf Hk. destruct (Z.eq_dec (slot v a k) 0) as [->|Hne]; [lia|]. destruct (fo_slot _ _ Hf k Hk Hne) as [Hr _].
  change (sb_size isb) with 1000 in Hr. lia.
Qed.

Lemma wp_new_addr s din k (Q : dinode -> mstate -> Prop) :
  mok s -> file_ok (vimg s) (d_addrs din) -> (k <= NDIRECT)%nat -> (slot (vimg s) (d_addrs din) k = 0 -> m_freeblock s < 1000) ->
  (forall n s' din', grew s din n s' din' -> n = (if slot (vimg s) (d_addrs din) k =? 0 then 1 else 0) ->
     (forall j, (j < NSLOT)%nat -> slot (vimg s') (d_addrs din') j <> 0 <-> slot (vimg s) (d_addrs din) j <> 0 \/ j = k) -> Q din' s') ->
  wp (new_addr din k) Q s.
Proof.
  intros Hs Hf Hk Hfree HQ. assert (slot (vimg s) (d_addrs din) k = nthZ (d_addrs din) k) as Es by (unfold slot; by rewrite decide_True).
  pose proof indirect_slot. pose proof (slot_word _ _ k Hf ltac:(lia)) as Hw. unfold new_addr. rewrite xint_small by (rewrite <- Es; lia). rewrite <- Es.
  destruct (Z.eqb_spec (slot (vimg s) (d_addrs din) k) 0) as [E|E].
  - apply wp_bind, wp_freeblock; [done|by apply Hfree|]. intros E1 Hs1 Ht. apply wp_ret. pose proof (mo_free _ Hs).
    rewrite xint_small by lia. pose proof (added_direct _ _ k _ _ Hf Hk E Ht) as Ha. eapply HQ; [split|done|].
    + done.
    + done.
    + exact E1.
    + done.
    + by eapply added_ok.
    + intros off. by eapply added_wrote.
    + intros j Hj. by eapply added_iff.
  - apply wp_ret. eapply HQ; [by apply grew_refl|done|]. intros j Hj. split; [by left|]. by intros [?| ->].
Qed.

Lemma pos_direct bn : (bn < NDIRECT)%nat -> pos bn = bn.
Proof. intros H. unfold pos. by rewrite decide_True. Qed.
Lemma pos_indirect bn : (NDIRECT <= bn)%nat -> pos bn = S bn.
Proof. intros H. unfold pos. by rewrite decide_False by lia. Qed.

Lemma exact_next v a v' a' B fbn : exact v a B -> (fbn <= B <= S fbn)%nat -> (fbn < Z.to_nat MAXFILE)%nat ->
  (forall j, (j < NSLOT)%nat -> slot v' a' j <> 0 <-> slot v a j <> 0 \/ j = pos fbn \/ j = NDIRECT /\ (NDIRECT <= fbn)%nat) ->
  exact v' a' (S fbn).
Proof.
  intros [E1 E2] HB Hf Hs. split.
  - intros bn Hbn. destruct (pos_lt bn Hbn) as [Hp Hp']. rewrite (Hs _ Hp), (E1 _ Hbn). split.
    + intros [?|[?%pos_inj|[? _]]]; [lia|lia|done].
    + intros Hlt. destruct (decide (bn = fbn)) as [->|]; [by right; left|left; lia].
  - rewrite (Hs _ indirect_slot), E2. destruct (pos_lt fbn Hf) as [_ Hp]. split.
    + intros [?|[?|[_ ?]]]; [lia|congruence|lia].
    + intros ?. right. right. split; [done|lia].
Qed.

Lemma exact_ext v a v' a' B : exact v a B -> (forall k, (k < NSLOT)%nat -> slot v' a' k = slot v a k) -> exact v' a' B.
Proof.
  intros [H1 H2] E. split; [intros bn Hbn; rewrite E by (by apply pos_lt); by apply H1|]. by rewrite (E _ indirect_slot).
Qed.

(** The entry of the indirect block, which the inode has. *)
Lemma wp_isect_indirect s din fbn (Q : dinode * Z -> mstate -> Prop) :
  mok s -> file_ok (vimg s) (d_addrs din) -> (NDIRECT <= fbn)%nat -> (fbn < Z.to_nat MAXFILE)%nat -> slot (vimg s) (d_addrs din) NDIRECT <> 0 ->
  (slot (vimg s) (d_addrs din) (pos fbn) = 0 -> m_freeblock s < 1000) ->
  (forall n s', grew s din n s' din -> n = (if slot (vimg s) (d_addrs din) (pos fbn) =? 0 then 1 else 0) ->
     (forall j, (j < NSLOT)%nat -> slot (vimg s') (d_addrs din) j <> 0 <-> slot (vimg s) (d_addrs din) j <> 0 \/ j = pos fbn) ->
     Q (din, slot (vimg s') (d_addrs din) (pos fbn)) s') ->
  wp (let k := Z.to_nat (4 * (Z.of_nat fbn - Z.of_nat NDIRECT)) in
    let* indirect := rsect (xint (nthZ (d_addrs din) NDIRECT)) in
    if get_u32 indirect k =? 0 then
      let* b := freeblock in
      let indirect := put_u32 indirect k (xint b) in
      wsect (xint (nthZ (d_addrs din) NDIRECT)) indirect ;;
      ret (din, xint (get_u32 indirect k))
    else ret (din, xint (get_u32 indirect k)))%kern Q s.
Proof.
  intros Hs Hf Hge Hlt Hi Hfree HQ. destruct (pos_lt fbn Hlt) as [Hp Hp']. rewrite slot_indirect in Hi. pose proof (indirect_ok _ _ Hf Hi) as [Hr Hu].
  change (sb_size isb) with 1000 in Hr. set (d := nthZ (d_addrs din) NDIRECT) in *. rewrite xint_small by lia.
  rewrite vimg_used in Hu by (done || lia). apply Z.ltb_lt in Hu. cbv zeta. set (k := Z.to_nat (4 * (Z.of_nat fbn - Z.of_nat NDIRECT))). assert (k = 4 * (pos fbn - S NDIRECT))%nat as Ek by (unfold k; rewrite pos_indirect by done; lia).
  assert (k + 4 <= 512)%nat as Hk by (unfold k; change (Z.to_nat MAXFILE) with 140%nat in Hlt; unfold NDIRECT; lia).
  assert (slot (vimg s) (d_addrs din) (pos fbn) = get_u32 (image (m_img s) d) k) as Es.
  { unfold slot. rewrite decide_False by (rewrite pos_indirect by done; lia). fold d. destruct (Z.eqb_spec d 0); [done|]. rewrite <- Ek.
    f_equal. unfold vimg. by rewrite decide_False by lia. }
  apply wp_bind, wp_rsect; [done|lia|]. rewrite <- Es. pose proof (slot_word _ _ _ Hf Hp) as Hw.
  destruct (Z.eqb_spec (slot (vimg s) (d_addrs din) (pos fbn)) 0) as [E|E].
  - apply wp_bind, wp_freeblock; [done|by apply Hfree|]. intros E1 Hs1 Ht. pose proof (mo_free _ Hs). rewrite xint_small by lia.
    apply wp_bind, wp_wsect; [done|lia|]. apply wp_ret. set (r := m_freeblock s) in *. set (s2 := put_sect d _ _).
    assert (length (image (m_img s) d) = 512%nat) as Hl by (by apply image_len).
    assert (added isb 59 (vimg s) (d_addrs din) (pos fbn) r (vimg s2) (d_addrs din)) as Ha.
    { eapply (added_indirect _ _ _ _ (vimg (bump s))); [done|rewrite pos_indirect in * by done; lia|done|done|done|by apply vimg_len|].
      intros n. unfold s2. rewrite vimg_put by (done || lia). fold d. case_decide as En; [|done]. rewrite En, <- Ek. f_equal.
      unfold vimg. by rewrite decide_False by lia. }
    replace (xint (get_u32 (put_u32 (image (m_img s) d) k r) k)) with (slot (vimg s2) (d_addrs din) (pos fbn)).
    2:{ rewrite (ad_slot _ _ _ _ _ _ Ha). rewrite get_put_u32 by lia. by rewrite u32_small, xint_small by lia. }
    eapply HQ; [split|done|].
    + apply mok_put; [done|lia|]. unfold put_u32. by rewrite length_splice, Hl.
    + done.
    + exact E1.
    + by destruct din.
    + by eapply added_ok.
    + intros off. by eapply added_wrote.
    + intros j Hj. by eapply added_iff.
  - rewrite xint_small by lia. apply wp_ret. eapply (HQ 0); [by apply grew_refl|done|]. intros j Hj. split; [by left|]. by intros [?| ->].
Qed.

Lemma cnt_S B : cnt (S B) = cnt B + 1 + (if (B =? NDIRECT)%nat then 1 else 0).
Proof. unfold cnt. destruct (Nat.ltb_spec NDIRECT (S B)), (Nat.ltb_spec NDIRECT B), (Nat.eqb_spec B NDIRECT); lia. Qed.

Lemma wp_isect s din fbn B (Q : dinode * Z -> mstate -> Prop) :
  mok s -> file_ok (vimg s) (d_addrs din) -> exact (vimg s) (d_addrs din) B -> (fbn < Z.to_nat MAXFILE)%nat -> (fbn <= B <= S fbn)%nat ->
  m_freeblock s + (cnt (S fbn) - cnt B) <= 1000 ->
  (forall s' din', grew s din (cnt (S fbn) - cnt B) s' din' -> exact (vimg s') (d_addrs din') (S fbn) ->
     Q (din', slot (vimg s') (d_addrs din') (pos fbn)) s') ->
  wp (isect din (Z.of_nat fbn)) Q s.
Proof.
  intros Hs Hf HB Hlt HfB Hroom HQ. pose proof HB as [HB1 HB2]. pose proof (HB1 fbn Hlt) as Hm. destruct (pos_lt fbn Hlt) as [Hp Hp'].
  unfold isect. destruct (Z.ltb_spec (Z.of_nat fbn) (Z.of_nat NDIRECT)) as [Hd|Hd].
  - rewrite Nat2Z.id. rewrite pos_direct in * by lia. pose proof (cnt_S B) as Hc.
    apply wp_bind, wp_new_addr; [done|done|lia| |].
    { intros E. assert (B = fbn) as -> by (destruct (decide (fbn < B)%nat) as [?%Hm|]; [done|lia]). rewrite Hc in Hroom. destruct (Nat.eqb_spec fbn NDIRECT); lia. }
    intros n s' din' G Hn Hsl. apply wp_ret. pose proof (slot_word _ _ fbn (ge_file _ _ _ _ _ G) ltac:(lia)) as Hw.
    assert (slot (vimg s') (d_addrs din') fbn = nthZ (d_addrs din') fbn) as Es by (unfold slot; by rewrite decide_True by lia).
    rewrite <- Es, xint_small by lia. apply HQ.
    + replace (cnt (S fbn) - cnt B) with n; [done|]. rewrite Hn. destruct (Z.eqb_spec (slot (vimg s) (d_addrs din) fbn) 0) as [E|E].
      * assert (B = fbn) as -> by (destruct (decide (fbn < B)%nat) as [?%Hm|]; [done|lia]). rewrite Hc. destruct (Nat.eqb_spec fbn NDIRECT); lia.
      * apply Hm in E. assert (B = S fbn) as -> by lia. lia.
    + eapply exact_next; [done|done|done|]. intros j Hj. rewrite Hsl by done. rewrite pos_direct by lia. split; [naive_solver|].
      intros [?|[?|[_ ?]]]; [by left|by right|lia].
  - assert (cnt (S fbn) - cnt B = (if slot (vimg s) (d_addrs din) NDIRECT =? 0 then 1 else 0) +
      (if slot (vimg s) (d_addrs din) (pos fbn) =? 0 then 1 else 0)) as Hc.
    { pose proof (cnt_S fbn) as Hc. destruct (Z.eqb_spec (slot (vimg s) (d_addrs din) (pos fbn)) 0) as [E|E].
      - assert (B = fbn) as -> by (destruct (decide (fbn < B)%nat) as [?%Hm|]; [done|lia]). rewrite Hc.
        destruct (Z.eqb_spec (slot (vimg s) (d_addrs din) NDIRECT) 0) as [E'|E']; [|apply HB2 in E']; destruct (Nat.eqb_spec fbn NDIRECT); try lia.
      - apply Hm in E. assert (B = S fbn) as -> by lia. destruct (Z.eqb_spec (slot (vimg s) (d_addrs din) NDIRECT) 0) as [E'|E']; [|lia].
        destruct (proj2 HB2); [lia|done]. }
    rewrite Hc in *. apply wp_bind, wp_new_addr; [done|done|lia| |].
    { intros E. rewrite E in Hroom. cbn [Z.eqb] in Hroom. destruct (slot (vimg s) (d_addrs din) (pos fbn) =? 0); lia. }
    intros n1 s1 din1 G1 Hn1 Hsl1. assert (slot (vimg s1) (d_addrs din1) (pos fbn) = 0 <-> slot (vimg s) (d_addrs din) (pos fbn) = 0) as Hpos.
    { specialize (Hsl1 _ Hp). destruct (Z.eq_dec (slot (vimg s1) (d_addrs din1) (pos fbn)) 0), (Z.eq_dec (slot (vimg s) (d_addrs din) (pos fbn)) 0); naive_solver. }
    apply wp_isect_indirect; [apply G1|apply G1|lia|done|apply Hsl1; [apply indirect_slot|by right]| |].
    { rewrite Hpos. intros E. rewrite E in Hroom. pose proof (ge_free _ _ _ _ _ G1). cbn [Z.eqb] in Hroom. lia. }
    intros n2 s2 G2 Hn2 Hsl2. apply HQ.
    + replace (_ + _) with (n1 + n2); [by eapply grew_trans|]. rewrite Hn1, Hn2. f_equal. 
      destruct (Z.eqb_spec (slot (vimg s1) (d_addrs din1) (pos fbn)) 0), (Z.eqb_spec (slot (vimg s) (d_addrs din) (pos fbn)) 0); naive_solver.
    + eapply exact_next; [done|done|done|]. intros j Hj. rewrite Hsl2, Hsl1 by done. split.
      * intros [[?|?]| ?]; [by left|right; right; split; [done|lia]|by right; left].
      * naive_solver.
Qed.

(** ** Appending to a file *)

Definition nblk (n : nat) : nat := ((n + 511) / 512)%nat.

Lemma nblk_bounds off : (off / 512 <= nblk off <= S (off / 512))%nat.
Proof.
  unfold nblk. split; [apply Nat.Div0.div_le_mono; lia|]. replace (S (off / 512)) with ((off + 1 * 512) / 512)%nat by (rewrite Nat.div_add; lia).
  apply Nat.Div0.div_le_mono. lia.
Qed.
Lemma nblk_chunk off m : (0 < m)%nat -> (off mod 512 + m <= 512)%nat -> nblk (off + m) = S (off / 512).
Proof. intros Hm Hc. unfold nblk. pose proof (Nat.div_mod_eq off 512). symmetry. apply (Nat.div_unique _ _ _ (off mod 512 + m - 1)); lia. Qed.
Lemma cnt_le B B' : (B <= B')%nat -> cnt B <= cnt B'.
Proof. intros H. unfold cnt. destruct (Nat.ltb_spec NDIRECT B), (Nat.ltb_spec NDIRECT B'); lia. Qed.
Lemma nblk_le n m : (n <= m)%nat -> (nblk n <= nblk m)%nat.
Proof. intros H. apply Nat.Div0.div_le_mono. lia. Qed.

Record appended (s : mstate) (din : dinode) (off : nat) (p : list Z) (s' : mstate) (din' : dinode) : Prop := {
  ap_ok : mok s';
  ap_inodes : m_freeinode s' = m_freeinode s;
  ap_free : m_freeblock s' = m_freeblock s + (cnt (nblk (off + length p)) - cnt (nblk off));
  ap_din : din' = set_addrs din (d_addrs din');
  ap_file : file_ok (vimg s') (d_addrs din');
  ap_exact : exact (vimg s') (d_addrs din') (nblk (off + length p));
  ap_wrote : wrote (vimg s) (d_addrs din) (vimg s') (d_addrs din') off p
}.

Lemma appended_trans s din off p s1 din1 p2 s2 din2 : Z.of_nat (off + length p + length p2) <= 71680 ->
  appended s din off p s1 din1 -> appended s1 din1 (off + length p) p2 s2 din2 -> appended s din off (p ++ p2) s2 din2.
Proof.
  intros Hmax [A1 A2 A3 A4 A5 A6 A7] [B1 B2 B3 B4 B5 B6 B7]. split; rewrite ?length_app, ?Nat.add_assoc; try done.
  - congruence.
  - lia.
  - rewrite B4, A4. by destruct din.
  - eapply wrote_trans; [|exact B5|done|done]. intros x Hx. change (Z.to_nat MAXFILE) with 140%nat. apply Nat.Div0.div_lt_upper_bound. lia.
Qed.

Lemma wp_append_loop rounds : forall s din off p (Q : dinode * Z -> mstate -> Prop),
  mok s -> file_ok (vimg s) (d_addrs din) -> exact (vimg s) (d_addrs din) (nblk off) -> (length p <= rounds)%nat ->
  Z.of_nat (off + length p) <= 71680 -> m_freeblock s + (cnt (nblk (off + length p)) - cnt (nblk off)) <= 1000 ->
  (forall s' din', appended s din off p s' din' -> Q (din', Z.of_nat (off + length p)) s') ->
  wp (iappend_loop rounds din (Z.of_nat off) p) Q s.
Proof.
  induction rounds as [|rounds IH]; intros s din off p Q Hs Hf HB Hr Hmax Hroom HQ; cbn [iappend_loop];
    (destruct (Z.ltb_spec 0 (Z.of_nat (length p))) as [Hlt|Hge]; cbn [negb]; [try lia|]);
    try (destruct p; simpl in Hge; [|lia]; rewrite Nat.add_0_r in HQ; apply wp_ret, HQ; split; rewrite ?Nat.add_0_r; try done; [simpl; lia|by destruct din|by apply wrote_refl]).
  destruct (chunk_pos off (length p)) as (Hc1 & Hc2 & Hc3). specialize (Hc1 ltac:(lia)). rewrite off_div.
  assert (off / 512 < Z.to_nat MAXFILE)%nat as Hm. { change (Z.to_nat MAXFILE) with 140%nat. apply Nat.Div0.div_lt_upper_bound. lia. }
  apply wp_bind. unfold assert. destruct (Z.ltb_spec (Z.of_nat (off / 512)) MAXFILE); [apply wp_ret|lia].
  pose proof (nblk_bounds off) as Hnb. set (m := chunk off (length p)) in *. pose proof (nblk_chunk off m Hc1 Hc3) as Hnm.
  pose proof (cnt_le _ _ (nblk_le (off + m) (off + length p) ltac:(lia))) as Hcl. rewrite Hnm in Hcl.
  apply wp_bind. eapply wp_isect; [done|done|done|done|done|lia|]. intros s1 din1 [G1 G2 G3 G4 G5 G6] HB1.
  assert (slot (vimg s1) (d_addrs din1) (pos (off / 512)) <> 0) as Hx by (apply HB1; [done|lia]).
  destruct (pos_lt _ Hm) as [Hp _]. destruct (fo_slot _ _ G5 _ Hp Hx) as [Hxr Hxu]. change (sb_size isb) with 1000 in Hxr.
  rewrite vimg_used in Hxu by (done || lia). apply Z.ltb_lt in Hxu. set (x := slot (vimg s1) (d_addrs din1) (pos (off / 512))) in *.
  pose proof (Nat.div_mod_eq off 512) as Edm.
  assert (Z.min (Z.of_nat (length p)) ((Z.of_nat (off / 512) + 1) * BSIZE - Z.of_nat off) = Z.of_nat m) as Em.
  { unfold m, chunk. change BSIZE with 512. lia. }
  rewrite Em, Nat2Z.id. replace (Z.to_nat (Z.of_nat off - Z.of_nat (off / 512) * BSIZE)) with (off mod 512)%nat by (change BSIZE with 512; lia).
  apply wp_bind, wp_rsect; [done|lia|]. apply wp_bind, wp_wsect; [done|lia|].
  assert (length (take m p) = m) as Htk by (rewrite length_take; lia). set (s2 := put_sect x _ s1).
  assert (forall n, vimg s2 n = if decide (n = x) then splice (vimg s1 n) (off mod 512) (take m p) else vimg s1 n) as V2.
  { intros n. unfold s2. rewrite vimg_put by (done || lia). case_decide as E; [|done]. rewrite E. f_equal. unfold vimg. by rewrite decide_False by lia. }
  assert (appended s din off (take m p) s2 din1) as A.
  { assert (length (vimg s1 x) = Z.to_nat BSIZE) as Hlx by (by apply vimg_len).
    assert (file_ok (vimg s2) (d_addrs din1)) as Hok2 by (eapply block_ok; [exact G5|done|done|rewrite Htk; lia|done|done]).
    split; rewrite ?Htk, ?Hnm; [|done|exact G3|done|done| |].
    - apply mok_put; [done|lia|]. rewrite length_splice. by apply image_len.
    - eapply exact_ext; [exact HB1|]. intros k Hk. by apply (block_slots (sb := isb) (ds := 59) (vimg s1) (d_addrs din1) (vimg s2) off (take m p)).
    - apply (wrote_trans (vimg s) (d_addrs din) (vimg s1) (d_addrs din1) (vimg s2) (d_addrs din1) off [] (take m p)); [|done|done|].
      + intros y Hy. simpl in Hy. rewrite Htk in Hy. destruct (in_block off (y - off)) as [Hd _]; [lia|]. replace (off + (y - off))%nat with y in Hd by lia. by rewrite Hd.
      + simpl. rewrite Nat.add_0_r. apply block_wrote; [done|done|done|rewrite Htk; lia|done|done]. }
  replace (Z.of_nat off + Z.of_nat m) with (Z.of_nat (off + m)) by lia. pose proof A as [A1 A2 A3 A4 A5 A6 A7]. rewrite Htk in A3, A6.
  assert (length (drop m p) = length p - m)%nat as Hdr by (by rewrite length_drop).
  assert (off + m + (length p - m) = off + length p)%nat as Eo by lia.
  apply IH; rewrite ?Hdr, ?Eo; [done|done|done|lia|lia|lia|]. intros s3 din3 B. apply HQ. rewrite <- (take_drop m p).
  apply (appended_trans _ _ _ _ s2 din1); [rewrite Htk, Hdr; lia|done|by rewrite Htk].
Qed.

(** ** The files of an image *)

(** Inode [j] is a file with type and content [e], and zeros up to the end of
    its last block. *)
Record file_rep (v : Z -> list Z) (j : Z) (e : Z * list Z) : Prop := {
  fr_inode : inode_of isb v j = MkDinode e.1 0 0 1 (Z.of_nat (length e.2)) (d_addrs (inode_of isb v j));
  fr_type : - 2 ^ 15 <= e.1 < 2 ^ 15;
  fr_ok : file_ok v (d_addrs (inode_of isb v j));
  fr_exact : exact v (d_addrs (inode_of isb v j)) (nblk (length e.2));
  fr_byte o : (o < nblk (length e.2) * 512)%nat -> byte_at v (d_addrs (inode_of isb v j)) o = nthZ e.2 o;
  fr_max : Z.of_nat (length e.2) <= 71680
}.

Fixpoint total (fs : list (Z * list Z)) : Z :=
  match fs with [] => 0 | e :: fs => cnt (nblk (length e.2)) + total fs end.

Abbreviation addrs v j := (d_addrs (inode_of isb v j)).

(** The state has the files [fs], with inode numbers from 1 on. *)
Record files_at (s : mstate) (fs : list (Z * list Z)) : Prop := {
  fl_ok : mok s;
  fl_next : m_freeinode s = 1 + Z.of_nat (length fs);
  fl_max : Z.of_nat (length fs) < 200;
  fl_free : m_freeblock s = 59 + total fs;
  fl_file j e : fs !! j = Some e -> file_rep (vimg s) (1 + Z.of_nat j) e;
  fl_apart i j : (i < length fs)%nat -> (j < length fs)%nat -> i <> j ->
    apart (vimg s) (addrs (vimg s) (1 + Z.of_nat i)) (addrs (vimg s) (1 + Z.of_nat j))
}.

Lemma mapped_byte o n : (o < n)%nat -> Z.of_nat n <= 71680 -> (o / 512 < nblk n)%nat /\ (o / 512 < Z.to_nat MAXFILE)%nat.
Proof.
  intros Ho Hn. split; [|change (Z.to_nat MAXFILE) with 140%nat; apply Nat.Div0.div_lt_upper_bound; lia].
  unfold nblk. pose proof (Nat.Div0.div_le_mono (o + 512) (n + 511) 512 ltac:(lia)) as H. replace (o + 512)%nat with (o + 1 * 512)%nat in H by lia.
  rewrite Nat.div_add in H by lia. lia.
Qed.

Lemma mapped_block o n : (o < nblk n * 512)%nat -> Z.of_nat n <= 71680 -> (o / 512 < nblk n)%nat /\ (o / 512 < Z.to_nat MAXFILE)%nat.
Proof.
  intros Ho Hn. assert (o / 512 < nblk n)%nat as H by (apply Nat.Div0.div_lt_upper_bound; lia). split; [done|].
  assert (nblk n < 141)%nat by (apply Nat.Div0.div_lt_upper_bound; lia). change (Z.to_nat MAXFILE) with 140%nat. lia.
Qed.
Lemma nblk_covers n : (n <= nblk n * 512 < n + 512)%nat.
Proof. unfold nblk. pose proof (Nat.div_mod_eq (n + 511) 512). pose proof (Nat.mod_upper_bound (n + 511) 512 ltac:(lia)). lia. Qed.

Lemma total_insert fs j t c c' : fs !! j = Some (t, c) -> total (<[j := (t, c')]> fs) = total fs + (cnt (nblk (length c')) - cnt (nblk (length c))).
Proof.
  revert j. induction fs as [|e fs IH]; intros [|j]; simpl; [done|done| |].
  - intros [= ->]. simpl. lia.
  - intros H. rewrite IH by done. lia.
Qed.
Lemma total_app fs gs : total (fs ++ gs) = total fs + total gs.
Proof. induction fs as [|e fs IH]; simpl; [done|]. rewrite IH. lia. Qed.

(** A file whose inode and blocks are kept. *)
Lemma rep_kept v v' j e : file_rep v j e -> inode_of isb v' j = inode_of isb v j ->
  (forall k, (k < NSLOT)%nat -> slot v (addrs v j) k <> 0 -> v' (slot v (addrs v j) k) = v (slot v (addrs v j) k)) ->
  (forall b, 0 <= b < 1000 -> used v b = true -> used v' b = true) ->
  file_rep v' j e /\ forall k, slot v' (addrs v' j) k = slot v (addrs v j) k.
Proof.
  intros [R1 R2 R3 R4 R5 R6] Ei Hv Hu. assert (forall k, slot v' (addrs v' j) k = slot v (addrs v j) k) as Es.
  { intros k. rewrite Ei. by apply (slot_agree isb 59). }
  split; [|done]. rewrite <- Ei in *. split; try done.
  - split; [apply R3|..].
    + intros k Hk. rewrite Es. intros Hs. destruct (fo_slot _ _ R3 k Hk Hs) as [Hr Hus]. split; [done|]. apply Hu; [|done].
      change (sb_size isb) with 1000 in Hr. lia.
    + intros k i Hk Hi. rewrite !Es. by apply R3.
  - by eapply exact_ext.
  - intros o Ho. destruct (mapped_block o _ Ho R6) as [Hb Hm]. rewrite <- R5 by done. unfold byte_at. rewrite Es, Hv; [done|by apply pos_lt|].
    by apply R4.
Qed.

Lemma wp_rinode s j (Q : dinode -> mstate -> Prop) : mok s -> inum_ok isb j -> Q (inode_of isb (vimg s) j) s -> wp (rinode j) Q s.
Proof.
  intros Hs Hj HQ. destruct (IBLOCK_at j Hj) as (_ & Hr & [Hb _] & _). change (sb_bmapstart isb) with 58 in Hr. unfold rinode. apply wp_bind, wp_gets. rewrite (mo_sb _ Hs).
  apply wp_bind, wp_rsect; [done|lia|]. apply wp_ret. unfold inode_of, vimg in HQ. by rewrite decide_False in HQ by lia.
Qed.

Lemma wp_winode s j d (Q : unit -> mstate -> Prop) : mok s -> inum_ok isb j -> dinode_ok d ->
  (forall s', mok s' -> m_freeinode s' = m_freeinode s -> m_freeblock s' = m_freeblock s -> inode_of isb (vimg s') j = d ->
     (forall i, inum_ok isb i -> i <> j -> inode_of isb (vimg s') i = inode_of isb (vimg s) i) ->
     (forall n, 58 <= n -> vimg s' n = vimg s n) -> Q tt s') -> wp (winode j d) Q s.
Proof.
  intros Hs Hj Hd HQ. destruct (IBLOCK_at j Hj) as (_ & Hr & [Hb _] & _). change (sb_bmapstart isb) with 58 in Hr. change (sb_inodestart isb) with 32 in Hr. pose proof (mo_free _ Hs).
  unfold winode. apply wp_bind, wp_gets. rewrite (mo_sb _ Hs). set (b := IBLOCK j isb) in *.
  apply wp_bind, wp_rsect; [done|lia|]. apply wp_wsect; [done|lia|]. set (s' := put_sect b _ s).
  assert (forall n, vimg s' n = if decide (n = b) then splice (vimg s n) (IOFF j) (dinode_bytes d) else vimg s n) as V.
  { intros n. unfold s'. rewrite vimg_put by (done || lia). case_decide as E; [|done]. rewrite E. f_equal. unfold vimg. by rewrite decide_False by lia. }
  destruct (inode_replaced (vimg s) (vimg s') j d Hj Hd (vimg_len _ _ Hs) V) as [I1 I2]. apply HQ; [|done|done|done|done|].
  - apply mok_put; [done|lia|]. rewrite length_splice. by apply image_len.
  - intros n Hn. rewrite V, decide_False; [done|lia].
Qed.

Lemma used_kept v v' : (forall n, 58 <= n -> v' n = v n) -> forall b, 0 <= b < 1000 -> used v' b = used v b.
Proof. intros E b Hb. apply used_ext, E. by rewrite BBLOCK_58. Qed.

(** Writing the inode of [j] keeps the blocks of the files. *)
Lemma rep_low v v' j e : file_rep v j e -> inode_of isb v' j = inode_of isb v j -> (forall n, 58 <= n -> v' n = v n) ->
  file_rep v' j e /\ forall k, slot v' (addrs v' j) k = slot v (addrs v j) k.
Proof.
  intros R Ei Hv. apply rep_kept; [done|done| |].
  - intros k Hk Hs. apply Hv. destruct (fo_slot _ _ (fr_ok _ _ _ R) k Hk Hs) as [Hr _]. lia.
  - intros b Hb. by rewrite (used_kept v v').
Qed.

(** The file that was appended to. *)
Lemma rep_appended s din s1 din1 s2 j t c p :
  appended s din (length c) p s1 din1 -> file_rep (vimg s) j (t, c) -> din = inode_of isb (vimg s) j -> Z.of_nat (length (c ++ p)) <= 71680 ->
  inode_of isb (vimg s2) j = MkDinode t 0 0 1 (Z.of_nat (length (c ++ p))) (d_addrs din1) -> (forall n, 58 <= n -> vimg s2 n = vimg s1 n) ->
  file_rep (vimg s2) j (t, c ++ p).
Proof.
  intros [A1 A2 A3 A4 A5 A6 A7] [R1 R2 R3 R4 R5 R6] -> Hmax Ei V. cbn [fst snd] in *.
  assert (forall k, slot (vimg s2) (d_addrs din1) k = slot (vimg s1) (d_addrs din1) k) as Es by (intros k; by apply slot_low).
  split; rewrite ?Ei; cbn [fst snd d_addrs]; [done|done|by eapply file_ok_low|rewrite length_app; by eapply exact_ext| |done].
  intros o Ho. destruct (mapped_block o _ Ho Hmax) as [Hb Hm]. rewrite length_app in Ho, Hb.
  assert (byte_at (vimg s2) (d_addrs din1) o = byte_at (vimg s1) (d_addrs din1) o) as ->.
  { eapply byte_low; [exact A5|exact V|done|]. by apply A6. }
  destruct (decide (length c <= o < length c + length p)%nat) as [Hc|Hc].
  - rewrite (wr_in _ _ _ _ _ _ A7) by lia. unfold nthZ. by rewrite lookup_app_r by lia.
  - pose proof (nblk_covers (length c)). destruct (decide (o < nblk (length c) * 512)%nat) as [Hk|Hk].
    + rewrite (wr_out _ _ _ _ _ _ A7); [|done|lia|by apply R4; [|apply (mapped_block o _ Hk R6)]]. rewrite R5 by done.
      unfold nthZ. destruct (decide (o < length c)%nat); [by rewrite lookup_app_l|].
      by rewrite !lookup_ge_None_2 by (rewrite ?length_app; lia).
    + unfold nthZ. rewrite lookup_ge_None_2 by (rewrite length_app; lia).
      apply (wr_zero _ _ _ _ _ _ A7); [done|lia| |by apply A6].
      destruct (Z.eq_dec (slot (vimg s) (addrs (vimg s) j) (pos (o / 512))) 0) as [|Hs]; [done|]. apply R4 in Hs; [|done].
      pose proof (Nat.div_mod_eq o 512). pose proof (Nat.mod_upper_bound o 512 ltac:(lia)). lia.
Qed.

Lemma rep_dinode v t n d : - 2 ^ 15 <= t < 2 ^ 15 -> file_ok v (d_addrs d) -> 0 <= n < 2 ^ 32 ->
  d = MkDinode t 0 0 1 n (d_addrs d) -> dinode_ok d.
Proof.
  intros Ht Hok Hl ->.
  apply (file_dinode v (MkInode 0 0 0 sleeplock0 0 t 0 0 1 n (d_addrs d))); simpl; [done| |lia].
  repeat constructor; simpl; lia.
Qed.

Lemma inum_file (fs : list (Z * list Z)) j : Z.of_nat (length fs) < 200 -> (j < length fs)%nat -> inum_ok isb (1 + Z.of_nat j).
Proof. intros H Hj. unfold inum_ok. change (sb_ninodes isb) with 200. lia. Qed.

(** A file that another file's growth keeps. *)
Lemma rep_other s din s1 din1 s2 off p j e :
  appended s din off p s1 din1 -> file_rep (vimg s) j e -> inum_ok isb j -> apart (vimg s) (addrs (vimg s) j) (d_addrs din) ->
  inode_of isb (vimg s2) j = inode_of isb (vimg s1) j -> (forall n, 58 <= n -> vimg s2 n = vimg s1 n) ->
  file_rep (vimg s2) j e /\ forall k, slot (vimg s2) (addrs (vimg s2) j) k = slot (vimg s) (addrs (vimg s) j) k.
Proof.
  intros A R Hj Ha Ei V. pose proof (ap_wrote _ _ _ _ _ _ A) as W. apply rep_kept; [done|..].
  - rewrite Ei. apply inode_of_low; [done|apply W].
  - intros k Hk Hs. destruct (fo_slot _ _ (fr_ok _ _ _ R) k Hk Hs) as [Hr Hu]. rewrite V by lia.
    apply (wr_other _ _ _ _ _ _ W); [done|done|]. intros k' Hk'. by apply Ha.
  - intros b Hb Hu. rewrite (used_kept (vimg s1) (vimg s2)) by done. by apply (wr_used _ _ _ _ _ _ W).
Qed.

Lemma apart_appended s din s1 din1 s2 off p j e :
  appended s din off p s1 din1 -> file_rep (vimg s) j e -> apart (vimg s) (addrs (vimg s) j) (d_addrs din) ->
  (forall n, 58 <= n -> vimg s2 n = vimg s1 n) -> (forall k, slot (vimg s2) (addrs (vimg s2) j) k = slot (vimg s) (addrs (vimg s) j) k) ->
  apart (vimg s2) (addrs (vimg s2) j) (d_addrs din1) /\ apart (vimg s2) (d_addrs din1) (addrs (vimg s2) j).
Proof.
  intros A R Ha V Es. pose proof (ap_wrote _ _ _ _ _ _ A) as W.
  assert (forall k k', (k < NSLOT)%nat -> (k' < NSLOT)%nat -> slot (vimg s) (addrs (vimg s) j) k <> 0 ->
    slot (vimg s2) (d_addrs din1) k' <> slot (vimg s) (addrs (vimg s) j) k) as Hne.
  { intros k k' Hk Hk' Hs E. rewrite (slot_low (vimg s1) (vimg s2)) in E by (done || apply A).
    destruct (Z.eq_dec (slot (vimg s) (d_addrs din) k') 0) as [E0|E0].
    - pose proof (wr_fresh _ _ _ _ _ _ W k' Hk' E0 ltac:(congruence)) as Hf. rewrite E in Hf. destruct (fo_slot _ _ (fr_ok _ _ _ R) k Hk Hs). congruence.
    - rewrite (wr_slot _ _ _ _ _ _ W) in E by done. by apply (Ha k k'). }
  split; intros k k' Hk Hk' Hs; rewrite ?Es in *; [by apply Hne|]. intros E. apply (Hne k' k); [done|done| |by symmetry]. congruence.
Qed.

Lemma wp_iappend s fs j t c p (Q : unit -> mstate -> Prop) :
  files_at s fs -> fs !! j = Some (t, c) -> Z.of_nat (length (c ++ p)) <= 71680 -> 59 + total (<[j := (t, c ++ p)]> fs) <= 1000 ->
  (forall s', files_at s' (<[j := (t, c ++ p)]> fs) -> Q tt s') -> wp (iappend (1 + Z.of_nat j) p) Q s.
Proof.
  intros [Hs Hn Hmax Hfr Hfile Hap] Hj Hlen Hroom HQ. pose proof (lookup_lt_Some _ _ _ Hj) as Hjl. pose proof (inum_file fs j Hmax Hjl) as Hji.
  pose proof (Hfile j _ Hj) as R. set (jj := 1 + Z.of_nat j) in *. unfold iappend. apply wp_bind, wp_rinode; [done|done|].
  set (din := inode_of isb (vimg s) jj). assert (d_size din = Z.of_nat (length c)) as Esz by (unfold din; by rewrite (fr_inode _ _ _ R)).
  rewrite Esz. pose proof (fr_max _ _ _ R) as Hc. cbn [fst snd] in Hc. rewrite xint_small by lia. rewrite (total_insert fs j t c (c ++ p) Hj) in Hroom.
  rewrite length_app in Hlen, Hroom. apply wp_bind. apply wp_append_loop; [done|apply R|apply R|done|lia|lia|].
  intros s1 din1 A. pose proof A as [A1 A2 A3 A4 A5 A6 A7]. rewrite xint_small by lia.
  set (d2 := MkDinode _ _ _ _ _ _). assert (d2 = MkDinode t 0 0 1 (Z.of_nat (length (c ++ p))) (d_addrs din1)) as Ed.
  { unfold d2. rewrite A4, length_app. unfold din. rewrite (fr_inode _ _ _ R). done. }
  apply wp_winode; [done|done| |].
  { eapply (rep_dinode (vimg s1) t); [apply (fr_type _ _ _ R)|by rewrite Ed| |by rewrite Ed]. rewrite length_app. lia. }
  intros s2 B1 B2 B3 B4 B5 B6. rewrite Ed in B4.
  assert (forall i e, fs !! i = Some e -> i <> j -> inum_ok isb (1 + Z.of_nat i) /\ 1 + Z.of_nat i <> jj /\ apart (vimg s) (addrs (vimg s) (1 + Z.of_nat i)) (d_addrs din) /\
    file_rep (vimg s2) (1 + Z.of_nat i) e /\ forall k, slot (vimg s2) (addrs (vimg s2) (1 + Z.of_nat i)) k = slot (vimg s) (addrs (vimg s) (1 + Z.of_nat i)) k) as Hoth.
  { intros i e Hi Hne. pose proof (lookup_lt_Some _ _ _ Hi) as Hil. pose proof (inum_file fs i Hmax Hil) as Hii.
    assert (1 + Z.of_nat i <> jj) as Hij by (unfold jj; lia). pose proof (Hap i j Hil Hjl Hne) as Ha. split; [done|]. split; [done|]. split; [done|].
    eapply rep_other; [exact A|by apply Hfile|done|done|by apply B5|done]. }
  assert (addrs (vimg s2) jj = d_addrs din1) as Ea by (by rewrite B4).
  apply HQ. split; [done|rewrite B2, A2, Hn; by rewrite length_insert|by rewrite length_insert| | |].
  - rewrite B3, A3, Hfr, (total_insert fs j t c (c ++ p) Hj), length_app. lia.
  - intros i e Hi. destruct (decide (i = j)) as [->|Hne].
    + rewrite list_lookup_insert_eq in Hi by done. injection Hi as <-. eapply rep_appended; [exact A|exact R|done|rewrite length_app; lia|done|done].
    + rewrite list_lookup_insert_ne in Hi by done. by apply (Hoth i e).
  - rewrite length_insert. intros i k Hi Hk Hne. destruct (lookup_lt_is_Some_2 fs i Hi) as [ei Hei]. destruct (lookup_lt_is_Some_2 fs k Hk) as [ek Hek].
    destruct (decide (i = j)) as [->|Hij]; [|destruct (decide (k = j)) as [->|Hkj]].
    + destruct (Hoth k ek Hek ltac:(done)) as (_ & _ & Ha & _ & Es). fold jj. rewrite Ea. by eapply apart_appended; [exact A|by apply Hfile|..].
    + destruct (Hoth i ei Hei Hij) as (_ & _ & Ha & _ & Es). fold jj. rewrite Ea. by eapply apart_appended; [exact A|by apply Hfile|..].
    + destruct (Hoth i ei Hei Hij) as (_ & _ & _ & _ & Ei). destruct (Hoth k ek Hek Hkj) as (_ & _ & _ & _ & Ek).
      intros x y Hx Hy. rewrite Ei, Ek. by apply (Hap i k).
Qed.

Lemma slot_empty v k : slot v (replicate (S NDIRECT) 0) k = 0.
Proof.
  unfold slot. assert (forall k, nthZ (replicate (S NDIRECT) 0) k = 0) as E.
  { intros i. unfold nthZ. destruct (decide (i < S NDIRECT)%nat); [by rewrite lookup_replicate_2|].
    by rewrite lookup_ge_None_2 by (rewrite length_replicate; lia). }
  rewrite !E. by case_decide.
Qed.

Lemma rep_empty v j t : - 2 ^ 15 <= t < 2 ^ 15 -> inode_of isb v j = MkDinode t 0 0 1 0 (replicate (S NDIRECT) 0) -> file_rep v j (t, []).
Proof.
  intros Ht Ei. split; rewrite ?Ei; cbn [fst snd d_addrs length]; [done|done|split; [done|..]|split|intros o; change (nblk 0) with 0%nat; lia|lia].
  - intros k _. by rewrite slot_empty.
  - intros k i _ _. by rewrite slot_empty.
  - intros bn _. rewrite slot_empty. change (nblk 0) with 0%nat. split; [done|lia].
  - rewrite slot_empty. change (nblk 0) with 0%nat. split; [done|lia].
Qed.

Lemma wp_ialloc s fs t (Q : Z -> mstate -> Prop) : files_at s fs -> Z.of_nat (length fs) < 199 -> 0 <= t < 2 ^ 15 ->
  (forall s', files_at s' (fs ++ [(t, [])]) -> Q (1 + Z.of_nat (length fs)) s') -> wp (ialloc t) Q s.
Proof.
  intros [Hs Hn Hmax Hfr Hfile Hap] Hlen Ht HQ. unfold ialloc. apply wp_bind, wp_gets, wp_bind, wp_modify. set (s0 := set m_freeinode _ s).
  assert (mok s0) as Hs0 by (by destruct Hs; split). assert (m_freeinode s0 = 2 + Z.of_nat (length fs)) as Hn0.
  { unfold s0. simpl. rewrite Hn, u32_small by lia. lia. }
  rewrite Hn. set (jj := 1 + Z.of_nat (length fs)). assert (inum_ok isb jj) as Hj by (unfold inum_ok, jj; change (sb_ninodes isb) with 200; lia).
  set (d := MkDinode _ _ _ _ _ _). assert (d = MkDinode t 0 0 1 0 (replicate (S NDIRECT) 0)) as Ed.
  { unfold d. rewrite !xshort_small, xint_small by lia. f_equal; unfold i16; rewrite Z.mod_small by lia; lia. }
  apply wp_bind, wp_winode; [done|done| |].
  { eapply (rep_dinode (vimg s0) t); [lia| |..|by rewrite Ed]; [|lia]. rewrite Ed. cbn [d_addrs]. split; [done|..].
    - intros k _. by rewrite slot_empty.
    - intros k i _ _. by rewrite slot_empty. }
  intros s1 B1 B2 B3 B4 B5 B6. rewrite Ed in B4. apply wp_ret, HQ.
  assert (forall i e, fs !! i = Some e -> file_rep (vimg s1) (1 + Z.of_nat i) e /\
    forall k, slot (vimg s1) (addrs (vimg s1) (1 + Z.of_nat i)) k = slot (vimg s) (addrs (vimg s) (1 + Z.of_nat i)) k) as Hoth.
  { intros i e Hi. pose proof (lookup_lt_Some _ _ _ Hi) as Hil. apply (rep_low (vimg s)); [by apply Hfile| |done].
    apply B5; [by apply (inum_file fs)|unfold jj; lia]. }
  split; [done|rewrite B2, Hn0, length_app; simpl; lia|rewrite length_app; simpl; lia| | |].
  - rewrite B3, total_app. change (m_freeblock s0) with (m_freeblock s). rewrite Hfr. simpl. change (cnt (nblk 0)) with 0. lia.
  - intros i e [Hi|[Hge Hi]]%lookup_app_Some; [by apply Hoth|]. apply list_lookup_singleton_Some in Hi as [Hi <-].
    replace (1 + Z.of_nat i) with jj by (unfold jj; lia). apply rep_empty; [lia|done].
  - assert (addrs (vimg s1) jj = replicate (S NDIRECT) 0) as Ea by (by rewrite B4).
    intros i k Hi Hk Hne. rewrite length_app in Hi, Hk. simpl in Hi, Hk.
    destruct (decide (i = length fs)) as [->|Hi']; [|destruct (decide (k = length fs)) as [->|Hk']].
    + fold jj. rewrite Ea. intros x y _ _. by rewrite slot_empty.
    + fold jj. rewrite Ea. intros x y _ _ Hx. rewrite slot_empty. congruence.
    + destruct (lookup_lt_is_Some_2 fs i ltac:(lia)) as [ei Hei]. destruct (lookup_lt_is_Some_2 fs k ltac:(lia)) as [ek Hek].
      intros x y Hx Hy. rewrite (proj2 (Hoth i ei Hei)), (proj2 (Hoth k ek Hek)). apply (Hap i k); [lia|lia|done|done|done].
Qed.

(** ** The files of the command line *)

(** The bytes that the reads give, up to the first that gives none. *)
Fixpoint contents (reads : list (list Z)) : list Z :=
  match reads with
  | [] | [] :: _ => []
  | buf :: reads => buf ++ contents reads
  end.

Lemma cnt_nonneg B : 0 <= cnt B.
Proof. unfold cnt. destruct (_ <? _)%nat; lia. Qed.
Lemma total_nonneg fs : 0 <= total fs.
Proof. induction fs as [|e fs IH]; simpl; [lia|]. pose proof (cnt_nonneg (nblk (length e.2))). lia. Qed.
Lemma cnt_app (c p : list Z) : cnt (nblk (length c)) <= cnt (nblk (length (c ++ p))).
Proof. apply cnt_le, nblk_le. rewrite length_app. lia. Qed.

Lemma wp_copy_in reads : forall s fs j t c (Q : unit -> mstate -> Prop),
  files_at s fs -> fs !! j = Some (t, c) -> Z.of_nat (length (c ++ contents reads)) <= 71680 ->
  59 + total (<[j := (t, c ++ contents reads)]> fs) <= 1000 ->
  (forall s', files_at s' (<[j := (t, c ++ contents reads)]> fs) -> Q tt s') -> wp (copy_in (1 + Z.of_nat j) reads) Q s.
Proof.
  induction reads as [|[|b buf] reads IH]; intros s fs j t c Q Hf Hj Hlen Hroom HQ; cbn [copy_in contents] in *;
    try (rewrite app_nil_r, list_insert_id in HQ by done; by apply wp_ret, HQ).
  change (b :: (buf ++ contents reads)) with ((b :: buf) ++ contents reads) in *. set (p := b :: buf) in *. rewrite app_assoc in *.
  pose proof (lookup_lt_Some _ _ _ Hj) as Hjl. pose proof (cnt_app (c ++ p) (contents reads)) as Hc. rewrite (total_insert _ _ _ _ _ Hj) in Hroom.
  apply wp_bind. eapply wp_iappend; [done|done|rewrite length_app in Hlen; lia|rewrite (total_insert _ _ _ _ _ Hj); lia|]. intros s1 Hf1.
  eapply IH; [done|by apply list_lookup_insert_eq|done| |].
  - rewrite list_insert_insert_eq, (total_insert _ _ _ _ _ Hj). done.
  - by rewrite list_insert_insert_eq.
Qed.

Abbreviation arg := (list Z * option (list (list Z)))%type.

(** The directory entries of the files, which get the inodes from [n] on. *)
Fixpoint entries (n : nat) (files : list arg) : list Z :=
  match files with
  | [] => []
  | f :: files => dirent (Z.of_nat n) (strncpy (if chr f.1 =? 95 then adv f.1 else f.1) DIRSIZ) ++ entries (S n) files
  end.
Definition file_list (files : list arg) : list (Z * list Z) := map (fun f => (T_FILE, contents (default [] f.2))) files.

(** A file that can be read and has no slash in its name. *)
Definition arg_ok (f : arg) : Prop := (47 ∉ f.1) /\ f.2 <> None /\ Z.of_nat (length (contents (default [] f.2))) <= 71680.

Lemma length_entries n files : length (entries n files) = (16 * length files)%nat.
Proof.
  revert n. induction files as [|f files IH]; intros n; [done|]. cbn [entries length]. unfold dirent.
  rewrite !length_app, length_le_bytes, length_strncpy, IH. unfold DIRSIZ. lia.
Qed.

Lemma total_cons e fs : total (e :: fs) = cnt (nblk (length e.2)) + total fs.
Proof. done. Qed.

Lemma wp_add_files files : forall s rc fl (Q : unit -> mstate -> Prop),
  files_at s ((T_DIR, rc) :: fl) -> Forall arg_ok files -> Z.of_nat (length fl + length files) <= 198 -> Z.of_nat (length rc + 16 * length files) <= 71680 ->
  59 + total ((T_DIR, rc ++ entries (2 + length fl) files) :: fl ++ file_list files) <= 1000 ->
  (forall s', files_at s' ((T_DIR, rc ++ entries (2 + length fl) files) :: fl ++ file_list files) -> Q tt s') ->
  wp (for_each files (fun '(arg, reads) => add_file 1 arg reads)) Q s.
Proof.
  induction files as [|[name reads] files IH]; intros s rc fl Q Hf Hok Hn Hrc Hroom HQ; cbn [for_each entries file_list map] in *.
  { rewrite !app_nil_r in HQ. by apply wp_ret, HQ. }
  apply Forall_cons in Hok as [(Hslash & Hr & Hlen) Hok]. cbn [fst snd length] in *. destruct reads as [reads|]; [clear Hr; change (default [] (Some reads)) with reads in *|done].
  rewrite (app_assoc rc) in *. set (e := dirent _ _) in *. assert (length e = 16%nat) as He by (unfold e, dirent; by rewrite length_app, length_le_bytes, length_strncpy).
  set (c := contents reads) in *. change (map _ files) with (file_list files) in *.
  replace (fl ++ (T_FILE, c) :: file_list files) with ((fl ++ [(T_FILE, c)]) ++ file_list files) in * by (by rewrite <- app_assoc).
  pose proof (cnt_app (rc ++ e) (entries (S (2 + length fl)) files)) as Hc. pose proof (total_nonneg (file_list files)).
  pose proof (cnt_nonneg (nblk (length c))). rewrite total_cons, !total_app, total_cons in Hroom. cbn [fst snd total] in Hroom.
  apply wp_bind. unfold add_file, assert. rewrite bool_decide_true by done. apply wp_bind, wp_ret.
  apply wp_bind. eapply wp_ialloc; [done|cbn [length]; lia|done|]. intros s1 Hf1. cbn [length app] in *.
  replace (1 + Z.of_nat (S (length fl))) with (Z.of_nat (2 + length fl)) by lia. fold e. change (iappend 1 e) with (iappend (1 + Z.of_nat 0) e).
  apply wp_bind, (wp_iappend s1 ((T_DIR, rc) :: fl ++ [(T_FILE, [])]) 0 T_DIR rc e); [exact Hf1|done|rewrite length_app, He; lia| |].
  { cbn [insert list_insert]. rewrite total_cons, total_app. cbn [fst snd total length]. change (cnt (nblk 0)) with 0. lia. }
  intros s2 Hf2. cbn [insert list_insert] in Hf2. replace (Z.of_nat (2 + length fl)) with (1 + Z.of_nat (S (length fl))) by lia.
  assert (((T_DIR, rc ++ e) :: fl ++ [(T_FILE, [])]) !! S (length fl) = Some (T_FILE, [])) as Hlk by (by apply list_lookup_middle).
  assert (<[S (length fl) := (T_FILE, c)]> ((T_DIR, rc ++ e) :: fl ++ [(T_FILE, [])]) = (T_DIR, rc ++ e) :: fl ++ [(T_FILE, c)]) as Hins.
  { transitivity ((T_DIR, rc ++ e) :: <[length fl := (T_FILE, c)]> (fl ++ [(T_FILE, [])])); [done|]. f_equal. rewrite insert_app_r_alt, Nat.sub_diag by lia. done. }
  eapply (wp_copy_in reads _ _ _ T_FILE []); [done|done|done|cbn [app]; fold c; rewrite Hins|cbn [app]; fold c; rewrite Hins].
  { rewrite total_cons, total_app. cbn [fst snd total]. lia. }
  intros s3 Hf3. eapply (IH s3 (rc ++ e) (fl ++ [(T_FILE, c)])); [done|done| | | |].
  - rewrite length_app. simpl. lia.
  - rewrite length_app, He. lia.
  - rewrite length_app, Nat.add_1_r. change (2 + S (length fl))%nat with (S (2 + length fl)). rewrite total_cons, !total_app. cbn [fst snd total]. lia.
  - rewrite length_app, Nat.add_1_r. change (2 + S (length fl))%nat with (S (2 + length fl)). done.
Qed.

(** ** The whole image *)

Lemma wp_zero_image s (Q : unit -> mstate -> Prop) : m_img s = [] -> Q tt (s <| m_img := replicate 1000 zero_block |>) ->
  wp (for_each (seqZ 0 FSSIZE) (fun i => wsect i zero_block)) Q s.
Proof.
  intros E HQ. apply (wp_for_each _ (fun l t => exists k, 0 <= k <= 1000 /\ l = seqZ k (1000 - k) /\ t = s <| m_img := replicate (Z.to_nat k) zero_block |>)).
  - exists 0. split_and!; [lia|lia|done|]. change (replicate (Z.to_nat 0) zero_block) with (@nil (list Z)). rewrite <- E. by destruct s.
  - intros x l t (k & Hk & El & ->). destruct (decide (k = 1000)) as [->|]; [done|]. rewrite seqZ_cons in El by lia. injection El as -> ->.
    unfold wsect. apply wp_modify. exists (Z.succ k). split_and!; [lia|lia|f_equal; lia|]. rewrite sector_small by lia. unfold set, set_m_img. simpl. f_equal.
    rewrite length_replicate, decide_False, Nat.sub_diag by lia. cbn [replicate app]. rewrite Z2Nat.inj_succ, replicate_S_end by lia. done.
  - intros t (k & Hk & El & ->). assert (k = 1000) as ->. { destruct (decide (k = 1000)); [done|]. rewrite seqZ_cons in El by lia. done. }
    done.
Qed.

Definition blank : mstate := MkM (<[1%nat := super]> (replicate 1000 zero_block)) isb 1 59.

Lemma image_blank b : b <> 1 -> image (m_img blank) b = zero_block.
Proof.
  intros Hb. unfold image, blank. cbn [m_img]. case_decide; [|done]. rewrite list_lookup_insert_ne by lia.
  destruct (replicate 1000 zero_block !! Z.to_nat b) as [x|] eqn:E; [|done]. by apply lookup_replicate in E as [-> _].
Qed.

Lemma blank_files : files_at blank [].
Proof.
  split; [|done|simpl; lia|done|done|simpl; lia]. split; cbn [blank m_img m_sb m_freeblock].
  - by rewrite length_insert, length_replicate.
  - apply Forall_insert; [by apply Forall_replicate|]. unfold super. by rewrite length_splice.
  - done.
  - lia.
  - intros b Hb. apply image_blank. lia.
  - unfold image. rewrite decide_True by lia. change (Z.to_nat 1) with 1%nat. rewrite list_lookup_insert_eq; [done|]. rewrite length_replicate. lia.
  - by apply image_blank.
Qed.

(** What is in an image with the root directory [root] and the files [fl]. *)
Record fs_image (v : Z -> list Z) (root : list Z) (fl : list (Z * list Z)) : Prop := {
  im_super : sb_of (v 1) = isb;
  im_log : hd_n (v 2) = 0;
  im_used b : 0 <= b < 1000 -> used v b = (b <? 59 + total ((T_DIR, root) :: fl));
  im_file k e : fl !! k = Some e ->
    inode_of isb v (2 + Z.of_nat k) = MkDinode e.1 0 0 1 (Z.of_nat (length e.2)) (addrs v (2 + Z.of_nat k)) /\
    disk_file isb 59 v (2 + Z.of_nat k) /\ disk_content isb v (2 + Z.of_nat k) = e.2;
  im_root : inode_of isb v 1 = MkDinode T_DIR 0 0 1 (Z.of_nat ((length root / 512 + 1) * 512)) (addrs v 1) /\
    file_ok v (addrs v 1) /\ exact v (addrs v 1) (nblk (length root)) /\
    take (nblk (length root) * 512) (disk_content isb v 1) = root ++ replicate (nblk (length root) * 512 - length root) 0;
  im_apart i j : (i <= length fl)%nat -> (j <= length fl)%nat -> i <> j -> apart v (addrs v (1 + Z.of_nat i)) (addrs v (1 + Z.of_nat j))
}.

Lemma rep_disk v j e : file_rep v j e -> inum_ok isb j -> disk_file isb 59 v j /\ disk_content isb v j = e.2.
Proof.
  intros [R1 R2 R3 R4 R5 R6] Hj. split.
  - split; [done|]. split; [done|]. rewrite R1. cbn [d_addrs d_size]. rewrite Nat2Z.id. intros x Hx.
    destruct (mapped_byte x _ (proj2 Hx) R6) as [H1 H2]. split; [done|by apply R4].
  - unfold disk_content. rewrite R1. cbn [d_addrs d_size]. rewrite Nat2Z.id. apply list_eq. intros o. rewrite list_lookup_fmap.
    destruct (decide (o < length e.2)%nat) as [Ho|Ho].
    + rewrite lookup_seq_lt by done. cbn [fmap option_fmap option_map]. pose proof (nblk_covers (length e.2)). rewrite Nat.add_0_l, R5 by lia. unfold nthZ.
      by destruct (lookup_lt_is_Some_2 e.2 o Ho) as [x ->].
    + rewrite !lookup_ge_None_2; [done|lia|rewrite length_seq; lia].
Qed.

Lemma image_closed s v root fl : files_at s ((T_DIR, root) :: fl) -> v 1 = super -> v 2 = zero_block ->
  (forall n, 58 <= n -> v n = vimg s n) -> (forall i, inum_ok isb i -> i <> 1 -> inode_of isb v i = inode_of isb (vimg s) i) ->
  inode_of isb v 1 = MkDinode T_DIR 0 0 1 (Z.of_nat ((length root / 512 + 1) * 512)) (addrs (vimg s) 1) -> fs_image v root fl.
Proof.
  intros [Hs Hn Hmax Hfr Hfile Hap] V1 V2 V Hi Hr. pose proof (Hfile 0%nat _ eq_refl) as R. change (1 + Z.of_nat 0) with 1 in R.
  assert (forall k, slot v (addrs v 1) k = slot (vimg s) (addrs (vimg s) 1) k) as Es by (intros k; rewrite Hr; by eapply slot_low; [apply R|]).
  assert (forall j e, fl !! j = Some e -> file_rep v (2 + Z.of_nat j) e /\
    forall k, slot v (addrs v (2 + Z.of_nat j)) k = slot (vimg s) (addrs (vimg s) (2 + Z.of_nat j)) k) as Hoth.
  { intros j e Hj. pose proof (lookup_lt_Some _ _ _ Hj). simpl in Hmax. apply (rep_low (vimg s)); [|apply Hi; [unfold inum_ok; change (sb_ninodes isb) with 200|]; lia|done].
    replace (2 + Z.of_nat j) with (1 + Z.of_nat (S j)) by lia. by apply Hfile. }
  split.
  - rewrite V1. by vm_compute.
  - rewrite V2. by vm_compute.
  - intros b Hb. rewrite (used_kept (vimg s) v V) by done. rewrite vimg_used, Hfr by done. done.
  - intros k e Hk. pose proof (lookup_lt_Some _ _ _ Hk). simpl in Hmax. destruct (Hoth k e Hk) as [Rk _]. split; [apply Rk|].
    apply rep_disk; [done|]. unfold inum_ok. change (sb_ninodes isb) with 200. lia.
  - destruct R as [R1 R2 R3 R4 R5 R6]. cbn [fst snd] in *. split; [by rewrite Hr|]. split; [rewrite Hr; by eapply file_ok_low|].
    split; [by eapply exact_ext; [exact R4|]|]. pose proof (Nat.div_mod (length root) 512 ltac:(lia)). pose proof (Nat.mod_upper_bound (length root) 512 ltac:(lia)).
    unfold disk_content. rewrite Hr. cbn [d_addrs d_size]. rewrite Nat2Z.id. pose proof (nblk_covers (length root)) as Hnc. pose proof (nblk_bounds (length root)).
    rewrite <- fmap_take, take_seq, Nat.min_l by lia.
    apply list_eq. intros o. rewrite list_lookup_fmap. destruct (decide (o < nblk (length root) * 512)%nat) as [Ho|Ho].
    + rewrite lookup_seq_lt by done. cbn [fmap option_fmap option_map]. rewrite Nat.add_0_l. destruct (mapped_block o _ Ho R6) as [Hb Hm].
      assert (byte_at v (addrs (vimg s) 1) o = byte_at (vimg s) (addrs (vimg s) 1) o) as ->.
      { eapply byte_low; [exact R3|exact V|done|]. by apply R4. }
      rewrite R5 by done. unfold nthZ. destruct (decide (o < length root)%nat) as [Hr'|Hr'].
      * rewrite lookup_app_l by done. by destruct (lookup_lt_is_Some_2 root o Hr') as [x ->].
      * rewrite lookup_app_r, lookup_replicate_2 by lia. by rewrite lookup_ge_None_2 by lia.
    + rewrite !lookup_ge_None_2; [done|rewrite length_app, length_replicate; lia|rewrite length_seq; lia].
  - assert (forall i, (i <= length fl)%nat -> forall k, slot v (addrs v (1 + Z.of_nat i)) k = slot (vimg s) (addrs (vimg s) (1 + Z.of_nat i)) k) as Ha.
    { intros [|i] Hil; [exact Es|]. destruct (lookup_lt_is_Some_2 fl i Hil) as [e He]. replace (1 + Z.of_nat (S i)) with (2 + Z.of_nat i) by lia. by eapply Hoth. }
    intros i j Hil Hjl Hne x y Hx Hy. rewrite (Ha i Hil), (Ha j Hjl). apply (Hap i j); simpl; try lia; done.
Qed.

(** The end of [main]: the size of the root is rounded up, the bitmap written. *)
Definition closing : MM Z :=
  let* din := rinode 1 in
  let off := xint (d_size din) in
  let off := (off / BSIZE + 1) * BSIZE in
  winode 1 (MkDinode (d_type din) (d_major din) (d_minor din) (d_nlink din) (xint off) (d_addrs din)) ;;
  let* fb := gets m_freeblock in
  balloc fb ;;
  ret 0.

Lemma wp_closing s root fl (Q : Z -> mstate -> Prop) : files_at s ((T_DIR, root) :: fl) ->
  (forall s', fs_image (image (m_img s')) root fl -> Q 0 s') -> wp closing Q s.
Proof.
  intros Hf HQ. pose proof Hf as [Hs Hn Hmax Hfr Hfile Hap]. pose proof (Hfile 0%nat _ eq_refl) as R. change (1 + Z.of_nat 0) with 1 in R.
  assert (inum_ok isb 1) as H1 by (unfold inum_ok; change (sb_ninodes isb) with 200; lia). pose proof (fr_max _ _ _ R) as Hm. cbn [fst snd] in Hm.
  unfold closing. apply wp_bind, wp_rinode; [done|done|]. set (d := MkDinode _ _ _ _ _ _).
  pose proof (Nat.div_mod (length root) 512 ltac:(lia)). pose proof (Nat.mod_upper_bound (length root) 512 ltac:(lia)).
  assert (d = MkDinode T_DIR 0 0 1 (Z.of_nat ((length root / 512 + 1) * 512)) (addrs (vimg s) 1)) as Ed.
  { unfold d. rewrite (fr_inode _ _ _ R). cbn [d_type d_major d_minor d_nlink d_size d_addrs fst snd]. f_equal. rewrite (xint_small (Z.of_nat _)) by lia.
    change BSIZE with (Z.of_nat 512). rewrite <- Nat2Z.inj_div. rewrite xint_small by lia. lia. }
  rewrite Ed. apply wp_bind, wp_winode; [done|done| |].
  { eapply (rep_dinode (vimg s) T_DIR); [by vm_compute|apply R| |done]. lia. }
  intros s1 B1 B2 B3 B4 B5 B6. pose proof (mo_free _ B1). apply wp_bind, wp_gets. apply wp_bind. unfold balloc, assert.
  change (BSIZE * 8) with 4096. replace (m_freeblock s1 <? 4096) with true by lia. apply wp_bind, wp_ret. apply wp_bind, wp_gets. rewrite (mo_sb _ B1).
  change (sb_bmapstart isb) with 58. apply wp_wsect; [done|lia|]. apply wp_ret, HQ.
  replace (seqZ 0 (m_freeblock s1)) with (seqZ 0 (Z.of_nat (Z.to_nat (m_freeblock s1)))) by (f_equal; lia).
  fold (bitmap (Z.to_nat (m_freeblock s1))). set (s2 := put_sect 58 _ s1).
  assert (forall n, image (m_img s2) n = vimg s1 n) as E by (intros n; unfold s2; by rewrite image_put by (done || lia)).
  apply (image_closed s); [done|by rewrite E; apply (mo_super _ B1)|by rewrite E; apply (mo_log _ B1)|by intros n Hn'; rewrite E; apply B6| |].
  - intros i Hi Hne. rewrite <- (B5 i Hi Hne). unfold inode_of. by rewrite E.
  - rewrite <- B4. unfold inode_of. by rewrite E.
Qed.

Lemma wp_super (Q : unit -> mstate -> Prop) : Q tt blank -> wp (wsect 1 super) Q ((MkM [] isb 1 59) <| m_img := replicate 1000 zero_block |>).
Proof.
  intros HQ. unfold wsect. apply wp_modify. rewrite sector_small by lia. unfold set, set_m_img. cbn [m_img m_sb m_freeinode m_freeblock].
  rewrite length_replicate, decide_True by lia. exact HQ.
Qed.

(** The root directory: itself, its parent and an entry for each file. *)
Definition root_of (files : list arg) : list Z :=
  (dirent 1 (copied (bytes ".")) ++ dirent 1 (copied (bytes ".."))) ++ entries 2 files.

Lemma wp_mkfs files (Q : Z -> mstate -> Prop) : Forall arg_ok files -> (length files <= 198)%nat ->
  59 + total ((T_DIR, root_of files) :: file_list files) <= 1000 ->
  (forall s, fs_image (image (m_img s)) (root_of files) (file_list files) -> Q 0 s) -> wp (mkfs files) Q mstart.
Proof.
  intros Hok Hn Hroom HQ. unfold mkfs. fold super. change (MkSb _ _ _ _ _ _ _) with isb. change nmeta with 59. apply wp_bind, wp_modify.
  set (s0 := set m_freeblock _ _). assert (s0 = MkM [] isb 1 59) as -> by done. apply wp_bind, wp_zero_image; [done|].
  apply wp_bind, wp_super.
  apply wp_bind, (wp_ialloc _ [] T_DIR); [apply blank_files|simpl; lia|unfold T_DIR; lia|]. intros s1 F1. change (1 + Z.of_nat (length [])) with 1.
  unfold assert. change (1 =? ROOTINO) with true. apply wp_bind, wp_ret. set (e1 := dirent 1 (copied (bytes "."))). set (e2 := dirent 1 (copied (bytes ".."))).
  change (iappend 1 e1) with (iappend (1 + Z.of_nat 0) e1). change (iappend 1 e2) with (iappend (1 + Z.of_nat 0) e2).
  apply wp_bind, (wp_iappend s1 [(T_DIR, [])] 0 T_DIR [] e1); [done|done|by vm_compute|by vm_compute|]. intros s2 F2.
  apply wp_bind, (wp_iappend s2 [(T_DIR, e1)] 0 T_DIR e1 e2); [done|done|by vm_compute|by vm_compute|]. intros s3 F3.
  apply wp_bind, (wp_add_files files s3 (e1 ++ e2) []); [done|done|simpl; lia| |exact Hroom|].
  - change (length (e1 ++ e2)) with 32%nat. lia.
  - intros s4 F4. exact (wp_closing s4 (root_of files) (file_list files) Q F4 HQ).
Qed.

Lemma mkfs_makes img r files : Forall arg_ok files -> (length files <= 198)%nat ->
  59 + total ((T_DIR, root_of files) :: file_list files) <= 1000 ->
  exists s, mkfs_main ((img, Some r) :: files) mstart = Ok 0 s /\ fs_image (image (m_img s)) (root_of files) (file_list files).
Proof.
  change (mkfs_main ((img, Some r) :: files) mstart) with (mkfs files mstart).
  intros Hok Hn Hroom. assert (wp (mkfs files) (fun r s => r = 0 /\ fs_image (image (m_img s)) (root_of files) (file_list files)) mstart) as H.
  { by apply wp_mkfs. }
  rewrite wp_iff in H. destruct H as (c & s & E & Hc & Hs). rewrite Hc in E. exact (ex_intro _ s (conj E Hs)).
Qed.

(** C8: [mkfs] makes the file system it is given: for host files whose names
    have no slash, at most 198 of them and with the blocks that the contents and
    the root directory need within the image, the program ends with status 0 and
    the image has the superblock of the default layout, an empty log, a bitmap
    with exactly the blocks below the first free one in use, for each file an
    inode of its own with the file's contents, the root directory with an entry
    for each file, and no block that belongs to two of them. *)
Theorem mkfs_image img r files : Forall arg_ok files -> (length files <= 198)%nat ->
  59 + total ((T_DIR, root_of files) :: file_list files) <= 1000 ->
  exists s, mkfs_main ((img, Some r) :: files) mstart = Ok 0 s /\ fs_image (image (m_img s)) (root_of files) (file_list files).
Proof. exact (mkfs_makes img r files). Qed.

Definition host_files : list arg :=
  [(bytes "_cat", Some [bytes "cat"; bytes " binary"]); (bytes "README", Some [replicate 512 46; replicate 512 46; replicate 7 46])].

Lemma mkfs_image_witness : exists s, mkfs_main ((bytes "fs.img", Some []) :: host_files) mstart = Ok 0 s /\ disk_content isb (image (m_img s)) 2 = bytes "cat binary".
Proof.
  destruct (mkfs_image (bytes "fs.img") [] host_files) as (s & E & H).
  - repeat constructor; cbn [fst snd]; try done; by apply (bool_decide_unpack _).
  - simpl. lia.
  - by vm_compute.
  - exists s. split; [exact E|]. exact (proj2 (proj2 (im_file _ _ _ H 0%nat _ eq_refl))).
Defined.

(** When the entries of the root directory fill its blocks, rounding up its
    size adds a block that has no number: the directory's inode then claims 512
    bytes more than it has blocks for. *)
Theorem mkfs_root_unmapped img r files : Forall arg_ok files -> (length files <= 198)%nat ->
  59 + total ((T_DIR, root_of files) :: file_list files) <= 1000 -> (length (root_of files) mod 512 = 0)%nat ->
  exists s, mkfs_main ((img, Some r) :: files) mstart = Ok 0 s /\
    let d := inode_of isb (image (m_img s)) 1 in
    d_size d = Z.of_nat (length (root_of files)) + 512 /\ slot (image (m_img s)) (d_addrs d) (pos (length (root_of files) / 512)) = 0.
Proof.
  intros Hok Hn Hroom Hmod. destruct (mkfs_makes img r files Hok Hn Hroom) as (s & E & H). exists s. split; [exact E|].
  destruct (im_root _ _ _ H) as (Hi & _ & Hx & _). set (v := image (m_img s)) in *. set (n := length (root_of files)) in *.
  pose proof (Nat.div_mod n 512 ltac:(lia)) as Hd. rewrite Hmod in Hd. cbn zeta. split.
  - rewrite Hi. cbn [d_size]. lia.
  - destruct (decide (slot v (addrs v 1) (pos (n / 512)) = 0)) as [|Hs]; [done|]. exfalso.
    assert (n <= 16 * 200)%nat as Hn'. { unfold n, root_of. rewrite length_app, length_entries. change (length (_ ++ _)) with 32%nat. lia. }
    apply Hx in Hs; [|change (Z.to_nat MAXFILE) with 140%nat; lia]. unfold nblk in Hs. rewrite Hd in Hs at 2.
    replace (512 * (n / 512) + 0 + 511)%nat with (511 + (n / 512) * 512)%nat in Hs by lia. rewrite Nat.div_add in Hs by lia. change (511 / 512)%nat with 0%nat in Hs. lia.
Qed.

Definition thirty_files : list arg := replicate 30 (bytes "f", Some []).

Lemma mkfs_root_unmapped_witness : exists s, mkfs_main ((bytes "fs.img", Some []) :: thirty_files) mstart = Ok 0 s /\
  d_size (inode_of isb (image (m_img s)) 1) = 1024 /\ slot (image (m_img s)) (addrs (image (m_img s)) 1) 1 = 0.
Proof.
  destruct (mkfs_root_unmapped (bytes "fs.img") [] thirty_files) as (s & E & H1 & H2).
  - apply Forall_replicate. split; [by apply (bool_decide_unpack _)|]. split; [done|by vm_compute].
  - simpl. lia.
  - by vm_compute.
  - by vm_compute.
  - exists s. split; [exact E|]. split; [exact H1|exact H2].
Defined.
