(* ===== verification/Pipe.v ===== *)
(** * Pipes (pipe.c)

    A pipe is a ring of [PIPESIZE] bytes in a page of its own; [nread] and
    [nwrite] count the bytes ever read and written, modulo 2^32.  The pipes
    are the map [k_pipes] from the address of the page; reading a pipe that
    is not there is a use after free. *)

From stdpp Require Import base numbers list list_numbers gmap strings.
From S2P Require Import Prelude Kmonad Params Ring Kstate Spinlock KString Kalloc Cprintf Vm Umem Demo Sched.

Local Open Scope Z_scope.

(** ** The code *)

Definition get_pipe (p : Z) : KM pipe :=
  let* t := gets k_pipes in deref "no pipe" (t !! p).
Definition upd_pipe (p : Z) (f : pipe -> pipe) : KM unit := modify (set k_pipes (alter f p)).

(** [kfree((char* )p)]: the page is no longer a pipe. *)
Definition pipe_free (p : Z) : KM unit :=
  modify (set k_pipes (delete p)) ;;
  kfree p.

Definition pipeclose (p writable : Z) : KM unit :=
  acquire (Lpipe p) ;;
  (if negb (writable =? 0) then
     upd_pipe p (fun x => x <| pi_writeopen := 0 |>) ;;
     wakeup (ChPipeRead p)
   else
     upd_pipe p (fun x => x <| pi_readopen := 0 |>) ;;
     wakeup (ChPipeWrite p)) ;;
  let* x := get_pipe p in
  release (Lpipe p) ;;
  when ((pi_readopen x =? 0) && (pi_writeopen x =? 0)) (pipe_free p).

Definition pipe_full (x : pipe) : bool := pi_nwrite x =? u32 (pi_nread x + PIPESIZE).
Definition pipe_empty (x : pipe) : bool := pi_nread x =? pi_nwrite x.

Definition cur_killed : KM bool :=
  let* i := curproc in
  let* p := get_p i in
  ret (negb (p_killed p =? 0)).

(** The [while] loop of [pipewrite]: [false] when the write is given up (the
    lock is then released); [fuel] bounds the wakeups. *)
Fixpoint pipe_room (fuel : nat) (p : Z) : KM bool :=
  let* x := get_pipe p in
  if negb (pipe_full x) then ret true else
  let* k := (if pi_readopen x =? 0 then ret true else cur_killed) in
  if (k : bool) then release (Lpipe p) ;; ret false else
  wakeup (ChPipeRead p) ;;
  sleep (ChPipeWrite p) (Some (Lpipe p)) ;;
  match fuel with O => nofuel | S fuel => pipe_room fuel p end.

Definition pipe_put (b : Z) (x : pipe) : pipe :=
  x <| pi_data := <[Z.to_nat (pi_nwrite x mod PIPESIZE) := b]> (pi_data x) |>
    <| pi_nwrite := u32 (pi_nwrite x + 1) |>.

Definition pipewrite (fuel : nat) (p addr n : Z) : KM Z :=
  acquire (Lpipe p) ;;
  let* r := for_break (seqZ 0 n) (fun i =>
    let* ok := pipe_room fuel p in
    if negb ok then ret (Some (-1)) else
    let* b := uload8 (addr + i) in
    upd_pipe p (pipe_put b) ;;
    ret None) in
  match r with
  | Some r => ret r
  | None =>
      wakeup (ChPipeRead p) ;;
      release (Lpipe p) ;;
      ret n
  end.

(** The [while] loop of [piperead]. *)
Fixpoint pipe_data (fuel : nat) (p : Z) : KM bool :=
  let* x := get_pipe p in
  if negb (pipe_empty x && negb (pi_writeopen x =? 0)) then ret true else
  let* k := cur_killed in
  if (k : bool) then release (Lpipe p) ;; ret false else
  sleep (ChPipeRead p) (Some (Lpipe p)) ;;
  match fuel with O => nofuel | S fuel => pipe_data fuel p end.

Definition pipe_front (x : pipe) : Z := nthZ (pi_data x) (Z.to_nat (pi_nread x mod PIPESIZE)).

Definition piperead (fuel : nat) (p addr n : Z) : KM Z :=
  acquire (Lpipe p) ;;
  let* ok := pipe_data fuel p in
  if negb ok then ret (-1) else
  let* r := for_break (seqZ 0 n) (fun i =>
    let* x := get_pipe p in
    if pipe_empty x then ret (Some i) else
    upd_pipe p (set pi_nread (fun k => u32 (k + 1))) ;;
    ustore8 (addr + i) (pipe_front x) ;;
    ret None) in
  let i := default (Z.max 0 n) r in
  wakeup (ChPipeWrite p) ;;
  release (Lpipe p) ;;
  ret i.

(** ** The contents of a pipe *)

Definition pipe_count (x : pipe) : Z := u32 (pi_nwrite x - pi_nread x).
Definition pipe_slot (x : pipe) (k : Z) : Z := nthZ (pi_data x) (Z.to_nat ((pi_nread x + k) mod PIPESIZE)).
Definition pipe_bytes (x : pipe) : list Z := map (pipe_slot x) (seqZ 0 (pipe_count x)).

Record pipe_ok (x : pipe) : Prop := {
  po_data : length (pi_data x) = Z.to_nat PIPESIZE;
  po_nread : 0 <= pi_nread x < 2 ^ 32;
  po_nwrite : 0 <= pi_nwrite x < 2 ^ 32;
  po_count : pipe_count x <= PIPESIZE
}.

Lemma length_pipe_bytes x : Z.of_nat (length (pipe_bytes x)) = pipe_count x.
Proof. unfold pipe_bytes. rewrite length_map, length_seqZ. pose proof (u32_range (pi_nwrite x - pi_nread x)). unfold pipe_count. lia. Qed.

Lemma u32_slot a : u32 a mod PIPESIZE = a mod PIPESIZE.
Proof.
  unfold u32, PIPESIZE. change (2 ^ 32) with (2048 * 2097152).
  rewrite Z.rem_mul_r by lia. rewrite (Z.mul_comm 2048), Z.mod_add by lia. by rewrite Z.mod_mod.
Qed.

Lemma u32_sub_eq a b : 0 <= a < 2 ^ 32 -> 0 <= b < 2 ^ 32 ->
  u32 (a - b) = if b <=? a then a - b else a - b + 2 ^ 32.
Proof.
  intros. unfold u32. destruct (Z.leb_spec b a); [by apply Z.mod_small; lia|].
  rewrite <- (Z.mod_add _ 1) by lia. apply Z.mod_small. lia.
Qed.

Lemma pipe_full_count x : pipe_ok x -> pipe_full x = (pipe_count x =? PIPESIZE).
Proof.
  intros [_ Hr Hw Hc]. unfold pipe_full, pipe_count in *. rewrite u32_sub_eq in * by done.
  unfold u32, PIPESIZE in *. pose proof (Z.mod_pos_bound (pi_nread x + 2048) (2 ^ 32)).
  pose proof (Z.div_mod (pi_nread x + 2048) (2 ^ 32)).
  destruct (Z.leb_spec (pi_nread x) (pi_nwrite x)); apply eq_true_iff_eq; rewrite !Z.eqb_eq; lia.
Qed.

Lemma pipe_empty_count x : pipe_ok x -> pipe_empty x = (pipe_count x =? 0).
Proof.
  intros [_ Hr Hw Hc]. unfold pipe_empty, pipe_count in *. rewrite u32_sub_eq in * by done.
  destruct (Z.leb_spec (pi_nread x) (pi_nwrite x)); apply eq_true_iff_eq; rewrite !Z.eqb_eq; lia.
Qed.

Lemma pipe_put_count b x :
  pipe_count x < PIPESIZE -> pipe_count (pipe_put b x) = pipe_count x + 1.
Proof.
  intros Hlt. pose proof (u32_range (pi_nwrite x - pi_nread x)). unfold pipe_count, PIPESIZE in *.
  change (pi_nread (pipe_put b x)) with (pi_nread x). change (pi_nwrite (pipe_put b x)) with (u32 (pi_nwrite x + 1)).
  unfold u32 in *.   rewrite Zminus_mod_idemp_l. replace (pi_nwrite x + 1 - pi_nread x) with (pi_nwrite x - pi_nread x + 1) by lia.
  rewrite <- Zplus_mod_idemp_l. apply Z.mod_small. lia.
Qed.

Lemma pipe_put_ok b x : pipe_ok x -> pipe_count x < PIPESIZE -> pipe_ok (pipe_put b x).
Proof.
  intros H Hlt. split; [simpl; rewrite length_insert; apply H|apply H|apply u32_range|].
  rewrite pipe_put_count by done. lia.
Qed.

Lemma pipe_put_bytes b x :
  pipe_ok x -> pipe_count x < PIPESIZE -> pipe_bytes (pipe_put b x) = pipe_bytes x ++ [b].
Proof.
  intros H Hlt. unfold pipe_bytes. rewrite pipe_put_count by done.
  pose proof (u32_range (pi_nwrite x - pi_nread x)) as Hc. fold (pipe_count x) in Hc.
  rewrite seqZ_app by lia. rewrite map_app.
  assert (pi_nwrite x mod PIPESIZE = (pi_nread x + pipe_count x) mod PIPESIZE) as Ew.
  { unfold pipe_count. rewrite Zplus_mod, u32_slot, <- Zplus_mod. f_equal. lia. }
  assert (forall k, 0 <= (pi_nread x + k) mod PIPESIZE < PIPESIZE) as Hm by (intros; by apply Z.mod_pos_bound).
  f_equal.
  - apply map_ext_in. intros k Hk. apply list_elem_of_In, elem_of_seqZ in Hk. unfold pipe_slot, nthZ. simpl.
    rewrite list_lookup_insert_ne; [done|]. intros E. apply Z2Nat.inj in E; [|rewrite Ew; apply Hm|apply Hm].
    rewrite Ew in E.
    assert ((pipe_count x - k) mod PIPESIZE = 0) as E0.
    { replace (pipe_count x - k) with ((pi_nread x + pipe_count x) - (pi_nread x + k)) by lia.
      by rewrite Zminus_mod, E, Z.sub_diag. }
    rewrite Z.mod_small in E0 by lia. lia.
  - rewrite seqZ_cons, seqZ_nil by lia. cbn [map]. f_equal. unfold pipe_slot, nthZ. simpl.
    rewrite Z.add_0_l, <- Ew, list_lookup_insert_eq; [done|].
    rewrite (po_data x H). specialize (Hm (pipe_count x)). lia.
Qed.

Definition pipe_get (x : pipe) : pipe := x <| pi_nread := u32 (pi_nread x + 1) |>.

Lemma pipe_get_count x : pipe_ok x -> 0 < pipe_count x -> pipe_count (pipe_get x) = pipe_count x - 1.
Proof.
  intros [_ _ _ _] Hlt. pose proof (u32_range (pi_nwrite x - pi_nread x)). unfold pipe_count in *.
  change (pi_nwrite (pipe_get x)) with (pi_nwrite x). change (pi_nread (pipe_get x)) with (u32 (pi_nread x + 1)).
  unfold u32 in *.   rewrite Zminus_mod_idemp_r. replace (pi_nwrite x - (pi_nread x + 1)) with (pi_nwrite x - pi_nread x - 1) by lia.
  rewrite <- Zminus_mod_idemp_l. apply Z.mod_small. lia.
Qed.

Lemma pipe_get_ok x : pipe_ok x -> 0 < pipe_count x -> pipe_ok (pipe_get x).
Proof.
  intros H Hlt. split; [apply H|apply u32_range|apply H|]. rewrite pipe_get_count by done. destruct H. lia.
Qed.

Lemma pipe_get_bytes x :
  pipe_ok x -> 0 < pipe_count x -> pipe_bytes x = pipe_front x :: pipe_bytes (pipe_get x).
Proof.
  intros H Hlt. unfold pipe_bytes. rewrite pipe_get_count by done. rewrite seqZ_cons by lia. cbn [map]. f_equal.
  - unfold pipe_slot, pipe_front. by rewrite Z.add_0_r.
  - change (Z.succ 0) with (1 + 0). rewrite <- fmap_add_seqZ, <- list_fmap_compose.
    apply list_fmap_ext. intros _ k _. unfold pipe_slot, compose.
    change (pi_nread (pipe_get x)) with (u32 (pi_nread x + 1)). change (pi_data (pipe_get x)) with (pi_data x).
    by rewrite (Zplus_mod (u32 _)), u32_slot, <- Zplus_mod, Z.add_assoc.
Qed.

(** ** Writing *)

Definition pipe_puts (bs : list Z) (x : pipe) : pipe := foldl (fun x b => pipe_put b x) x bs.

Lemma pipe_puts_spec bs x :
  pipe_ok x -> pipe_count x + Z.of_nat (length bs) <= PIPESIZE ->
  pipe_ok (pipe_puts bs x) /\ pipe_bytes (pipe_puts bs x) = pipe_bytes x ++ bs.
Proof.
  unfold pipe_puts. revert x. induction bs as [|b bs IH]; intros x Hx Hc; simpl in *; [by rewrite app_nil_r|].
  destruct (IH (pipe_put b x)) as [H1 H2].
  - apply pipe_put_ok; [done|lia].
  - rewrite pipe_put_count; lia.
  - split; [done|]. rewrite H2, pipe_put_bytes by (done || lia). by rewrite <- app_assoc.
Qed.

Definition with_pipe (p : Z) (x : pipe) (s : kstate) : kstate := set k_pipes (insert p x) s.

Lemma upd_pipe_Ok p f x s : upd_pipe p f (with_pipe p x s) = Ok tt (with_pipe p (f x) s).
Proof.
  unfold upd_pipe, modify, with_pipe. f_equal. unfold set, set_k_pipes. simpl. f_equal.
  by rewrite alter_insert_eq.
Qed.

Lemma with_pipe_acq p x c lk s : with_pipe p x (acq c lk s) = acq c lk (with_pipe p x s).
Proof. done. Qed.

Lemma with_pipe_id p x s : k_pipes s !! p = Some x -> with_pipe p x s = s.
Proof. intros H. unfold with_pipe, set, set_k_pipes. rewrite insert_id by done. by destruct s. Qed.

Lemma get_pipe_Ok p x s : get_pipe p (with_pipe p x s) = Ok x (with_pipe p x s).
Proof. unfold get_pipe. kstep. simpl. by rewrite lookup_insert_eq. Qed.

Lemma pipe_room_Ok fuel p x s :
  pipe_full x = false -> pipe_room fuel p (with_pipe p x s) = Ok true (with_pipe p x s).
Proof. intros H. destruct fuel; simpl; rewrite (bind_Ok _ _ _ _ _ (get_pipe_Ok p x s)); by rewrite H. Qed.

Lemma lookup_seqZ0 n i y : seqZ 0 n !! i = Some y -> y = Z.of_nat i /\ (i < Z.to_nat n)%nat.
Proof. intros H. apply lookup_seqZ in H as [-> H]. lia. Qed.

(** ** Reading *)

Definition pipe_gets (i : nat) (x : pipe) : pipe := Nat.iter i pipe_get x.

Lemma pipe_gets_spec i x :
  pipe_ok x -> (i <= length (pipe_bytes x))%nat ->
  pipe_ok (pipe_gets i x) /\ pipe_bytes (pipe_gets i x) = drop i (pipe_bytes x).
Proof.
  intros Hx. unfold pipe_gets. induction i as [|i IH]; intros Hi; simpl; [done|].
  destruct IH as [H1 H2]; [lia|].
  assert (0 < pipe_count (Nat.iter i pipe_get x)) as Hc by (rewrite <- length_pipe_bytes, H2, length_drop; lia).
  split; [by apply pipe_get_ok|]. pose proof (pipe_get_bytes _ H1 Hc) as E. rewrite H2 in E.
  change (S i) with (1 + i)%nat. rewrite Nat.add_comm, <- drop_drop, E. done.
Qed.

Lemma uputs_snoc m pd va bs b :
  uputs m pd va (bs ++ [b]) = uput (uputs m pd va bs) pd (va + Z.of_nat (length bs)) b.
Proof.
  revert m va. induction bs as [|a bs IH]; intros m va; simpl; [by rewrite Z.add_0_r|].
  rewrite IH. f_equal. lia.
Qed.

Section pipe_ops.
Context (c : nat) (cp : cpu) (p : Z) (fuel : nat) (s : kstate) (x : pipe).
Hypothesis Hready : ready c cp (Lpipe p) s.
Hypothesis Hlock : lock_free s Lptable.
Hypothesis Hlen : table_len s.
Hypothesis Hpipe : k_pipes s !! p = Some x.
Hypothesis Hok : pipe_ok x.

(** Waking the other side and leaving the critical section. *)
Lemma wake_release {A} ch t (r : A) :
  ready c cp (Lpipe p) t -> lock_free t Lptable -> table_len t ->
  exists s', (wakeup ch ;; release (Lpipe p) ;; ret r) (acq c (Lpipe p) t) = Ok r s' /\
    s' ≡ₖ set k_ptable (wake ch) t.
Proof.
  intros Hr Hl Hn.
  destruct (wakeup_Ok c (cpu_push cp) ch (acq c (Lpipe p) t)) as (s1 & E1 & Es1); [by apply ready_nested|done|].
  rewrite (bind_Ok _ _ _ _ _ E1). rewrite acq_ptable in Es1.
  destruct (release_keq c cp (Lpipe p) s1 (set k_ptable (wake ch) t)) as (s2 & E2 & Es2);
    [by apply (ready_neutral (set k_ptable (wake ch)))|done|].
  rewrite (bind_Ok _ _ _ _ _ E2). by exists s2.
Qed.

Lemma pipewrite_Ok addr n :
  0 <= n -> pipe_count x + n <= PIPESIZE -> ureadable (k_mem s) (cpu_cr3 cp) addr (Z.to_nat n) ->
  exists s', pipewrite fuel p addr n s = Ok n s' /\
    s' ≡ₖ set k_ptable (wake (ChPipeRead p))
            (with_pipe p (pipe_puts (ubytes (k_mem s) (cpu_cr3 cp) addr (Z.to_nat n)) x) s).
Proof.
  intros Hn Hroom Hrd. set (bs := ubytes _ _ _ _). unfold pipewrite.
  rewrite (bind_Ok _ _ _ _ _ (acquire_ready _ _ _ _ Hready)).
  set (st := fun i => acq c (Lpipe p) (with_pipe p (pipe_puts (take i bs) x) s)).
  assert (acq c (Lpipe p) s = st 0%nat) as -> by (unfold st; simpl; by rewrite (with_pipe_id p x s Hpipe)).
  assert (length bs = Z.to_nat n) as Hbs by apply length_ubytes.
  erewrite (bind_Ok (for_break _ _)); [|apply (for_break_all _ st)]; cycle 1.
  { intros i y [-> Hi]%lookup_seqZ0. destruct (Hrd i Hi) as [Ha [pa Hpa]].
    destruct (pipe_puts_spec (take i bs) x Hok) as [Hx Hb]; [rewrite length_take; lia|].
    assert (pipe_count (pipe_puts (take i bs) x) < PIPESIZE) as Hc.
    { rewrite <- length_pipe_bytes, Hb, length_app, length_take. pose proof (length_pipe_bytes x). lia. }
    unfold st. rewrite <- !with_pipe_acq. rewrite (bind_Ok _ _ _ _ _ (pipe_room_Ok _ _ _ _ ltac:(
      rewrite pipe_full_count by done; apply Z.eqb_neq; lia))). cbn [negb].
    erewrite bind_Ok by (apply (uload8_Ok c (cpu_push cp) _ _ pa);
      [apply (running_acq c cp (Lpipe p) s), Hready|done|exact Hpa]).
    rewrite (bind_Ok _ _ _ _ _ (upd_pipe_Ok _ _ _ _)). unfold ret. do 2 f_equal.
    assert (bs !! i = Some (uget (k_mem s) (cpu_cr3 cp) (addr + Z.of_nat i))) as Hl.
    { unfold bs, ubytes. rewrite list_lookup_fmap, lookup_seq_lt by done. done. }
    rewrite (take_S_r _ _ _ Hl). unfold pipe_puts. rewrite foldl_app. done. }
  rewrite length_seqZ, <- Hbs. unfold st. rewrite firstn_all.
  apply wake_release; [by apply (ready_neutral (with_pipe p _))|done|done].
Qed.

Lemma pipe_data_Ok y t : pipe_empty y = false \/ pi_writeopen y = 0 ->
  pipe_data fuel p (with_pipe p y t) = Ok true (with_pipe p y t).
Proof.
  intros H. destruct fuel; simpl; rewrite (bind_Ok _ _ _ _ _ (get_pipe_Ok p y t));
    (destruct H as [-> | ->]; [done|by rewrite andb_false_r]).
Qed.

(** What [piperead] leaves after [i] bytes. *)
Definition read_upto (addr : Z) (i : nat) : kstate :=
  with_pipe p (pipe_gets i x)
    (set k_mem (fun m => uputs m (cpu_cr3 cp) addr (take i (pipe_bytes x))) s).

Lemma read_step (T : Z -> Prop) addr i :
  uspace_in T (k_mem s) (cpu_cr3 cp) -> (i < length (pipe_bytes x))%nat ->
  uwritable (k_mem s) (cpu_cr3 cp) addr (S i) ->
  (let* y := get_pipe p in
   if pipe_empty y then ret (Some (Z.of_nat i)) else
   upd_pipe p (set pi_nread (fun k => u32 (k + 1))) ;;
   ustore8 (addr + Z.of_nat i) (pipe_front y) ;;
   ret None) (acq c (Lpipe p) (read_upto addr i)) = Ok None (acq c (Lpipe p) (read_upto addr (S i))).
Proof.
  intros Hs Hi Hw. unfold read_upto. set (t := set k_mem _ s). set (y := pipe_gets i x).
  destruct (pipe_gets_spec i x Hok ltac:(lia)) as [Hy Hb].
  assert (0 < pipe_count y) as Hc by (unfold y; rewrite <- length_pipe_bytes, Hb, length_drop; lia).
  rewrite <- with_pipe_acq. rewrite (bind_Ok _ _ _ _ _ (get_pipe_Ok p y _)).
  rewrite pipe_empty_count by done. rewrite (proj2 (Z.eqb_neq _ _)) by lia.
  rewrite (bind_Ok _ _ _ _ _ (upd_pipe_Ok _ _ _ _)). fold (pipe_get y).
  destruct (Hw i ltac:(lia)) as [Ha [pa Hpa]].
  destruct (uputs_spec T (k_mem s) (cpu_cr3 cp) addr (take i (pipe_bytes x)) Hs) as [_ Hv _ _ _].
  { intros k Hk. rewrite length_take in Hk. apply Hw. lia. }
  erewrite bind_Ok by (apply (ustore8_Ok c (cpu_push cp) _ _ _ pa);
    [apply (running_acq c cp (Lpipe p) s), Hready|done|by etransitivity; [apply (Hv true); done|exact Hpa]]).
  unfold ret. do 2 f_equal. unfold with_pipe, t, acq. simpl.
  destruct (pipe_bytes x !! i) as [b|] eqn:El; [|apply lookup_ge_None in El; lia].
  assert (b = pipe_front y) as ->.
  { pose proof (pipe_get_bytes y Hy Hc) as E. unfold y at 1 in E. rewrite Hb in E.
    rewrite (drop_S _ _ _ El) in E. congruence. }
  rewrite (take_S_r _ _ _ El). unfold set, set_k_mem, set_k_pipes, set_k_locks. simpl. f_equal.
  rewrite uputs_snoc, length_take, Nat.min_l by lia. done.
Qed.

Lemma piperead_Ok (T : Z -> Prop) addr n :
  0 <= n -> pipe_empty x = false \/ pi_writeopen x = 0 -> uspace_in T (k_mem s) (cpu_cr3 cp) ->
  let r := (Z.to_nat n `min` length (pipe_bytes x))%nat in
  uwritable (k_mem s) (cpu_cr3 cp) addr r ->
  exists s', piperead fuel p addr n s = Ok (Z.of_nat r) s' /\
    s' ≡ₖ set k_ptable (wake (ChPipeWrite p)) (read_upto addr r).
Proof.
  intros Hn Hd Hs r Hw. unfold piperead. rewrite (bind_Ok _ _ _ _ _ (acquire_ready _ _ _ _ Hready)).
  set (body := fun i : Z => _).
  assert (acq c (Lpipe p) s = acq c (Lpipe p) (read_upto addr 0)) as ->.
  { unfold read_upto. simpl. unfold with_pipe, set, set_k_mem, set_k_pipes. simpl.
    rewrite insert_id by done. by destruct s. }
  assert (ready c cp (Lpipe p) (read_upto addr r)) as Hr.
  { by apply (ready_neutral (fun s => with_pipe p (pipe_gets r x)
      (set k_mem (fun m => uputs m (cpu_cr3 cp) addr (take r (pipe_bytes x))) s))). }
  unfold read_upto at 1. rewrite <- with_pipe_acq.
  rewrite (bind_Ok _ _ _ _ _ (pipe_data_Ok _ _ Hd)). cbn [negb]. rewrite with_pipe_acq. fold (read_upto addr 0).
  assert (for_break (seqZ 0 (Z.of_nat r)) body (acq c (Lpipe p) (read_upto addr 0))
          = Ok None (acq c (Lpipe p) (read_upto addr r))) as Hloop.
  { replace r with (length (seqZ 0 (Z.of_nat r))) at 2 by (rewrite length_seqZ; lia).
    apply (for_break_all body (fun i => acq c (Lpipe p) (read_upto addr i))).
    intros i y [-> Hi]%lookup_seqZ0. apply (read_step T); [done|lia|].
    intros k Hk. apply Hw. lia. }
  destruct (wake_release (ChPipeWrite p) (read_upto addr r) (Z.of_nat r) Hr Hlock Hlen) as (s' & E & Es).
  exists s'. split; [|done]. rewrite <- E.
  destruct (decide (Z.of_nat r = n)) as [Hrn|Hrn].
  - rewrite <- Hrn. rewrite (bind_Ok _ _ _ _ _ Hloop). cbn [default]. by rewrite Z.max_r by lia.
  - assert (for_break (seqZ 0 n) body (acq c (Lpipe p) (read_upto addr 0))
            = Ok (Some (Z.of_nat r)) (acq c (Lpipe p) (read_upto addr r))) as Hl2.
    { replace n with (Z.of_nat r + (n - Z.of_nat r)) by lia. rewrite seqZ_app by lia.
      rewrite (for_break_app _ _ _ _ _ Hloop), seqZ_cons by lia. cbn [for_break]. unfold body at 1.
      rewrite Z.add_0_l. unfold read_upto at 1. rewrite <- with_pipe_acq.
      unfold bind at 1. rewrite (bind_Ok _ _ _ _ _ (get_pipe_Ok _ _ _)).
      destruct (pipe_gets_spec r x Hok ltac:(lia)) as [Hy Hb].
      rewrite pipe_empty_count by done. rewrite <- length_pipe_bytes, Hb, drop_ge by lia. done. }
    by rewrite (bind_Ok _ _ _ _ _ Hl2).
Qed.
End pipe_ops.

(** ** What pipes promise *)

(** C33: A write that fits appends its bytes: [pipewrite] of [n] user bytes
    into a pipe with room for them returns [n] without waiting, the contents
    of the pipe are the old ones followed by the bytes, in order, also when
    the counters wrap around, the sleeping readers become runnable, and other
    pipes and memory stay as they were. *)
Theorem pipewrite_appends c cp p fuel s x addr n :
  ready c cp (Lpipe p) s -> lock_free s Lptable -> table_len s ->
  k_pipes s !! p = Some x -> pipe_ok x -> 0 <= n -> pipe_count x + n <= PIPESIZE ->
  ureadable (k_mem s) (cpu_cr3 cp) addr (Z.to_nat n) ->
  exists s' x', pipewrite fuel p addr n s = Ok n s' /\
    k_pipes s' = <[p := x']> (k_pipes s) /\ pipe_ok x' /\
    pipe_bytes x' = pipe_bytes x ++ ubytes (k_mem s) (cpu_cr3 cp) addr (Z.to_nat n) /\
    k_mem s' = k_mem s /\ k_ptable s' = wake (ChPipeRead p) (k_ptable s).
Proof.
  intros Hr Hl Ht Hp Hok Hn Hroom Hrd.
  destruct (pipewrite_Ok c cp p fuel s x Hr Hl Ht Hp Hok addr n Hn Hroom Hrd) as (s' & E & Es).
  eexists s', _. split; [done|]. split; [apply (keq_proj k_pipes _ _ ltac:(done) Es)|].
  destruct (pipe_puts_spec (ubytes (k_mem s) (cpu_cr3 cp) addr (Z.to_nat n)) x Hok) as [H1 H2];
    [rewrite length_ubytes; lia|].
  split_and!; [done|done|..].
  - apply (keq_proj k_mem _ _ ltac:(done) Es).
  - apply (keq_proj k_ptable _ _ ltac:(done) Es).
Qed.

(** C34: A read takes the oldest bytes: [piperead] on a pipe that is not empty,
    or has no writer left, returns without waiting the smaller of [n] and the
    number of bytes in the pipe; it stores the oldest bytes in user memory,
    removes them from the pipe and makes the sleeping writers runnable. *)
Theorem piperead_takes c cp p fuel s x (T : Z -> Prop) addr n :
  ready c cp (Lpipe p) s -> lock_free s Lptable -> table_len s ->
  k_pipes s !! p = Some x -> pipe_ok x -> 0 <= n ->
  pipe_bytes x <> [] \/ pi_writeopen x = 0 ->
  uspace_in T (k_mem s) (cpu_cr3 cp) -> uwritable (k_mem s) (cpu_cr3 cp) addr (Z.to_nat n) ->
  let r := (Z.to_nat n `min` length (pipe_bytes x))%nat in
  exists s' x', piperead fuel p addr n s = Ok (Z.of_nat r) s' /\
    k_pipes s' = <[p := x']> (k_pipes s) /\ pipe_ok x' /\ pipe_bytes x' = drop r (pipe_bytes x) /\
    ubytes (k_mem s') (cpu_cr3 cp) addr r = map u8 (take r (pipe_bytes x)) /\
    (forall a, uaddr a -> is_Some (vtop (k_mem s) (cpu_cr3 cp) false a) ->
       a < addr \/ addr + Z.of_nat r <= a -> uget (k_mem s') (cpu_cr3 cp) a = uget (k_mem s) (cpu_cr3 cp) a) /\
    k_ptable s' = wake (ChPipeWrite p) (k_ptable s).
Proof.
  intros Hr Hl Ht Hp Hok Hn Hd Hs Hw r.
  assert (uwritable (k_mem s) (cpu_cr3 cp) addr r) as Hw' by (intros k Hk; apply Hw; lia).
  destruct (piperead_Ok c cp p fuel s x Hr Hl Ht Hp Hok T addr n Hn) as (s' & E & Es); [|done|done|].
  { destruct Hd as [Hd|Hd]; [left|by right]. rewrite pipe_empty_count by done. apply Z.eqb_neq. intros E0.
    rewrite <- length_pipe_bytes in E0. by destruct (pipe_bytes x). }
  destruct (pipe_gets_spec r x Hok ltac:(lia)) as [H1 H2].
  destruct (uputs_spec T (k_mem s) (cpu_cr3 cp) addr (take r (pipe_bytes x)) Hs) as [_ _ _ Hin Hout].
  { rewrite length_take. intros k Hk. apply Hw'. lia. }
  rewrite length_take, Nat.min_l in Hin, Hout by lia.
  exists s', (pipe_gets r x). rewrite (keq_proj k_mem _ _ ltac:(done) Es).
  split_and!; [done|apply (keq_proj k_pipes _ _ ltac:(done) Es)|done|done|exact Hin|exact Hout|].
  apply (keq_proj k_ptable _ _ ltac:(done) Es).
Qed.

(** Pipes with a closed end do not block: reading an empty pipe without
    writers returns 0, writing to a full pipe without readers returns -1,
    and both leave the pipe and memory unchanged. *)
Theorem pipe_closed_ends c cp p fuel s x addr n :
  ready c cp (Lpipe p) s -> lock_free s Lptable -> table_len s ->
  k_pipes s !! p = Some x -> pipe_ok x -> 0 < n ->
  (pipe_bytes x = [] -> pi_writeopen x = 0 ->
     exists s', piperead fuel p addr n s = Ok 0 s' /\ k_pipes s' = k_pipes s /\ k_mem s' = k_mem s) /\
  (pipe_count x = PIPESIZE -> pi_readopen x = 0 ->
     exists s', pipewrite fuel p addr n s = Ok (-1) s' /\ k_pipes s' = k_pipes s /\ k_mem s' = k_mem s).
Proof.
  intros Hr Hl Ht Hp Hok Hn. split.
  - intros Hb Hw. unfold piperead. rewrite (bind_Ok _ _ _ _ _ (acquire_ready _ _ _ _ Hr)).
    rewrite <- (with_pipe_id p x s Hp), <- with_pipe_acq.
    rewrite (bind_Ok _ _ _ _ _ (pipe_data_Ok _ _ _ _ (or_intror Hw))). cbn [negb].
    match goal with |- context [for_break (seqZ 0 n) ?b] => set (body := b) end.
    assert (for_break (seqZ 0 n) body (with_pipe p x (acq c (Lpipe p) s))
            = Ok (Some 0) (with_pipe p x (acq c (Lpipe p) s))) as El.
    { rewrite seqZ_cons by lia. cbn [for_break]. erewrite bind_Ok; cycle 1.
      - unfold body. rewrite (bind_Ok _ _ _ _ _ (get_pipe_Ok p x _)).
        rewrite pipe_empty_count, <- length_pipe_bytes, Hb by done. reflexivity.
      - done. }
    rewrite (bind_Ok _ _ _ _ _ El), with_pipe_acq, (with_pipe_id p x s Hp).
    destruct (wake_release c cp p (ChPipeWrite p) s 0 Hr Hl Ht) as (s' & E & Es). exists s'. split; [done|].
    split; [apply (keq_proj k_pipes _ _ ltac:(done) Es)|apply (keq_proj k_mem _ _ ltac:(done) Es)].
  - intros Hc Hro. unfold pipewrite. rewrite (bind_Ok _ _ _ _ _ (acquire_ready _ _ _ _ Hr)).
    destruct (release_acq_ret c cp (Lpipe p) s false Hr) as (s' & E & Es). exists s'.
    split; [|split; [apply (keq_proj k_pipes _ _ ltac:(done) Es)|apply (keq_proj k_mem _ _ ltac:(done) Es)]].
    assert (pipe_room fuel p (acq c (Lpipe p) s) = Ok false s') as Er.
    { rewrite <- (with_pipe_id p x s Hp), <- with_pipe_acq.
      assert (pipe_full x = true) as Hf by (rewrite pipe_full_count by done; by apply Z.eqb_eq).
      destruct fuel; simpl; rewrite (bind_Ok _ _ _ _ _ (get_pipe_Ok p x _)), Hf, Hro; simpl;
        by rewrite with_pipe_acq, (with_pipe_id p x s Hp). }
    match goal with |- context [for_break (seqZ 0 n) ?b] => set (body := b) end.
    assert (for_break (seqZ 0 n) body (acq c (Lpipe p) s) = Ok (Some (-1)) s') as El; [|by rewrite (bind_Ok _ _ _ _ _ El)].
    rewrite seqZ_cons by lia. cbn [for_break]. erewrite bind_Ok; cycle 1.
    + unfold body. by rewrite (bind_Ok _ _ _ _ _ Er).
    + done.
Qed.

Lemma lock_free_keq s s' lk : s ≡ₖ s' -> lock_free s lk -> lock_free s' lk.
Proof. intros [_ E] H. unfold lock_free. by rewrite <- E. Qed.

(** What is written to a pipe is what is read from it: [n] bytes written
    to an empty pipe and read back with one [piperead] of [n] arrive in user
    memory unchanged and in order, and the pipe is empty again. *)
Theorem pipe_roundtrip c cp p fuel s x (T : Z -> Prop) addr addr' n :
  ready c cp (Lpipe p) s -> lock_free s Lptable -> table_len s ->
  k_pipes s !! p = Some x -> pipe_ok x -> pipe_bytes x = [] -> 0 < n <= PIPESIZE ->
  uspace_in T (k_mem s) (cpu_cr3 cp) -> ureadable (k_mem s) (cpu_cr3 cp) addr (Z.to_nat n) ->
  uwritable (k_mem s) (cpu_cr3 cp) addr' (Z.to_nat n) ->
  exists s1 s2 x2, pipewrite fuel p addr n s = Ok n s1 /\ piperead fuel p addr' n s1 = Ok n s2 /\
    ubytes (k_mem s2) (cpu_cr3 cp) addr' (Z.to_nat n)
      = map u8 (ubytes (k_mem s) (cpu_cr3 cp) addr (Z.to_nat n)) /\
    k_pipes s2 !! p = Some x2 /\ pipe_bytes x2 = [].
Proof.
  intros Hr Hl Ht Hp Hok Hb Hn Hs Hrd Hw. pose proof (length_pipe_bytes x) as Hc. rewrite Hb in Hc. simpl in Hc.
  destruct (pipewrite_Ok c cp p fuel s x Hr Hl Ht Hp Hok addr n ltac:(lia) ltac:(lia) Hrd) as (s1 & E1 & Es1).
  set (bs := ubytes _ _ addr _) in *. set (x1 := pipe_puts bs x) in *.
  destruct (pipe_puts_spec bs x Hok) as [H1 H2]; [unfold bs; rewrite length_ubytes; lia|]. fold x1 in H1, H2.
  rewrite Hb in H2. simpl in H2.
  assert (ready c cp (Lpipe p) (set k_ptable (wake (ChPipeRead p)) (with_pipe p x1 s))) as Hr1.
  { by apply (ready_neutral (fun s => set k_ptable (wake (ChPipeRead p)) (with_pipe p x1 s))). }
  destruct (ready_keq _ _ _ _ _ (symmetry Es1) Hr1) as (cp1 & Hr2 & [_ Hcr3 _]).
  assert (k_mem s1 = k_mem s) as Hm by apply (keq_proj k_mem _ _ ltac:(done) Es1).
  assert (length bs = Z.to_nat n) as Hbs by apply length_ubytes.
  destruct (piperead_Ok c cp1 p fuel s1 x1 Hr2) with (T := T) (addr := addr') (n := n) as (s2 & E2 & Es2).
  - by eapply lock_free_keq; [symmetry; exact Es1|].
  - unfold table_len. rewrite (keq_proj k_ptable _ _ ltac:(done) Es1). simpl.
    unfold wake, upd_where. by rewrite length_map.
  - rewrite (keq_proj k_pipes _ _ ltac:(done) Es1). apply lookup_insert_eq.
  - done.
  - lia.
  - left. rewrite pipe_empty_count, <- length_pipe_bytes, H2 by done. apply Z.eqb_neq. lia.
  - by rewrite Hm, Hcr3.
  - rewrite H2, Hbs, Nat.min_id, Hm, Hcr3. done.
  - rewrite H2, Hbs, Nat.min_id in E2, Es2. rewrite Z2Nat.id in E2 by lia.
    exists s1, s2, (pipe_gets (Z.to_nat n) x1). split_and!; [done|done|..].
    + rewrite (keq_proj k_mem _ _ ltac:(done) Es2). unfold read_upto. simpl. rewrite H2, Hm, Hcr3.
      rewrite take_ge by lia.
      destruct (uputs_spec T (k_mem s) (cpu_cr3 cp) addr' bs Hs) as [_ _ _ Hin _]; [by rewrite Hbs|].
      by rewrite Hbs in Hin.
    + rewrite (keq_proj k_pipes _ _ ltac:(done) Es2). apply lookup_insert_eq.
    + destruct (pipe_gets_spec (Z.to_nat n) x1 H1) as [_ ->]; [rewrite H2; lia|].
      rewrite H2. apply drop_ge. lia.
Qed.

(** *** Witnesses: a pipe whose counters are about to wrap around *)

Definition pipe_demo (bs : list Z) (ro wo : Z) : pipe :=
  pipe_puts bs (MkPipe (replicate (Z.to_nat PIPESIZE) 0) (2 ^ 32 - 1) (2 ^ 32 - 1) ro wo).
Definition pipe_state (x : pipe) : kstate :=
  with_pipe 0x80005000 x (demo [demo_proc 1 RUNNING ChNull; demo_proc 2 SLEEPING (ChPipeRead 0x80005000)]).

Lemma pipe_demo_spec bs ro wo :
  Z.of_nat (length bs) <= PIPESIZE -> pipe_ok (pipe_demo bs ro wo) /\ pipe_bytes (pipe_demo bs ro wo) = bs.
Proof. intros H. apply pipe_puts_spec; [by split|exact H]. Qed.

Lemma pipe_state_mem x : forall a, demo_tables a -> load8 (k_mem (pipe_state x)) a = load8 demo_mem a.
Proof. done. Qed.

Lemma pipewrite_appends_witness :
  exists s' x', pipewrite 0 0x80005000 100 3 (pipe_state (pipe_demo [7; 8] 1 1)) = Ok 3 s' /\
    k_pipes s' = <[0x80005000 := x']> (k_pipes (pipe_state (pipe_demo [7; 8] 1 1))) /\ pipe_ok x' /\
    pipe_bytes x' = pipe_bytes (pipe_demo [7; 8] 1 1) ++ ubytes demo_mem 0x1000 100 3 /\
    k_mem s' = demo_mem /\
    k_ptable s' = wake (ChPipeRead 0x80005000) (k_ptable (pipe_state (pipe_demo [7; 8] 1 1))).
Proof.
  destruct (pipe_demo_spec [7; 8] 1 1) as [Hok Hb]; [done|].
  apply (pipewrite_appends 0 demo_cpu 0x80005000 0 (pipe_state (pipe_demo [7; 8] 1 1)) (pipe_demo [7; 8] 1 1) 100 3);
    [by apply (ready_neutral (with_pipe _ _)), demo_ready|done|done|apply lookup_insert_eq|done|done| |].
  - rewrite <- length_pipe_bytes, Hb. done.
  - by apply uwritable_readable, demo_writable.
Defined.

Lemma piperead_takes_witness :
  exists s' x', piperead 0 0x80005000 100 5 (pipe_state (pipe_demo [7; 8] 1 1)) = Ok 2 s' /\
    k_pipes s' = <[0x80005000 := x']> (k_pipes (pipe_state (pipe_demo [7; 8] 1 1))) /\ pipe_bytes x' = [] /\
    ubytes (k_mem s') 0x1000 100 2 = [7; 8].
Proof.
  destruct (pipe_demo_spec [7; 8] 1 1) as [Hok Hb]; [done|].
  destruct (piperead_takes 0 demo_cpu 0x80005000 0 (pipe_state (pipe_demo [7; 8] 1 1)) (pipe_demo [7; 8] 1 1)
    demo_tables 100 5) as (s' & x' & E & Ep & _ & Eb & Em & _);
    [by apply (ready_neutral (with_pipe _ _)), demo_ready|done|done|apply lookup_insert_eq|done|done| | | |].
  - left. by rewrite Hb.
  - by apply demo_space.
  - by apply demo_writable.
  - rewrite Hb in E, Eb, Em. exists s', x'. split_and!; [exact E|exact Ep|exact Eb|exact Em].
Defined.

Lemma pipe_closed_ends_witness :
  (pipe_bytes (pipe_demo [] 1 0) = [] -> pi_writeopen (pipe_demo [] 1 0) = 0 ->
     exists s', piperead 0 0x80005000 100 5 (pipe_state (pipe_demo [] 1 0)) = Ok 0 s' /\
       k_pipes s' = k_pipes (pipe_state (pipe_demo [] 1 0)) /\ k_mem s' = demo_mem) /\
  (pipe_count (pipe_demo [] 1 0) = PIPESIZE -> pi_readopen (pipe_demo [] 1 0) = 0 ->
     exists s', pipewrite 0 0x80005000 100 5 (pipe_state (pipe_demo [] 1 0)) = Ok (-1) s' /\
       k_pipes s' = k_pipes (pipe_state (pipe_demo [] 1 0)) /\ k_mem s' = demo_mem).
Proof.
  destruct (pipe_demo_spec [] 1 0) as [Hok Hb]; [done|].
  apply (pipe_closed_ends 0 demo_cpu 0x80005000 0 (pipe_state (pipe_demo [] 1 0)) (pipe_demo [] 1 0) 100 5);
    [by apply (ready_neutral (with_pipe _ _)), demo_ready|done|done|apply lookup_insert_eq|done|done].
Defined.

Lemma pipe_roundtrip_witness :
  exists s1 s2 x2, pipewrite 0 0x80005000 0 5 (pipe_state (pipe_demo [] 1 1)) = Ok 5 s1 /\
    piperead 0 0x80005000 2048 5 s1 = Ok 5 s2 /\
    ubytes (k_mem s2) 0x1000 2048 5 = map u8 (ubytes demo_mem 0x1000 0 5) /\
    k_pipes s2 !! 0x80005000 = Some x2 /\ pipe_bytes x2 = [].
Proof.
  destruct (pipe_demo_spec [] 1 1) as [Hok Hb]; [done|].
  apply (pipe_roundtrip 0 demo_cpu 0x80005000 0 (pipe_state (pipe_demo [] 1 1)) (pipe_demo [] 1 1) demo_tables 0 2048 5);
    [by apply (ready_neutral (with_pipe _ _)), demo_ready|done|done|apply lookup_insert_eq|done|done|done|
     by apply demo_space|by apply uwritable_readable, demo_writable|by apply demo_writable].
Defined.
