(* ===== verification/Console.v ===== *)
(** * Console input, the console device and the keyboard (console.c, kbd.c, uart.c)

    [consoleintr] is called with the routine that reads a device; here it
    gets the bytes waiting at the device and the routine that turns one of
    them into a character.  The line being edited is
    [input.buf[w..e)], completed lines not read yet are [input.buf[r..w)]. *)

From stdpp Require Import base numbers list list_numbers gmap strings.
From S2P Require Import Prelude Kmonad Params Ring Kstate Spinlock KString Kalloc Cprintf Vm Umem Sched Sleeplock Bio Log Fs Pipe.

Local Open Scope Z_scope.

(** ** kbd.h *)

Definition SHIFT : Z := 1.
Definition CTL : Z := 2.
Definition ALT : Z := 4.
Definition CAPSLOCK : Z := 8.
Definition NUMLOCK : Z := 16.
Definition SCROLLLOCK : Z := 32.
Definition E0ESC : Z := 64.

(** A table of 256 entries: the first ones, then designated ones, else 0. *)
Definition table (front : list Z) (rest : list (Z * Z)) (i : Z) : Z :=
  match find (fun e => fst e =? i) rest with
  | Some (_, c) => c
  | None => nthZ front (Z.to_nat i)
  end.

Definition shiftcode : Z -> Z :=
  table [] [(0x1D, CTL); (0x2A, SHIFT); (0x36, SHIFT); (0x38, ALT); (0x9D, CTL); (0xB8, ALT)].
Definition togglecode : Z -> Z := table [] [(0x3A, CAPSLOCK); (0x45, NUMLOCK); (0x46, SCROLLLOCK)].

(** KEY_UP, KEY_DN, KEY_PGUP, KEY_PGDN, KEY_LF, KEY_RT, KEY_HOME, KEY_END,
    KEY_INS, KEY_DEL. *)
Definition special_keys : list (Z * Z) :=
  [(0xC8, 0xE2); (0xD0, 0xE3); (0xC9, 0xE6); (0xD1, 0xE7); (0xCB, 0xE4); (0xCD, 0xE5);
   (0x97, 0xE0); (0xCF, 0xE1); (0xD2, 0xE8); (0xD3, 0xE9)].

(** The keypad, at 0x47. *)
Definition keypad : list Z := bytes "789-456+1230.".

Definition normalmap : Z -> Z :=
  table ([0; 0x1B] ++ bytes "1234567890-=" ++ [8; 9] ++ bytes "qwertyuiop[]" ++ [10; 0] ++
         bytes "asdfghjkl;'`" ++ [0] ++ bytes "\zxcvbnm,./" ++ [0] ++ bytes "*" ++ [0; 32] ++
         replicate 13 0 ++ keypad)
    ([(0x9C, 10); (0xB5, 47)] ++ special_keys).

Definition shiftmap : Z -> Z :=
  table ([0; 0x1B] ++ bytes "!@#$%^&*()_+" ++ [8; 9] ++ bytes "QWERTYUIOP{}" ++ [10; 0] ++
         bytes "ASDFGHJKL:" ++ [34] ++ bytes "~" ++ [0] ++ bytes "|ZXCVBNM<>?" ++ [0] ++ bytes "*" ++
         [0; 32] ++ replicate 13 0 ++ keypad)
    ([(0x9C, 10); (0xB5, 47)] ++ special_keys).

(** [C(x)] stored in an [uchar]. *)
Definition ctl (l : list Z) : list Z := map (fun x => u8 (x - 64)) l.

Definition ctlmap : Z -> Z :=
  table (replicate 16 0 ++ ctl (bytes "QWERTYUIOP") ++ [0; 0; 13; 0] ++ ctl (bytes "ASDFGHJKL") ++
         [0; 0; 0; 0] ++ ctl (bytes "\ZXCVBNM") ++ [0; 0] ++ ctl (bytes "/") ++ [0; 0])
    ([(0x9C, 13)] ++ [(0xB5, u8 (47 - 64))] ++ special_keys).

Definition charcode (k : Z) : Z -> Z :=
  if k =? 0 then normalmap else if k =? 1 then shiftmap else ctlmap.

(** ** kbd.c *)

(** [kbdgetc] on a scan code: the new shift state and the character. *)
Definition kbd_step (shift data : Z) : Z * Z :=
  if data =? 0xE0 then (Z.lor shift E0ESC, 0)
  else if negb (Z.land data 0x80 =? 0) then
    let data := if negb (Z.land shift E0ESC =? 0) then data else Z.land data 0x7F in
    (Z.land shift (Z.lnot (Z.lor (shiftcode data) E0ESC)), 0)
  else
  let '(data, shift) :=
    if negb (Z.land shift E0ESC =? 0) then (Z.lor data 0x80, Z.land shift (Z.lnot E0ESC))
    else (data, shift) in
  let shift := Z.lxor (Z.lor shift (shiftcode data)) (togglecode data) in
  let c := charcode (Z.land shift (Z.lor CTL SHIFT)) data in
  let c :=
    if negb (Z.land shift CAPSLOCK =? 0) then
      if (97 <=? c) && (c <=? 122) then c + (65 - 97)
      else if (65 <=? c) && (c <=? 90) then c + (97 - 65)
      else c
    else c in
  (shift, c).

Definition kbdgetc (data : Z) : KM Z :=
  let* shift := gets k_shift in
  let '(shift, c) := kbd_step shift data in
  modify (fun s => s <| k_shift := shift |>) ;;
  ret c.

(** ** console.c: input *)

Definition INPUT_BUF : Z := 128.
Definition Ctrl (x : Z) : Z := x - 64.

Definition get_in : KM input := gets k_input.
Definition upd_in (f : input -> input) : KM unit := modify (set k_input f).
Definition in_at (x : input) (k : Z) : Z := nthZ (in_buf x) (Z.to_nat (k mod INPUT_BUF)).

(** Erase the last character of the line being edited. *)
Definition erase : KM unit :=
  upd_in (set in_e (fun e => u32 (e - 1))) ;;
  consputc BACKSPACE.

(** The loop of control-U; [e] comes nearer to [w] in each round. *)
Fixpoint kill_line (n : nat) : KM unit :=
  let* x := get_in in
  if (in_e x =? in_w x) || (in_at x (u32 (in_e x - 1)) =? 10) then ret tt else
  match n with
  | O => nofuel
  | S n => erase ;; kill_line n
  end.

(** One character typed; the result says whether control-P was. *)
Definition console_char (c : Z) : KM bool :=
  if c =? Ctrl 80 then ret true else
  if c =? Ctrl 85 then
    let* x := get_in in
    kill_line (Z.to_nat (u32 (in_e x - in_w x))) ;;
    ret false
  else if (c =? Ctrl 72) || (c =? 0x7f) then
    let* x := get_in in
    when (negb (in_e x =? in_w x)) erase ;;
    ret false
  else
    let* x := get_in in
    when (negb (c =? 0) && (u32 (in_e x - in_r x) <? INPUT_BUF)) (
      let c := if c =? 13 then 10 else c in
      upd_in (fun x => x <| in_buf := <[Z.to_nat (in_e x mod INPUT_BUF) := u8 c]> (in_buf x) |>
                         <| in_e := u32 (in_e x + 1) |>) ;;
      consputc c ;;
      let* x := get_in in
      when ((c =? 10) || (c =? Ctrl 68) || (in_e x =? u32 (in_r x + INPUT_BUF))) (
        upd_in (fun x => x <| in_w := in_e x |>) ;;
        wakeup ChInput)) ;;
    ret false.

Definition consoleintr (callerpcs : nat -> list Z) (getc : Z -> KM Z) (waiting : list Z) : KM unit :=
  acquire Lcons ;;
  let* doprocdump := for_fold waiting false (fun dump d =>
    let* c := getc d in
    let* p := console_char c in
    ret (dump || p)) in
  release Lcons ;;
  when doprocdump (procdump callerpcs).

Definition kbdintr (callerpcs : nat -> list Z) (waiting : list Z) : KM unit :=
  consoleintr callerpcs kbdgetc waiting.
(** uart.c: [uartgetc] returns the byte received. *)
Definition uartintr (callerpcs : nat -> list Z) (waiting : list Z) : KM unit :=
  consoleintr callerpcs ret waiting.

(** ** console.c: the device *)

(** The inner [while] loop of [consoleread]: [false] when killed. *)
Fixpoint cons_wait (fuel : nat) : KM bool :=
  let* x := get_in in
  if negb (in_r x =? in_w x) then ret true else
  let* k := cur_killed in
  if (k : bool) then ret false else
  sleep ChInput (Some Lcons) ;;
  match fuel with O => nofuel | S fuel => cons_wait fuel end.

Section console.
Context {D : Disk} (fuel : nat).

(** The outer loop: [n] characters to go; [None] when killed. *)
Fixpoint consoleread_loop (rounds : nat) (dst : ptr) (n target : Z) : KM (option (Z * ptr)) :=
  match rounds with
  | O => ret (Some (n, dst))
  | S rounds =>
      let* ok := cons_wait fuel in
      if negb ok then ret None else
      let* x := get_in in
      let c := in_at x (in_r x) in
      upd_in (set in_r (fun r => u32 (r + 1))) ;;
      if c =? Ctrl 68 then
        when (n <? target) (upd_in (set in_r (fun r => u32 (r - 1)))) ;;
        ret (Some (n, dst))
      else
      let* dst := put dst [c] in
      let n := n - 1 in
      if c =? 10 then ret (Some (n, dst)) else consoleread_loop rounds dst n target
  end.

Definition consoleread (ip : nat) (dst : ptr) (n : Z) : KM (Z * ptr) :=
  iunlock (Some ip) ;;
  let target := u32 n in
  acquire Lcons ;;
  let* r := consoleread_loop (Z.to_nat n) dst n target in
  release Lcons ;;
  ilock fuel (Some ip) ;;
  match r with
  | None => ret (-1, dst)
  | Some (n, dst) => ret (i32 (target - n), dst)
  end.

(** [for(i = 0; i < n; i++) consputc(buf[i] & 0xff)]. *)
Fixpoint consolewrite_loop (n : nat) (src : ptr) : KM unit :=
  match n with
  | O => ret tt
  | S n =>
      let* (b, src) := fetch src 1 in
      consputc (Z.land (nthZ b 0) 0xff) ;;
      consolewrite_loop n src
  end.

Definition consolewrite (ip : nat) (buf : ptr) (n : Z) : KM Z :=
  iunlock (Some ip) ;;
  acquire Lcons ;;
  consolewrite_loop (Z.to_nat n) buf ;;
  release Lcons ;;
  ilock fuel (Some ip) ;;
  ret n.

(** [devsw] after [consoleinit]. *)
Definition console_devsw (major : Z) : devops :=
  if major =? CONSOLE then MkDev (Some consoleread) (Some consolewrite) else MkDev None None.
End console.

Definition consoleinit : KM unit :=
  initlock Lcons ;;
  modify (fun s => s <| k_locking := 1 |>).
