(* ===== verification/File.v ===== *)
(** * Open files (file.c) and [pipealloc]

    A [struct file*] is an index into the table [k_ftable]. *)

From stdpp Require Import base numbers list list_numbers gmap strings.
From S2P Require Import Prelude Kmonad Params Kstate Spinlock KString Kalloc Cprintf Vm Umem Sched Sleeplock Bio Log Fs Pipe.

Local Open Scope Z_scope.

(** ** The code *)

Definition fileinit : KM unit := initlock Lftable.

Definition filealloc : KM (option nat) :=
  acquire Lftable ;;
  let* r := for_break (seq 0 NFILE) (fun i =>
    let* f := get_f i in
    if f_ref f =? 0 then
      upd_f i (fun f => f <| f_ref := 1 |>) ;;
      release Lftable ;;
      ret (Some i)
    else ret None) in
  match r with
  | Some i => ret (Some i)
  | None => release Lftable ;; ret None
  end.

Definition filedup (i : nat) : KM nat :=
  acquire Lftable ;;
  let* f := get_f i in
  if f_ref f <? 1 then panic "filedup" else
  upd_f i (set f_ref (fun n => n + 1)) ;;
  release Lftable ;;
  ret i.

Section file.
Context {D : Disk} (fuel : nat) (devsw : Z -> devops).

Definition fileclose (i : nat) : KM unit :=
  acquire Lftable ;;
  let* f := get_f i in
  if f_ref f <? 1 then panic "fileclose" else
  upd_f i (set f_ref (fun n => n - 1)) ;;
  let* f := get_f i in
  if 0 <? f_ref f then release Lftable else
  let* ff := get_f i in
  upd_f i (fun f => f <| f_ref := 0 |> <| f_type := FD_NONE |>) ;;
  release Lftable ;;
  match f_type ff with
  | FD_PIPE => pipeclose (f_pipe ff) (f_writable ff)
  | FD_INODE =>
      begin_op fuel ;;
      let* ip := deref "null inode" (f_ip ff) in
      iput fuel ip ;;
      end_op fuel
  | FD_NONE => ret tt
  end.

Definition filestat (i : nat) (st : Z) : KM Z :=
  let* f := get_f i in
  match f_type f with
  | FD_INODE =>
      ilock fuel (f_ip f) ;;
      let* f := get_f i in
      let* ip := deref "null inode" (f_ip f) in
      stati ip st ;;
      let* f := get_f i in
      iunlock (f_ip f) ;;
      ret 0
  | _ => ret (-1)
  end.

Definition fileread (i : nat) (addr n : Z) : KM Z :=
  let* f := get_f i in
  if f_readable f =? 0 then ret (-1) else
  match f_type f with
  | FD_PIPE => piperead fuel (f_pipe f) addr n
  | FD_INODE =>
      ilock fuel (f_ip f) ;;
      let* f := get_f i in
      let* ip := deref "null inode" (f_ip f) in
      let* (r, _) := readi fuel devsw ip (PUser addr) (f_off f) (u32 n) in
      when (0 <? r) (upd_f i (set f_off (fun o => u32 (o + r)))) ;;
      let* f := get_f i in
      iunlock (f_ip f) ;;
      ret r
  | FD_NONE => panic "fileread"
  end.

(** Bytes one transaction of [filewrite] may write. *)
Definition max_write : Z := (MAXOPBLOCKS - 1 - 1 - 2) / 2 * 512.

(** A round of the loop of [filewrite] up to its [end_op]: the result of
    [writei]. *)
Definition filewrite_round (k : nat) (addr n1 : Z) : KM Z :=
  begin_op fuel ;;
  let* f := get_f k in
  ilock fuel (f_ip f) ;;
  let* f := get_f k in
  let* ip := deref "null inode" (f_ip f) in
  let* r := writei fuel devsw ip (PUser addr) (f_off f) n1 in
  when (0 <? r) (upd_f k (set f_off (fun o => u32 (o + r)))) ;;
  let* f := get_f k in
  iunlock (f_ip f) ;;
  ret r.

(** The bytes of the round at [i]. *)
Definition chunk (i n : Z) : Z := if max_write <? n - i then max_write else n - i.

(** The loop of [filewrite]; each full round writes [max_write] bytes. *)
Fixpoint filewrite_loop (rounds : nat) (k : nat) (addr i n : Z) : KM Z :=
  if negb (i <? n) then ret i else
  match rounds with
  | O => nofuel
  | S rounds =>
      let n1 := chunk i n in
      let* r := filewrite_round k (addr + i) n1 in
      end_op fuel ;;
      if r <? 0 then ret i else
      if negb (r =? n1) then panic "short filewrite" else
      filewrite_loop rounds k addr (i + r) n
  end.

Definition filewrite (k : nat) (addr n : Z) : KM Z :=
  let* f := get_f k in
  if f_writable f =? 0 then ret (-1) else
  match f_type f with
  | FD_PIPE => pipewrite fuel (f_pipe f) addr n
  | FD_INODE =>
      let* i := filewrite_loop (S (Z.to_nat (n / max_write))) k addr 0 n in
      ret (if i =? n then n else -1)
  | FD_NONE => panic "filewrite"
  end.

(** ** pipe.c: [pipealloc]

    The data of a new pipe is what the page held, after the spinlock (52
    bytes) at its start. *)
Definition new_pipe (m : mem) (p : Z) : pipe :=
  MkPipe (loads m (V2P p + 52) (Z.to_nat PIPESIZE)) 0 0 1 1.

(** The two files, or [None] for the return value -1; no pipe has been made
    on the way to [bad], so there is no page to free. *)
Definition pipealloc : KM (option (nat * nat)) :=
  let* f0 := filealloc in
  match f0 with
  | None => ret None
  | Some r =>
      let* f1 := filealloc in
      match f1 with
      | None => fileclose r ;; ret None
      | Some w =>
          let* p := kalloc in
          if p =? 0 then fileclose r ;; fileclose w ;; ret None else
          modify (fun s => set k_pipes (insert p (new_pipe (k_mem s) p)) s) ;;
          initlock (Lpipe p) ;;
          upd_f r (fun f => f <| f_type := FD_PIPE |> <| f_readable := 1 |> <| f_writable := 0 |>
                              <| f_pipe := p |>) ;;
          upd_f w (fun f => f <| f_type := FD_PIPE |> <| f_readable := 0 |> <| f_writable := 1 |>
                              <| f_pipe := p |>) ;;
          ret (Some (r, w))
      end
  end.
End file.
