(* ===== verification/Writefile.v ===== *)
(** * Writing an open file (file.c, fs.c, log.c)

    [filewrite] cuts a write into transactions of at most [max_write] bytes. The
    theorem follows a [write] system call from the bytes in user memory to the
    file on the disk, and says what a machine that stops in the middle leaves. *)

From stdpp Require Import base functions numbers list list_numbers sets gmap strings.
From S2P Require Import Prelude Kmonad Params Kstate Spinlock KString Kalloc Cprintf Vm Umem Demo Sched Thread Sleeplock Bio Cache Log Commit Fs Blockmap Inode Filewrite Pipe File.

Local Open Scope Z_scope.

Section at_file.
Context {D : Disk} (fuel : nat) (devsw : Z -> devops) (dev size : Z) {DL : DiskLaws D dev size} (me : nat) (pid ls : Z).
Context (o cm : Z) (dk : history) (sb : superblock) (ds : Z) {Hlay : Layout size ls sb ds}.

Abbreviation vw := (vw dev).
Abbreviation file_at := (file_at dev size me pid ls o cm dk sb ds).

(** ** The lock of an inode in a transaction *)

Lemma file_at_same i ip hs s s' : file_at i ip hs s -> holds dev size me pid [] hs None s' ->
  k_log s' = k_log s -> k_disk s' = k_disk s -> k_sb s' = k_sb s -> k_icache s' = k_icache s -> (forall n, vw s' n = vw s n) ->
  file_at i ip hs s'.
Proof.
  intros [[Hh Hl Hb Hs Ho Hc Hd] Hsb Hip Hdv Hm Hok] Hh' El Ed Esb Ei V. split.
  - split; [done| |done|by rewrite El..|by rewrite Ed]. destruct Hl. by split; rewrite El.
  - by rewrite Esb.
  - by rewrite Ei.
  - done.
  - intros b Hb'. rewrite (used_ext (vw s)) by done. by apply Hm.
  - by apply (file_ok_ext (vw s)).
Qed.

Lemma file_at_upto i ip hs s s' : file_at i ip hs s -> thr me [] s' -> upto s s' -> file_at i ip hs s'.
Proof.
  intros Hf Ht E. eapply file_at_same; [done|by eapply holds_upto; [apply Hf|..]| | | | |].
  - by apply (upto_proj k_log).
  - by apply (upto_proj k_disk).
  - by apply (upto_proj k_sb).
  - by apply (upto_proj k_icache).
  - intros n. by apply vw_upto.
Qed.

Lemma file_at_wake ch i ip hs s s' : file_at i ip hs s -> thr me [] s' -> upto (set k_ptable (wake ch) s) s' -> file_at i ip hs s'.
Proof.
  intros Hf Ht E. eapply file_at_same; [done|by eapply holds_wake; [apply Hf|..]| | | | |].
  - by rewrite (upto_proj k_log _ _ ltac:(done) E).
  - by rewrite (upto_proj k_disk _ _ ltac:(done) E).
  - by rewrite (upto_proj k_sb _ _ ltac:(done) E).
  - by rewrite (upto_proj k_icache _ _ ltac:(done) E).
  - intros n. by rewrite (vw_upto dev _ _ n E).
Qed.

Lemma slset_icset i ip v s : k_icache s !! i = Some ip -> slset (SLinode i) v s = icset i (ip <| i_lock := v |>) s.
Proof.
  intros H. exact (f_equal (fun r => match r with Ok _ t => t | _ => s end) (upd_i_Ok i ip (fun ip => ip <| i_lock := v |>) s H)).
Qed.

Lemma file_at_pid i ip hs s : file_at i ip hs s -> exists p, k_ptable s !! me = Some p /\ p_pid p = pid.
Proof.
  intros Hf. pose proof (co_pid _ _ _ _ (ho_ok _ _ _ _ _ _ _ _ (tx_holds _ _ _ (fa_tx _ _ _ _ Hf)))) as H.
  destruct (k_ptable s !! me) as [p|]; [|done]. exists p. split; [done|]. by injection H.
Qed.

Lemma upto_others s s' : upto s s' -> others s' = others s.
Proof. intros E. unfold others, rest. by rewrite E. Qed.

Lemma wp_ilock i ip hs s (Q : unit -> kstate -> Prop) :
  file_at i ip hs s -> 1 <= i_ref ip -> i_valid ip <> 0 -> sl_locked (i_lock ip) = 0 ->
  (forall s', file_at i (ip <| i_lock := MkSleeplock 1 pid |>) hs s' -> others s' = others s -> (forall n, vw s' n = vw s n) -> Q tt s') ->
  wp (ilock fuel (Some i)) Q s.
Proof.
  intros Hf Href Hv Hl HQ. pose proof (fa_ip _ _ _ _ Hf) as Hip. unfold ilock. apply wp_bind. eapply wp_of_eq; [by apply get_i_Ok|].
  rewrite (proj2 (Z.ltb_ge _ _)) by lia. apply wp_bind.
  eapply (wp_acquiresleep me [] (SLinode i) s); [apply Hf|apply not_elem_of_nil|simpl; by rewrite Hip|done|]. intros p s1 Hp Ht U.
  destruct (file_at_pid _ _ _ _ Hf) as (p' & Hp' & Epid). rewrite Hp in Hp'. injection Hp' as <-. rewrite Epid, (slset_icset i ip) in U by done.
  assert (file_at i (ip <| i_lock := MkSleeplock 1 pid |>) hs s1) as F1.
  { eapply file_at_upto; [|done|exact U]. apply (file_at_icset i ip); [done|by destruct ip..]. }
  apply wp_bind. eapply wp_of_eq; [apply get_i_Ok, F1|]. replace (i_valid _) with (i_valid ip) by (by destruct ip).
  rewrite (proj2 (Z.eqb_neq _ _)) by done. apply wp_ret. apply HQ; [done|by rewrite (upto_others _ _ U)|].
  intros n. by rewrite (vw_upto dev _ _ n U).
Qed.

Lemma wp_iunlock i ip hs s (Q : unit -> kstate -> Prop) :
  file_at i ip hs s -> 1 <= i_ref ip -> i_lock ip = MkSleeplock 1 pid ->
  (forall s', file_at i (ip <| i_lock := sleeplock0 |>) hs s' -> others s' = others s -> (forall n, vw s' n = vw s n) -> Q tt s') ->
  wp (iunlock (Some i)) Q s.
Proof.
  intros Hf Href Hl HQ. pose proof (fa_ip _ _ _ _ Hf) as Hip. destruct (file_at_pid _ _ _ _ Hf) as (p & Hp & Epid). unfold iunlock. apply wp_bind.
  eapply (wp_holdingsleep me [] (SLinode i) s); [apply Hf|apply not_elem_of_nil|simpl; by rewrite Hip|by rewrite Hl, <- Epid|done|]. intros s1 Ht1 U1.
  pose proof (file_at_upto _ _ _ _ _ Hf Ht1 U1) as F1. pose proof (fa_ip _ _ _ _ F1) as Hip1.
  cbn [negb]. apply wp_bind. eapply wp_of_eq; [by apply get_i_Ok|]. rewrite (proj2 (Z.ltb_ge _ _)) by lia.
  eapply (wp_releasesleep me [] (SLinode i) s1); [done|apply not_elem_of_nil|simpl; by rewrite Hip1|apply not_elem_of_nil|]. intros s2 Ht2 U2.
  rewrite (slset_icset i ip) in U2 by done. apply HQ.
  - eapply file_at_wake; [|done|exact U2]. apply (file_at_icset i ip); [done|by destruct ip..].
  - rewrite (upto_others _ _ U2), <- (upto_others _ _ U1). done.
  - intros n. exact (eq_trans (vw_upto dev _ _ n U2) (vw_upto dev _ _ n U1)).
Qed.

Lemma file_at_ftable i ip hs g s : file_at i ip hs s -> file_at i ip hs (set k_ftable g s).
Proof.
  intros Hf. eapply file_at_same; [done| |done..]. destruct (tx_holds _ _ _ (fa_tx _ _ _ _ Hf)) as [Ht [Hb (l & Hl & Hperm) Hp Hd] Hn Hdi Hk].
  split; [|split; [done|by exists l|done|done]|done|done|done]. by apply (thr_neutral (set k_ftable g)).
Qed.
End at_file.

(** ** The transactions of [filewrite]

    [commits i s m s1]: the loop of [filewrite], in state [s] after [i] bytes,
    comes to the [end_op] of the transaction that writes the bytes from [m] on,
    in state [s1]. *)
Inductive commits {D : Disk} (fuel : nat) (devsw : Z -> devops) (k : nat) (addr n : Z) : Z -> kstate -> Z -> kstate -> Prop :=
  | commits_here i s s1 :
      i < n -> filewrite_round fuel devsw k (addr + i) (chunk i n) s = Ok (chunk i n) s1 -> commits fuel devsw k addr n i s i s1
  | commits_later i s s1 s2 m s3 :
      i < n -> filewrite_round fuel devsw k (addr + i) (chunk i n) s = Ok (chunk i n) s1 -> end_op fuel s1 = Ok tt s2 ->
      commits fuel devsw k addr n (i + chunk i n) s2 m s3 -> commits fuel devsw k addr n i s m s3.

(** ** A round of [filewrite] *)

Section write.
Context {D : Disk} (fuel : nat) (devsw : Z -> devops) (dev size : Z) {DL : DiskLaws D dev size} (me : nat) (pid ls : Z).
Context (sb : superblock) (ds : Z) {Hlay : Layout size ls sb ds}.

Abbreviation vw := (vw dev).
Abbreviation open_file := (open_file dev size me pid ls sb ds).
Abbreviation file_in_tx dk := (file_at dev size me pid ls 1 0 dk sb ds).
Abbreviation file_written := (file_written sb ds).

(** Entry [k] of the file table is a file open for writing, entry [i] of the
    inode cache, that nobody has locked. *)
Record write_open (k : nat) (f : file) (i : nat) (ip : inode) (s : kstate) : Prop := {
  wf_open : open_file i ip s;
  wf_file : k_ftable s !! k = Some f;
  wf_type : f_type f = FD_INODE;
  wf_ip : f_ip f = Some i;
  wf_writable : f_writable f <> 0;
  wf_off : 0 <= f_off f <= i_size ip;
  wf_lock : i_lock ip = sleeplock0;
  wf_ref : 1 <= i_ref ip;
  wf_valid : i_valid ip <> 0
}.

(** What a process sees of its memory. *)
Definition same_user (s s' : kstate) : Prop := user_pd s' = user_pd s /\ k_mem s' = k_mem s.
#[local] Instance same_user_trans : Transitive same_user.
Proof. intros ? ? ? [E1 E2] [E3 E4]. split; [exact (eq_trans E3 E1)|exact (eq_trans E4 E2)]. Qed.
Lemma others_same_user s s' : others s' = others s -> same_user s s'.
Proof. intros E. split; [exact (others_proj user_pd s s' (fun x => erase_user_pd x) E)|by apply (others_proj k_mem)]. Qed.
Lemma user_has_same s s' va bs : same_user s s' -> user_has s va bs -> user_has s' va bs.
Proof. intros [E1 E2]. unfold user_has. by rewrite E1, E2. Qed.

Lemma file_written_lock v ip v' ip' off bs l : file_written v ip v' ip' off bs ->
  file_written v (ip <| i_lock := l |>) v' (ip' <| i_lock := l |>) off bs.
Proof.
  intros [W1 W2 W3 W4 W5 W6 W7 W8 W9]. assert (i_addrs (ip <| i_lock := l |>) = i_addrs ip) as Ea by (by destruct ip).
  assert (i_addrs (ip' <| i_lock := l |>) = i_addrs ip') as Ea' by (by destruct ip').
  split; [|by destruct ip, ip'..]. rewrite W1 at 1. by destruct ip.
Qed.

(** What a round leaves to its [end_op]. *)
Record round_done (k : nat) (f : file) (i : nat) (ip : inode) (bs : list Z) (s : kstate) (ip' : inode) (hs : list Z) (s1 : kstate) : Prop := {
  rd_tx : file_in_tx (k_disk s) i ip' hs s1;
  rd_log : (length hs <= 25)%nat;
  rd_written : file_written (vw s) ip (vw s1) ip' (Z.to_nat (f_off f)) bs;
  rd_room m : room sb (8 + m) (vw s) -> room sb m (vw s1);
  rd_file : k_ftable s1 = <[k := f <| f_off := f_off f + Z.of_nat (length bs) |>]> (k_ftable s);
  rd_user : same_user s s1
}.

Lemma upto_same_user s s' : upto s s' -> same_user s s'.
Proof. intros E. by apply others_same_user, upto_others. Qed.

Lemma get_f_Ok k f s : k_ftable s !! k = Some f -> get_f k s = Ok f s.
Proof. intros H. unfold get_f. cbn. by rewrite H. Qed.
Lemma upd_f_Ok k f g s : k_ftable s !! k = Some f -> upd_f k g s = Ok tt (set k_ftable (insert k (g f)) s).
Proof.
  intros H. unfold upd_f, modify. f_equal. unfold set, set_k_ftable. simpl. f_equal. apply list_eq. intros j. rewrite list_lookup_alter.
  case_decide as Hd; [subst j|by rewrite list_lookup_insert_ne]. by rewrite H, list_lookup_insert_eq by (by eapply lookup_lt_Some).
Qed.

(** The [writei] of a round and the new offset. *)
Lemma wp_round_write f i ip hs s addr bs (Q : Z -> kstate -> Prop) dk :
  file_in_tx dk i ip hs s -> hs = [] -> user_has s addr bs -> i_type ip <> T_DEV -> sized (vw s) ip -> shorts ip -> inum_ok sb (i_inum ip) ->
  0 <= f_off f <= i_size ip -> (length bs <= 1536)%nat -> f_off f + Z.of_nat (length bs) <= MAXFILE * BSIZE ->
  mapped (vw s) (i_addrs ip) (Z.to_nat (f_off f)) (length bs) \/ room sb 8 (vw s) ->
  (forall ip' hs' s', file_in_tx dk i ip' hs' s' -> (length hs' <= 25)%nat -> others s' = others s ->
     (forall m, room sb (8 + m) (vw s) -> room sb m (vw s')) ->
     file_written (vw s) ip (vw s') ip' (Z.to_nat (f_off f)) bs -> Q (Z.of_nat (length bs)) s') ->
  wp (writei fuel devsw i (PUser addr) (f_off f) (Z.of_nat (length bs))) Q s.
Proof.
  intros Hf -> Hu Hty Hsz Hsh Hj Hoff Hlen Hmax Hor HQ. pose proof (span_small (Z.to_nat (f_off f)) (length bs) Hlen) as Hspan.
  change (MAXFILE * BSIZE) with 71680 in Hmax.
  eapply (wp_writei fuel (dev := dev) (size := size) (ls := ls) (o := 1) (sb := sb) (ds := ds)); [lia|exact Hf|exact Hu|done|done|done|done|lia|lia|].
  change (MAXFILE * BSIZE) with 71680. rewrite !(proj2 (Z.ltb_ge _ _)) by lia. cbn [orb]. split_and!; [simpl; lia| |].
  - destruct Hor as [Hmp|Hr]; [by left|right]. eapply room_le; [|exact Hr]. lia.
  - intros ip' hs' s' F' L' O' _ R' W. eapply HQ; [exact F'|simpl in L'; lia|done| |done]. intros m Hr. apply R'. eapply room_le; [|exact Hr]. lia.
Qed.

(** The end of a round. *)
Lemma wp_round_end k f i ip hs s s3 ip3 bs (Q : Z -> kstate -> Prop) :
  write_open k f i ip s -> (0 < length bs)%nat -> f_off f + Z.of_nat (length bs) <= MAXFILE * BSIZE ->
  file_in_tx (k_disk s) i ip3 hs s3 -> (length hs <= 25)%nat -> (forall m, room sb (8 + m) (vw s) -> room sb m (vw s3)) ->
  file_written (vw s) (ip <| i_lock := MkSleeplock 1 pid |>) (vw s3) ip3 (Z.to_nat (f_off f)) bs ->
  k_ftable s3 = k_ftable s -> same_user s s3 ->
  (forall ip' hs s1, round_done k f i ip bs s ip' hs s1 -> Q (Z.of_nat (length bs)) s1) ->
  wp (when (0 <? Z.of_nat (length bs)) (upd_f k (set f_off (fun o => u32 (o + Z.of_nat (length bs))))) ;;
      let* f := get_f k in iunlock (f_ip f) ;; ret (Z.of_nat (length bs))) Q s3.
Proof.
  intros [Hf Hk _ Hi _ Hoff Hlk Href Hval] Hlen Hmax F3 L3 R3 W3 T3 U3 HQ. change (MAXFILE * BSIZE) with 71680 in Hmax.
  rewrite (proj2 (Z.ltb_lt _ _)) by lia. apply wp_bind. eapply wp_of_eq; [apply upd_f_Ok; by rewrite T3|].
  set (f' := set f_off (fun o => u32 (o + Z.of_nat (length bs))) f).
  assert (f' = f <| f_off := f_off f + Z.of_nat (length bs) |>) as Ef.
  { transitivity (f <| f_off := u32 (f_off f + Z.of_nat (length bs)) |>); [by destruct f|]. by rewrite u32_small by lia. }
  pose proof (file_at_ftable dev size me pid ls 1 0 _ sb ds _ _ _ (insert k f') _ F3) as F4.
  apply wp_bind. eapply wp_of_eq; [apply get_f_Ok; simpl; rewrite T3; apply list_lookup_insert_eq; by eapply lookup_lt_Some|].
  replace (f_ip f') with (Some i) by (by rewrite Ef, <- Hi; destruct f). apply wp_bind. pose proof (fw_ip _ _ _ _ _ _ W3) as Eip.
  eapply (wp_iunlock dev size me pid ls 1 0 _ sb ds); [exact F4|rewrite Eip; by destruct ip|rewrite Eip; by destruct ip|]. intros s5 F5 O5 V5.
  apply wp_ret. eapply (HQ _ hs). split; [exact F5|done| | | |].
  - apply (file_written_lock _ _ _ _ _ _ sleeplock0) in W3.
    replace (ip <| i_lock := MkSleeplock 1 pid |> <| i_lock := sleeplock0 |>) with ip in W3 by (rewrite <- Hlk; by destruct ip).
    eapply (file_written_settled sb ds); [|apply Hf| |exact W3]; [|by intros].
    replace (i_addrs _) with (i_addrs ip3) by (by destruct ip3). apply F3.
  - intros m Hr. eapply room_ext; [|by apply R3]. by intros.
  - rewrite (others_proj k_ftable _ _ ltac:(done) O5). simpl. by rewrite T3, Ef.
  - etransitivity; [exact U3|exact (others_same_user _ _ O5)].
Qed.

Lemma wp_filewrite_round k f i ip s addr bs (Q : Z -> kstate -> Prop) :
  write_open k f i ip s -> user_has s addr bs -> (0 < length bs <= 1536)%nat -> f_off f + Z.of_nat (length bs) <= MAXFILE * BSIZE ->
  mapped (vw s) (i_addrs ip) (Z.to_nat (f_off f)) (length bs) \/ room sb 8 (vw s) ->
  (forall ip' hs s1, round_done k f i ip bs s ip' hs s1 -> Q (Z.of_nat (length bs)) s1) ->
  wp (filewrite_round fuel devsw k addr (Z.of_nat (length bs))) Q s.
Proof.
  intros Hw Hu Hlen Hmax Hor HQ. pose proof Hw as [Hf Hk _ Hi _ Hoff Hlk Href Hval]. pose proof Hf as [(Hh & Hl & Ho & Hc & _) Hs Hsb Hip Hd Hty Hsh Hj Hsy Hm Hok Hsz].
  unfold filewrite_round. apply wp_bind, (wp_begin_op fuel me); [apply Hh|done|rewrite (la_n _ _ _ _ Hl), Ho; unfold LOGSIZE, MAXOPBLOCKS; simpl; lia|].
  intros s1 Ht1 E1. destruct (begun dev size me pid ls sb ds i ip s s1 Hf Ht1 E1) as (F1 & V1 & _).
  assert (k_ftable s1 = k_ftable s) as T1 by (by rewrite (upto_proj k_ftable _ _ ltac:(done) E1)).
  assert (same_user s s1) as U1 by exact (upto_same_user _ _ E1).
  apply wp_bind. eapply wp_of_eq; [apply get_f_Ok; by rewrite T1|]. rewrite Hi. apply wp_bind.
  eapply (wp_ilock fuel dev size me pid ls 1 0 _ sb ds); [exact F1|done|done|by rewrite Hlk|]. intros s2 F2 O2 V2.
  assert (k_ftable s2 = k_ftable s) as T2 by (by rewrite (others_proj k_ftable _ _ ltac:(done) O2)).
  apply wp_bind. eapply wp_of_eq; [apply get_f_Ok; by rewrite T2|]. rewrite Hi. apply wp_bind, wp_ret. apply wp_bind.
  assert (forall n, vw s2 n = vw s n) as V by (intros n; by rewrite V2).
  set (ipl := ip <| i_lock := MkSleeplock 1 pid |>) in *.
  assert (i_addrs ipl = i_addrs ip /\ i_size ipl = i_size ip) as [Ea Es] by (by destruct ip).
  eapply (wp_round_write f i ipl []); [exact F2|done| |by destruct ip| |by destruct ip..| |lia|done| |].
  - eapply user_has_same; [|exact Hu]. etransitivity; [exact U1|by apply others_same_user].
  - split; [rewrite Es; apply Hsz|]. rewrite Ea, Es. intros x Hx. rewrite (slot_ext (vw s)) by done. by apply Hsz.
  - by rewrite Es.
  - destruct Hor as [Hmp|Hr]; [left|right].
    + intros x Hx. rewrite Ea, (slot_ext (vw s)) by done. by apply Hmp.
    + by eapply room_ext.
  - intros ip3 hs s3 F3 L3 O3 R3 W3. assert (k_ftable s3 = k_ftable s) as T3 by (by rewrite (others_proj k_ftable _ _ ltac:(done) O3)).
    eapply (wp_round_end k f i ip hs s s3 ip3 bs); [done|lia|done|exact F3|done|..|exact T3| |exact HQ].
    + intros m Hr. by apply R3, (room_ext _ (vw s)).
    + by eapply (file_written_ext sb ds).
    + etransitivity; [exact U1|]. etransitivity; by apply others_same_user.
Qed.

(** ** The loop *)

Section progress.
Context (k : nat) (f : file) (i : nat) (ip : inode) (s : kstate) (addr : Z) (bs : list Z).
Hypothesis Hdev : 0 <= dev < 2 ^ 32.
Hypothesis Hw : write_open k f i ip s.
Hypothesis Hu : user_has s addr bs.
Hypothesis Hmax : f_off f + Z.of_nat (length bs) <= MAXFILE * BSIZE.

Abbreviation n := (length bs).
Definition at_off (m : nat) : file := f <| f_off := f_off f + Z.of_nat m |>.

(** After [m] bytes, between two transactions, with at most [r] to come. *)
Record progress (m r : nat) (ip1 : inode) (s1 : kstate) : Prop := {
  pg_file : write_open k (at_off m) i ip1 s1;
  pg_le : (m <= n <= m + 1536 * r)%nat;
  pg_written : file_written (vw s) ip (vw s1) ip1 (Z.to_nat (f_off f)) (take m bs);
  pg_blocks : mapped (vw s1) (i_addrs ip1) (Z.to_nat (f_off f) + m) (n - m) \/ room sb (8 * r) (vw s1);
  pg_table : k_ftable s1 = <[k := at_off m]> (k_ftable s);
  pg_user : same_user s s1;
  pg_super : disk_read (k_disk s1) dev 1 = disk_read (k_disk s) dev 1
}.

Lemma off_at_off m : f_off (at_off m) = f_off f + Z.of_nat m.
Proof. unfold at_off. by generalize f; intros []. Qed.

Lemma progress_start r : (n <= 1536 * r)%nat ->
  mapped (vw s) (i_addrs ip) (Z.to_nat (f_off f)) n \/ room sb (8 * r) (vw s) -> progress 0 r ip s.
Proof.
  intros Hr Hor. assert (at_off 0 = f) as E0 by (unfold at_off; rewrite Z.add_0_r; by generalize f; intros []). pose proof Hw as [Hf Hk _ _ _ Hoff _ _ _].
  split; [by rewrite E0|lia| | | |done|done].
  - apply (file_written_nil sb ds); [lia|apply Hf..].
  - by rewrite Nat.add_0_r, Nat.sub_0_r.
  - by rewrite E0, list_insert_id.
Qed.

(** The bytes of the transaction after [m] bytes. *)
Definition piece (m : nat) : list Z := take 1536 (drop m bs).
Lemma length_piece m : length (piece m) = (1536 `min` (n - m))%nat.
Proof. unfold piece. by rewrite length_take, length_drop. Qed.
Lemma chunk_piece m : (m <= n)%nat -> chunk (Z.of_nat m) (Z.of_nat n) = Z.of_nat (length (piece m)).
Proof. intros Hm. rewrite length_piece. unfold chunk. change max_write with 1536. destruct (Z.ltb_spec 1536 (Z.of_nat n - Z.of_nat m)); lia. Qed.
Lemma take_piece m : take m bs ++ piece m = take (m + 1536) bs.
Proof. apply take_take_drop. Qed.

Lemma progress_round m r ip1 s1 : progress m (S r) ip1 s1 -> (m < n)%nat ->
  wp (filewrite_round fuel devsw k (addr + Z.of_nat m) (chunk (Z.of_nat m) (Z.of_nat n)))
    (fun z s2 => z = Z.of_nat (length (piece m)) /\ exists ip2 hs, round_done k (at_off m) i ip1 (piece m) s1 ip2 hs s2) s1.
Proof.
  intros [P1 P2 P3 P4 P5 P6 _] Hm. rewrite chunk_piece by lia. pose proof (length_piece m) as Hl.
  eapply wp_filewrite_round; [exact P1| |lia|rewrite off_at_off; change (MAXFILE * BSIZE) with 71680 in *; lia| |].
  - eapply user_has_same in Hu; [|exact P6]. rewrite <- (take_drop m bs) in Hu. apply user_has_app in Hu as [_ H].
    rewrite length_take, Nat.min_l in H by lia. rewrite <- (take_drop 1536 (drop m bs)) in H. by apply user_has_app in H as [H _].
  - pose proof (wf_off _ _ _ _ _ Hw) as Hoff. rewrite off_at_off. destruct P4 as [Hmp|Hr]; [left|right; eapply room_le; [|exact Hr]; lia].
    intros x Hx. apply Hmp. lia.
  - intros ip2 hs s2 Hd. split; [done|]. by exists ip2, hs.
Qed.

Lemma round_written m r ip1 s1 ip2 hs s2 : progress m r ip1 s1 -> round_done k (at_off m) i ip1 (piece m) s1 ip2 hs s2 ->
  file_written (vw s) ip (vw s2) ip2 (Z.to_nat (f_off f)) (take (m + 1536) bs).
Proof.
  intros [P1 P2 P3 P4 P5 P6 _] [R1 R2 R3 R4 R5 R6]. pose proof (wf_off _ _ _ _ _ Hw) as Hoff. rewrite <- take_piece.
  eapply (file_written_app sb ds); [lia|apply R1|exact P3|]. rewrite length_take, Nat.min_l by lia.
  rewrite off_at_off in R3. by replace (Z.to_nat (f_off f) + m)%nat with (Z.to_nat (f_off f + Z.of_nat m)) by lia.
Qed.

Lemma take_length_piece m : (m <= n)%nat -> take (m + length (piece m)) bs = take (m + 1536) bs.
Proof.
  intros Hm. rewrite length_piece. destruct (decide (1536 <= n - m)%nat); [by rewrite Nat.min_l by lia|]. rewrite !take_ge by lia. done.
Qed.

Lemma at_off_add m x : (at_off m) <| f_off := f_off (at_off m) + Z.of_nat x |> = at_off (m + x).
Proof. rewrite off_at_off. unfold at_off. rewrite Nat2Z.inj_add, Z.add_assoc. by generalize f; intros []. Qed.

(** The file is still one open for writing. *)
Lemma still_writable m ip1 s1 ip2 hs s2 s3 bs' : write_open k (at_off m) i ip1 s1 -> round_done k (at_off m) i ip1 bs' s1 ip2 hs s2 ->
  open_file i ip2 s3 -> k_ftable s3 = k_ftable s2 -> write_open k (at_off (m + length bs')) i ip2 s3.
Proof.
  intros [W1 W2 W3 W4 W5 W6 W7 W8 W9] [R1 R2 R3 R4 R5 R6] Ho Et. pose proof (fw_ip _ _ _ _ _ _ R3) as Eip. rewrite off_at_off in W6, R3, Eip.
  assert (forall x y, f_type (at_off x) = f_type (at_off y) /\ f_ip (at_off x) = f_ip (at_off y) /\ f_writable (at_off x) = f_writable (at_off y)) as E.
  { unfold at_off. by generalize f; intros []. }
  destruct (E (m + length bs')%nat m) as (E1 & E2 & E3). split; [done| |by rewrite E1|by rewrite E2|by rewrite E3| | | |].
  - rewrite Et, R5, at_off_add. apply list_lookup_insert_eq. by eapply lookup_lt_Some.
  - rewrite off_at_off. replace (i_size ip2) with (Z.max (i_size ip1) (Z.of_nat (Z.to_nat (f_off f + Z.of_nat m) + length bs'))); [lia|].
    rewrite Eip. by destruct ip1.
  - rewrite Eip. by destruct ip1.
  - rewrite Eip. by destruct ip1.
  - rewrite Eip. by destruct ip1.
Qed.

Lemma progress_end m r ip1 s1 ip2 hs s2 : progress m (S r) ip1 s1 -> round_done k (at_off m) i ip1 (piece m) s1 ip2 hs s2 ->
  wp (end_op fuel) (fun _ s3 => progress (m + length (piece m)) r ip2 s3) s2.
Proof.
  intros P R. pose proof P as [P1 P2 P3 P4 P5 P6 P7]. pose proof R as [R1 R2 R3 R4 R5 R6]. pose proof (fa_tx _ _ _ _ R1) as T.
  pose proof (tx_size _ _ _ T) as Hs. change LOGSIZE with 30 in Hs. pose proof (length_piece m) as Hl. pose proof (wf_off _ _ _ _ _ Hw) as Hoff.
  eapply (wp_end_op fuel dev size me pid ls Hdev lay_disk hs); [eapply tx_blocks_ok; [exact T|lia]|unfold NBUF; lia|apply T..|lia| |].
  { rewrite (tx_disk _ _ _ T). apply (of_idle _ _ _ _ _ _ _ _ _ _ (wf_open _ _ _ _ _ P1)). }
  intros s3 Hi HS Hfr Hlg. pose proof (frame_proj k_ftable _ _ ltac:(done) Hfr) as Et. change (k_ftable s3 = k_ftable s2) in Et.
  destruct (reopened dev size me pid ls sb ds i ip1 ip2 hs s1 s2 s3 _ _ (wf_open _ _ _ _ _ P1) R1 R3 Hi HS Hfr Hlg) as [Ho E].
  split; [by eapply still_writable|lia| | | | |].
  - rewrite take_length_piece by lia. eapply (file_written_settled sb ds); [apply R1|apply Hw|exact E|by eapply round_written].
  - destruct P4 as [Hmp|Hr]; [left|right].
    + apply (mapped_settled sb ds (vw s2)); [apply R1|exact E|]. intros x Hx. destruct (Hmp x ltac:(lia)) as [Hb Hn]. split; [done|].
      by rewrite (fw_slot _ _ _ _ _ _ R3) by (done || by apply pos_lt).
    + eapply room_kept; [|apply R4; eapply room_le; [|exact Hr]; lia]. intros b Hb. by apply (used_settled sb ds).
  - by rewrite Et, R5, P5, at_off_add, list_insert_insert_eq.
  - etransitivity; [exact P6|]. etransitivity; [exact R6|]. split; [exact (frame_proj user_pd _ _ (fun x => erase_user_pd x) Hfr)|].
    exact (frame_proj k_mem _ _ ltac:(done) Hfr).
  - rewrite <- P7, <- (tx_disk _ _ _ T), <- (vw_clean dev size me pid hs s2); [|apply T..]. apply HS.
    pose proof lay_disk. pose proof lay_log. unfold data_block. change LOGSIZE with 30 in *. lia.
Qed.

Lemma progress_loop r : forall m ip1 s1, progress m r ip1 s1 ->
  wp (filewrite_loop fuel devsw r k addr (Z.of_nat m) (Z.of_nat n)) (fun z s2 => z = Z.of_nat n /\ exists r' ip2, progress n r' ip2 s2) s1.
Proof.
  induction r as [|r IH]; intros m ip1 s1 P; pose proof (pg_le _ _ _ _ P) as Hle; cbn [filewrite_loop].
  - replace m with n in * by lia. rewrite Z.ltb_irrefl. apply wp_ret. split; [done|]. by exists 0%nat, ip1.
  - destruct (Z.ltb_spec (Z.of_nat m) (Z.of_nat n)) as [Hlt|Hge]; cbn [negb].
    2: { replace m with n in * by lia. apply wp_ret. split; [done|]. by exists (S r), ip1. }
    pose proof (length_piece m) as Hl. apply wp_bind. eapply wp_mono; [apply (progress_round m r ip1); [done|lia]|].
    intros z s2 (-> & ip2 & hs & R). apply wp_bind. eapply wp_mono; [by eapply progress_end|]. intros [] s3 P'.
    rewrite (proj2 (Z.ltb_ge _ _)) by lia. rewrite chunk_piece, Z.eqb_refl by lia. cbn [negb]. rewrite <- Nat2Z.inj_add. by eapply IH.
Qed.

(** A transaction of the loop started from a state between two of them. *)
Lemma commits_progress i0 s1 m0 s3 : commits fuel devsw k addr (Z.of_nat n) i0 s1 m0 s3 ->
  forall m r ip1, i0 = Z.of_nat m -> progress m r ip1 s1 -> exists m' r' ip' s' ip2 hs,
    m0 = Z.of_nat m' /\ progress m' r' ip' s' /\ round_done k (at_off m') i ip' (piece m') s' ip2 hs s3.
Proof.
  induction 1 as [i0 s1 s3 Hlt E|i0 s1 s2 s3 m0 s4 Hlt E E2 _ IH]; intros m r ip1 -> P; pose proof (pg_le _ _ _ _ P);
    (destruct r as [|r]; [lia|]);
    (pose proof (progress_round m r ip1 s1 P ltac:(lia)) as Hr; apply wp_iff in Hr as (z & s' & E' & -> & ip2 & hs & R);
     rewrite E' in E; injection E as Ez <-).
  - by exists m, (S r), ip1, s1, ip2, hs.
  - pose proof (progress_end m r ip1 s1 ip2 hs s' P R) as He. apply wp_iff in He as ([] & s'' & E'' & P'). rewrite E'' in E2. injection E2 as <-.
    apply (IH (m + length (piece m))%nat r ip2); [rewrite <- Ez; lia|done].
Qed.

Lemma progress_on_disk m r ip1 s1 w : progress m r ip1 s1 -> (forall b, data_block size ls b -> w b = vw s1 b) ->
  file_is sb ds (disk_read (k_disk s) dev) ip w
    (put_at (disk_content sb (disk_read (k_disk s) dev) (i_inum ip)) (Z.to_nat (f_off f)) (take m bs)).
Proof.
  intros P E. eapply (written_on_disk dev size me pid ls sb ds i ip ip1 s s1); [apply Hw| |apply (pg_written _ _ _ _ P)|exact E].
  apply (pg_file _ _ _ _ P).
Qed.

Lemma progress_crash m r ip1 s1 ip2 hs s2 s' dk t : progress m r ip1 s1 -> round_done k (at_off m) i ip1 (piece m) s1 ip2 hs s2 ->
  sb_start (disk_read (k_disk s) dev 1) = ls ->
  thr me [] s' -> upto (committing s2) s' -> crashed fuel dev size me pid s' dk -> boots dev size me pid dk t ->
  exists t', initlog fuel dev t = Ok tt t' /\ exists c, (c = take m bs \/ c = take (m + 1536) bs) /\
    file_is sb ds (disk_read (k_disk s) dev) ip (disk_read (k_disk t') dev)
      (put_at (disk_content sb (disk_read (k_disk s) dev) (i_inum ip)) (Z.to_nat (f_off f)) c).
Proof.
  intros P R Hsb Ht E Hcr Hbt. pose proof (wf_open _ _ _ _ _ (pg_file _ _ _ _ P)) as Hf.
  destruct (tx_crash fuel dev size me pid ls sb ds Hdev i ip1 ip2 hs s1 s2 s' dk t) as (t' & Et & HS);
    [done|apply R|apply R|by rewrite (pg_super _ _ _ _ P)|done|done|done|done|].
  exists t'. split; [done|]. destruct HS as [HS|HS]; eexists.
  - split; [by left|]. eapply progress_on_disk; [done|]. intros b Hb. rewrite HS by done. symmetry. by eapply open_view.
  - split; [by right|]. eapply (written_on_disk dev size me pid ls sb ds i ip ip2 s s2); [apply Hw|apply R|by eapply round_written|exact HS].
Qed.
End progress.
End write.

(** ** Theorems *)

(** C3: Writing to an open file: [filewrite] of [n] bytes of user memory to a
    file open for writing, while no other system call is in a transaction,
    within the size limit of files and with the blocks there or eight free ones
    for each transaction, returns [n]; it has advanced the offset, and put the
    bytes at the old offset into the file on the disk, extending the file where
    they reach past its end, and into no other file. It does so in transactions
    of at most 1536 bytes; if the machine stops at any point of the commit of
    the one after the first [m] bytes, and again at any points of the recovery
    at boot, then the next complete [initlog] leaves the file on the disk with
    exactly the first [m], or exactly the first [m + 1536], of the bytes
    written, and the other files as they were. *)
Theorem filewrite_writes {D : Disk} fuel devsw dev size {DL : DiskLaws D dev size} me pid ls sb ds {L : Layout size ls sb ds} k f i ip s addr bs :
  0 <= dev < 2 ^ 32 -> write_open dev size me pid ls sb ds k f i ip s -> sb_start (disk_read (k_disk s) dev 1) = ls ->
  user_has s addr bs -> f_off f + Z.of_nat (length bs) <= MAXFILE * BSIZE ->
  mapped (vw dev s) (i_addrs ip) (Z.to_nat (f_off f)) (length bs) \/ room sb (8 * S (length bs / 1536)) (vw dev s) ->
  let n := Z.of_nat (length bs) in
  let v := disk_read (k_disk s) dev in
  let new c := put_at (disk_content sb v (i_inum ip)) (Z.to_nat (f_off f)) c in
  (exists s', filewrite fuel devsw k addr n s = Ok n s' /\ log_idle dev size me pid ls s' /\
     k_ftable s' = <[k := f <| f_off := f_off f + n |>]> (k_ftable s) /\ file_is sb ds v ip (disk_read (k_disk s') dev) (new bs)) /\
  (forall m s1 s' dk t, commits fuel devsw k addr n 0 s m s1 -> thr me [] s' -> upto (committing s1) s' ->
     crashed fuel dev size me pid s' dk -> boots dev size me pid dk t ->
     exists t', initlog fuel dev t = Ok tt t' /\ exists c, (c = take (Z.to_nat m) bs \/ c = take (Z.to_nat m + 1536) bs) /\
       file_is sb ds v ip (disk_read (k_disk t') dev) (new c)).
Proof.
  intros Hdev Hw Hsb Hu Hmax Hor n v new. assert (length bs <= 1536 * S (length bs / 1536))%nat as Hr.
  { pose proof (Nat.div_mod_eq (length bs) 1536). pose proof (Nat.mod_upper_bound (length bs) 1536 ltac:(lia)). lia. }
  pose proof (progress_start dev size me pid ls sb ds k f i ip s bs Hw _ Hr Hor) as P0. split.
  - enough (wp (filewrite fuel devsw k addr n) (fun z s' => z = n /\ log_idle dev size me pid ls s' /\
      k_ftable s' = <[k := f <| f_off := f_off f + n |>]> (k_ftable s) /\ file_is sb ds v ip (disk_read (k_disk s') dev) (new bs)) s) as H.
    { apply wp_iff in H as (z & s' & E & -> & H). by exists s'. }
    unfold filewrite. apply wp_bind. eapply wp_of_eq; [apply get_f_Ok, Hw|]. rewrite (proj2 (Z.eqb_neq _ _)) by apply Hw.
    rewrite (wf_type _ _ _ _ _ _ _ _ _ _ _ _ Hw). apply wp_bind. change max_write with (Z.of_nat 1536). unfold n at 1. rewrite <- Nat2Z.inj_div, Nat2Z.id.
    eapply wp_mono; [by eapply (progress_loop fuel devsw dev size me pid ls sb ds k f i ip s addr bs Hdev Hw Hu Hmax _ 0)|].
    intros z s' (-> & r' & ip2 & P). apply wp_ret. rewrite Z.eqb_refl. split; [done|].
    pose proof (wf_open _ _ _ _ _ _ _ _ _ _ _ _ (pg_file _ _ _ _ _ _ _ _ _ _ _ _ _ _ _ _ _ P)) as Ho. split; [apply Ho|]. split; [apply P|].
    unfold new. rewrite <- (take_ge bs (length bs)) by done. eapply (progress_on_disk dev size me pid ls sb ds k f i ip s bs Hw); [exact P|].
    intros b _. symmetry. by eapply open_view.
  - intros m s1 s' dk t Hc Ht Hup Hcr Hbt.
    destruct (commits_progress fuel devsw dev size me pid ls sb ds k f i ip s addr bs Hdev Hw Hu Hmax _ _ _ _ Hc 0%nat _ ip eq_refl P0)
      as (m' & r' & ip' & s2 & ip2 & hs & -> & P & R).
    rewrite Nat2Z.id. eapply (progress_crash fuel dev size me pid ls sb ds k f i ip s bs Hdev Hw); done.
Qed.

(** ** A write of two transactions

    Two thousand bytes of user memory go to the end of the file "hello". *)

Definition demo_open : file := MkFile FD_INODE 1 0 1 0 (Some 0%nat) 5.
Definition demo_bytes : list Z := replicate 2000 65.
Definition with_user (m : mem) (t : list file) (s : kstate) : kstate := s <| k_mem := m |> <| k_ftable := t |>.
Definition write_state : kstate := with_user (stores demo_mem 0x3100 demo_bytes) [demo_open] file_state.

Lemma log_idle_with_user dev size me pid ls m t s : log_idle dev size me pid ls s -> log_idle dev size me pid ls (with_user m t s).
Proof.
  intros ([Ht [Hb (l & Hl & Hperm) Hp Hd] Hn Hdi Hk] & [? ? ? ? ?] & H3 & H4 & H5 & H6). split; [|by split; [split|]].
  split; [|split; [done|by exists l|done|done]|done|done|done]. by apply (thr_neutral (with_user m t)).
Qed.

Lemma open_with_user dev size me pid ls sb ds i ip m t s :
  open_file dev size me pid ls sb ds i ip s -> open_file dev size me pid ls sb ds i ip (with_user m t s).
Proof. intros [H1 H2 H3 H4 H5 H6 H7 H8 H9 H10 H11 H12]. split; [by apply log_idle_with_user|done..]. Qed.

Lemma write_state_open : write_open 1 1000 0 1 2 demo_sb 59 0 demo_open 0 demo_file write_state.
Proof. split; [exact (open_with_user _ _ _ _ _ _ _ _ _ _ _ _ file_state_open)|done|done|done|done|simpl; lia|done|done|done]. Qed.

Lemma demo_user : user_has write_state 0x100 demo_bytes.
Proof.
  exists 0x1000. split; [done|]. split; [|vm_compute; reflexivity]. apply uwritable_readable, demo_writable; [|lia|simpl; lia].
  intros a Ha. apply load8_stores_out. unfold demo_tables in Ha. lia.
Qed.

Lemma demo_room : room demo_sb 16 (vw 1 write_state).
Proof.
  exists (seqZ 100 16). split; [apply NoDup_seqZ|]. split; [done|]. apply Forall_forall. intros b Hb%elem_of_seqZ. split; [simpl; lia|].
  assert (forallb (fun b => negb (used demo_sb (vw 1 write_state) b)) (seqZ 100 16) = true) as Hall by (vm_compute; reflexivity).
  rewrite forallb_forall in Hall. apply negb_true_iff, Hall, list_elem_of_In, elem_of_seqZ. lia.
Qed.

Lemma demo_before : disk_content demo_sb (disk_read (k_disk write_state) 1) (i_inum demo_file) = bytes "hello".
Proof. vm_compute. reflexivity. Qed.

Lemma filewrite_writes_witness :
  (exists s', filewrite (D := memide 1000) 0 no_dev 0 0x100 2000 write_state = Ok 2000 s' /\
     k_ftable s' = [demo_open <| f_off := 2005 |>] /\
     disk_content demo_sb (disk_read (k_disk s') 1) 2 = bytes "hello" ++ replicate 2000 65) /\
  (forall m s1 s' dk t, commits (D := memide 1000) 0 no_dev 0 0x100 2000 0 write_state m s1 -> thr 0 [] s' -> upto (committing s1) s' ->
     crashed (D := memide 1000) 0 1 1000 0 1 s' dk -> boots 1 1000 0 1 dk t ->
     exists t', initlog (D := memide 1000) 0 1 t = Ok tt t' /\
       exists c, (c = take (Z.to_nat m) demo_bytes \/ c = take (Z.to_nat m + 1536) demo_bytes) /\
         disk_content demo_sb (disk_read (k_disk t') 1) 2 = put_at (bytes "hello") 5 c).
Proof.
  destruct (filewrite_writes (D := memide 1000) 0 no_dev 1 1000 0 1 2 demo_sb 59 0 demo_open 0 demo_file write_state 0x100 demo_bytes)
    as [(s' & E & _ & Hft & Hn & _) Hc]; [lia|apply write_state_open|vm_compute; reflexivity|apply demo_user|done|right; apply demo_room|].
  pose proof demo_before as Eold. split.
  - exists s'. split; [exact E|]. split; [exact Hft|]. etransitivity; [exact Hn|]. rewrite Eold. vm_compute. reflexivity.
  - intros m s1 s2 dk t H1 H2 H3 H4 H5. destruct (Hc m s1 s2 dk t H1 H2 H3 H4 H5) as (t' & Et & c & Ec & Hi & _). exists t'. split; [exact Et|].
    exists c. split; [exact Ec|]. etransitivity; [exact Hi|]. by rewrite Eold.
Defined.
