(* ===== verification/Proc.v ===== *)
(** * Processes: creation and exit (proc.c)

    [pinit], [userinit], [growproc], [fork], [exit] and [forkret], which use
    the file system; the scheduler and the primitives they share are in
    Sched.v. *)

From stdpp Require Import base numbers list list_numbers gmap strings.
From S2P Require Import Prelude Kmonad Params Kstate Spinlock KString Kalloc Cprintf Vm Umem Sched Sleeplock Bio Log Fs Pipe File.

Local Open Scope Z_scope.

(** ** The code *)

Definition pinit : KM unit := initlock Lptable.

(** [safestrcpy(p->name, name, sizeof(p->name))]. *)
Definition set_name (name : list Z) (p : proc) : proc :=
  p <| p_name := splice (p_name p) 0 (safestrcpy name 16) |>.

(** The trap frame of the first process: user segments, interrupts on. *)
Definition init_tf : trapframe :=
  let ds := Z.lor (Z.shiftl SEG_UDATA 3) DPL_USER in
  tf0 <| tf_cs := Z.lor (Z.shiftl SEG_UCODE 3) DPL_USER |> <| tf_ds := ds |> <| tf_es := ds |>
      <| tf_ss := ds |> <| tf_eflags := FL_IF |> <| tf_esp := PGSIZE |> <| tf_eip := 0 |>.

(** [wakeup1(p)] for a process pointer. *)
Definition proc_chan (o : option nat) : chan :=
  match o with Some i => ChProc i | None => ChNull end.

Definition growproc (n : Z) : KM Z :=
  let* i := curproc in
  let* p := get_p i in
  let sz := p_sz p in
  let* sz := (if 0 <? n then allocuvm (p_pgdir p) sz (u32 (sz + n))
              else if n <? 0 then deallocuvm (p_pgdir p) sz (u32 (sz + n))
              else ret sz) in
  if negb (n =? 0) && (sz =? 0) then ret (-1) else
  upd_p i (fun p => p <| p_sz := sz |>) ;;
  switchuvm (Some i) ;;
  ret 0.

Definition fork : KM Z :=
  let* cur := curproc in
  let* r := allocproc in
  match r with
  | None => ret (-1)
  | Some np =>
      let* p := get_p cur in
      let* pgdir := copyuvm (p_pgdir p) (p_sz p) in
      upd_p np (fun p => p <| p_pgdir := pgdir |>) ;;
      if pgdir =? 0 then
        let* n := get_p np in
        kfree (p_kstack n) ;;
        upd_p np (fun p => p <| p_kstack := 0 |> <| p_state := UNUSED |>) ;;
        ret (-1)
      else
      upd_p np (fun n => n <| p_sz := p_sz p |> <| p_parent := Some cur |>
                           <| p_tf := (p_tf p) <| tf_eax := 0 |> |>) ;;
      for_each (seq 0 NOFILE) (fun fd =>
        match p_ofile p !!! fd with
        | Some f => let* f := filedup f in upd_p np (set p_ofile (insert fd (Some f)))
        | None => ret tt
        end) ;;
      let* cwd := deref "null cwd" (p_cwd p) in
      let* cwd := idup cwd in
      upd_p np (fun n => n <| p_cwd := Some cwd |>) ;;
      upd_p np (set_name (p_name p)) ;;
      upd_p np (fun n => n <| p_handler := p_handler p |>) ;;
      let* n := get_p np in
      let pid := p_pid n in
      acquire Lptable ;;
      upd_p np (fun p => p <| p_state := RUNNABLE |>) ;;
      release Lptable ;;
      ret pid
  end.

Section proc.
Context {D : Disk} (fuel : nat) (devsw : Z -> devops).

Definition userinit : KM unit :=
  let* o := allocproc in
  modify (fun s => s <| k_initproc := o |>) ;;
  let* i := deref "null proc" o in
  let* pgdir := setupkvm in
  upd_p i (fun p => p <| p_pgdir := pgdir |>) ;;
  if pgdir =? 0 then panic "userinit: out of memory?" else
  let* ln := gets k_link in
  inituvm pgdir (ln_initcode ln) ;;
  upd_p i (fun p => p <| p_sz := PGSIZE |> <| p_tf := init_tf |>) ;;
  upd_p i (set_name (bytes "initcode")) ;;
  let* cwd := namei fuel devsw [slash] in
  upd_p i (fun p => p <| p_cwd := cwd |>) ;;
  acquire Lptable ;;
  upd_p i (fun p => p <| p_state := RUNNABLE |>) ;;
  release Lptable.

(** The scan of [exit] that hands the children of [cur] to init. *)
Definition reparent (cur : nat) : KM unit :=
  for_each proc_slots (fun i =>
    let* p := get_p i in
    when (bool_decide (p_parent p = Some cur)) (
      let* init := gets k_initproc in
      upd_p i (fun p => p <| p_parent := init |>) ;;
      when (is_state ZOMBIE p) (wakeup1 (proc_chan init)))).

Definition exit : KM unit :=
  let* cur := curproc in
  let* init := gets k_initproc in
  if bool_decide (init = Some cur) then panic "init exiting" else
  for_each (seq 0 NOFILE) (fun fd =>
    let* p := get_p cur in
    match p_ofile p !!! fd with
    | Some f => fileclose fuel f ;; upd_p cur (set p_ofile (insert fd None))
    | None => ret tt
    end) ;;
  begin_op fuel ;;
  let* p := get_p cur in
  let* cwd := deref "null cwd" (p_cwd p) in
  iput fuel cwd ;;
  end_op fuel ;;
  upd_p cur (fun p => p <| p_cwd := None |>) ;;
  acquire Lptable ;;
  let* p := get_p cur in
  wakeup1 (proc_chan (p_parent p)) ;;
  reparent cur ;;
  upd_p cur (fun p => p <| p_state := ZOMBIE |>) ;;
  sched ;;
  panic "zombie exit".

Definition forkret : KM unit :=
  release Lptable ;;
  let* first := gets k_first in
  when (negb (first =? 0)) (
    modify (fun s => s <| k_first := 0 |>) ;;
    iinit fuel ROOTDEV ;;
    initlog fuel ROOTDEV).
End proc.
