(* ===== verification/Fork.v ===== *)
(** * fork (proc.c)

    [fork] composed from its parts: the process table, the page allocator,
    the copy of the address space, the open files and the inode cache. *)

From stdpp Require Import base functions numbers list list_numbers gmap strings.
From S2P Require Import Prelude Kmonad Params Kstate Spinlock KString Kalloc Cprintf Vm Umem Demo Pgtab Sched Thread Sleeplock Bio Log Fs Pipe File Proc.

Local Open Scope Z_scope.

(** ** References to open files *)

Definition ref_up (f : file) : file := set f_ref (fun n => n + 1) f.

(** The file table after [filedup] of the descriptors [fds]. *)
Definition dup_files (fds : list (option nat)) (t : list file) : list file :=
  fold_left (fun t o => match o with Some f => alter ref_up f t | None => t end) fds t.

Lemma dup_files_snoc fds o t : dup_files (fds ++ [o]) t = match o with Some f => alter ref_up f (dup_files fds t) | None => dup_files fds t end.
Proof. unfold dup_files. by rewrite fold_left_app. Qed.

Fixpoint occurs (f : nat) (fds : list (option nat)) : Z :=
  match fds with
  | [] => 0
  | o :: fds => (if bool_decide (o = Some f) then 1 else 0) + occurs f fds
  end.

Lemma occurs_pos f fds : 0 <= occurs f fds.
Proof. induction fds as [|o fds IH]; simpl; [lia|]. case_bool_decide; lia. Qed.

(** Every open descriptor adds one reference. *)
Lemma dup_files_lookup fds : forall t f x, t !! f = Some x -> dup_files fds t !! f = Some (x <| f_ref := f_ref x + occurs f fds |>).
Proof.
  induction fds as [|o fds IH]; intros t f x Hx; simpl.
  - rewrite Hx. f_equal. rewrite Z.add_0_r. by destruct x.
  - destruct o as [g|].
    + destruct (decide (g = f)) as [->|Hne].
      * rewrite (IH _ f (ref_up x)) by (rewrite list_lookup_alter_eq, Hx; done). rewrite bool_decide_true by done.
        assert (f_ref (ref_up x) + occurs f fds = f_ref x + (1 + occurs f fds)) as -> by (destruct x; simpl; lia).
        by destruct x.
      * rewrite (IH _ f x) by (rewrite list_lookup_alter_ne; done). rewrite bool_decide_false by congruence. f_equal.
    + rewrite (IH t f x Hx). done.
Qed.

(** A descriptor refers to an entry in use. *)
Definition files_ok (fds : list (option nat)) (t : list file) : Prop :=
  forall f, Some f ∈ fds -> exists x, t !! f = Some x /\ 1 <= f_ref x.

(** ** The steps *)

Section steps.
Context (me : nat) (s : kstate).
Hypothesis H : thr me [] s.

Lemma thr_ready lk : exists c cp, ready c cp lk s.
Proof.
  destruct H as (c & cp & Hr & Hok & _ & _ & _ & _ & Hl). exists c, cp. split_and!; [done..|]. unfold lock_free.
  by rewrite Hl, decide_False by apply not_elem_of_nil.
Qed.

Lemma thr_kmem : kmem_ok s.
Proof. destruct (thr_ready Lkmem) as (c & cp & Hr). exists c, cp. by right. Qed.

Lemma wp_filedup f x (Q : nat -> kstate -> Prop) : k_ftable s !! f = Some x -> 1 <= f_ref x ->
  (forall s', thr me [] s' -> upto (set k_ftable (alter ref_up f) s) s' -> Q f s') -> wp (filedup f) Q s.
Proof.
  intros Hx Hr HQ. unfold filedup. apply wp_bind, (wp_acquire me [] s H); [apply not_elem_of_nil|]. intros s1 H1 U1.
  apply wp_bind. unfold get_f. apply wp_bind, wp_gets. rewrite (upto_proj k_ftable _ _ ltac:(done) U1), Hx. apply wp_ret.
  rewrite (proj2 (Z.ltb_ge (f_ref x) 1)) by done. apply wp_bind, (wp_neutral me [Lftable] s1 H1); [by split|done|]. intros H2.
  apply wp_bind, (wp_release me [] Lftable _ _ H2); [apply not_elem_of_nil|]. intros s3 H3 U3. apply wp_ret, HQ; [done|].
  etransitivity; [|exact U3]. by apply (upto_neutral (set k_ftable (alter ref_up f))).
Qed.

Lemma wp_idup i (Q : nat -> kstate -> Prop) :
  (forall s', thr me [] s' -> upto (set k_icache (alter (set i_ref (fun n => n + 1)) i) s) s' -> Q i s') -> wp (idup i) Q s.
Proof.
  intros HQ. unfold idup. apply wp_bind, (wp_acquire me [] s H); [apply not_elem_of_nil|]. intros s1 H1 U1.
  apply wp_bind, (wp_neutral me [Licache] s1 H1); [by split|done|]. intros H2.
  apply wp_bind, (wp_release me [] Licache _ _ H2); [apply not_elem_of_nil|]. intros s3 H3 U3. apply wp_ret, HQ; [done|].
  etransitivity; [|exact U3]. by apply (upto_neutral (set k_icache (alter (set i_ref (fun n => n + 1)) i))).
Qed.
End steps.

(** The loop over the descriptors [fds] of the parent, for the child [np]. *)
Definition dup_body (fds : list (option nat)) (np : nat) (fd : nat) : KM unit :=
  match fds !!! fd with
  | Some f => (let* f := filedup f in upd_p np (set p_ofile (insert fd (Some f))))%kern
  | None => ret tt
  end.

Definition duped (fds : list (option nat)) (np : nat) (n : proc) (k : nat) (s : kstate) : kstate :=
  s <| k_ptable := <[np := n <| p_ofile := take k fds ++ replicate (length fds - k) None |>]> (k_ptable s) |>
    <| k_ftable := dup_files (take k fds) (k_ftable s) |>.

Lemma list_alter_insert_eq {A} (g : A -> A) i x (l : list A) : alter g i (<[i := x]> l) = <[i := g x]> l.
Proof. by rewrite !list_insert_alter, list_alter_alter_eq. Qed.

Lemma list_alter_lookup {A} (g : A -> A) i x (l : list A) : l !! i = Some x -> alter g i l = <[i := g x]> l.
Proof. intros Hx. rewrite <- (list_insert_id l i x Hx) at 1. apply list_alter_insert_eq. Qed.

Lemma set_ptable_insert g np (n : proc) t (s : kstate) :
  set k_ptable (alter g np) (s <| k_ptable := <[np := n]> t |>) = s <| k_ptable := <[np := g n]> t |>.
Proof. destruct s. unfold set, set_k_ptable. simpl. by rewrite list_alter_insert_eq. Qed.

Lemma set_duped f g (T : list proc) (F : list file) (s : kstate) :
  set k_ptable f (set k_ftable g (s <| k_ptable := T |> <| k_ftable := F |>)) = s <| k_ptable := f T |> <| k_ftable := g F |>.
Proof. by destruct s. Qed.

Lemma dup_step me np fds n k s s1 : thr me [] s1 -> (np < length (k_ptable s))%nat -> upto (duped fds np n k s) s1 ->
  files_ok fds (k_ftable s) -> (k < length fds)%nat ->
  wp (dup_body fds np k) (fun _ s2 => thr me [] s2 /\ upto (duped fds np n (S k) s) s2) s1.
Proof.
  intros H1 Hn U1 Hok Hk. destruct (lookup_lt_is_Some_2 fds k Hk) as [o Ho]. unfold dup_body.
  rewrite (list_lookup_total_correct _ _ _ Ho).
  assert (<[k := o]> (take k fds ++ replicate (length fds - k) None) = take (S k) fds ++ replicate (length fds - S k) None) as Hins.
  { rewrite insert_app_r_alt by (rewrite length_take; lia). rewrite length_take, Nat.min_l, Nat.sub_diag by lia.
    replace (length fds - k)%nat with (S (length fds - S k)) by lia. rewrite (take_S_r _ _ _ Ho), <- app_assoc. done. }
  destruct o as [f|].
  - destruct (Hok f) as (x & Hx & Hr); [by eapply list_elem_of_lookup_2|].
    apply wp_bind, (wp_filedup me s1 H1 f (x <| f_ref := f_ref x + occurs f (take k fds) |>)).
    + rewrite (upto_proj k_ftable _ _ ltac:(done) U1). by apply dup_files_lookup.
    + simpl. pose proof (occurs_pos f (take k fds)). lia.
    + intros s2 H2 U2. apply (wp_neutral me [] s2 H2); [by split|intros; apply length_alter|]. intros H3. split; [done|].
      transitivity (set k_ptable (alter (set p_ofile (insert k (Some f))) np) (set k_ftable (alter ref_up f) (duped fds np n k s))).
      * unfold duped. rewrite (take_S_r _ _ _ Ho), dup_files_snoc. rewrite (take_S_r _ _ _ Ho) in Hins. rewrite <- Hins.
        rewrite set_duped, list_alter_insert_eq. reflexivity.
      * apply (upto_neutral (set k_ptable (alter (set p_ofile (insert k (Some f))) np))); [done|].
        etransitivity; [|exact U2]. by apply (upto_neutral (set k_ftable (alter ref_up f))).
  - apply wp_ret. split; [done|]. unfold duped. rewrite (take_S_r _ _ _ Ho), dup_files_snoc.
    rewrite (take_S_r _ _ _ Ho) in Hins. rewrite <- Hins.
    rewrite (list_insert_id (take k fds ++ replicate (length fds - k) None) k None); [done|].
    rewrite lookup_app_r by (rewrite length_take; lia). rewrite length_take, Nat.min_l, Nat.sub_diag by lia.
    by replace (length fds - k)%nat with (S (length fds - S k)) by lia.
Qed.

Lemma dup_loop me np fds n s : thr me [] s -> (np < length (k_ptable s))%nat ->
  k_ptable s !! np = Some n -> p_ofile n = replicate (length fds) None -> files_ok fds (k_ftable s) ->
  wp (for_each (seq 0 (length fds)) (dup_body fds np)) (fun _ s2 => thr me [] s2 /\ upto (duped fds np n (length fds) s) s2) s.
Proof.
  intros H Hn Hp Ho Hok.
  apply (wp_for_each _ (fun l t => exists k, (k <= length fds)%nat /\ l = seq k (length fds - k) /\ thr me [] t /\ upto (duped fds np n k s) t)).
  - exists 0%nat. split_and!; [lia|by rewrite Nat.sub_0_r|done|]. unfold duped. rewrite Nat.sub_0_r. simpl.
    rewrite list_insert_id; [by destruct s|]. rewrite Hp. f_equal. rewrite <- Ho. by destruct n.
  - intros x l' t (k & Hk & El & Ht & Ut). destruct (length fds - k)%nat as [|m] eqn:Em; [done|]. injection El as -> ->.
    eapply wp_mono; [by apply (dup_step me np fds n k s t); [..|lia]|]. intros [] t' [Ht' Ut']. exists (S k).
    split_and!; [lia|by replace (length fds - S k)%nat with m by lia|done|done].
  - intros t (k & Hk & El & Ht & Ut). assert (k = length fds) as -> by (destruct (length fds - k)%nat eqn:E; [lia|done]). done.
Qed.

Lemma upto_trans_neutral f x y z : (forall t, erase (f t) = f (erase t)) -> upto x y -> upto (f y) z -> upto (f x) z.
Proof. intros Hf Hxy Hyz. etransitivity; [by apply (upto_neutral f), Hxy|done]. Qed.

Lemma wp_upd_p me L np g n (T : list proc) X t (Q : unit -> kstate -> Prop) : thr me L t -> upto (X <| k_ptable := <[np := n]> T |>) t ->
  (forall t', thr me L t' -> upto (X <| k_ptable := <[np := g n]> T |>) t' -> Q tt t') -> wp (upd_p np g) Q t.
Proof.
  intros Ht Ut HQ. apply (wp_neutral me L t Ht); [by split|intros; apply length_alter|]. intros H'. apply HQ; [done|].
  rewrite <- set_ptable_insert. by apply (upto_neutral (set k_ptable (alter g np))).
Qed.

(** ** The child's record and the copy of memory *)

Section fork.
Context (me np : nat) (s : kstate) (p n0 : proc) (v : Z) (l : list Z) (cwd : nat).
Context (pp : Z) (tabp : gmap Z Z) (n : Z) (frame flag : Z -> Z).

(** What [fork] relies on: the current process [me] with its record [p], the
    first unused slot [np] with the stale record [n0], a free page [v] for the
    kernel stack and enough others for the copy. *)
Record fork_pre : Prop := {
  fk_thr : thr me [] s;
  fk_me : k_ptable s !! me = Some p;
  fk_live : p_state p <> UNUSED;
  fk_slot : find_idx (is_state UNUSED) (k_ptable s) = Some np;
  fk_n0 : k_ptable s !! np = Some n0;
  fk_clean : p_ofile n0 = replicate NOFILE None;
  fk_fds : length (p_ofile p) = NOFILE;
  fk_free : free_pages s (v :: l);
  fk_link : link_ok (k_link s);
  fk_room : (1025 + Z.to_nat n <= length l)%nat;
  fk_pgdir : p_pgdir p = P2V pp;
  fk_n : 0 <= n <= 2 ^ 19;
  fk_sz : 4096 * (n - 1) < p_sz p <= 4096 * n;
  fk_space : aspace (k_mem s) pp tabp n frame flag;
  fk_apart : forall q, as_pages pp tabp n frame q -> ~ freed_pages (v :: l) q;
  fk_files : files_ok (p_ofile p) (k_ftable s);
  fk_cwd : p_cwd p = Some cwd
}.
Hypothesis Hpre : fork_pre.

(** The memory with the address of [trapret] on the child's kernel stack. *)
Definition stack_mem : mem := store32 (k_mem s) (V2P (v + KSTACKSIZE - TRAPFRAME_SIZE - 4)) (ln_trapret (k_link s)).

Lemma stack_only : only_pages (eq (V2P v)) (k_mem s) stack_mem.
Proof.
  pose proof (fp_ok _ _ (fk_free Hpre)) as Hok. apply Forall_cons in Hok as [Hv _].
  assert (V2P (v + KSTACKSIZE - TRAPFRAME_SIZE - 4) = V2P v + 4 * ((KSTACKSIZE - TRAPFRAME_SIZE - 4) / 4)) as E.
  { rewrite (page_ok_V2P s v Hv). unfold page_ok, KERNBASE, PHYSTOP in Hv. rewrite V2P_kern; [|unfold KERNBASE, KSTACKSIZE, TRAPFRAME_SIZE; lia].
    change (4 * ((KSTACKSIZE - TRAPFRAME_SIZE - 4) / 4)) with (KSTACKSIZE - TRAPFRAME_SIZE - 4). lia. }
  unfold stack_mem. rewrite E. apply store_only. by vm_compute.
Qed.

(** The state with the new process. *)
Definition embryo : proc := claimed (k_nextpid s) v (k_link s) n0.
Definition forked0 : kstate :=
  s <| k_nextpid := i32 (k_nextpid s + 1) |> <| k_freelist := default 0 (head l) |> <| k_mem := stack_mem |>
    <| k_ptable := <[np := embryo]> (k_ptable s) |>.

Lemma fork_alloc s1 : thr me [] s1 -> upto s s1 ->
  exists s2, allocproc s1 = Ok (Some np) s2 /\ thr me [] s2 /\ upto forked0 s2 /\ free_pages s2 l.
Proof.
  intros H1 U1. destruct (thr_ready me s1 H1 Lptable) as (c & cp & Hr). pose proof (thr_kmem me s1 H1) as Hk.
  pose proof (upto_proj k_ptable _ _ ltac:(done) U1) as Et. pose proof (upto_proj k_nextpid _ _ ltac:(done) U1) as En.
  pose proof (upto_proj k_link _ _ ltac:(done) U1) as El. pose proof (upto_proj k_mem _ _ ltac:(done) U1) as Em.
  assert (free_pages s1 (v :: l)) as Hf1.
  { apply (free_pages_ext s); [done|by rewrite (upto_proj k_freelist _ _ ltac:(done) U1)|done|apply Hpre]. }
  assert (table_len s1) as Hlen by (destruct H1 as (? & ? & _ & _ & _ & _ & ? & _); done).
  destruct (allocproc_Ok c cp s1 (v :: l) Hr Hlen Hk Hf1) as (s2 & E & K).
  unfold allocproc_post in E, K. rewrite Et, (fk_slot Hpre) in E, K. cbn [fst snd] in E, K.
  unfold bump_pid in K. rewrite En, El, Em in K.
  set (F := fun t : kstate => set k_ptable (alter (claimed (k_nextpid s) v (k_link s)) np)
    (t <| k_nextpid := i32 (k_nextpid s + 1) |> <| k_freelist := default 0 (head l) |> <| k_mem := stack_mem |>)).
  change (s2 ≡ₖ F s1) in K.
  assert (F s = forked0) as EF.
  { unfold F, forked0, embryo. rewrite <- (list_alter_lookup (claimed _ _ _) _ _ _ (fk_n0 Hpre)). by destruct s. }
  assert (lock_neutral F) as HF by (by split). assert (upto forked0 s2) as U2.
  { rewrite <- EF. etransitivity; [|apply keq_upto; exact K]. by apply (upto_neutral F). }
  exists s2. split_and!; [done| |done|].
  - rewrite K. apply (thr_neutral F); [done| |done]. intros t. apply length_alter.
  - destruct (fk_free Hpre) as [Hc Hnd Hok]. apply NoDup_cons in Hnd as [Hnv Hnd]. apply Forall_cons in Hok as [Hv Hok].
    apply (free_pages_ext (s <| k_freelist := default 0 (head l) |> <| k_mem := stack_mem |>));
      [by rewrite (upto_proj k_mem _ _ ltac:(done) U2)|by rewrite (upto_proj k_freelist _ _ ltac:(done) U2)
      |by rewrite (upto_proj k_link _ _ ltac:(done) U2)|].
    apply (free_pages_mem (eq (V2P v)) (s <| k_freelist := default 0 (head l) |>)); [|apply stack_only|..].
    + split; [|done|done]. simpl. destruct Hc as [_ Hc]. destruct l as [|w l']; [done|]. destruct Hc as [Ew Hc]. by split.
    + intros q <-. by apply (page_ok_ppage s).
    + intros w Hw E'. rewrite Forall_forall in Hok. apply Hnv. rewrite <- (P2V_V2P s v Hv), E', (P2V_V2P s w); [done|by apply Hok].
Qed.

Lemma fork_copy s2 : thr me [] s2 -> upto forked0 s2 -> free_pages s2 l ->
  exists d s3 tab frame', copyuvm (p_pgdir p) (p_sz p) s2 = Ok d s3 /\ d <> 0 /\ thr me [] s3 /\
    upto (forked0 <| k_mem := k_mem s3 |> <| k_freelist := k_freelist s3 |>) s3 /\
    same_image (k_mem s) pp (k_mem s3) (V2P d) n /\ same_image (k_mem s) pp (k_mem s3) pp n /\ uspace (k_mem s3) (V2P d) /\
    aspace (k_mem s3) (V2P d) tab n frame' flag /\ forall k, 0 <= k < n -> ~ as_pages pp tabp n frame (frame' k).
Proof.
  intros H2 U2 Hf2. pose proof (fp_ok _ _ (fk_free Hpre)) as Hok. apply Forall_cons in Hok as [Hv _].
  pose proof (fk_n Hpre) as Hn.
  pose proof (upto_proj k_mem _ _ ltac:(done) U2) as Em. pose proof (upto_proj k_link _ _ ltac:(done) U2) as El. simpl in Em, El.
  destruct (aspace_mem _ _ _ _ _ _ _ _ (fk_space Hpre) ltac:(lia) stack_only) as (Has & _ & Hb).
  { intros q <-. split; [by apply (page_ok_ppage s)|]. intros Hq. apply (fk_apart Hpre _ Hq). exists v. split; [by left|done]. }
  rewrite <- Em in Has, Hb.
  assert (same_image (k_mem s) pp (k_mem s2) pp n) as Hsame0.
  { apply (same_image_frames _ _ tabp n frame flag _ _ tabp frame); [apply Hpre|done|lia|]. intros k j Hk Hj.
    apply (Hb k); [done|]. unfold in_page. lia. }
  rewrite (fk_pgdir Hpre).
  destruct (copyuvm_Ok s2 l pp tabp n frame flag (p_sz p)) as (d & s3 & tab & frame' & E & Hc & Hsame & _ & Hus & Hiso & _ & Hpar & Hd & K);
    try done; try apply Hpre.
  - by apply (thr_kmem me).
  - rewrite El. apply Hpre.
  - intros q Hq (w & Hw & Ew). apply (fk_apart Hpre q Hq). exists w. split; [by right|done].
  - exists d, s3, tab, frame'. split_and!; try done.
    + rewrite K. apply (thr_neutral (fun t => t <| k_mem := k_mem s3 |> <| k_freelist := k_freelist s3 |>)); [by split|done..].
    + etransitivity; [|apply keq_upto; exact K].
      by apply (upto_neutral (fun t => t <| k_mem := k_mem s3 |> <| k_freelist := k_freelist s3 |>)).
    + by apply (same_image_trans _ _ (k_mem s2) pp).
    + by apply (same_image_trans _ _ (k_mem s2) pp).
Qed.

(** The record of the child. *)
Definition child (d : Z) : proc :=
  (set_name (p_name p) (embryo <| p_pgdir := d |> <| p_sz := p_sz p |> <| p_parent := Some me |>
    <| p_tf := (p_tf p) <| tf_eax := 0 |> |> <| p_ofile := p_ofile p |> <| p_cwd := Some cwd |>))
    <| p_handler := p_handler p |> <| p_state := RUNNABLE |>.

Definition forked (d : Z) (m : mem) (fl : Z) : kstate :=
  s <| k_nextpid := i32 (k_nextpid s + 1) |> <| k_mem := m |> <| k_freelist := fl |>
    <| k_ftable := dup_files (p_ofile p) (k_ftable s) |>
    <| k_icache := alter (set i_ref (fun x => x + 1)) cwd (k_icache s) |>
    <| k_ptable := <[np := child d]> (k_ptable s) |>.

Lemma fork_slots : me <> np /\ (np < length (k_ptable s))%nat.
Proof.
  split; [|eapply lookup_lt_Some, Hpre]. intros E. apply (fk_live Hpre).
  pose proof (fk_slot Hpre) as Hs. apply find_idx_Some in Hs as (x & Hx & Hu & _).
  rewrite <- E, (fk_me Hpre) in Hx. injection Hx as <-. by apply bool_decide_eq_true in Hu.
Qed.

(** From the copied memory on. *)
Lemma fork_rest d m fl s3 : thr me [] s3 -> upto (forked0 <| k_mem := m |> <| k_freelist := fl |>) s3 ->
  wp (upd_p np (fun n => n <| p_pgdir := d |>) ;;
      upd_p np (fun n => n <| p_sz := p_sz p |> <| p_parent := Some me |> <| p_tf := (p_tf p) <| tf_eax := 0 |> |>) ;;
      for_each (seq 0 (length (p_ofile p))) (dup_body (p_ofile p) np) ;;
      let* i := idup cwd in
      upd_p np (fun n => n <| p_cwd := Some i |>) ;;
      upd_p np (set_name (p_name p)) ;;
      upd_p np (fun n => n <| p_handler := p_handler p |>) ;;
      let* n := get_p np in
      acquire Lptable ;; upd_p np (fun p => p <| p_state := RUNNABLE |>) ;; release Lptable ;; ret (p_pid n))%kern
     (fun r s' => r = k_nextpid s /\ thr me [] s' /\ upto (forked d m fl) s') s3.
Proof.
  intros H3 U3. destruct fork_slots as [Hne Hlen].
  set (X := s <| k_nextpid := i32 (k_nextpid s + 1) |> <| k_mem := m |> <| k_freelist := fl |>).
  assert (upto (X <| k_ptable := <[np := embryo]> (k_ptable s) |>) s3) as U3' by exact U3.
  apply wp_bind, (wp_upd_p me [] np _ _ _ _ _ _ H3 U3'). intros s4 H4 U4.
  apply wp_bind, (wp_upd_p me [] np _ _ _ _ _ _ H4 U4). intros s5 H5 U5.
  pose proof (upto_proj k_ptable _ _ ltac:(done) U5) as Et. pose proof (upto_proj k_ftable _ _ ltac:(done) U5) as Ef. simpl in Et, Ef.
  apply wp_bind. eapply wp_mono.
  { apply (dup_loop me np (p_ofile p)); [done|by rewrite Et, length_insert|rewrite Et; by apply list_lookup_insert_eq| |rewrite Ef; apply Hpre].
    simpl. rewrite (fk_fds Hpre). apply Hpre. }
  intros [] s6 [H6 U6]. unfold duped in U6. rewrite Et, Ef, take_ge, Nat.sub_diag, app_nil_r, list_insert_insert_eq in U6 by done.
  pose proof (upto_trans_neutral (fun t => t <| k_ptable := _ |> <| k_ftable := _ |>) _ _ _ ltac:(done) U5 U6) as V6. cbv beta in V6.
  apply wp_bind, (wp_idup me s6 H6 cwd). intros s7 H7 U7.
  pose proof (upto_trans_neutral (set k_icache (alter (set i_ref (fun n => n + 1)) cwd)) _ _ _ ltac:(done) V6 U7) as V7.
  set (X7 := X <| k_ftable := dup_files (p_ofile p) (k_ftable s) |> <| k_icache := alter (set i_ref (fun x => x + 1)) cwd (k_icache s) |>).
  set (n5 := embryo <| p_pgdir := d |> <| p_sz := p_sz p |> <| p_parent := Some me |> <| p_tf := (p_tf p) <| tf_eax := 0 |> |>) in *.
  change (upto (X7 <| k_ptable := <[np := n5 <| p_ofile := p_ofile p |>]> (k_ptable s) |>) s7) in V7.
  apply wp_bind, (wp_upd_p me [] np _ _ _ _ _ _ H7 V7). intros s8 H8 U8.
  apply wp_bind, (wp_upd_p me [] np _ _ _ _ _ _ H8 U8). intros s9 H9 U9.
  apply wp_bind, (wp_upd_p me [] np _ _ _ _ _ _ H9 U9). intros s10 H10 U10.
  apply wp_bind. eapply wp_of_eq.
  { apply get_p_Ok. rewrite (upto_proj k_ptable _ _ ltac:(done) U10). by apply list_lookup_insert_eq. }
  apply wp_bind, (wp_acquire me [] s10 H10); [apply not_elem_of_nil|]. intros s11 H11 U11.
  apply wp_bind, (wp_upd_p me [Lptable] np _ _ _ _ _ _ H11 (transitivity U10 U11)). intros s12 H12 U12.
  apply wp_bind, (wp_release me [] Lptable _ _ H12); [apply not_elem_of_nil|]. intros s13 H13 U13. apply wp_ret.
  split; [done|]. split; [done|]. exact (transitivity U12 U13).
Qed.

Lemma fork_Ok : exists d s' tab frame', fork s = Ok (k_nextpid s) s' /\ thr me [] s' /\ upto (forked d (k_mem s') (k_freelist s')) s' /\
  same_image (k_mem s) pp (k_mem s') (V2P d) n /\ same_image (k_mem s) pp (k_mem s') pp n /\ uspace (k_mem s') (V2P d) /\
  aspace (k_mem s') (V2P d) tab n frame' flag /\ forall k, 0 <= k < n -> ~ as_pages pp tabp n frame (frame' k).
Proof.
  destruct fork_slots as [Hne _].
  cut (wp fork (fun r s' => r = k_nextpid s /\ exists d tab frame', thr me [] s' /\ upto (forked d (k_mem s') (k_freelist s')) s' /\
    same_image (k_mem s) pp (k_mem s') (V2P d) n /\ same_image (k_mem s) pp (k_mem s') pp n /\ uspace (k_mem s') (V2P d) /\
    aspace (k_mem s') (V2P d) tab n frame' flag /\ forall k, 0 <= k < n -> ~ as_pages pp tabp n frame (frame' k)) s).
  { intros (r & s' & E & -> & d & tab & frame' & Hs)%wp_iff. by exists d, s', tab, frame'. }
  unfold fork. apply wp_bind, (wp_curproc me [] s (fk_thr Hpre)). intros s1 H1 U1.
  destruct (fork_alloc s1 H1 U1) as (s2 & E2 & H2 & U2 & Hf2). apply wp_bind. eapply wp_of_eq; [exact E2|].
  apply wp_bind. eapply wp_of_eq.
  { apply get_p_Ok. rewrite (upto_proj k_ptable _ _ ltac:(done) U2). simpl. by rewrite list_lookup_insert_ne, (fk_me Hpre). }
  destruct (fork_copy s2 H2 U2 Hf2) as (d & s3 & tab & frame' & E3 & Hd & H3 & U3 & Himg). apply wp_bind.
  eapply wp_of_eq; [exact E3|]. rewrite (proj2 (Z.eqb_neq d 0) Hd), (fk_cwd Hpre), <- (fk_fds Hpre).
  eapply wp_mono; [apply (fork_rest d _ _ s3 H3 U3)|]. intros r s' (-> & H' & U'). split; [done|]. exists d, tab, frame'.
  rewrite (upto_proj k_mem _ _ ltac:(done) U'), (upto_proj k_freelist _ _ ltac:(done) U'). split_and!; try done; apply Himg.
Qed.
End fork.

(** C5: [fork] by process [me] with record [p], with an unused slot, a page for
    the kernel stack and pages for the copy, returns the next pid. One slot of
    the table changes: the child is runnable, has that pid and [me] as parent,
    [me]'s trap frame except that [eax] is 0, its size, descriptors, working
    directory and handler, and empty message and signal queues. Each open file
    gains one reference for each descriptor that names it and the working
    directory one. The child's user memory has the parent's bytes at every
    address, in frames that are not the parent's, and the parent's is as before. *)
Theorem fork_child me np s p n0 v l cwd pp tabp n frame flag :
  fork_pre me np s p n0 v l cwd pp tabp n frame flag ->
  exists d s' tab frame' c, fork s = Ok (k_nextpid s) s' /\ thr me [] s' /\
    k_nextpid s' = i32 (k_nextpid s + 1) /\ k_ptable s' = <[np := c]> (k_ptable s) /\
    p_state c = RUNNABLE /\ p_pid c = k_nextpid s /\ p_parent c = Some me /\ p_tf c = (p_tf p) <| tf_eax := 0 |> /\
    p_sz c = p_sz p /\ p_pgdir c = d /\ p_kstack c = v /\ p_ofile c = p_ofile p /\ p_cwd c = Some cwd /\ p_handler c = p_handler p /\
    p_handling c = 0 /\ ml_head (p_recv_queue c) = ml_tail (p_recv_queue c) /\
    ml_head (p_recv_multi_queue c) = ml_tail (p_recv_multi_queue c) /\ sg_head (p_pending_signals c) = sg_tail (p_pending_signals c) /\
    (forall f x, k_ftable s !! f = Some x -> k_ftable s' !! f = Some (x <| f_ref := f_ref x + occurs f (p_ofile p) |>)) /\
    k_icache s' = alter (set i_ref (fun x => x + 1)) cwd (k_icache s) /\
    same_image (k_mem s) pp (k_mem s') (V2P d) n /\ same_image (k_mem s) pp (k_mem s') pp n /\ uspace (k_mem s') (V2P d) /\
    aspace (k_mem s') (V2P d) tab n frame' flag /\ forall k, 0 <= k < n -> ~ as_pages pp tabp n frame (frame' k).
Proof.
  intros Hpre. destruct (fork_Ok me np s p n0 v l cwd pp tabp n frame flag Hpre) as (d & s' & tab & frame' & E & H' & U & Himg).
  exists d, s', tab, frame', (child me s p n0 v cwd d). split; [done|]. split; [done|].
  pose proof (upto_proj k_nextpid _ _ ltac:(done) U) as En. pose proof (upto_proj k_ptable _ _ ltac:(done) U) as Ep.
  pose proof (upto_proj k_ftable _ _ ltac:(done) U) as Ef. pose proof (upto_proj k_icache _ _ ltac:(done) U) as Ei.
  simpl in En, Ep, Ef, Ei. split; [done|]. split; [done|]. do 14 (split; [done|]). split; [|by split].
  intros f x Hx. rewrite Ef. by apply dup_files_lookup.
Qed.

(** A process with one page of memory and one file open as descriptors 0 and 1. *)
Definition fork_parent : proc :=
  (demo_proc 1 RUNNING ChNull) <| p_sz := 100 |> <| p_ofile := [Some 0%nat; Some 0%nat] ++ replicate 68 None |> <| p_cwd := Some 0%nat |>.
Definition fork_on (s0 : kstate) : kstate :=
  (demo [fork_parent]) <| k_mem := k_mem s0 |> <| k_freelist := k_freelist s0 |> <| k_link := k_link s0 |>
    <| k_ftable := <[0%nat := file0 <| f_ref := 2 |>]> (k_ftable (demo [])) |>.

Lemma fork_on_pre s0 v l frame flag : free_pages s0 (v :: l) -> link_ok (k_link s0) -> (1026 <= length l)%nat ->
  aspace (k_mem s0) 0x1000 vm_tab 1 frame flag -> (forall q, as_pages 0x1000 vm_tab 1 frame q -> ~ freed_pages (v :: l) q) ->
  fork_pre 0 1 (fork_on s0) fork_parent proc0 v l 0 0x1000 vm_tab 1 frame flag.
Proof.
  intros Hf Hl Hlen Has Hq. split; try done.
  - apply (thr_neutral (fun t => t <| k_mem := k_mem s0 |> <| k_freelist := k_freelist s0 |> <| k_link := k_link s0 |>
      <| k_ftable := <[0%nat := file0 <| f_ref := 2 |>]> (k_ftable (demo [])) |>)); [by split|done|].
    apply demo_thr; [done|unfold NPROC; simpl; lia].
  - by apply (free_pages_ext s0).
  - intros f Hf'. exists (file0 <| f_ref := 2 |>). split; [|done].
    assert (f = 0%nat) as -> by (repeat (apply elem_of_cons in Hf' as [Hf'|Hf']; [congruence|]); by apply elem_of_nil in Hf'). done.
Qed.

Lemma fork_on_fields s0 : k_nextpid (fork_on s0) = 2 /\ (1 < length (k_ptable (fork_on s0)))%nat /\
  k_ftable (fork_on s0) !! 0%nat = Some (file0 <| f_ref := 2 |>).
Proof. split_and!; [done| |done]. unfold fork_on, demo. simpl. lia. Qed.

Lemma vm_pages_cons : vm_pages = 0x80400000 :: tail vm_pages.
Proof. by vm_compute. Qed.

Lemma fork_child_witness : exists s' c, fork (fork_on vm_state) = Ok 2 s' /\ k_ptable s' !! 1%nat = Some c /\
  p_pid c = 2 /\ p_parent c = Some 0%nat /\ k_ftable s' !! 0%nat = Some (file0 <| f_ref := 4 |>).
Proof.
  assert (fork_pre 0 1 (fork_on vm_state) fork_parent proc0 0x80400000 (tail vm_pages) 0 0x1000 vm_tab 1 (fun _ => 0x300000) (fun _ => UFLAGS)) as Hpre.
  { apply fork_on_pre; rewrite <- ?vm_pages_cons; [apply vm_free_pages|by split| |apply vm_aspace|apply vm_apart_pages].
    pose proof vm_length as H. rewrite vm_pages_cons in H. cbn [length] in H. lia. }
  destruct (fork_child _ _ _ _ _ _ _ _ _ _ _ _ _ Hpre)
    as (d & s' & tab & frame' & c & E & _ & _ & Et & _ & Epid & Epar & _ & _ & _ & _ & _ & _ & _ & _ & _ & _ & _ & Ef & _).
  destruct (fork_on_fields vm_state) as (E1 & E2 & E3). rewrite E1 in E, Epid. exists s', c.
  split; [exact E|]. split; [rewrite Et; by apply list_lookup_insert_eq|]. split; [exact Epid|]. split; [exact Epar|].
  exact (Ef 0%nat _ E3).
Defined.
