(* ===== verification/Syscall.v ===== *)
(** * System call arguments (syscall.c)

    The arguments of a system call are words on the user stack.  A fetch
    returns [None] where the code returns -1 and leaves its output alone. *)

From stdpp Require Import base numbers list list_numbers gmap strings.
From S2P Require Import Prelude Kmonad Params Kstate Spinlock KString Kalloc Cprintf Vm Umem Demo.

Local Open Scope Z_scope.

(** ** The code *)

Definition cur_sz : KM Z :=
  let* i := curproc in
  let* p := get_p i in
  ret (p_sz p).

Definition fetchint (addr : Z) : KM (option Z) :=
  let* sz := cur_sz in
  if (sz <=? addr) || (sz <? u32 (addr + 4)) then ret None else
  let* v := uload32 addr in
  ret (Some (i32 v)).

(** The scan for the terminating 0 in [n] bytes from [s]: its distance from
    the start [pp]. *)
Fixpoint fetchstr_loop (n : nat) (pp s : Z) : KM (option Z) :=
  match n with
  | O => ret None
  | S n =>
      let* b := uload8 s in
      if b =? 0 then ret (Some (s - pp)) else fetchstr_loop n pp (s + 1)
  end.

Definition fetchstr (addr : Z) : KM (option Z) :=
  let* sz := cur_sz in
  if sz <=? addr then ret None else
  fetchstr_loop (Z.to_nat (sz - addr)) addr addr.

Definition argint (n : Z) : KM (option Z) :=
  let* i := curproc in
  let* p := get_p i in
  fetchint (u32 (tf_esp (p_tf p) + 4 + 4 * n)).

(** [argint] as an unsigned word, the form in which addresses are used. *)
Definition argptr (n size : Z) : KM (option Z) :=
  let* sz := cur_sz in
  let* r := argint n in
  match r with
  | None => ret None
  | Some i =>
      if (size <? 0) || (sz <=? u32 i) || (sz <? u32 (u32 i + size)) then ret None
      else ret (Some (u32 i))
  end.

(** Address and length of a string argument. *)
Definition argstr (n : Z) : KM (option (Z * Z)) :=
  let* r := argint n in
  match r with
  | None => ret None
  | Some addr =>
      let* r := fetchstr (u32 addr) in
      match r with
      | None => ret None
      | Some len => ret (Some (u32 addr, len))
      end
  end.

(** A string argument and its bytes, which stay in user memory until the
    call has used them. *)
Definition argpath (n : Z) : KM (option (list Z)) :=
  let* r := argstr n in
  match r with
  | None => ret None
  | Some (addr, len) => let* bs := uloads addr (Z.to_nat len) in ret (Some bs)
  end.

(** A call whose result is not checked: the variable stays uninitialised. *)
Definition unchecked {A} (m : KM (option A)) : KM A :=
  let* o := m in deref "uninitialised variable" o.

(** ** The current process *)

(** Process [i] runs on this CPU with page directory [pd]. *)
Definition current (i : nat) (pd : Z) (s : kstate) : Prop :=
  exists c cp, running c cp s /\ cpu_ok cp /\ cpu_proc cp = Some i /\ cpu_cr3 cp = pd.

#[export] Instance current_keq i pd : Proper (keq ==> iff) (current i pd).
Proof.
  assert (forall s s', s ≡ₖ s' -> current i pd s -> current i pd s') as H.
  { intros s s' E (c & cp & Hr & Hok & Hi & Hd).
    destruct (keq_running _ _ _ _ E Hr) as (cp' & Hr' & En). exists c, cp'.
    split_and!; [done|by eapply cpu_norm_ok|..].
    - by rewrite (cpu_norm_keeps cpu_proc cp cp').
    - by rewrite (cpu_norm_keeps cpu_cr3 cp cp'). }
  intros s s' E. split; apply H; [done|by symmetry].
Qed.

Lemma current_running i pd s : current i pd s -> exists c cp, running c cp s /\ cpu_cr3 cp = pd.
Proof. intros (c & cp & H & _ & _ & E). eauto. Qed.

Lemma call_curproc_Ok i pd s : current i pd s -> exists s', curproc s = Ok i s' /\ s' ≡ₖ s.
Proof.
  intros (c & cp & Hr & Hok & Hi & _). unfold curproc.
  rewrite (bind_Ok _ _ _ _ _ (myproc_Ok c cp s Hr Hok)), Hi.
  eexists. split; [reflexivity|]. by apply (touch_keq c cp).
Qed.

(** The state of a process in a system call: [sz] bytes of memory it can
    read, below the kernel. *)
Record in_call (i : nat) (pd : Z) (p : proc) (s : kstate) : Prop := {
  ic_cur : current i pd s;
  ic_slot : k_ptable s !! i = Some p;
  ic_sz : 0 <= p_sz p <= KERNBASE;
  ic_mem : forall va, 0 <= va < p_sz p -> is_Some (vtop (k_mem s) pd false va)
}.

#[export] Instance in_call_keq i pd p : Proper (keq ==> iff) (in_call i pd p).
Proof.
  assert (forall s s', s ≡ₖ s' -> in_call i pd p s -> in_call i pd p s') as H.
  { intros s s' E [H1 H2 H3 H4]. split; [by rewrite <- E| |done|].
    - by rewrite <- (keq_proj k_ptable _ _ ltac:(done) E).
    - by rewrite <- (keq_proj k_mem _ _ ltac:(done) E). }
  intros s s' E. split; apply H; [done|by symmetry].
Qed.

Lemma in_call_readable i pd p s va n :
  in_call i pd p s -> 0 <= va -> va + Z.of_nat n <= p_sz p -> ureadable (k_mem s) pd va n.
Proof.
  intros [_ _ Hsz Hm] H1 H2 k Hk. split; [unfold uaddr; lia|]. apply Hm. lia.
Qed.

Lemma cur_sz_Ok i pd p s : in_call i pd p s -> exists s', cur_sz s = Ok (p_sz p) s' /\ s' ≡ₖ s.
Proof.
  intros H. destruct (call_curproc_Ok i pd s (ic_cur _ _ _ _ H)) as (s1 & E1 & Es1). exists s1. split; [|done].
  unfold cur_sz. rewrite (bind_Ok _ _ _ _ _ E1). rewrite <- Es1 in H.
  by rewrite (bind_Ok _ _ _ _ _ (get_p_Ok _ _ _ (ic_slot _ _ _ _ H))).
Qed.

Definition uword (m : mem) (pd va : Z) : Z := of_le (ubytes m pd va 4).

Lemma call_uload32_Ok i pd p s va :
  in_call i pd p s -> 0 <= va -> va + 4 <= p_sz p -> uload32 va s = Ok (uword (k_mem s) pd va) s.
Proof.
  intros H H1 H2. destruct (current_running _ _ _ (ic_cur _ _ _ _ H)) as (c & cp & Hr & <-). unfold uload32.
  rewrite (bind_Ok _ _ _ _ _ (uloads_Ok c cp s va 4 Hr ltac:(by eapply in_call_readable))). done.
Qed.

(** [fetchint] reads the word at [addr] if it lies below [sz]. *)
Lemma fetchint_Ok i pd p s addr :
  in_call i pd p s -> 0 <= addr < 2 ^ 32 ->
  exists s', fetchint addr s
    = Ok (if addr + 4 <=? p_sz p then Some (i32 (uword (k_mem s) pd addr)) else None) s' /\ s' ≡ₖ s.
Proof.
  intros H Ha. destruct (cur_sz_Ok i pd p s H) as (s1 & E1 & Es1). exists s1. split; [|done].
  unfold fetchint. rewrite (bind_Ok _ _ _ _ _ E1). pose proof (ic_sz _ _ _ _ H) as Hsz.
  rewrite <- (keq_proj k_mem _ _ ltac:(done) Es1). rewrite <- Es1 in H. unfold KERNBASE in Hsz.
  destruct (Z.leb_spec (p_sz p) addr); simpl.
  { by rewrite (proj2 (Z.leb_gt _ _)) by lia. }
  rewrite u32_small by lia. destruct (Z.ltb_spec (p_sz p) (addr + 4)).
  { by rewrite (proj2 (Z.leb_gt _ _)) by lia. }
  rewrite (proj2 (Z.leb_le _ _)) by lia. by rewrite (bind_Ok _ _ _ _ _ (call_uload32_Ok i pd p s1 addr H ltac:(lia) ltac:(lia))).
Qed.

(** The address of argument [n], and the argument. *)
Definition arg_addr (p : proc) (n : Z) : Z := u32 (tf_esp (p_tf p) + 4 + 4 * n).
Definition arg_word (m : mem) (pd : Z) (p : proc) (n : Z) : option Z :=
  if arg_addr p n + 4 <=? p_sz p then Some (u32 (uword m pd (arg_addr p n))) else None.

Lemma argint_Ok i pd p s n :
  in_call i pd p s ->
  exists s', argint n s = Ok (i32 <$> arg_word (k_mem s) pd p n) s' /\ s' ≡ₖ s.
Proof.
  intros H. destruct (call_curproc_Ok i pd s (ic_cur _ _ _ _ H)) as (s1 & E1 & Es1). unfold argint.
  rewrite (bind_Ok _ _ _ _ _ E1). rewrite <- Es1 in H.
  rewrite (bind_Ok _ _ _ _ _ (get_p_Ok _ _ _ (ic_slot _ _ _ _ H))).
  destruct (fetchint_Ok i pd p s1 (arg_addr p n) H (u32_range _)) as (s2 & E2 & Es2).
  exists s2. split; [|by rewrite Es2]. unfold arg_addr in E2. rewrite E2. f_equal.
  unfold arg_word, arg_addr. rewrite (keq_proj k_mem _ _ ltac:(done) Es1).
  destruct (_ <=? _); [|done]. simpl. by rewrite i32_u32.
Qed.

(** [argptr] accepts a block that lies in the memory of the process. *)
Definition arg_block (m : mem) (pd : Z) (p : proc) (n size : Z) : option Z :=
  match arg_word m pd p n with
  | Some w => if (0 <=? size) && (w <? p_sz p) && (w + size <=? p_sz p) then Some w else None
  | None => None
  end.

Lemma argptr_Ok i pd p s n size :
  in_call i pd p s -> - 2 ^ 31 <= size < 2 ^ 31 ->
  exists s', argptr n size s = Ok (arg_block (k_mem s) pd p n size) s' /\ s' ≡ₖ s.
Proof.
  intros H Hs. destruct (cur_sz_Ok i pd p s H) as (s1 & E1 & Es1). unfold argptr.
  rewrite (bind_Ok _ _ _ _ _ E1). pose proof (ic_sz _ _ _ _ H) as Hsz. unfold KERNBASE in Hsz.
  rewrite <- Es1 in H. destruct (argint_Ok i pd p s1 n H) as (s2 & E2 & Es2).
  rewrite (bind_Ok _ _ _ _ _ E2). exists s2. split; [|by rewrite Es2].
  unfold arg_block. rewrite <- (keq_proj k_mem _ _ ltac:(done) Es1).
  destruct (arg_word (k_mem s1) pd p n) as [w|] eqn:Ew; [|done]. simpl.
  assert (0 <= w < 2 ^ 32) as Hw.
  { unfold arg_word in Ew. destruct (_ <=? _); [|done]. injection Ew as <-. apply u32_range. }
  rewrite u32_i32, (u32_small w) by done. rewrite (Z.ltb_antisym (p_sz p)), (Z.leb_antisym (p_sz p)).
  destruct (Z.ltb_spec size 0) as [Hn|Hn].
  { by rewrite (proj2 (Z.leb_gt 0 size)) by done. }
  rewrite (proj2 (Z.leb_le 0 size)) by done. cbn [andb orb].
  destruct (Z.leb_spec (p_sz p) w); cbn [negb andb orb]; [done|]. rewrite u32_small by lia. by destruct (_ <? _).
Qed.

Lemma fetchstr_loop_Ok i pd p s pp n : forall a,
  in_call i pd p s -> 0 <= a -> a + Z.of_nat n <= p_sz p ->
  fetchstr_loop n pp a s
  = Ok ((fun k => a + Z.of_nat k - pp) <$> find_idx (fun b => b =? 0) (ubytes (k_mem s) pd a n)) s.
Proof.
  induction n as [|n IH]; intros a H H1 H2; [done|]. cbn [fetchstr_loop].
  destruct (current_running _ _ _ (ic_cur _ _ _ _ H)) as (c & cp & Hr & <-).
  destruct (ic_mem _ _ _ _ H a ltac:(lia)) as [pa Hpa]. pose proof (ic_sz _ _ _ _ H).
  rewrite (bind_Ok _ _ _ _ _ (uload8_Ok c cp s a pa Hr ltac:(unfold uaddr; lia) Hpa)).
  rewrite ubytes_S. simpl. destruct (uget (k_mem s) (cpu_cr3 cp) a =? 0); simpl.
  { unfold ret. do 2 f_equal. lia. }
  rewrite IH by (done || lia). f_equal. destruct (find_idx _ _) as [k|]; [|done]. simpl. f_equal. lia.
Qed.

(** The string at an address: the distance of its terminating 0. *)
Definition str_len (m : mem) (pd : Z) (p : proc) (addr : Z) : option nat :=
  if addr <? p_sz p then find_idx (fun b => b =? 0) (ubytes m pd addr (Z.to_nat (p_sz p - addr))) else None.

Lemma fetchstr_Ok i pd p s addr :
  in_call i pd p s -> 0 <= addr ->
  exists s', fetchstr addr s = Ok (Z.of_nat <$> str_len (k_mem s) pd p addr) s' /\ s' ≡ₖ s.
Proof.
  intros H Ha. destruct (cur_sz_Ok i pd p s H) as (s1 & E1 & Es1). exists s1. split; [|done].
  unfold fetchstr, str_len. rewrite (bind_Ok _ _ _ _ _ E1).
  destruct (Z.leb_spec (p_sz p) addr).
  { by rewrite (proj2 (Z.ltb_ge _ _)) by lia. }
  rewrite (proj2 (Z.ltb_lt _ _)) by lia.
  rewrite <- Es1 in H. rewrite <- (keq_proj k_mem _ _ ltac:(done) Es1).
  rewrite (fetchstr_loop_Ok i pd p) by (done || lia). f_equal.
  destruct (find_idx _ _); [|done]. simpl. f_equal. lia.
Qed.

Definition arg_str (m : mem) (pd : Z) (p : proc) (n : Z) : option (Z * Z) :=
  match arg_word m pd p n with
  | Some w => (fun k => (w, Z.of_nat k)) <$> str_len m pd p w
  | None => None
  end.

Lemma argstr_Ok i pd p s n :
  in_call i pd p s -> exists s', argstr n s = Ok (arg_str (k_mem s) pd p n) s' /\ s' ≡ₖ s.
Proof.
  intros H. destruct (argint_Ok i pd p s n H) as (s1 & E1 & Es1). unfold argstr, arg_str.
  rewrite (bind_Ok _ _ _ _ _ E1). destruct (arg_word (k_mem s) pd p n) as [w|] eqn:Ew; [|by exists s1]. simpl.
  assert (0 <= w < 2 ^ 32) as Hw.
  { unfold arg_word in Ew. destruct (_ <=? _); [|done]. injection Ew as <-. apply u32_range. }
  rewrite u32_i32, (u32_small w) by done. rewrite <- Es1 in H.
  destruct (fetchstr_Ok i pd p s1 w H) as (s2 & E2 & Es2); [lia|]. rewrite (bind_Ok _ _ _ _ _ E2).
  exists s2. split; [|by rewrite Es2]. rewrite <- (keq_proj k_mem _ _ ltac:(done) Es1).
  by destruct (str_len _ _ _ _).
Qed.

(** C24: Fetching system call arguments is safe for every user program: in any
    process whose memory below [sz] is mapped, whatever its stack pointer and
    the words on its stack, [argint], [argptr] and [argstr] return without
    faulting and change nothing; an accepted pointer names a block inside the
    process's memory, and an accepted string ends inside it with its first
    zero byte. *)
Theorem argument_fetch_safe i pd p s n size :
  in_call i pd p s -> - 2 ^ 31 <= size < 2 ^ 31 ->
  (exists r s', argint n s = Ok r s' /\ s' ≡ₖ s) /\
  (exists r s', argptr n size s = Ok r s' /\ s' ≡ₖ s /\
     forall a, r = Some a -> 0 <= size /\ 0 <= a < p_sz p /\ a + size <= p_sz p) /\
  (exists r s', argstr n s = Ok r s' /\ s' ≡ₖ s /\
     forall a len, r = Some (a, len) ->
       0 <= a /\ 0 <= len /\ a + len < p_sz p /\ uget (k_mem s) pd (a + len) = 0 /\
       forall j, 0 <= j < len -> uget (k_mem s) pd (a + j) <> 0).
Proof.
  intros H Hs.
  assert (forall w, arg_word (k_mem s) pd p n = Some w -> 0 <= w < 2 ^ 32) as Hw.
  { intros w E. unfold arg_word in E. destruct (_ <=? _); [|done]. injection E as <-. apply u32_range. }
  split; [|split].
  - destruct (argint_Ok i pd p s n H) as (s' & E & Es). eauto.
  - destruct (argptr_Ok i pd p s n size H Hs) as (s' & E & Es). eexists _, s'. split_and!; [done..|].
    intros a Ea. unfold arg_block in Ea. destruct (arg_word (k_mem s) pd p n) as [w|]; [|done].
    destruct (Z.leb_spec 0 size); [|done]. destruct (Z.ltb_spec w (p_sz p)); [|done].
    destruct (Z.leb_spec (w + size) (p_sz p)); [|done]. injection Ea as <-. specialize (Hw w eq_refl). lia.
  - destruct (argstr_Ok i pd p s n H) as (s' & E & Es). eexists _, s'. split_and!; [done..|].
    intros a len Ea. unfold arg_str in Ea. destruct (arg_word (k_mem s) pd p n) as [w|]; [|done].
    specialize (Hw w eq_refl). unfold str_len in Ea. destruct (Z.ltb_spec w (p_sz p)); [|done].
    destruct (find_idx _ _) as [k|] eqn:Ek; [|done]. injection Ea as <- <-.
    apply find_idx_Some in Ek as (b & Hb & Ht & Hbefore). apply Z.eqb_eq in Ht. subst b.
    unfold ubytes in Hb, Hbefore. rewrite list_lookup_fmap in Hb.
    destruct (seq 0 (Z.to_nat (p_sz p - w)) !! k) as [k'|] eqn:El; [|done]. apply lookup_seq in El as [-> Hk].
    simpl in Hb. injection Hb as Hb. split_and!; [lia..|done|]. intros j Hj Hz.
    specialize (Hbefore (Z.to_nat j) (uget (k_mem s) pd (w + j)) ltac:(lia)).
    rewrite list_lookup_fmap, lookup_seq_lt in Hbefore by lia. simpl in Hbefore.
    rewrite Z2Nat.id in Hbefore by lia. rewrite Hz in Hbefore. by specialize (Hbefore eq_refl).
Qed.

(** A process in a call with stack pointer [esp], in the one page it has. *)
Definition call_proc (esp : Z) : proc :=
  (demo_proc 1 RUNNING ChNull) <| p_tf := tf0 <| tf_esp := esp |> |>.

Lemma demo_in_call p : p_sz p = 4096 -> in_call 0 0x1000 p (demo [p]).
Proof.
  intros Hsz. split; [|done|unfold KERNBASE; lia|].
  - exists 0%nat, demo_cpu. destruct (demo_ready [p] Lptable) as (H & Hok & _). by split_and!.
  - intros va Hva. change (k_mem (demo [p])) with demo_mem. rewrite demo_vtop by (done || unfold uaddr, KERNBASE; lia).
    rewrite (proj2 (Z.ltb_lt _ _)) by lia. by eexists.
Qed.

Lemma argument_fetch_safe_witness :
  (exists r s', argint 1 (demo [call_proc 4092]) = Ok r s' /\ s' ≡ₖ demo [call_proc 4092]) /\
  (exists r s', argptr 1 8 (demo [call_proc 4092]) = Ok r s' /\ s' ≡ₖ demo [call_proc 4092] /\
     forall a, r = Some a -> 0 <= 8 /\ 0 <= a < 4096 /\ a + 8 <= 4096) /\
  (exists r s', argstr 1 (demo [call_proc 4092]) = Ok r s' /\ s' ≡ₖ demo [call_proc 4092] /\
     forall a len, r = Some (a, len) ->
       0 <= a /\ 0 <= len /\ a + len < 4096 /\ uget demo_mem 0x1000 (a + len) = 0 /\
       forall j, 0 <= j < len -> uget demo_mem 0x1000 (a + j) <> 0).
Proof. apply (argument_fetch_safe 0 0x1000 (call_proc 4092) (demo [call_proc 4092]) 1 8); [by apply demo_in_call|lia]. Defined.
