(* ===== verification/Exec.v ===== *)
(** * Loading programs (exec.c; vm.c: loaduvm) *)

From stdpp Require Import base numbers list list_numbers gmap strings.
From S2P Require Import Prelude Kmonad Params Kstate Spinlock KString Kalloc Cprintf Vm Umem Sched Sleeplock Bio Log Fs Pipe File Proc.

Local Open Scope Z_scope.

(** ** elf.h *)

Definition ELF_MAGIC : Z := 0x464C457F.
Definition ELF_PROG_LOAD : Z := 1.
(** [struct elfhdr] (52 bytes) and [struct proghdr] (32 bytes): the fields
    the loader uses. *)
Definition ELFHDR_SIZE : Z := 52.
Definition PROGHDR_SIZE : Z := 32.
Definition elf_magic (elf : list Z) : Z := get_u32 elf 0.
Definition elf_entry (elf : list Z) : Z := get_u32 elf 24.
Definition elf_phoff (elf : list Z) : Z := get_u32 elf 28.
Definition elf_phnum (elf : list Z) : Z := get_u16 elf 44.
Definition ph_type (ph : list Z) : Z := get_u32 ph 0.
Definition ph_off (ph : list Z) : Z := get_u32 ph 4.
Definition ph_vaddr (ph : list Z) : Z := get_u32 ph 8.
Definition ph_filesz (ph : list Z) : Z := get_u32 ph 16.
Definition ph_memsz (ph : list Z) : Z := get_u32 ph 20.

Section exec.
Context {D : Disk} (fuel : nat) (devsw : Z -> devops).

(** vm.c: the loop of [loaduvm], a page per round. *)
Fixpoint loaduvm_loop (rounds : nat) (pgdir addr : Z) (ip : nat) (offset sz i : Z) : KM Z :=
  if negb (i <? sz) then ret 0 else
  match rounds with
  | O => nofuel
  | S rounds =>
      let* pte := walkpgdir pgdir (u32 (addr + i)) false in
      if pte =? 0 then panic "loaduvm: address should exist" else
      let* e := kload32 pte in
      let n := if sz - i <? PGSIZE then sz - i else PGSIZE in
      let* (r, _) := readi fuel devsw ip (PPage (P2V (PTE_ADDR e))) (u32 (offset + i)) n in
      if negb (u32 r =? n) then ret (-1)
      else loaduvm_loop rounds pgdir addr ip offset sz (i + PGSIZE)
  end.

Definition loaduvm (pgdir addr : Z) (ip : nat) (offset sz : Z) : KM Z :=
  if negb (addr mod PGSIZE =? 0) then panic "loaduvm: addr must be page aligned" else
  loaduvm_loop (S (Z.to_nat (sz / PGSIZE))) pgdir addr ip offset sz 0.

(** One round of the loop over the program headers: the new size, or [None]
    for [goto bad]. *)
Definition load_segment (ip : nat) (pgdir off sz : Z) : KM (option Z) :=
  let* (r, ph) := readi fuel devsw ip (PLocal []) off PROGHDR_SIZE in
  let ph := local ph in
  if negb (u32 r =? PROGHDR_SIZE) then ret None else
  if negb (ph_type ph =? ELF_PROG_LOAD) then ret (Some sz) else
  if ph_memsz ph <? ph_filesz ph then ret None else
  if u32 (ph_vaddr ph + ph_memsz ph) <? ph_vaddr ph then ret None else
  let* sz := allocuvm pgdir sz (u32 (ph_vaddr ph + ph_memsz ph)) in
  if sz =? 0 then ret None else
  if negb (ph_vaddr ph mod PGSIZE =? 0) then ret None else
  let* r := loaduvm pgdir (ph_vaddr ph) ip (ph_off ph) (ph_filesz ph) in
  if r <? 0 then ret None else ret (Some sz).

Fixpoint load_segments (n : nat) (ip : nat) (pgdir off sz : Z) : KM (option Z) :=
  match n with
  | O => ret (Some sz)
  | S n =>
      let* r := load_segment ip pgdir off sz in
      match r with
      | None => ret None
      | Some sz => load_segments n ip pgdir (u32 (off + PROGHDR_SIZE)) sz
      end
  end.

(** Push the argument strings: the stack pointer and [ustack[3..]], or [None]
    for [goto bad]. *)
Fixpoint push_args (pgdir : Z) (argv : list (list Z)) (argc : nat) (sp : Z) (ustack : list Z)
    : KM (option (Z * list Z)) :=
  match argv with
  | [] => ret (Some (sp, ustack))
  | a :: argv =>
      if (MAXARG <=? argc)%nat then ret None else
      let sp := Z.land (u32 (sp - (strlen a + 1))) (u32 (Z.lnot 3)) in
      let* r := copyout pgdir sp (a ++ [0]) in
      if r <? 0 then ret None else push_args pgdir argv (S argc) sp (ustack ++ [sp])
  end.

(** The name after the last slash. *)
Fixpoint last_elem (last s : list Z) : list Z :=
  match s with
  | [] => last
  | c :: s => last_elem (if c =? slash then s else last) s
  end.

(** [goto bad], with the page table made so far and the inode still held. *)
Definition exec_bad (pgdir : Z) (ip : option nat) : KM Z :=
  when (negb (pgdir =? 0)) (freevm pgdir) ;;
  match ip with
  | Some i => iunlockput fuel i ;; end_op fuel
  | None => ret tt
  end ;;
  ret (-1).

(** From the loaded image to the new program: stack, arguments, commit. *)
Definition exec_image (cur : nat) (path : list Z) (argv : list (list Z)) (entry pgdir sz : Z)
    : KM Z :=
  let sz := PGROUNDUP sz in
  let* sz := allocuvm pgdir sz (u32 (sz + 2 * PGSIZE)) in
  if sz =? 0 then exec_bad pgdir None else
  clearpteu pgdir (u32 (sz - 2 * PGSIZE)) ;;
  let* r := push_args pgdir argv 0 sz [] in
  match r with
  | None => exec_bad pgdir None
  | Some (sp, args) =>
      let argc := Z.of_nat (length args) in
      let ustack := [0xffffffff; argc; u32 (sp - (argc + 1) * 4)] ++ args ++ [0] in
      let sp := u32 (sp - (3 + argc + 1) * 4) in
      let* r := copyout pgdir sp (flat_map (le_bytes 4) ustack) in
      if r <? 0 then exec_bad pgdir None else
      upd_p cur (set_name (last_elem path path)) ;;
      let* p := get_p cur in
      let oldpgdir := p_pgdir p in
      upd_p cur (fun p => p <| p_pgdir := pgdir |> <| p_sz := sz |> <| p_handler := 0 |>
        <| p_tf := (p_tf p) <| tf_eip := entry |> <| tf_esp := sp |> |>) ;;
      switchuvm (Some cur) ;;
      freevm oldpgdir ;;
      ret 0
  end.

Definition exec (path : list Z) (argv : list (list Z)) : KM Z :=
  let* cur := curproc in
  begin_op fuel ;;
  let* r := namei fuel devsw path in
  match r with
  | None =>
      end_op fuel ;;
      cprintf (bytes "exec: fail" ++ [10]) [] ;;
      ret (-1)
  | Some ip =>
      ilock fuel (Some ip) ;;
      let* (r, elf) := readi fuel devsw ip (PLocal []) 0 ELFHDR_SIZE in
      let elf := local elf in
      if negb (u32 r =? ELFHDR_SIZE) then exec_bad 0 (Some ip) else
      if negb (elf_magic elf =? ELF_MAGIC) then exec_bad 0 (Some ip) else
      let* pgdir := setupkvm in
      if pgdir =? 0 then exec_bad 0 (Some ip) else
      let* r := load_segments (Z.to_nat (elf_phnum elf)) ip pgdir (elf_phoff elf) 0 in
      match r with
      | None => exec_bad pgdir (Some ip)
      | Some sz =>
          iunlockput fuel ip ;;
          end_op fuel ;;
          exec_image cur path argv (elf_entry elf) pgdir sz
      end
  end.
End exec.
