(* ===== verification/Boot.v ===== *)
(** * The boot loader (bootmain.c)

    [bootmain] reads the header of the kernel from the disk, loads its segments
    and jumps to its entry.  Memory is physical; the disk gives the bytes of a
    sector of a drive, and waiting for it has no effect. *)

From stdpp Require Import base numbers list list_numbers sorting gmap.
From S2P Require Import Prelude KString Exec.

Local Open Scope Z_scope.

Definition SECTSIZE : Z := 512.

Section boot.
(** [disk drive lba]: the sector's bytes. *)
Context (disk : Z -> Z -> list Z).

(** [outb] of the sector's number to the ports 0x1F3 to 0x1F6: three bytes of
    the number, and its upper bits together with the drive. *)
Definition lba (offset : Z) : Z :=
  let dev := u8 (Z.lor (Z.shiftr offset 24) 0xE0) in
  u8 offset + 2 ^ 8 * u8 (Z.shiftr offset 8) + 2 ^ 16 * u8 (Z.shiftr offset 16) + 2 ^ 24 * Z.land dev 0x0F.
Definition drive (offset : Z) : Z :=
  let dev := u8 (Z.lor (Z.shiftr offset 24) 0xE0) in Z.land (Z.shiftr dev 4) 1.

Definition readsect (m : mem) (dst offset : Z) : mem := stores m dst (disk (drive offset) (lba offset)).

Fixpoint readseg_loop (rounds : nat) (m : mem) (pa epa offset : Z) : option mem :=
  match rounds with
  | O => None
  | S rounds =>
      if pa <? epa then readseg_loop rounds (readsect m pa offset) (u32 (pa + SECTSIZE)) epa (u32 (offset + 1))
      else Some m
  end.

Definition readseg (m : mem) (pa count offset : Z) : option mem :=
  let epa := u32 (pa + count) in
  let pa := u32 (pa - offset mod SECTSIZE) in
  let offset := u32 (offset / SECTSIZE + 1) in
  readseg_loop (Z.to_nat (count / SECTSIZE + 3)) m pa epa offset.

(** elf.h *)
Definition ph_paddr (ph : list Z) : Z := get_u32 ph 12.

(** The loop over the program headers, [n] of them from [ph] on. *)
Fixpoint load_phs (n : nat) (m : mem) (ph : Z) : option mem :=
  match n with
  | O => Some m
  | S n =>
      let h := loads m ph 32 in
      let pa := ph_paddr h in
      match readseg m pa (ph_filesz h) (ph_off h) with
      | None => None
      | Some m =>
          let m := if ph_filesz h <? ph_memsz h then stosb m (u32 (pa + ph_filesz h)) 0 (Z.to_nat (ph_memsz h - ph_filesz h)) else m in
          load_phs n m (u32 (ph + 32))
      end
  end.

Definition scratch : Z := 0x10000.

(** The address that is called, or [None] if there is no kernel. *)
Definition bootmain (m : mem) : option (option Z * mem) :=
  match readseg m scratch 4096 0 with
  | None => None
  | Some m =>
      let elf := loads m scratch 52 in
      if negb (elf_magic elf =? ELF_MAGIC) then Some (None, m) else
      match load_phs (Z.to_nat (elf_phnum elf)) m (u32 (scratch + elf_phoff elf)) with
      | None => None
      | Some m => Some (Some (elf_entry (loads m scratch 52)), m)
      end
  end.

(** ** The kernel's file, from sector 1 on *)

Definition img (o : Z) : Z := nthZ (disk 0 (1 + o / SECTSIZE)) (Z.to_nat (o mod SECTSIZE)).
Fixpoint img_bytes (o : Z) (n : nat) : list Z := match n with O => [] | S n => img o :: img_bytes (o + 1) n end.

Context (Hdisk : forall k, length (disk 0 k) = 512%nat /\ Forall byte_ok (disk 0 k)).

Lemma drive_low offset : 0 <= offset < 2 ^ 28 -> drive offset = 0 /\ lba offset = offset.
Proof.
  intros Ho. assert (0 <= Z.shiftr offset 24 < 16) as Hs.
  { rewrite Z.shiftr_div_pow2 by lia. split; [apply Z.div_pos; lia|]. apply Z.div_lt_upper_bound; lia. }
  unfold drive, lba. set (h := Z.shiftr offset 24) in *.
  assert (u8 (Z.lor h 0xE0) = 0xE0 + h) as Ed.
  { assert (h = 0 \/ h = 1 \/ h = 2 \/ h = 3 \/ h = 4 \/ h = 5 \/ h = 6 \/ h = 7 \/ h = 8 \/ h = 9 \/ h = 10 \/ h = 11 \/ h = 12 \/ h = 13 \/ h = 14 \/ h = 15) as Hh by lia.
    repeat destruct Hh as [->|Hh]; try done. by rewrite Hh. }
  rewrite Ed. split.
  - rewrite Z.shiftr_div_pow2 by lia. replace ((0xE0 + h) / 2 ^ 4) with 14 by (apply Z.div_unique with h; lia). done.
  - change 0x0F with (Z.ones 4). rewrite Z.land_ones by lia. replace ((0xE0 + h) mod 2 ^ 4) with h by (apply Z.mod_unique with 14; lia).
    unfold h, u8. rewrite !Z.shiftr_div_pow2 by lia. change (2 ^ 24) with (2 ^ 8 * (2 ^ 8 * 2 ^ 8)) at 2. change (2 ^ 16) with (2 ^ 8 * 2 ^ 8).
    rewrite <- !Z.div_div by lia. pose proof (Z.div_mod offset (2 ^ 8) ltac:(lia)). pose proof (Z.div_mod (offset / 2 ^ 8) (2 ^ 8) ltac:(lia)).
    pose proof (Z.div_mod (offset / 2 ^ 8 / 2 ^ 8) (2 ^ 8) ltac:(lia)). lia.
Qed.

Lemma load8_readsect m dst offset a : 0 <= offset < 2 ^ 28 ->
  load8 (readsect m dst offset) a = if decide (dst <= a < dst + 512) then img (512 * (offset - 1) + (a - dst)) else load8 m a.
Proof.
  intros Ho. destruct (drive_low offset Ho) as [Ed El]. unfold readsect. rewrite Ed, El, load8_stores. destruct (Hdisk offset) as [Hl Hb]. rewrite Hl.
  change (Z.of_nat 512) with 512. case_decide as Ha; [|done]. unfold img, SECTSIZE. rewrite Z.mul_comm, Z.div_add_l, Z.div_small by lia.
  rewrite (Z.add_comm ((offset - 1) * 512) (a - dst)), Z.mod_add, Z.mod_small by lia. replace (1 + (offset - 1 + 0)) with offset by lia.
  unfold u8. apply Z.mod_small. unfold nthZ. destruct (lookup_lt_is_Some_2 (disk 0 offset) (Z.to_nat (a - dst))) as [x Hx]; [lia|]. rewrite Hx.
  by apply (Forall_lookup_1 _ _ _ _ Hb Hx).
Qed.

Lemma readseg_loop_ok n : forall rounds m pa epa offset, (n < rounds)%nat -> 0 <= pa -> epa <= pa + 512 * Z.of_nat n ->
  (n = 0%nat \/ pa + 512 * (Z.of_nat n - 1) < epa) -> pa + 512 * Z.of_nat n < 2 ^ 32 -> 0 <= offset -> offset + Z.of_nat n < 2 ^ 28 ->
  exists m', readseg_loop rounds m pa epa offset = Some m' /\
    forall a, load8 m' a = if decide (pa <= a < pa + 512 * Z.of_nat n) then img (512 * (offset - 1) + (a - pa)) else load8 m a.
Proof.
  induction n as [|n IH]; intros [|rounds] m pa epa offset Hr Hp He He' Hb Ho Ho'; try lia; cbn [readseg_loop].
  - rewrite (proj2 (Z.ltb_ge pa epa)) by lia. exists m. split; [done|]. intros a. by rewrite decide_False by lia.
  - rewrite (proj2 (Z.ltb_lt pa epa)) by lia. unfold SECTSIZE. rewrite (u32_small (pa + 512)), (u32_small (offset + 1)) by lia.
    destruct (IH rounds (readsect m pa offset) (pa + 512) epa (offset + 1)) as (m' & -> & Hm'); try lia.
    exists m'. split; [done|]. intros a. rewrite Hm'. destruct (decide (pa + 512 <= a < pa + 512 + 512 * Z.of_nat n)).
    + rewrite decide_True by lia. f_equal. lia.
    + rewrite load8_readsect by lia. destruct (decide (pa <= a < pa + 512)); [by rewrite decide_True by lia|by rewrite decide_False by lia].
Qed.

(** The sectors of [count] bytes at [off]. *)
Definition nsect (count off : Z) : Z := (count + off mod 512 + 511) / 512.

(** The bytes asked for are loaded; what else is written is the rest of the
    first and of the last sector. *)
Lemma readseg_ok m pa count off : 0 <= count -> 0 <= off -> off + count < 2 ^ 36 -> off mod 512 <= pa -> pa + count + 512 < 2 ^ 32 ->
  exists m', readseg m pa count off = Some m' /\
    forall a, load8 m' a = if decide (pa - off mod 512 <= a < pa - off mod 512 + 512 * nsect count off) then img (off + (a - pa)) else load8 m a.
Proof.
  intros Hc Ho Hoc Hp Hb. unfold readseg, nsect, SECTSIZE. set (r := off mod 512) in *.
  pose proof (Z.mod_pos_bound off 512 ltac:(lia)) as Hr. fold r in Hr. pose proof (Z.div_mod off 512 ltac:(lia)) as Hd. fold r in Hd.
  pose proof (Z.div_mod (count + r + 511) 512 ltac:(lia)) as Hn. pose proof (Z.mod_pos_bound (count + r + 511) 512 ltac:(lia)). set (n := (count + r + 511) / 512) in *.
  pose proof (Z.div_mod count 512 ltac:(lia)). pose proof (Z.mod_pos_bound count 512 ltac:(lia)). pose proof (Z.div_pos off 512 Ho ltac:(lia)).
  rewrite !u32_small by lia.
  destruct (readseg_loop_ok (Z.to_nat n) (Z.to_nat (count / 512 + 3)) m (pa - r) (pa + count) (off / 512 + 1)) as (m' & -> & Hm'); try lia.
  exists m'. split; [done|]. intros a. rewrite Hm'. rewrite Z2Nat.id by lia. case_decide; [|done]. f_equal. lia.
Qed.

(** ** Segments *)

Definition seg_start (h : list Z) : Z := ph_paddr h - ph_off h mod 512.
Definition seg_end (h : list Z) : Z := ph_paddr h + Z.max (ph_filesz h) (ph_memsz h).

(** A segment lies above the page with the headers. *)
Record seg_ok (h : list Z) : Prop := {
  so_bytes : Forall byte_ok h;
  so_start : scratch + 4096 <= seg_start h;
  so_end : seg_end h + 512 < 2 ^ 32
}.
(** [h] ends before the first sector that is read for [h'] begins: the loader
    rounds the address of a segment down to a sector of the file. *)
Definition seg_before (h h' : list Z) : Prop := seg_end h <= seg_start h'.

(** The bytes of the file, then zeroes. *)
Definition loaded (m : mem) (h : list Z) : Prop :=
  (forall k, 0 <= k < ph_filesz h -> load8 m (ph_paddr h + k) = img (ph_off h + k)) /\
  (forall k, ph_filesz h <= k < ph_memsz h -> load8 m (ph_paddr h + k) = 0).

Definition headers (m : mem) : Prop := forall o, 0 <= o < 4096 -> load8 m (scratch + o) = img o.

Lemma field_bound h off : Forall byte_ok h -> 0 <= get_u32 h off < 2 ^ 32.
Proof.
  intros H. unfold get_u32. pose proof (of_le_range (take 4 (drop off h)) ltac:(by apply Forall_take, Forall_drop)) as E. assert (length (take 4 (drop off h)) <= 4)%nat by (rewrite length_take; lia).
  pose proof (Z.pow_le_mono_r 256 (Z.of_nat (length (take 4 (drop off h)))) 4 ltac:(lia) ltac:(lia)). change (256 ^ 4) with (2 ^ 32) in *. lia.
Qed.

Definition load_one (m : mem) (h : list Z) : option mem :=
  match readseg m (ph_paddr h) (ph_filesz h) (ph_off h) with
  | None => None
  | Some m => Some (if ph_filesz h <? ph_memsz h then stosb m (u32 (ph_paddr h + ph_filesz h)) 0 (Z.to_nat (ph_memsz h - ph_filesz h)) else m)
  end.

Lemma load_one_ok m h : seg_ok h -> exists m', load_one m h = Some m' /\ loaded m' h /\ forall a, a < seg_start h -> load8 m' a = load8 m a.
Proof.
  intros [Hb Hs He]. unfold seg_start, seg_end, scratch, load_one in *.
  pose proof (field_bound h 4 Hb) as H1. pose proof (field_bound h 12 Hb) as H2. pose proof (field_bound h 16 Hb) as H3. pose proof (field_bound h 20 Hb) as H4.
  fold (ph_off h) in H1. fold (ph_paddr h) in H2. fold (ph_filesz h) in H3. fold (ph_memsz h) in H4.
  pose proof (Z.mod_pos_bound (ph_off h) 512 ltac:(lia)) as Hr.
  destruct (readseg_ok m (ph_paddr h) (ph_filesz h) (ph_off h)) as (m1 & -> & Hm1); try lia. unfold nsect in Hm1.
  pose proof (Z.div_mod (ph_filesz h + ph_off h mod 512 + 511) 512 ltac:(lia)) as Hn. pose proof (Z.mod_pos_bound (ph_filesz h + ph_off h mod 512 + 511) 512 ltac:(lia)).
  set (n := (ph_filesz h + ph_off h mod 512 + 511) / 512) in *.
  assert (forall k, 0 <= k < ph_filesz h -> load8 m1 (ph_paddr h + k) = img (ph_off h + k)) as Hf.
  { intros k Hk. rewrite Hm1, decide_True by lia. f_equal. lia. }
  eexists. split; [done|]. destruct (Z.ltb_spec (ph_filesz h) (ph_memsz h)) as [Hlt|Hge].
  - rewrite u32_small by lia. split; [split|].
    + intros k Hk. rewrite load8_stosb, decide_False by lia. by apply Hf.
    + intros k Hk. by rewrite load8_stosb, decide_True by lia.
    + intros a Ha. rewrite load8_stosb, decide_False by lia. by rewrite Hm1, decide_False by lia.
  - split; [split; [done|lia]|]. intros a Ha. by rewrite Hm1, decide_False by lia.
Qed.

Lemma loaded_kept m m' h b : loaded m h -> seg_end h <= b -> (forall a, a < b -> load8 m' a = load8 m a) -> loaded m' h.
Proof.
  intros [H1 H2] Hb Hm. unfold seg_end in Hb. split; intros k Hk; rewrite Hm by lia; [by apply H1|by apply H2].
Qed.

Lemma loads_headers m n : forall o, headers m -> 0 <= o -> o + Z.of_nat n <= 4096 -> loads m (scratch + o) n = img_bytes o n.
Proof.
  induction n as [|n IH]; intros o Hm Ho Hn; cbn [loads img_bytes]; [done|]. rewrite Hm by lia. f_equal. rewrite <- Z.add_assoc. apply IH; [done|lia|lia].
Qed.

Lemma headers_kept m m' b : headers m -> scratch + 4096 <= b -> (forall a, a < b -> load8 m' a = load8 m a) -> headers m'.
Proof. intros Hh Hb Hm o Ho. rewrite Hm by lia. by apply Hh. Qed.

(** The segments are loaded in increasing order, so none is overwritten. *)
Lemma load_phs_ok hs : forall m o ds, headers m -> 0 <= o -> o + 32 * Z.of_nat (length hs) <= 4096 ->
  (forall k h, hs !! k = Some h -> h = img_bytes (o + 32 * Z.of_nat k) 32) -> Forall seg_ok hs -> StronglySorted seg_before hs ->
  Forall (loaded m) ds -> (forall d h, d ∈ ds -> h ∈ hs -> seg_before d h) ->
  exists m', load_phs (length hs) m (scratch + o) = Some m' /\ headers m' /\ Forall (loaded m') (ds ++ hs).
Proof.
  induction hs as [|h hs IH]; intros m o ds Hh Ho Hb Hhs Hok Hsort Hds Hbef; cbn [length load_phs].
  { exists m. by rewrite app_nil_r. }
  apply Forall_cons in Hok as [Hok1 Hok]. inversion_clear Hsort as [|? ? Hsort' Hfirst].
  cbn [length] in Hb. rewrite (loads_headers m 32 o) by (done || lia). pose proof (Hhs 0%nat h eq_refl) as Eh. rewrite Z.mul_0_r, Z.add_0_r in Eh. rewrite <- Eh.
  destruct (load_one_ok m h Hok1) as (m1 & E1 & L1 & K1). unfold load_one in E1. destruct (readseg m (ph_paddr h) (ph_filesz h) (ph_off h)) as [m0|]; [|done].
  injection E1 as E1. rewrite E1. rewrite u32_small by (unfold scratch; lia). rewrite <- Z.add_assoc.
  destruct (IH m1 (o + 32) (ds ++ [h])) as (m' & -> & Hh' & Hl'); [by eapply headers_kept; [|apply so_start|]|lia|lia| |done|done| | |].
  - intros k h' Hk. rewrite (Hhs (S k) h' Hk). f_equal. lia.
  - apply Forall_app. split; [|by constructor]. apply Forall_forall. intros d Hd. rewrite Forall_forall in Hds.
    eapply loaded_kept; [by apply Hds|apply (Hbef d h Hd); by left|done].
  - intros d h' [Hd|Hd%list_elem_of_singleton]%elem_of_app Hh2; [apply Hbef; [done|by right]|]. subst d. rewrite Forall_forall in Hfirst. by apply Hfirst.
  - exists m'. rewrite <- app_assoc in Hl'. done.
Qed.

Lemma img_bytes_ok n : forall o, Forall byte_ok (img_bytes o n).
Proof.
  induction n as [|n IH]; intros o; cbn [img_bytes]; constructor; [|apply IH]. unfold img, nthZ. destruct (Hdisk (1 + o / SECTSIZE)) as [_ Hb].
  destruct (_ !! _) as [x|] eqn:Hx; [by apply (Forall_lookup_1 _ _ _ _ Hb Hx)|unfold byte_ok; simpl; lia].
Qed.

(** C22: if the disk has a kernel from sector 1 on, whose program headers are in
    its first page and whose segments go to increasing addresses above the
    loader's scratch page, each one ending before the first sector of the next,
    which begins up to 511 bytes before the segment, then the loader calls the
    entry of the kernel with every segment in memory: the bytes of the file,
    then zeroes up to its size in memory.  The bytes of whole sectors that are
    loaded before and after a segment do no harm. *)
Theorem bootmain_loads m hs : let elf := img_bytes 0 52 in
  elf_magic elf = ELF_MAGIC -> elf_phoff elf + 32 * elf_phnum elf <= 4096 -> Z.of_nat (length hs) = elf_phnum elf ->
  (forall k h, hs !! k = Some h -> h = img_bytes (elf_phoff elf + 32 * Z.of_nat k) 32) -> Forall seg_ok hs -> StronglySorted seg_before hs ->
  exists m', bootmain m = Some (Some (elf_entry elf), m') /\ Forall (loaded m') hs.
Proof.
  intros elf Hmag Hph Hn Hhs Hok Hsort. unfold bootmain. destruct (readseg_ok m scratch 4096 0) as (m1 & -> & Hm1); [lia|lia|lia|by vm_compute|by vm_compute|].
  assert (headers m1) as Hh1.
  { intros o Ho. rewrite Hm1. change (nsect 4096 0) with 8. rewrite Z.mod_0_l by lia. rewrite decide_True by lia. f_equal. lia. }
  pose proof (loads_headers m1 52 0 Hh1 ltac:(lia) ltac:(lia)) as El. rewrite Z.add_0_r in El. rewrite El. fold elf. rewrite Hmag, Z.eqb_refl. cbn [negb].
  assert (Forall byte_ok elf) as Hb by apply img_bytes_ok. pose proof (field_bound elf 28 Hb) as Hp. fold (elf_phoff elf) in Hp.
  rewrite <- Hn, Nat2Z.id. rewrite u32_small by (unfold scratch; lia).
  destruct (load_phs_ok hs m1 (elf_phoff elf) []) as (m2 & -> & Hh2 & Hl2); try done; [lia|lia|by intros d h Hd; apply not_elem_of_nil in Hd|].
  exists m2. pose proof (loads_headers m2 52 0 Hh2 ltac:(lia) ltac:(lia)) as El2. rewrite Z.add_0_r in El2. by rewrite El2.
Qed.
End boot.

(** A small kernel. *)
Definition ph_bytes (off paddr filesz memsz : Z) : list Z :=
  flat_map (le_bytes 4) [1; off; 0; paddr; filesz; memsz; 0; 0].
Definition kernel_file : list Z :=
  put_u16 (put_u32 (put_u32 (put_u32 (replicate 52 0) 0 ELF_MAGIC) 24 0x10000C) 28 52) 44 2 ++
  ph_bytes 512 0x100000 5 8 ++ ph_bytes 520 0x101008 3 3 ++ replicate 396 0 ++ [1; 2; 3; 4; 5; 255; 255; 255; 7; 8; 9].
Definition kernel_disk (drive lba : Z) : list Z :=
  resize 512 0 (drop (Z.to_nat (512 * (lba - 1))) kernel_file).
Definition kernel_segs : list (list Z) := [ph_bytes 512 0x100000 5 8; ph_bytes 520 0x101008 3 3].

Lemma kernel_disk_ok k : length (kernel_disk 0 k) = 512%nat /\ Forall byte_ok (kernel_disk 0 k).
Proof.
  unfold kernel_disk. split; [apply length_resize|]. apply Forall_resize; [unfold byte_ok; lia|]. apply Forall_drop. by apply (bool_decide_unpack _).
Qed.

Lemma bootmain_loads_witness : exists m', bootmain kernel_disk ∅ = Some (Some 0x10000C, m') /\ load8 m' 0x101008 = 7 /\ load8 m' 0x100005 = 0.
Proof.
  destruct (bootmain_loads kernel_disk kernel_disk_ok ∅ kernel_segs) as (m' & E & H).
  - by vm_compute.
  - by vm_compute.
  - by vm_compute.
  - intros [|[|k]] h Hk; [injection Hk as <-; by vm_compute..|done].
  - repeat constructor; try (by apply (bool_decide_unpack _)); by vm_compute.
  - repeat constructor; by vm_compute.
  - exists m'. split; [exact E|]. clear E. apply Forall_cons in H as [[_ H0] H]. apply Forall_cons in H as [[H1 _] _].
    assert (ph_paddr (ph_bytes 520 0x101008 3 3) + 0 = 0x101008) as E1 by (by vm_compute).
    assert (ph_paddr (ph_bytes 512 0x100000 5 8) + 5 = 0x100005) as E0 by (by vm_compute).
    pose proof (H1 0 ltac:(by vm_compute)) as F1. pose proof (H0 5 ltac:(by vm_compute)) as F0. rewrite E1 in F1. rewrite E0 in F0.
    split; [|exact F0]. rewrite F1. by vm_compute.
Defined.
