(* ===== verification/Sysproc.v ===== *)
(** * System calls on processes, messages and signals (sysproc.c)

    An argument whose fetch is not checked is an uninitialised variable when
    the fetch fails ([unchecked]). *)

From stdpp Require Import base numbers list list_numbers gmap strings.
From S2P Require Import Prelude Kmonad Params Kstate Spinlock KString Kalloc Cprintf Vm Umem Sched Ipc Sleeplock Bio Log Fs Pipe File Proc Syscall.

Local Open Scope Z_scope.

(** ** The code *)

Definition sys_fork : KM Z := fork.

Definition sys_kill : KM Z :=
  let* r := argint 0 in
  match r with None => ret (-1) | Some pid => kill pid end.

Definition sys_getpid : KM Z :=
  let* i := curproc in
  let* p := get_p i in
  ret (p_pid p).

Definition sys_sbrk : KM Z :=
  let* r := argint 0 in
  match r with
  | None => ret (-1)
  | Some n =>
      let* addr := cur_sz in
      let* r := growproc n in
      ret (if r <? 0 then -1 else i32 addr)
  end.

(** The wait loop of [sys_sleep]; [n] ticks, compared unsigned. *)
Fixpoint sys_sleep_loop (fuel : nat) (ticks0 n : Z) : KM Z :=
  let* ticks := gets k_ticks in
  if negb (u32 (ticks - ticks0) <? u32 n) then release Ltickslock ;; ret 0 else
  let* k := cur_killed in
  if (k : bool) then release Ltickslock ;; ret (-1) else
  sleep ChTicks (Some Ltickslock) ;;
  match fuel with O => nofuel | S fuel => sys_sleep_loop fuel ticks0 n end.

Definition sys_sleep (fuel : nat) : KM Z :=
  let* r := argint 0 in
  match r with
  | None => ret (-1)
  | Some n =>
      acquire Ltickslock ;;
      let* ticks0 := gets k_ticks in
      sys_sleep_loop fuel ticks0 n
  end.

Definition sys_uptime : KM Z :=
  acquire Ltickslock ;;
  let* xticks := gets k_ticks in
  release Ltickslock ;;
  ret (i32 xticks).

Definition sys_add : KM Z :=
  let* a := unchecked (argint 0) in
  let* b := unchecked (argint 1) in
  ret (i32 (a + b)).

Definition sys_ps : KM Z := ps ;; ret 0.

Definition sys_toggle : KM Z :=
  let* t := gets k_toggle in
  (if t =? 1 then modify (fun s => s <| k_toggle := 0 |>)
   else when (t =? 0) (
     modify (set k_syscall_count (map (fun _ => 0))) ;;
     modify (fun s => s <| k_toggle := 1 |>))) ;;
  ret 0.

Definition name_syscalls : list string :=
  ["sys_fork"; "sys_exit"; "sys_wait"; "sys_pipe"; "sys_read"; "sys_kill"; "sys_exec";
   "sys_fstat"; "sys_chdir"; "sys_dup"; "sys_getpid"; "sys_sbrk"; "sys_sleep"; "sys_uptime";
   "sys_open"; "sys_write"; "sys_mknod"; "sys_unlink"; "sys_link"; "sys_mkdir"; "sys_close";
   "sys_add"; "sys_ps"; "sys_toggle"; "sys_print_count"; "sys_send"; "sys_recv";
   "sys_send_multi"; "sys_sig_set"; "sys_sig_send"; "sys_sig_ret"; "sys_sig_pause"]%string.

Definition sys_print_count : KM Z :=
  for_each (seq 0 32) (fun i =>
    let* t := gets k_syscall_count in
    let n := nthZ t i in
    when (0 <? n)
      (cprintf (bytes "%s %d" ++ [10]) [CStr (bytes (nth i name_syscalls EmptyString)); CInt n])) ;;
  ret 0.

Definition sys_send : KM Z :=
  let* sender_pid := unchecked (argint 0) in
  let* rec_pid := unchecked (argint 1) in
  let* msg := unchecked (argptr 2 8) in
  send_mess sender_pid rec_pid msg.

Definition sys_recv (fuel : nat) : KM Z :=
  let* msg := unchecked (argptr 0 8) in
  let* i := curproc in
  let* p := get_p i in
  recv_mess fuel (p_pid p) msg.

Definition sys_send_multi : KM Z :=
  let* sender_pid := unchecked (argint 0) in
  let* msg := unchecked (argptr 2 8) in
  let* length := unchecked (argint 3) in
  let* rec_pids := unchecked (argptr 1 (i32 (4 * length))) in
  send_multicast sender_pid rec_pids msg length.

Definition sys_sig_set : KM Z :=
  let* func := unchecked (argptr 0 4) in
  set_signal func ;;
  ret 0.

Definition sys_sig_send : KM Z :=
  let* to_pid := unchecked (argint 0) in
  let* signum := unchecked (argint 1) in
  send_signal to_pid signum ;;
  ret 0.

Definition sys_sig_ret : KM Z := ret_signal ;; ret 0.

Definition sys_sig_pause : KM Z := pause_signal ;; ret 0.

Definition sys_wait (fuel : nat) : KM Z := wait fuel.

Section sysproc.
Context {D : Disk} (fuel : nat).

Definition sys_exit : KM Z := exit fuel ;; ret 0.
End sysproc.
