(* ===== verification/Sysfile.v ===== *)
(** * System calls on files (sysfile.c) *)

From stdpp Require Import base numbers list list_numbers gmap strings.
From S2P Require Import Prelude Kmonad Params Kstate Spinlock KString Kalloc Cprintf Vm Umem Sched Sleeplock Bio Log Fs Pipe File Proc Syscall Exec.

Local Open Scope Z_scope.

(** ** The code *)

(** The descriptor and the file it refers to. *)
Definition argfd (n : Z) : KM (option (nat * nat)) :=
  let* r := argint n in
  match r with
  | None => ret None
  | Some fd =>
      if (fd <? 0) || (Z.of_nat NOFILE <=? fd) then ret None else
      let* i := curproc in
      let* p := get_p i in
      match p_ofile p !!! Z.to_nat fd with
      | None => ret None
      | Some f => ret (Some (Z.to_nat fd, f))
      end
  end.

Definition set_ofile (fd : nat) (o : option nat) : KM unit :=
  let* i := curproc in
  upd_p i (set p_ofile (insert fd o)).

Definition fdalloc (f : nat) : KM (option nat) :=
  let* i := curproc in
  for_break (seq 0 NOFILE) (fun fd =>
    let* p := get_p i in
    if bool_decide (p_ofile p !!! fd = None) then
      upd_p i (set p_ofile (insert fd (Some f))) ;;
      ret (Some fd)
    else ret None).

(** [if ((x = m) fails) return -1; k x]. *)
Definition or_fail {A} (m : KM (option A)) (k : A -> KM Z) : KM Z :=
  let* o := m in
  match o with Some a => k a | None => ret (-1) end.

Definition sys_dup : KM Z :=
  or_fail (argfd 0) (fun '(_, f) =>
  or_fail (fdalloc f) (fun fd =>
  filedup f ;;
  ret (Z.of_nat fd))).

Section sysfile.
Context {D : Disk} (fuel : nat) (devsw : Z -> devops).

Definition sys_read : KM Z :=
  or_fail (argfd 0) (fun '(_, f) =>
  or_fail (argint 2) (fun n =>
  or_fail (argptr 1 n) (fun p => fileread fuel devsw f p n))).

Definition sys_write : KM Z :=
  or_fail (argfd 0) (fun '(_, f) =>
  or_fail (argint 2) (fun n =>
  or_fail (argptr 1 n) (fun p => filewrite fuel devsw f p n))).

Definition sys_close : KM Z :=
  or_fail (argfd 0) (fun '(fd, f) =>
  set_ofile fd None ;;
  fileclose fuel f ;;
  ret 0).

(** [sizeof(struct stat)]. *)
Definition STAT_SIZE : Z := 20.

Definition sys_fstat : KM Z :=
  or_fail (argfd 0) (fun '(_, f) =>
  or_fail (argptr 1 STAT_SIZE) (fun st => filestat fuel f st)).

(** [ip->nlink += d; iupdate(ip)]. *)
Definition add_nlink (i : nat) (d : Z) : KM unit :=
  upd_i i (set i_nlink (fun n => i16 (n + d))) ;;
  iupdate fuel i.

(** [bad:] of [sys_link]. *)
Definition link_bad (ip : nat) : KM Z :=
  ilock fuel (Some ip) ;;
  add_nlink ip (-1) ;;
  iunlockput fuel ip ;;
  end_op fuel ;;
  ret (-1).

Definition sys_link : KM Z :=
  or_fail (argpath 0) (fun old =>
  or_fail (argpath 1) (fun new =>
  begin_op fuel ;;
  let* r := namei fuel devsw old in
  match r with
  | None => end_op fuel ;; ret (-1)
  | Some ip =>
      ilock fuel (Some ip) ;;
      let* n := get_i ip in
      if i_type n =? T_DIR then iunlockput fuel ip ;; end_op fuel ;; ret (-1) else
      add_nlink ip 1 ;;
      iunlock (Some ip) ;;
      let* (r, name) := nameiparent fuel devsw new in
      match r with
      | None => link_bad ip
      | Some dp =>
          ilock fuel (Some dp) ;;
          let* d := get_i dp in
          let* n := get_i ip in
          let* bad := (if negb (i_dev d =? i_dev n) then ret true else
            let* r := dirlink fuel devsw dp name (i_inum n) in ret (r <? 0)) in
          iunlockput fuel dp ;;
          if (bad : bool) then link_bad ip else
          iput fuel ip ;;
          end_op fuel ;;
          ret 0
      end
  end)).

(** The scan of [isdirempty]. *)
Fixpoint isdirempty_loop (n : nat) (dp : nat) (off : Z) : KM bool :=
  let* d := get_i dp in
  if negb (off <? i_size d) then ret true else
  match n with
  | O => nofuel
  | S n =>
      let* de := read_dirent fuel devsw dp off "isdirempty: readi" in
      if negb (de_inum de =? 0) then ret false else isdirempty_loop n dp (off + DIRENT_SIZE)
  end.

Definition isdirempty (dp : nat) : KM bool :=
  let* d := get_i dp in
  isdirempty_loop (S (Z.to_nat (i_size d / DIRENT_SIZE))) dp (2 * DIRENT_SIZE).

(** [bad:] of [sys_unlink]. *)
Definition unlink_bad (dp : nat) : KM Z :=
  iunlockput fuel dp ;;
  end_op fuel ;;
  ret (-1).

Definition sys_unlink : KM Z :=
  or_fail (argpath 0) (fun path =>
  begin_op fuel ;;
  let* (r, name) := nameiparent fuel devsw path in
  match r with
  | None => end_op fuel ;; ret (-1)
  | Some dp =>
      ilock fuel (Some dp) ;;
      if (namecmp name (bytes ".") =? 0) || (namecmp name (bytes "..") =? 0) then unlink_bad dp
      else
      let* r := dirlookup fuel devsw dp name in
      match r with
      | None => unlink_bad dp
      | Some (ip, off) =>
          ilock fuel (Some ip) ;;
          let* n := get_i ip in
          if i_nlink n <? 1 then panic "unlink: nlink < 1" else
          let* nonempty := (if i_type n =? T_DIR then
            let* e := isdirempty ip in ret (negb e) else ret false) in
          if (nonempty : bool) then iunlockput fuel ip ;; unlink_bad dp else
          let* r := writei fuel devsw dp (PLocal (replicate (Z.to_nat DIRENT_SIZE) 0)) off
                      DIRENT_SIZE in
          if negb (r =? DIRENT_SIZE) then panic "unlink: writei" else
          let* n := get_i ip in
          when (i_type n =? T_DIR) (add_nlink dp (-1)) ;;
          iunlockput fuel dp ;;
          add_nlink ip (-1) ;;
          iunlockput fuel ip ;;
          end_op fuel ;;
          ret 0
      end
  end).

Definition create (path : list Z) (type major minor : Z) : KM (option nat) :=
  let* (r, name) := nameiparent fuel devsw path in
  match r with
  | None => ret None
  | Some dp =>
      ilock fuel (Some dp) ;;
      let* r := dirlookup fuel devsw dp name in
      match r with
      | Some (ip, _) =>
          iunlockput fuel dp ;;
          ilock fuel (Some ip) ;;
          let* n := get_i ip in
          if (type =? T_FILE) && (i_type n =? T_FILE) then ret (Some ip) else
          iunlockput fuel ip ;;
          ret None
      | None =>
          let* d := get_i dp in
          let* ip := ialloc fuel (i_dev d) type in
          ilock fuel (Some ip) ;;
          upd_i ip (fun n => n <| i_major := i16 major |> <| i_minor := i16 minor |>
                               <| i_nlink := 1 |>) ;;
          iupdate fuel ip ;;
          when (type =? T_DIR) (
            add_nlink dp 1 ;;
            let* n := get_i ip in
            let* d := get_i dp in
            let* r := dirlink fuel devsw ip (bytes ".") (i_inum n) in
            if r <? 0 then panic "create dots" else
            let* r := dirlink fuel devsw ip (bytes "..") (i_inum d) in
            when (r <? 0) (panic "create dots")) ;;
          let* n := get_i ip in
          let* r := dirlink fuel devsw dp name (i_inum n) in
          if r <? 0 then panic "create: dirlink" else
          iunlockput fuel dp ;;
          ret (Some ip)
      end
  end.

(** The inode [sys_open] opens, locked; [None] after [end_op]. *)
Definition open_inode (path : list Z) (omode : Z) : KM (option nat) :=
  if negb (Z.land omode O_CREATE =? 0) then
    let* r := create path T_FILE 0 0 in
    match r with
    | None => end_op fuel ;; ret None
    | Some ip => ret (Some ip)
    end
  else
    let* r := namei fuel devsw path in
    match r with
    | None => end_op fuel ;; ret None
    | Some ip =>
        ilock fuel (Some ip) ;;
        let* n := get_i ip in
        if (i_type n =? T_DIR) && negb (omode =? O_RDONLY) then
          iunlockput fuel ip ;; end_op fuel ;; ret None
        else ret (Some ip)
    end.

Definition sys_open : KM Z :=
  or_fail (argpath 0) (fun path =>
  or_fail (argint 1) (fun omode =>
  begin_op fuel ;;
  or_fail (open_inode path omode) (fun ip =>
  let* f := filealloc in
  let* fd := (match f with None => ret None | Some f => fdalloc f end) in
  match f, fd with
  | Some f, Some fd =>
      iunlock (Some ip) ;;
      end_op fuel ;;
      upd_f f (fun x => x <| f_type := FD_INODE |> <| f_ip := Some ip |> <| f_off := 0 |>
        <| f_readable := if Z.land omode O_WRONLY =? 0 then 1 else 0 |>
        <| f_writable :=
             if negb (Z.land omode O_WRONLY =? 0) || negb (Z.land omode O_RDWR =? 0)
             then 1 else 0 |>) ;;
      ret (Z.of_nat fd)
  | _, _ =>
      (match f with Some f => fileclose fuel f | None => ret tt end) ;;
      iunlockput fuel ip ;;
      end_op fuel ;;
      ret (-1)
  end))).

(** The common end of [sys_mkdir] and [sys_mknod]. *)
Definition put_created (r : option nat) : KM Z :=
  match r with
  | None => end_op fuel ;; ret (-1)
  | Some ip => iunlockput fuel ip ;; end_op fuel ;; ret 0
  end.

Definition sys_mkdir : KM Z :=
  begin_op fuel ;;
  let* path := argpath 0 in
  let* r := (match path with None => ret None | Some path => create path T_DIR 0 0 end) in
  put_created r.

Definition sys_mknod : KM Z :=
  begin_op fuel ;;
  let* path := argpath 0 in
  let* r := (match path with
    | None => ret None
    | Some path =>
        let* major := argint 1 in
        match major with
        | None => ret None
        | Some major =>
            let* minor := argint 2 in
            match minor with
            | None => ret None
            | Some minor => create path T_DEV (i16 major) (i16 minor)
            end
        end
    end) in
  put_created r.

Definition sys_chdir : KM Z :=
  let* i := curproc in
  begin_op fuel ;;
  let* path := argpath 0 in
  let* r := (match path with None => ret None | Some path => namei fuel devsw path end) in
  match r with
  | None => end_op fuel ;; ret (-1)
  | Some ip =>
      ilock fuel (Some ip) ;;
      let* n := get_i ip in
      if negb (i_type n =? T_DIR) then iunlockput fuel ip ;; end_op fuel ;; ret (-1) else
      iunlock (Some ip) ;;
      let* p := get_p i in
      let* cwd := deref "null cwd" (p_cwd p) in
      iput fuel cwd ;;
      end_op fuel ;;
      upd_p i (fun p => p <| p_cwd := Some ip |>) ;;
      ret 0
  end.

(** The loop of [sys_exec] over the argument vector: at most [n] more
    entries; [None] for [return -1]. *)
Fixpoint exec_args (n : nat) (uargv i : Z) : KM (option (list (list Z))) :=
  match n with
  | O => ret None
  | S n =>
      let* r := fetchint (u32 (uargv + 4 * i)) in
      match r with
      | None => ret None
      | Some uarg =>
          if uarg =? 0 then ret (Some []) else
          let* r := fetchstr (u32 uarg) in
          match r with
          | None => ret None
          | Some len =>
              let* a := uloads (u32 uarg) (Z.to_nat len) in
              let* r := exec_args n uargv (i + 1) in
              ret (match r with Some l => Some (a :: l) | None => None end)
          end
      end
  end.

Definition sys_exec : KM Z :=
  or_fail (argpath 0) (fun path =>
  or_fail (argint 1) (fun uargv =>
  or_fail (exec_args MAXARG (u32 uargv) 0) (fun argv => exec fuel devsw path argv))).

Definition sys_pipe : KM Z :=
  or_fail (argptr 0 8) (fun fd =>
  or_fail (pipealloc fuel) (fun '(rf, wf) =>
  let* fd0 := fdalloc rf in
  let* fd1 := (match fd0 with None => ret None | Some _ => fdalloc wf end) in
  match fd0, fd1 with
  | Some fd0, Some fd1 =>
      ustore32 fd (Z.of_nat fd0) ;;
      ustore32 (fd + 4) (Z.of_nat fd1) ;;
      ret 0
  | _, _ =>
      (match fd0 with Some fd0 => set_ofile fd0 None | None => ret tt end) ;;
      fileclose fuel rf ;;
      fileclose fuel wf ;;
      ret (-1)
  end)).
End sysfile.
