(* ===== verification/Trap.v ===== *)
(** * System call dispatch and traps (syscall.c, trap.c, trapasm.S)

    The trap frame of a trap from user mode is at the top of the process's
    kernel stack, where [p->tf] points: it is the field [p_tf].  A frame
    pushed in kernel mode is only an argument.  Acknowledging an interrupt
    ([lapiceoi]) has no effect on the state. *)

From stdpp Require Import base numbers list list_numbers gmap strings.
From S2P Require Import Prelude Kmonad Params Kstate Spinlock KString Kalloc Cprintf Vm Umem Demo Sched Ipc Signal Sleeplock Bio Log Fs Pipe Console File Proc Syscall Exec Sysproc Sysfile.

Local Open Scope Z_scope.

(** ** trap.c: the interrupt descriptor table *)

(** A gate: [SETGATE(gate, istrap, sel, off, d)]. *)
Record gate := MkGate {
  gd_istrap : bool;
  gd_sel : Z;
  gd_off : Z;
  gd_dpl : Z
}.

(** The table after [tvinit]; [vectors] is the array of vectors.S. *)
Definition idt (vectors : nat -> Z) : list gate :=
  let all := map (fun i => MkGate false (Z.shiftl SEG_KCODE 3) (vectors i) 0) (seq 0 256) in
  <[Z.to_nat T_SYSCALL :=
      MkGate true (Z.shiftl SEG_KCODE 3) (vectors (Z.to_nat T_SYSCALL)) DPL_USER]> all.

Definition tvinit : KM unit := initlock Ltickslock.

Section trap.
Context {D : Disk} (fuel : nat) (devsw : Z -> devops) (callerpcs : nat -> list Z).

(** ** syscall.c *)

(** The entries of [syscalls], from [SYS_fork] = 1 to [SYS_sig_pause] = 32. *)
Definition syscalls : list (KM Z) :=
  [sys_fork; sys_exit fuel; sys_wait fuel; sys_pipe fuel; sys_read fuel devsw; sys_kill;
   sys_exec fuel devsw; sys_fstat fuel; sys_chdir fuel devsw; sys_dup; sys_getpid; sys_sbrk;
   sys_sleep fuel; sys_uptime; sys_open fuel devsw; sys_write fuel devsw; sys_mknod fuel devsw;
   sys_unlink fuel devsw; sys_link fuel devsw; sys_mkdir fuel devsw; sys_close fuel; sys_add;
   sys_ps; sys_toggle; sys_print_count; sys_send; sys_recv fuel; sys_send_multi; sys_sig_set;
   sys_sig_send; sys_sig_ret; sys_sig_pause].
Definition SYS_sig_ret : Z := 31.

(** [syscalls[num]], which is null at 0. *)
Definition syscall_entry (num : Z) : option (KM Z) :=
  if 0 <? num then syscalls !! Z.to_nat (num - 1) else None.

Definition set_eax (i : nat) (v : Z) : KM unit :=
  upd_p i (fun p => p <| p_tf := (p_tf p) <| tf_eax := u32 v |> |>).

Definition syscall : KM unit :=
  let* i := curproc in
  let* p := get_p i in
  let num := i32 (tf_eax (p_tf p)) in
  match syscall_entry num with
  | Some f =>
      let* toggle := gets k_toggle in
      when (toggle =? 1)
        (modify (set k_syscall_count (alter (fun n => i32 (n + 1)) (Z.to_nat (num - 1))))) ;;
      let* r := f in
      set_eax i r
  | None =>
      cprintf (bytes "%d %s: unknown sys call %d" ++ [10])
        [CInt (p_pid p); CStr (p_name p); CInt num] ;;
      set_eax i (-1)
  end.

(** ** trap.c *)

(** [if(myproc()->killed) exit()] for the current process [i]. *)
Definition exit_if_killed (i : nat) : KM unit :=
  let* p := get_p i in
  when (negb (p_killed p =? 0)) (exit fuel).

Definition trap_syscall (tf : trapframe) : KM unit :=
  let* i := curproc in
  exit_if_killed i ;;
  upd_p i (fun p => p <| p_tf := tf |>) ;;
  syscall ;;
  exit_if_killed i.

Definition clock_tick : KM unit :=
  let* c := cpuid in
  when (Nat.eqb c 0) (
    acquire Ltickslock ;;
    modify (set k_ticks (fun t => u32 (t + 1))) ;;
    wakeup ChTicks ;;
    release Ltickslock).

Definition user_mode (tf : trapframe) : bool := Z.land (tf_cs tf) 3 =? DPL_USER.

(** The [default] case in the kernel; [cr2] is the faulting address. *)
Definition kernel_trap (tf : trapframe) (cr2 : Z) : KM unit :=
  let* c := cpuid in
  cprintf (bytes "unexpected trap %d from cpu %d eip %x (cr2=0x%x)" ++ [10])
    [CInt (tf_trapno tf); CInt (Z.of_nat c); CInt (tf_eip tf); CInt cr2] ;;
  panic "trap".

(** The [default] case. *)
Definition unexpected_trap (tf : trapframe) (cr2 : Z) : KM unit :=
  let* o := myproc in
  match o with
  | Some i =>
      if Z.land (tf_cs tf) 3 =? 0 then kernel_trap tf cr2 else
      let* p := get_p i in
      let* c := cpuid in
      cprintf (bytes "pid %d %s: trap %d err %d on cpu %d eip 0x%x addr 0x%x--kill proc" ++ [10])
        [CInt (p_pid p); CStr (p_name p); CInt (tf_trapno tf); CInt (tf_err tf);
         CInt (Z.of_nat c); CInt (tf_eip tf); CInt cr2] ;;
      upd_p i (fun p => p <| p_killed := 1 |>)
  | None => kernel_trap tf cr2
  end.

(** The [switch]; [waiting] is what the device that interrupts has to be read:
    what the keyboard or serial port has received, or the values of the disk's
    status register. *)
Definition trap_switch (tf : trapframe) (cr2 : Z) (waiting : list Z) : KM unit :=
  let no := tf_trapno tf in
  if no =? T_IRQ0 + IRQ_TIMER then clock_tick
  else if no =? T_IRQ0 + IRQ_IDE then ideintr waiting
  else if no =? T_IRQ0 + IRQ_IDE + 1 then ret tt
  else if no =? T_IRQ0 + IRQ_KBD then kbdintr callerpcs waiting
  else if no =? T_IRQ0 + IRQ_COM1 then uartintr callerpcs waiting
  else if (no =? T_IRQ0 + 7) || (no =? T_IRQ0 + IRQ_SPURIOUS) then
    let* c := cpuid in
    cprintf (bytes "cpu%d: spurious interrupt at %x:%x" ++ [10])
      [CInt (Z.of_nat c); CInt (tf_cs tf); CInt (tf_eip tf)]
  else unexpected_trap tf cr2.

(** [if(myproc() && myproc()->killed && (tf->cs&3) == DPL_USER) exit()]. *)
Definition exit_check (tf : trapframe) : KM unit :=
  let* o := myproc in
  match o with
  | None => ret tt
  | Some i =>
      let* p := get_p i in
      when (negb (p_killed p =? 0) && user_mode tf) (exit fuel)
  end.

Definition trap (tf : trapframe) (cr2 : Z) (waiting : list Z) : KM unit :=
  if tf_trapno tf =? T_SYSCALL then trap_syscall tf else
  trap_switch tf cr2 waiting ;;
  exit_check tf ;;
  let* o := myproc in
  match o with
  | None => ret tt
  | Some i =>
      let* p := get_p i in
      when (is_state RUNNING p && (tf_trapno tf =? T_IRQ0 + IRQ_TIMER)) yield
  end ;;
  exit_check tf.

(** trapasm.S: [alltraps] and [trapret].  A frame from user mode is the one
    at [p->tf]; on the way back [handle_signals] is called with it.  The
    result is the frame that is popped. *)
Definition current_frame (tf : trapframe) : KM trapframe :=
  let* o := myproc in
  match o with
  | Some i => if user_mode tf then let* p := get_p i in ret (p_tf p) else ret tf
  | None => ret tf
  end.

Definition alltraps (tf : trapframe) (cr2 : Z) (waiting : list Z) : KM trapframe :=
  let* o := myproc in
  match o with
  | Some i => when (user_mode tf) (upd_p i (fun p => p <| p_tf := tf |>))
  | None => ret tt
  end ;;
  trap tf cr2 waiting ;;
  let* tf' := current_frame tf in
  handle_signals tf' ;;
  current_frame tf.
End trap.

(** ** What traps promise *)

(** User code can enter the kernel only through the system call gate: of
    the 256 gates of the descriptor table only that one may be called from
    user mode, and only it leaves interrupts enabled; all gates go to the
    vector of their number in the kernel code segment. *)
Theorem idt_gates vectors :
  length (idt vectors) = 256%nat /\
  forall i g, idt vectors !! i = Some g ->
    gd_off g = vectors i /\ gd_sel g = Z.shiftl SEG_KCODE 3 /\
    (gd_dpl g = DPL_USER <-> Z.of_nat i = T_SYSCALL) /\ (gd_istrap g = true <-> Z.of_nat i = T_SYSCALL).
Proof.
  unfold idt. split; [by rewrite length_insert, length_map, length_seq|]. intros i g Hg.
  destruct (decide (i = Z.to_nat T_SYSCALL)) as [->|Hne].
  - rewrite list_lookup_insert_eq in Hg by (rewrite length_map, length_seq; vm_compute; lia).
    injection Hg as <-. done.
  - rewrite list_lookup_insert_ne in Hg by done. rewrite list_lookup_fmap in Hg.
    destruct (seq 0 256 !! i) as [j|] eqn:Ej; [|done]. apply lookup_seq in Ej as [-> _].
    simpl in Hg. injection Hg as <-. simpl. unfold DPL_USER, T_SYSCALL in *. split_and!; [done..| |]; split; (done || lia).
Qed.

Section calls.
Context {D : Disk} (fuel : nat) (devsw : Z -> devops).
Abbreviation syscall := (syscall fuel devsw).

Lemma syscall_entry_range num : is_Some (syscall_entry fuel devsw num) <-> 1 <= num <= 32.
Proof.
  unfold syscall_entry. destruct (Z.ltb_spec 0 num).
  - rewrite lookup_lt_is_Some. simpl. lia.
  - split; [intros [? ?]; done|lia].
Qed.

(** A system call number outside 1 to 32 is refused: the call is reported
    on the console, its result is -1, and nothing else of the process, its
    memory or the other processes changes. *)
Theorem unknown_syscall_refused c cp i p s :
  ready c cp Lcons s -> cpu_proc cp = Some i -> k_ptable s !! i = Some p -> screen_ok s ->
  ~ (1 <= i32 (tf_eax (p_tf p)) <= 32) ->
  exists s', syscall s = Ok tt s' /\
    k_ptable s' = <[i := p <| p_tf := (p_tf p) <| tf_eax := 2 ^ 32 - 1 |> |>]> (k_ptable s) /\
    k_mem s' = k_mem s.
Proof.
  intros (Hr & Hok & Hl) Hi Hp Hscr Hnum. unfold Trap.syscall, curproc.
  rewrite (bind_bind _ _ _ _ _ _ (myproc_Ok c cp s Hr Hok)), Hi. cbn [deref].
  set (s1 := on_cpu c cpu_touch s). pose proof (touch_keq c cp s Hr Hok) as Es1. fold s1 in Es1.
  rewrite bind_ret_l, (bind_Ok _ _ _ _ _ (get_p_Ok i p s1 Hp)).
  destruct (syscall_entry fuel devsw (i32 (tf_eax (p_tf p)))) as [f|] eqn:E.
  { exfalso. apply Hnum, syscall_entry_range. by rewrite E. }
  destruct (cprintf_Ok (bytes "%d %s: unknown sys call %d" ++ [10])
    [CInt (p_pid p); CStr (p_name p); CInt (i32 (tf_eax (p_tf p)))]
    (print_int (i32 (p_pid p)) 10 true ++ bytes " " ++ cbytes (p_name p) ++ bytes ": unknown sys call " ++
     print_int (i32 (i32 (tf_eax (p_tf p)))) 10 true ++ [10]) c (cpu_touch cp) s1) as (t & s2 & Ht & E2 & Es2).
  - reflexivity.
  - done.
  - right. split_and!; [by apply running_on_cpu|by apply cpu_touch_ok|done].
  - rewrite (bind_Ok _ _ _ _ _ E2). destruct Ht as (crt & pos & _ & ->).
    pose proof (keq_proj k_ptable _ _ ltac:(done) Es2) as Et. simpl in Et.
    eexists. split; [reflexivity|]. split; [|apply (keq_proj k_mem _ _ ltac:(done) Es2)].
    simpl. rewrite Et. change (k_ptable s1) with (k_ptable s).
    apply list_eq. intros j. destruct (decide (j = i)) as [->|Hne].
    + rewrite list_lookup_alter_eq, Hp, list_lookup_insert_eq; [done|by eapply lookup_lt_Some].
    + by rewrite list_lookup_alter_ne, list_lookup_insert_ne.
Qed.

(** C39: Returning from a signal handler loses one register.  [ret_signal]
    puts the saved trap frame back, but it runs as a system call, whose
    result is then stored in [eax] of the restored frame: the interrupted
    program goes on with all registers as they were except [eax], which is
    0 (when a system call was interrupted, its result is lost). *)
Theorem sig_ret_loses_eax c cp i p tf sp s :
  ready c cp Lptable s -> cpu_proc cp = Some i -> k_ptable s !! i = Some p ->
  tf_eax (p_tf p) = SYS_sig_ret -> k_toggle s <> 1 ->
  0 <= sp -> sp + sig_block_size (k_link s) <= KERNBASE -> tf_ok tf ->
  handler_done (cpu_cr3 cp) sp (k_link s) tf (k_mem s) p ->
  exists s' p', syscall s = Ok tt s' /\ k_ptable s' !! i = Some p' /\
    p_tf p' = tf <| tf_eax := 0 |> /\ p_handling p' = 0.
Proof.
  intros Hr0 Hi Hp Heax Htog Hsp Hk Htf Hd. destruct (Hr0) as (Hr & Hok & Hl). unfold Trap.syscall, curproc.
  rewrite (bind_bind _ _ _ _ _ _ (myproc_Ok c cp s Hr Hok)), Hi. cbn [deref].
  set (s1 := on_cpu c cpu_touch s). pose proof (touch_keq c cp s Hr Hok) as Es1. fold s1 in Es1.
  rewrite bind_ret_l, (bind_Ok _ _ _ _ _ (get_p_Ok i p s1 Hp)), Heax.
  change (syscall_entry fuel devsw (i32 SYS_sig_ret)) with (Some sys_sig_ret).
  cbv iota. kstep. rewrite (proj2 (Z.eqb_neq _ _) Htog : (k_toggle s1 =? 1) = false). cbn [when]. rewrite bind_ret_l.
  destruct (signal_round_trip c (cpu_touch cp) i p tf sp s1) as (s2 & E2 & Es2); try done.
  { split_and!; [by apply running_on_cpu|by apply cpu_touch_ok|done]. }
  unfold sys_sig_ret. rewrite (bind_bind _ _ _ _ _ _ E2), bind_ret_l.
  pose proof (keq_proj k_ptable _ _ ltac:(done) Es2) as Et. simpl in Et.
  eexists _, _. split; [reflexivity|]. simpl. rewrite Et.
  change (k_ptable s1) with (k_ptable s). rewrite !list_lookup_alter_eq, Hp. done.
Qed.

(** Counting of system calls: while counting is on, a call adds one to the
    counter of its number, before it runs, and to no other; while it is off
    the counters stay as they are; [sys_toggle] starts a count from zero. *)
Theorem syscall_counted c cp i p s f :
  running c cp s -> cpu_ok cp -> cpu_proc cp = Some i -> k_ptable s !! i = Some p ->
  syscall_entry fuel devsw (i32 (tf_eax (p_tf p))) = Some f ->
  let num := i32 (tf_eax (p_tf p)) in
  let counted := if k_toggle s =? 1 then set k_syscall_count (alter (fun n => i32 (n + 1)) (Z.to_nat (num - 1))) s
                 else s in
  (exists s1, s1 ≡ₖ counted /\ syscall s = (let* r := f in set_eax i r) s1) /\
  (k_toggle s = 0 -> exists s', sys_toggle s = Ok 0 s' /\ k_toggle s' = 1 /\ Forall (eq 0) (k_syscall_count s')).
Proof.
  intros Hr Hok Hi Hp He num counted. split.
  - exists (on_cpu c cpu_touch counted). split.
    { apply (touch_keq c cp); [|done]. unfold counted. by destruct (_ =? _). }
    unfold Trap.syscall, curproc. rewrite (bind_bind _ _ _ _ _ _ (myproc_Ok c cp s Hr Hok)), Hi. cbn [deref].
    rewrite bind_ret_l, (bind_Ok _ _ _ _ _ (get_p_Ok i p (on_cpu c cpu_touch s) Hp)), He.
    cbv iota. kstep.
    change (k_toggle (on_cpu c cpu_touch s)) with (k_toggle s). unfold counted.
    by destruct (k_toggle s =? 1).
  - intros Ht. unfold sys_toggle. kstep. rewrite Ht. cbn [Z.eqb when]. eexists. split; [reflexivity|].
    split; [done|]. simpl. apply Forall_forall. intros x (y & -> & _)%list_elem_of_fmap. done.
Qed.
End calls.

(** ** The timer *)

Lemma clock_tick_Ok c cp s :
  ready c cp Ltickslock s -> lock_free s Lptable -> table_len s -> cpu_if cp = false ->
  exists s', clock_tick s = Ok tt s' /\
    s' ≡ₖ if Nat.eqb c 0 then set k_ptable (wake ChTicks) (set k_ticks (fun t => u32 (t + 1)) s) else s.
Proof.
  intros Hr0 Hl Hlen Hif. destruct (Hr0) as (Hr & Hok & _). unfold clock_tick, cpuid.
  rewrite (bind_Ok _ _ _ _ _ (mycpu_Ok c cp s Hr Hif)). destruct (Nat.eqb c 0); [|by eexists].
  cbn [when]. rewrite (bind_Ok _ _ _ _ _ (acquire_ready _ _ _ _ Hr0)). kstep.
  set (t := set k_ticks (fun t => u32 (t + 1)) s).
  change (set k_ticks (fun t => u32 (t + 1)) (acq c Ltickslock s)) with (acq c Ltickslock t).
  assert (ready c cp Ltickslock t) as Hrt by by apply (ready_neutral (set k_ticks (fun t => u32 (t + 1)))).
  destruct (wakeup_Ok c (cpu_push cp) ChTicks (acq c Ltickslock t)) as (s1 & E1 & Es1); [by apply ready_nested|done|].
  rewrite (bind_Ok _ _ _ _ _ E1). rewrite acq_ptable in Es1.
  destruct (release_keq c cp Ltickslock s1 (set k_ptable (wake ChTicks) t)) as (s2 & E2 & Es2);
    [by apply (ready_neutral (set k_ptable (wake ChTicks)))|done|].
  by exists s2.
Qed.

Section timer.
Context {D : Disk} (fuel : nat) (callerpcs : nat -> list Z) (devsw : Z -> devops).

Lemma exit_check_alive tf c cp i p s :
  running c cp s -> cpu_ok cp -> cpu_proc cp = Some i -> k_ptable s !! i = Some p -> p_killed p = 0 ->
  exit_check fuel tf s = Ok tt (on_cpu c cpu_touch s).
Proof.
  intros Hr Hok Hi Hp Hk. unfold exit_check. rewrite (bind_Ok _ _ _ _ _ (myproc_Ok c cp s Hr Hok)), Hi.
  by rewrite (bind_Ok _ _ _ _ _ (get_p_Ok i p (on_cpu c cpu_touch s) Hp)), Hk.
Qed.

(** C31: The timer preempts: a timer interrupt on a CPU that runs a process
    gives up the CPU with the process runnable and the table lock held for
    the scheduler; on CPU 0 the clock advances and every process that sleeps
    on the clock becomes runnable. *)
Theorem timer_preempts tf cr2 waiting c cp i p s :
  tf_trapno tf = T_IRQ0 + IRQ_TIMER ->
  ready c cp Ltickslock s -> lock_free s Lptable -> table_len s -> cpu_if cp = false -> cpu_ncli cp = 0 ->
  cpu_proc cp = Some i -> k_ptable s !! i = Some p -> p_state p = RUNNING -> p_killed p = 0 ->
  exists s1 k, trap fuel devsw callerpcs tf cr2 waiting s = Susp WSched s1 k /\
    k_ptable s1 !! i = Some (p <| p_state := RUNNABLE |>) /\ lock_of s1 Lptable = MkLock 1 (Some c) /\
    k_ticks s1 = (if Nat.eqb c 0 then u32 (k_ticks s + 1) else k_ticks s) /\
    (c = 0%nat -> forall j q, k_ptable s !! j = Some q -> p_state q = SLEEPING -> p_chan q = ChTicks ->
       k_ptable s1 !! j = Some (q <| p_state := RUNNABLE |>)).
Proof.
  intros Htf Hr Hl Hlen Hif Hn Hi Hp Hst Hk. unfold trap. rewrite Htf.
  change (T_IRQ0 + IRQ_TIMER =? T_SYSCALL) with false. cbv iota.
  destruct (clock_tick_Ok c cp s Hr Hl Hlen Hif) as (s1 & E1 & Es1).
  set (s0 := if Nat.eqb c 0 then _ else _) in Es1.
  assert (trap_switch callerpcs tf cr2 waiting s = Ok tt s1) as Esw by (unfold trap_switch; by rewrite Htf).
  rewrite (bind_Ok _ _ _ _ _ Esw).
  assert (ready c cp Lptable s0) as Hr0.
  { destruct Hr as (Hr & Hok & _). unfold s0. by destruct (Nat.eqb c 0); split_and!. }
  assert (k_ptable s0 !! i = Some p) as Hp0.
  { unfold s0. destruct (Nat.eqb c 0); [|done]. simpl. unfold wake. rewrite lookup_upd_where, Hp. simpl.
    unfold sleeps_on, is_state. by rewrite Hst. }
  assert (k_ptable s1 = k_ptable s0) as Et by apply (keq_proj k_ptable _ _ ltac:(done) Es1).
  destruct (ready_keq _ _ _ _ _ (symmetry Es1) Hr0) as (cp1 & (Hr1 & Hok1 & Hl1) & [Hi1 _ Hn1]).
  rewrite Hi in Hi1. rewrite Hn in Hn1. rewrite <- Et in Hp0.
  rewrite (bind_Ok _ _ _ _ _ (exit_check_alive tf c cp1 i p s1 Hr1 Hok1 Hi1 Hp0 Hk)).
  cpu_run Hr1 cpu_touch. pose proof (cpu_touch_ok _ Hok1) as Hok2. set (s2 := on_cpu c cpu_touch s1) in *.
  rewrite (bind_Ok _ _ _ _ _ (myproc_Ok c _ s2 Hrun Hok2)).
  change (cpu_proc (cpu_touch cp1)) with (cpu_proc cp1). rewrite Hi1.
  cpu_run Hrun cpu_touch. pose proof (cpu_touch_ok _ Hok2) as Hok3. set (s3 := on_cpu c cpu_touch s2) in *.
  rewrite (bind_bind _ _ _ _ _ _ (get_p_Ok i p s3 Hp0)). unfold is_state at 1. rewrite Hst, bool_decide_true by done.
  change (true && (T_IRQ0 + IRQ_TIMER =? T_IRQ0 + IRQ_TIMER)) with true. cbn [when].
  destruct (yield_Susp c (cpu_touch (cpu_touch cp1)) i p s3) as (k & Ey & _).
  - by split_and!.
  - simpl. lia.
  - done.
  - done.
  - erewrite bind_Susp by exact Ey. eexists _, _. split; [reflexivity|]. split; [|split; [|split]].
    + simpl. by rewrite list_lookup_alter_eq, Hp0.
    + apply lock_of_acq.
    + change (k_ticks s1 = if Nat.eqb c 0 then u32 (k_ticks s + 1) else k_ticks s).
      rewrite (keq_proj k_ticks _ _ ltac:(done) Es1). unfold s0. by destruct (Nat.eqb c 0).
    + intros -> j q Hq Hsq Hcq. simpl. assert (i <> j) as Hne by (intros ->; congruence).
      rewrite list_lookup_alter_ne by done. change (k_ptable s3) with (k_ptable s1). rewrite Et. unfold s0. simpl.
      unfold wake. rewrite lookup_upd_where, Hq. simpl. unfold sleeps_on, is_state.
      by rewrite Hsq, Hcq, !bool_decide_true.
Qed.
End timer.

(** *** Witnesses *)

Definition no_dev (major : Z) : devops := MkDev None None.
Definition eax_proc (eax : Z) : proc := (demo_proc 1 RUNNING ChNull) <| p_tf := tf0 <| tf_eax := eax |> |>.

Lemma unknown_syscall_refused_witness :
  exists s', syscall (D := memide 1000) 0 no_dev (demo [eax_proc 33]) = Ok tt s' /\
    k_ptable s' = <[0%nat := (eax_proc 33) <| p_tf := (p_tf (eax_proc 33)) <| tf_eax := 2 ^ 32 - 1 |> |>]>
                    (k_ptable (demo [eax_proc 33])) /\
    k_mem s' = demo_mem.
Proof.
  apply (unknown_syscall_refused (D := memide 1000) 0 no_dev 0 demo_cpu 0 (eax_proc 33) (demo [eax_proc 33]));
    [apply demo_ready|done|done|done|]. assert (i32 (tf_eax (p_tf (eax_proc 33))) = 33) as -> by done. lia.
Defined.

Lemma syscall_counted_witness :
  (exists s1, s1 ≡ₖ demo [eax_proc 14] /\
     syscall (D := memide 1000) 0 no_dev (demo [eax_proc 14]) = (let* r := sys_uptime in set_eax 0 r) s1) /\
  (k_toggle (demo [eax_proc 14]) = 0 -> exists s', sys_toggle (demo [eax_proc 14]) = Ok 0 s' /\
     k_toggle s' = 1 /\ Forall (eq 0) (k_syscall_count s')).
Proof.
  apply (syscall_counted (D := memide 1000) 0 no_dev 0 demo_cpu 0 (eax_proc 14) (demo [eax_proc 14]) sys_uptime);
    [apply (demo_ready _ Lptable)|apply (demo_ready [] Lptable)|done|done|done].
Defined.

(** The handler of the demo process has returned to the code that calls
    [sig_ret]. *)
Definition calling_sig_ret (s : kstate) : kstate :=
  set k_ptable (alter (fun p => p <| p_tf := (p_tf p) <| tf_eax := SYS_sig_ret |> |>) 0%nat) s.
Abbreviation sig_ret_state := (calling_sig_ret demo_s2).

Lemma calling_sig_ret_mem s : k_mem (calling_sig_ret s) = k_mem s.
Proof. reflexivity. Qed.

Definition sig_ret_proc : proc := default proc0 (k_ptable sig_ret_state !! 0%nat).

Lemma sig_ret_loses_eax_witness :
  exists s' p', syscall (D := memide 1000) 0 no_dev sig_ret_state = Ok tt s' /\ k_ptable s' !! 0%nat = Some p' /\
    p_tf p' = (p_tf demo_sig) <| tf_eax := 0 |> /\ p_handling p' = 0.
Proof.
  apply (sig_ret_loses_eax (D := memide 1000) 0 no_dev 0 demo_c2 0 sig_ret_proc (p_tf demo_sig)
    (tf_esp (p_tf demo_p1)) sig_ret_state).
  - repeat split; vm_compute; done.
  - vm_compute. reflexivity.
  - vm_compute. reflexivity.
  - vm_compute. reflexivity.
  - vm_compute. done.
  - vm_compute. done.
  - vm_compute. done.
  - repeat constructor; done.
  - split; [vm_compute; reflexivity| |vm_compute; reflexivity].
    assert (cpu_cr3 demo_c2 = 0x1000) as -> by (vm_compute; reflexivity).
    assert (tf_esp (p_tf demo_p1) + 16 + codesize (k_link sig_ret_state) = 4020) as -> by (vm_compute; reflexivity).
    rewrite calling_sig_ret_mem, demo_return_mem.
    apply uwritable_readable, (demo_writable (k_mem demo_s1)); [apply demo_s1_mem|lia|lia].
Defined.

(** A trap frame of the timer interrupt in user mode. *)
Definition timer_tf : trapframe := MkTf 0 0 0 0 0 0 0 0 0 0 0 0 0 0 0 0 32 0 0 0x1b 0 0 0 0 0.
Definition timer_cpu : cpu := demo_cpu <| cpu_if := false |>.
Definition timer_state : kstate :=
  (demo [demo_proc 1 RUNNING ChNull; demo_proc 2 SLEEPING ChTicks]) <| k_cpus := [timer_cpu] |>.

Lemma timer_preempts_witness :
  exists s1 k, trap (D := memide 1000) 0 no_dev (fun _ => []) timer_tf 0 [] timer_state
      = Susp WSched s1 k /\
    k_ptable s1 !! 0%nat = Some (demo_proc 1 RUNNABLE ChNull) /\ lock_of s1 Lptable = MkLock 1 (Some 0%nat) /\
    k_ticks s1 = 1 /\
    (0%nat = 0%nat -> forall j q, k_ptable timer_state !! j = Some q -> p_state q = SLEEPING -> p_chan q = ChTicks ->
       k_ptable s1 !! j = Some (q <| p_state := RUNNABLE |>)).
Proof.
  apply (timer_preempts (D := memide 1000) 0 (fun _ => []) no_dev timer_tf 0 [] 0 timer_cpu 0
    (demo_proc 1 RUNNING ChNull) timer_state); try done.
Defined.
