(* ===== verification/Segments.v ===== *)
(** * Segment and gate descriptors (mmu.h, vm.c, trap.c)

    The tables that the processor looks at: the segments of [seginit] and the
    gates of [tvinit], as the two words of a descriptor in memory.  [deliver]
    is what the processor does for an interrupt or an [int] instruction, from
    its manual: the checks of privilege and presence, the new privilege level,
    the address it goes on at and the interrupt flag. *)

From stdpp Require Import base numbers list list_numbers.
From S2P Require Import Prelude Params Trap.

Local Open Scope Z_scope.

(** mmu.h *)
Definition STA_X : Z := 8.
Definition STA_W : Z := 2.
Definition STA_R : Z := 2.
Definition STS_T32A : Z := 9.
Definition STS_IG32 : Z := 14.
Definition STS_TG32 : Z := 15.

Record segdesc := MkSeg {
  sd_lim_15_0 : Z; sd_base_15_0 : Z; sd_base_23_16 : Z; sd_type : Z; sd_s : Z; sd_dpl : Z; sd_p : Z;
  sd_lim_19_16 : Z; sd_avl : Z; sd_rsv1 : Z; sd_db : Z; sd_g : Z; sd_base_31_24 : Z
}.

Definition SEG (type base lim dpl : Z) : segdesc :=
  MkSeg (Z.land (Z.shiftr lim 12) 0xffff) (Z.land base 0xffff) (Z.land (Z.shiftr base 16) 0xff) type 1 dpl 1
    (Z.shiftr lim 28) 0 0 1 1 (Z.shiftr base 24).
Definition SEG16 (type base lim dpl : Z) : segdesc :=
  MkSeg (Z.land lim 0xffff) (Z.land base 0xffff) (Z.land (Z.shiftr base 16) 0xff) type 1 dpl 1
    (Z.shiftr lim 16) 0 0 1 0 (Z.shiftr base 24).

(** The fields are bit fields, from the lowest bit on. *)
Definition seg_words (d : segdesc) : Z * Z :=
  (sd_lim_15_0 d + 2 ^ 16 * sd_base_15_0 d,
   sd_base_23_16 d + 2 ^ 8 * sd_type d + 2 ^ 12 * sd_s d + 2 ^ 13 * sd_dpl d + 2 ^ 15 * sd_p d + 2 ^ 16 * sd_lim_19_16 d +
   2 ^ 20 * sd_avl d + 2 ^ 21 * sd_rsv1 d + 2 ^ 22 * sd_db d + 2 ^ 23 * sd_g d + 2 ^ 24 * sd_base_31_24 d).

Record gatedesc := MkGateDesc {
  gt_off_15_0 : Z; gt_cs : Z; gt_args : Z; gt_rsv1 : Z; gt_type : Z; gt_s : Z; gt_dpl : Z; gt_p : Z; gt_off_31_16 : Z
}.

Definition SETGATE (istrap : bool) (sel off d : Z) : gatedesc :=
  MkGateDesc (Z.land off 0xffff) sel 0 0 (if istrap then STS_TG32 else STS_IG32) 0 d 1 (Z.shiftr off 16).

Definition gate_words (g : gatedesc) : Z * Z :=
  (gt_off_15_0 g + 2 ^ 16 * gt_cs g,
   gt_args g + 2 ^ 5 * gt_rsv1 g + 2 ^ 8 * gt_type g + 2 ^ 12 * gt_s g + 2 ^ 13 * gt_dpl g + 2 ^ 15 * gt_p g + 2 ^ 16 * gt_off_31_16 g).

(** vm.c: the table of a CPU after [seginit]; the first entry is not used. *)
Definition seginit : list segdesc :=
  [MkSeg 0 0 0 0 0 0 0 0 0 0 0 0 0;
   SEG (Z.lor STA_X STA_R) 0 0xffffffff 0; SEG STA_W 0 0xffffffff 0;
   SEG (Z.lor STA_X STA_R) 0 0xffffffff DPL_USER; SEG STA_W 0 0xffffffff DPL_USER;
   MkSeg 0 0 0 0 0 0 0 0 0 0 0 0 0].

(** [switchuvm]: the descriptor of the task state at [ts], 104 bytes. *)
Definition tss_desc (ts : Z) : segdesc :=
  let d := SEG16 STS_T32A ts (104 - 1) 0 in
  MkSeg (sd_lim_15_0 d) (sd_base_15_0 d) (sd_base_23_16 d) (sd_type d) 0 (sd_dpl d) (sd_p d) (sd_lim_19_16 d) (sd_avl d) (sd_rsv1 d)
    (sd_db d) (sd_g d) (sd_base_31_24 d).
Definition set_tss (ts : Z) (gdt : list segdesc) : list segdesc := <[Z.to_nat SEG_TSS := tss_desc ts]> gdt.

(** trap.c: the table of [tvinit] in memory. *)
Definition idt_words (vectors : nat -> Z) : list (Z * Z) :=
  map (fun g => gate_words (SETGATE (gd_istrap g) (gd_sel g) (gd_off g) (gd_dpl g))) (idt vectors).

(** ** The processor *)

(** [n] bits of a word from bit [k] on. *)
Definition bits (w k n : Z) : Z := w / 2 ^ k mod 2 ^ n.

Definition d_base (d : Z * Z) : Z := bits d.1 16 16 + 2 ^ 16 * bits d.2 0 8 + 2 ^ 24 * bits d.2 24 8.
(** The last offset: the limit counts bytes or pages. *)
Definition d_limit (d : Z * Z) : Z :=
  let l := bits d.1 0 16 + 2 ^ 16 * bits d.2 16 4 in
  if bits d.2 23 1 =? 1 then 2 ^ 12 * l + (2 ^ 12 - 1) else l.
Definition d_type (d : Z * Z) : Z := bits d.2 8 4.
Definition d_app (d : Z * Z) : bool := bits d.2 12 1 =? 1.
Definition d_dpl (d : Z * Z) : Z := bits d.2 13 2.
Definition d_present (d : Z * Z) : bool := bits d.2 15 1 =? 1.
Definition g_offset (d : Z * Z) : Z := bits d.1 0 16 + 2 ^ 16 * bits d.2 16 16.
Definition g_selector (d : Z * Z) : Z := bits d.1 16 16.

(** An interrupt [n] at privilege level [cpl], by an instruction if [software]:
    the new level, address and interrupt flag, or a fault. *)
Definition deliver (idt gdt : list (Z * Z)) (software : bool) (cpl : Z) (n : nat) (iflag : bool) : option (Z * Z * bool) :=
  match idt !! n with
  | None => None
  | Some g =>
      if software && (d_dpl g <? cpl) then None else
      if negb (d_present g) || d_app g then None else
      match gdt !! Z.to_nat (g_selector g / 8) with
      | None => None
      | Some c =>
          if negb (d_present c) || negb (d_app c) || negb (bits (d_type c) 3 1 =? 1) || (cpl <? d_dpl c) || (d_limit c <? g_offset g) then None
          else
            let eip := (d_base c + g_offset g) mod 2 ^ 32 in
            if d_type g =? STS_IG32 then Some (d_dpl c, eip, false)
            else if d_type g =? STS_TG32 then Some (d_dpl c, eip, iflag) else None
      end
  end.

(** ** Decoding *)

Lemma bits_low c h k n : 0 <= c < 2 ^ 16 -> 0 <= k -> 0 <= n -> k + n <= 16 -> bits (c + 2 ^ 16 * h) k n = bits c k n.
Proof.
  intros Hc Hk Hn Hkn. unfold bits. replace (2 ^ 16) with (2 ^ k * (2 ^ n * 2 ^ (16 - k - n))) by (rewrite <- !Z.pow_add_r by lia; f_equal; lia).
  replace (c + 2 ^ k * (2 ^ n * 2 ^ (16 - k - n)) * h) with (c + 2 ^ n * 2 ^ (16 - k - n) * h * 2 ^ k) by lia.
  rewrite Z.div_add by (apply Z.pow_nonzero; lia). replace (2 ^ n * 2 ^ (16 - k - n) * h) with (2 ^ (16 - k - n) * h * 2 ^ n) by lia. by rewrite Z.mod_add by (apply Z.pow_nonzero; lia).
Qed.

Lemma bits_high c h : 0 <= c < 2 ^ 16 -> 0 <= h < 2 ^ 16 -> bits (c + 2 ^ 16 * h) 16 16 = h.
Proof. intros Hc Hh. unfold bits. rewrite Z.mul_comm, Z.div_add, Z.div_small, Z.add_0_l by lia. by apply Z.mod_small. Qed.

(** A gate in memory is the gate that was set. *)
Lemma gate_decode istrap v d : 0 <= v < 2 ^ 32 -> d = 0 \/ d = 3 -> let w := gate_words (SETGATE istrap 8 v d) in
  g_offset w = v /\ g_selector w = 8 /\ d_dpl w = d /\ d_present w = true /\ d_app w = false /\ d_type w = if istrap then STS_TG32 else STS_IG32.
Proof.
  intros Hv Hd w. assert (Z.land v 0xffff = v mod 2 ^ 16) as El by (change 0xffff with (Z.ones 16); by apply Z.land_ones).
  pose proof (Z.mod_pos_bound v (2 ^ 16) ltac:(lia)) as Hm. pose proof (Z.div_mod v (2 ^ 16) ltac:(lia)) as Ed.
  assert (0 <= v / 2 ^ 16 < 2 ^ 16) as Hh by (split; [apply Z.div_pos; lia|apply Z.div_lt_upper_bound; lia]).
  set (c := 2 ^ 8 * (if istrap then STS_TG32 else STS_IG32) + 2 ^ 13 * d + 2 ^ 15).
  assert (w = (v mod 2 ^ 16 + 2 ^ 16 * 8, c + 2 ^ 16 * (v / 2 ^ 16))) as Ew.
  { unfold w, gate_words, SETGATE, c. cbn [gt_off_15_0 gt_cs gt_args gt_rsv1 gt_type gt_s gt_dpl gt_p gt_off_31_16]. rewrite El, Z.shiftr_div_pow2 by lia. f_equal. lia. }
  assert (0 <= c < 2 ^ 16) as Hc by (unfold c, STS_TG32, STS_IG32; destruct istrap, Hd as [-> | ->]; lia).
  rewrite Ew. unfold g_offset, g_selector, d_dpl, d_present, d_app, d_type. cbn [fst snd]. rewrite !bits_high by lia. rewrite !bits_low by lia. split_and!.
  - unfold bits. rewrite Z.div_1_r, Z.mod_mod by lia. lia.
  - done.
  - unfold c. destruct istrap, Hd as [-> | ->]; done.
  - unfold c. destruct istrap, Hd as [-> | ->]; done.
  - unfold c. destruct istrap, Hd as [-> | ->]; done.
  - unfold c. destruct istrap, Hd as [-> | ->]; done.
Qed.

(** The descriptor of the task state, as the processor reads it. *)
Lemma tss_decode ts : 0 <= ts < 2 ^ 32 -> let w := seg_words (tss_desc ts) in
  d_base w = ts /\ d_limit w = 103 /\ d_type w = STS_T32A /\ d_app w = false /\ d_present w = true /\ d_dpl w = 0.
Proof.
  intros Ht w. set (b := ts / 2 ^ 16). set (m := b mod 2 ^ 8). set (t := ts / 2 ^ 24).
  pose proof (Z.mod_pos_bound ts (2 ^ 16) ltac:(lia)) as Hl. pose proof (Z.div_mod ts (2 ^ 16) ltac:(lia)) as Ed. fold b in Ed.
  pose proof (Z.mod_pos_bound b (2 ^ 8) ltac:(lia)) as Hm. pose proof (Z.div_mod b (2 ^ 8) ltac:(lia)) as Eb. fold m in Hm, Eb.
  assert (b / 2 ^ 8 = t) as Et by (unfold b, t; rewrite Z.div_div by lia; done). rewrite Et in Eb.
  assert (0 <= t < 2 ^ 8) as Hh by (split; [apply Z.div_pos; lia|apply Z.div_lt_upper_bound; lia]).
  assert (w = (103 + 2 ^ 16 * (ts mod 2 ^ 16), m + 2 ^ 8 * 9 + 2 ^ 15 + 2 ^ 16 * (2 ^ 6 + 2 ^ 8 * t))) as Ew.
  { unfold w, seg_words, tss_desc, SEG16. cbn [sd_lim_15_0 sd_base_15_0 sd_base_23_16 sd_type sd_s sd_dpl sd_p sd_lim_19_16 sd_avl sd_rsv1 sd_db sd_g sd_base_31_24].
    change 0xffff with (Z.ones 16). change 0xff with (Z.ones 8). rewrite !Z.land_ones by lia. rewrite !Z.shiftr_div_pow2 by lia. fold b m t. unfold STS_T32A.
    change ((104 - 1) mod 2 ^ 16) with 103. change ((104 - 1) / 2 ^ 16) with 0. f_equal. lia. }
  rewrite Ew. unfold d_base, d_limit, d_type, d_app, d_present, d_dpl. cbn [fst snd]. set (h := 2 ^ 6 + 2 ^ 8 * t). set (c := m + 2 ^ 8 * 9 + 2 ^ 15).
  assert (bits (c + 2 ^ 16 * h) 24 8 = t) as E1.
  { unfold bits. replace ((c + 2 ^ 16 * h) / 2 ^ 24) with t; [apply Z.mod_small; lia|]. unfold c, h. apply Z.div_unique with (m + 2 ^ 8 * 9 + 2 ^ 15 + 2 ^ 22); lia. }
  assert (bits (c + 2 ^ 16 * h) 16 4 = 0 /\ bits (c + 2 ^ 16 * h) 23 1 = 0) as [E2 E3].
  { unfold bits. replace ((c + 2 ^ 16 * h) / 2 ^ 16) with h by (apply Z.div_unique with c; unfold c; lia).
    replace ((c + 2 ^ 16 * h) / 2 ^ 23) with (2 * t) by (apply Z.div_unique with (c + 2 ^ 22); unfold c, h; lia). split.
    - unfold h. replace (2 ^ 6 + 2 ^ 8 * t) with ((2 ^ 2 + 2 ^ 4 * t) * 2 ^ 4) by lia. apply Z.mod_mul. lia.
    - rewrite Z.mul_comm. apply Z.mod_mul. lia. }
  assert (0 <= c < 2 ^ 16) as Hc by (unfold c; lia). rewrite E1, E2, E3. rewrite bits_high by lia. rewrite !bits_low by lia.
  assert (forall k n, 8 <= k -> 0 <= n -> bits c k n = bits (9 + 2 ^ 7) (k - 8) n) as Eq.
  { intros k n Hk Hn. unfold bits. replace (2 ^ k) with (2 ^ 8 * 2 ^ (k - 8)) by (rewrite <- Z.pow_add_r by lia; f_equal; lia).
    rewrite <- Z.div_div by lia. replace (c / 2 ^ 8) with (9 + 2 ^ 7) by (apply Z.div_unique with m; unfold c; lia). done. }
  rewrite (Eq 8 4), (Eq 12 1), (Eq 15 1), (Eq 13 2) by lia. replace (bits c 0 8) with m by (unfold bits; rewrite Z.div_1_r; apply Z.mod_unique with (9 + 2 ^ 7); unfold c; lia).
  split_and!; try done. lia.
Qed.

Lemma idt_lookup vectors n : (n < 256)%nat ->
  idt vectors !! n = Some (MkGate (bool_decide (n = 64%nat)) 8 (vectors n) (if decide (n = 64%nat) then 3 else 0)).
Proof.
  intros Hn. unfold idt. change (Z.to_nat T_SYSCALL) with 64%nat. destruct (decide (n = 64%nat)) as [->|Hne].
  - rewrite list_lookup_insert_eq; [done|]. rewrite length_map, length_seq. lia.
  - rewrite list_lookup_insert_ne by done. change (map ?f ?l) with (f <$> l). rewrite list_lookup_fmap, lookup_seq_lt by done. simpl. by rewrite bool_decide_false.
Qed.

(** C21: after [seginit] and [tvinit] an interrupt or exception goes to the entry
    of its vector in the kernel, at privilege level 0 and with interrupts off
    (only the system call leaves them as they are), from the kernel or from a
    program; and the only entry that a program can call itself is that of the
    system call. *)
Theorem kernel_entries vectors n iflag : (forall i, 0 <= vectors i < 2 ^ 32) -> (n < 256)%nat ->
  let idt := idt_words vectors in let gdt := map seg_words seginit in
  (forall cpl, cpl = 0 \/ cpl = 3 -> deliver idt gdt false cpl n iflag = Some (0, vectors n, if decide (n = 64%nat) then iflag else false)) /\
  deliver idt gdt true 3 n iflag = if decide (n = 64%nat) then Some (0, vectors n, iflag) else None.
Proof.
  intros Hv Hn idt gdt. assert (gdt !! 1%nat = Some (0xffff, 0xcf9a00)) as Hg by (by vm_compute).
  destruct (gate_decode (bool_decide (n = 64%nat)) (vectors n) (if decide (n = 64%nat) then 3 else 0) (Hv n) ltac:(case_decide; auto)) as (E1 & E2 & E3 & E4 & E5 & E6).
  set (w := gate_words _) in *. assert (idt !! n = Some w) as Hw.
  { unfold idt, idt_words. change (map ?f ?l) with (f <$> l). by rewrite list_lookup_fmap, idt_lookup. }
  unfold deliver. rewrite Hw, E2, E3, E4, E5. change (Z.to_nat (8 / 8)) with 1%nat. rewrite Hg. cbn [negb orb].
  set (c := (0xffff, 0xcf9a00)). assert (d_present c = true /\ d_app c = true /\ (bits (d_type c) 3 1 =? 1) = true /\ d_dpl c = 0 /\ d_limit c = 0xffffffff /\ d_base c = 0) as
    (C1 & C2 & C3 & C4 & C5 & C6) by (by vm_compute). rewrite C1, C2, C3, C4, C5, C6, E1. cbn [negb orb].
  specialize (Hv n). rewrite (proj2 (Z.ltb_ge 0xffffffff (vectors n))) by lia. rewrite Z.add_0_l, Z.mod_small by lia. rewrite E6. split.
  - intros cpl Hcpl. rewrite (proj2 (Z.ltb_ge cpl 0)) by lia. cbn [andb orb]. case_decide; [by rewrite bool_decide_true|by rewrite bool_decide_false].
  - case_decide; [by rewrite bool_decide_true|done].
Qed.

Lemma kernel_entries_witness : let idt := idt_words (fun i => 0x80105000 + Z.of_nat i mod 256) in let gdt := map seg_words seginit in
  deliver idt gdt true 3 64 true = Some (0, 0x80105040, true) /\ deliver idt gdt true 3 14 true = None.
Proof.
  split; [apply (kernel_entries (fun i => 0x80105000 + Z.of_nat i mod 256) 64 true)|apply (kernel_entries (fun i => 0x80105000 + Z.of_nat i mod 256) 14 true)];
    try lia; intros i; pose proof (Z.mod_pos_bound (Z.of_nat i) 256); lia.
Defined.
