(* ===== verification/Mp.v ===== *)
(** * Finding the processors (mp.c)

    At boot the kernel looks in the BIOS's memory for the table that describes
    the processors and the I/O APIC.  The functions that only read that memory
    are pure; [mpinit] changes the variables of the record [mpstate].  The
    writes to I/O ports are a list. *)

From stdpp Require Import base numbers list list_numbers strings gmap.
From S2P Require Import Prelude Kmonad Params KString.

Local Open Scope Z_scope.
Local Open Scope kern_scope.

(** mp.h: the types of the entries of the table. *)
Definition MPPROC : Z := 0.
Definition MPBUS : Z := 1.
Definition MPIOAPIC : Z := 2.
Definition MPIOINTR : Z := 3.
Definition MPLINTR : Z := 4.

Record mpstate := MkMp {
  mp_lapic : Z;
  mp_ncpu : nat;
  mp_cpus : list Z;       (** [cpus[i].apicid] *)
  mp_ioapicid : Z;
  mp_ports : list (Z * Z) (** [outb], in order *)
}.
#[export] Instance eta_mpstate : Eta mpstate := fun x => MkMp (mp_lapic x) (mp_ncpu x) (mp_cpus x) (mp_ioapicid x) (mp_ports x).
#[export] Instance set_mp_lapic : Setter mp_lapic := ltac:(derive_setter).
#[export] Instance set_mp_ncpu : Setter mp_ncpu := ltac:(derive_setter).
#[export] Instance set_mp_cpus : Setter mp_cpus := ltac:(derive_setter).
#[export] Instance set_mp_ioapicid : Setter mp_ioapicid := ltac:(derive_setter).
#[export] Instance set_mp_ports : Setter mp_ports := ltac:(derive_setter).

Section mp.
(** Physical memory, and what [inb(0x23)] returns. *)
Context (m : mem) (inb23 : Z).

(** Through a kernel pointer. *)
Definition byte_at (p : Z) : Z := load8 m (V2P p).
Definition bytes_at (p : Z) (n : nat) : list Z := map (fun k => byte_at (u32 (p + k))) (seqZ 0 (Z.of_nat n)).
Definition field (p off : Z) (n : nat) : Z := of_le (bytes_at (u32 (p + off)) n).

Definition sum (addr : Z) (len : nat) : Z := u8 (foldl Z.add 0 (bytes_at addr len)).

(** The test of [mpsearch1]. *)
Definition is_mp (p : Z) : bool := bool_decide (bytes_at p 4 = bytes "_MP_") && (sum p 16 =? 0).

Fixpoint mpsearch1_loop (rounds : nat) (p e : Z) : option Z :=
  match rounds with
  | O => None
  | S rounds => if p <? e then if is_mp p then Some p else mpsearch1_loop rounds (u32 (p + 16)) e else None
  end.
Definition mpsearch1 (a len : Z) : option Z :=
  let addr := P2V a in mpsearch1_loop (Z.to_nat len) addr (u32 (addr + len)).

Definition mpsearch : option Z :=
  let bda := P2V 0x400 in
  let p := Z.shiftl (Z.lor (Z.shiftl (byte_at (bda + 0x0F)) 8) (byte_at (bda + 0x0E))) 4 in
  match
    (if negb (p =? 0) then mpsearch1 p 1024
     else
       let p := Z.lor (Z.shiftl (byte_at (bda + 0x14)) 8) (byte_at (bda + 0x13)) * 1024 in
       mpsearch1 (u32 (p - 1024)) 1024)
  with
  | Some mp => Some mp
  | None => mpsearch1 0xF0000 0x10000
  end.

(** [struct mp]: [physaddr] at 4, [imcrp] at 12; [struct mpconf]: [length] at 4,
    [version] at 6, [lapicaddr] at 36, 44 bytes. *)
Definition conf_length (conf : Z) : Z := field conf 4 2.
Definition mpconfig : option (Z * Z) :=
  match mpsearch with
  | None => None
  | Some mp =>
      let physaddr := field mp 4 4 in
      if physaddr =? 0 then None else
      let conf := P2V physaddr in
      if negb (bool_decide (bytes_at conf 4 = bytes "PCMP")) then None else
      let version := field conf 6 1 in
      if negb (version =? 1) && negb (version =? 4) then None else
      if negb (sum conf (Z.to_nat (conf_length conf)) =? 0) then None else
      Some (mp, conf)
  end.

Abbreviation KP := (K Empty_set mpstate).

(** [case MPPROC]; the processor at [p]. *)
Definition add_cpu (p : Z) : KP unit :=
  let* ncpu := gets mp_ncpu in
  when (ncpu <? NCPU)%nat
    (modify (fun s => s <| mp_cpus := <[ncpu := byte_at (u32 (p + 1))]> (mp_cpus s) |> <| mp_ncpu := S ncpu |>)).

(** The loop over the entries; [default] leaves the [switch] only. *)
Fixpoint mpinit_loop (fuel : nat) (p e : Z) (ismp : bool) : KP bool :=
  match fuel with
  | O => nofuel
  | S fuel =>
      if p <? e then
        let t := byte_at p in
        if t =? MPPROC then add_cpu p ;; mpinit_loop fuel (u32 (p + 20)) e ismp
        else if t =? MPIOAPIC then
          modify (fun s => s <| mp_ioapicid := byte_at (u32 (p + 1)) |>) ;; mpinit_loop fuel (u32 (p + 8)) e ismp
        else if (t =? MPBUS) || (t =? MPIOINTR) || (t =? MPLINTR) then mpinit_loop fuel (u32 (p + 8)) e ismp
        else mpinit_loop fuel p e false
      else ret ismp
  end.

Definition outb (port v : Z) : KP unit := modify (set mp_ports (fun l => l ++ [(port, u8 v)])).

Definition mpinit (fuel : nat) : KP unit :=
  match mpconfig with
  | None => panic "Expect to run on an SMP"
  | Some (mp, conf) =>
      modify (fun s => s <| mp_lapic := field conf 36 4 |>) ;;
      let* ismp := mpinit_loop fuel (u32 (conf + 44)) (u32 (conf + conf_length conf)) true in
      (if negb ismp then panic "Didn't find a suitable machine" else ret tt) ;;
      when (negb (byte_at (u32 (mp + 12)) =? 0))
        (outb 0x22 0x70 ;; outb 0x23 (Z.lor inb23 1))
  end.
End mp.

(** ** The search *)

Definition first (f : Z -> bool) (l : list Z) : option Z := head (List.filter f l).

Lemma first_app f l l' : first f (l ++ l') = match first f l with Some x => Some x | None => first f l' end.
Proof. unfold first. rewrite List.filter_app. by destruct (List.filter f l). Qed.

(** Every sixteenth address of an area of [n] times 16 bytes. *)
Definition area (a : Z) (n : nat) : list Z := map (fun k => a + 16 * k) (seqZ 0 (Z.of_nat n)).

Lemma area_S a n : area a (S n) = a :: area (a + 16) n.
Proof.
  unfold area. rewrite seqZ_cons by lia. cbn [map]. f_equal; [lia|]. replace (Z.pred (Z.of_nat (S n))) with (Z.of_nat n) by lia.
  change (Z.succ 0) with (1 + 0). rewrite <- (fmap_add_seqZ 1 0 (Z.of_nat n)). change ((fun k => a + 16 * k) <$> (Z.add 1 <$> seqZ 0 (Z.of_nat n)) = map (fun k => a + 16 + 16 * k) (seqZ 0 (Z.of_nat n))).
  rewrite <- list_fmap_compose. apply list_fmap_ext. intros i x _. simpl. lia.
Qed.

Section search.
Context (m : mem).

Lemma mpsearch1_loop_first n : forall rounds p, (n <= rounds)%nat -> 0 <= p -> p + 16 * Z.of_nat n < 2 ^ 32 ->
  mpsearch1_loop m rounds p (p + 16 * Z.of_nat n) = first (is_mp m) (area p n).
Proof.
  induction n as [|n IH]; intros [|rounds] p Hr Hp Hb; try lia; cbn [mpsearch1_loop]; [done| |].
  - rewrite (proj2 (Z.ltb_ge p _)) by lia. done.
  - rewrite (proj2 (Z.ltb_lt p _)) by lia. rewrite area_S. unfold first. cbn [List.filter].
    destruct (is_mp m p); [done|]. rewrite u32_small by lia. replace (p + 16 * Z.of_nat (S n)) with (p + 16 + 16 * Z.of_nat n) by lia. apply IH; lia.
Qed.

Lemma mpsearch1_first a n : P2V a + 16 * Z.of_nat n < 2 ^ 32 -> mpsearch1 m a (16 * Z.of_nat n) = first (is_mp m) (area (P2V a) n).
Proof.
  intros H. assert (0 <= P2V a) by (unfold P2V, u32; apply Z.mod_pos_bound; lia). unfold mpsearch1. rewrite u32_small by lia. apply mpsearch1_loop_first; lia.
Qed.

(** The places the code searches, in order: the first kilobyte of the EBDA or,
    if there is none, the last one of base memory, and the upper half of the
    BIOS ROM, from 0xF0000 to 0xFFFFF.  (The specification, and the comment on
    [mpsearch], let the ROM begin at 0xE0000: a structure in its lower half is
    not found.) *)
Definition bda (off : Z) : Z := byte_at m (P2V 0x400 + off).
Definition ebda : Z := 16 * (256 * bda 0x0F + bda 0x0E).
Definition base_end : Z := 1024 * (256 * bda 0x14 + bda 0x13).
Definition candidates : list Z :=
  (if ebda =? 0 then area (KERNBASE + base_end - 1024) 64 else area (KERNBASE + ebda) 64) ++ area (KERNBASE + 0xF0000) 4096.

Lemma lor_bytes x y : 0 <= x -> 0 <= y < 256 -> Z.lor (Z.shiftl x 8) y = 256 * x + y.
Proof.
  intros Hx Hy. pose proof (Z.add_lor_land (Z.shiftl x 8) y) as E. assert (Z.land (Z.shiftl x 8) y = 0) as E0.
  { apply Z.bits_inj_0. intros n. rewrite Z.land_spec. destruct (Z.lt_ge_cases n 8); [by rewrite Z.shiftl_spec_low by done|].
    apply andb_false_iff. right. destruct (decide (y = 0)) as [->|]; [apply Z.bits_0|]. apply Z.bits_above_log2; [lia|].
    apply (Z.lt_le_trans _ 8); [|done]. apply Z.log2_lt_pow2; lia. }
  rewrite Z.shiftl_mul_pow2 in * by lia. change (2 ^ 8) with 256 in *. lia.
Qed.

Context (Hm : forall a, 0 <= load8 m a < 256).

Lemma mpsearch_first : mpsearch m = first (is_mp m) candidates.
Proof.
  unfold mpsearch, candidates. rewrite first_app. fold (bda 0x0F) (bda 0x0E) (bda 0x14) (bda 0x13).
  assert (forall off, 0 <= bda off < 256) as Hb by (intros off; apply Hm). pose proof (Hb 0x0F). pose proof (Hb 0x0E). pose proof (Hb 0x14). pose proof (Hb 0x13).
  rewrite !lor_bytes by lia. rewrite Z.shiftl_mul_pow2 by lia. replace ((256 * bda 0x0F + bda 0x0E) * 2 ^ 4) with ebda by (unfold ebda; lia).
  change (mpsearch1 m 0xF0000 0x10000) with (mpsearch1 m 0xF0000 (16 * Z.of_nat 4096)). rewrite (mpsearch1_first 0xF0000) by (by vm_compute).
  change (P2V 0xF0000) with (KERNBASE + 0xF0000). change 1024 with (16 * Z.of_nat 64). unfold ebda, base_end in *. unfold KERNBASE.
  destruct (Z.eqb_spec (16 * (256 * bda 15 + bda 14)) 0) as [E|E]; cbn [negb].
  - assert (P2V (u32 ((256 * bda 20 + bda 19) * (16 * Z.of_nat 64) - 16 * Z.of_nat 64)) = 0x80000000 + 1024 * (256 * bda 20 + bda 19) - 1024) as Ep.
    { unfold P2V, KERNBASE, u32. rewrite Zplus_mod_idemp_l. rewrite Z.mod_small by lia. lia. }
    rewrite mpsearch1_first by (rewrite Ep; lia). rewrite Ep. done.
  - assert (P2V (16 * (256 * bda 15 + bda 14)) = 0x80000000 + 16 * (256 * bda 15 + bda 14)) as Ep.
    { unfold P2V, KERNBASE, u32. rewrite Z.mod_small by lia. lia. }
    rewrite mpsearch1_first by (rewrite Ep; lia). rewrite Ep. done.
Qed.
End search.

(** ** The table *)

Inductive entry :=
| Processor (apicid : Z) (rest : list Z)
| IoApic (apicno : Z) (rest : list Z)
| Other (t : Z) (rest : list Z).

Definition enc (e : entry) : list Z :=
  match e with
  | Processor a rest => MPPROC :: a :: rest
  | IoApic n rest => MPIOAPIC :: n :: rest
  | Other t rest => t :: rest
  end.

Definition entry_ok (e : entry) : Prop :=
  match e with
  | Processor _ rest => length rest = 18%nat
  | IoApic _ rest => length rest = 6%nat
  | Other t rest => (t = MPBUS \/ t = MPIOINTR \/ t = MPLINTR) /\ length rest = 7%nat
  end.

Definition apply_entry (s : mpstate) (e : entry) : mpstate :=
  match e with
  | Processor a _ =>
      if (mp_ncpu s <? NCPU)%nat then s <| mp_cpus := <[mp_ncpu s := a]> (mp_cpus s) |> <| mp_ncpu := S (mp_ncpu s) |> else s
  | IoApic n _ => s <| mp_ioapicid := n |>
  | Other _ _ => s
  end.

Definition apicids (es : list entry) : list Z := flat_map (fun e => match e with Processor a _ => [a] | _ => [] end) es.
Definition ioapics (es : list entry) : list Z := flat_map (fun e => match e with IoApic n _ => [n] | _ => [] end) es.

Section table.
Context (m : mem).

Lemma bytes_at_lookup p n k : (k < n)%nat -> bytes_at m p n !! k = Some (byte_at m (u32 (p + Z.of_nat k))).
Proof.
  intros Hk. unfold bytes_at. change (map ?f ?l) with (f <$> l). rewrite list_lookup_fmap, lookup_seqZ_lt by lia. simpl. by rewrite Z.add_0_l.
Qed.

Lemma length_bytes_at p n : length (bytes_at m p n) = n.
Proof. unfold bytes_at. rewrite length_map, length_seqZ. lia. Qed.

(** Reading from an address where the bytes are known. *)
Lemma bytes_at_split p l l' : 0 <= p -> p + Z.of_nat (length l) < 2 ^ 32 ->
  bytes_at m p (length (l ++ l')) = l ++ l' ->
  (forall k x, l !! k = Some x -> byte_at m (u32 (p + Z.of_nat k)) = x) /\ bytes_at m (p + Z.of_nat (length l)) (length l') = l'.
Proof.
  intros Hp Hb E. assert (forall k, (k < length (l ++ l'))%nat -> (l ++ l') !! k = Some (byte_at m (u32 (p + Z.of_nat k)))) as El.
  { intros k Hk. rewrite <- E at 1. by apply bytes_at_lookup. }
  rewrite length_app in El. split.
  - intros k x Hx. pose proof (lookup_lt_Some _ _ _ Hx). specialize (El k ltac:(lia)). rewrite lookup_app_l in El by done. congruence.
  - apply list_eq. intros k. destruct (decide (k < length l')%nat) as [Hk|Hk].
    + rewrite bytes_at_lookup by done. specialize (El (length l + k)%nat ltac:(lia)). rewrite lookup_app_r in El by lia.
      replace (length l + k - length l)%nat with k in El by lia. rewrite El. do 3 f_equal. lia.
    + rewrite !lookup_ge_None_2; [done|lia|rewrite length_bytes_at; lia].
Qed.

Lemma enc_length e : entry_ok e -> (0 < length (enc e))%nat.
Proof. by destruct e; simpl; lia. Qed.

(** One round of the loop on a known entry. *)
Lemma mpinit_entry fuel p e en b s l : entry_ok en -> 0 <= p -> p + Z.of_nat (length (enc en)) <= e -> e < 2 ^ 32 ->
  bytes_at m p (length (enc en ++ l)) = enc en ++ l ->
  mpinit_loop m (S fuel) p e b s = mpinit_loop m fuel (p + Z.of_nat (length (enc en))) e b (apply_entry s en) /\
  bytes_at m (p + Z.of_nat (length (enc en))) (length l) = l.
Proof.
  intros Hok Hp He Hb E. destruct (bytes_at_split p (enc en) l Hp ltac:(lia) E) as [Hx Hl]. split; [|done]. pose proof (enc_length _ Hok).
  assert (p < 2 ^ 32) by lia. assert (forall x, enc en !! 0%nat = Some x -> byte_at m p = x) as Hh.
  { intros x Hx0. apply Hx in Hx0. by rewrite Z.add_0_r, u32_small in Hx0 by lia. }
  cbn [mpinit_loop]. rewrite (proj2 (Z.ltb_lt p e)) by lia. destruct en as [a rest|n rest|t rest]; cbn [entry_ok enc] in *.
  - rewrite (Hh _ eq_refl). cbn [MPPROC Z.eqb]. pose proof (Hx 1%nat a eq_refl) as Ha. change (Z.of_nat 1) with 1 in Ha. cbn [length]. rewrite Hok.
    rewrite u32_small by (simpl in He; lia). unfold add_cpu. rewrite Ha. cbn [apply_entry]. unfold bind, gets, when. cbn [obind].
    by destruct (mp_ncpu s <? NCPU)%nat.
  - rewrite (Hh _ eq_refl). cbn [MPPROC MPIOAPIC Z.eqb Pos.eqb]. pose proof (Hx 1%nat n eq_refl) as Ha. change (Z.of_nat 1) with 1 in Ha. cbn [length]. rewrite Hok, Ha.
    rewrite u32_small by (simpl in He; lia). done.
  - rewrite (Hh _ eq_refl). destruct Hok as [Ht Hr]. cbn [length] in *. rewrite Hr in *. destruct Ht as [->|[->| ->]]; cbn [MPPROC MPIOAPIC MPBUS MPIOINTR MPLINTR Z.eqb Pos.eqb orb]; by rewrite u32_small by lia.
Qed.

Lemma mpinit_entries es : forall fuel p e b s l, Forall entry_ok es -> 0 <= p -> p + Z.of_nat (length (flat_map enc es)) <= e -> e < 2 ^ 32 ->
  bytes_at m p (length (flat_map enc es ++ l)) = flat_map enc es ++ l ->
  mpinit_loop m (length es + fuel) p e b s = mpinit_loop m fuel (p + Z.of_nat (length (flat_map enc es))) e b (foldl apply_entry s es) /\
  bytes_at m (p + Z.of_nat (length (flat_map enc es))) (length l) = l.
Proof.
  induction es as [|en es IH]; intros fuel p e b s l Hok Hp He Hb E; cbn [flat_map length foldl Nat.add app] in *.
  { rewrite Z.add_0_r. done. }
  apply Forall_cons in Hok as [Hen Hok]. rewrite <- app_assoc in E. rewrite length_app, Nat2Z.inj_add in He. rewrite length_app, Nat2Z.inj_add.
  destruct (mpinit_entry (length es + fuel) p e en b s (flat_map enc es ++ l) Hen Hp ltac:(lia) Hb E) as [-> E'].
  rewrite Z.add_assoc. apply IH; [done|lia|lia|done|done].
Qed.

(** An entry of another type: the loop never leaves it. *)
Lemma mpinit_unknown fuel : forall p e b s, p < e -> 4 < byte_at m p -> mpinit_loop m fuel p e b s = NoFuel.
Proof.
  induction fuel as [|fuel IH]; intros p e b s Hp Hb; [done|]. cbn [mpinit_loop]. rewrite (proj2 (Z.ltb_lt p e)) by lia.
  unfold MPPROC, MPIOAPIC, MPBUS, MPIOINTR, MPLINTR. repeat rewrite (proj2 (Z.eqb_neq (byte_at m p) _)) by lia. by apply IH.
Qed.
End table.

(** ** What the entries leave behind *)

Lemma apply_cpus es : forall s, length (mp_cpus s) = NCPU -> (mp_ncpu s <= NCPU)%nat -> let s' := foldl apply_entry s es in
  mp_ncpu s' = Nat.min NCPU (mp_ncpu s + length (apicids es)) /\ length (mp_cpus s') = NCPU /\
  take (mp_ncpu s') (mp_cpus s') = take NCPU (take (mp_ncpu s) (mp_cpus s) ++ apicids es).
Proof.
  induction es as [|e es IH]; intros s Hl Hn; cbn [foldl apicids flat_map].
  { cbn [length]. split_and!; [lia|done|]. by rewrite app_nil_r, take_take, Nat.min_r. }
  fold (apicids es). destruct e as [a rest|n rest|t rest]; cbn [apply_entry app length]; [|set (s1 := s <| mp_ioapicid := n |>); exact (IH s1 Hl Hn)|by apply IH].
  destruct (Nat.ltb_spec (mp_ncpu s) NCPU) as [Hlt|Hge].
  - set (s1 := s <| mp_cpus := <[mp_ncpu s := a]> (mp_cpus s) |> <| mp_ncpu := S (mp_ncpu s) |>).
    assert (mp_ncpu s1 = S (mp_ncpu s)) as N1 by done. assert (mp_cpus s1 = <[mp_ncpu s := a]> (mp_cpus s)) as C1 by done.
    destruct (IH s1) as (E1 & E2 & E3); [by rewrite C1, length_insert|lia|]. cbn zeta. rewrite E3, E1, N1, C1. split_and!; [lia|done|].
    rewrite (take_S_r _ _ a) by (apply list_lookup_insert_eq; lia). rewrite take_insert_ge by lia. by rewrite <- app_assoc.
  - destruct (IH s Hl Hn) as (E1 & E2 & E3). cbn zeta. rewrite E3, E1. split_and!; [lia|done|]. assert (mp_ncpu s = NCPU) as -> by lia.
    rewrite !take_app_le by (rewrite length_take; lia). done.
Qed.

Lemma apply_rest es : forall s, let s' := foldl apply_entry s es in
  mp_ioapicid s' = default (mp_ioapicid s) (last (ioapics es)) /\ mp_lapic s' = mp_lapic s /\ mp_ports s' = mp_ports s.
Proof.
  induction es as [|e es IH]; intros s; cbn [foldl ioapics flat_map]; [done|]. fold (ioapics es). destruct (IH (apply_entry s e)) as (-> & -> & ->).
  destruct e as [a rest|n rest|t rest]; cbn [apply_entry app]; [by destruct (mp_ncpu s <? NCPU)%nat| |done].
  split_and!; [|done|done]. rewrite last_cons. by destruct (last (ioapics es)).
Qed.

(** The table that the kernel finds: the entries [es] and the bytes [l]. *)
Record table_at (m : mem) (mp conf : Z) (es : list entry) (l : list Z) : Prop := {
  ta_mem a : 0 <= load8 m a < 256;
  ta_mp : first (is_mp m) (candidates m) = Some mp;
  ta_conf : field m mp 4 4 <> 0 /\ conf = P2V (field m mp 4 4);
  ta_sig : bytes_at m conf 4 = bytes "PCMP";
  ta_version : field m conf 6 1 = 1 \/ field m conf 6 1 = 4;
  ta_sum : sum m conf (Z.to_nat (conf_length m conf)) = 0;
  ta_length : conf_length m conf = 44 + Z.of_nat (length (flat_map enc es ++ l));
  ta_end : conf + conf_length m conf < 2 ^ 32;
  ta_entries : Forall entry_ok es /\ bytes_at m (conf + 44) (length (flat_map enc es ++ l)) = flat_map enc es ++ l
}.

Lemma table_config m mp conf es l : table_at m mp conf es l -> mpconfig m = Some (mp, conf) /\ 0 <= conf.
Proof.
  intros [T1 T2 [T3 T3'] T4 T5 T6 T7 T8 T9]. unfold mpconfig. rewrite mpsearch_first, T2 by done. rewrite (proj2 (Z.eqb_neq _ _) T3), <- T3', bool_decide_true by done.
  cbn [negb]. rewrite T6. split; [by destruct T5 as [-> | ->]|]. rewrite T3'. unfold P2V, u32. apply Z.mod_pos_bound. lia.
Qed.

(** The loop of [mpinit] on it. *)
Lemma table_loop m mp conf es l fuel s : table_at m mp conf es l ->
  mpinit_loop m (length es + fuel) (u32 (conf + 44)) (u32 (conf + conf_length m conf)) true s =
  mpinit_loop m fuel (conf + 44 + Z.of_nat (length (flat_map enc es))) (conf + conf_length m conf) true (foldl apply_entry s es) /\
  bytes_at m (conf + 44 + Z.of_nat (length (flat_map enc es))) (length l) = l.
Proof.
  intros T. destruct (table_config _ _ _ _ _ T) as [_ Hc]. destruct T as [T1 T2 T3 T4 T5 T6 T7 T8 [T9 T10]]. pose proof T7 as T7'. rewrite length_app in T7'. rewrite !u32_small by lia.
  apply mpinit_entries; [done|lia|lia|done|done].
Qed.

(** C23: [mpinit] finds what the BIOS describes: with the floating pointer at the
    first of the places the code searches where there is one (which leave out
    the lower half of the BIOS ROM), and a table of known entries whose
    signature, version and checksum are right, it returns with the first [NCPU]
    processors of the table in [cpus], the last I/O APIC in [ioapicid] and the
    address of the local APIC, and masks external interrupts if there is an
    IMCR. *)
Theorem mpinit_detects m inb23 mp conf es fuel s : table_at m mp conf es [] -> (length es < fuel)%nat -> length (mp_cpus s) = NCPU -> mp_ncpu s = 0%nat ->
  exists s', mpinit m inb23 fuel s = Ok tt s' /\
    mp_ncpu s' = Nat.min NCPU (length (apicids es)) /\ take (mp_ncpu s') (mp_cpus s') = take NCPU (apicids es) /\
    mp_ioapicid s' = default (mp_ioapicid s) (last (ioapics es)) /\ mp_lapic s' = field m conf 36 4 /\
    mp_ports s' = mp_ports s ++ if byte_at m (u32 (mp + 12)) =? 0 then [] else [(0x22, 0x70); (0x23, u8 (Z.lor inb23 1))].
Proof.
  intros T Hf Hl Hn. destruct (table_config _ _ _ _ _ T) as [Hc Hc0]. unfold mpinit. rewrite Hc.
  set (s1 := s <| mp_lapic := field m conf 36 4 |>). destruct (table_loop m mp conf es [] (fuel - length es) s1 T) as [El _].
  replace (length es + (fuel - length es))%nat with fuel in El by lia. destruct (fuel - length es)%nat as [|f] eqn:Ef; [lia|].
  cbn [mpinit_loop] in El. pose proof (ta_length _ _ _ _ _ T) as Hlen. rewrite app_nil_r in Hlen. rewrite (proj2 (Z.ltb_ge _ _)) in El by lia.
  destruct (apply_cpus es s1 Hl ltac:(unfold s1; cbn; lia)) as (E1 & _ & E3). destruct (apply_rest es s1) as (E4 & E5 & E6).
  set (s2 := foldl apply_entry s1 es) in *. assert (mp_ncpu s1 = 0%nat) as N1 by done. rewrite N1 in *. cbn [take app Nat.add] in *.
  exists (s2 <| mp_ports := mp_ports s2 ++ if byte_at m (u32 (mp + 12)) =? 0 then [] else [(0x22, 0x70); (0x23, u8 (Z.lor inb23 1))] |>).
  split; [|by split_and!; [exact E1|exact E3|exact E4|exact E5|cbn; by rewrite E6]].
  rewrite (bind_Ok _ _ s tt s1) by done. rewrite (bind_Ok _ _ _ _ _ El). rewrite (bind_Ok _ _ s2 tt s2) by done.
  destruct (byte_at m (u32 (mp + 12)) =? 0); cbn [negb when].
  - unfold ret. f_equal. rewrite app_nil_r. by destruct s2.
  - unfold outb, bind, modify. cbn [obind]. f_equal. destruct s2 as [a b c d l]. unfold set, set_mp_ports. cbn. by rewrite <- app_assoc.
Qed.

Lemma loop_more m k fuel : forall p e b s, mpinit_loop m fuel p e b s <> NoFuel -> mpinit_loop m (k + fuel) p e b s = mpinit_loop m fuel p e b s.
Proof.
  induction fuel as [|fuel IH]; intros p e b s H; [done|]. rewrite Nat.add_succ_r. cbn [mpinit_loop] in *. destruct (p <? e); [|done].
  destruct (byte_at m p =? MPPROC).
  - unfold bind in *. destruct (add_cpu m p s) as [[] s1| | | |]; cbn [obind] in *; [by apply IH|done..].
  - destruct (byte_at m p =? MPIOAPIC); [unfold bind, modify in *; cbn [obind] in *; by apply IH|]. destruct (_ || _); by apply IH.
Qed.

(** An entry of a type that is not known, after known ones, and [mpinit]
    never returns: [break] leaves the [switch] but not the loop, and the panic
    behind the loop is not reached. *)
Theorem mpinit_unknown_hangs m inb23 mp conf es t l fuel s : table_at m mp conf es (t :: l) -> 4 < t -> mpinit m inb23 fuel s = NoFuel.
Proof.
  intros T Ht. destruct (table_config _ _ _ _ _ T) as [Hc Hc0]. unfold mpinit. rewrite Hc.
  set (s1 := s <| mp_lapic := field m conf 36 4 |>). rewrite (bind_Ok _ _ s tt s1) by done.
  enough (mpinit_loop m fuel (u32 (conf + 44)) (u32 (conf + conf_length m conf)) true s1 = NoFuel) as E by (unfold bind; by rewrite E).
  destruct (table_loop m mp conf es (t :: l) fuel s1 T) as [El Hb]. set (q := conf + 44 + Z.of_nat (length (flat_map enc es))) in *.
  pose proof (ta_length _ _ _ _ _ T) as Hlen. pose proof (ta_end _ _ _ _ _ T). rewrite length_app in Hlen. cbn [length] in Hlen.
  assert (byte_at m q = t) as Hq.
  { apply (f_equal (lookup 0%nat)) in Hb. rewrite bytes_at_lookup in Hb by (simpl; lia). injection Hb as Hb. rewrite Z.add_0_r, u32_small in Hb by lia. done. }
  rewrite (mpinit_unknown m fuel q) in El by (unfold q in *; lia).
  destruct (mpinit_loop m fuel (u32 (conf + 44)) (u32 (conf + conf_length m conf)) true s1) eqn:E; try done; exfalso;
    rewrite (loop_more m (length es) fuel), E in El by (by rewrite E); done.
Qed.

(** ** A machine with two processors *)

Lemma store8_byte m a v : (forall b, 0 <= load8 m b < 256) -> forall b, 0 <= load8 (store8 m a v) b < 256.
Proof.
  intros H b. destruct (decide (a = b)) as [<-|Hne]; [rewrite load8_store8_eq; unfold u8; apply Z.mod_pos_bound; lia|by rewrite load8_store8_ne].
Qed.

Lemma stores_byte l : forall m a, (forall b, 0 <= load8 m b < 256) -> forall b, 0 <= load8 (stores m a l) b < 256.
Proof. induction l as [|x l IH]; intros m a H b; cbn [stores]; [done|]. apply IH. by apply store8_byte. Qed.

(** The bytes [l] with the checksum at [k]. *)
Definition summed (k : nat) (l : list Z) : list Z := <[k := u8 (- foldl Z.add 0 l)]> l.

Definition float_ptr : list Z := summed 10 (bytes "_MP_" ++ le_bytes 4 0xF5000 ++ [1; 4; 0; 0; 0x80; 0; 0; 0]).
Definition two_cpus : list entry := [Processor 0 (replicate 18 0); Other MPBUS (replicate 7 0); Processor 4 (replicate 18 0); IoApic 2 (replicate 6 0)].
Definition config (l : list Z) : list Z :=
  summed 7 (bytes "PCMP" ++ le_bytes 2 (44 + Z.of_nat (length l)) ++ [4; 0] ++ replicate 20 32 ++ replicate 8 0 ++ le_bytes 4 0xFEE00000 ++ replicate 4 0 ++ l).
Definition bios (l : list Z) : mem := stores (stores (stores ∅ 0x413 [0x80; 2]) 0x9FC20 float_ptr) 0xF5000 (config l).

Lemma bios_byte l b : 0 <= load8 (bios l) b < 256.
Proof. unfold bios. apply stores_byte, stores_byte, stores_byte. intros c. unfold load8. rewrite lookup_empty. simpl. lia. Qed.

Lemma two_cpus_ok : Forall entry_ok two_cpus.
Proof. repeat constructor. Qed.

Lemma first_here f l l' x : first f l = Some x -> first f (l ++ l') = Some x.
Proof. intros H. by rewrite first_app, H. Qed.

Lemma two_cpus_table l : l = [] \/ l = [9] -> table_at (bios (flat_map enc two_cpus ++ l)) (KERNBASE + 0x9FC20) (KERNBASE + 0xF5000) two_cpus l.
Proof.
  intros [-> | ->]; (split; [apply bios_byte|apply first_here; by vm_compute|by vm_compute|by vm_compute|right; by vm_compute|by vm_compute|by vm_compute|by vm_compute|
    split; [apply two_cpus_ok|by vm_compute]]).
Qed.

Definition before_mp : mpstate := MkMp 0 0 (replicate NCPU 0) 0 [].

Lemma mpinit_detects_witness : exists s', mpinit (bios (flat_map enc two_cpus)) 0 10 before_mp = Ok tt s' /\ mp_ncpu s' = 2%nat /\ take 2 (mp_cpus s') = [0; 4].
Proof.
  destruct (mpinit_detects (bios (flat_map enc two_cpus ++ [])) 0 (KERNBASE + 0x9FC20) (KERNBASE + 0xF5000) two_cpus 10 before_mp) as (s' & E & H1 & H2 & _).
  - apply two_cpus_table. by left.
  - simpl. lia.
  - done.
  - done.
  - exists s'. rewrite app_nil_r in E. rewrite H1 in H2. split; [exact E|]. split; [exact H1|exact H2].
Defined.

Lemma mpinit_unknown_hangs_witness : mpinit (bios (flat_map enc two_cpus ++ [9])) 0 1000 before_mp = NoFuel.
Proof.
  apply (mpinit_unknown_hangs _ 0 (KERNBASE + 0x9FC20) (KERNBASE + 0xF5000) two_cpus 9 []); [|lia]. apply two_cpus_table. by right.
Defined.
