(* ===== verification/Devices.v ===== *)
(** * Interrupt controllers and the clock (lapic.c, ioapic.c, picirq.c, uart.c)

    The code that talks to the devices of the machine.  Writes to I/O ports and
    to the registers of the local APIC are lists; the I/O APIC is its
    registers; the clock gives at each read what its registers hold then, so a
    date can change while it is read. *)

From stdpp Require Import base numbers list list_numbers strings gmap.
From S2P Require Import Prelude Kmonad Params KString.

Local Open Scope Z_scope.
Local Open Scope kern_scope.

Record dev := MkDev {
  dv_ports : list (Z * Z);  (** [outb] *)
  dv_lapic : list (Z * Z);  (** [lapicw] *)
  dv_io : gmap Z Z;         (** the registers of the I/O APIC *)
  dv_reads : nat;           (** reads of the clock so far *)
  dv_wrv : list Z;          (** the warm reset vector, two half words *)
  dv_msgs : list (list Z)   (** [cprintf] *)
}.
#[export] Instance eta_dev : Eta dev := fun x => MkDev (dv_ports x) (dv_lapic x) (dv_io x) (dv_reads x) (dv_wrv x) (dv_msgs x).
#[export] Instance set_dv_ports : Setter dv_ports := ltac:(derive_setter).
#[export] Instance set_dv_lapic : Setter dv_lapic := ltac:(derive_setter).
#[export] Instance set_dv_io : Setter dv_io := ltac:(derive_setter).
#[export] Instance set_dv_reads : Setter dv_reads := ltac:(derive_setter).
#[export] Instance set_dv_wrv : Setter dv_wrv := ltac:(derive_setter).
#[export] Instance set_dv_msgs : Setter dv_msgs := ltac:(derive_setter).

Abbreviation KD := (K Empty_set dev).

Section devices.
(** Is there a local APIC, what its registers hold when read, and the status of
    the serial port. *)
Context (has_lapic : bool) (lapic_reg : Z -> Z) (uart_status : Z) (ioapicid : Z).
(** [clock n r]: what the [n]-th read of the clock gives if it is of register
    [r]. *)
Context (clock : nat -> Z -> Z).

Definition outb (port v : Z) : KD unit := modify (set dv_ports (fun l => l ++ [(port, u8 v)])).

(** ** lapic.c *)

Definition ID : Z := 0x20 / 4.
Definition VER : Z := 0x30 / 4.
Definition TPR : Z := 0x80 / 4.
Definition EOI : Z := 0xB0 / 4.
Definition SVR : Z := 0xF0 / 4.
Definition ESR : Z := 0x280 / 4.
Definition ICRLO : Z := 0x300 / 4.
Definition ICRHI : Z := 0x310 / 4.
Definition TIMER : Z := 0x320 / 4.
Definition PCINT : Z := 0x340 / 4.
Definition LINT0 : Z := 0x350 / 4.
Definition LINT1 : Z := 0x360 / 4.
Definition ERROR : Z := 0x370 / 4.
Definition TICR : Z := 0x380 / 4.
Definition TDCR : Z := 0x3E0 / 4.

Definition lapicw (index value : Z) : KD unit := modify (set dv_lapic (fun l => l ++ [(index, u32 value)])).

(** [IRQ_ERROR] is 19; waiting for the delivery of the last message has no
    effect. *)
Definition lapicinit : KD unit :=
  if negb has_lapic then ret tt else
  lapicw SVR (Z.lor 0x100 (T_IRQ0 + IRQ_SPURIOUS)) ;;
  lapicw TDCR 0xB ;;
  lapicw TIMER (Z.lor 0x20000 (T_IRQ0 + IRQ_TIMER)) ;;
  lapicw TICR 10000000 ;;
  lapicw LINT0 0x10000 ;;
  lapicw LINT1 0x10000 ;;
  when (4 <=? Z.land (Z.shiftr (lapic_reg VER) 16) 0xFF) (lapicw PCINT 0x10000) ;;
  lapicw ERROR (T_IRQ0 + 19) ;;
  lapicw ESR 0 ;;
  lapicw ESR 0 ;;
  lapicw EOI 0 ;;
  lapicw ICRHI 0 ;;
  lapicw ICRLO (Z.lor (Z.lor 0x80000 0x500) 0x8000) ;;
  lapicw TPR 0.

Definition lapicid : Z := if has_lapic then Z.shiftr (lapic_reg ID) 24 else 0.

Definition lapiceoi : KD unit := when has_lapic (lapicw EOI 0).

Definition lapicstartap (apicid addr : Z) : KD unit :=
  outb 0x70 0xF ;;
  outb 0x71 0x0A ;;
  modify (fun s => s <| dv_wrv := [0; u16 (Z.shiftr addr 4)] |>) ;;
  lapicw ICRHI (Z.shiftl apicid 24) ;;
  lapicw ICRLO (Z.lor (Z.lor 0x500 0x8000) 0x4000) ;;
  lapicw ICRLO (Z.lor 0x500 0x8000) ;;
  for_each (seqZ 0 2) (fun _ =>
    lapicw ICRHI (Z.shiftl apicid 24) ;;
    lapicw ICRLO (Z.lor 0x600 (Z.shiftr addr 12))).

(** *** The clock *)

Record rtcdate := MkDate { second : Z; minute : Z; hour : Z; day : Z; month : Z; year : Z }.
#[export] Instance rtcdate_eq_dec : EqDecision rtcdate.
Proof. solve_decision. Defined.

Definition cmos_read (reg : Z) : KD Z :=
  outb 0x70 reg ;;
  let* n := gets dv_reads in
  modify (set dv_reads S) ;;
  ret (clock n reg).

Definition fill_rtcdate : KD rtcdate :=
  let* s := cmos_read 0x00 in
  let* mi := cmos_read 0x02 in
  let* h := cmos_read 0x04 in
  let* d := cmos_read 0x07 in
  let* mo := cmos_read 0x08 in
  let* y := cmos_read 0x09 in
  ret (MkDate s mi h d mo y).

(** The loop that reads until nothing changed. *)
Fixpoint cmostime_loop (fuel : nat) : KD rtcdate :=
  match fuel with
  | O => nofuel
  | S fuel =>
      let* t1 := fill_rtcdate in
      let* a := cmos_read 0x0a in
      if negb (Z.land a (Z.shiftl 1 7) =? 0) then cmostime_loop fuel else
      let* t2 := fill_rtcdate in
      if bool_decide (t1 = t2) then ret t1 else cmostime_loop fuel
  end.

Definition CONV (x : Z) : Z := Z.shiftr x 4 * 10 + Z.land x 0xf.

Definition cmostime (fuel : nat) : KD rtcdate :=
  let* sb := cmos_read 0x0b in
  let bcd := Z.land sb (Z.shiftl 1 2) =? 0 in
  let* t1 := cmostime_loop fuel in
  let t1 := if bcd then MkDate (CONV (second t1)) (CONV (minute t1)) (CONV (hour t1)) (CONV (day t1)) (CONV (month t1)) (CONV (year t1)) else t1 in
  ret (MkDate (second t1) (minute t1) (hour t1) (day t1) (month t1) (year t1 + 2000)).

(** ** ioapic.c *)

Definition ioapicread (reg : Z) : KD Z := gets (fun s => default 0 (dv_io s !! reg)).
Definition ioapicwrite (reg data : Z) : KD unit := modify (set dv_io (insert reg (u32 data))).

Definition REG_ID : Z := 0.
Definition REG_VER : Z := 1.
Definition REG_TABLE : Z := 0x10.
Definition INT_DISABLED : Z := 0x10000.

Definition ioapicinit : KD unit :=
  let* v := ioapicread REG_VER in
  let maxintr := Z.land (Z.shiftr v 16) 0xFF in
  let* id := ioapicread REG_ID in
  when (negb (Z.shiftr id 24 =? ioapicid))
    (modify (set dv_msgs (fun l => l ++ [bytes "ioapicinit: id isn't equal to ioapicid; not a MP" ++ [10]]))) ;;
  for_each (seqZ 0 (maxintr + 1)) (fun i =>
    ioapicwrite (REG_TABLE + 2 * i) (Z.lor INT_DISABLED (T_IRQ0 + i)) ;;
    ioapicwrite (REG_TABLE + 2 * i + 1) 0).

Definition ioapicenable (irq cpunum : Z) : KD unit :=
  ioapicwrite (REG_TABLE + 2 * irq) (T_IRQ0 + irq) ;;
  ioapicwrite (REG_TABLE + 2 * irq + 1) (Z.shiftl cpunum 24).

(** ** picirq.c and uart.c *)

Definition picinit : KD unit := outb 0x21 0xFF ;; outb 0xA1 0xFF.

(** Up to the test for a port, and what follows if there is one. *)
Definition uartinit : KD bool :=
  outb 0x3FA 0 ;;
  outb 0x3FB 0x80 ;;
  outb 0x3F8 (115200 / 9600) ;;
  outb 0x3F9 0 ;;
  outb 0x3FB 0x03 ;;
  outb 0x3FC 0 ;;
  outb 0x3F9 0x01 ;;
  if uart_status =? 0xFF then ret false else
  ioapicenable IRQ_COM1 0 ;;
  for_each (bytes "xv6..." ++ [10]) (fun c => outb 0x3F8 c) ;;
  ret true.

(** ** The time is read consistently *)

(** Six reads from the [n]-th on. *)
Definition snapshot (n : nat) : rtcdate :=
  MkDate (clock n 0) (clock (n + 1) 2) (clock (n + 2) 4) (clock (n + 3) 7) (clock (n + 4) 8) (clock (n + 5) 9).
Definition no_update (n : nat) : bool := Z.land (clock n 0x0a) (Z.shiftl 1 7) =? 0.

(** The date was read twice, with no update between. *)
Definition stable (n : nat) : Prop := no_update (n + 6) = true /\ snapshot (n + 7) = snapshot n.

(** No change for 26 reads: enough for two rounds of the loop. *)
Definition steady (n0 : nat) : Prop :=
  forall n, (n0 <= n <= n0 + 25)%nat -> no_update n = true /\ forall r, r ∈ [0; 2; 4; 7; 8; 9] -> clock n r = clock n0 r.

Lemma cmos_read_Ok reg s : exists s', cmos_read reg s = Ok (clock (dv_reads s) reg) s' /\ dv_reads s' = S (dv_reads s).
Proof. by eexists. Qed.

Lemma fill_Ok s : exists s', fill_rtcdate s = Ok (snapshot (dv_reads s)) s' /\ dv_reads s' = (dv_reads s + 6)%nat.
Proof.
  unfold fill_rtcdate, snapshot. set (n := dv_reads s).
  destruct (cmos_read_Ok 0 s) as (s1 & E1 & R1). destruct (cmos_read_Ok 2 s1) as (s2 & E2 & R2). destruct (cmos_read_Ok 4 s2) as (s3 & E3 & R3).
  destruct (cmos_read_Ok 7 s3) as (s4 & E4 & R4). destruct (cmos_read_Ok 8 s4) as (s5 & E5 & R5). destruct (cmos_read_Ok 9 s5) as (s6 & E6 & R6).
  rewrite (bind_Ok _ _ _ _ _ E1), (bind_Ok _ _ _ _ _ E2), (bind_Ok _ _ _ _ _ E3), (bind_Ok _ _ _ _ _ E4), (bind_Ok _ _ _ _ _ E5), (bind_Ok _ _ _ _ _ E6).
  exists s6. split; [|fold n in R1; lia]. unfold ret. f_equal. rewrite R5, R4, R3, R2, R1. fold n. f_equal; f_equal; lia.
Qed.

Lemma steady_stable n0 n : steady n0 -> (n0 <= n <= n0 + 12)%nat -> stable n.
Proof.
  intros Hs Hn. split; [apply Hs; lia|]. unfold snapshot.
  assert (forall a b r, (n0 <= a <= n0 + 25)%nat -> (n0 <= b <= n0 + 25)%nat -> r ∈ [0; 2; 4; 7; 8; 9] -> clock a r = clock b r) as E.
  { intros a b r Ha Hb Hr. rewrite (proj2 (Hs a Ha) r Hr), (proj2 (Hs b Hb) r Hr). done. }
  f_equal; apply E; (lia || (apply (bool_decide_unpack _); by vm_compute)).
Qed.

(** One round: return, or go on seven or thirteen reads later. *)
Lemma cmostime_loop_Ok n0 fuel : forall s, steady n0 -> (dv_reads s <= n0 + 12)%nat -> (n0 + 13 <= dv_reads s + fuel)%nat ->
  exists n s', cmostime_loop fuel s = Ok (snapshot n) s' /\ stable n.
Proof.
  induction fuel as [|fuel IH]; intros s Hs Hn Hf; [lia|]. cbn [cmostime_loop]. set (n := dv_reads s) in *.
  destruct (fill_Ok s) as (s1 & E1 & R1). rewrite (bind_Ok _ _ _ _ _ E1). fold n in R1 |- *.
  destruct (cmos_read_Ok 0x0a s1) as (s2 & E2 & R2). rewrite (bind_Ok _ _ _ _ _ E2). rewrite R1 in R2 |- *.
  fold (no_update (n + 6)). destruct (no_update (n + 6)) eqn:Eu; cbn [negb].
  - destruct (fill_Ok s2) as (s3 & E3 & R3). rewrite (bind_Ok _ _ _ _ _ E3). rewrite R2 in R3 |- *. replace (S (n + 6)) with (n + 7)%nat in * by lia.
    case_bool_decide as Eq; [by exists n, s3|]. apply IH; [done| |lia].
    destruct (decide (n0 <= n)%nat) as [Hge|Hlt]; [|lia]. destruct (steady_stable n0 n Hs) as [_ E]; [lia|]. congruence.
  - apply IH; [done| |lia]. destruct (decide (n0 <= n)%nat) as [Hge|Hlt]; [|lia]. destruct (steady_stable n0 n Hs) as [E _]; [lia|]. congruence.
Qed.

(** A number of two digits, as the clock holds it. *)
Definition bcd (x : Z) : Z := 16 * (x / 10) + x mod 10.
Definition bcd_date (d : rtcdate) : rtcdate := MkDate (bcd (second d)) (bcd (minute d)) (bcd (hour d)) (bcd (day d)) (bcd (month d)) (bcd (year d)).
Definition two_digits (d : rtcdate) : Prop := Forall (fun x => 0 <= x < 100) [second d; minute d; hour d; day d; month d; year d].

Lemma CONV_bcd x : 0 <= x < 100 -> CONV (bcd x) = x.
Proof.
  intros Hx. unfold CONV, bcd. pose proof (Z.div_mod x 10 ltac:(lia)). pose proof (Z.mod_pos_bound x 10 ltac:(lia)).
  change 0xf with (Z.ones 4). rewrite Z.land_ones, Z.shiftr_div_pow2 by lia. change (2 ^ 4) with 16.
  rewrite <- (Z.div_unique (16 * (x / 10) + x mod 10) 16 (x / 10) (x mod 10)) by lia. rewrite <- (Z.mod_unique (16 * (x / 10) + x mod 10) 16 (x / 10) (x mod 10)) by lia. lia.
Qed.

(** [cmostime] returns as soon as the clock holds still for 26 reads, at the
    latest, with a date that was read twice without a change or an update in
    between; if the clock counts in BCD and showed the date [d] then, it is
    [d], with the full year. *)
Theorem cmostime_consistent n0 fuel s : steady n0 -> (S (dv_reads s) <= n0 + 12)%nat -> (n0 + 13 <= S (dv_reads s) + fuel)%nat ->
  exists n r s', cmostime fuel s = Ok r s' /\ stable n /\
    forall d, Z.land (clock (dv_reads s) 0x0b) 4 = 0 -> two_digits d -> snapshot n = bcd_date d ->
      r = MkDate (second d) (minute d) (hour d) (day d) (month d) (year d + 2000).
Proof.
  intros Hs Hn Hf. unfold cmostime. destruct (cmos_read_Ok 0x0b s) as (s1 & E1 & R1). rewrite (bind_Ok _ _ _ _ _ E1).
  destruct (cmostime_loop_Ok n0 fuel s1 Hs ltac:(lia) ltac:(lia)) as (n & s2 & E2 & Hst). exists n. eexists _, s2. rewrite (bind_Ok _ _ _ _ _ E2).
  split; [done|]. split; [done|]. intros d Hb Hd Ed. change (Z.shiftl 1 2) with 4. rewrite Hb, Ed. cbn [Z.eqb].
  unfold two_digits in Hd. rewrite !Forall_cons in Hd. destruct Hd as (H1 & H2 & H3 & H4 & H5 & H6 & _).
  unfold bcd_date. cbn [second minute hour day month year]. by rewrite !CONV_bcd.
Qed.
End devices.

(** ** The redirection table *)

Definition io_entry (s : dev) (i : Z) : Z * Z := (default 0 (dv_io s !! (REG_TABLE + 2 * i)), default 0 (dv_io s !! (REG_TABLE + 2 * i + 1))).

(** What is in entry [i] after the calls [ens] of [ioapicenable]. *)
Definition routed (ens : list (Z * Z)) (i : Z) : Z * Z :=
  match last (List.filter (fun e => e.1 =? i) ens) with
  | Some (_, cpu) => (u32 (T_IRQ0 + i), u32 (Z.shiftl cpu 24))
  | None => (u32 (Z.lor INT_DISABLED (T_IRQ0 + i)), 0)
  end.

Definition maxintr (s : dev) : Z := Z.land (Z.shiftr (default 0 (dv_io s !! REG_VER)) 16) 0xFF.

Lemma enable_entry irq cpu s : exists s', ioapicenable irq cpu s = Ok tt s' /\
  forall i, io_entry s' i = if decide (i = irq) then (u32 (T_IRQ0 + irq), u32 (Z.shiftl cpu 24)) else io_entry s i.
Proof.
  eexists. split; [reflexivity|]. intros i. unfold io_entry. cbn [dv_io set set_dv_io]. destruct (decide (i = irq)) as [->|Hne].
  - rewrite lookup_insert_ne by lia. by rewrite !lookup_insert_eq.
  - by rewrite !lookup_insert_ne by lia.
Qed.

Lemma enables_entry ens : forall s, exists s', for_each ens (fun '(irq, cpu) => ioapicenable irq cpu) s = Ok tt s' /\
  forall i, io_entry s' i = match last (List.filter (fun e => e.1 =? i) ens) with
                            | Some (_, cpu) => (u32 (T_IRQ0 + i), u32 (Z.shiftl cpu 24))
                            | None => io_entry s i
                            end.
Proof.
  induction ens as [|[irq cpu] ens IH]; intros s; cbn [for_each List.filter]; [by exists s|].
  destruct (enable_entry irq cpu s) as (s1 & E1 & H1). rewrite (bind_Ok _ _ _ _ _ E1). destruct (IH s1) as (s' & E' & H'). exists s'. split; [done|].
  intros i. rewrite H'. cbn [fst]. destruct (Z.eqb_spec irq i) as [->|Hne].
  - rewrite last_cons. destruct (last (List.filter (fun e => e.1 =? i) ens)) as [[]|]; [done|]. by rewrite H1, decide_True.
  - destruct (last (List.filter (fun e => e.1 =? i) ens)) as [[]|]; [done|]. by rewrite H1, decide_False by done.
Qed.

Lemma init_entries l : forall s, exists s', for_each l (fun i => bind (ioapicwrite (REG_TABLE + 2 * i) (Z.lor INT_DISABLED (T_IRQ0 + i))) (fun _ => ioapicwrite (REG_TABLE + 2 * i + 1) 0)) s = Ok tt s' /\
  forall i, io_entry s' i = if decide (i ∈ l) then (u32 (Z.lor INT_DISABLED (T_IRQ0 + i)), 0) else io_entry s i.
Proof.
  induction l as [|j l IH]; intros s; cbn [for_each].
  { exists s. split; [done|]. intros i. by rewrite decide_False by apply not_elem_of_nil. }
  set (s1 := set dv_io (insert (REG_TABLE + 2 * j + 1) (u32 0)) (set dv_io (insert (REG_TABLE + 2 * j) (u32 (Z.lor INT_DISABLED (T_IRQ0 + j)))) s)).
  rewrite (bind_Ok _ _ s tt s1) by done. destruct (IH s1) as (s' & E' & H'). exists s'. split; [done|]. intros i. rewrite H'.
  destruct (decide (i ∈ l)) as [Hi|Hi]; [by rewrite decide_True by (by right)|]. unfold io_entry, s1. cbn [dv_io set set_dv_io].
  destruct (decide (i = j)) as [->|Hne].
  - rewrite decide_True by left. rewrite lookup_insert_ne by lia. by rewrite !lookup_insert_eq.
  - rewrite decide_False by (intros [?|?]%elem_of_cons; done). by rewrite !lookup_insert_ne by lia.
Qed.

(** After [ioapicinit] and any calls of [ioapicenable] the I/O APIC delivers an
    interrupt exactly where it was last enabled to go, with the vector the trap
    handler expects, and every other interrupt it has is masked. *)
Theorem ioapic_routes ioapicid ens s : exists s',
  bind (ioapicinit ioapicid) (fun _ => for_each ens (fun '(irq, cpu) => ioapicenable irq cpu)) s = Ok tt s' /\
  forall i, 0 <= i <= maxintr s -> io_entry s' i = routed ens i.
Proof.
  set (msg := when (negb (Z.shiftr (default 0 (dv_io s !! REG_ID)) 24 =? ioapicid))
    (modify (set dv_msgs (fun l => l ++ [bytes "ioapicinit: id isn't equal to ioapicid; not a MP" ++ [10]]))) : KD unit).
  assert (exists s0, msg s = Ok tt s0 /\ dv_io s0 = dv_io s) as (s0 & E0 & Ei) by (unfold msg; destruct (negb _); by eexists).
  destruct (init_entries (seqZ 0 (maxintr s + 1)) s0) as (s1 & E1 & H1). destruct (enables_entry ens s1) as (s' & E' & H').
  exists s'. split.
  - rewrite (bind_Ok _ _ s tt s1); [done|]. change (bind msg (fun _ => for_each (seqZ 0 (maxintr s + 1)) (fun i => bind (ioapicwrite (REG_TABLE + 2 * i) (Z.lor INT_DISABLED (T_IRQ0 + i))) (fun _ => ioapicwrite (REG_TABLE + 2 * i + 1) 0))) s = Ok tt s1).
    by rewrite (bind_Ok _ _ _ _ _ E0).
  - intros i Hi. rewrite H'. unfold routed. destruct (last (List.filter (fun e => e.1 =? i) ens)) as [[]|]; [done|]. rewrite H1, decide_True; [done|]. apply elem_of_seqZ. lia.
Qed.

(** A clock that ticks at its 20th read. *)
Definition tick_clock (n : nat) (r : Z) : Z :=
  if r =? 0x0a then (if (n =? 19)%nat then 0x80 else 0) else if r =? 0x0b then 2 else
  if r =? 0 then (if (n <? 20)%nat then 0x58 else 0x59) else if r =? 2 then 0x30 else if r =? 4 then 0x12 else if r =? 7 then 0x15 else if r =? 8 then 0x11 else 0x26.

Lemma tick_steady : steady tick_clock 20.
Proof.
  intros n Hn. unfold no_update, tick_clock. rewrite (proj2 (Nat.eqb_neq n 19)) by lia. rewrite (proj2 (Nat.ltb_ge n 20)) by lia. split; [done|].
  intros r Hr. repeat (apply elem_of_cons in Hr as [->|Hr]; [done|]). by apply not_elem_of_nil in Hr.
Qed.

Lemma cmostime_consistent_witness : exists n r s', cmostime tick_clock 40 (MkDev [] [] ∅ 0 [] []) = Ok r s' /\ stable tick_clock n.
Proof.
  destruct (cmostime_consistent tick_clock 20 40 (MkDev [] [] ∅ 0 [] []) tick_steady) as (n & r & s' & E & H & _); [simpl; lia|simpl; lia|].
  exists n, r, s'. split; [exact E|exact H].
Defined.
