(* ===== verification/User.v ===== *)
(** * User programs: system calls, ulib.c, printf.c

    User programs run in the monad of the kernel code over a state of their
    own: the streams their descriptors read from and the list of their writes.
    A stream is the list of what the calls of [read] find available, so that
    the theorems quantify over how input is split; [None] is a failing
    read.  [exit] stops the program. *)

From stdpp Require Import base numbers list list_numbers gmap strings.
From S2P Require Import Prelude Kmonad KString.

Local Open Scope Z_scope.
Local Open Scope kern_scope.

Abbreviation stream := (list (option (list Z))).

Record ustate := MkUser {
  u_fds : list (option stream);  (** by descriptor *)
  u_files : list Z -> option stream;  (** what opening a path gives *)
  u_full : Z -> bool;  (** descriptors whose writes fail *)
  u_out : list (Z * list Z)  (** the writes, in order *)
}.
#[export] Instance eta_ustate : Eta ustate := fun x => MkUser (u_fds x) (u_files x) (u_full x) (u_out x).
#[export] Instance set_u_fds : Setter u_fds := ltac:(derive_setter).
#[export] Instance set_u_files : Setter u_files := ltac:(derive_setter).
#[export] Instance set_u_full : Setter u_full := ltac:(derive_setter).
#[export] Instance set_u_out : Setter u_out := ltac:(derive_setter).

Inductive uwait := UExit.
Abbreviation UM := (K uwait ustate).

(** ** System calls *)

Definition exit {A} : UM A := fun s => Susp UExit s (fun _ => NoFuel).

(** The bytes read, or [None] for -1. *)
Definition read (fd : Z) (n : Z) : UM (option (list Z)) := fun s =>
  if fd <? 0 then Ok None s else
  match u_fds s !! Z.to_nat fd with
  | Some (Some (Some bs :: st)) =>
      let rest := drop (Z.to_nat n) bs in
      let st := match rest with [] => st | _ => Some rest :: st end in
      Ok (Some (take (Z.to_nat n) bs)) (set u_fds (insert (Z.to_nat fd) (Some st)) s)
  | Some (Some (None :: st)) => Ok None (set u_fds (insert (Z.to_nat fd) (Some st)) s)
  | Some (Some []) => Ok (Some []) s
  | _ => Ok None s
  end.

Definition write (fd : Z) (bs : list Z) : UM Z := fun s =>
  if u_full s fd then Ok (-1) s else
  Ok (Z.of_nat (length bs)) (set u_out (fun o => o ++ [(fd, bs)]) s).

(** The lowest free descriptor. *)
Definition open (path : list Z) : UM Z := fun s =>
  match u_files s path, find_idx (fun o => match o with None => true | Some _ => false end) (u_fds s) with
  | Some st, Some i => Ok (Z.of_nat i) (set u_fds (insert i (Some st)) s)
  | _, _ => Ok (-1) s
  end.

Definition close (fd : Z) : UM unit := modify (set u_fds (insert (Z.to_nat fd) None)).

(** ** ulib.c

    A string is the list of its characters before the final 0; a pointer into
    it is a suffix. *)

Fixpoint strcmp (p q : list Z) : Z :=
  match p, q with
  | c :: p, d :: q => if c =? d then strcmp p q else u8 c - u8 d
  | c :: _, [] => u8 c
  | [], d :: _ => - u8 d
  | [], [] => 0
  end.

(** The suffix that starts with [c]. *)
Fixpoint strchr (s : list Z) (c : Z) : option (list Z) :=
  match s with
  | [] => None
  | d :: s' => if d =? c then Some s else strchr s' c
  end.

Fixpoint atoi_loop (n : Z) (s : list Z) : Z :=
  match s with
  | c :: s => if (48 <=? c) && (c <=? 57) then atoi_loop (i32 (n * 10 + c - 48)) s else n
  | [] => n
  end.
Definition atoi (s : list Z) : Z := atoi_loop 0 s.

(** [gets]: [max] bounds the rounds. *)
Fixpoint gets_loop (room : nat) (buf : list Z) : UM (list Z) :=
  match room with
  | O => ret buf
  | S room =>
      let* r := read 0 1 in
      match r with
      | Some (c :: _) =>
          let buf := buf ++ [c] in
          if (c =? 10) || (c =? 13) then ret buf else gets_loop room buf
      | _ => ret buf
      end
  end.
Definition gets (max : Z) : UM (list Z) := gets_loop (Z.to_nat (max - 1)) [].

(** The loop [while(n-- > 0) *dst++ = *src++], on memory. *)
Fixpoint copy_up (m : gmap Z Z) (dst src : Z) (n : nat) : gmap Z Z :=
  match n with
  | O => m
  | S n => copy_up (store8 m dst (load8 m src)) (dst + 1) (src + 1) n
  end.

Definition umemset (m : gmap Z Z) (dst c : Z) (n : nat) : gmap Z Z := stosb m dst c n.

(** The string at an address; [None] when no 0 comes within the fuel. *)
Fixpoint ustrlen_loop (fuel : nat) (m : gmap Z Z) (s n : Z) : option Z :=
  match fuel with
  | O => None
  | S fuel => if load8 m (s + n) =? 0 then Some n else ustrlen_loop fuel m s (n + 1)
  end.
Definition ustrlen (fuel : nat) (m : gmap Z Z) (s : Z) : option Z := ustrlen_loop fuel m s 0.

Fixpoint ustrcpy (fuel : nat) (m : gmap Z Z) (s t : Z) : option (gmap Z Z) :=
  match fuel with
  | O => None
  | S fuel =>
      let c := load8 m t in
      let m := store8 m s c in
      if c =? 0 then Some m else ustrcpy fuel m (s + 1) (t + 1)
  end.

(** ** printf.c *)

Definition putc (fd c : Z) : UM unit := let* _ := write fd [c] in ret tt.

(** The digits are those of [digits[] = "0123456789ABCDEF"]. *)
Definition udigit (d : Z) : Z := if d <? 10 then 48 + d else 55 + d.

Fixpoint udigits_rev (fuel : nat) (x base : Z) : list Z :=
  match fuel with
  | O => []
  | S fuel => udigit (x mod base) :: (if x / base =? 0 then [] else udigits_rev fuel (x / base) base)
  end.

Definition uprint_int (xx base : Z) (sgn : bool) : list Z :=
  let neg := sgn && (xx <? 0) in
  let x := if neg then u32 (- xx) else u32 xx in
  rev (udigits_rev 32 x base ++ (if neg then [45] else [])).

Definition uputs (fd : Z) (l : list Z) : UM unit := for_each l (putc fd).

Definition uprintint (fd xx base : Z) (sgn : bool) : UM unit := uputs fd (uprint_int xx base sgn).

(** An argument: a word, or a string. *)
Inductive uarg := AInt (z : Z) | AStr (s : list Z) | ANull.

Fixpoint printf_loop (fd : Z) (state : bool) (fmt : list Z) (args : list uarg) : UM unit :=
  match fmt with
  | [] => ret tt
  | c :: fmt =>
      if negb state then
        if c =? 37 then printf_loop fd true fmt args else putc fd c ;; printf_loop fd false fmt args
      else if c =? 100 then
        match args with
        | AInt z :: args => uprintint fd (i32 z) 10 true ;; printf_loop fd false fmt args
        | _ => undef "printf argument"
        end
      else if (c =? 120) || (c =? 112) then
        match args with
        | AInt z :: args => uprintint fd (i32 z) 16 false ;; printf_loop fd false fmt args
        | _ => undef "printf argument"
        end
      else if c =? 115 then
        match args with
        | AStr s :: args => uputs fd s ;; printf_loop fd false fmt args
        | ANull :: args => uputs fd (bytes "(null)") ;; printf_loop fd false fmt args
        | _ => undef "printf argument"
        end
      else if c =? 99 then
        match args with
        | AInt z :: args => putc fd (u8 z) ;; printf_loop fd false fmt args
        | _ => undef "printf argument"
        end
      else if c =? 37 then putc fd c ;; printf_loop fd false fmt args
      else putc fd 37 ;; putc fd c ;; printf_loop fd false fmt args
  end.

Definition printf (fd : Z) (fmt : list Z) (args : list uarg) : UM unit := printf_loop fd false fmt args.

(** ** What the calls do *)

(** Writing [l] to [fd] with one call. *)
Definition wrote (fd : Z) (l : list Z) (s : ustate) : ustate := set u_out (fun o => o ++ [(fd, l)]) s.
(** Writing [l] to [fd] byte by byte. *)
Definition typed (fd : Z) (l : list Z) (s : ustate) : ustate := set u_out (fun o => o ++ map (fun c => (fd, [c])) l) s.

(** All that was written to [fd]. *)
Definition output (fd : Z) (s : ustate) : list Z := concat (map snd (List.filter (fun w => w.1 =? fd) (u_out s))).

Lemma write_Ok fd l s : u_full s fd = false -> write fd l s = Ok (Z.of_nat (length l)) (wrote fd l s).
Proof. unfold write. by intros ->. Qed.

Lemma typed_app fd l1 l2 s : typed fd l2 (typed fd l1 s) = typed fd (l1 ++ l2) s.
Proof. unfold typed, set, set_u_out. simpl. by rewrite map_app, app_assoc. Qed.
Lemma typed_nil fd s : typed fd [] s = s.
Proof. unfold typed, set, set_u_out. simpl. rewrite app_nil_r. by destruct s. Qed.

Lemma putc_Ok fd c s : u_full s fd = false -> putc fd c s = Ok tt (typed fd [c] s).
Proof. intros H. unfold putc. by rewrite (bind_Ok _ _ _ _ _ (write_Ok fd [c] s H)). Qed.

Lemma uputs_Ok fd l s : u_full s fd = false -> uputs fd l s = Ok tt (typed fd l s).
Proof.
  revert s. induction l as [|c l IH]; intros s H; unfold uputs in *; simpl; [by rewrite typed_nil|].
  rewrite (bind_Ok _ _ _ _ _ (putc_Ok fd c s H)), IH by done. by rewrite typed_app.
Qed.

(** The same, in front of more work. *)
Lemma uputs_then {A} fd l (k : unit -> UM A) s : u_full s fd = false -> bind (uputs fd l) k s = k tt (typed fd l s).
Proof. intros H. by rewrite (bind_Ok _ _ _ _ _ (uputs_Ok fd l s H)). Qed.
Lemma putc_then {A} fd c (k : unit -> UM A) s : u_full s fd = false -> bind (putc fd c) k s = k tt (typed fd [c] s).
Proof. intros H. by rewrite (bind_Ok _ _ _ _ _ (putc_Ok fd c s H)). Qed.

Lemma output_wrote fd l s : output fd (wrote fd l s) = output fd s ++ l.
Proof. unfold output, wrote. simpl. rewrite List.filter_app, map_app, concat_app. simpl. rewrite Z.eqb_refl. simpl. by rewrite app_nil_r. Qed.

Lemma output_typed fd l s : output fd (typed fd l s) = output fd s ++ l.
Proof.
  unfold output, typed. simpl. rewrite List.filter_app, map_app, concat_app. f_equal.
  induction l as [|c l IH]; simpl; [done|]. rewrite Z.eqb_refl. simpl. by rewrite IH.
Qed.

(** ** Strings in memory *)

(** The string [l] with its 0 at address [a]. *)
Fixpoint cstr_at (m : gmap Z Z) (a : Z) (l : list Z) : Prop :=
  match l with
  | [] => load8 m a = 0
  | c :: l => load8 m a = c /\ 0 < c < 256 /\ cstr_at m (a + 1) l
  end.

Lemma cstring_store m a l b v : b < a \/ a + Z.of_nat (length l) < b -> cstr_at m a l -> cstr_at (store8 m b v) a l.
Proof.
  revert a. induction l as [|c l IH]; intros a Hb; cbn [cstr_at length] in *; [intros H; by rewrite load8_store8_ne by lia|].
  intros (H1 & H2 & H3). rewrite load8_store8_ne by lia. split_and!; [done|lia|lia|]. apply IH; [lia|done].
Qed.

Lemma ustrlen_loop_counts m l : forall s n, cstr_at m (s + n) l -> ustrlen_loop (S (length l)) m s n = Some (n + Z.of_nat (length l)).
Proof.
  induction l as [|c l IH]; intros s n; [cbn; intros ->; f_equal; lia|].
  intros (H1 & H2 & H3). cbn [ustrlen_loop length]. rewrite H1, (proj2 (Z.eqb_neq c 0)) by lia.
  change (ustrlen_loop (S (length l)) m s (n + 1) = Some (n + Z.of_nat (S (length l)))). rewrite IH by (by rewrite Z.add_assoc). f_equal. lia.
Qed.

(** [strlen] counts the bytes before the 0; [strcpy] copies them with the 0 to
    a place apart from them and writes nothing else. *)
Theorem strlen_strcpy m s t l : cstr_at m t l -> s + Z.of_nat (length l) < t \/ t + Z.of_nat (length l) < s ->
  ustrlen (S (length l)) m t = Some (Z.of_nat (length l)) /\ ustrcpy (S (length l)) m s t = Some (stores m s (l ++ [0])).
Proof.
  intros H Hd. split; [apply ustrlen_loop_counts; by rewrite Z.add_0_r|].
  revert m s t H Hd. induction l as [|c l IH]; intros m s t H Hd; [by cbn in *; rewrite H|].
  destruct H as (H1 & H2 & H3). cbn [ustrcpy length app stores] in *. rewrite H1, (proj2 (Z.eqb_neq c 0)) by lia.
  change (ustrcpy (S (length l)) (store8 m s c) (s + 1) (t + 1) = Some (stores (store8 m s c) (s + 1) (l ++ [0]))).
  apply IH; [apply cstring_store; [lia|done]|lia].
Qed.

(** [memmove] copies upwards only: the block arrives as it was when the
    destination does not begin inside of it. *)
Lemma copy_up_move m d s n : (forall a, byte_ok (load8 m a)) -> copy_up m d s n = move_up m d s n.
Proof.
  revert m d s. induction n as [|n IH]; intros m d s Hm; [done|]. cbn [copy_up move_up]. unfold store8, u8.
  rewrite Z.mod_small by apply Hm. apply IH. intros a. unfold load8 at 1. destruct (decide (a = d)) as [->|Hne].
  - rewrite lookup_insert_eq. apply Hm.
  - rewrite lookup_insert_ne by done. apply Hm.
Qed.

Theorem umemmove_copies m d s n b : (forall a, byte_ok (load8 m a)) -> d <= s \/ s + Z.of_nat n <= d ->
  load8 (copy_up m d s n) b = if decide (d <= b < d + Z.of_nat n) then load8 m (s + (b - d)) else load8 m b.
Proof. intros Hm H. rewrite copy_up_move by done. apply load8_move_up. lia. Qed.

(** ** Input

    [reads fd st s]: descriptor [fd] reads from the stream [st]. *)

Definition reads (fd : Z) (st : stream) (s : ustate) : Prop := 0 <= fd /\ u_fds s !! Z.to_nat fd = Some (Some st).
Definition rewound (fd : Z) (st : stream) (s : ustate) : ustate := set u_fds (insert (Z.to_nat fd) (Some st)) s.

Lemma reads_rewound fd st st' s : reads fd st s -> reads fd st' (rewound fd st' s).
Proof. intros [Hfd H]. split; [done|]. unfold rewound. simpl. apply list_lookup_insert_eq. by eapply lookup_lt_Some. Qed.

Lemma rewound_rewound fd st st' s : rewound fd st' (rewound fd st s) = rewound fd st' s.
Proof. unfold rewound, set, set_u_fds. simpl. by rewrite list_insert_insert_eq. Qed.

Lemma rewound_same fd st s : reads fd st s -> rewound fd st s = s.
Proof. intros [_ H]. unfold rewound, set, set_u_fds. simpl. rewrite list_insert_id by done. by destruct s. Qed.

Lemma read_end fd n s : reads fd [] s -> read fd n s = Ok (Some []) s.
Proof. intros [Hfd H]. unfold read. destruct (Z.ltb_spec fd 0); [lia|]. by rewrite H. Qed.

Lemma read_error fd n st s : reads fd (None :: st) s -> read fd n s = Ok None (rewound fd st s).
Proof. intros [Hfd H]. unfold read. destruct (Z.ltb_spec fd 0); [lia|]. by rewrite H. Qed.

(** A read gives the next piece, or its first [n] bytes. *)
Lemma read_piece fd n bs st s :
  reads fd (Some bs :: st) s ->
  read fd n s = Ok (Some (take (Z.to_nat n) bs))
    (rewound fd (match drop (Z.to_nat n) bs with [] => st | rest => Some rest :: st end) s).
Proof. intros [Hfd H]. unfold read. destruct (Z.ltb_spec fd 0); [lia|]. rewrite H.
  by destruct (drop (Z.to_nat n) bs). Qed.

(** The bytes of a stream without errors. *)
Fixpoint content (st : stream) : list Z :=
  match st with
  | [] => []
  | Some bs :: st => bs ++ content st
  | None :: st => content st
  end.

(** Pieces of at least one byte. *)
Definition sound_stream (st : stream) : Prop := Forall (fun o => exists b bs, o = Some (b :: bs)) st.
