(* ===== verification/Textutil.v ===== *)
(** * Programs that read text: cat.c, wc.c, grep.c, echo.c *)

From stdpp Require Import base numbers list list_numbers gmap strings.
From S2P Require Import Prelude Kmonad KString User.

Local Open Scope Z_scope.
Local Open Scope kern_scope.

(** ** cat.c

    [fuel] bounds the number of reads of a loop over the input. *)

Fixpoint cat (fuel : nat) (fd : Z) : UM unit :=
  match fuel with
  | O => nofuel
  | S fuel =>
      let* r := read fd 512 in
      match r with
      | None => printf 1 (bytes "cat: read error" ++ [10]) [] ;; exit
      | Some [] => ret tt
      | Some bs =>
          let* n := write 1 bs in
          if negb (n =? Z.of_nat (length bs))
          then printf 1 (bytes "cat: write error" ++ [10]) [] ;; exit
          else cat fuel fd
      end
  end.

(** The loop over the arguments that cat.c, wc.c and grep.c share. *)
Fixpoint each_file (name : list Z) (body : Z -> list Z -> UM unit) (files : list (list Z)) : UM unit :=
  match files with
  | [] => ret tt
  | f :: files =>
      let* fd := open f in
      if fd <? 0 then printf 1 (name ++ bytes ": cannot open %s" ++ [10]) [AStr f] ;; exit else
      body fd f ;;
      close fd ;;
      each_file name body files
  end.

Definition cat_main (fuel : nat) (args : list (list Z)) : UM unit :=
  match args with
  | [] => cat fuel 0 ;; exit
  | files => each_file (bytes "cat") (fun fd _ => cat fuel fd) files ;; exit
  end.

(** ** echo.c *)

Fixpoint echo (args : list (list Z)) : UM unit :=
  match args with
  | [] => ret tt
  | a :: args =>
      printf 1 (bytes "%s%s") [AStr a; AStr (match args with [] => [10] | _ => [32] end)] ;;
      echo args
  end.
Definition echo_main (args : list (list Z)) : UM unit := echo args ;; exit.

(** ** wc.c *)

Record counts := MkCounts { wc_l : Z; wc_w : Z; wc_c : Z; wc_in : bool }.

Definition wc_space : list Z := [32; 13; 9; 10; 11].

Definition wc_char (k : counts) (c : Z) : counts :=
  let l := if c =? 10 then i32 (wc_l k + 1) else wc_l k in
  match strchr wc_space c with
  | Some _ => MkCounts l (wc_w k) (i32 (wc_c k + 1)) false
  | None =>
      if wc_in k then MkCounts l (wc_w k) (i32 (wc_c k + 1)) true
      else MkCounts l (i32 (wc_w k + 1)) (i32 (wc_c k + 1)) true
  end.

Fixpoint wc_loop (fuel : nat) (fd : Z) (name : list Z) (k : counts) : UM unit :=
  match fuel with
  | O => nofuel
  | S fuel =>
      let* r := read fd 512 in
      match r with
      | None => printf 1 (bytes "wc: read error" ++ [10]) [] ;; exit
      | Some [] => printf 1 (bytes "%d %d %d %s" ++ [10]) [AInt (wc_l k); AInt (wc_w k); AInt (wc_c k); AStr name]
      | Some bs => wc_loop fuel fd name (fold_left wc_char bs k)
      end
  end.
Definition wc (fuel : nat) (fd : Z) (name : list Z) : UM unit := wc_loop fuel fd name (MkCounts 0 0 0 false).

Definition wc_main (fuel : nat) (args : list (list Z)) : UM unit :=
  match args with
  | [] => wc fuel 0 [] ;; exit
  | files => each_file (bytes "wc") (wc fuel) files ;; exit
  end.

(** ** grep.c *)

(** The [do ... while] loop over [text]; [here] is [matchhere] of the rest of
    the pattern. *)
Fixpoint matchstar (here : list Z -> bool) (c : Z) (text : list Z) : bool :=
  here text ||
  match text with
  | [] => false
  | t :: text => if (t =? c) || (c =? 46) then matchstar here c text else false
  end.

Fixpoint matchhere (re text : list Z) : bool :=
  match re with
  | [] => true
  | c :: re1 =>
      match re1 with
      | d :: re2 =>
          if d =? 42 then matchstar (matchhere re2) c text else
          match text with
          | t :: text => if (c =? 46) || (c =? t) then matchhere re1 text else false
          | [] => false
          end
      | [] =>
          if c =? 36 then match text with [] => true | _ => false end else
          match text with
          | t :: text => if (c =? 46) || (c =? t) then matchhere re1 text else false
          | [] => false
          end
      end
  end.

Fixpoint match_any (re text : list Z) : bool :=
  matchhere re text ||
  match text with
  | [] => false
  | _ :: text => match_any re text
  end.

Definition match_ (re text : list Z) : bool :=
  match re with
  | c :: re' => if c =? 94 then matchhere re' text else match_any re text
  | [] => match_any re text
  end.

(** The loop over the complete lines from [p] on; what is left at the end.
    A line ends the string [strchr] looks at, so [length p] rounds are
    enough. *)
Fixpoint grep_lines (fuel : nat) (pattern p : list Z) : UM (list Z) :=
  match strchr (cbytes p) 10 with
  | None => ret p
  | Some q =>
      let line := take (length (cbytes p) - length q) p in
      let rest := drop (S (length line)) p in
      match fuel with
      | O => nofuel
      | S fuel =>
          when (match_ pattern line) (let* _ := write 1 (line ++ [10]) in ret tt) ;;
          grep_lines fuel pattern rest
      end
  end.

(** [buf] has the first [m] bytes of the buffer of 1024. *)
Fixpoint grep_loop (fuel : nat) (pattern : list Z) (fd : Z) (buf : list Z) : UM unit :=
  match fuel with
  | O => nofuel
  | S fuel =>
      let* r := read fd (1024 - Z.of_nat (length buf) - 1) in
      match r with
      | Some (c :: bs) =>
          let buf := buf ++ c :: bs in
          let* p := grep_lines (length buf) pattern buf in
          grep_loop fuel pattern fd (if (length p =? length buf)%nat then [] else p)
      | _ => ret tt
      end
  end.
Definition grep (fuel : nat) (pattern : list Z) (fd : Z) : UM unit := grep_loop fuel pattern fd [].

Definition grep_main (fuel : nat) (args : list (list Z)) : UM unit :=
  match args with
  | [] => printf 2 (bytes "usage: grep pattern [file ...]" ++ [10]) [] ;; exit
  | [pattern] => grep fuel pattern 0 ;; exit
  | pattern :: files => each_file (bytes "grep") (fun fd _ => grep fuel pattern fd) files ;; exit
  end.

(** ** Patterns as regular expressions *)

Inductive rx := REps | RSym (c : Z) | RDot | RCat (r1 r2 : rx) | RStar (r : rx).

(** [rx_in r l]: the string [l] is in the language of [r]. *)
Inductive rx_in : rx -> list Z -> Prop :=
  | in_eps : rx_in REps []
  | in_sym c : rx_in (RSym c) [c]
  | in_dot c : rx_in RDot [c]
  | in_cat r1 r2 l1 l2 : rx_in r1 l1 -> rx_in r2 l2 -> rx_in (RCat r1 r2) (l1 ++ l2)
  | in_star_nil r : rx_in (RStar r) []
  | in_star_app r l1 l2 : rx_in r l1 -> rx_in (RStar r) l2 -> rx_in (RStar r) (l1 ++ l2).

Definition atom (c : Z) : rx := if c =? 46 then RDot else RSym c.

(** The expression of a pattern without its leading [^], and whether it ends
    with [$]. *)
Fixpoint pattern_rx (re : list Z) : rx * bool :=
  match re with
  | [] => (REps, false)
  | c :: re1 =>
      match re1 with
      | [] => if c =? 36 then (REps, true) else (atom c, false)
      | d :: re2 =>
          if d =? 42 then (RCat (RStar (atom c)) (pattern_rx re2).1, (pattern_rx re2).2)
          else (RCat (atom c) (pattern_rx re1).1, (pattern_rx re1).2)
      end
  end.

Definition anchored (re : list Z) : bool := match re with c :: _ => c =? 94 | [] => false end.
Definition pattern_body (re : list Z) : list Z := if anchored re then tail re else re.

(** A string of the language starts the text; with [$] it is the text. *)
Definition starts (p : rx * bool) (text : list Z) : Prop :=
  exists a b, text = a ++ b /\ rx_in p.1 a /\ (p.2 = true -> b = []).

Lemma atom_in c l : rx_in (atom c) l <-> exists t, l = [t] /\ (c =? 46) || (c =? t) = true.
Proof.
  unfold atom. destruct (Z.eqb_spec c 46) as [->|Hc]; cbn [orb].
  - split; [inversion 1; subst; eauto|intros (t & -> & _); constructor].
  - split; [inversion 1; subst; exists c; by rewrite Z.eqb_refl|]. intros (t & -> & ->%Z.eqb_eq). constructor.
Qed.

Lemma starts_cat r1 r2 e text :
  starts (RCat r1 r2, e) text <-> exists a b, text = a ++ b /\ rx_in r1 a /\ starts (r2, e) b.
Proof.
  split.
  - intros (a & b & -> & H & He). inversion H; subst. exists l1, (l2 ++ b). rewrite app_assoc. split_and!; [done|done|]. by exists l2, b.
  - intros (a & b & -> & Ha & (a' & b' & -> & Hb & He)). exists (a ++ a'), b'. rewrite app_assoc. split_and!; [done|by constructor|done].
Qed.

Lemma starts_atom c p text :
  starts (RCat (atom c) p.1, p.2) text <->
  match text with t :: text => (c =? 46) || (c =? t) = true /\ starts p text | [] => False end.
Proof.
  rewrite starts_cat. destruct p as [r e]. simpl. split.
  - intros (a & b & -> & (t & -> & Ht)%atom_in & Hb). simpl. done.
  - destruct text as [|t text]; [done|]. intros [Ht Hs]. exists [t], text. split_and!; [done|apply atom_in; eauto|done].
Qed.

(** [c*] followed by [p], unrolled once. *)
Lemma starts_star c p text :
  starts (RCat (RStar (atom c)) p.1, p.2) text <->
  starts p text \/
  match text with
  | t :: text => (t =? c) || (c =? 46) = true /\ starts (RCat (RStar (atom c)) p.1, p.2) text
  | [] => False
  end.
Proof.
  rewrite starts_cat. destruct p as [r e]. simpl. split.
  - intros (a & b & -> & Ha & Hb). inversion Ha as [| | | | |r' l1 l2 H1 H2]; subst; [by left|].
    apply atom_in in H1 as (t & -> & Ht). right. simpl. split; [by rewrite orb_comm, (Z.eqb_sym t c)|].
    apply starts_cat. by exists l2, b.
  - intros [Hs|H]; [exists [], text; split_and!; [done|constructor|done]|].
    destruct text as [|t text]; [done|]. destruct H as [Ht (a & b & -> & Ha & Hb)%starts_cat].
    exists (t :: a), b. split_and!; [done| |done]. apply (in_star_app _ [t] a); [|done].
    apply atom_in. exists t. by rewrite orb_comm, (Z.eqb_sym c t).
Qed.

Lemma matchstar_spec here c p text :
  (forall t, here t = true <-> starts p t) ->
  matchstar here c text = true <-> starts (RCat (RStar (atom c)) p.1, p.2) text.
Proof.
  intros Hh. induction text as [|t text IH]; cbn [matchstar]; rewrite starts_star, orb_true_iff, Hh; [naive_solver|].
  destruct ((t =? c) || (c =? 46)); rewrite ?IH; naive_solver.
Qed.

Lemma matchhere_spec n : forall re text, (length re <= n)%nat -> matchhere re text = true <-> starts (pattern_rx re) text.
Proof.
  induction n as [|n IH]; intros [|c [|d re2]] text Hn; simpl in Hn; try lia.
  1,2: cbn; split; [intros _; exists [], text; split_and!; [done|constructor|done]|done].
  - assert (starts (pattern_rx [c]) text <-> (if c =? 36 then match text with [] => true | _ => false end
      else match text with t :: text => (c =? 46) || (c =? t) | [] => false end) = true) as ->.
    { cbn [pattern_rx]. destruct (c =? 36).
      - split; [intros (a & b & -> & H & He); inversion H; subst; by rewrite (He eq_refl)|].
        destruct text; [|done]. exists [], []. split_and!; [done|constructor|done].
      - split; [intros (a & b & -> & (t & -> & Ht)%atom_in & _); done|]. destruct text as [|t text]; [done|]. intros Ht.
        exists [t], text. split_and!; [done|apply atom_in; eauto|done]. }
    cbn [matchhere]. destruct (c =? 36); [by destruct text|]. destruct text as [|t text]; [done|]. by destruct (_ || _).
  - cbn [matchhere pattern_rx]. destruct (Z.eqb_spec d 42) as [->|Hd].
    + apply matchstar_spec. intros t. apply IH. lia.
    + rewrite (starts_atom c (pattern_rx (d :: re2))). destruct text as [|t text]; [done|].
      destruct ((c =? 46) || (c =? t)) eqn:E; [|naive_solver]. rewrite <- (IH (d :: re2) text) by (simpl; lia). naive_solver.
Qed.

Lemma match_any_spec re text : match_any re text = true <-> exists a b, text = a ++ b /\ matchhere re b = true.
Proof.
  induction text as [|t text IH]; cbn [match_any]; rewrite orb_true_iff.
  - split; [intros [H|H]; [by exists [], []|done]|]. intros (a & b & E & H). symmetry in E. apply app_nil in E as [-> ->]. by left.
  - rewrite IH. split.
    + intros [H|(a & b & -> & H)]; [by exists [], (t :: text)|by exists (t :: a), b].
    + intros ([|x a] & b & E & H); simpl in E; [subst; by left|]. injection E as -> ->. right. by exists a, b.
Qed.

(** C35: [match] decides the language of its pattern: the text contains a
    string of the regular expression that the pattern denotes (characters,
    [.] for any, [*] for repetition of the character before it), at the
    beginning if the pattern starts with [^] and at the end if it ends with
    [$]. *)
Theorem match_language re text :
  match_ re text = true <->
  exists a b c, text = a ++ b ++ c /\ rx_in (pattern_rx (pattern_body re)).1 b /\
    (anchored re = true -> a = []) /\ ((pattern_rx (pattern_body re)).2 = true -> c = []).
Proof.
  assert (forall r t, matchhere r t = true <-> starts (pattern_rx r) t) as Hh by (intros r t; by apply (matchhere_spec (length r))).
  unfold match_, pattern_body, anchored. destruct re as [|x re]; [|destruct (Z.eqb_spec x 94) as [->|Hx]].
  2: { rewrite Hh. cbn [tail]. split.
       - intros (b & c & -> & H1 & H2). exists [], b, c. done.
       - intros (a & b & c & -> & H1 & H2 & H3). rewrite H2 by done. by exists b, c. }
  all: rewrite match_any_spec; split.
  1,3: intros (a & t & -> & (b & c & -> & H1 & H2)%Hh); exists a, b, c; split_and!; naive_solver.
  all: intros (a & b & c & -> & H1 & _ & H3); exists a, (b ++ c); split; [done|]; apply Hh; by exists b, c.
Qed.

(** ** Reading a stream to its end

    The loops of [cat] and [wc] handle a stream piece by piece; [n] bytes per
    read at most. *)

(** What the next read of a sound stream gives and leaves. *)
Lemma read_next n fd st s :
  0 < n -> sound_stream st -> reads fd st s -> st <> [] ->
  exists b bs st', read fd n s = Ok (Some (b :: bs)) (rewound fd st' s) /\ sound_stream st' /\
    content st = (b :: bs) ++ content st'.
Proof.
  intros Hn Hst Hr Hne. destruct st as [|o st]; [done|]. apply Forall_cons in Hst as [(b & bs & ->) Hst].
  rewrite (read_piece _ _ _ _ _ Hr). destruct (Z.to_nat n) as [|k] eqn:Ek; [lia|]. cbn [take drop].
  destruct (drop k bs) as [|c cs] eqn:Ed.
  - exists b, (take k bs), st. split_and!; [done|done|]. simpl. f_equal. rewrite <- (take_drop k bs) at 1. by rewrite Ed, app_nil_r.
  - exists b, (take k bs), (Some (c :: cs) :: st). split_and!; [done|constructor; eauto|].
    simpl. f_equal. rewrite <- (take_drop k bs) at 1. by rewrite Ed, <- app_assoc.
Qed.

(** [cat] copies its input to the standard output, every byte once and in
    order, however the input is split among the reads. *)
Theorem cat_copies fuel fd st s :
  reads fd st s -> sound_stream st -> (length (content st) < fuel)%nat -> u_full s 1 = false ->
  exists s', cat fuel fd s = Ok tt s' /\ output 1 s' = output 1 s ++ content st.
Proof.
  revert st s. induction fuel as [|fuel IH]; intros st s Hr Hst Hf Hw; [lia|]. cbn [cat].
  destruct (decide (st = [])) as [->|Hne].
  { rewrite (bind_Ok _ _ _ _ _ (read_end fd 512 s Hr)). exists s. by rewrite app_nil_r. }
  destruct (read_next 512 fd st s ltac:(lia) Hst Hr Hne) as (b & bs & st' & E & Hst' & Ec).
  rewrite (bind_Ok _ _ _ _ _ E). set (s1 := rewound fd st' s).
  rewrite (bind_Ok _ _ _ _ _ (write_Ok 1 (b :: bs) s1 Hw)), Z.eqb_refl. cbn [negb].
  destruct (IH st' (wrote 1 (b :: bs) s1)) as (s' & E' & Ho).
  - exact (reads_rewound fd st st' s Hr).
  - done.
  - rewrite Ec in Hf. simpl in Hf. rewrite length_app in Hf. lia.
  - done.
  - exists s'. split; [done|]. rewrite Ho, output_wrote, Ec. by rewrite <- app_assoc.
Qed.

(** ** Counting *)

Definition is_space (c : Z) : bool := bool_decide (c ∈ wc_space).

(** The characters that start a word: not a space, after a space or at the
    beginning. *)
Definition word_starts (l : list Z) : nat :=
  length (List.filter (fun p => is_space p.1 && negb (is_space p.2)) (zip (32 :: l) l)).
Definition newlines (l : list Z) : nat := length (List.filter (fun c => c =? 10) l).

Lemma strchr_elem l c : strchr l c <> None <-> c ∈ l.
Proof.
  induction l as [|d l IH]; cbn [strchr]; [by rewrite elem_of_nil|]. rewrite elem_of_cons.
  destruct (Z.eqb_spec d c); [naive_solver|]. rewrite IH. naive_solver.
Qed.

Lemma wc_char_eq k c :
  wc_char k c = MkCounts (if c =? 10 then i32 (wc_l k + 1) else wc_l k)
    (if negb (wc_in k) && negb (is_space c) then i32 (wc_w k + 1) else wc_w k) (i32 (wc_c k + 1)) (negb (is_space c)).
Proof.
  unfold wc_char, is_space. pose proof (strchr_elem wc_space c) as H. destruct (strchr wc_space c) as [q|].
  - rewrite bool_decide_true by (by apply H). by rewrite andb_false_r.
  - rewrite bool_decide_false by (intros Hc; by apply H in Hc). by destruct (wc_in k).
Qed.

Lemma last_cons_default {A} (l : list A) c d : List.last (c :: l) d = List.last l c.
Proof. revert c d. induction l as [|x l IH]; intros c d; [done|]. change (List.last (x :: l) d = List.last (x :: l) c). by rewrite !IH. Qed.

(** The counters after a text; [prev] is the character before it. *)
Lemma wc_fold prev l k :
  wc_in k = negb (is_space prev) ->
  fold_left wc_char l k = MkCounts (fold_left (fun n c => if c =? 10 then i32 (n + 1) else n) l (wc_l k))
    (fold_left (fun n p => if is_space p.1 && negb (is_space p.2) then i32 (n + 1) else n) (zip (prev :: l) l) (wc_w k))
    (fold_left (fun n _ => i32 (n + 1)) l (wc_c k)) (negb (is_space (List.last l prev))).
Proof.
  revert prev k. induction l as [|c l IH]; intros prev k Hk.
  { destruct k. simpl in *. by subst. }
  cbn [fold_left]. rewrite (IH c) by (by rewrite wc_char_eq). rewrite wc_char_eq. cbn [wc_l wc_w wc_c zip fold_left fst snd].
  rewrite Hk, negb_involutive. f_equal. by rewrite (last_cons_default l c prev).
Qed.

Lemma count_i32 {A} (P : A -> bool) l n :
  0 <= n -> n + Z.of_nat (length l) < 2 ^ 31 ->
  fold_left (fun m x => if P x then i32 (m + 1) else m) l n = n + Z.of_nat (length (List.filter P l)).
Proof.
  revert n. induction l as [|x l IH]; intros n Hn Hl; cbn [fold_left List.filter length] in *; [lia|].
  destruct (P x).
  - rewrite i32_small by lia. rewrite IH by lia. cbn [length]. lia.
  - rewrite IH by lia. done.
Qed.

Lemma wc_counts l :
  Z.of_nat (length l) < 2 ^ 31 ->
  exists b, fold_left wc_char l (MkCounts 0 0 0 false) =
    MkCounts (Z.of_nat (newlines l)) (Z.of_nat (word_starts l)) (Z.of_nat (length l)) b.
Proof.
  intros Hl. rewrite (wc_fold 32) by done. cbn [wc_l wc_w wc_c]. eexists. f_equal.
  - by rewrite (count_i32 (fun c => c =? 10)) by lia.
  - rewrite (count_i32 (fun p => is_space p.1 && negb (is_space p.2))); [done|lia|].
    rewrite length_zip_with. cbn [length]. lia.
  - etransitivity; [apply (count_i32 (fun _ => true)); lia|]. rewrite Z.add_0_l. f_equal. clear Hl. induction l; simpl; congruence.
Qed.

Definition dec (n : Z) : list Z := uprint_int n 10 true.

Lemma wc_loop_Ok fuel fd name st : forall s k l,
  reads fd st s -> sound_stream st -> (length (content st) < fuel)%nat -> u_full s 1 = false ->
  k = fold_left wc_char l (MkCounts 0 0 0 false) -> Z.of_nat (length (l ++ content st)) < 2 ^ 31 ->
  exists s', wc_loop fuel fd name k s = Ok tt s' /\
    output 1 s' = output 1 s ++ dec (Z.of_nat (newlines (l ++ content st))) ++ [32] ++ dec (Z.of_nat (word_starts (l ++ content st))) ++
      [32] ++ dec (Z.of_nat (length (l ++ content st))) ++ [32] ++ name ++ [10].
Proof.
  revert st. induction fuel as [|fuel IH]; intros st s k l Hr Hst Hf Hw Hk Hl; [lia|]. cbn [wc_loop].
  destruct (decide (st = [])) as [->|Hne].
  - rewrite (bind_Ok _ _ _ _ _ (read_end fd 512 s Hr)). simpl content in *. rewrite app_nil_r in *.
    destruct (wc_counts l Hl) as [b Eb]. rewrite Hk, Eb. cbn [wc_l wc_w wc_c].
    assert (forall n, Z.of_nat n <= Z.of_nat (length l) -> i32 (Z.of_nat n) = Z.of_nat n) as Hi by (intros n Hn; apply i32_small; lia).
    assert (newlines l <= length l)%nat by apply List.filter_length_le.
    assert (word_starts l <= length l)%nat.
    { unfold word_starts. etransitivity; [apply List.filter_length_le|]. rewrite length_zip_with. cbn [length]. lia. }
    unfold printf, uprintint. cbn [bytes app]. simpl bytes. cbn [printf_loop negb]. simpl.
    eexists. split.
    { unfold uprintint. rewrite !Hi by lia. fold (dec (Z.of_nat (newlines l))) (dec (Z.of_nat (word_starts l))) (dec (Z.of_nat (length l))).
      repeat (cbv beta; first [rewrite uputs_then by exact Hw | rewrite putc_then by exact Hw]). reflexivity. }
    by rewrite !typed_app, output_typed.
  - destruct (read_next 512 fd st s ltac:(lia) Hst Hr Hne) as (b & bs & st' & E & Hst' & Ec).
    rewrite (bind_Ok _ _ _ _ _ E). rewrite Ec in Hf, Hl |- *. rewrite (app_assoc l) in Hl |- *.
    destruct (IH st' (rewound fd st' s) (fold_left wc_char (b :: bs) k) (l ++ b :: bs)) as (s' & E' & Ho);
      [by eapply reads_rewound|done| |done|by rewrite fold_left_app, <- Hk|done|by exists s'].
    simpl in Hf. rewrite length_app in Hf. lia.
Qed.

(** [wc] counts: for every way the input is split among the reads it
    prints the number of newlines, of words (a word starts at a character
    that is not a space and follows a space or nothing) and of characters. *)
Theorem wc_counts_input fuel fd name st s :
  reads fd st s -> sound_stream st -> (length (content st) < fuel)%nat -> u_full s 1 = false ->
  Z.of_nat (length (content st)) < 2 ^ 31 ->
  exists s', wc fuel fd name s = Ok tt s' /\
    output 1 s' = output 1 s ++ dec (Z.of_nat (newlines (content st))) ++ [32] ++
      dec (Z.of_nat (word_starts (content st))) ++ [32] ++ dec (Z.of_nat (length (content st))) ++ [32] ++ name ++ [10].
Proof. intros Hr Hst Hf Hw Hl. by apply (wc_loop_Ok fuel fd name st s _ []). Qed.

(** ** grep.c, the loop over the input *)

Definition no_newline (l : list Z) : Prop := 10 ∉ l.
Definition no_nul (l : list Z) : Prop := 0 ∉ l.

Lemma cbytes_no_nul l : no_nul l -> cbytes l = l.
Proof.
  unfold no_nul. induction l as [|c l IH]; cbn [cbytes]; [done|]. rewrite elem_of_cons. intros H.
  destruct (Z.eqb_spec c 0); [naive_solver|]. f_equal. apply IH. naive_solver.
Qed.

Lemma strchr_none l : no_newline l -> strchr l 10 = None.
Proof.
  intros H. pose proof (strchr_elem l 10) as Hs. destruct (strchr l 10); [|done].
  exfalso. apply H, Hs. done.
Qed.

Lemma strchr_line line rest : no_newline line -> strchr (line ++ 10 :: rest) 10 = Some (10 :: rest).
Proof.
  unfold no_newline. induction line as [|c l IH]; intros H; simpl; [done|]. rewrite elem_of_cons in H.
  destruct (Z.eqb_spec c 10); [naive_solver|]. apply IH. naive_solver.
Qed.

(** The text of complete lines. *)
Definition joined (lines : list (list Z)) : list Z := concat (map (fun l => l ++ [10]) lines).

(** The writes of the matching lines. *)
Definition grep_out (pattern : list Z) (lines : list (list Z)) (s : ustate) : ustate :=
  set u_out (fun o => o ++ map (fun l => (1, l ++ [10])) (List.filter (match_ pattern) lines)) s.

Lemma grep_out_app pattern l1 l2 s : grep_out pattern l2 (grep_out pattern l1 s) = grep_out pattern (l1 ++ l2) s.
Proof. unfold grep_out, set, set_u_out. simpl. by rewrite List.filter_app, map_app, app_assoc. Qed.
Lemma grep_out_nil pattern s : grep_out pattern [] s = s.
Proof. unfold grep_out, set, set_u_out. simpl. rewrite app_nil_r. by destruct s. Qed.

Lemma no_nul_app l1 l2 : no_nul (l1 ++ l2) -> no_nul l1 /\ no_nul l2.
Proof. unfold no_nul. rewrite elem_of_app. tauto. Qed.

Lemma grep_lines_Ok pattern lines : forall fuel last s,
  Forall no_newline lines -> no_newline last -> no_nul (joined lines ++ last) -> (length lines <= fuel)%nat ->
  u_full s 1 = false ->
  grep_lines fuel pattern (joined lines ++ last) s = Ok last (grep_out pattern lines s).
Proof.
  induction lines as [|line lines IH]; intros fuel last s Hl Hlast Hn Hf Hw; unfold joined in *; simpl in *.
  - rewrite grep_out_nil. destruct fuel; simpl; by rewrite cbytes_no_nul, strchr_none.
  - apply Forall_cons in Hl as [Hline Hl]. destruct fuel as [|fuel]; [lia|]. cbn [grep_lines].
    set (more := concat (map (fun l => l ++ [10]) lines) ++ last) in *.
    assert (((line ++ [10]) ++ concat (map (fun l => l ++ [10]) lines)) ++ last = line ++ 10 :: more) as ->.
    { unfold more. by rewrite <- !app_assoc. }
    assert (no_nul (line ++ 10 :: more)) as Hn'.
    { unfold more. revert Hn. by rewrite <- !app_assoc. }
    rewrite cbytes_no_nul, strchr_line by done. rewrite length_app.
    replace (length line + length (10%Z :: more) - length (10%Z :: more))%nat with (length line) by lia.
    rewrite take_app_length.
    replace (drop (S (length line)) (line ++ 10 :: more)) with more.
    2: { replace (S (length line)) with (length line + 1)%nat by lia. by rewrite <- drop_drop, drop_app_length. }
    assert (forall t, u_full t 1 = false -> grep_lines fuel pattern more t = Ok last (grep_out pattern lines t)) as Hrest.
    { intros t Ht. apply IH; [done|done| |lia|done]. apply no_nul_app in Hn' as [_ H]. unfold no_nul in *. rewrite elem_of_cons in H. tauto. }
    unfold when. destruct (match_ pattern line) eqn:Em.
    + rewrite (bind_Ok _ _ _ tt (wrote 1 (line ++ [10]) s)).
      2: { by rewrite (bind_Ok _ _ _ _ _ (write_Ok 1 (line ++ [10]) s Hw)). }
      rewrite Hrest by done. unfold grep_out, wrote, set, set_u_out. simpl. by rewrite Em, <- app_assoc.
    + rewrite bind_ret_l, Hrest by done. unfold grep_out. simpl. by rewrite Em.
Qed.

(** A prefix of a text: complete lines, and the beginning of the next. *)
Lemma prefix_lines lines : forall last b r,
  Forall no_newline lines -> no_newline last -> joined lines ++ last = b ++ r ->
  exists l1 l2 p, lines = l1 ++ l2 /\ b = joined l1 ++ p /\ no_newline p /\ p ++ r = joined l2 ++ last.
Proof.
  induction lines as [|line lines IH]; intros last b r Hl Hlast E.
  - simpl in E. exists [], [], b. split_and!; [done|done| |by rewrite <- E].
    unfold no_newline in *. rewrite E, elem_of_app in Hlast. tauto.
  - apply Forall_cons in Hl as [Hline Hl]. unfold joined in E. simpl in E. fold (joined lines) in E. rewrite <- !app_assoc in E.
    destruct (decide (length b <= length line)%nat) as [Hb|Hb].
    + exists [], (line :: lines), b. split_and!; [done|done| |].
      * assert (b = take (length b) line) as ->.
        { rewrite <- (take_app_length b r) at 1. rewrite <- E, take_app_le by lia. done. }
        unfold no_newline in *. intros Hin. apply Hline. rewrite <- (take_drop (length b) line). apply elem_of_app. by left.
      * rewrite <- E. unfold joined. simpl. by rewrite <- !app_assoc.
    + assert (exists b', b = (line ++ [10]) ++ b') as [b' ->].
      { exists (drop (length line + 1) b). rewrite <- (take_drop (length line + 1) b) at 1. f_equal.
        rewrite <- (take_app_le b r) by lia. rewrite <- E. rewrite app_assoc, take_app_le by (rewrite length_app; simpl; lia).
        apply take_ge. rewrite length_app. simpl. lia. }
      rewrite <- !app_assoc in E. do 2 apply app_inv_head in E.
      destruct (IH last b' r Hl Hlast E) as (l1 & l2 & p & -> & -> & Hp & Er).
      exists (line :: l1), l2, p. split_and!; [done| |done|done]. unfold joined. simpl. by rewrite <- !app_assoc.
Qed.

Lemma elem_prefix (b r line t : list Z) x : b ++ r = line ++ x :: t -> (length line < length b)%nat -> x ∈ b.
Proof.
  intros E Hlt. apply list_elem_of_lookup. exists (length line). rewrite <- (lookup_app_l b r) by done.
  rewrite E, lookup_app_r, Nat.sub_diag by lia. done.
Qed.

(** The rest of a file. *)
Definition file_stream (l : list Z) : stream := match l with [] => [] | _ => [Some l] end.

Lemma read_file fd n l s :
  0 < n -> reads fd (file_stream l) s -> l <> [] ->
  exists c cs r, read fd n s = Ok (Some (c :: cs)) (rewound fd (file_stream r) s) /\ l = (c :: cs) ++ r /\
    Z.of_nat (length (c :: cs)) <= n /\ (r <> [] -> Z.of_nat (length (c :: cs)) = n).
Proof.
  intros Hn Hr Hl. destruct l as [|c l]; [done|]. cbn [file_stream] in Hr. rewrite (read_piece _ _ _ _ _ Hr).
  destruct (Z.to_nat n) as [|k] eqn:Ek; [lia|]. exists c, (take k l), (drop k l). cbn [take drop]. split_and!.
  - by destruct (drop k l).
  - simpl. by rewrite take_drop.
  - cbn [length]. rewrite length_take. lia.
  - intros Hd. cbn [length]. rewrite length_take. assert (k < length l)%nat; [|lia].
    destruct (decide (k < length l)%nat); [done|]. destruct Hd. apply drop_ge. lia.
Qed.

Definition line_ok (l : list Z) : Prop := no_newline l /\ (length l <= 1022)%nat.

(** A buffer that is full, or has the whole rest, and has no newline: no complete line is left. *)
Lemma full_buffer last b r lines :
  Forall line_ok lines -> no_newline b -> b ++ r = joined lines ++ last -> r = [] \/ length b = 1023%nat -> lines = [].
Proof.
  intros Hl Hb E Hr. destruct lines as [|line lines]; [done|]. exfalso. apply Forall_cons in Hl as [[_ Hlen] _].
  assert (b ++ r = line ++ 10 :: (joined lines ++ last)) as E' by (rewrite E; unfold joined; simpl; by rewrite <- !app_assoc).
  apply Hb, (elem_prefix b r line _ _ E'). destruct Hr as [->| Hr]; [|lia].
  rewrite app_nil_r in E'. rewrite E', length_app. simpl. lia.
Qed.

Lemma grep_loop_Ok pattern fd fuel : forall lines last buf rest s,
  Forall line_ok lines -> no_newline last -> no_newline buf -> no_nul (joined lines ++ last) ->
  joined lines ++ last = buf ++ rest -> (length buf < 1023)%nat -> (length rest < fuel)%nat ->
  reads fd (file_stream rest) s -> u_full s 1 = false ->
  exists s', grep_loop fuel pattern fd buf s = Ok tt s' /\ u_out s' = u_out (grep_out pattern lines s).
Proof.
  induction fuel as [|fuel IH]; intros lines last buf rest s Hl Hlast Hbuf Hn E Hb Hf Hr Hw; [lia|]. cbn [grep_loop].
  assert (Forall no_newline lines) as Hl1 by (eapply Forall_impl; [exact Hl|by intros l [? _]]).
  destruct (decide (rest = [])) as [->|Hne].
  { rewrite (bind_Ok _ _ _ _ _ (read_end _ _ _ Hr)). exists s. split; [done|]. rewrite app_nil_r in E.
    rewrite (full_buffer last buf [] lines); [by rewrite grep_out_nil|done|done|by rewrite app_nil_r|by left]. }
  destruct (read_file fd (1024 - Z.of_nat (length buf) - 1) rest s) as (c & cs & r & Erd & -> & Hle & Hfull); [lia|done|done|].
  rewrite (bind_Ok _ _ _ _ _ Erd). set (s1 := rewound fd (file_stream r) s). rewrite app_assoc in E.
  destruct (prefix_lines lines last _ _ Hl1 Hlast E) as (l1 & l2 & p & -> & Eb & Hp & Er).
  apply Forall_app in Hl as [Hla Hlb]. apply Forall_app in Hl1 as [Hl1a Hl1b].
  rewrite E in Hn. apply no_nul_app in Hn as [Hnb Hnr].
  assert (length l1 <= length (buf ++ c :: cs))%nat as Hfl.
  { rewrite Eb, length_app. enough (length l1 <= length (joined l1))%nat by lia. clear.
    induction l1 as [|x l IHl]; [done|]. unfold joined in *. simpl. rewrite !length_app. simpl. lia. }
  rewrite (bind_Ok _ _ _ p (grep_out pattern l1 s1)).
  2: { rewrite Eb. apply grep_lines_Ok; [done|done|by rewrite <- Eb|by rewrite <- Eb|done]. }
  assert (length (buf ++ c :: cs) = length (joined l1) + length p)%nat as Elen by (by rewrite Eb, length_app).
  assert (length r < fuel)%nat as Hf' by (rewrite length_app in Hf; simpl in Hf; lia).
  assert (length (buf ++ c :: cs) <= 1023)%nat as Hmax.
  { rewrite length_app. lia. }
  assert (reads fd (file_stream r) (grep_out pattern l1 s1)) as Hr1 by exact (reads_rewound fd _ _ s Hr).
  assert (no_nul (p ++ r)) as Hnp.
  { rewrite Eb in Hnb. apply no_nul_app in Hnb as [_ Hnp]. unfold no_nul in *. rewrite elem_of_app. tauto. }
  destruct (Nat.eqb_spec (length p) (length (buf ++ c :: cs))) as [Eq|Neq].
  - assert (l1 = []) as ->. { assert (length (joined l1) = 0)%nat as E0 by lia. destruct l1 as [|x l]; [done|].
      unfold joined in E0. simpl in E0. rewrite !length_app in E0. simpl in E0. lia. }
    assert (l2 = []) as ->.
    { apply (full_buffer last p r); [done|done|done|]. destruct (decide (r = [])); [by left|right].
      rewrite Eq, length_app. specialize (Hfull ltac:(done)). simpl in *. lia. }
    simpl in Er. destruct (IH [] r [] r (grep_out pattern [] s1)) as (s' & Es' & Ho);
      [by constructor| |apply not_elem_of_nil|by apply no_nul_app in Hnp as [_ ?]|done|simpl; lia|done|done|done|].
    + rewrite <- Er in Hlast. unfold no_newline in *. rewrite elem_of_app in Hlast. tauto.
    + exists s'. split; [done|]. rewrite Ho. by rewrite !grep_out_nil.
  - destruct (IH l2 last p r (grep_out pattern l1 s1)) as (s' & Es' & Ho); try done; [by rewrite <- Er|lia|].
    exists s'. split; [done|]. rewrite Ho, grep_out_app. done.
Qed.

(** C36: [grep] on a file prints exactly those lines that match and end with a
    newline, in order, for a text without NUL of lines of at most 1022
    characters, whatever the position of the lines relative to the buffer of
    1024 bytes.  A last line without newline is not printed, also when it
    matches. *)
Theorem grep_file fuel pattern fd lines last s :
  Forall line_ok lines -> no_newline last -> no_nul (joined lines ++ last) ->
  (length (joined lines ++ last) < fuel)%nat -> reads fd (file_stream (joined lines ++ last)) s -> u_full s 1 = false ->
  exists s', grep fuel pattern fd s = Ok tt s' /\
    u_out s' = u_out s ++ map (fun l => (1, l ++ [10])) (List.filter (match_ pattern) lines).
Proof.
  intros Hl Hlast Hn Hf Hr Hw.
  destruct (grep_loop_Ok pattern fd fuel lines last [] (joined lines ++ last) s) as (s' & E & Ho); try done.
  - apply not_elem_of_nil.
  - simpl. lia.
  - by exists s'.
Qed.

(** [grep] loses the beginning of a line that arrives in pieces: when a
    read returns a piece without newline into an empty buffer, the piece is
    dropped, and the rest of the line is matched on its own. *)
Theorem grep_drops_piece fuel pattern fd piece st s :
  reads fd (Some piece :: st) s -> piece <> [] -> (length piece < 1024)%nat -> no_newline piece -> no_nul piece ->
  grep (S fuel) pattern fd s = grep fuel pattern fd (rewound fd st s).
Proof.
  intros Hr Hne Hlen Hp Hn. unfold grep. cbn [grep_loop]. rewrite (bind_Ok _ _ _ _ _ (read_piece _ _ _ _ _ Hr)).
  rewrite take_ge, drop_ge by (simpl; lia). destruct piece as [|c cs]; [done|]. cbn [app length].
  rewrite (bind_Ok _ _ _ (c :: cs) (rewound fd st s)); [by rewrite Nat.eqb_refl|].
  destruct cs; cbn [grep_lines length]; by rewrite cbytes_no_nul, strchr_none.
Qed.

(** Inputs for the witnesses. *)
Definition user_state (st : stream) : ustate := MkUser [Some st; Some []; Some []] (fun _ => None) (fun _ => false) [].

Lemma cat_copies_witness :
  exists s', cat 9 0 (user_state [Some (bytes "ab"); Some (bytes "cde")]) = Ok tt s' /\ output 1 s' = bytes "abcde".
Proof.
  apply (cat_copies 9 0 [Some (bytes "ab"); Some (bytes "cde")] (user_state _)); [done| |simpl; lia|done].
  repeat constructor; eauto.
Defined.

Lemma wc_counts_input_witness :
  exists s', wc 20 0 (bytes "f") (user_state [Some (bytes "one tw"); Some (bytes "o three")]) = Ok tt s' /\
    output 1 s' = bytes "0 3 13 f" ++ [10].
Proof.
  apply (wc_counts_input 20 0 (bytes "f") [Some (bytes "one tw"); Some (bytes "o three")] (user_state _)); [done| |simpl; lia|done|done].
  repeat constructor; eauto.
Defined.

Lemma grep_file_witness :
  exists s', grep 50 (bytes "^h.*o$") 0 (user_state (file_stream (joined [bytes "hello"; bytes "world"; bytes "hallo"] ++ bytes "ho"))) = Ok tt s' /\
    u_out s' = [(1, bytes "hello" ++ [10]); (1, bytes "hallo" ++ [10])].
Proof.
  apply (grep_file 50 (bytes "^h.*o$") 0 [bytes "hello"; bytes "world"; bytes "hallo"] (bytes "ho") (user_state _));
    [|by vm_compute; set_solver|by vm_compute; set_solver|vm_compute; lia|done|done].
  repeat constructor; unfold no_newline; vm_compute; try lia; set_solver.
Defined.

Lemma grep_drops_piece_witness :
  grep 9 (bytes "hello") 0 (user_state [Some (bytes "he"); Some (bytes "llo" ++ [10])]) =
  grep 8 (bytes "hello") 0 (rewound 0 [Some (bytes "llo" ++ [10])] (user_state [Some (bytes "he"); Some (bytes "llo" ++ [10])])).
Proof. apply (grep_drops_piece 8 (bytes "hello") 0 (bytes "he")); [done|done|simpl; lia|by vm_compute; set_solver|by vm_compute; set_solver]. Defined.
