(* ===== verification/Fileutil.v ===== *)
(** * printf and ls (printf.c, ls.c, ulib.c)

    What [printf] writes, and the program that lists a directory.  The results
    of the system call [fstat] are given: type, inode number and size of the
    file that a descriptor opened with a path refers to. *)

From stdpp Require Import base numbers list list_numbers gmap strings.
From S2P Require Import Prelude Kmonad Params Kstate KString Bio Log Fs User Textutil.

Local Open Scope Z_scope.
Local Open Scope kern_scope.

(** ** What printf writes *)

(** [None]: an argument is missing or of the wrong kind. *)
Fixpoint render (state : bool) (fmt : list Z) (args : list uarg) : option (list Z) :=
  match fmt with
  | [] => Some []
  | c :: fmt =>
      if negb state then
        if c =? 37 then render true fmt args else cons c <$> render false fmt args
      else if c =? 100 then
        match args with AInt z :: args => app (uprint_int (i32 z) 10 true) <$> render false fmt args | _ => None end
      else if (c =? 120) || (c =? 112) then
        match args with AInt z :: args => app (uprint_int (i32 z) 16 false) <$> render false fmt args | _ => None end
      else if c =? 115 then
        match args with
        | AStr s :: args => app s <$> render false fmt args
        | ANull :: args => app (bytes "(null)") <$> render false fmt args
        | _ => None
        end
      else if c =? 99 then
        match args with AInt z :: args => cons (u8 z) <$> render false fmt args | _ => None end
      else if c =? 37 then cons 37 <$> render false fmt args
      else app [37; c] <$> render false fmt args
  end.

Lemma printf_loop_typed fd fmt : forall state args l s, render state fmt args = Some l -> u_full s fd = false ->
  printf_loop fd state fmt args s = Ok tt (typed fd l s).
Proof.
  induction fmt as [|c fmt IH]; intros state args l s Hr Hf; cbn [render printf_loop] in *; [injection Hr as <-; by rewrite typed_nil|].
  destruct state; cbn [negb] in *.
  - destruct (c =? 100); [|destruct ((c =? 120) || (c =? 112)); [|destruct (c =? 115); [|destruct (c =? 99); [|destruct (Z.eqb_spec c 37) as [->|]]]]].
    + destruct args as [|[z| |] args]; try done. apply fmap_Some in Hr as (l' & Hl' & ->). unfold uprintint. rewrite uputs_then by done. rewrite (IH _ _ l') by done. by rewrite typed_app.
    + destruct args as [|[z| |] args]; try done. apply fmap_Some in Hr as (l' & Hl' & ->). unfold uprintint. rewrite uputs_then by done. rewrite (IH _ _ l') by done. by rewrite typed_app.
    + destruct args as [|[z|str|] args]; try done; apply fmap_Some in Hr as (l' & Hl' & ->); rewrite uputs_then by done; rewrite (IH _ _ l') by done; by rewrite typed_app.
    + destruct args as [|[z| |] args]; try done. apply fmap_Some in Hr as (l' & Hl' & ->). rewrite putc_then by done. rewrite (IH _ _ l') by done. by rewrite typed_app.
    + apply fmap_Some in Hr as (l' & Hl' & ->). rewrite putc_then by done. rewrite (IH _ _ l') by done. by rewrite typed_app.
    + apply fmap_Some in Hr as (l' & Hl' & ->). rewrite putc_then by done. rewrite putc_then by done. rewrite (IH _ _ l') by done. by rewrite !typed_app.
  - destruct (c =? 37); [by apply IH|]. apply fmap_Some in Hr as (l' & Hl' & ->). rewrite putc_then by done. rewrite (IH _ _ l') by done. by rewrite typed_app.
Qed.

(** [printf] writes its format with the conversions replaced, byte by byte. *)
Lemma printf_typed fd fmt args l s : render false fmt args = Some l -> u_full s fd = false -> printf fd fmt args s = Ok tt (typed fd l s).
Proof. apply printf_loop_typed. Qed.

(** ** ls.c *)

Record stat := MkStat { st_type : Z; st_dev : Z; st_ino : Z; st_nlink : Z; st_size : Z }.

(** The loop that looks for the last slash, from index [n] down. *)
Fixpoint slash_back (path : list Z) (n : nat) : nat :=
  match n with
  | O => O
  | S n => if nthZ path n =? 47 then S n else slash_back path n
  end.

(** [fmtname]: the last component, padded with blanks. *)
Definition fmtname (path : list Z) : list Z :=
  let p := drop (slash_back path (length path)) path in
  if (DIRSIZ <=? length p)%nat then p else p ++ replicate (DIRSIZ - length p) 32.

Section ls.
Context (fstat : list Z -> option stat).

(** ulib.c: [stat(n, st)]; [None] is -1. *)
Definition ustat (n : list Z) : UM (option stat) :=
  let* fd := open n in
  if fd <? 0 then ret None else
  close fd ;;
  ret (fstat n).

Definition ls_line (path : list Z) (st : stat) : UM unit :=
  printf 1 (bytes "%s %d %d %d" ++ [10]) [AStr (fmtname path); AInt (st_type st); AInt (st_ino st); AInt (st_size st)].

(** The loop over the entries; [buf] is the path and a slash. *)
Fixpoint ls_entries (fuel : nat) (fd : Z) (buf : list Z) : UM unit :=
  match fuel with
  | O => nofuel
  | S fuel =>
      let* r := read fd 16 in
      match r with
      | Some de =>
          if negb (length de =? 16)%nat then ret tt else
          if de_inum de =? 0 then ls_entries fuel fd buf else
          let name := buf ++ cbytes (de_name de) in
          let* r := ustat name in
          match r with
          | None => printf 1 (bytes "ls: cannot stat %s" ++ [10]) [AStr name] ;; ls_entries fuel fd buf
          | Some st => ls_line name st ;; ls_entries fuel fd buf
          end
      | None => ret tt
      end
  end.

Definition ls (fuel : nat) (path : list Z) : UM unit :=
  let* fd := open path in
  if fd <? 0 then printf 2 (bytes "ls: cannot open %s" ++ [10]) [AStr path] else
  match fstat path with
  | None => printf 2 (bytes "ls: cannot stat %s" ++ [10]) [AStr path] ;; close fd
  | Some st =>
      (if st_type st =? T_FILE then ls_line path st
       else if st_type st =? T_DIR then
         if (512 <? Z.of_nat (length path) + 1 + Z.of_nat DIRSIZ + 1) then printf 1 (bytes "ls: path too long" ++ [10]) []
         else ls_entries fuel fd (path ++ [47])
       else ret tt) ;;
      close fd
  end.

Definition ls_main (fuel : nat) (args : list (list Z)) : UM unit :=
  match args with
  | [] => ls fuel (bytes ".") ;; exit
  | _ => for_each args (ls fuel) ;; exit
  end.

(** ** A directory *)

(** The line for the file [name] in [dir]. *)
Definition line (dir name : list Z) (st : stat) : list Z :=
  name ++ replicate (DIRSIZ - length name) 32 ++ [32] ++ dec (i32 (st_type st)) ++ [32] ++ dec (i32 (st_ino st)) ++ [32] ++ dec (i32 (st_size st)) ++ [10].

Definition name_ok (name : list Z) : Prop := Forall (fun c => c <> 0 /\ c <> 47) name /\ (length name <= DIRSIZ)%nat.

Lemma slash_back_at l name n : Forall (fun c => c <> 47) name -> (n <= length name)%nat -> slash_back (l ++ [47] ++ name) (length l + 1 + n) = (length l + 1)%nat.
Proof.
  intros Hname. induction n as [|n IH]; intros Hn.
  - rewrite Nat.add_0_r, Nat.add_1_r. cbn [slash_back]. assert (nthZ (l ++ [47] ++ name) (length l) = 47) as ->; [|done].
    unfold nthZ. rewrite lookup_app_r, Nat.sub_diag by lia. done.
  - replace (length l + 1 + S n)%nat with (S (length l + 1 + n)) by lia. cbn [slash_back]. unfold nthZ. rewrite lookup_app_r by lia.
    replace (length l + 1 + n - length l)%nat with (S n) by lia. destruct (lookup_lt_is_Some_2 name n ltac:(lia)) as [c Hc].
    change (([47] ++ name) !! S n) with (name !! n). rewrite Hc. simpl. rewrite Forall_forall in Hname. specialize (Hname c ltac:(by eapply list_elem_of_lookup_2)).
    rewrite (proj2 (Z.eqb_neq c 47)) by done. apply IH. lia.
Qed.

Lemma fmtname_entry dir name : name_ok name -> fmtname (dir ++ [47] ++ name) = name ++ replicate (DIRSIZ - length name) 32.
Proof.
  intros [Hc Hl]. unfold fmtname. rewrite !length_app. cbn [length].
  rewrite (Nat.add_assoc (length dir) 1), slash_back_at; [|by eapply Forall_impl; [exact Hc|intros c []]|done].
  rewrite app_assoc, drop_app_length' by (rewrite length_app; done). destruct (Nat.leb_spec DIRSIZ (length name)) as [Hle|Hlt]; [|done].
  replace (DIRSIZ - length name)%nat with 0%nat by lia. by rewrite app_nil_r.
Qed.

(** An entry that is in use, or 0 for one that is free. *)
Definition entry_bytes (e : Z * list Z) : list Z := dirent_bytes e.1 e.2.
Definition used_entries (es : list (Z * list Z)) : list (Z * list Z) := List.filter (fun e => negb (e.1 =? 0)) es.

(** A free descriptor, and what [stat] gives: it takes a descriptor and returns it. *)
Definition free_fd (o : option stream) : bool := match o with None => true | Some _ => false end.
Definition stat_of (s : ustate) (path : list Z) : option stat :=
  match u_files s path, find_idx free_fd (u_fds s) with Some _, Some _ => fstat path | _, _ => None end.

(** What [ls] prints for the entries of [dir]. *)
Definition listing (stat_of : list Z -> option stat) (dir : list Z) (es : list (Z * list Z)) : list Z :=
  flat_map (fun e => match stat_of (dir ++ [47] ++ e.2) with
                     | Some st => line dir e.2 st
                     | None => bytes "ls: cannot stat " ++ (dir ++ [47] ++ e.2) ++ [10]
                     end) (used_entries es).

Definition entry_ok (e : Z * list Z) : Prop := 0 <= e.1 < 2 ^ 16 /\ name_ok e.2.

Lemma entry_decode e : entry_ok e -> length (entry_bytes e) = 16%nat /\ de_inum (entry_bytes e) = e.1 /\ cbytes (de_name (entry_bytes e)) = e.2.
Proof.
  intros [Hi [Hc Hl]]. unfold entry_bytes, dirent_bytes. split_and!.
  - by rewrite length_app, length_le_bytes, length_strncpy.
  - unfold de_inum, get_u16. rewrite drop_0, take_app_length' by done. rewrite of_le_bytes. apply Z.mod_small. done.
  - unfold de_name. rewrite drop_app_length' by done. rewrite strncpy_spec.
    assert (forall l k, Forall (fun c => c <> 0 /\ c <> 47) l -> cbytes l = l /\ cbytes (l ++ replicate k 0) = l) as E.
    { induction 1 as [|c l [Hc0 _] Hrest [IH1 IH2]]; [by destruct k|]. cbn [cbytes app]. rewrite (proj2 (Z.eqb_neq c 0)) by done. by rewrite IH1, IH2. }
    rewrite (proj1 (E _ 0%nat Hc)), take_ge by done. by apply E.
Qed.

Lemma line_render dir name st : name_ok name ->
  render false (bytes "%s %d %d %d" ++ [10]) [AStr (fmtname (dir ++ [47] ++ name)); AInt (st_type st); AInt (st_ino st); AInt (st_size st)] = Some (line dir name st).
Proof. intros Hn. rewrite fmtname_entry by done. unfold line, dec. simpl. by rewrite <- !app_assoc. Qed.

Lemma cannot_render name : render false (bytes "ls: cannot stat %s" ++ [10]) [AStr name] = Some (bytes "ls: cannot stat " ++ name ++ [10]).
Proof. done. Qed.

Lemma rewound_typed fd st fd' l s : rewound fd st (typed fd' l s) = typed fd' l (rewound fd st s).
Proof. done. Qed.

Lemma read_entry fd eb rest s : length eb = 16%nat -> reads fd (file_stream (eb ++ rest)) s -> read fd 16 s = Ok (Some eb) (rewound fd (file_stream rest) s).
Proof.
  intros Hl Hr. assert (file_stream (eb ++ rest) = [Some (eb ++ rest)]) as E by (by destruct eb). rewrite E in Hr. rewrite (read_piece _ _ _ _ _ Hr).
  change (Z.to_nat 16) with 16%nat. rewrite take_app_length', drop_app_length' by done. by destruct rest.
Qed.

Lemma open_result n s : open n s =
  match u_files s n, find_idx free_fd (u_fds s) with
  | Some st, Some i => Ok (Z.of_nat i) (rewound (Z.of_nat i) st s)
  | _, _ => Ok (-1) s
  end.
Proof. unfold open, rewound. fold free_fd. destruct (u_files s n); [|done]. destruct (find_idx _ _); [by rewrite Nat2Z.id|done]. Qed.

(** Opening a free descriptor and closing it changes nothing. *)
Lemma close_rewound fd st s : u_fds s !! fd = Some None -> close (Z.of_nat fd) (rewound (Z.of_nat fd) st s) = Ok tt s.
Proof.
  intros H. unfold close, modify, rewound. rewrite Nat2Z.id. f_equal. destruct s as [fds fs fl out]. unfold set, set_u_fds. simpl in *.
  by rewrite list_insert_insert_eq, list_insert_id.
Qed.

Lemma ustat_result n s : ustat n s = Ok (stat_of s n) s.
Proof.
  unfold ustat, stat_of. pose proof (open_result n s) as Eo. destruct (u_files s n) as [st|]; [|by rewrite (bind_Ok _ _ _ _ _ Eo)].
  destruct (find_idx free_fd (u_fds s)) as [i|] eqn:E; rewrite (bind_Ok _ _ _ _ _ Eo); [|done]. apply find_idx_Some in E as ([o|] & Ho & Hf & _); [done|].
  rewrite (proj2 (Z.ltb_ge (Z.of_nat i) 0)) by lia. by rewrite (bind_Ok _ _ _ _ _ (close_rewound i st s Ho)).
Qed.

Lemma stat_of_rewound fd st st' s n : reads fd st s -> stat_of (rewound fd st' s) n = stat_of s n.
Proof.
  intros [_ Hr]. unfold stat_of, rewound. simpl. destruct (u_files s n); [|done]. rewrite find_idx_insert; [done|]. by rewrite Hr.
Qed.

Lemma ls_entries_ok dir es : forall fuel fd s, (length es < fuel)%nat -> Forall entry_ok es -> reads fd (file_stream (flat_map entry_bytes es)) s ->
  u_full s 1 = false -> ls_entries fuel fd (dir ++ [47]) s = Ok tt (typed 1 (listing (stat_of s) dir es) (rewound fd [] s)).
Proof.
  induction es as [|e es IH]; intros [|fuel] fd s Hf Hok Hr Hw; try (simpl in Hf; lia); cbn [ls_entries].
  - rewrite (bind_Ok _ _ _ _ _ (read_end fd 16 s Hr)). rewrite rewound_same by done. by rewrite typed_nil.
  - apply Forall_cons in Hok as [He Hok]. destruct (entry_decode e He) as (E1 & E2 & E3). cbn [flat_map] in Hr.
    rewrite (bind_Ok _ _ _ _ _ (read_entry fd _ _ s E1 Hr)). rewrite E1, E2, E3. cbn [Nat.eqb negb].
    set (s1 := rewound fd (file_stream (flat_map entry_bytes es)) s).
    pose proof (reads_rewound fd _ (file_stream (flat_map entry_bytes es)) s Hr) as Hr'. fold s1 in Hr'. cbn [length] in Hf.
    assert (forall l, listing (stat_of (typed 1 l s1)) dir es = listing (stat_of s) dir es) as El.
    { intros l. apply flat_map_ext. intros x. change (stat_of (typed 1 l s1)) with (stat_of s1). unfold s1. by rewrite (stat_of_rewound _ _ _ _ _ Hr). }
    unfold listing at 1, used_entries. cbn [List.filter flat_map]. destruct (Z.eqb_spec e.1 0) as [E0|E0]; cbn [negb flat_map].
    + rewrite IH by (done || lia). rewrite <- (typed_nil 1 s1), El, typed_nil. unfold s1. by rewrite rewound_rewound.
    + rewrite <- app_assoc, (bind_Ok _ _ _ _ _ (ustat_result (dir ++ [47] ++ e.2) s1)). unfold s1 at 1. rewrite (stat_of_rewound _ _ _ _ _ Hr).
      destruct (stat_of s (dir ++ [47] ++ e.2)) as [st|].
      * unfold ls_line. rewrite (bind_Ok _ _ _ _ _ (printf_typed 1 _ _ _ s1 (line_render dir e.2 st (proj2 He)) Hw)).
        rewrite IH by (done || lia). unfold s1. by rewrite El, rewound_typed, typed_app, rewound_rewound.
      * rewrite (bind_Ok _ _ _ _ _ (printf_typed 1 _ _ _ s1 (cannot_render (dir ++ [47] ++ e.2)) Hw)).
        rewrite IH by (done || lia). unfold s1. by rewrite El, rewound_typed, typed_app, rewound_rewound.
Qed.

(** C37: [ls] of a directory prints one line for each entry in use, in their order:
    the name padded to 14 columns, and type, inode number and size of the file
    it names, or that the file cannot be examined; all descriptors are then as
    they were. *)
Theorem ls_directory fuel path es st fd s :
  u_files s path = Some (file_stream (flat_map entry_bytes es)) -> find_idx free_fd (u_fds s) = Some fd ->
  fstat path = Some st -> st_type st = T_DIR -> (length path <= 496)%nat -> Forall entry_ok es -> (length es < fuel)%nat -> u_full s 1 = false ->
  ls fuel path s = Ok tt (typed 1 (listing (stat_of (rewound (Z.of_nat fd) [] s)) path es) s).
Proof.
  intros Hfile Hfd Hst Ht Hlen Hok Hf Hw. set (str := file_stream (flat_map entry_bytes es)) in *. pose proof Hfd as Hfd'.
  apply find_idx_Some in Hfd' as (o & Ho & Hfree & _). destruct o; [done|]. pose proof (lookup_lt_Some _ _ _ Ho) as Hlt.
  assert (open path s = Ok (Z.of_nat fd) (rewound (Z.of_nat fd) str s)) as Hopen.
  { by rewrite open_result, Hfile, Hfd. }
  unfold ls. rewrite (bind_Ok _ _ _ _ _ Hopen). rewrite (proj2 (Z.ltb_ge (Z.of_nat fd) 0)) by lia. rewrite Hst, Ht.
  cbn [T_DIR T_FILE Z.eqb Pos.eqb]. rewrite (proj2 (Z.ltb_ge 512 _)) by (unfold DIRSIZ; lia).
  assert (reads (Z.of_nat fd) str (rewound (Z.of_nat fd) str s)) as Hr.
  { split; [lia|]. simpl. rewrite Nat2Z.id. by apply list_lookup_insert_eq. }
  rewrite (bind_Ok _ _ _ _ _ (ls_entries_ok path es fuel (Z.of_nat fd) _ Hf Hok Hr Hw)).
  replace (listing (stat_of (rewound (Z.of_nat fd) str s)) path es) with (listing (stat_of (rewound (Z.of_nat fd) [] s)) path es).
  - rewrite rewound_rewound, <- rewound_typed. by apply close_rewound.
  - apply flat_map_ext. intros e. by rewrite <- (stat_of_rewound _ _ [] _ _ Hr), rewound_rewound.
Qed.
End ls.

(** A directory with a free entry. *)
Definition demo_entries : list (Z * list Z) := [(1, bytes "."); (1, bytes ".."); (2, bytes "README"); (0, bytes "gone"); (7, bytes "cat")].
Definition demo_stat (path : list Z) : option stat :=
  if bool_decide (path = bytes "/") then Some (MkStat 1 1 1 1 512)
  else if bool_decide (path = bytes "//README") then Some (MkStat 2 1 2 1 2170) else if bool_decide (path = bytes "//cat") then Some (MkStat 2 1 7 1 13000) else None.
Definition demo_files (path : list Z) : option stream :=
  if bool_decide (path = bytes "/") then Some (file_stream (flat_map entry_bytes demo_entries))
  else if bool_decide (path = bytes "//README") then Some [] else if bool_decide (path = bytes "//cat") then Some [] else None.
Definition demo_user : ustate := MkUser [Some []; Some []; Some []; None; None] demo_files (fun _ => false) [].

Lemma ls_directory_witness : exists s', ls demo_stat 10 (bytes "/") demo_user = Ok tt s' /\
  output 1 s' = bytes "ls: cannot stat //." ++ [10] ++ bytes "ls: cannot stat //.." ++ [10] ++ bytes "README         2 2 2170" ++ [10] ++ bytes "cat            2 7 13000" ++ [10].
Proof.
  eexists. split.
  - apply (ls_directory demo_stat 10 (bytes "/") demo_entries (MkStat 1 1 1 1 512) 3 demo_user); [by vm_compute|done|by vm_compute|done|simpl; lia| |simpl; lia|done].
    repeat constructor; simpl; (lia || done).
  - by vm_compute.
Defined.
