(* ===== verification/Init.v ===== *)
(** * The first user program (init.c)

    [init] opens the console, then keeps a shell running: it starts a new one
    whenever the last one has ended and reaps the processes that were left to
    it.  The results of [fork] and [wait] are given with the state, in order. *)

From stdpp Require Import base numbers list list_numbers strings.
From S2P Require Import Prelude Kmonad Params KString.

Local Open Scope Z_scope.
Local Open Scope kern_scope.

(** ** The process *)

(** What it does; a fork carries what the child does. *)
#[local] Set Warnings "-register-all".
Inductive deed :=
| Printed (fd : Z) (msg : list Z)
| Mknod (path : list Z) (major minor : Z)
| Forked (pid : Z) (child : list deed)
| Exec (argv : list (list Z)) (fds : list (option (list Z)))
| Ended.

Record proc1 := MkProc1 {
  p1_fds : list (option (list Z));  (** the path of each open descriptor *)
  p1_nodes : list (list Z);  (** the files there are *)
  p1_forks : list Z;  (** results of [fork] in the parent *)
  p1_waits : list Z;  (** results of [wait] *)
  p1_trace : list deed
}.
#[export] Instance eta_proc1 : Eta proc1 := fun x => MkProc1 (p1_fds x) (p1_nodes x) (p1_forks x) (p1_waits x) (p1_trace x).
#[export] Instance set_p1_fds : Setter p1_fds := ltac:(derive_setter).
#[export] Instance set_p1_nodes : Setter p1_nodes := ltac:(derive_setter).
#[export] Instance set_p1_forks : Setter p1_forks := ltac:(derive_setter).
#[export] Instance set_p1_waits : Setter p1_waits := ltac:(derive_setter).
#[export] Instance set_p1_trace : Setter p1_trace := ltac:(derive_setter).

(** Why a process does not go on: it is gone, or no child has ended. *)
Inductive halt := Gone | Waiting.
Abbreviation IM := (K halt proc1).

(** ** System calls *)

Definition note (a : deed) : IM unit := modify (set p1_trace (fun l => l ++ [a])).
Definition say (msg : list Z) : IM unit := note (Printed 1 (msg ++ [10])).
Definition quit {A} : IM A := fun s => Susp Gone (set p1_trace (fun l => l ++ [Ended]) s) (fun _ => NoFuel).

Definition no_file (o : option (list Z)) : bool := match o with None => true | Some _ => false end.
Definition take_fd (path : list Z) : IM Z := fun s =>
  match find_idx no_file (p1_fds s) with
  | Some i => Ok (Z.of_nat i) (set p1_fds (insert i (Some path)) s)
  | None => Ok (-1) s
  end.
Definition iopen (path : list Z) : IM Z := fun s => if bool_decide (path ∈ p1_nodes s) then take_fd path s else Ok (-1) s.
Definition imknod (path : list Z) (major minor : Z) : IM unit :=
  note (Mknod path major minor) ;; modify (set p1_nodes (cons path)).
Definition idup (fd : Z) : IM Z := fun s =>
  match p1_fds s !! Z.to_nat fd with Some (Some path) => take_fd path s | _ => Ok (-1) s end.
Definition iexec (argv : list (list Z)) : IM unit := fun s =>
  match argv with
  | path :: _ =>
      if bool_decide (path ∈ p1_nodes s) then Susp Gone (set p1_trace (fun l => l ++ [Exec argv (p1_fds s)]) s) (fun _ => NoFuel) else Ok tt s
  | [] => Undef "argv"
  end.
Definition iwait : IM Z := fun s =>
  match p1_waits s with
  | w :: ws => Ok w (s <| p1_waits := ws |>)
  | [] => Susp Waiting s (fun _ => NoFuel)
  end.

(** [pid = fork()]: when it succeeds, [child] runs on a copy of the process. *)
Definition ifork (child : IM unit) : IM Z := fun s =>
  match p1_forks s with
  | [] => NoFuel
  | pid :: forks =>
      if pid <? 0 then Ok pid (s <| p1_forks := forks |>) else
      match child (s <| p1_trace := [] |>) with
      | Susp Gone s' _ => Ok pid (set p1_trace (fun l => l ++ [Forked pid (p1_trace s')]) (s <| p1_forks := forks |>))
      | _ => Undef "child returns"
      end
  end.

(** ** main *)

Definition console : list Z := bytes "console".

(** The child, from [pid == 0] on. *)
Definition init_child : IM unit :=
  iexec [bytes "sh"] ;;
  say (bytes "init: exec sh failed") ;;
  quit.

(** [while((wpid=wait()) >= 0 && wpid != pid)] *)
Fixpoint reap (fuel : nat) (pid : Z) : IM unit :=
  match fuel with
  | O => nofuel
  | S fuel =>
      let* wpid := iwait in
      if (0 <=? wpid) && negb (wpid =? pid) then say (bytes "zombie!") ;; reap fuel pid else ret tt
  end.

(** [for(;;)]; [fuel] bounds the rounds, [size] the processes reaped in one. *)
Fixpoint init_loop (fuel size : nat) : IM unit :=
  match fuel with
  | O => nofuel
  | S fuel =>
      say (bytes "init: starting sh") ;;
      let* pid := ifork init_child in
      if pid <? 0 then say (bytes "init: fork failed") ;; quit else
      reap size pid ;;
      init_loop fuel size
  end.

Definition init_main (fuel size : nat) : IM unit :=
  let* fd := iopen console in
  (if fd <? 0 then imknod console 1 1 ;; let* _ := iopen console in ret tt else ret tt) ;;
  let* _ := idup 0 in
  let* _ := idup 0 in
  init_loop fuel size.

(** ** What it does *)

(** A round: the shell it starts, the other processes that end before it, and
    the result of [wait] that ends the round, the shell or an error. *)
Record round := MkRound { rd_shell : Z; rd_orphans : list Z; rd_last : Z }.
Definition orphans (size : nat) (pid : Z) (ws : list Z) : Prop := Forall (fun w => 0 <= w /\ w <> pid) ws /\ (length ws < size)%nat.
Definition round_ok (size : nat) (r : round) : Prop :=
  0 <= rd_shell r /\ orphans size (rd_shell r) (rd_orphans r) /\ (rd_last r = rd_shell r \/ rd_last r < 0).
Definition ends (r : round) : list Z := rd_orphans r ++ [rd_last r].

Definition std (fds : list (option (list Z))) : list (option (list Z)) := replicate 3 (Some console) ++ drop 3 fds.
(** The child becomes the shell, with the console as its descriptors, or says
    that it cannot. *)
Definition shell (nodes : list (list Z)) (fds : list (option (list Z))) : list deed :=
  if bool_decide (bytes "sh" ∈ nodes) then [Exec [bytes "sh"] fds] else [Printed 1 (bytes "init: exec sh failed" ++ [10]); Ended].
Definition start (nodes : list (list Z)) (fds : list (option (list Z))) (pid : Z) : list deed :=
  [Printed 1 (bytes "init: starting sh" ++ [10]); Forked pid (shell nodes fds)].
Definition zombies (ws : list Z) : list deed := map (fun _ => Printed 1 (bytes "zombie!" ++ [10])) ws.
Definition round_deeds (nodes : list (list Z)) (fds : list (option (list Z))) (r : round) : list deed :=
  start nodes fds (rd_shell r) ++ zombies (rd_orphans r).
(** The last round: [fork] fails, or the shell has not ended. *)
Definition last_deeds (nodes : list (list Z)) (fds : list (option (list Z))) (pid : Z) (ws : list Z) : list deed :=
  if pid <? 0 then [Printed 1 (bytes "init: starting sh" ++ [10]); Printed 1 (bytes "init: fork failed" ++ [10]); Ended]
  else start nodes fds pid ++ zombies ws.

(** More of the trace, and results used up. *)
Definition did (l : list deed) (s : proc1) : proc1 := set p1_trace (fun t => t ++ l) s.

Lemma did_did l l' s : did l' (did l s) = did (l ++ l') s.
Proof. unfold did, set, set_p1_trace. simpl. by rewrite app_assoc. Qed.
Lemma did_nil s : did [] s = s.
Proof. unfold did, set, set_p1_trace. destruct s. simpl. by rewrite app_nil_r. Qed.

Lemma iwait_next w ws s : p1_waits s = w :: ws -> iwait s = Ok w (s <| p1_waits := ws |>).
Proof. intros E. unfold iwait. by rewrite E. Qed.

Lemma reap_all ws pid w : w = pid \/ w < 0 -> forall fuel rest s, orphans fuel pid ws ->
  p1_waits s = ws ++ w :: rest -> reap fuel pid s = Ok tt (did (zombies ws) (s <| p1_waits := rest |>)).
Proof.
  intros Hlast. induction ws as [|w' ws IH]; intros [|fuel] rest s [Hok Hf] Hw; try (simpl in Hf; lia); cbn [reap]; rewrite (bind_Ok _ _ _ _ _ (iwait_next _ _ _ Hw)).
  - assert ((0 <=? w) && negb (w =? pid) = false) as ->; [|by rewrite did_nil].
    apply andb_false_iff. destruct Hlast as [-> |Hneg]; [right; by rewrite Z.eqb_refl|left; by apply Z.leb_gt].
  - apply Forall_cons in Hok as [[Hw0 Hne] Hok]. rewrite (proj2 (Z.leb_le 0 w')), (proj2 (Z.eqb_neq w' pid)) by done. cbn [andb negb].
    set (s1 := set p1_trace (fun l => l ++ [Printed 1 (bytes "zombie!" ++ [10])]) (s <| p1_waits := ws ++ w :: rest |>)).
    rewrite (bind_Ok (say (bytes "zombie!")) _ _ tt s1 eq_refl). rewrite (IH fuel rest s1); [|split; [done|simpl in Hf; lia]|done].
    f_equal. unfold did, s1, zombies, set, set_p1_trace. simpl. by rewrite <- app_assoc.
Qed.

Lemma reap_blocks ws pid : forall fuel s, orphans fuel pid ws -> p1_waits s = ws ->
  exists k, reap fuel pid s = Susp Waiting (did (zombies ws) (s <| p1_waits := [] |>)) k.
Proof.
  induction ws as [|w ws IH]; intros [|fuel] s [Hok Hf] Hw; try (simpl in Hf; lia); cbn [reap].
  - unfold bind, iwait. rewrite Hw. eexists. rewrite did_nil. destruct s. simpl in *. by subst.
  - rewrite (bind_Ok _ _ _ _ _ (iwait_next _ _ _ Hw)). apply Forall_cons in Hok as [[Hw0 Hne] Hok]. rewrite (proj2 (Z.leb_le 0 w)), (proj2 (Z.eqb_neq w pid)) by done. cbn [andb negb].
    set (s1 := set p1_trace (fun l => l ++ [Printed 1 (bytes "zombie!" ++ [10])]) (s <| p1_waits := ws |>)).
    rewrite (bind_Ok (say (bytes "zombie!")) _ _ tt s1 eq_refl). destruct (IH fuel s1) as [k E]; [split; [done|simpl in Hf; lia]|done|].
    exists k. rewrite E. f_equal. unfold did, s1, zombies, set, set_p1_trace. simpl. by rewrite <- app_assoc.
Qed.

Lemma init_child_does s : exists s' k, init_child (s <| p1_trace := [] |>) = Susp Gone s' k /\ p1_trace s' = shell (p1_nodes s) (p1_fds s).
Proof.
  unfold init_child, shell, iexec, bind. simpl. case_bool_decide; eexists _, _; split; try reflexivity.
Qed.

Lemma ifork_starts pid forks s : 0 <= pid -> p1_forks s = pid :: forks ->
  ifork init_child s = Ok pid (did [Forked pid (shell (p1_nodes s) (p1_fds s))] (s <| p1_forks := forks |>)).
Proof.
  intros Hp Hf. unfold ifork. rewrite Hf, (proj2 (Z.ltb_ge pid 0)) by done. destruct (init_child_does s) as (s' & k & -> & <-). done.
Qed.

Lemma init_rounds size rs : forall fuel forks rest s, Forall (round_ok size) rs ->
  p1_forks s = map rd_shell rs ++ forks -> p1_waits s = flat_map ends rs ++ rest ->
  init_loop (length rs + fuel) size s =
  init_loop fuel size (did (flat_map (round_deeds (p1_nodes s) (p1_fds s)) rs) (s <| p1_forks := forks |> <| p1_waits := rest |>)).
Proof.
  induction rs as [|r rs IH]; intros fuel forks rest s Hok Hf Hw; cbn [length Nat.add map flat_map app] in *.
  { f_equal. rewrite did_nil. destruct s. simpl in *. by subst. }
  apply Forall_cons in Hok as [(Hp & Hws & Hl) Hok]. cbn [init_loop].
  set (s1 := did [Printed 1 (bytes "init: starting sh" ++ [10])] s). rewrite (bind_Ok (say (bytes "init: starting sh")) _ s tt s1 eq_refl).
  rewrite (bind_Ok _ _ _ _ _ (ifork_starts (rd_shell r) (map rd_shell rs ++ forks) s1 Hp Hf)), (proj2 (Z.ltb_ge (rd_shell r) 0)) by done.
  unfold ends at 1 in Hw. rewrite <- !app_assoc in Hw. cbn [app] in Hw.
  match goal with |- bind (reap size (rd_shell r)) _ ?x = _ => set (s2 := x) end.
  rewrite (bind_Ok _ _ _ _ _ (reap_all (rd_orphans r) (rd_shell r) _ Hl size (flat_map ends rs ++ rest) s2 Hws Hw)). rewrite (IH fuel forks rest) by done.
  f_equal. unfold s2, s1, did, set, set_p1_trace, set_p1_forks, set_p1_waits, round_deeds, start. simpl. by rewrite <- !app_assoc.
Qed.

(** Descriptors 0 to 2 are the console, which is made when it is not there. *)
Lemma init_console fuel size fds nodes forks waits : (3 <= length fds)%nat -> Forall (fun o => o = None) fds ->
  init_main fuel size (MkProc1 fds nodes forks waits []) =
  init_loop fuel size (MkProc1 (std fds) (if bool_decide (console ∈ nodes) then nodes else console :: nodes) forks waits
    (if bool_decide (console ∈ nodes) then [] else [Mknod console 1 1])).
Proof.
  intros Hl Hn. destruct fds as [|f0 [|f1 [|f2 fds]]]; simpl in Hl; try lia. rewrite !Forall_cons in Hn. destruct Hn as (-> & -> & -> & _).
  unfold init_main, bind at 1, iopen at 1. cbn [p1_nodes]. case_bool_decide as Hc; [done|].
  done.
Qed.

(** C38: [init] keeps a shell running: with the console as descriptors 0 to 2,
    made with [mknod] when it was not there, it starts a shell, and whenever
    [wait] returns that shell, or an error, it starts the next one, after
    reporting the other processes that ended in between.  As long as the last
    shell runs it waits.  It ends only when a [fork] fails, and then says so:
    no shell is started after that. *)
Theorem init_keeps_shell size fds nodes rs pid ws : (3 <= length fds)%nat -> Forall (fun o => o = None) fds ->
  Forall (round_ok size) rs -> (0 <= pid -> orphans size pid ws) ->
  let there := bool_decide (console ∈ nodes) in
  let nodes' := if there then nodes else console :: nodes in
  exists s' k,
    init_main (S (length rs)) size (MkProc1 fds nodes (map rd_shell rs ++ [pid]) (flat_map ends rs ++ ws) []) =
      Susp (if pid <? 0 then Gone else Waiting) s' k /\
    p1_fds s' = std fds /\
    p1_trace s' = (if there then [] else [Mknod console 1 1]) ++ flat_map (round_deeds nodes' (std fds)) rs ++ last_deeds nodes' (std fds) pid ws.
Proof.
  intros Hl Hn Hok Hws there nodes'. rewrite init_console by done. fold there nodes'. rewrite <- (Nat.add_1_r (length rs)).
  rewrite (init_rounds size rs 1 [pid] ws) by done. cbn [init_loop p1_nodes p1_fds]. unfold last_deeds.
  match goal with |- context [bind (say ?m) _ ?x] => set (s0 := x); rewrite (bind_Ok (say m) _ s0 tt (did [Printed 1 (m ++ [10])] s0) eq_refl) end.
  set (s1 := did [Printed 1 (bytes "init: starting sh" ++ [10])] s0). destruct (Z.ltb_spec pid 0) as [Hp|Hp].
  - rewrite (bind_Ok (ifork init_child) _ s1 pid (s1 <| p1_forks := [] |>)); [|unfold ifork, s1, s0, did; cbn; by rewrite (proj2 (Z.ltb_lt pid 0) Hp)].
    rewrite (proj2 (Z.ltb_lt pid 0)) by done. eexists _, _. split; [reflexivity|]. split; [done|].
    unfold s1, s0, did, set, set_p1_trace. simpl. by rewrite <- !app_assoc.
  - rewrite (bind_Ok _ _ _ _ _ (ifork_starts pid [] s1 Hp eq_refl)), (proj2 (Z.ltb_ge pid 0)) by done.
    match goal with |- context [bind (reap size pid) _ ?x] => set (s2 := x) end.
    destruct (reap_blocks ws pid size s2 (Hws Hp) eq_refl) as (k & E). unfold bind. rewrite E. eexists _, _. split; [reflexivity|]. split; [done|].
    unfold s2, s1, s0, did, start, set, set_p1_trace. simpl. by rewrite <- !app_assoc.
Qed.

Lemma init_keeps_shell_witness :
  let s0 := MkProc1 (replicate 16 None) [bytes "sh"] [2] [7; 2] [] in
  let first := [Mknod console 1 1; Printed 1 (bytes "init: starting sh" ++ [10]); Forked 2 [Exec [bytes "sh"] (std (replicate 16 None))];
    Printed 1 (bytes "zombie!" ++ [10]); Printed 1 (bytes "init: starting sh" ++ [10])] in
  (exists s' k, init_main 2 5 (s0 <| p1_forks := [2; 9] |>) = Susp Waiting s' k /\
     p1_trace s' = first ++ [Forked 9 [Exec [bytes "sh"] (std (replicate 16 None))]]) /\
  (exists s' k, init_main 2 5 (s0 <| p1_forks := [2; -1] |>) = Susp Gone s' k /\
     p1_trace s' = first ++ [Printed 1 (bytes "init: fork failed" ++ [10]); Ended]).
Proof.
  split; [destruct (init_keeps_shell 5 (replicate 16 None) [bytes "sh"] [MkRound 2 [7] 2] 9 []) as (s' & k & E & _ & Ht)
         |destruct (init_keeps_shell 5 (replicate 16 None) [bytes "sh"] [MkRound 2 [7] 2] (-1) []) as (s' & k & E & _ & Ht)];
    try (exists s', k; split; [exact E|]; rewrite Ht; reflexivity);
    [simpl; lia|by repeat constructor|repeat constructor; simpl; lia|intros _; repeat constructor; simpl; lia
    |simpl; lia|by repeat constructor|repeat constructor; simpl; lia|intros _; repeat constructor; simpl; lia].
Defined.
