(* ===== verification/Smallprog.v ===== *)
(** * Small programs (rm.c, mkdir.c, ln.c, kill.c, zombie.c, forktest.c)

    Programs that do little more than a few system calls.  The results of the
    calls are given, in order; a program leaves the trace of its calls with
    their results, and of what it printed. *)

From stdpp Require Import base numbers list list_numbers strings.
From S2P Require Import Prelude Kmonad Params KString User.

Local Open Scope Z_scope.
Local Open Scope kern_scope.

Inductive scall :=
| Unlink (path : list Z) | Mkdir (path : list Z) | Link (old new : list Z) | Kill (pid : Z) | Sleep (n : Z) | ForkCall | WaitCall.
Inductive event := Called (c : scall) (r : Z) | Told (fd : Z) (msg : list Z).

Record prog := MkProg { g_results : list Z; g_trace : list event }.
#[export] Instance eta_prog : Eta prog := fun x => MkProg (g_results x) (g_trace x).
#[export] Instance set_g_results : Setter g_results := ltac:(derive_setter).
#[export] Instance set_g_trace : Setter g_trace := ltac:(derive_setter).

(** A program stops when it ends, or when a call has not returned yet. *)
Inductive stop := Finished | InCall (c : scall).
Abbreviation GM := (K stop prog).

Definition call (c : scall) : GM Z := fun s =>
  match g_results s with
  | [] => Susp (InCall c) s (fun _ => NoFuel)
  | r :: rs => Ok r (MkProg rs (g_trace s ++ [Called c r]))
  end.
Definition tell (fd : Z) (msg : list Z) : GM unit := modify (set g_trace (fun l => l ++ [Told fd (msg ++ [10])])).
Definition finish {A} : GM A := fun s => Susp Finished s (fun _ => NoFuel).

(** ** rm.c and mkdir.c *)

(** [for(i = 1; i < argc; i++) if(call(argv[i]) < 0){ printf(...); break; }] *)
Fixpoint rm_loop (args : list (list Z)) : GM unit :=
  match args with
  | [] => ret tt
  | a :: args =>
      let* r := call (Unlink a) in
      if r <? 0 then tell 2 (bytes "rm: " ++ a ++ bytes " failed to delete") else rm_loop args
  end.
Definition rm_main (args : list (list Z)) : GM unit :=
  match args with
  | [] => tell 2 (bytes "Usage: rm files...") ;; finish
  | _ => rm_loop args ;; finish
  end.

Fixpoint mkdir_loop (args : list (list Z)) : GM unit :=
  match args with
  | [] => ret tt
  | a :: args =>
      let* r := call (Mkdir a) in
      if r <? 0 then tell 2 (bytes "mkdir: " ++ a ++ bytes " failed to create") else mkdir_loop args
  end.
Definition mkdir_main (args : list (list Z)) : GM unit :=
  match args with
  | [] => tell 2 (bytes "Usage: mkdir files...") ;; finish
  | _ => mkdir_loop args ;; finish
  end.

(** ** ln.c, kill.c, zombie.c *)

Definition ln_main (args : list (list Z)) : GM unit :=
  match args with
  | [old; new] =>
      let* r := call (Link old new) in
      (if r <? 0 then tell 2 (bytes "link " ++ old ++ bytes " " ++ new ++ bytes ": failed") else ret tt) ;;
      finish
  | _ => tell 2 (bytes "Usage: ln old new") ;; finish
  end.

Definition kill_main (args : list (list Z)) : GM unit :=
  match args with
  | [] => tell 2 (bytes "usage: kill pid...") ;; finish
  | _ => for_each args (fun a => let* _ := call (Kill (atoi a)) in ret tt) ;; finish
  end.

Definition zombie_main : GM unit :=
  let* pid := call ForkCall in
  (if 0 <? pid then let* _ := call (Sleep 5) in ret tt else ret tt) ;;
  finish.

(** ** forktest.c *)

Definition FORKS : nat := 1000.

(** [for(n=0; n<N; n++)]: the number of children; a child ends. *)
Fixpoint fork_loop (k : nat) (n : nat) : GM nat :=
  match k with
  | O => ret n
  | S k =>
      let* pid := call ForkCall in
      if pid <? 0 then ret n else
      if pid =? 0 then finish else fork_loop k (S n)
  end.

(** [for(; n > 0; n--)] *)
Fixpoint wait_loop (n : nat) : GM unit :=
  match n with
  | O => ret tt
  | S n =>
      let* r := call WaitCall in
      if r <? 0 then tell 1 (bytes "wait stopped early") ;; finish else wait_loop n
  end.

Definition forktest : GM unit :=
  tell 1 (bytes "fork test") ;;
  let* n := fork_loop FORKS 0 in
  if (n =? FORKS)%nat then tell 1 (bytes "fork claimed to work N times!") ;; finish else
  wait_loop n ;;
  let* r := call WaitCall in
  if negb (r =? -1) then tell 1 (bytes "wait got too many") ;; finish else
  tell 1 (bytes "fork test OK").

Definition forktest_main : GM unit := forktest ;; finish.

(** ** What they do *)

(** The calls [c a] with their results, up to the first that fails, which is
    reported. *)
Fixpoint until_failure (c : list Z -> scall) (msg : list Z -> list Z) (args : list (list Z * Z)) : list event :=
  match args with
  | [] => []
  | (a, r) :: args => Called (c a) r :: (if r <? 0 then [Told 2 (msg a ++ [10])] else until_failure c msg args)
  end.

Lemma rm_loop_does l : forall s, g_results s = map snd l -> exists s',
  rm_loop (map fst l) s = Ok tt s' /\ g_trace s' = g_trace s ++ until_failure Unlink (fun a => bytes "rm: " ++ a ++ bytes " failed to delete") l.
Proof.
  induction l as [|[a r] l IH]; intros s Hs; cbn [map rm_loop until_failure fst snd] in *.
  { exists s. by rewrite app_nil_r. }
  set (s1 := MkProg (map snd l) (g_trace s ++ [Called (Unlink a) r])). assert (call (Unlink a) s = Ok r s1) as E by (unfold call; by rewrite Hs).
  rewrite (bind_Ok _ _ _ _ _ E). destruct (r <? 0).
  - eexists. split; [reflexivity|]. simpl. by rewrite <- app_assoc.
  - destruct (IH s1 eq_refl) as (s' & -> & Ht). exists s'. split; [done|]. rewrite Ht. simpl. by rewrite <- app_assoc.
Qed.

Lemma mkdir_loop_does l : forall s, g_results s = map snd l -> exists s',
  mkdir_loop (map fst l) s = Ok tt s' /\ g_trace s' = g_trace s ++ until_failure Mkdir (fun a => bytes "mkdir: " ++ a ++ bytes " failed to create") l.
Proof.
  induction l as [|[a r] l IH]; intros s Hs; cbn [map mkdir_loop until_failure fst snd] in *.
  { exists s. by rewrite app_nil_r. }
  set (s1 := MkProg (map snd l) (g_trace s ++ [Called (Mkdir a) r])). assert (call (Mkdir a) s = Ok r s1) as E by (unfold call; by rewrite Hs).
  rewrite (bind_Ok _ _ _ _ _ E). destruct (r <? 0).
  - eexists. split; [reflexivity|]. simpl. by rewrite <- app_assoc.
  - destruct (IH s1 eq_refl) as (s' & -> & Ht). exists s'. split; [done|]. rewrite Ht. simpl. by rewrite <- app_assoc.
Qed.

(** rm and mkdir do their call for each argument in order, and stop with a
    message at the first that fails. *)
Theorem rm_mkdir_stop a l : exists s k s' k',
  rm_main (map fst (a :: l)) (MkProg (map snd (a :: l)) []) = Susp Finished s k /\
  g_trace s = until_failure Unlink (fun a => bytes "rm: " ++ a ++ bytes " failed to delete") (a :: l) /\
  mkdir_main (map fst (a :: l)) (MkProg (map snd (a :: l)) []) = Susp Finished s' k' /\
  g_trace s' = until_failure Mkdir (fun a => bytes "mkdir: " ++ a ++ bytes " failed to create") (a :: l).
Proof.
  destruct (rm_loop_does (a :: l) (MkProg (map snd (a :: l)) []) eq_refl) as (s & E & T).
  destruct (mkdir_loop_does (a :: l) (MkProg (map snd (a :: l)) []) eq_refl) as (s' & E' & T').
  exists s. eexists. exists s'. eexists. split_and!; [|exact T| |exact T'].
  - change (rm_main (map fst (a :: l))) with (bind (rm_loop (map fst (a :: l))) (fun _ => @finish unit)). by rewrite (bind_Ok _ _ _ _ _ E).
  - change (mkdir_main (map fst (a :: l))) with (bind (mkdir_loop (map fst (a :: l))) (fun _ => @finish unit)). by rewrite (bind_Ok _ _ _ _ _ E').
Qed.

(** The trace [l] of one call with its results. *)
Definition calls (c : scall) (rs : list Z) : list event := map (Called c) rs.

Lemma fork_loop_forks pids : forall k n rest s, Forall (fun p => 0 < p) pids -> (length pids < k)%nat -> g_results s = pids ++ -1 :: rest ->
  fork_loop k n s = Ok (n + length pids)%nat (MkProg rest (g_trace s ++ calls ForkCall (pids ++ [-1]))).
Proof.
  induction pids as [|p pids IH]; intros [|k] n rest s Hp Hk Hs; try (simpl in Hk; lia); cbn [fork_loop].
  - rewrite (bind_Ok _ _ s (-1) (MkProg rest (g_trace s ++ [Called ForkCall (-1)]))) by (unfold call; by rewrite Hs). by rewrite Nat.add_0_r.
  - apply Forall_cons in Hp as [Hp0 Hp]. rewrite (bind_Ok _ _ s p (MkProg (pids ++ -1 :: rest) (g_trace s ++ [Called ForkCall p]))) by (unfold call; by rewrite Hs).
    rewrite (proj2 (Z.ltb_ge p 0)), (proj2 (Z.eqb_neq p 0)) by lia. rewrite (IH k (S n) rest) by (done || simpl in Hk; lia). cbn [g_trace length].
    f_equal; [lia|]. by rewrite <- app_assoc.
Qed.

Lemma wait_loop_waits rs : forall rest s, Forall (fun r => 0 <= r) rs -> g_results s = rs ++ rest ->
  wait_loop (length rs) s = Ok tt (MkProg rest (g_trace s ++ calls WaitCall rs)).
Proof.
  induction rs as [|r rs IH]; intros rest s Hr Hs; cbn [wait_loop length].
  - cbn in *. subst. rewrite app_nil_r. by destruct s.
  - apply Forall_cons in Hr as [Hr0 Hr]. rewrite (bind_Ok _ _ s r (MkProg (rs ++ rest) (g_trace s ++ [Called WaitCall r]))) by (unfold call; by rewrite Hs).
    rewrite (proj2 (Z.ltb_ge r 0)) by lia. rewrite (IH rest) by done. cbn [g_trace]. by rewrite <- app_assoc.
Qed.

(** When the kernel runs out of processes before a thousand forks and lets
    every child be waited for, forktest reports success if it has no more
    children then, and a failure if it has. *)
Theorem forktest_passes pids rs : Forall (fun p => 0 < p) pids -> (length pids < FORKS)%nat -> Forall (fun r => 0 <= r) rs -> length rs = length pids ->
  forall r, exists s k, forktest_main (MkProg (pids ++ -1 :: rs ++ [r]) []) = Susp Finished s k /\
    g_trace s = Told 1 (bytes "fork test" ++ [10]) :: calls ForkCall (pids ++ [-1]) ++ calls WaitCall (rs ++ [r]) ++
      [Told 1 ((if r =? -1 then bytes "fork test OK" else bytes "wait got too many") ++ [10])].
Proof.
  intros Hp Hlen Hr Hl r. unfold forktest_main, forktest. set (s0 := MkProg (pids ++ -1 :: rs ++ [r]) [Told 1 (bytes "fork test" ++ [10])]).
  assert (fork_loop FORKS 0 s0 = Ok (length rs) (MkProg (rs ++ [r]) (g_trace s0 ++ calls ForkCall (pids ++ [-1])))) as E1.
  { rewrite Hl. by rewrite (fork_loop_forks pids FORKS 0 (rs ++ [r])). }
  set (s1 := MkProg _ _) in E1. pose proof (wait_loop_waits rs [r] s1 Hr eq_refl) as E2. set (s2 := MkProg [r] _) in E2.
  assert (tell 1 (bytes "fork test") (MkProg (pids ++ -1 :: rs ++ [r]) []) = Ok tt s0) as E0 by done.
  unfold bind. rewrite E0. cbn [obind]. rewrite E1. cbn [obind]. rewrite (proj2 (Nat.eqb_neq (length rs) FORKS)) by lia. rewrite E2.
  unfold call, s2. cbn [obind g_results].
  destruct (r =? -1); cbn [negb]; eexists _, _; (split; [reflexivity|]); simpl; unfold calls; by rewrite !map_app, <- !app_assoc.
Qed.

Lemma forktest_passes_witness : exists s k, forktest_main (MkProg ([4; 5] ++ -1 :: [5; 4] ++ [-1]) []) = Susp Finished s k /\
  last (g_trace s) = Some (Told 1 (bytes "fork test OK" ++ [10])).
Proof.
  destruct (forktest_passes [4; 5] [5; 4]) with (r := -1) as (s & k & E & T); [repeat constructor; lia|simpl; unfold FORKS; lia|repeat constructor; lia|done|].
  exists s, k. split; [exact E|]. rewrite T. reflexivity.
Defined.
