(* ===== verification/Umalloc.v ===== *)
(** * The memory allocator of user programs (umalloc.c)

    The free blocks form a circular list through the user's memory, in order
    of address, that starts at the static header [base]; a block is a header
    of 8 bytes, with the pointer to the next free block and the size of the
    block in units of 8 bytes, and the memory after it. *)

From stdpp Require Import base numbers list list_numbers gmap strings.
From S2P Require Import Prelude Kmonad KString.

Local Open Scope Z_scope.
Local Open Scope kern_scope.

Record heap := MkHeap {
  h_mem : mem;
  h_freep : Z;  (** 0 before the first call *)
  h_brk : Z;  (** end of the process's memory *)
  h_max : Z  (** how far the kernel can extend it *)
}.
#[export] Instance eta_heap : Eta heap := fun x => MkHeap (h_mem x) (h_freep x) (h_brk x) (h_max x).
#[export] Instance set_h_mem : Setter h_mem := ltac:(derive_setter).
#[export] Instance set_h_freep : Setter h_freep := ltac:(derive_setter).
#[export] Instance set_h_brk : Setter h_brk := ltac:(derive_setter).

Abbreviation HM := (K unit heap).

(** ** The code *)

Definition hptr (m : mem) (a : Z) : Z := load32 m a.
Definition hsize (m : mem) (a : Z) : Z := load32 m (a + 4).

Definition get_ptr (a : Z) : HM Z := gets (fun h => hptr (h_mem h) a).
Definition get_size (a : Z) : HM Z := gets (fun h => hsize (h_mem h) a).
Definition set_ptr (a v : Z) : HM unit := modify (set h_mem (fun m => store32 m a v)).
Definition set_size (a v : Z) : HM unit := modify (set h_mem (fun m => store32 m (a + 4) v)).
Definition set_freep (a : Z) : HM unit := modify (fun h => h <| h_freep := a |>).

(** The system call: the old end of memory, or -1.  As in [growproc], a
    negative [n] shrinks the process, unless the new size wraps around. *)
Definition sbrk (n : Z) : HM Z := fun h =>
  if 0 <? n then
    if h_max h <? h_brk h + n then Ok (-1) h else Ok (h_brk h) (h <| h_brk := h_brk h + n |>)
  else
    let newsz := u32 (h_brk h + n) in
    if h_brk h <=? newsz then Ok (h_brk h) h
    else if newsz =? 0 then Ok (-1) h else Ok (h_brk h) (h <| h_brk := newsz |>).

(** The [for] loop of [free]: the free block before [bp]. *)
Fixpoint free_find (fuel : nat) (bp p : Z) : HM Z :=
  let* nx := get_ptr p in
  if (p <? bp) && (bp <? nx) then ret p else
  if (nx <=? p) && ((p <? bp) || (bp <? nx)) then ret p else
  match fuel with O => nofuel | S fuel => free_find fuel bp nx end.

Definition free (fuel : nat) (ap : Z) : HM unit :=
  let bp := u32 (ap - 8) in
  let* fp := gets h_freep in
  let* p := free_find fuel bp fp in
  let* bsz := get_size bp in
  let* q := get_ptr p in
  (if u32 (bp + 8 * bsz) =? q then
     let* qsz := get_size q in
     set_size bp (bsz + qsz) ;;
     let* qq := get_ptr q in
     set_ptr bp qq
   else set_ptr bp q) ;;
  let* psz := get_size p in
  (if u32 (p + 8 * psz) =? bp then
     let* bsz := get_size bp in
     set_size p (psz + bsz) ;;
     let* b := get_ptr bp in
     set_ptr p b
   else set_ptr p bp) ;;
  set_freep p.

Definition morecore (fuel : nat) (nu : Z) : HM Z :=
  let nu := if nu <? 4096 then 4096 else nu in
  let* p := sbrk (i32 (nu * 8)) in
  if p =? -1 then ret 0 else
  set_size p nu ;;
  free fuel (u32 (p + 8)) ;;
  gets h_freep.

Section malloc.
Context (base : Z).

(** The [for] loop of [malloc]; [ffuel] is the fuel of [free] in [morecore]. *)
Fixpoint malloc_loop (ffuel fuel : nat) (nunits prevp p : Z) : HM Z :=
  let* sz := get_size p in
  if nunits <=? sz then
    let* q := (if sz =? nunits then let* nx := get_ptr p in set_ptr prevp nx ;; ret p
               else
                 set_size p (sz - nunits) ;;
                 let q := u32 (p + 8 * (sz - nunits)) in
                 set_size q nunits ;;
                 ret q) in
    set_freep prevp ;;
    ret (u32 (q + 8))
  else
    let* fp := gets h_freep in
    let* o := (if p =? fp then let* r := morecore ffuel nunits in ret (if r =? 0 then None else Some r)
               else ret (Some p)) in
    match o with
    | None => ret 0
    | Some p =>
        let* nx := get_ptr p in
        match fuel with O => nofuel | S fuel => malloc_loop ffuel fuel nunits p nx end
    end.

Definition units (nbytes : Z) : Z := u32 (u32 (nbytes + 8 - 1) / 8 + 1).

Definition malloc (fuel : nat) (nbytes : Z) : HM Z :=
  let nunits := units nbytes in
  let* fp := gets h_freep in
  (if fp =? 0 then
     set_ptr base base ;;
     set_freep base ;;
     set_size base 0
   else ret tt) ;;
  let* prevp := gets h_freep in
  let* p := get_ptr prevp in
  malloc_loop fuel fuel nunits prevp p.
End malloc.

(** ** The free list

    [nodes m l e]: the headers of the blocks [l] (address and size) are
    linked one after the other and the last one to [e]. *)

Abbreviation block := (Z * Z)%type.

Definition first (l : list block) (e : Z) : Z := match l with [] => e | b :: _ => b.1 end.

Fixpoint nodes (m : mem) (l : list block) (e : Z) : Prop :=
  match l with
  | [] => True
  | (a, s) :: l => hptr m a = first l e /\ hsize m a = s /\ nodes m l e
  end.

Lemma nodes_app m l1 l2 e : nodes m (l1 ++ l2) e <-> nodes m l1 (first l2 e) /\ nodes m l2 e.
Proof.
  induction l1 as [|[a s] l1 IH]; simpl; [tauto|]. rewrite IH.
  assert (first (l1 ++ l2) e = first l1 (first l2 e)) as -> by (by destruct l1). tauto.
Qed.

(** A circular list, and its rotations. *)
Definition cyc (m : mem) (l : list block) : Prop := nodes m l (first l 0).

Lemma cyc_rot m l1 l2 : cyc m (l1 ++ l2) -> cyc m (l2 ++ l1).
Proof.
  unfold cyc. destruct l1 as [|b l1]; [by rewrite app_nil_r|]. destruct l2 as [|c l2]; [by rewrite app_nil_r|].
  rewrite !nodes_app. simpl. tauto.
Qed.

(** The blocks lie one after the other, from [lo] to [hi]. *)
Fixpoint spread (lo : Z) (l : list block) (hi : Z) : Prop :=
  match l with
  | [] => lo <= hi
  | (a, s) :: l => lo <= a /\ 1 <= s /\ spread (a + 8 * s) l hi
  end.

Lemma spread_app lo l1 l2 hi :
  spread lo (l1 ++ l2) hi <-> exists mid, spread lo l1 mid /\ spread mid l2 hi.
Proof.
  revert lo. induction l1 as [|[a s] l1 IH]; intros lo; simpl.
  - split; [by exists lo|]. intros (mid & H1 & H2). destruct l2 as [|[b t] l2]; simpl in *; intuition lia.
  - rewrite IH. split; [intros (? & ? & mid & ? & ?)|intros (mid & (? & ? & ?) & ?)]; eauto 6.
Qed.

Lemma spread_le lo l hi : spread lo l hi -> lo <= hi.
Proof. revert lo. induction l as [|[a s] l IH]; intros lo; simpl; [done|]. intros (H1 & H2 & H3%IH). lia. Qed.

Lemma spread_in lo l hi a s : spread lo l hi -> (a, s) ∈ l -> lo <= a /\ 1 <= s /\ a + 8 * s <= hi.
Proof.
  intros H Hin. apply list_elem_of_split in Hin as (l1 & l2 & ->). apply spread_app in H as (mid & H1 & H2 & H3 & H4).
  apply spread_le in H1, H4. lia.
Qed.

(** Headers that do not overlap. *)
Definition apart (a b : Z) : Prop := a + 8 <= b \/ b + 8 <= a.

Section stores.
Context (m : mem) (a b v : Z).
Lemma hptr_put : hptr (store32 m a v) a = u32 v.
Proof. apply load32_store32. Qed.
Lemma hsize_put : hsize (store32 m (a + 4) v) a = u32 v.
Proof. apply load32_store32. Qed.
Lemma hsize_put_ptr : hsize (store32 m a v) a = hsize m a.
Proof. apply load32_store32_ne. lia. Qed.
Lemma hptr_put_size : hptr (store32 m (a + 4) v) a = hptr m a.
Proof. apply load32_store32_ne. lia. Qed.
Hypothesis Hab : apart a b.
Lemma put_ptr_apart : hptr (store32 m a v) b = hptr m b /\ hsize (store32 m a v) b = hsize m b.
Proof. unfold apart in Hab. split; apply load32_store32_ne; lia. Qed.
Lemma put_size_apart : hptr (store32 m (a + 4) v) b = hptr m b /\ hsize (store32 m (a + 4) v) b = hsize m b.
Proof. unfold apart in Hab. split; apply load32_store32_ne; lia. Qed.
End stores.

(** [m] and [m'] agree on the header at [b]. *)
Definition same_header (m m' : mem) (b : Z) : Prop := hptr m' b = hptr m b /\ hsize m' b = hsize m b.

Lemma nodes_same m m' l e : (forall a s, (a, s) ∈ l -> same_header m m' a) -> nodes m l e -> nodes m' l e.
Proof.
  induction l as [|[a s] l IH]; simpl; [done|]. intros H (H1 & H2 & H3). destruct (H a s) as [E1 E2]; [by left|].
  split_and!; [congruence|congruence|]. apply IH; [|done]. intros b t Hb. apply (H b t). by right.
Qed.

(** Putting block [b] in front of a list, joined with its first block if they touch. *)
Definition join (b : block) (l : list block) : list block :=
  match l with
  | (c, t) :: l' => if b.1 + 8 * b.2 =? c then (b.1, b.2 + t) :: l' else b :: l
  | [] => [b]
  end.

Lemma first_join b l e : first (join b l) e = b.1.
Proof. destruct l as [|[c t] l]; simpl; [done|]. by destruct (_ =? c). Qed.

Lemma in_join b l : b.1 ∈ (join b l).*1.
Proof. destruct l as [|[c t] l]; simpl; [by left|]. case_match; by left. Qed.

(** The memory outside of header [a] is unchanged. *)
Definition only_header (m m' : mem) (a : Z) : Prop := forall x, ~ (a <= x < a + 8) -> load8 m' x = load8 m x.

Lemma only_header_same m m' a b : only_header m m' a -> apart a b -> same_header m m' b.
Proof.
  intros Ho Hab. unfold apart in Hab.
  split; unfold hptr, hsize, load32; f_equal; apply loads_ext; intros i Hi; apply Ho; simpl in Hi; lia.
Qed.

Lemma only_header_ptr m a v : only_header m (store32 m a v) a.
Proof. intros x Hx. apply load8_store32_ne. lia. Qed.
Lemma only_header_size m a v : only_header m (store32 m (a + 4) v) a.
Proof. intros x Hx. apply load8_store32_ne. lia. Qed.
Lemma only_header_trans m1 m2 m3 a : only_header m1 m2 a -> only_header m2 m3 a -> only_header m1 m3 a.
Proof. intros H1 H2 x Hx. by rewrite H2, H1. Qed.

(** The two [if] statements at the end of [free]. *)
Definition attach (a asz x : Z) : HM unit :=
  if u32 (a + 8 * asz) =? x then
    let* xsz := get_size x in
    set_size a (asz + xsz) ;;
    let* xx := get_ptr x in
    set_ptr a xx
  else set_ptr a x.

Lemma wp_attach a s l e h (Q : unit -> heap -> Prop) :
  nodes (h_mem h) l e -> hsize (h_mem h) a = s -> (forall b t, (b, t) ∈ l -> apart a b /\ 0 <= s + t < 2 ^ 32) ->
  0 <= a + 8 * s < 2 ^ 32 -> 0 <= e < 2 ^ 32 -> Forall (fun b => 0 <= b.1 < 2 ^ 32) l -> (l = [] -> a + 8 * s <> e) ->
  (forall m', nodes m' (join (a, s) l) e -> only_header (h_mem h) m' a -> Q tt (h <| h_mem := m' |>)) ->
  wp (attach a s (first l e)) Q h.
Proof.
  intros Hn Hs Hl Hend He Hr Hne HQ. unfold attach. rewrite u32_small by done.
  assert (forall v, nodes (store32 (h_mem h) a v) l e) as Hn1.
  { intros v. eapply nodes_same; [|exact Hn]. intros b t Hb. apply put_ptr_apart. by apply (Hl b t). }
  destruct l as [|[c t] l]; simpl first; cbn [join fst snd].
  - destruct (Z.eqb_spec (a + 8 * s) e) as [E|_]; [by destruct (Hne eq_refl)|]. apply wp_modify, HQ.
    + simpl. rewrite hptr_put, hsize_put_ptr, u32_small by done. done.
    + apply only_header_ptr.
  - apply Forall_cons in Hr as [Hc Hr]. simpl in Hc. destruct (Hl c t) as [Hap Hst]; [by left|].
    destruct (Z.eqb_spec (a + 8 * s) c) as [E|E].
    + destruct Hn as (N1 & N2 & N3). apply wp_bind, wp_gets. rewrite N2. apply wp_bind, wp_modify. apply wp_bind, wp_gets.
      simpl h_mem. set (m1 := store32 (h_mem h) (a + 4) (s + t)).
      destruct (put_size_apart (h_mem h) a c (s + t) Hap) as [P1 _]. fold m1 in P1. rewrite P1, N1.
      assert (0 <= first l e < 2 ^ 32) as Hf by (destruct l as [|[d u] l]; [done|]; by apply Forall_cons in Hr as [? _]).
      apply wp_modify, HQ.
      * simpl. rewrite (proj2 (Z.eqb_eq _ _) E). simpl. fold m1. rewrite hptr_put, u32_small by done.
        split_and!; [done| |].
        -- rewrite hsize_put_ptr. unfold m1. by rewrite hsize_put, u32_small by lia.
        -- eapply nodes_same; [|exact N3]. intros b u Hb. destruct (Hl b u) as [Hab _]; [by right|].
           unfold same_header. destruct (put_ptr_apart m1 a b (first l e) Hab) as [-> ->]. by apply put_size_apart.
      * eapply only_header_trans; [apply only_header_size|apply only_header_ptr].
    + apply wp_modify, HQ; [|apply only_header_ptr]. simpl. rewrite (proj2 (Z.eqb_neq _ _) E). simpl.
      rewrite hptr_put, hsize_put_ptr, u32_small by done. split_and!; [done|done|apply (Hn1 c)..].
Qed.

(** ** The heap as a row of blocks

    From [start] to the end of memory the heap is a row of blocks, each free
    ([true]) or in use, of a number of units. *)

Abbreviation row := (list (bool * Z)).

Fixpoint extent (a : Z) (H : row) : Z :=
  match H with [] => a | (_, s) :: H => extent (a + 8 * s) H end.

Fixpoint frees (a : Z) (H : row) : list block :=
  match H with
  | [] => []
  | (f, s) :: H => (if f : bool then [(a, s)] else []) ++ frees (a + 8 * s) H
  end.

Fixpoint used (a : Z) (H : row) : list block :=
  match H with
  | [] => []
  | (f, s) :: H => (if f : bool then [] else [(a, s)]) ++ used (a + 8 * s) H
  end.

Definition sizes (H : row) : Prop := Forall (fun b => 1 <= b.2) H.

(** Free blocks that touch become one. *)
Fixpoint coalesce (H : row) : row :=
  match H with
  | [] => []
  | (true, s) :: H => match coalesce H with (true, t) :: H' => (true, s + t) :: H' | H' => (true, s) :: H' end
  | (false, s) :: H => (false, s) :: coalesce H
  end.

(** No two free blocks touch. *)
Fixpoint coalesced (H : row) : Prop :=
  match H with
  | (true, _) :: (((true, _) :: _)) => False
  | _ :: H => coalesced H
  | [] => True
  end.

Lemma extent_app a H1 H2 : extent a (H1 ++ H2) = extent (extent a H1) H2.
Proof. revert a. induction H1 as [|[f s] H1 IH]; intros a; simpl; [done|]. apply IH. Qed.
Lemma frees_app a H1 H2 : frees a (H1 ++ H2) = frees a H1 ++ frees (extent a H1) H2.
Proof. revert a. induction H1 as [|[f s] H1 IH]; intros a; simpl; [done|]. by rewrite IH, app_assoc. Qed.
Lemma used_app a H1 H2 : used a (H1 ++ H2) = used a H1 ++ used (extent a H1) H2.
Proof. revert a. induction H1 as [|[f s] H1 IH]; intros a; simpl; [done|]. by rewrite IH, app_assoc. Qed.

Lemma extent_le a H : sizes H -> a <= extent a H.
Proof.
  revert a. induction H as [|[f s] H IH]; intros a; simpl; [lia|]. intros [Hs Hr]%Forall_cons.
  specialize (IH (a + 8 * s) Hr). simpl in Hs. lia.
Qed.

Lemma spread_weaken lo lo' l hi : lo' <= lo -> spread lo l hi -> spread lo' l hi.
Proof. destruct l as [|[a s] l]; simpl; intuition lia. Qed.

Lemma frees_spread a H : sizes H -> spread a (frees a H) (extent a H).
Proof.
  revert a. induction H as [|[f s] H IH]; intros a; simpl; [lia|]. intros [Hs Hr]%Forall_cons. simpl in Hs.
  destruct f; simpl; [split_and!; [lia|done|by apply IH]|]. eapply spread_weaken; [|by apply IH]. lia.
Qed.
Lemma used_spread a H : sizes H -> spread a (used a H) (extent a H).
Proof.
  revert a. induction H as [|[f s] H IH]; intros a; simpl; [lia|]. intros [Hs Hr]%Forall_cons. simpl in Hs.
  destruct f; simpl; [|split_and!; [lia|done|by apply IH]]. eapply spread_weaken; [|by apply IH]. lia.
Qed.

Lemma frees_length a H : (length (frees a H) <= length H)%nat.
Proof. revert a. induction H as [|[[|] s] H IH]; intros a; simpl; [lia|specialize (IH (a + 8 * s)); lia..]. Qed.

(** A used block of the row, and a free one, lie apart. *)
Lemma used_frees_apart a H b s c t : sizes H -> (b, s) ∈ used a H -> (c, t) ∈ frees a H -> b + 8 * s <= c \/ c + 8 * t <= b.
Proof.
  revert a. induction H as [|[f u] H IH]; intros a; simpl; [by intros _ ?%elem_of_nil|].
  intros [Hu Hr]%Forall_cons. pose proof (frees_spread (a + 8 * u) H Hr) as Hf.
  pose proof (used_spread (a + 8 * u) H Hr) as Hs. simpl in Hu. destruct f; simpl.
  - intros Hb [E|Hc]%elem_of_cons; [|by apply (IH (a + 8 * u))]. simplify_eq.
    destruct (spread_in _ _ _ _ _ Hs Hb) as [? ?]. lia.
  - intros [E|Hb]%elem_of_cons Hc; [|by apply (IH (a + 8 * u))]. simplify_eq.
    destruct (spread_in _ _ _ _ _ Hf Hc) as [? ?]. lia.
Qed.

Lemma coalesce_frees_length H : (length (coalesce H) <= length H)%nat.
Proof.
  induction H as [|[[|] s] H IH]; simpl; [done| |lia]. destruct (coalesce H) as [|[[|] t] H']; simpl in *; lia.
Qed.

Lemma coalesce_sizes H : sizes H -> sizes (coalesce H).
Proof.
  induction H as [|[[|] s] H IH]; simpl; [done| |]; intros [Hs Hr]%Forall_cons; specialize (IH Hr); simpl in Hs.
  - destruct (coalesce H) as [|[[|] t] H']; [by repeat constructor| |by constructor].
    apply Forall_cons in IH as [? ?]. constructor; [simpl in *; lia|done].
  - by constructor.
Qed.

Lemma coalesced_cons b H : coalesced (b :: H) <-> coalesced H /\ (b.1 = true -> forall s H', H <> (true, s) :: H').
Proof.
  destruct b as [[|] u], H as [|[[|] t] H]; simpl; (split; [intros Hc; split; [try done|naive_solver]|]); try tauto.
  intros [_ Hn]. by apply (Hn eq_refl t H).
Qed.

Lemma coalesce_coalesced H : coalesced (coalesce H).
Proof.
  induction H as [|[[|] s] H IH]; simpl; [done| |].
  - destruct (coalesce H) as [|[[|] t] H'] eqn:E; [done| |by apply coalesced_cons].
    apply coalesced_cons in IH as [IH Hn]. apply coalesced_cons. split; [done|]. intros _. by apply Hn.
  - done.
Qed.

Lemma coalesce_id H : coalesced H -> coalesce H = H.
Proof.
  induction H as [|[f s] H IH]; [done|]. intros [Hc Hn]%coalesced_cons. simpl. rewrite (IH Hc).
  destruct f; [|done]. destruct H as [|[[|] t] H']; try done. by destruct (Hn eq_refl t H').
Qed.

Lemma coalesce_extent a H : extent a (coalesce H) = extent a H.
Proof.
  revert a. induction H as [|[[|] s] H IH]; intros a; simpl; [done| |by rewrite IH].
  rewrite <- IH. destruct (coalesce H) as [|[[|] t] H']; simpl; [done|f_equal; lia|done].
Qed.

Lemma coalesce_used a H : used a (coalesce H) = used a H.
Proof.
  revert a. induction H as [|[[|] s] H IH]; intros a; simpl; [done| |by rewrite IH].
  rewrite <- IH. destruct (coalesce H) as [|[[|] t] H']; simpl; [done|f_equal; lia|done].
Qed.

Lemma join_frees a s H : sizes H -> coalesced H ->
  join (a, s) (frees (a + 8 * s) H) = frees a (coalesce ((true, s) :: H)).
Proof.
  intros Hs Hc. simpl. rewrite (coalesce_id H Hc). destruct H as [|[[|] t] H]; simpl; [done| |].
  - rewrite Z.eqb_refl. do 2 f_equal. lia.
  - apply Forall_cons in Hs as [Ht Hs]. simpl in Ht.
    pose proof (frees_spread (a + 8 * s + 8 * t) H Hs) as Hf.
    destruct (frees _ H) as [|[c u] l] eqn:E; simpl; [done|]. destruct Hf as [? _].
    by rewrite (proj2 (Z.eqb_neq (a + 8 * s) c) ltac:(lia)).
Qed.

Lemma coalesce_app_used H1 t H2 : coalesced (H1 ++ [(false, t)]) ->
  coalesce (H1 ++ (false, t) :: H2) = H1 ++ (false, t) :: coalesce H2.
Proof.
  induction H1 as [|[f s] H1 IH]; [done|]. rewrite <- !app_comm_cons. intros [Hc Hn]%coalesced_cons. simpl.
  rewrite (IH Hc). destruct f; [|done]. destruct H1 as [|[[|] u] H1]; try done. by destruct (Hn eq_refl u (H1 ++ [(false, t)])).
Qed.

Lemma coalesce_app_free H1 t H2 : coalesced (H1 ++ [(true, t)]) ->
  coalesce (H1 ++ (true, t) :: H2) = H1 ++ coalesce ((true, t) :: H2).
Proof.
  induction H1 as [|[f s] H1 IH]; [done|]. rewrite <- !app_comm_cons. intros [Hc Hn]%coalesced_cons.
  cbn [coalesce]. rewrite (IH Hc). destruct f; [|done]. destruct H1 as [|[[|] u] H1]; try done.
  - by destruct (Hn eq_refl t []).
  - by destruct (Hn eq_refl u (H1 ++ [(true, t)])).
Qed.

Lemma coalesced_app_l H1 H2 : coalesced (H1 ++ H2) -> coalesced H1.
Proof.
  induction H1 as [|[f s] H1 IH]; [done|]. rewrite <- app_comm_cons, !coalesced_cons. intros [Hc Hn].
  split; [by apply IH|]. intros Hf t H' ->. by apply (Hn Hf t (H' ++ H2)).
Qed.
Lemma coalesced_app_r H1 H2 : coalesced (H1 ++ H2) -> coalesced H2.
Proof. induction H1 as [|[f s] H1 IH]; [done|]. rewrite <- app_comm_cons, coalesced_cons. intros [Hc _]. by apply IH. Qed.

(** The free block before [start] is [base]: what [free] leaves, block by
    block, is the free list of the coalesced row. *)
Lemma join_last base start H1 J A p sp : sizes H1 -> coalesced H1 -> base + 8 <= start ->
  (base, 0) :: frees start H1 = A ++ [(p, sp)] -> sizes J ->
  A ++ join (p, sp) (frees (extent start H1) (coalesce J)) = (base, 0) :: frees start (coalesce (H1 ++ J)).
Proof.
  intros Hs Hc Hb E HJ. pose proof (coalesce_sizes J HJ) as HsJ. pose proof (coalesce_coalesced J) as HcJ.
  assert (p + 8 * sp < extent start H1 ->
    A ++ join (p, sp) (frees (extent start H1) (coalesce J)) = (base, 0) :: frees start (H1 ++ coalesce J)) as Hfar.
  { intros Hlt. rewrite frees_app, app_comm_cons, E, <- app_assoc. f_equal.
    pose proof (frees_spread (extent start H1) _ HsJ) as Hf. destruct (frees _ (coalesce J)) as [|[c u] l]; [done|].
    destruct Hf as [? _]. simpl. by rewrite (proj2 (Z.eqb_neq (p + 8 * sp) c) ltac:(lia)). }
  destruct H1 as [|[f t] H1 _] using rev_ind.
  - simpl in E. symmetry in E. destruct A as [|x A]; [|by destruct A]. simplify_eq/=. apply Hfar. lia.
  - rewrite <- (app_assoc H1). simpl. apply Forall_app in Hs as [Hs1 [Ht _]%Forall_cons]. simpl in Ht.
    rewrite extent_app, frees_app in *. simpl in *. destruct f; simpl in E.
    + rewrite app_comm_cons in E. apply app_inj_tail in E as [<- [= <- <-]].
      rewrite join_frees by done. rewrite coalesce_app_free by done. rewrite frees_app. simpl. do 3 f_equal.
      by rewrite (coalesce_id (coalesce J)).
    + rewrite app_nil_r in E. rewrite coalesce_app_used by done. rewrite Hfar; [by rewrite <- frees_app, <- app_assoc|].
      assert ((p, sp) ∈ (base, 0) :: frees start H1) as Hin by (rewrite E; set_solver).
      pose proof (extent_le start H1 Hs1). apply elem_of_cons in Hin as [[= -> ->]|Hin]; [lia|].
      apply (spread_in _ _ _ _ _ (frees_spread start H1 Hs1)) in Hin. lia.
Qed.

(** ** The search of [free] *)

Definition stop (bp p nx : Z) : bool := (p <? bp) && (bp <? nx) || (nx <=? p) && ((p <? bp) || (bp <? nx)).

Fixpoint passes (bp : Z) (V : list block) (e : Z) : Prop :=
  match V with [] => True | (a, _) :: V => stop bp a (first V e) = false /\ passes bp V e end.

Lemma passes_app bp V W e : passes bp V (first W e) -> passes bp W e -> passes bp (V ++ W) e.
Proof.
  induction V as [|[a s] V IH]; simpl; [done|]. intros [H1 H2] HW. split; [|by apply IH]. by destruct V.
Qed.

Lemma free_find_stops fuel bp V p h : nodes (h_mem h) V p -> passes bp V p -> stop bp p (hptr (h_mem h) p) = true ->
  (length V <= fuel)%nat -> free_find fuel bp (first V p) h = Ok p h.
Proof.
  revert fuel. induction V as [|[a s] V IH]; intros fuel Hn Hp Hs Hf; simpl first.
  - unfold stop in Hs. apply orb_true_iff in Hs.
    destruct fuel; simpl; unfold bind, get_ptr, gets; cbn [obind]; destruct Hs as [-> | ->];
      try done; by case_match.
  - destruct Hn as (N1 & _ & N3), Hp as [P1 P2]. simpl in Hf. destruct fuel as [|fuel]; [lia|]. simpl.
    unfold bind, get_ptr, gets. cbn [obind]. rewrite N1. unfold stop in P1.
    apply orb_false_iff in P1 as [-> ->]. apply IH; [done..|lia].
Qed.

(** Increasing addresses. *)
Fixpoint asc (l : list block) (e : Z) : Prop :=
  match l with [] => True | (a, _) :: l => a < first l e /\ asc l e end.

Lemma spread_asc lo l hi e : spread lo l hi -> hi <= e -> asc l e.
Proof.
  revert lo. induction l as [|[a s] l IH]; intros lo; simpl; [done|]. intros (H1 & H2 & H3) He.
  split; [|by eapply IH]. pose proof (spread_le _ _ _ H3). destruct l as [|[b t] l]; simpl in *; lia.
Qed.

Lemma asc_app l1 l2 e : asc (l1 ++ l2) e <-> asc l1 (first l2 e) /\ asc l2 e.
Proof.
  induction l1 as [|[a s] l1 IH]; simpl; [tauto|]. rewrite IH.
  assert (first (l1 ++ l2) e = first l1 (first l2 e)) as -> by (by destruct l1). tauto.
Qed.

Lemma asc_first l e : asc l e -> first l e <= e.
Proof. induction l as [|[a s] l IH]; simpl; [lia|]. intros [H1 H2%IH]. lia. Qed.

Lemma passes_below bp V p : asc V p -> p < bp -> passes bp V p.
Proof.
  induction V as [|[a s] V IH]; simpl; [done|]. intros [H1 H2] Hp. pose proof (asc_first V p H2).
  split; [|by apply IH]. unfold stop. destruct (Z.ltb_spec bp (first V p)), (Z.leb_spec (first V p) a); [lia..|].
  by rewrite andb_false_r.
Qed.

Lemma passes_above bp V base : asc V (2 ^ 32) -> base < bp -> bp < first V (2 ^ 32) -> passes bp V base.
Proof.
  induction V as [|[a s] V IH]; simpl; [done|]. intros [H1 H2] Hb Ha.
  assert ((a <? bp) = false) as E by (apply Z.ltb_ge; lia). unfold stop. rewrite E. simpl. split.
  - destruct V as [|[b t] V]; simpl in *.
    + destruct (Z.ltb_spec bp base); [lia|]. by rewrite andb_false_r.
    + destruct (Z.leb_spec b a); [lia|done].
  - destruct V as [|[b t] V]; [done|]. apply IH; [done..|]. simpl in *. lia.
Qed.

Lemma free_find_pred fuel bp A p sp F2 base fp h :
  cyc (h_mem h) (A ++ (p, sp) :: F2) -> asc (A ++ (p, sp) :: F2) (2 ^ 32) -> first (A ++ [(p, sp)]) 0 = base ->
  p < bp < first F2 (2 ^ 32) -> fp ∈ (A ++ (p, sp) :: F2).*1 -> (length (A ++ (p, sp) :: F2) <= fuel)%nat ->
  free_find fuel bp fp h = Ok p h.
Proof.
  intros Hcyc Hasc Hbase Hbp Hfp Hf.
  assert (first (A ++ (p, sp) :: F2) 0 = base) as Hb by (by destruct A). unfold cyc in Hcyc. rewrite Hb in Hcyc.
  pose proof (proj1 (nodes_app _ _ _ _) Hcyc) as [N1 (N2 & N3 & N4)]. simpl in N1.
  apply asc_app in Hasc as [A1 [A2 A3]]. simpl in A1.
  assert (base <= p) as Hbp' by (pose proof (asc_first _ _ A1); by destruct A; simpl in *; simplify_eq).
  assert (stop bp p (hptr (h_mem h) p) = true) as Hstop.
  { rewrite N2. unfold stop. rewrite (proj2 (Z.ltb_lt p bp)) by lia. destruct F2 as [|[b t] F2]; simpl in *.
    - rewrite (proj2 (Z.leb_le base p)) by done. by rewrite orb_true_r.
    - by rewrite (proj2 (Z.ltb_lt bp b)) by lia. }
  assert (passes bp A p) as PA by (by apply passes_below; [|lia]).
  rewrite length_app in Hf. simpl in Hf. rewrite fmap_app, fmap_cons, elem_of_app, elem_of_cons in Hfp.
  destruct Hfp as [Hfp|[->|Hfp]].
  - apply list_elem_of_fmap in Hfp as ([a s] & -> & Hin). apply list_elem_of_split in Hin as (A1' & A2' & ->).
    change ((a, s).1) with (first ((a, s) :: A2') p). apply nodes_app in N1 as [_ N1]. apply asc_app in A1 as [_ A1].
    apply free_find_stops; [done|by apply passes_below; [|lia]|done|]. rewrite length_app in Hf. simpl in *. lia.
  - change ((p, sp).1) with (first [] p). by apply free_find_stops; [..|simpl; lia].
  - apply list_elem_of_fmap in Hfp as ([a s] & -> & Hin). apply list_elem_of_split in Hin as (G & V0 & ->).
    apply nodes_app in N4 as [_ N4]. apply asc_app in A3 as [A3 A4].
    change ((a, s).1) with (first (((a, s) :: V0) ++ A) p).
    assert (first A p = base) as EA by (by destruct A).
    apply free_find_stops; [apply nodes_app; by rewrite EA| |done|rewrite !length_app in *; simpl in *; lia].
    apply passes_app; [|done]. rewrite EA. apply passes_above; [done|lia|].
    apply asc_first in A3. destruct G as [|[b t] G]; simpl in *; lia.
Qed.

(** The links that [free] makes: [bp] goes between [p] and [F2]. *)
Lemma join_spread a s l hi : 1 <= s -> spread (a + 8 * s) l hi -> spread a (join (a, s) l) hi.
Proof.
  intros Hs H. destruct l as [|[c t] l]; simpl; [simpl in H; lia|]. destruct H as (H1 & H2 & H3).
  destruct (Z.eqb_spec (a + 8 * s) c) as [E|E]; simpl; split_and!; try lia; [|done]. 
  by replace (a + 8 * (s + t)) with (c + 8 * t) by lia.
Qed.

Lemma spread_forall lo l hi : 0 <= lo -> hi <= 2 ^ 31 -> spread lo l hi -> Forall (fun b => 0 <= b.1 < 2 ^ 32) l.
Proof.
  intros Hlo Hhi H. apply Forall_forall. intros [a s] Hin. destruct (spread_in _ _ _ _ _ H Hin) as (? & ? & ?). simpl. lia.
Qed.

Lemma free_links fuel bp sz A p sp F2 base hi h :
  cyc (h_mem h) (A ++ (p, sp) :: F2) -> asc (A ++ (p, sp) :: F2) (2 ^ 32) -> first (A ++ [(p, sp)]) 0 = base ->
  h_freep h ∈ (A ++ (p, sp) :: F2).*1 -> (length (A ++ (p, sp) :: F2) <= fuel)%nat ->
  0 < base <= p -> p + 8 <= bp -> 0 <= sp -> p + 8 * sp <= bp -> 1 <= sz -> hsize (h_mem h) bp = sz ->
  spread (bp + 8 * sz) F2 hi -> hi <= 2 ^ 31 -> (forall a s, (a, s) ∈ A -> a + 8 <= p) ->
  exists m1 m2, free fuel (bp + 8) h = Ok tt (h <| h_mem := m2 |> <| h_freep := p |>) /\
    cyc m2 (A ++ join (p, sp) (join (bp, sz) F2)) /\ only_header (h_mem h) m1 bp /\ only_header m1 m2 p.
Proof.
  intros Hcyc Hasc Hfst Hfp Hf Hb Hp Hsp Hsp' Hsz Hbs HF2 Hhi HA.
  assert (first (A ++ (p, sp) :: F2) 0 = base) as Hfst' by (by destruct A).
  pose proof Hcyc as Hn. unfold cyc in Hn. rewrite Hfst' in Hn. apply nodes_app in Hn as [N1 (N2 & N3 & N4)]. simpl in N1.
  pose proof (spread_le _ _ _ HF2) as Hle.
  pose proof (join_spread bp sz F2 hi Hsz HF2) as HJ.
  assert (wp (free fuel (bp + 8)) (fun _ h' => exists m1 m2, h' = h <| h_mem := m2 |> <| h_freep := p |> /\
    nodes m2 (join (p, sp) (join (bp, sz) F2)) base /\ only_header (h_mem h) m1 bp /\ only_header m1 m2 p) h) as Hwp.
  { unfold free. replace (u32 (bp + 8 - 8)) with bp by (rewrite u32_small; lia).
    apply wp_bind, wp_gets, wp_bind. eapply wp_of_eq.
    { eapply (free_find_pred fuel bp A p sp F2 base); try done. split; [lia|]. destruct F2 as [|[b t] l]; simpl in *; lia. }
    apply wp_bind, wp_gets. rewrite Hbs. apply wp_bind, wp_gets. rewrite N2. apply wp_bind.
    apply (wp_attach bp sz F2 base h); try done; try lia.
    { intros b t Hin. destruct (spread_in _ _ _ _ _ HF2 Hin) as (? & ? & ?). unfold apart. lia. }
    { eapply spread_forall; [|exact Hhi|exact HF2]. lia. }
    intros m1 Hm1 Ho1. destruct (only_header_same _ _ bp p Ho1 ltac:(unfold apart; lia)) as [_ E2].
    apply wp_bind, wp_gets. simpl h_mem. rewrite E2, N3. apply wp_bind.
    match goal with |- wp _ ?Q ?h => change (wp (attach p sp bp) Q h) end.
    replace (attach p sp bp) with (attach p sp (first (join (bp, sz) F2) base)) by (by rewrite first_join).
    apply (wp_attach p sp (join (bp, sz) F2) base (h <| h_mem := m1 |>)); 
      try done; try lia; [by transitivity (hsize (h_mem h) p)| | | |].
    { intros b t Hin. destruct (spread_in _ _ _ _ _ HJ Hin) as (? & ? & ?). unfold apart. lia. }
    { eapply spread_forall; [|exact Hhi|exact HJ]. lia. }
    { intros E. apply (f_equal (fun l => first l 0)) in E. rewrite first_join in E. simpl in E. lia. }
    intros m2 Hm2 Ho2. apply wp_modify. by exists m1, m2. }
  destruct (proj1 (wp_iff _ _ h) Hwp) as ([] & h' & E & m1 & m2 & -> & HnJ & Ho1 & Ho2).
  exists m1, m2. split_and!; [done| |done..]. unfold cyc.
  assert (first (A ++ join (p, sp) (join (bp, sz) F2)) 0 = base) as ->.
  { destruct A; simpl in *; [by rewrite first_join|done]. }
  apply nodes_app. rewrite first_join. split; [|done]. simpl.
  eapply nodes_same; [|exact N1]. intros a s Ha. specialize (HA a s Ha).
  destruct (only_header_same _ _ bp a Ho1 ltac:(unfold apart; lia)) as [E1 E2].
  destruct (only_header_same _ _ p a Ho2 ltac:(unfold apart; lia)) as [E3 E4].
  split; congruence.
Qed.

Lemma coalesced_glue H1 f s s' X : coalesced (H1 ++ [(f, s)]) -> coalesced ((f, s') :: X) -> coalesced (H1 ++ (f, s') :: X).
Proof.
  induction H1 as [|[g u] H1 IH]; [done|]. rewrite <- !app_comm_cons. intros [Hc Hn]%coalesced_cons HX.
  apply coalesced_cons. split; [by apply IH|]. intros Hg t H' E. destruct H1 as [|b H1]; simplify_eq/=.
  - by apply (Hn eq_refl s []).
  - by apply (Hn eq_refl t (H1 ++ [(f, s)])).
Qed.

Lemma coalesced_app_used H1 n H2 : coalesced H1 -> coalesced H2 -> coalesced (H1 ++ (false, n) :: H2).
Proof.
  intros Hc1 Hc2. induction H1 as [|[g u] H1 IH]; [done|]. apply coalesced_cons in Hc1 as [Hc1 Hn].
  rewrite <- app_comm_cons. apply coalesced_cons. split; [by apply IH|]. intros Hg t H' E.
  destruct H1 as [|b H1]; simplify_eq/=. by apply (Hn eq_refl t H1).
Qed.

(** The row after [n] units were taken from the end of a free block. *)
Definition take (H1 : row) (s n : Z) (H2 : row) : row :=
  H1 ++ (if s =? n then [] else [(true, s - n)]) ++ (false, n) :: H2.

Lemma take_sizes H1 s n H2 : sizes (H1 ++ (true, s) :: H2) -> 1 <= n <= s -> sizes (take H1 s n H2).
Proof.
  intros [Hs1 [_ Hs2]%Forall_cons]%Forall_app Hn. unfold take. apply Forall_app. split; [done|].
  apply Forall_app. split; [|by constructor; [simpl; lia|]].
  destruct (Z.eqb_spec s n); [by constructor|]. constructor; [simpl; lia|by constructor].
Qed.

Lemma take_coalesced H1 s n H2 : coalesced (H1 ++ (true, s) :: H2) -> coalesced (take H1 s n H2).
Proof.
  intros Hc. pose proof (coalesced_app_l _ _ Hc) as Hc1. pose proof (coalesced_app_r _ _ Hc) as [Hc2 _]%coalesced_cons.
  unfold take. destruct (s =? n); simpl; [by apply coalesced_app_used|].
  apply (coalesced_glue H1 true s); [|done]. apply (coalesced_app_l _ H2). by rewrite <- app_assoc.
Qed.

Lemma take_extent a H1 s n H2 : extent a (take H1 s n H2) = extent a (H1 ++ (true, s) :: H2).
Proof. unfold take. rewrite !extent_app. simpl. destruct (Z.eqb_spec s n); simpl; f_equal; lia. Qed.

Lemma take_used a H1 s n H2 : used a (take H1 s n H2) =
  used a H1 ++ (extent a H1 + 8 * (s - n), n) :: used (extent a H1 + 8 * s) H2.
Proof.
  unfold take. rewrite !used_app. simpl. destruct (Z.eqb_spec s n) as [->|]; simpl.
  - by rewrite Z.sub_diag, Z.mul_0_r, Z.add_0_r.
  - by replace (extent a H1 + 8 * (s - n) + 8 * n) with (extent a H1 + 8 * s) by lia.
Qed.

Lemma take_frees a H1 s n H2 : frees a (take H1 s n H2) =
  frees a H1 ++ (if s =? n then [] else [(extent a H1, s - n)]) ++ frees (extent a H1 + 8 * s) H2.
Proof.
  unfold take. rewrite !frees_app. simpl. destruct (Z.eqb_spec s n) as [->|]; simpl.
  - done.
  - by replace (extent a H1 + 8 * (s - n) + 8 * n) with (extent a H1 + 8 * s) by lia.
Qed.

Lemma asc_lt X p s Y e : asc (X ++ (p, s) :: Y) e -> (forall a t, (a, t) ∈ X -> a < p) /\ (forall a t, (a, t) ∈ Y -> p < a).
Proof.
  intros [H1 [H2 H3]]%asc_app. simpl in H1. split; intros a t Hin; apply list_elem_of_split in Hin as (l1 & l2 & ->).
  - apply asc_app in H1 as [_ [H1 H1']]. apply asc_first in H1'. lia.
  - apply asc_app in H3 as [H3 _]. apply asc_first in H3. destruct l1 as [|[b u] l1]; simpl in *; lia.
Qed.

Lemma asc_split X p s Y X' s' Y' e : asc (X ++ (p, s) :: Y) e -> X ++ (p, s) :: Y = X' ++ (p, s') :: Y' -> X = X'.
Proof.
  revert X'. induction X as [|[a t] X IH]; intros X' Ha E.
  - destruct X' as [|b X']; [done|]. injection E as <- E.
    apply (asc_lt []) in Ha as [_ Ha]. specialize (Ha p s'). rewrite E in Ha. specialize (Ha ltac:(set_solver)). lia.
  - destruct X' as [|b X'].
    + injection E as -> -> E. apply asc_lt in Ha as [Ha _]. specialize (Ha p s'). specialize (Ha ltac:(set_solver)). lia.
    + injection E as <- E. destruct Ha as [_ Ha]. by rewrite (IH X' Ha E).
Qed.

(** ** The heap in memory *)

Section heap.
Context (base start : Z).

Abbreviation ring H := ((base, 0) :: frees start H).

(** The memory [h] holds the row of blocks [H]. *)
Record heap_ok (H : row) (h : heap) : Prop := {
  ok_sizes : sizes H;
  ok_coalesced : coalesced H;
  ok_end : extent start H = h_brk h;
  ok_bounds : 0 < base /\ base + 8 <= start /\ h_brk h <= h_max h <= 2 ^ 31;
  ok_free : cyc (h_mem h) (ring H);
  ok_used : forall a s, (a, s) ∈ used start H -> hsize (h_mem h) a = s;
  ok_freep : h_freep h ∈ (ring H).*1
}.

(** Only bytes of the blocks [F], and of [base], may change. *)
Definition untouched (F : list block) (m m' : mem) : Prop :=
  forall x, ~ (base <= x < base + 8) -> (forall a s, (a, s) ∈ F -> ~ (a <= x < a + 8 * s)) -> load8 m' x = load8 m x.

Lemma untouched_trans F m1 m2 m3 : untouched F m1 m2 -> untouched F m2 m3 -> untouched F m1 m3.
Proof. intros H1 H2 x Hb Hx. by rewrite H2, H1. Qed.

Lemma untouched_header F m m' p s : only_header m m' p -> (p, s) ∈ (base, 0) :: F -> p = base \/ 1 <= s -> untouched F m m'.
Proof.
  intros Ho Hin Hs x Hb Hx. apply Ho. intros Hp. apply elem_of_cons in Hin as [[= -> ->]|Hin]; [done|].
  destruct Hs as [->|Hs]; [done|]. apply (Hx p s Hin). lia.
Qed.

Lemma untouched_used H m m' a s x : sizes H -> base + 8 <= start -> untouched (frees start H) m m' ->
  (a, s) ∈ used start H -> a <= x < a + 8 * s -> load8 m' x = load8 m x.
Proof.
  intros Hs Hb Hu Hin Hx. destruct (spread_in _ _ _ _ _ (used_spread start H Hs) Hin) as (? & ? & ?).
  apply Hu; [lia|]. intros c t Hc Hx'. destruct (used_frees_apart start H a s c t Hs Hin Hc); lia.
Qed.

Lemma untouched_sizes H m m' : sizes H -> base + 8 <= start -> untouched (frees start H) m m' ->
  (forall a s, (a, s) ∈ used start H -> hsize m a = s) -> forall a s, (a, s) ∈ used start H -> hsize m' a = s.
Proof.
  intros Hs Hb Hu Hm a s Hin. rewrite <- (Hm a s Hin). unfold hsize, load32. f_equal. apply loads_ext. intros i Hi.
  destruct (spread_in _ _ _ _ _ (used_spread start H Hs) Hin) as (? & ? & ?).
  simpl in Hi. apply (untouched_used H m m' a s); [done..|lia].
Qed.

Lemma ring_asc H h : heap_ok H h -> asc (ring H) (2 ^ 32).
Proof.
  intros Hok. pose proof (frees_spread start H (ok_sizes _ _ Hok)) as Hs. rewrite (ok_end _ _ Hok) in Hs.
  destruct (ok_bounds _ _ Hok) as (? & ? & ? & ?). pose proof (spread_le _ _ _ Hs).
  split; [|apply (spread_asc _ _ _ _ Hs); lia]. destruct (frees start H) as [|[a s] l]; simpl in *; lia.
Qed.

Lemma ring_split H : exists A p sp, ring H = A ++ [(p, sp)].
Proof. destruct (exists_last (l := ring H)) as (A & [p sp] & E); [done|]. by exists A, p, sp. Qed.

Lemma ring_in H a s : sizes H -> base + 8 <= start -> (a, s) ∈ ring H -> base <= a /\ a + 8 * s <= extent start H /\ 0 <= s /\
  (a = base \/ start <= a /\ 1 <= s).
Proof.
  intros Hs Hb [[= -> ->]|Hin]%elem_of_cons; [pose proof (extent_le start H Hs); lia|].
  destruct (spread_in _ _ _ _ _ (frees_spread start H Hs) Hin) as (? & ? & ?). lia.
Qed.

(** The headers of the free blocks before the last one end before it. *)
Lemma asc_header H A p sp a s : sizes H -> base + 8 <= start -> ring H = A ++ [(p, sp)] -> (a, s) ∈ A -> a + 8 <= p.
Proof.
  intros Hs Hb E Ha. pose proof (frees_spread start H Hs) as Hsp. destruct A as [|[b t] A]; [by apply elem_of_nil in Ha|].
  injection E as <- <- E. rewrite E in Hsp. apply spread_app in Hsp as (mid & Hm & Hp & _).
  apply elem_of_cons in Ha as [[= -> ->]|Ha]; [apply spread_le in Hm; lia|].
  destruct (spread_in _ _ _ _ _ Hm Ha) as (? & ? & ?). lia.
Qed.

(** [free] frees the block in use at [bp] and coalesces it with the free
    blocks it touches. *)
Lemma free_Ok fuel H1 sz H2 h : heap_ok (H1 ++ (false, sz) :: H2) h -> (length (H1 ++ H2) < fuel)%nat ->
  exists h', free fuel (extent start H1 + 8) h = Ok tt h' /\ heap_ok (coalesce (H1 ++ (true, sz) :: H2)) h' /\
    h_brk h' = h_brk h /\ h_max h' = h_max h /\ untouched (frees start (H1 ++ (true, sz) :: H2)) (h_mem h) (h_mem h').
Proof.
  intros Hok Hf. pose proof Hok as [Hs Hc He (Hb0 & Hb & Hm1 & Hm2) Hcyc Hu Hfp].
  apply Forall_app in Hs as Hs'. destruct Hs' as [Hs1 Hs2].
  apply Forall_cons in Hs2 as [Hsz Hs2]. simpl in Hsz.
  set (bp := extent start H1) in *. set (F2 := frees (bp + 8 * sz) H2).
  pose proof (extent_le start H1 Hs1) as Hbp. fold bp in Hbp.
  assert (extent (bp + 8 * sz) H2 = h_brk h) as He2 by (rewrite <- He, extent_app; done).
  pose proof (frees_spread (bp + 8 * sz) H2 Hs2) as HF2. fold F2 in HF2. rewrite He2 in HF2.
  pose proof (spread_le _ _ _ HF2) as HF2le.
  assert (ring (H1 ++ (false, sz) :: H2) = ring H1 ++ F2) as ER by (by rewrite frees_app).
  pose proof (ring_asc _ _ Hok) as Hasc. rewrite ER in *.
  destruct (ring_split H1) as (A & p & sp & EA). rewrite EA, <- app_assoc in *. simpl in Hcyc, Hasc, Hfp.
  destruct (ring_in H1 p sp Hs1 Hb) as (Hp1 & Hp2 & Hp3 & Hp4); [rewrite EA; set_solver|]. fold bp in Hp2.
  assert (first (A ++ [(p, sp)]) 0 = base) as Hfst by (by rewrite <- EA).
  destruct (free_links fuel bp sz A p sp F2 base (h_brk h) h) as (m1 & m2 & E & Hcyc' & Ho1 & Ho2); try done; try lia.
  { apply (f_equal length) in EA. pose proof (frees_length start H1). pose proof (frees_length (bp + 8 * sz) H2) as HL.
    fold F2 in HL. rewrite !length_app in *. simpl in *. lia. }
  { apply Hu. rewrite used_app. simpl. fold bp. set_solver. }
  { intros a s Ha. by apply (asc_header H1 A p sp a s). }
  unfold F2 in Hcyc'. rewrite (join_frees bp sz H2 Hs2 (coalesced_app_r (H1 ++ [(false, sz)]) H2 ltac:(by rewrite <- app_assoc))) in Hcyc'.
  assert (sizes ((true, sz) :: H2)) as HJ by (by constructor).
  pose proof (join_last base start H1 ((true, sz) :: H2) A p sp Hs1 (coalesced_app_l _ _ Hc) Hb EA HJ) as EJ.
  fold bp in EJ. rewrite EJ in Hcyc'.
  assert (sizes (H1 ++ (true, sz) :: H2)) as HS' by (by apply Forall_app).
  assert (untouched (frees start (H1 ++ (true, sz) :: H2)) (h_mem h) m2) as Hun.
  { rewrite frees_app. simpl. fold bp F2. apply (untouched_trans _ _ m1).
    - apply (untouched_header _ _ _ bp sz Ho1); [set_solver|lia].
    - apply (untouched_header _ _ _ p sp Ho2); [|lia]. rewrite app_comm_cons, EA. set_solver. }
  eexists. split_and!; [exact E| |done..]. constructor; simpl.
  - by apply coalesce_sizes.
  - apply coalesce_coalesced.
  - by rewrite coalesce_extent, <- He, !extent_app.
  - done.
  - done.
  - rewrite coalesce_used. apply (untouched_sizes _ (h_mem h)); try done. intros a s Ha. apply Hu.
    rewrite used_app in *. simpl in *. set_solver.
  - change (p ∈ (ring (coalesce (H1 ++ (true, sz) :: H2))).*1). rewrite <- EJ, fmap_app. apply elem_of_app. right. apply (in_join (p, sp)).
Qed.

(** Taking [n] units from the free block [H1] leads to. *)
Lemma heap_ok_take H1 s n H2 h m' fp : heap_ok (H1 ++ (true, s) :: H2) h -> 1 <= n <= s ->
  cyc m' (ring (take H1 s n H2)) -> untouched (frees start (H1 ++ (true, s) :: H2)) (h_mem h) m' ->
  hsize m' (extent start H1 + 8 * (s - n)) = n -> fp ∈ (ring (take H1 s n H2)).*1 ->
  heap_ok (take H1 s n H2) (h <| h_mem := m' |> <| h_freep := fp |>).
Proof.
  intros [Hs Hc He Hb Hcyc Hu Hfp] Hn Hcyc' Hun Hq Hfp'. constructor; simpl; try done.
  - by apply take_sizes.
  - by apply take_coalesced.
  - by rewrite take_extent.
  - intros a t. rewrite take_used, elem_of_app, elem_of_cons.
    pose proof (untouched_sizes _ _ _ Hs ltac:(lia) Hun Hu a t) as Hold. rewrite used_app, elem_of_app in Hold. simpl in Hold.
    intros [Ha|[[= -> ->]|Ha]]; [by apply Hold; left|done|by apply Hold; right].
Qed.

Lemma ring_free H1 s H2 :
  ring (H1 ++ (true, s) :: H2) = ring H1 ++ (extent start H1, s) :: frees (extent start H1 + 8 * s) H2.
Proof. by rewrite frees_app. Qed.

(** The free block before [p]. *)
Lemma ring_pred H1 s H2 h prev : heap_ok (H1 ++ (true, s) :: H2) h -> prev ∈ (ring (H1 ++ (true, s) :: H2)).*1 ->
  hptr (h_mem h) prev = extent start H1 -> exists A ps, ring H1 = A ++ [(prev, ps)].
Proof.
  intros Hok Hin Hp. pose proof (ring_asc _ _ Hok) as Hasc. destruct Hok as [Hs _ _ Hb Hcyc _ _].
  apply Forall_app in Hs as [Hs1 _]. pose proof (extent_le start H1 Hs1) as Hle.
  rewrite ring_free in Hin, Hcyc, Hasc.
  apply list_elem_of_fmap in Hin as ([a ps] & -> & Hin). apply list_elem_of_split in Hin as (A & C & E).
  exists A, ps. cbn [fst] in *. 
  change (nodes (h_mem h) (ring H1 ++ (extent start H1, s) :: frees (extent start H1 + 8 * s) H2) base) in Hcyc.
  rewrite E in Hcyc.
  apply nodes_app in Hcyc as [_ (Hp' & _)]. rewrite Hp in Hp'.
  destruct C as [|[c t] C]; simpl in Hp'; [lia|]. subst c.
  eapply (asc_split (ring H1) _ s _ (A ++ [(a, ps)]) t C); [exact Hasc|]. by rewrite <- app_assoc.
Qed.

Lemma ring_nodes_split H1 s H2 h : heap_ok (H1 ++ (true, s) :: H2) h ->
  nodes (h_mem h) (ring H1) (extent start H1) /\ hptr (h_mem h) (extent start H1) = first (frees (extent start H1 + 8 * s) H2) base /\
  hsize (h_mem h) (extent start H1) = s /\ nodes (h_mem h) (frees (extent start H1 + 8 * s) H2) base.
Proof.
  intros [_ _ _ _ Hcyc _ _]. unfold cyc in Hcyc. cbn [first fst] in Hcyc.
  rewrite frees_app, app_comm_cons in Hcyc. apply nodes_app in Hcyc as [N1 N2]. done.
Qed.

(** Headers of the other free blocks are apart from all of the block at [p]. *)
Lemma ring_far H1 s H2 h a t x : heap_ok (H1 ++ (true, s) :: H2) h ->
  (a, t) ∈ ring H1 \/ (a, t) ∈ frees (extent start H1 + 8 * s) H2 ->
  extent start H1 <= x <= extent start H1 + 8 * s - 8 -> apart x a.
Proof.
  intros [Hs _ _ Hb _ _ _] Ha Hx. apply Forall_app in Hs as [Hs1 Hs2]. apply Forall_cons in Hs2 as [Hs0 Hs2]. unfold apart.
  pose proof (extent_le start H1 Hs1). destruct Ha as [[[= -> ->]|Ha]%elem_of_cons|Ha]; [lia| |].
  - destruct (spread_in _ _ _ _ _ (frees_spread start H1 Hs1) Ha) as (? & ? & ?). lia.
  - destruct (spread_in _ _ _ _ _ (frees_spread _ H2 Hs2) Ha) as (? & ? & ?). lia.
Qed.

Lemma take_split H1 s n H2 h : heap_ok (H1 ++ (true, s) :: H2) h -> 1 <= n < s ->
  let p := extent start H1 in
  let m' := store32 (store32 (h_mem h) (p + 4) (s - n)) (p + 8 * (s - n) + 4) n in
  cyc m' (ring (take H1 s n H2)) /\ untouched (frees start (H1 ++ (true, s) :: H2)) (h_mem h) m' /\
  hsize m' (p + 8 * (s - n)) = n.
Proof.
  intros Hok Hn p m'. set (q := p + 8 * (s - n)) in *. destruct (ring_nodes_split _ _ _ _ Hok) as (N1 & N2 & N3 & N4).
  destruct Hok as [Hs Hc He Hb Hcyc Hu Hfp] eqn:EH. clear EH.
  assert (0 <= s < 2 ^ 31) as Hs32.
  { rewrite extent_app in He. simpl in He. apply Forall_app in Hs as [Hs1 Hs2]. apply Forall_cons in Hs2 as [_ Hs2].
    pose proof (extent_le start H1 Hs1). pose proof (extent_le (extent start H1 + 8 * s) H2 Hs2). lia. }
  assert (apart p q /\ apart q p) as [Apq Aqp] by (unfold apart, q; lia).
  assert (forall a t, (a, t) ∈ ring H1 \/ (a, t) ∈ frees (p + 8 * s) H2 -> same_header (h_mem h) m' a) as Hsame.
  { intros a t Ha. pose proof (ring_far _ _ _ _ a t p Hok Ha ltac:(fold p; lia)) as A1.
    pose proof (ring_far _ _ _ _ a t q Hok Ha ltac:(fold p; unfold q; lia)) as A2. unfold same_header.
    destruct (put_size_apart (store32 (h_mem h) (p + 4) (s - n)) q a n A2) as [E1 E2]. unfold m'. rewrite E1, E2.
    by apply put_size_apart. }
  split_and!.
  - unfold cyc. cbn [first fst]. rewrite take_frees, (proj2 (Z.eqb_neq s n)) by lia. rewrite app_comm_cons. apply nodes_app.
    fold p. destruct (put_size_apart (store32 (h_mem h) (p + 4) (s - n)) q p n Aqp) as [E1 E2].
    split; [|simpl; split_and!].
    + eapply nodes_same; [|exact N1]. intros a t Ha. apply (Hsame a t). by left.
    + unfold m'. by rewrite E1, hptr_put_size.
    + unfold m'. rewrite E2, hsize_put, u32_small by lia. done.
    + eapply nodes_same; [|exact N4]. intros a t Ha. apply (Hsame a t). by right.
  - intros x Hx1 Hx2. specialize (Hx2 p s). rewrite frees_app in Hx2. simpl in Hx2. fold p in Hx2.
    specialize (Hx2 ltac:(set_solver)). unfold m'. rewrite !load8_store32_ne by (unfold q; lia). done.
  - unfold m'. by rewrite hsize_put, u32_small by lia.
Qed.

Lemma take_exact H1 n H2 h A prev ps : heap_ok (H1 ++ (true, n) :: H2) h -> ring H1 = A ++ [(prev, ps)] ->
  let p := extent start H1 in
  let m' := store32 (h_mem h) prev (hptr (h_mem h) p) in
  cyc m' (ring (take H1 n n H2)) /\ untouched (frees start (H1 ++ (true, n) :: H2)) (h_mem h) m' /\ hsize m' p = n.
Proof.
  intros Hok EA p m'. destruct (ring_nodes_split _ _ _ _ Hok) as (N1 & N2 & N3 & N4). fold p in N1, N2, N3, N4.
  pose proof Hok as [Hs Hc He Hb Hcyc Hu Hfp]. apply Forall_app in Hs as [Hs1 Hs2]. apply Forall_cons in Hs2 as [Hn Hs2].
  simpl in Hn. assert ((prev, ps) ∈ ring H1) as Hin by (rewrite EA; set_solver).
  destruct (ring_in H1 prev ps Hs1 ltac:(lia) Hin) as (Hp1 & Hp2 & Hp3 & Hp4). fold p in Hp2.
  pose proof (extent_le start H1 Hs1) as Hle. fold p in Hle.
  assert (0 <= first (frees (p + 8 * n) H2) base < 2 ^ 32) as Hf.
  { rewrite extent_app in He. simpl in He. fold p in He. pose proof (frees_spread (p + 8 * n) H2 Hs2) as Hsp. rewrite He in Hsp.
    pose proof (spread_forall (p + 8 * n) _ (h_brk h) ltac:(lia) ltac:(lia) Hsp) as Hall.
    pose proof (spread_le _ _ _ Hsp). destruct (frees _ H2) as [|[b t] l]; simpl; [lia|]. by apply Forall_cons in Hall as [? _]. }
  assert (apart prev p) as Hap by (unfold apart; lia).
  split_and!.
  - unfold cyc. cbn [first fst]. rewrite take_frees, Z.eqb_refl. fold p. rewrite app_comm_cons, EA, <- app_assoc.
    rewrite EA in N1. apply nodes_app in N1 as [N1 (N5 & N6 & _)]. apply nodes_app. split; [|simpl; split_and!].
    + eapply nodes_same; [|exact N1]. intros a t Ha. apply put_ptr_apart. unfold apart.
      pose proof (asc_header H1 A prev ps a t Hs1 ltac:(lia) EA Ha). lia.
    + unfold m'. by rewrite hptr_put, N2, u32_small.
    + unfold m'. by rewrite hsize_put_ptr.
    + eapply nodes_same; [|exact N4]. intros a t Ha. apply put_ptr_apart. unfold apart.
      destruct (spread_in _ _ _ _ _ (frees_spread _ H2 Hs2) Ha) as (? & ? & ?). lia.
  - apply (untouched_header _ _ _ prev ps); [apply only_header_ptr| |lia]. rewrite ring_free. set_solver.
  - unfold m'. by rewrite (proj2 (put_ptr_apart _ _ _ _ Hap)).
Qed.

(** [malloc] at a free block that is large enough. *)
Lemma malloc_take ff fuel H1 s n H2 h prev : heap_ok (H1 ++ (true, s) :: H2) h -> 1 <= n <= s ->
  prev ∈ (ring (H1 ++ (true, s) :: H2)).*1 -> hptr (h_mem h) prev = extent start H1 ->
  exists m', let h' := h <| h_mem := m' |> <| h_freep := prev |> in
    malloc_loop ff fuel n prev (extent start H1) h = Ok (extent start H1 + 8 * (s - n) + 8) h' /\
    heap_ok (take H1 s n H2) h' /\ untouched (frees start (H1 ++ (true, s) :: H2)) (h_mem h) m'.
Proof.
  intros Hok Hn Hin Hp. destruct (ring_nodes_split _ _ _ _ Hok) as (_ & N2 & N3 & _).
  destruct (ring_pred _ _ _ _ _ Hok Hin Hp) as (A & ps & EA).
  assert (prev ∈ (ring (take H1 s n H2)).*1) as Hfp.
  { rewrite take_frees, app_comm_cons, EA, !fmap_app. simpl. set_solver. }
  assert (0 <= extent start H1 /\ extent start H1 + 8 * s < 2 ^ 32 - 8) as Hr.
  { destruct Hok as [Hs _ He Hb _ _ _]. rewrite extent_app in He. simpl in He.
    apply Forall_app in Hs as [Hs1 Hs2]. apply Forall_cons in Hs2 as [_ Hs2].
    pose proof (extent_le start H1 Hs1). pose proof (extent_le (extent start H1 + 8 * s) H2 Hs2). lia. }
  destruct (Z.eq_dec s n) as [->|Hne].
  - destruct (take_exact _ _ _ _ _ _ _ Hok EA) as (Hc & Hu & Hq). eexists. split_and!; [|apply heap_ok_take|exact Hu].
    + destruct fuel; simpl; unfold bind, get_size, gets; cbn [obind]; rewrite N3, Z.leb_refl, Z.eqb_refl; simpl;
        unfold set_freep, modify, ret; cbn [obind]; f_equal; rewrite u32_small by lia; lia.
    + done.
    + done.
    + done.
    + done.
    + by rewrite Z.sub_diag, Z.mul_0_r, Z.add_0_r.
    + done.
  - destruct (take_split H1 s n H2 h Hok ltac:(lia)) as (Hc & Hu & Hq). eexists. split_and!; [|apply heap_ok_take|exact Hu]; try done.
    destruct fuel; simpl; unfold bind, get_size, gets; cbn [obind]; rewrite N3, (proj2 (Z.leb_le n s)), (proj2 (Z.eqb_neq s n)) by lia;
      simpl; unfold set_size, set_freep, modify, ret; cbn [obind]; rewrite !u32_small by (rewrite ?u32_small; lia); done.
Qed.

Lemma frees_split a s b H : (a, s) ∈ frees b H -> exists H1 H2, H = H1 ++ (true, s) :: H2 /\ a = extent b H1.
Proof.
  revert b. induction H as [|[f t] H IH]; intros b; simpl; [by intros ?%elem_of_nil|].
  intros [Hin|Hin]%elem_of_app.
  - destruct f; [|by apply elem_of_nil in Hin]. apply list_elem_of_singleton in Hin as [= -> ->]. by exists [], H.
  - destruct (IH _ Hin) as (H1 & H2 & -> & ->). by exists ((f, t) :: H1), H2.
Qed.

Lemma used_split a s b H : (a, s) ∈ used b H -> exists H1 H2, H = H1 ++ (false, s) :: H2 /\ a = extent b H1.
Proof.
  revert b. induction H as [|[f t] H IH]; intros b; simpl; [by intros ?%elem_of_nil|].
  intros [Hin|Hin]%elem_of_app.
  - destruct f; [by apply elem_of_nil in Hin|]. apply list_elem_of_singleton in Hin as [= -> ->]. by exists [], H.
  - destruct (IH _ Hin) as (H1 & H2 & -> & ->). by exists ((f, t) :: H1), H2.
Qed.

Lemma in_frees s H b : (true, s) ∈ H -> exists a, (a, s) ∈ frees b H.
Proof.
  intros (H1 & H2 & ->)%list_elem_of_split. exists (extent b H1). rewrite frees_app. simpl. set_solver.
Qed.

(** The walk of [malloc] along the free list, until a block of [n] units or
    the block at [freep]. *)
Section scan.
Context (ff k : nat) (n : Z) (H : row) (h : heap) (Q : Z -> heap -> Prop) (fs : Z).
Let fp := h_freep h.
Hypothesis Hok : heap_ok H h.
Hypothesis Hn : 1 <= n.
Hypothesis Hfs : (fp, fs) ∈ ring H.
Hypothesis Hfit : forall fuel prev H1 s H2, H = H1 ++ (true, s) :: H2 -> n <= s -> prev ∈ (ring H).*1 ->
  hptr (h_mem h) prev = extent start H1 -> wp (malloc_loop ff fuel n prev (extent start H1)) Q h.
Hypothesis Hnone : forall fuel prev, (k <= fuel)%nat -> (forall a s, (a, s) ∈ ring H -> s < n) ->
  wp (malloc_loop ff fuel n prev fp) Q h.

Lemma ring_size a s : (a, s) ∈ ring H -> hsize (h_mem h) a = s.
Proof.
  pose proof (ok_free _ _ Hok) as Hcyc. unfold cyc in Hcyc. intros Hin.
  apply list_elem_of_split in Hin as (A & B & E). rewrite E in Hcyc at 1. by apply nodes_app in Hcyc as [_ (_ & ? & _)].
Qed.

Lemma malloc_at a s fuel prev : (a, s) ∈ ring H -> n <= s -> prev ∈ (ring H).*1 -> hptr (h_mem h) prev = a ->
  wp (malloc_loop ff fuel n prev a) Q h.
Proof.
  intros [[= -> ->]|Hin]%elem_of_cons Hs Hprev Hp; [lia|].
  destruct (frees_split _ _ _ _ Hin) as (H1 & H2 & E & ->). by apply (Hfit fuel prev H1 s H2).
Qed.

Lemma malloc_scan V fuel prev : (forall a s, (a, s) ∈ V -> (a, s) ∈ ring H /\ a <> fp) -> nodes (h_mem h) V fp ->
  prev ∈ (ring H).*1 -> hptr (h_mem h) prev = first V fp ->
  (forall a s, (a, s) ∈ ring H -> s < n \/ (a, s) ∈ V ++ [(fp, fs)]) -> (length V + k <= fuel)%nat ->
  wp (malloc_loop ff fuel n prev (first V fp)) Q h.
Proof.
  revert fuel prev. induction V as [|[a s] V IH]; intros fuel prev HV HnV Hprev Hp Hseen Hf; simpl first in *.
  - destruct (Z_le_dec n fs) as [Hle|Hgt]; [by apply (malloc_at _ fs)|]. apply Hnone; [simpl in Hf; lia|].
    intros b t Hb. destruct (Hseen b t Hb) as [?|[= -> ->]%list_elem_of_singleton]; [done|lia].
  - destruct (HV a s) as [Hin Hne]; [by left|]. destruct (Z_le_dec n s) as [Hle|Hgt]; [by apply (malloc_at _ s)|].
    destruct HnV as (N1 & N2 & N3). simpl in Hf. destruct fuel as [|fuel]; [lia|]. simpl.
    apply wp_bind, wp_gets. rewrite N2, (proj2 (Z.leb_gt n s)) by lia. apply wp_bind, wp_gets.
    fold fp. rewrite (proj2 (Z.eqb_neq a fp)) by done. apply wp_bind, wp_ret. apply wp_bind, wp_gets. rewrite N1.
    apply IH; [|done|by apply (list_elem_of_fmap_2' fst _ (a, s))|done| |lia].
    + intros b t Hb. apply HV. by right.
    + intros b t Hb. destruct (Hseen b t Hb) as [?|[[= -> ->]|?]%elem_of_cons]; [by left|left; lia|by right].
Qed.

Lemma malloc_from fuel : (length (frees start H) + k <= fuel)%nat ->
  wp (malloc_loop ff fuel n fp (hptr (h_mem h) fp)) Q h.
Proof.
  intros Hf. pose proof (ok_free _ _ Hok) as Hcyc. pose proof (ring_asc _ _ Hok) as Hasc.
  pose proof Hfs as Hin. apply list_elem_of_split in Hin as (A & B & E). rewrite E in Hcyc, Hasc.
  apply cyc_rot in Hcyc. simpl in Hcyc. destruct Hcyc as (N1 & N2 & N3). cbn [first fst] in N1, N3. rewrite N1.
  assert (length (frees start H) = length (B ++ A)) as EL.
  { apply (f_equal length) in E. rewrite length_app in *. simpl in E. lia. }
  apply asc_lt in Hasc as [L1 L2]. apply malloc_scan; [|done|by apply (list_elem_of_fmap_2' fst _ (fp, fs))|done| |lia].
  - intros a s Ha. rewrite E. split; [set_solver|]. intros ->.
    apply elem_of_app in Ha as [Ha%L2|Ha%L1]; lia.
  - intros a s. rewrite E. set_solver.
Qed.
End scan.

(** ** Growing the heap *)

Definition chunk (n : Z) : Z := if n <? 4096 then 4096 else n.

Lemma chunk_ge n : n <= chunk n /\ 4096 <= chunk n.
Proof. unfold chunk. destruct (Z.ltb_spec n 4096); lia. Qed.

(** The new memory is first a block in use. *)
Lemma heap_ok_grow H nu h : heap_ok H h -> 1 <= nu -> h_brk h + 8 * nu <= h_max h ->
  heap_ok (H ++ [(false, nu)]) (h <| h_brk := h_brk h + 8 * nu |> <| h_mem := store32 (h_mem h) (h_brk h + 4) nu |>).
Proof.
  intros [Hs Hc He Hb Hcyc Hu Hfp] Hnu Hmax. pose proof (extent_le start H Hs) as Hle.
  assert (ring (H ++ [(false, nu)]) = ring H) as ER by (rewrite frees_app; simpl; by rewrite app_nil_r).
  assert (forall a s, (a, s) ∈ ring H \/ (a, s) ∈ used start H -> apart (h_brk h) a) as Hap.
  { intros a s Ha. unfold apart. destruct Ha as [Ha|Ha].
    - destruct (ring_in H a s Hs ltac:(lia) Ha) as (? & ? & ? & ?). lia.
    - destruct (spread_in _ _ _ _ _ (used_spread start H Hs) Ha) as (? & ? & ?). lia. }
  constructor; simpl h_mem; simpl h_brk; simpl h_max; simpl h_freep; rewrite ?ER; try done.
  - apply Forall_app. split; [done|]. by constructor.
  - by apply coalesced_app_used.
  - rewrite extent_app. simpl. lia.
  - lia.
  - eapply nodes_same; [|exact Hcyc]. intros a s Ha. apply put_size_apart. apply (Hap a s). by left.
  - intros a s. rewrite used_app. simpl. intros [Ha|[= -> ->]%list_elem_of_singleton]%elem_of_app.
    + rewrite <- (Hu a s Ha). apply put_size_apart. apply (Hap a s). by right.
    + rewrite He, hsize_put, u32_small by lia. done.
Qed.

Lemma morecore_Ok ff H n h : heap_ok H h -> 1 <= n < 2 ^ 28 -> (length H < ff)%nat ->
  if h_max h <? h_brk h + 8 * chunk n then morecore ff n h = Ok 0 h
  else exists h', morecore ff n h = Ok (h_freep h') h' /\ heap_ok (coalesce (H ++ [(true, chunk n)])) h' /\
    h_brk h' = h_brk h + 8 * chunk n /\ h_max h' = h_max h /\
    untouched (frees start (H ++ [(true, chunk n)])) (h_mem h) (h_mem h').
Proof.
  intros Hok Hn Hf. set (nu := chunk n). assert (n <= nu /\ 4096 <= nu < 2 ^ 28) as Hnu.
  { unfold nu, chunk. destruct (Z.ltb_spec n 4096); lia. }
  destruct (ok_bounds _ _ Hok) as (Hb1 & Hb2 & Hb3 & Hb4). pose proof (ok_end _ _ Hok) as He.
  pose proof (extent_le start H (ok_sizes _ _ Hok)) as Hle.
  unfold morecore. fold (chunk n). fold nu. unfold bind, sbrk.
  rewrite (i32_small (nu * 8)), (Z.mul_comm nu) by lia. rewrite (proj2 (Z.ltb_lt 0 (8 * nu))) by lia. cbn [obind].
  destruct (Z.ltb_spec (h_max h) (h_brk h + 8 * nu)) as [Hlt|Hge]; cbn [obind]; [done|].
  rewrite (proj2 (Z.eqb_neq (h_brk h) (-1))) by lia. unfold set_size, modify. cbn [obind].
  pose proof (heap_ok_grow H nu h Hok ltac:(lia) Hge) as Hg.
  destruct (free_Ok ff H nu [] _ Hg) as (h' & E & Hok' & E1 & E2 & Hun); [by rewrite app_nil_r|].
  rewrite u32_small by lia. rewrite He in E.
  match type of E with _ ?h1 = _ => match goal with |- context [free ff (h_brk h + 8) ?h2] => change h2 with h1 end end.
  rewrite E. cbn [obind].
  exists h'. split_and!; [done|done|done|done|].
  intros x Hx1 Hx2. rewrite (Hun x Hx1 Hx2). simpl. apply load8_store32_ne.
  specialize (Hx2 (h_brk h) nu). rewrite frees_app, He in Hx2. simpl in Hx2. specialize (Hx2 ltac:(set_solver)). lia.
Qed.

Definition covered (F : list block) (x : Z) : Prop := exists a s, (a, s) ∈ F /\ a <= x < a + 8 * s.

Lemma covered_cons a s F x : covered ((a, s) :: F) x <-> a <= x < a + 8 * s \/ covered F x.
Proof.
  unfold covered. split.
  - intros (b & t & [[= -> ->]|Hin]%elem_of_cons & ?); [by left|]. right. eauto.
  - intros [?|(b & t & ? & ?)]; [exists a, s|exists b, t]; (split; [|done]); [by left|by right].
Qed.

Lemma covered_coalesce b H x : sizes H -> covered (frees b (coalesce H)) x <-> covered (frees b H) x.
Proof.
  revert b. induction H as [|[[|] s] H IH]; intros b; [done| |]; intros [Hs Hr]%Forall_cons; simpl in *; [|by apply IH].
  pose proof (coalesce_sizes H Hr) as Hr'. specialize (IH (b + 8 * s) Hr). rewrite covered_cons, <- IH.
  destruct (coalesce H) as [|[[|] t] H']; simpl; rewrite !covered_cons; [done| |done].
  apply Forall_cons in Hr' as [Ht _]. simpl in Ht.
  replace (b + 8 * (s + t)) with (b + 8 * s + 8 * t) by lia. intuition lia.
Qed.

Lemma untouched_coalesce H m m' : sizes H -> untouched (frees start (coalesce H)) m m' -> untouched (frees start H) m m'.
Proof.
  intros Hs Hu x Hx1 Hx2. apply Hu; [done|]. intros a s Hin Hx.
  destruct (proj1 (covered_coalesce start H x Hs)) as (b & t & Hb & Hb'); [by exists a, s|]. by apply (Hx2 b t).
Qed.

(** ** [malloc]

    [n] units are taken from a free block of [G]. *)
Definition taken (n : Z) (G : row) (r : Z) (h' : heap) : Prop :=
  exists H1 s H2, G = H1 ++ (true, s) :: H2 /\ n <= s /\ r = extent start H1 + 8 * (s - n) + 8 /\ heap_ok (take H1 s n H2) h'.

Lemma freep_pos H h : heap_ok H h -> h_freep h <> 0.
Proof.
  intros [Hs _ _ Hb _ _ Hfp]. apply list_elem_of_fmap in Hfp as ([a s] & -> & Hin).
  destruct (ring_in H a s Hs ltac:(lia) Hin) as (? & ? & ? & ?). simpl. lia.
Qed.

Lemma coalesce_last H c : sizes H -> exists s, (true, s) ∈ coalesce (H ++ [(true, c)]) /\ c <= s.
Proof.
  induction H as [|[f t] H IH]; [intros _; exists c; simpl; split; [by left|lia]|]. intros [Ht Hr]%Forall_cons. simpl in Ht.
  destruct (IH Hr) as (s & Hin & Hs). simpl. destruct f; [|exists s; split; [by right|done]].
  destruct (coalesce (H ++ [(true, c)])) as [|[[|] u] K]; [by apply elem_of_nil in Hin| |exists s; split; [by right|done]].
  apply elem_of_cons in Hin as [[= ->]|Hin]; [exists (t + u)|exists s]; (split; [|lia]); [by left|by right].
Qed.

(** After [morecore] there is a block that is large enough. *)
Lemma malloc_regrown ff fuel n H h : heap_ok (coalesce (H ++ [(true, chunk n)])) h -> sizes H -> 1 <= n ->
  (length H + 1 <= fuel)%nat ->
  wp (malloc_loop ff fuel n (h_freep h) (hptr (h_mem h) (h_freep h))) (fun r h' =>
    taken n (coalesce (H ++ [(true, chunk n)])) r h' /\ h_brk h' = h_brk h /\ h_max h' = h_max h /\
    untouched (frees start (coalesce (H ++ [(true, chunk n)]))) (h_mem h) (h_mem h')) h.
Proof.
  set (G := coalesce (H ++ [(true, chunk n)])). intros Hok Hs Hn Hf. pose proof (ok_freep _ _ Hok) as Hfp.
  apply list_elem_of_fmap in Hfp as ([fp fs] & Efp & Hfs). cbn [fst] in Efp.
  apply (malloc_from ff 0 n G h _ fs Hok Hn); [by rewrite Efp| | |].
  - intros fuel' prev H1 s H2 EH Hle Hin Hp. rewrite EH in Hok, Hin.
    destruct (malloc_take ff fuel' H1 s n H2 h prev Hok ltac:(lia) Hin Hp) as (m' & E & Hok' & Hun).
    eapply wp_of_eq; [exact E|]. rewrite EH. split_and!; [|done..]. by exists H1, s, H2.
  - intros fuel' prev _ Hsmall. exfalso. destruct (coalesce_last H (chunk n) Hs) as (s & Hin & Hle).
    destruct (in_frees s G start Hin) as (a & Ha). specialize (Hsmall a s ltac:(by right)).
    unfold chunk in Hle. case_match; lia.
  - pose proof (frees_length start G). pose proof (coalesce_frees_length (H ++ [(true, chunk n)])) as HL.
    rewrite length_app in HL. simpl in HL. fold G in HL. lia.
Qed.

Lemma malloc_loop_Ok ff fuel n H h : heap_ok H h -> 1 <= n < 2 ^ 28 -> (length H < ff)%nat -> (2 * length H + 3 <= fuel)%nat ->
  wp (malloc_loop ff fuel n (h_freep h) (hptr (h_mem h) (h_freep h))) (fun r h' =>
    h_max h' = h_max h /\
    (taken n H r h' /\ h_brk h' = h_brk h /\ untouched (frees start H) (h_mem h) (h_mem h') \/
     (forall s, (true, s) ∈ H -> s < n) /\
     (if h_max h <? h_brk h + 8 * chunk n then r = 0 /\ h' = h
      else taken n (coalesce (H ++ [(true, chunk n)])) r h' /\ h_brk h' = h_brk h + 8 * chunk n /\
        untouched (frees start (H ++ [(true, chunk n)])) (h_mem h) (h_mem h')))) h.
Proof.
  intros Hok Hn Hff Hf. pose proof (ok_freep _ _ Hok) as Hfp.
  apply list_elem_of_fmap in Hfp as ([fp fs] & Efp & Hfs). cbn [fst] in Efp.
  apply (malloc_from ff (length H + 2) n H h _ fs Hok ltac:(lia)); [by rewrite Efp| | |].
  - intros fuel' prev H1 s H2 EH Hs Hin Hp. rewrite EH in Hok, Hin.
    destruct (malloc_take ff fuel' H1 s n H2 h prev Hok ltac:(lia) Hin Hp) as (m' & E & Hok' & Hun).
    eapply wp_of_eq; [exact E|]. split; [done|]. left. rewrite EH. split_and!; [|done|done]. by exists H1, s, H2.
  - intros fuel' prev Hk Hsmall. rewrite Efp. destruct fuel' as [|fuel']; [lia|]. simpl.
    apply wp_bind, wp_gets. rewrite (ring_size H h Hok fp fs Hfs), (proj2 (Z.leb_gt n fs)) by (by apply (Hsmall fp)).
    apply wp_bind, wp_gets. rewrite Efp, Z.eqb_refl. apply wp_bind, wp_bind.
    assert (forall s, (true, s) ∈ H -> s < n) as Hno.
    { intros s (a & Ha)%(in_frees s H start). apply (Hsmall a). by right. }
    pose proof (morecore_Ok ff H n h Hok Hn Hff) as Hm.
    destruct (h_max h <? h_brk h + 8 * chunk n).
    + eapply wp_of_eq; [exact Hm|]. apply wp_ret, wp_ret. split; [done|]. by right.
    + destruct Hm as (h1 & E & Hok1 & Eb & Em & Hun). eapply wp_of_eq; [exact E|].
      rewrite (proj2 (Z.eqb_neq (h_freep h1) 0)) by (by apply (freep_pos _ _ Hok1)).
      apply wp_ret, wp_bind, wp_gets. eapply wp_mono; [apply (malloc_regrown ff fuel' n H h1 Hok1 (ok_sizes _ _ Hok)); lia|].
      intros r h' (Ht & Eb' & Em' & Hun'). split; [congruence|]. right. split_and!; [done|done|congruence|].
      apply (untouched_trans _ _ (h_mem h1)); [done|]. apply untouched_coalesce; [|done].
      apply Forall_app. split; [apply (ok_sizes _ _ Hok)|]. constructor; [|done]. cbn [snd]. pose proof (chunk_ge n). lia.
  - pose proof (frees_length start H). lia.
Qed.

(** Before the first call the heap is empty and [freep] is 0. *)
Definition heap_inv (H : row) (h : heap) : Prop :=
  heap_ok H h \/
  H = [] /\ h_freep h = 0 /\ h_brk h = start /\ 0 < base /\ base + 8 <= start /\ h_brk h <= h_max h <= 2 ^ 31.

(** The bytes of the blocks in use keep their values. *)
Definition kept (H : row) (h h' : heap) : Prop :=
  forall a s x, (a, s) ∈ used start H -> a <= x < a + 8 * s -> load8 (h_mem h') x = load8 (h_mem h) x.

Lemma units_eq nbytes : 0 <= nbytes < 2 ^ 31 - 16 -> units nbytes = (nbytes + 7) / 8 + 1.
Proof.
  intros Hn. unfold units. rewrite (u32_small (nbytes + 8 - 1)) by lia.
  replace (nbytes + 8 - 1) with (nbytes + 7) by lia. apply u32_small.
  pose proof (Z.div_le_upper_bound (nbytes + 7) 8 (2 ^ 28) ltac:(lia) ltac:(lia)). pose proof (Z.div_pos (nbytes + 7) 8). lia.
Qed.

Lemma units_bounds nbytes : 0 <= nbytes < 2 ^ 31 - 16 -> 1 <= units nbytes < 2 ^ 28 /\ nbytes <= 8 * (units nbytes - 1).
Proof.
  intros Hn. rewrite (units_eq nbytes Hn). pose proof (Z.div_mod (nbytes + 7) 8 ltac:(lia)).
  pose proof (Z.mod_pos_bound (nbytes + 7) 8 ltac:(lia)). lia.
Qed.

(** The first call makes [base] a free list of its own. *)
Lemma heap_ok_init h : h_freep h = 0 -> h_brk h = start -> 0 < base -> base + 8 <= start -> h_brk h <= h_max h <= 2 ^ 31 ->
  heap_ok [] (h <| h_mem := store32 (store32 (h_mem h) base base) (base + 4) 0 |> <| h_freep := base |>).
Proof.
  intros Hf Hst Hb Hb' Hm. constructor; simpl; try done.
  - constructor.
  - unfold cyc. simpl. rewrite hptr_put_size, hptr_put, hsize_put, !u32_small by lia. done.
  - by intros a s ?%elem_of_nil.
  - by left.
Qed.

Lemma malloc_start H h n fuel : heap_inv H h -> exists h0, heap_ok H h0 /\ h_brk h0 = h_brk h /\ h_max h0 = h_max h /\
  kept H h h0 /\ malloc base fuel n h = malloc_loop fuel fuel (units n) (h_freep h0) (hptr (h_mem h0) (h_freep h0)) h0.
Proof.
  unfold malloc, bind, gets. intros [Hok|(-> & Hf & Hst & Hb & Hb' & Hm)]; cbn [obind].
  - rewrite (proj2 (Z.eqb_neq _ 0)) by (by apply (freep_pos H h)). exists h. split_and!; try done.
  - rewrite Hf. eexists. split; [by apply heap_ok_init|]. split_and!; try done. by intros a s x ?%elem_of_nil.
Qed.

Lemma taken_used n G r h' : taken n G r h' -> exists H', heap_ok H' h' /\ used start H' ≡ₚ (r - 8, n) :: used start G.
Proof.
  intros (H1 & s & H2 & -> & Hs & -> & Hok). eexists. split; [exact Hok|].
  rewrite take_used, used_app. simpl. replace (extent start H1 + 8 * (s - n) + 8 - 8) with (extent start H1 + 8 * (s - n)) by lia.
  symmetry. apply Permutation_middle.
Qed.

Lemma untouched_kept H G h h' : sizes G -> base + 8 <= start -> used start G = used start H ->
  untouched (frees start G) (h_mem h) (h_mem h') -> kept H h h'.
Proof. intros Hs Hb E Hu a s x Hin Hx. rewrite <- E in Hin. by apply (untouched_used G _ _ a s x). Qed.
End heap.

(** C10: [malloc] is correct: from a well-formed heap it always returns, with a
    well-formed heap, in which the blocks in use are those of before, whose
    bytes it did not change, and, unless it returned 0, the new block, which
    has room for the bytes asked for and overlaps none of the others. It returns 0
    only if no free block is large enough and the kernel gives no more
    memory, and asks the kernel for more only if no free block is.  The request
    is below 2^31 - 16 bytes: see [sbrk_huge] for a larger one that no free
    block serves. *)
Theorem malloc_correct base start H h nbytes fuel :
  heap_inv base start H h -> 0 <= nbytes < 2 ^ 31 - 16 -> (2 * length H + 3 <= fuel)%nat ->
  exists r h' H', malloc base fuel nbytes h = Ok r h' /\ heap_ok base start H' h' /\ kept start H h h' /\
    (h_brk h' = h_brk h \/ forall s, (true, s) ∈ H -> s < units nbytes) /\
    (r = 0 /\ used start H' = used start H /\ h_max h < h_brk h + 8 * chunk (units nbytes) /\ h_brk h' = h_brk h \/
     used start H' ≡ₚ (r - 8, units nbytes) :: used start H /\ nbytes <= 8 * (units nbytes - 1)).
Proof.
  intros Hinv Hn Hf. destruct (units_bounds nbytes Hn) as [Hu Hroom].
  destruct (malloc_start base start H h nbytes fuel Hinv) as (h0 & Hok & Eb & Em & Hk & ->).
  pose proof (malloc_loop_Ok base start fuel fuel (units nbytes) H h0 Hok Hu ltac:(lia) Hf) as Hw.
  destruct (proj1 (wp_iff _ _ h0) Hw) as (r & h' & E & _ & Hpost). exists r, h'.
  pose proof (ok_sizes _ _ _ _ Hok) as Hs. destruct (ok_bounds _ _ _ _ Hok) as (_ & Hb & _).
  assert (forall G, sizes G -> used start G = used start H -> untouched base (frees start G) (h_mem h0) (h_mem h') ->
    kept start H h h') as Hkept.
  { intros G HsG EG Hun a s x Hin Hx. rewrite <- (Hk a s x Hin Hx). by apply (untouched_kept base start H G h0 h' HsG Hb EG Hun a s). }
  destruct Hpost as [(Ht & Eb' & Hun)|(Hno & Hg)].
  - apply taken_used in Ht as (H' & Hok' & Hp). exists H'. split_and!; try done; [by apply (Hkept H)|left; congruence|by right].
  - rewrite Eb, Em in Hg. destruct (Z.ltb_spec (h_max h) (h_brk h + 8 * chunk (units nbytes))).
    + destruct Hg as [-> ->]. exists H. split_and!; try done; [by right|]. left. done.
    + destruct Hg as (Ht & Eb' & Hun). apply taken_used in Ht as (H' & Hok' & Hp). exists H'.
      rewrite coalesce_used, used_app in Hp. simpl in Hp. rewrite app_nil_r in Hp.
      split_and!; try done; [|by right..]. apply (Hkept (H ++ [(true, chunk (units nbytes))])); [| |done].
      * apply Forall_app. split; [done|]. constructor; [|done]. cbn [snd]. pose proof (chunk_ge (units nbytes)). lia.
      * rewrite used_app. simpl. by rewrite app_nil_r.
Qed.

(** A process whose heap was not used yet. *)
Definition fresh_heap : heap := MkHeap ∅ 0 0x4000 0x100000.

Lemma malloc_correct_witness : exists r h' H', malloc 0x2f00 3 100 fresh_heap = Ok r h' /\ heap_ok 0x2f00 0x4000 H' h' /\
  kept 0x4000 [] fresh_heap h' /\
  (h_brk h' = h_brk fresh_heap \/ forall s, (true, s) ∈ ([] : row) -> s < units 100) /\
  (r = 0 /\ used 0x4000 H' = used 0x4000 [] /\ h_max fresh_heap < h_brk fresh_heap + 8 * chunk (units 100) /\
     h_brk h' = h_brk fresh_heap \/
   used 0x4000 H' ≡ₚ (r - 8, units 100) :: used 0x4000 [] /\ 100 <= 8 * (units 100 - 1)).
Proof. apply malloc_correct; [right; repeat split; simpl; lia|lia|simpl; lia]. Defined.

(** C15: [free] is correct: given the address of a block in use it returns, with
    a well-formed heap, with no two free blocks that touch, in which the
    blocks in use are all the others, whose bytes it did not change. *)
Theorem free_correct base start H h a s fuel :
  heap_ok base start H h -> (a, s) ∈ used start H -> (length H <= fuel)%nat ->
  exists h' H', free fuel (a + 8) h = Ok tt h' /\ heap_ok base start H' h' /\ h_brk h' = h_brk h /\
    used start H ≡ₚ (a, s) :: used start H' /\ kept start H' h h'.
Proof.
  intros Hok Hin Hf. destruct (used_split _ _ _ _ Hin) as (H1 & H2 & -> & ->).
  assert ((length (H1 ++ H2) < fuel)%nat) as Hf' by (rewrite length_app in *; simpl in *; lia).
  destruct (free_Ok base start fuel H1 s H2 h Hok Hf') as (h' & E & Hok' & Eb & _ & Hun).
  pose proof (ok_sizes _ _ _ _ Hok) as Hs. apply Forall_app in Hs as [Hs1 Hs2]. destruct (ok_bounds _ _ _ _ Hok) as (_ & Hb & _).
  eexists h', _. split_and!; [exact E|exact Hok'|done| |].
  - rewrite coalesce_used, !used_app. simpl. symmetry. apply Permutation_middle.
  - apply (untouched_kept base start _ (H1 ++ (true, s) :: H2)); [|done|by rewrite coalesce_used|done].
    apply Forall_app. split; [done|]. apply Forall_cons in Hs2 as [? ?]. by constructor.
Qed.

(** A heap with one block in use. *)
Definition small_heap : heap :=
  MkHeap (store32 (store32 (store32 ∅ 0x2f00 0x2f00) 0x2f04 0) 0x4004 3) 0x2f00 0x4018 0x100000.

Lemma free_correct_witness : exists h' H', free 1 (0x4000 + 8) small_heap = Ok tt h' /\ heap_ok 0x2f00 0x4000 H' h' /\
  h_brk h' = h_brk small_heap /\ used 0x4000 [(false, 3)] ≡ₚ (0x4000, 3) :: used 0x4000 H' /\ kept 0x4000 H' small_heap h'.
Proof.
  apply free_correct; [|by left|simpl; lia]. constructor; simpl.
  - by constructor.
  - done.
  - done.
  - lia.
  - repeat split; by vm_compute.
  - intros a s [= -> ->]%list_elem_of_singleton. by vm_compute.
  - by left.
Defined.

(** A request of 2^31 bytes or more gives [sbrk] a negative argument, or 0: the
    process does not grow, and may shrink, and still [morecore] gets an address
    that is not -1 (unless nothing is left), where it builds a block of the
    size asked for. *)
Theorem sbrk_huge nu h : 2 ^ 28 <= nu <= 2 ^ 29 -> 0 <= h_brk h < 2 ^ 32 ->
  exists r h', sbrk (i32 (nu * 8)) h = Ok r h' /\ h_brk h' <= h_brk h /\ (r = h_brk h \/ h_brk h = 2 ^ 32 - nu * 8 /\ r = -1).
Proof.
  intros Hn Hb. assert (i32 (nu * 8) = nu * 8 - 2 ^ 32) as E.
  { unfold i32. rewrite <- (Z_mod_plus_full _ (-1)), Z.mod_small by lia. lia. }
  unfold sbrk. rewrite E, (proj2 (Z.ltb_ge _ _)) by lia. set (b := h_brk h + (nu * 8 - 2 ^ 32)).
  destruct (Z.leb_spec (h_brk h) (u32 b)); [eexists _, _; split; [done|]; split; [lia|by left]|].
  destruct (Z.eqb_spec (u32 b) 0) as [E0|]; eexists _, _; (split; [done|]); cbn; (split; [lia|]); [|by left].
  right. split; [|done]. unfold u32 in E0. apply Z.mod_divide in E0 as [q Eq]; [|done]. unfold b in *. lia.
Qed.

(** The sum in [malloc] overflows: a request for the last bytes of the
    address space is served like one for none. *)
Theorem malloc_wraps base fuel nbytes h : 2 ^ 32 - 7 <= nbytes < 2 ^ 32 -> malloc base fuel nbytes h = malloc base fuel 0 h.
Proof.
  intros Hn. unfold malloc. enough (units nbytes = units 0) as -> by done.
  unfold units. assert (u32 (nbytes + 8 - 1) / 8 = 0) as ->; [|done].
  unfold u32. rewrite <- (Z_mod_plus_full _ (-1)), Z.mod_small by lia. apply Z.div_small. lia.
Qed.
