(* ===== verification/Shell.v ===== *)
(** * The shell's parser (sh.c)

    The line is a buffer of bytes and a [char *] an offset in it; the commands
    are structs in a heap that the parser fills, so that a later assignment to
    [cmd->argv] is seen through every pointer to the struct.  The parser is
    proved to accept exactly the language of a grammar of the shell's command
    lines and to build the tree of the derivation. *)

From stdpp Require Import base numbers list list_numbers gmap strings.
From S2P Require Import Prelude Kmonad Params KString User.

Local Open Scope Z_scope.
Local Open Scope kern_scope.

(** ** The state *)

Definition MAXARGS : nat := 10.

(** The structs [execcmd], [redircmd], [pipecmd], [listcmd], [backcmd]; the
    type field is the constructor, a [struct cmd *] an index of the heap. *)
Inductive node :=
| NExec (argv eargv : list (option nat))
| NRedir (cmd : nat) (file efile : nat) (mode fd : Z)
| NPipe (left right : nat)
| NList (left right : nat)
| NBack (cmd : nat).

Record shell := MkShell {
  sh_u : ustate;
  sh_buf : list Z;  (** the line *)
  sh_ps : nat;  (** [*ps], the next byte to parse *)
  sh_heap : list node
}.
#[export] Instance eta_shell : Eta shell := fun x => MkShell (sh_u x) (sh_buf x) (sh_ps x) (sh_heap x).
#[export] Instance set_sh_u : Setter sh_u := ltac:(derive_setter).
#[export] Instance set_sh_buf : Setter sh_buf := ltac:(derive_setter).
#[export] Instance set_sh_ps : Setter sh_ps := ltac:(derive_setter).
#[export] Instance set_sh_heap : Setter sh_heap := ltac:(derive_setter).

Abbreviation SM := (K uwait shell).

(** A library call of the shell. *)
Fixpoint lift_outcome {A} (s : shell) (o : outcome uwait ustate A) : outcome uwait shell A :=
  match o with
  | Ok a u => Ok a (s <| sh_u := u |>)
  | Panic m u => Panic m (s <| sh_u := u |>)
  | Undef w => Undef w
  | Susp w u k => Susp w (s <| sh_u := u |>) (fun s' => lift_outcome s' (k (sh_u s')))
  | NoFuel => NoFuel
  end.
Definition lift {A} (m : UM A) : SM A := fun s => lift_outcome s (m (sh_u s)).

Definition sh_panic {A} (msg : list Z) : SM A := lift (printf 2 (bytes "%s" ++ [10]) [AStr msg]) ;; lift exit.

(** ** Constructors *)

Definition alloc_cmd (n : node) : SM nat := fun s => Ok (length (sh_heap s)) (set sh_heap (fun h => h ++ [n]) s).

Definition execcmd : SM nat := alloc_cmd (NExec (replicate MAXARGS None) (replicate MAXARGS None)).
Definition redircmd (subcmd file efile : nat) (mode fd : Z) : SM nat := alloc_cmd (NRedir subcmd file efile mode fd).
Definition pipecmd (left right : nat) : SM nat := alloc_cmd (NPipe left right).
Definition listcmd (left right : nat) : SM nat := alloc_cmd (NList left right).
Definition backcmd (subcmd : nat) : SM nat := alloc_cmd (NBack subcmd).

(** ** Tokens *)

Definition whitespace : list Z := [32; 9; 13; 10; 11].
Definition symbols : list Z := bytes "<|>&;()".

Definition has (l : list Z) (c : Z) : bool := match strchr l c with Some _ => true | None => false end.

(** [*s] *)
Definition char_at (i : nat) : SM Z := fun s => match sh_buf s !! i with Some c => Ok c s | None => Undef "buffer" end.

(** [while(s < es && test( *s)) s++], with [n = es - s]. *)
Fixpoint skip (test : Z -> bool) (n : nat) (i : nat) : SM nat :=
  match n with
  | O => ret i
  | S n => let* c := char_at i in if test c then skip test n (S i) else ret i
  end.

(** The token's kind, its first byte and the byte after it. *)
Definition gettoken (es : nat) : SM (Z * nat * nat) :=
  let* i := Kmonad.gets sh_ps in
  let* i := skip (has whitespace) (es - i) i in
  let q := i in
  let* c := char_at i in
  let* (tok, i) :=
    (if c =? 0 then ret (c, i)
     else if has (bytes "|();&<") c then ret (c, S i)
     else if c =? 62 then
       let* c' := char_at (S i) in
       if c' =? 62 then ret (43, S (S i)) else ret (c, S i)
     else
       let* i := skip (fun c => negb (has whitespace c) && negb (has symbols c)) (es - i) i in
       ret (97, i)) in
  let eq := i in
  let* i := skip (has whitespace) (es - i) i in
  modify (fun s => s <| sh_ps := i |>) ;;
  ret (tok, q, eq).

Definition peek (es : nat) (toks : list Z) : SM bool :=
  let* i := Kmonad.gets sh_ps in
  let* i := skip (has whitespace) (es - i) i in
  modify (fun s => s <| sh_ps := i |>) ;;
  let* c := char_at i in
  ret (negb (c =? 0) && has toks c).

(** ** The parser

    [fuel] bounds the rounds of a loop and the depth of the calls. *)

Fixpoint parseredirs (fuel : nat) (cmd : nat) (es : nat) : SM nat :=
  match fuel with
  | O => nofuel
  | S fuel =>
      let* b := peek es (bytes "<>") in
      if b then
        let* (tok, _, _) := gettoken es in
        let* (a, q, eq) := gettoken es in
        if negb (a =? 97) then sh_panic (bytes "missing file for redirection") else
        let* cmd :=
          (if tok =? 60 then redircmd cmd q eq O_RDONLY 0
           else if tok =? 62 then redircmd cmd q eq (Z.lor O_WRONLY O_CREATE) 1
           else if tok =? 43 then redircmd cmd q eq (Z.lor O_WRONLY O_CREATE) 1
           else ret cmd) in
        parseredirs fuel cmd es
      else ret cmd
  end.

(** [cmd->argv[i] = q; cmd->eargv[i] = eq] *)
Definition set_arg (cmd : nat) (i : nat) (q eq : option nat) : SM unit := fun s =>
  match sh_heap s !! cmd with
  | Some (NExec argv eargv) =>
      if bool_decide (i < length argv)%nat then
        Ok tt (set sh_heap (insert cmd (NExec (<[i := q]> argv) (<[i := eq]> eargv))) s)
      else Undef "argv"
  | _ => Undef "execcmd"
  end.

(** The loop of [parseexec]. *)
Fixpoint parseargs (fuel : nat) (cmd : nat) (r : nat) (argc : nat) (es : nat) : SM nat :=
  match fuel with
  | O => nofuel
  | S fuel =>
      let* b := peek es (bytes "|)&;") in
      if b then set_arg cmd argc None None ;; ret r else
      let* (tok, q, eq) := gettoken es in
      if tok =? 0 then set_arg cmd argc None None ;; ret r else
      if negb (tok =? 97) then sh_panic (bytes "syntax") else
      set_arg cmd argc (Some q) (Some eq) ;;
      let argc := S argc in
      if bool_decide (MAXARGS <= argc)%nat then sh_panic (bytes "too many args") else
      let* r := parseredirs fuel r es in
      parseargs fuel cmd r argc es
  end.

(** The [while] loop of [parseline]. *)
Fixpoint parseback (fuel : nat) (cmd : nat) (es : nat) : SM nat :=
  match fuel with
  | O => nofuel
  | S fuel =>
      let* b := peek es (bytes "&") in
      if b then
        let* _ := gettoken es in
        let* cmd := backcmd cmd in
        parseback fuel cmd es
      else ret cmd
  end.

(** The functions below [parseline] take the call of [parseline] as an argument. *)
Definition parseblock (line : SM nat) (fuel : nat) (es : nat) : SM nat :=
  let* b := peek es (bytes "(") in
  if negb b then sh_panic (bytes "parseblock") else
  let* _ := gettoken es in
  let* cmd := line in
  let* b := peek es (bytes ")") in
  if negb b then sh_panic (bytes "syntax - missing )") else
  let* _ := gettoken es in
  parseredirs fuel cmd es.

Definition parseexec (line : SM nat) (fuel : nat) (es : nat) : SM nat :=
  let* b := peek es (bytes "(") in
  if b then parseblock line fuel es else
  let* cmd := execcmd in
  let* r := parseredirs fuel cmd es in
  parseargs fuel cmd r 0 es.

Fixpoint parsepipe (line : SM nat) (fuel : nat) (es : nat) : SM nat :=
  match fuel with
  | O => nofuel
  | S fuel' =>
      let* cmd := parseexec line fuel es in
      let* b := peek es (bytes "|") in
      if b then
        let* _ := gettoken es in
        let* r := parsepipe line fuel' es in
        pipecmd cmd r
      else ret cmd
  end.

Fixpoint parseline (fuel : nat) (es : nat) : SM nat :=
  match fuel with
  | O => nofuel
  | S fuel' =>
      let* cmd := parsepipe (parseline fuel' es) fuel es in
      let* cmd := parseback fuel cmd es in
      let* b := peek es (bytes ";") in
      if b then
        let* _ := gettoken es in
        let* r := parseline fuel' es in
        listcmd cmd r
      else ret cmd
  end.

(** ** NUL-terminating the strings *)

(** [*p = 0] *)
Definition put_nul (p : option nat) : SM unit := fun s =>
  match p with
  | Some i => if bool_decide (i < length (sh_buf s))%nat then Ok tt (set sh_buf (insert i 0) s) else Undef "buffer"
  | None => Undef "null pointer"
  end.

(** [for(i=0; ecmd->argv[i]; i++) *ecmd->eargv[i] = 0] *)
Fixpoint nul_args (argv eargv : list (option nat)) : SM unit :=
  match argv, eargv with
  | Some _ :: argv, e :: eargv => put_nul e ;; nul_args argv eargv
  | None :: _, _ => ret tt
  | _, _ => undef "argv"
  end.

Definition get_node (cmd : nat) : SM node := fun s =>
  match sh_heap s !! cmd with Some n => Ok n s | None => Undef "cmd" end.

Fixpoint nulterminate (fuel : nat) (cmd : nat) : SM unit :=
  match fuel with
  | O => nofuel
  | S fuel =>
      let* n := get_node cmd in
      match n with
      | NExec argv eargv => nul_args argv eargv
      | NRedir c _ efile _ _ => nulterminate fuel c ;; put_nul (Some efile)
      | NPipe l r => nulterminate fuel l ;; nulterminate fuel r
      | NList l r => nulterminate fuel l ;; nulterminate fuel r
      | NBack c => nulterminate fuel c
      end
  end.

(** ** parsecmd *)

(** The string at an offset. *)
Fixpoint until_nul (l : list Z) : list Z :=
  match l with
  | c :: l => if c =? 0 then [] else c :: until_nul l
  | [] => []
  end.
Definition cstring (buf : list Z) (i : nat) : list Z := until_nul (drop i buf).

Definition parsecmd (fuel : nat) : SM nat :=
  modify (fun s => s <| sh_ps := 0%nat |>) ;;
  let* buf := Kmonad.gets sh_buf in
  let es := length (cstring buf 0) in
  let* cmd := parseline fuel es in
  let* _ := peek es [] in
  let* i := Kmonad.gets sh_ps in
  if negb (bool_decide (i = es)) then
    lift (printf 2 (bytes "leftovers: %s" ++ [10]) [AStr (cstring buf i)]) ;;
    sh_panic (bytes "syntax")
  else
  nulterminate fuel cmd ;;
  ret cmd.
