(* ===== verification/Grammar.v ===== *)
(** * The language of the shell

    Tokens, the grammar of command lines, and a parser on tokens that decides
    it.  The proofs about sh.c relate its functions to this parser. *)

From stdpp Require Import base numbers list list_numbers sets gmap strings.
From S2P Require Import Prelude Kmonad Params KString User Shell.

Local Open Scope Z_scope.

(** ** Tokens *)

(** A symbol, [>>], or a word with its first byte and the byte after it. *)
Inductive tok := Sym (c : Z) | App | Word (q e : nat).

Definition special (c : Z) : bool := has whitespace c || has symbols c.

(** The tokens of a text that starts at offset [i]. *)
Fixpoint lex (i : nat) (t : list Z) : list tok :=
  match t with
  | [] => []
  | c :: t' =>
      if has whitespace c then lex (S i) t' else
      if c =? 62 then
        match t' with
        | [] => [Sym 62]
        | d :: t'' => if d =? 62 then App :: lex (S (S i)) t'' else Sym 62 :: lex (S i) t'
        end
      else if has symbols c then Sym c :: lex (S i) t' else
      match t' with
      | [] => [Word i (S i)]
      | d :: _ =>
          if special d then Word i (S i) :: lex (S i) t' else
          match lex (S i) t' with
          | Word _ e :: ts => Word i e :: ts
          | ts => ts
          end
      end
  end.

(** ** The grammar

<<
    line  ::= back | back ';' line
    back  ::= pipe | back '&'
    pipe  ::= exec | exec '|' pipe
    exec  ::= ( word | redir )*  |  '(' line ')' redir*
    redir ::= '<' word | '>' word | '>>' word
>>
    An [exec] has at most nine words. *)

Abbreviation span := (nat * nat)%type.
(** The file of a redirection, the mode it is opened with and the descriptor. *)
Abbreviation redir := (span * Z * Z)%type.

Inductive cmd :=
| Exec (args : list span)
| Redir (c : cmd) (r : redir)
| Pipe (l r : cmd)
| CList (l r : cmd)
| Back (c : cmd).

(** The first redirection is the innermost. *)
Definition wrap (rs : list redir) (c : cmd) : cmd := fold_left Redir rs c.

Definition redir_of (t : tok) : option (Z * Z) :=
  match t with
  | Sym c => if c =? 60 then Some (O_RDONLY, 0) else if c =? 62 then Some (Z.lor O_WRONLY O_CREATE, 1) else None
  | App => Some (Z.lor O_WRONLY O_CREATE, 1)
  | Word _ _ => None
  end.

Inductive gredirs : list redir -> list tok -> Prop :=
| gredirs_nil : gredirs [] []
| gredirs_cons t m fd q e rs ts :
    redir_of t = Some (m, fd) -> gredirs rs ts -> gredirs ((q, e, m, fd) :: rs) (t :: Word q e :: ts).

Inductive gargs : list span -> list redir -> list tok -> Prop :=
| gargs_nil : gargs [] [] []
| gargs_word q e ws rs ts : gargs ws rs ts -> gargs ((q, e) :: ws) rs (Word q e :: ts)
| gargs_redir t m fd q e ws rs ts :
    redir_of t = Some (m, fd) -> gargs ws rs ts -> gargs ws ((q, e, m, fd) :: rs) (t :: Word q e :: ts).

Inductive gline : cmd -> list tok -> Prop :=
| gline_back c ts : gback c ts -> gline c ts
| gline_list l r ts1 ts2 : gback l ts1 -> gline r ts2 -> gline (CList l r) (ts1 ++ Sym 59 :: ts2)
with gback : cmd -> list tok -> Prop :=
| gback_pipe c ts : gpipe c ts -> gback c ts
| gback_back c ts : gback c ts -> gback (Back c) (ts ++ [Sym 38])
with gpipe : cmd -> list tok -> Prop :=
| gpipe_exec c ts : gexec c ts -> gpipe c ts
| gpipe_pipe l r ts1 ts2 : gexec l ts1 -> gpipe r ts2 -> gpipe (Pipe l r) (ts1 ++ Sym 124 :: ts2)
with gexec : cmd -> list tok -> Prop :=
| gexec_simple ws rs ts : gargs ws rs ts -> (length ws < MAXARGS)%nat -> gexec (wrap rs (Exec ws)) ts
| gexec_block c rs ts1 ts2 : gline c ts1 -> gredirs rs ts2 -> gexec (wrap rs c) (Sym 40 :: ts1 ++ Sym 41 :: ts2).

Scheme gline_mut := Induction for gline Sort Prop
  with gback_mut := Induction for gback Sort Prop
  with gpipe_mut := Induction for gpipe Sort Prop
  with gexec_mut := Induction for gexec Sort Prop.
Combined Scheme grammar_mut from gline_mut, gback_mut, gpipe_mut, gexec_mut.

(** ** A parser on tokens *)

Inductive pres (A : Type) := POk (a : A) (ts : list tok) | PErr | PFuel.
Arguments POk {A} a ts.
Arguments PErr {A}.
Arguments PFuel {A}.

Definition pbind {A B} (r : pres A) (f : A -> list tok -> pres B) : pres B :=
  match r with POk a ts => f a ts | PErr => PErr | PFuel => PFuel end.

Fixpoint p_redirs (fuel : nat) (ts : list tok) : pres (list redir) :=
  match fuel with
  | O => PFuel
  | S fuel =>
      match ts with
      | [] => POk [] []
      | t :: ts1 =>
          match redir_of t with
          | None => POk [] ts
          | Some (m, fd) =>
              match ts1 with
              | Word q e :: ts2 => pbind (p_redirs fuel ts2) (fun rs ts => POk ((q, e, m, fd) :: rs) ts)
              | _ => PErr
              end
          end
      end
  end.

Fixpoint p_args (fuel : nat) (argc : nat) (ts : list tok) : pres (list span * list redir) :=
  match fuel with
  | O => PFuel
  | S fuel =>
      match ts with
      | [] => POk ([], []) []
      | Sym c :: _ => if has (bytes "|)&;") c then POk ([], []) ts else PErr
      | App :: _ => PErr
      | Word q e :: ts1 =>
          if bool_decide (MAXARGS <= S argc)%nat then PErr else
          pbind (p_redirs fuel ts1) (fun rs ts =>
          pbind (p_args fuel (S argc) ts) (fun x ts => POk ((q, e) :: x.1, rs ++ x.2) ts))
      end
  end.

(** The number of [&]. *)
Fixpoint p_back (fuel : nat) (ts : list tok) : pres nat :=
  match fuel with
  | O => PFuel
  | S fuel =>
      match ts with
      | Sym c :: ts1 => if c =? 38 then pbind (p_back fuel ts1) (fun n ts => POk (S n) ts) else POk 0%nat ts
      | _ => POk 0%nat ts
      end
  end.

Definition starts (c : Z) (ts : list tok) : bool := match ts with Sym d :: _ => d =? c | _ => false end.

Definition p_block (line : list tok -> pres cmd) (fuel : nat) (ts : list tok) : pres cmd :=
  if negb (starts 40 ts) then PErr else
  pbind (line (tail ts)) (fun c ts =>
  if negb (starts 41 ts) then PErr else
  pbind (p_redirs fuel (tail ts)) (fun rs ts => POk (wrap rs c) ts)).

Definition p_exec (line : list tok -> pres cmd) (fuel : nat) (ts : list tok) : pres cmd :=
  if starts 40 ts then p_block line fuel ts else
  pbind (p_redirs fuel ts) (fun rs ts =>
  pbind (p_args fuel 0 ts) (fun x ts => POk (wrap (rs ++ x.2) (Exec x.1)) ts)).

Fixpoint p_pipe (line : list tok -> pres cmd) (fuel : nat) (ts : list tok) : pres cmd :=
  match fuel with
  | O => PFuel
  | S fuel' =>
      pbind (p_exec line fuel ts) (fun c ts =>
      if starts 124 ts then pbind (p_pipe line fuel' (tail ts)) (fun r ts => POk (Pipe c r) ts) else POk c ts)
  end.

Fixpoint p_line (fuel : nat) (ts : list tok) : pres cmd :=
  match fuel with
  | O => PFuel
  | S fuel' =>
      pbind (p_pipe (p_line fuel') fuel ts) (fun c ts =>
      pbind (p_back fuel ts) (fun n ts =>
      let c := Nat.iter n Back c in
      if starts 59 ts then pbind (p_line fuel' (tail ts)) (fun r ts => POk (CList c r) ts) else POk c ts))
  end.

(** ** The parser is sound, and total with enough fuel *)

(** [r] is no error of the fuel, and a result comes with [R] for the tokens it
    has consumed. *)
Definition parsed {A} (R : A -> list tok -> Prop) (ts : list tok) (r : pres A) : Prop :=
  match r with
  | POk a ts' => exists ts1, ts = ts1 ++ ts' /\ R a ts1
  | PErr => True
  | PFuel => False
  end.

Lemma parsed_bind {A B} (R : A -> list tok -> Prop) (R' : B -> list tok -> Prop) ts r f :
  parsed R ts r -> (forall a ts1 ts', ts = ts1 ++ ts' -> R a ts1 -> parsed (fun b ts2 => R' b (ts1 ++ ts2)) ts' (f a ts')) ->
  parsed R' ts (pbind r f).
Proof.
  destruct r as [a ts'| |]; simpl; [|done..]. intros (ts1 & -> & HR) Hf. specialize (Hf a ts1 ts' eq_refl HR).
  destruct (f a ts') as [b ts''| |]; simpl in *; [|done..]. destruct Hf as (ts2 & -> & Hb). exists (ts1 ++ ts2). by rewrite <- app_assoc.
Qed.

Lemma parsed_ret {A} (R : A -> list tok -> Prop) a ts : R a [] -> parsed R ts (POk a ts).
Proof. intros. by exists []. Qed.

Lemma p_redirs_parsed : forall fuel ts, (length ts < fuel)%nat -> parsed gredirs ts (p_redirs fuel ts).
Proof.
  induction fuel as [|fuel IH]; intros ts Hf; [lia|]. destruct ts as [|t ts1]; cbn [p_redirs]; [by apply parsed_ret; constructor|].
  destruct (redir_of t) as [[m fd]|] eqn:Ht; [|by apply parsed_ret; constructor]. destruct ts1 as [|[| |q e] ts2]; [done..|].
  simpl in Hf. pose proof (IH ts2 ltac:(lia)) as H. destruct (p_redirs fuel ts2) as [rs ts'| |]; simpl in *; [|done..].
  destruct H as (ts1 & -> & H). exists (t :: Word q e :: ts1). split; [done|]. by constructor.
Qed.

Lemma gargs_redirs rs ts1 ws rs' ts2 : gredirs rs ts1 -> gargs ws rs' ts2 -> gargs ws (rs ++ rs') (ts1 ++ ts2).
Proof. intros Hr Ha. induction Hr; simpl; [done|]. by constructor. Qed.

Lemma p_args_parsed : forall fuel argc ts, (length ts < fuel)%nat -> (argc < MAXARGS)%nat ->
  parsed (fun x ts => gargs x.1 x.2 ts /\ (argc + length x.1 < MAXARGS)%nat) ts (p_args fuel argc ts).
Proof.
  induction fuel as [|fuel IH]; intros argc ts Hf Ha; [lia|].
  destruct ts as [|[c| |q e] ts1]; cbn [p_args]; [by apply parsed_ret; split; [constructor|simpl; lia]| |done|].
  { destruct (has _ c); [|done]. apply parsed_ret. split; [constructor|simpl; lia]. }
  case_bool_decide as Hm; [done|]. simpl in Hf.
  assert (parsed (fun x ts => gargs ((q, e) :: x.1) x.2 (Word q e :: ts) /\ (argc + S (length x.1) < MAXARGS)%nat) ts1
    (pbind (p_redirs fuel ts1) (fun rs ts => pbind (p_args fuel (S argc) ts) (fun x ts => POk (x.1, rs ++ x.2) ts)))) as H.
  - eapply parsed_bind; [apply p_redirs_parsed; lia|]. intros rs ts2 ts' -> Hr. rewrite length_app in Hf.
    eapply parsed_bind; [apply IH; lia|]. intros [ws rs'] ts3 ts'' -> [Hx Hl]. apply parsed_ret. simpl in *. split; [|lia].
    constructor. rewrite app_nil_r. by apply gargs_redirs.
  - destruct (p_redirs fuel ts1) as [rs ts2| |]; simpl in *; [|done..].
    destruct (p_args fuel (S argc) ts2) as [[ws rs'] ts3| |]; simpl in *; [|done..].
    destruct H as (ts4 & -> & H). by exists (Word q e :: ts4).
Qed.

Lemma p_back_parsed : forall fuel ts, (length ts < fuel)%nat -> parsed (fun n ts => ts = replicate n (Sym 38)) ts (p_back fuel ts).
Proof.
  induction fuel as [|fuel IH]; intros ts Hf; [lia|]. destruct ts as [|[c| |q e] ts1]; cbn [p_back]; try (by apply parsed_ret).
  destruct (Z.eqb_spec c 38) as [->|]; [|by apply parsed_ret]. simpl in Hf. pose proof (IH ts1 ltac:(lia)) as H.
  destruct (p_back fuel ts1) as [n ts'| |]; simpl in *; [|done..]. destruct H as (ts2 & -> & ->). by exists (Sym 38 :: replicate n (Sym 38)).
Qed.

Lemma gback_iter n c ts : gback c ts -> gback (Nat.iter n Back c) (ts ++ replicate n (Sym 38)).
Proof.
  intros H. induction n as [|n IH]; simpl; [by rewrite app_nil_r|]. rewrite replicate_cons_app, app_assoc. by constructor.
Qed.

Lemma starts_spec c ts : starts c ts = true -> exists ts', ts = Sym c :: ts'.
Proof. destruct ts as [|[d| |] ts]; [done| |done..]. simpl. intros ->%Z.eqb_eq. by exists ts. Qed.

(** A result in front of which stands a token that the caller has taken. *)
Lemma parsed_cons {A} (R : A -> list tok -> Prop) t ts r : parsed (fun a ts1 => R a (t :: ts1)) ts r -> parsed R (t :: ts) r.
Proof. destruct r as [a ts'| |]; simpl; [|done..]. intros (ts1 & -> & H). by exists (t :: ts1). Qed.

(** [line] parses lines shorter than [n]. *)
Definition line_parsed (n : nat) (line : list tok -> pres cmd) : Prop := forall ts, (length ts < n)%nat -> parsed gline ts (line ts).

Lemma p_block_parsed line fuel ts : line_parsed (length ts) line -> (length ts < fuel)%nat -> parsed gexec ts (p_block line fuel ts).
Proof.
  intros Hline Hf. unfold p_block. destruct (starts 40 ts) eqn:Es; [|done]. apply starts_spec in Es as [ts0 ->]. apply parsed_cons. cbn [tail length negb] in *.
  eapply parsed_bind; [by apply Hline; simpl; lia|]. intros c ts1 ts' -> Hc. rewrite length_app in Hf.
  destruct (starts 41 ts') eqn:Es; [|done]. apply starts_spec in Es as [ts0 ->]. apply parsed_cons. cbn [tail length negb] in *.
  eapply parsed_bind; [by apply p_redirs_parsed; lia|]. intros rs ts2 ts'' -> Hr. apply parsed_ret. rewrite app_nil_r. by constructor.
Qed.

Lemma p_exec_parsed line fuel ts : line_parsed (length ts) line -> (length ts < fuel)%nat -> parsed gexec ts (p_exec line fuel ts).
Proof.
  intros Hline Hf. unfold p_exec. destruct (starts 40 ts) eqn:Es; [by apply p_block_parsed|].
  eapply parsed_bind; [by apply p_redirs_parsed; lia|]. intros rs ts1 ts' -> Hr. rewrite length_app in Hf.
  eapply parsed_bind; [apply p_args_parsed; unfold MAXARGS; lia|]. intros [ws rs'] ts2 ts'' -> [Ha Hl]. apply parsed_ret.
  rewrite app_nil_r. constructor; [by apply gargs_redirs|done].
Qed.

Lemma line_parsed_le n n' line : line_parsed n line -> (n' <= n)%nat -> line_parsed n' line.
Proof. intros H Hn ts Ht. apply H. lia. Qed.

Lemma p_pipe_parsed line : forall fuel ts, line_parsed (length ts) line -> (length ts < fuel)%nat -> parsed gpipe ts (p_pipe line fuel ts).
Proof.
  induction fuel as [|fuel IH]; intros ts Hline Hf; [lia|]. cbn [p_pipe].
  eapply parsed_bind; [by apply p_exec_parsed|]. intros c ts1 ts' -> Hc. rewrite length_app in Hf, Hline.
  destruct (starts 124 ts') eqn:Es; [|by apply parsed_ret; rewrite app_nil_r; constructor].
  apply starts_spec in Es as [ts0 ->]. apply parsed_cons. cbn [tail length] in *.
  eapply parsed_bind; [apply IH; [by apply (line_parsed_le _ _ _ Hline); lia|lia]|].
  intros r ts3 ts4 -> Hr. apply parsed_ret. rewrite app_nil_r. by constructor.
Qed.

Lemma p_line_parsed : forall fuel, line_parsed fuel (p_line fuel).
Proof.
  induction fuel as [|fuel IH]; intros ts Hf; [lia|]. cbn [p_line].
  eapply parsed_bind; [apply p_pipe_parsed; [by apply (line_parsed_le _ _ _ IH); lia|done]|]. intros c ts1 ts' -> Hc. rewrite length_app in Hf.
  eapply parsed_bind; [by apply p_back_parsed; lia|]. intros n ts2 ts'' -> ->. rewrite length_app in Hf. cbv zeta.
  assert (gback (Nat.iter n Back c) (ts1 ++ replicate n (Sym 38))) as Hb by (by apply gback_iter; constructor).
  destruct (starts 59 ts'') eqn:Es; [|by apply parsed_ret; rewrite app_nil_r; constructor].
  apply starts_spec in Es as [ts0 ->]. apply parsed_cons. cbn [tail length] in *.
  eapply parsed_bind; [by apply IH; lia|]. intros r ts3 ts4 -> Hr. apply parsed_ret. rewrite app_nil_r, app_assoc. by constructor.
Qed.

(** ** The parser is complete *)

(** What may follow a phrase: the end, or one of the symbols [l]. *)
Definition follow (l : list Z) (ts : list tok) : Prop :=
  match ts with [] => True | Sym c :: _ => c ∈ l | _ => False end.

Lemma follow_mono l l' ts : l ⊆ l' -> follow l ts -> follow l' ts.
Proof. destruct ts as [|[c| |] ts]; simpl; auto. Qed.

Definition stops : list Z := [124; 41; 38; 59].

Lemma follow_stop ts fuel argc : follow stops ts -> (0 < fuel)%nat -> p_redirs fuel ts = POk [] ts /\ p_args fuel argc ts = POk ([], []) ts.
Proof.
  intros Hs Hf. destruct fuel as [|fuel]; [lia|]. destruct ts as [|[c| |] ts]; [done| |done..]. simpl in Hs.
  assert (redir_of (Sym c) = None /\ has (bytes "|)&;") c = true) as [E1 E2].
  { repeat (apply elem_of_cons in Hs as [->|Hs]; [by split|]). by apply elem_of_nil in Hs. }
  cbn [p_redirs p_args]. by rewrite E1, E2.
Qed.

Lemma p_redirs_complete rs ts : gredirs rs ts -> forall rest fuel, follow stops rest -> (length ts < fuel)%nat ->
  p_redirs fuel (ts ++ rest) = POk rs rest.
Proof.
  induction 1 as [|t m fd q e rs ts Ht _ IH]; intros rest fuel Hs Hf.
  - apply (follow_stop rest fuel 0); [done|]. simpl in Hf. lia.
  - simpl in Hf. destruct fuel as [|fuel]; [lia|]. simpl. by rewrite Ht, IH by (done || lia).
Qed.

Lemma p_args_complete ws rs ts : gargs ws rs ts -> forall rest f1 f2 argc, follow stops rest -> (length (ts ++ rest) < f1)%nat ->
  (length (ts ++ rest) < f2)%nat -> (argc + length ws < MAXARGS)%nat ->
  pbind (p_redirs f1 (ts ++ rest)) (fun rs ts => pbind (p_args f2 argc ts) (fun x ts => POk (x.1, rs ++ x.2) ts)) = POk (ws, rs) rest.
Proof.
  induction 1 as [|q e ws rs ts Hg IH|t m fd q e ws rs ts Ht Hg IH]; intros rest f1 f2 argc Hs Hf1 Hf2 Ha; simpl in Hf1, Hf2.
  - destruct (follow_stop rest f1 argc Hs) as [E1 _]; [lia|]. destruct (follow_stop rest f2 argc Hs) as [_ E2]; [lia|].
    simpl. by rewrite E1; simpl; rewrite E2.
  - destruct f1 as [|f1]; [lia|]. destruct f2 as [|f2]; [lia|]. cbn [app p_redirs redir_of pbind p_args]. simpl in Ha.
    rewrite bool_decide_false by lia. specialize (IH rest f2 f2 (S argc) Hs ltac:(lia) ltac:(lia) ltac:(lia)).
    destruct (p_redirs f2 (ts ++ rest)) as [rs1 ts1| |]; simpl in *; [|done..].
    destruct (p_args f2 (S argc) ts1) as [[ws1 rs2] ts2| |]; simpl in *; [|done..]. by injection IH as -> <- ->.
  - destruct f1 as [|f1]; [lia|]. cbn [app p_redirs]. rewrite Ht.
    specialize (IH rest f1 f2 argc Hs ltac:(lia) ltac:(lia) Ha).
    destruct (p_redirs f1 (ts ++ rest)) as [rs1 ts1| |]; simpl in *; [|done..].
    destruct (p_args f2 argc ts1) as [[ws1 rs2] ts2| |]; simpl in *; [|done..]. by injection IH as -> <- ->.
Qed.

Lemma p_back_complete n : forall rest fuel, follow [41; 59] rest -> (n < fuel)%nat -> p_back fuel (replicate n (Sym 38) ++ rest) = POk n rest.
Proof.
  induction n as [|n IH]; intros rest fuel Hs Hf; (destruct fuel as [|fuel]; [lia|]); simpl.
  - destruct rest as [|[c| |] rest]; [done| |done..]. simpl in Hs. by destruct (Z.eqb_spec c 38) as [->|]; [set_solver|].
  - by rewrite IH by (done || lia).
Qed.

Lemma follow_not c l ts : follow l ts -> c ∉ l -> starts c ts = false.
Proof.
  destruct ts as [|[d| |] ts]; simpl; [done| |done..]. intros Hd Hc. apply Z.eqb_neq. by intros ->.
Qed.

Lemma gargs_not_block ws rs ts rest : gargs ws rs ts -> follow stops rest -> starts 40 (ts ++ rest) = false.
Proof.
  intros Hg Hs. destruct Hg as [|q e ws rs ts _|t m fd q e ws rs ts Ht _]; [|done|].
  - by apply (follow_not 40 stops); [|set_solver].
  - destruct t as [c| |]; [|done..]. simpl in *. by destruct (Z.eqb_spec c 40) as [->|].
Qed.

(** The statements of completeness, by category. *)
Definition c_line (c : cmd) (ts : list tok) : Prop := forall rest fuel, follow [41] rest ->
  (length (ts ++ rest) < fuel)%nat -> p_line fuel (ts ++ rest) = POk c rest.
Definition c_pipe (c : cmd) (ts : list tok) : Prop := forall rest fuel n, follow [41; 38; 59] rest ->
  (length (ts ++ rest) < fuel)%nat -> (length (ts ++ rest) <= n)%nat -> p_pipe (p_line n) fuel (ts ++ rest) = POk c rest.
Definition c_exec (c : cmd) (ts : list tok) : Prop := forall rest fuel n, follow stops rest ->
  (length (ts ++ rest) < fuel)%nat -> (length (ts ++ rest) <= n)%nat -> p_exec (p_line n) fuel (ts ++ rest) = POk c rest.
Definition c_back (c : cmd) (ts : list tok) : Prop := exists n c0 ts0, c = Nat.iter n Back c0 /\ ts = ts0 ++ replicate n (Sym 38) /\ c_pipe c0 ts0.

Lemma c_line_back c ts rest fuel : c_back c ts -> follow [41; 59] rest -> (length (ts ++ rest) < S fuel)%nat ->
  p_line (S fuel) (ts ++ rest) =
    if starts 59 rest then pbind (p_line fuel (tail rest)) (fun r ts => POk (CList c r) ts) else POk c rest.
Proof.
  intros (n & c0 & ts0 & -> & -> & Hp) Hs Hf. cbn [p_line]. rewrite <- app_assoc in *.
  assert (length (replicate n (Sym 38) ++ rest) <= length (ts0 ++ replicate n (Sym 38) ++ rest))%nat as Hl by (rewrite (length_app ts0); lia).
  rewrite Hp; [|destruct n; [by apply (follow_mono [41; 59]); [set_solver|]|simpl; set_solver]|lia|lia].
  cbn [pbind]. rewrite p_back_complete; [done|done|]. rewrite length_app, length_replicate in Hl. lia.
Qed.

Lemma grammar_complete :
  (forall c ts, gline c ts -> c_line c ts) /\ (forall c ts, gback c ts -> c_back c ts) /\
  (forall c ts, gpipe c ts -> c_pipe c ts) /\ (forall c ts, gexec c ts -> c_exec c ts).
Proof.
  apply (grammar_mut (fun c ts _ => c_line c ts) (fun c ts _ => c_back c ts) (fun c ts _ => c_pipe c ts) (fun c ts _ => c_exec c ts)).
  - intros c ts _ Hb rest fuel Hs Hf. destruct fuel as [|fuel]; [lia|].
    rewrite (c_line_back c ts); [|done|by apply (follow_mono [41]); [set_solver|]|done]. by rewrite (follow_not 59 [41]) by (done || set_solver).
  - intros l r ts1 ts2 _ Hl _ Hr rest fuel Hs Hf. destruct fuel as [|fuel]; [lia|]. rewrite <- app_assoc in *.
    rewrite (c_line_back l ts1); [|done|simpl; set_solver|done]. simpl. rewrite Hr; [done|done|].
    rewrite length_app in Hf. simpl in Hf. lia.
  - intros c ts _ Hp. exists 0%nat, c, ts. by rewrite app_nil_r.
  - intros c ts _ (n & c0 & ts0 & -> & -> & Hp). exists (S n), c0, ts0. split_and!; [done| |done].
    by rewrite <- app_assoc, <- replicate_cons_app.
  - intros c ts _ He rest fuel n Hs Hf Hn. destruct fuel as [|fuel]; [lia|]. cbn [p_pipe].
    rewrite He; [|by apply (follow_mono [41; 38; 59]); [unfold stops; set_solver|]|lia|lia]. cbn [pbind].
    by rewrite (follow_not 124 [41; 38; 59]) by (done || set_solver).
  - intros l r ts1 ts2 _ Hl _ Hr rest fuel n Hs Hf Hn. destruct fuel as [|fuel]; [lia|]. rewrite <- app_assoc in *. cbn [p_pipe].
    rewrite Hl; [|simpl; unfold stops; set_solver|lia|lia]. simpl. rewrite length_app in Hf, Hn. simpl in Hf, Hn. by rewrite Hr by (done || lia).
  - intros ws rs ts Hg Hl rest fuel n Hs Hf _. unfold p_exec. rewrite (gargs_not_block ws rs) by done.
    pose proof (p_args_complete ws rs ts Hg rest fuel fuel 0 Hs ltac:(lia) ltac:(lia) Hl) as E.
    destruct (p_redirs fuel (ts ++ rest)) as [rs1 ts1| |]; simpl in *; [|done..].
    destruct (p_args fuel 0 ts1) as [[ws1 rs2] ts2| |]; simpl in *; [|done..]. by injection E as -> <- ->.
  - intros c rs ts1 ts2 _ Hc Hr rest fuel n Hs Hf Hn. unfold p_exec, p_block. simpl in *. rewrite <- app_assoc in *. simpl in *.
    rewrite Hc; [|simpl; set_solver|lia]. simpl. rewrite (p_redirs_complete rs ts2 Hr); [done|done|].
    rewrite length_app in Hf. simpl in Hf. rewrite length_app in Hf. lia.
Qed.

(** The grammar has at most one tree for a line, and the parser decides it. *)
Lemma p_line_decides fuel ts : (length ts < fuel)%nat ->
  match p_line fuel ts with
  | POk c [] => gline c ts /\ forall c', gline c' ts -> c' = c
  | PFuel => False
  | _ => forall c, ~ gline c ts
  end.
Proof.
  intros Hf. pose proof (p_line_parsed fuel ts Hf) as Hp.
  assert (forall c, gline c ts -> p_line fuel ts = POk c []) as Hc.
  { intros c Hc. apply (proj1 grammar_complete) in Hc. specialize (Hc [] fuel I). rewrite app_nil_r in Hc. by apply Hc. }
  destruct (p_line fuel ts) as [c [|t ts']| |]; simpl in Hp; [|intros c' ?%Hc; congruence|intros c' ?%Hc; congruence|done].
  destruct Hp as (ts1 & -> & Hg). rewrite app_nil_r in *. split; [done|]. intros c' E%Hc. congruence.
Qed.

Lemma gline_dec ts : (exists c, gline c ts /\ forall c', gline c' ts -> c' = c) \/ forall c, ~ gline c ts.
Proof.
  pose proof (p_line_decides (S (length ts)) ts (le_n _)) as H. destruct (p_line _ ts) as [c [|t ts']| |]; [|by right..|done].
  left. exists c. done.
Qed.
