(* ===== verification/Shparse.v ===== *)
(** * The shell's parser is correct

    The functions of sh.c simulate the parser on tokens of Grammar.v, and so
    accept the language of the grammar; [nulterminate] then turns the words of
    the tree into strings. *)

From stdpp Require Import base numbers list list_numbers sets gmap strings.
From S2P Require Import Prelude Kmonad Params KString User Shell Grammar.

Local Open Scope Z_scope.
Local Open Scope kern_scope.

(** ** Reading tokens *)

(** The length of the longest prefix that passes the test. *)
Fixpoint adv (test : Z -> bool) (l : list Z) : nat :=
  match l with
  | c :: l => if test c then S (adv test l) else O
  | [] => O
  end.

Lemma adv_le test l : (adv test l <= length l)%nat.
Proof. induction l as [|c l IH]; simpl; [lia|]. destruct (test c); lia. Qed.

Lemma lex_space l : forall i, lex i l = lex (i + adv (has whitespace) l) (drop (adv (has whitespace) l) l).
Proof.
  induction l as [|c l IH]; intros i; simpl; [done|]. destruct (has whitespace c) eqn:E; simpl.
  - rewrite IH. f_equal. lia.
  - rewrite E. by replace (i + 0)%nat with i by lia.
Qed.

Abbreviation wordchar := (fun c => negb (has whitespace c) && negb (has symbols c)).

Lemma wordchar_special c : wordchar c = negb (special c).
Proof. unfold special. by destruct (has whitespace c), (has symbols c). Qed.

Lemma lex_word l : forall i c, special c = false ->
  lex i (c :: l) = Word i (i + S (adv wordchar l)) :: lex (i + S (adv wordchar l)) (drop (adv wordchar l) l).
Proof.
  induction l as [|d l IH]; intros i c Hc; assert (has whitespace c = false /\ has symbols c = false) as [Hw Hs] by (unfold special in Hc; by apply orb_false_iff in Hc).
  - cbn [lex adv drop]. rewrite Hw, Hs. destruct (Z.eqb_spec c 62) as [->|]; [done|]. repeat f_equal. lia.
  - cbn [lex]. rewrite Hw, Hs. destruct (Z.eqb_spec c 62) as [->|]; [done|]. cbn [adv]. rewrite wordchar_special.
    destruct (special d) eqn:Hd; cbn [negb drop].
    + by replace (i + 1)%nat with (S i) by lia.
    + change (match lex (S i) (d :: l) with Word _ e :: ts => Word i e :: ts | ts => ts end =
        Word i (i + S (S (adv wordchar l))) :: lex (i + S (S (adv wordchar l))) (drop (adv wordchar l) l)).
      rewrite IH by done. by replace (S i + S (adv wordchar l))%nat with (i + S (S (adv wordchar l)))%nat by lia.
Qed.

(** ** Exits *)

(** The user state after [l] was written to descriptor 2, byte by byte, if it
    takes the bytes. *)
Definition told (l : list Z) (u : ustate) : ustate := if u_full u 2 then u else set u_out (fun o => o ++ map (fun c => (2, [c])) l) u.

Lemma told_nil u : told [] u = u.
Proof. unfold told. destruct (u_full u 2), u; [done|]. unfold set, set_u_out. simpl. by rewrite app_nil_r. Qed.

Lemma told_told l l' u : told l' (told l u) = told (l ++ l') u.
Proof.
  unfold told at 2 3. destruct (u_full u 2) eqn:E; unfold told; [by rewrite E|]. simpl. rewrite E.
  unfold set, set_u_out. simpl. by rewrite map_app, app_assoc.
Qed.

Lemma putc_told c u : putc 2 c u = Ok tt (told [c] u).
Proof. unfold putc, bind, write, told. by destruct (u_full u 2). Qed.

Lemma uputs_told l : forall u, uputs 2 l u = Ok tt (told l u).
Proof.
  induction l as [|c l IH]; intros u; [by rewrite told_nil|]. unfold uputs. cbn [for_each]. rewrite (bind_Ok _ _ _ _ _ (putc_told c u)).
  fold (uputs 2 l). by rewrite IH, told_told.
Qed.

Lemma printf_plain l fmt args : Forall (fun c => c <> 37) l -> forall u, printf_loop 2 false (l ++ fmt) args u = printf_loop 2 false fmt args (told l u).
Proof.
  intros Hl. induction Hl as [|c l Hc Hl IH]; intros u; [by rewrite told_nil|]. simpl. rewrite (proj2 (Z.eqb_neq c 37) Hc).
  rewrite (bind_Ok _ _ _ _ _ (putc_told c u)), IH. by rewrite told_told.
Qed.

(** A message with one string. *)
Lemma printf_s_told pre msg u : Forall (fun c => c <> 37) pre -> printf 2 (pre ++ [37; 115; 10]) [AStr msg] u = Ok tt (told (pre ++ msg ++ [10]) u).
Proof.
  intros Hpre. unfold printf. rewrite printf_plain by done. cbn [printf_loop negb Z.eqb Pos.eqb orb].
  rewrite (bind_Ok _ _ _ _ _ (uputs_told msg _)), told_told. rewrite (bind_Ok _ _ _ _ _ (putc_told 10 _)), told_told. by rewrite <- app_assoc.
Qed.

(** What the parser says about the text [t] when it is not a command. *)
Definition complaints : list (list Z) :=
  map (fun m => bytes m ++ [10]) ["missing file for redirection"; "syntax"; "too many args"; "parseblock"; "syntax - missing )"]%string.
Definition complaint (t msg : list Z) : Prop :=
  msg ∈ complaints \/ exists i, msg = (bytes "leftovers: " ++ drop i t ++ [10]) ++ bytes "syntax" ++ [10].

(** The process exits after a complaint about [t], from the user state [u]. *)
Definition died {A} (t : list Z) (u : ustate) (o : outcome uwait shell A) : Prop :=
  exists s k msg, o = Susp UExit s k /\ sh_u s = told msg u /\ complaint t msg.

Lemma lift_Ok {A} (m : UM A) s a u : m (sh_u s) = Ok a u -> lift m s = Ok a (s <| sh_u := u |>).
Proof. unfold lift. by intros ->. Qed.

Lemma sh_panic_told {A} msg s : exists k, @sh_panic A msg s = Susp UExit (s <| sh_u := told (msg ++ [10]) (sh_u s) |>) k.
Proof.
  unfold sh_panic. rewrite (bind_Ok _ _ _ _ _ (lift_Ok _ s _ _ (printf_s_told [] msg (sh_u s) (Forall_nil_2 _)))).
  unfold lift. simpl. eauto.
Qed.

Lemma sh_panic_died {A} t u msg s : sh_u s = u -> msg ++ [10] ∈ complaints -> died t u (@sh_panic A msg s).
Proof. intros <- Hm. destruct (@sh_panic_told A msg s) as [k E]. eexists _, k, _. split; [exact E|]. split; [done|by left]. Qed.

Lemma died_bind {A B} t u (m : SM A) (k : A -> SM B) s : died t u (m s) -> died t u (bind m k s).
Proof. intros (s' & k' & msg & E & H). rewrite (bind_Susp _ _ _ _ _ _ E). unfold died. eauto 6. Qed.

(** ** Simulation

    [simp t u o r Q]: the outcome [o] of a function of sh.c follows the result
    [r] of the parser on tokens; it exits only after a complaint. *)
Definition simp {A X} (t : list Z) (u : ustate) (o : outcome uwait shell A) (r : pres X) (Q : A -> X -> list tok -> shell -> Prop) : Prop :=
  match r with
  | POk x ts => exists a s, o = Ok a s /\ Q a x ts s
  | PErr => died t u o
  | PFuel => True
  end.

Lemma simp_bind {A B X Y} t u (m : SM A) (k : A -> SM B) (r : pres X) (f : X -> list tok -> pres Y) Q Q' s :
  simp t u (m s) r Q -> (forall a x ts s', Q a x ts s' -> simp t u (k a s') (f x ts) Q') -> simp t u (bind m k s) (pbind r f) Q'.
Proof.
  intros Hm Hk. destruct r as [x ts| |]; simpl in *; [|by apply died_bind|done].
  destruct Hm as (a & s' & E & HQ). rewrite (bind_Ok _ _ _ _ _ E). by apply Hk.
Qed.

Lemma simp_map {A X Y} t u (o : outcome uwait shell A) (r : pres X) (g : X -> Y) (Q : A -> X -> list tok -> shell -> Prop) Q' :
  simp t u o r Q -> (forall a x ts s, Q a x ts s -> Q' a (g x) ts s) -> simp t u o (pbind r (fun x ts => POk (g x) ts)) Q'.
Proof. destruct r as [x ts| |]; simpl; [|done..]. intros (a & s & E & HQ) Hg. eauto. Qed.

Lemma simp_mono {A X} t u (o : outcome uwait shell A) (r : pres X) (Q Q' : A -> X -> list tok -> shell -> Prop) :
  simp t u o r Q -> (forall a x ts s, Q a x ts s -> Q' a x ts s) -> simp t u o r Q'.
Proof. destruct r; simpl; [|done..]. intros (a' & s & E & HQ) Hm. eauto 6. Qed.

(** ** The tree in the heap *)

Definition args_of (f : span -> nat) (ws : list span) : list (option nat) :=
  map (fun w => Some (f w)) ws ++ replicate (MAXARGS - length ws) None.
Definition exec_node (ws : list span) : node := NExec (args_of fst ws) (args_of snd ws).

Lemma args_of_length f ws : (length ws < MAXARGS)%nat -> length (args_of f ws) = MAXARGS.
Proof. intros Hl. unfold args_of. rewrite length_app, length_map, length_replicate. lia. Qed.

Lemma args_of_snoc f ws w : (length ws < MAXARGS)%nat -> <[length ws := Some (f w)]> (args_of f ws) = args_of f (ws ++ [w]).
Proof.
  intros Hl. unfold args_of. rewrite insert_app_r_alt by (by rewrite length_map). rewrite length_map, Nat.sub_diag, map_app, length_app, <- app_assoc.
  f_equal. replace (MAXARGS - length ws)%nat with (S (MAXARGS - (length ws + length [w]))) by (simpl; lia). done.
Qed.

Lemma args_of_end f ws : (length ws < MAXARGS)%nat -> args_of f ws !! length ws = Some None.
Proof.
  intros Hl. unfold args_of. rewrite lookup_app_r by (by rewrite length_map). rewrite length_map, Nat.sub_diag.
  by replace (MAXARGS - length ws)%nat with (S (MAXARGS - S (length ws))) by lia.
Qed.

Fixpoint repr (h : list node) (p : nat) (c : cmd) : Prop :=
  match c with
  | Exec ws => h !! p = Some (exec_node ws) /\ (length ws < MAXARGS)%nat
  | Redir c (q, e, m, fd) => exists p', h !! p = Some (NRedir p' q e m fd) /\ repr h p' c
  | Pipe l r => exists pl pr, h !! p = Some (NPipe pl pr) /\ repr h pl l /\ repr h pr r
  | CList l r => exists pl pr, h !! p = Some (NList pl pr) /\ repr h pl l /\ repr h pr r
  | Back c => exists p', h !! p = Some (NBack p') /\ repr h p' c
  end.

Lemma repr_mono h h' c : h `prefix_of` h' -> forall p, repr h p c -> repr h' p c.
Proof.
  intros Hh. assert (forall p n, h !! p = Some n -> h' !! p = Some n) as Hl by (intros p n Hp; by apply (prefix_lookup_Some h)).
  induction c as [ws|c IH [[[q e] m] fd]|l IHl r IHr|l IHl r IHr|c IH]; intros p; simpl.
  - intros [H1 H2]. auto.
  - intros (p' & H1 & H2). exists p'. auto.
  - intros (pl & pr & H1 & H2 & H3). exists pl, pr. auto.
  - intros (pl & pr & H1 & H2 & H3). exists pl, pr. auto.
  - intros (p' & H1 & H2). exists p'. auto.
Qed.

(** The redirections [rs] around [p] lead to [r]. *)
Fixpoint chain (h : list node) (p : nat) (rs : list redir) (r : nat) : Prop :=
  match rs with
  | [] => r = p
  | (q, e, m, fd) :: rs => exists p1, h !! p1 = Some (NRedir p q e m fd) /\ chain h p1 rs r
  end.

Lemma chain_mono h h' rs : (forall i q e p m fd, h !! i = Some (NRedir p q e m fd) -> h' !! i = Some (NRedir p q e m fd)) ->
  forall p r, chain h p rs r -> chain h' p rs r.
Proof.
  intros Hh. induction rs as [|[[[q e] m] fd] rs IH]; intros p r; simpl; [done|]. intros (p1 & H1 & H2). eauto.
Qed.

Lemma chain_prefix h h' rs p r : h `prefix_of` h' -> chain h p rs r -> chain h' p rs r.
Proof. intros Hh. apply chain_mono. intros. by apply (prefix_lookup_Some h). Qed.

Lemma chain_app h rs1 : forall rs2 p q r, chain h p rs1 q -> chain h q rs2 r -> chain h p (rs1 ++ rs2) r.
Proof.
  induction rs1 as [|[[[? ?] ?] ?] rs1 IH]; intros rs2 p q r; simpl; [by intros ->|]. intros (p1 & H1 & H2) H3. eauto.
Qed.

Lemma chain_repr h rs : forall p r c, repr h p c -> chain h p rs r -> repr h r (wrap rs c).
Proof.
  induction rs as [|[[[q e] m] fd] rs IH]; intros p r c Hc; simpl; [by intros ->|]. intros (p1 & H1 & H2).
  apply (IH p1); [|done]. simpl. eauto.
Qed.

(** ** The line *)

Section line.
Context (t junk : list Z) (u : ustate).
Hypothesis Ht : Forall (fun c => c <> 0) t.
Abbreviation es := (length t).

(** The parser stands before the tokens [ts]. *)
Record at_tokens (s : shell) (ts : list tok) : Prop := {
  at_buf : sh_buf s = t ++ 0 :: junk;
  at_ps : (sh_ps s <= es)%nat;
  at_lex : lex (sh_ps s) (drop (sh_ps s) t) = ts;
  at_u : sh_u s = u
}.

(** A call of [panic] in a state that stands before tokens. *)
Ltac panics := apply sh_panic_died; [match goal with H : at_tokens ?s _ |- _ => exact (at_u s _ H) end|apply (bool_decide_unpack _); by vm_compute].

Lemma char_text s i c l : sh_buf s = t ++ 0 :: junk -> drop i t = c :: l -> char_at i s = Ok c s.
Proof.
  intros Hb Hd. unfold char_at. assert (t !! i = Some c) as Hc.
  { rewrite <- (Nat.add_0_r i), <- lookup_drop, Hd. done. }
  rewrite Hb, lookup_app_l by (by eapply lookup_lt_Some). by rewrite Hc.
Qed.

Lemma char_end s : sh_buf s = t ++ 0 :: junk -> char_at es s = Ok 0 s.
Proof. intros Hb. unfold char_at. by rewrite Hb, list_lookup_middle. Qed.

Lemma drop_next i c l : drop i t = c :: l -> drop (S i) t = l.
Proof. intros Ed. by rewrite <- Nat.add_1_r, <- (drop_drop t 1 i), Ed. Qed.

Lemma skip_Ok test s : sh_buf s = t ++ 0 :: junk -> forall n i, (i <= es)%nat -> n = (es - i)%nat ->
  skip test n i s = Ok (i + adv test (drop i t))%nat s.
Proof.
  intros Hb. induction n as [|n IH]; intros i Hi Hn; cbn [skip].
  - rewrite drop_ge by lia. simpl. unfold ret. f_equal. lia.
  - destruct (drop i t) as [|c l] eqn:Ed; [apply (f_equal length) in Ed; rewrite length_drop in Ed; simpl in Ed; lia|].
    rewrite (bind_Ok _ _ _ _ _ (char_text s i c l Hb Ed)). cbn [adv].
    destruct (test c); [|by rewrite Nat.add_0_r]. rewrite (IH (S i)) by lia.
    rewrite (drop_next i c l Ed). f_equal. lia.
Qed.

Lemma drop_end i : drop i t = [] -> (i <= es)%nat -> i = es.
Proof. intros Ed Hi. apply (f_equal length) in Ed. rewrite length_drop in Ed. simpl in Ed. lia. Qed.

Lemma drop_in i c l : drop i t = c :: l -> c <> 0 /\ (S i <= es)%nat.
Proof.
  intros Ed. split; [|apply (f_equal length) in Ed; rewrite length_drop in Ed; simpl in Ed; lia].
  rewrite Forall_forall in Ht. apply Ht, (list_elem_of_lookup_2 _ i). by rewrite <- (Nat.add_0_r i), <- lookup_drop, Ed.
Qed.

(** The state that stands at [i]. *)
Definition move (i : nat) (s : shell) : shell := s <| sh_ps := i |>.

Lemma move_at s i : sh_buf s = t ++ 0 :: junk -> sh_u s = u -> (i <= es)%nat -> at_tokens (move i s) (lex i (drop i t)).
Proof. by split. Qed.

Lemma lex_skip i : lex i (drop i t) = lex (i + adv (has whitespace) (drop i t)) (drop (i + adv (has whitespace) (drop i t)) t).
Proof. by rewrite <- (drop_drop t), <- lex_space. Qed.

Lemma adv_in test i : (i <= es)%nat -> (i + adv test (drop i t) <= es)%nat.
Proof. intros Hi. pose proof (adv_le test (drop i t)) as H. rewrite length_drop in H. lia. Qed.

Lemma adv_stop test l c l' : drop (adv test l) l = c :: l' -> test c = false.
Proof.
  induction l as [|d l IH]; simpl; [done|]. destruct (test d) eqn:E; simpl; [done|]. by intros [= -> ->].
Qed.

(** What [gettoken] reports of the tokens and leaves. *)
Definition took (ts : list tok) (x : Z * nat * nat) (ts' : list tok) : Prop :=
  match ts with
  | [] => x.1.1 = 0 /\ ts' = []
  | Sym c :: ts1 => x.1.1 = c /\ has symbols c = true /\ ts' = ts1
  | App :: ts1 => x.1.1 = 43 /\ ts' = ts1
  | Word q e :: ts1 => x = (97, q, e) /\ ts' = ts1
  end.

Lemma finish_token s i (x : Z * nat * nat) : sh_buf s = t ++ 0 :: junk -> sh_u s = u -> (i <= es)%nat ->
  exists j, (let* j := skip (has whitespace) (es - i) i in modify (fun s => s <| sh_ps := j |>) ;; ret x) s = Ok x (move j s) /\
    at_tokens (move j s) (lex i (drop i t)).
Proof.
  intros Hb Hu Hi. exists (i + adv (has whitespace) (drop i t))%nat. split.
  - by rewrite (bind_Ok _ _ _ _ _ (skip_Ok _ s Hb _ _ Hi eq_refl)).
  - rewrite lex_skip. apply move_at; [done|done|]. by apply adv_in.
Qed.

Lemma symbol_cases c : has (bytes "|();&<") c = true -> has symbols c = true /\ (c =? 62) = false /\ (c =? 0) = false.
Proof.
  intros H. assert (c = 124 \/ c = 40 \/ c = 41 \/ c = 59 \/ c = 38 \/ c = 60) as Hc.
  { unfold has, bytes in H. cbn in H. repeat (match type of H with context [?a =? c] => destruct (Z.eqb_spec a c); [lia|] end). done. }
  by destruct Hc as [->|[->|[->|[->|[->| ->]]]]].
Qed.

Lemma symbol_split c : has symbols c = has (bytes "|();&<") c || (c =? 62).
Proof.
  unfold has, symbols, bytes. cbn. rewrite (Z.eqb_sym c 62).
  repeat (match goal with |- context [?a =? c] => destruct (Z.eqb_spec a c) as [<-|]; [done|] end). done.
Qed.

Lemma token_body s i c l : sh_buf s = t ++ 0 :: junk -> drop i t = c :: l -> has whitespace c = false -> (S i <= es)%nat ->
  exists k j, (if has (bytes "|();&<") c then ret (c, S i)
     else if c =? 62 then let* c' := char_at (S i) in if c' =? 62 then ret (43, S (S i)) else ret (c, S i)
     else let* i := skip wordchar (es - i) i in ret (97, i)) s = Ok (k, j) s /\ (j <= es)%nat /\
    took (lex i (c :: l)) (k, i, j) (lex j (drop j t)).
Proof.
  intros Hb Ed Hw Hi. pose proof (drop_next i c l Ed) as Ed1. pose proof (symbol_split c) as Hs.
  destruct (has (bytes "|();&<") c) eqn:Hc.
  { destruct (symbol_cases c Hc) as (Hc1 & Hc2 & _). exists c, (S i). split_and!; [done|done|].
    cbn [lex]. by rewrite Hw, Hc2, Hc1, Ed1. }
  destruct (Z.eqb_spec c 62) as [->|Hne].
  - cbn [lex]. rewrite Hw, Z.eqb_refl. destruct l as [|d l'].
    + pose proof (drop_end _ Ed1 Hi) as E.
      rewrite E, (bind_Ok _ _ _ _ _ (char_end s Hb)). exists 62, es. split_and!; [done|done|]. by rewrite drop_ge.
    + rewrite (bind_Ok _ _ _ _ _ (char_text s (S i) d l' Hb Ed1)). pose proof (drop_next (S i) d l' Ed1) as Ed2.
      destruct (drop_in _ _ _ Ed1) as [_ Hi2].
      destruct (d =? 62); [exists 43, (S (S i))|exists 62, (S i)]; split_and!; try done; [by rewrite Ed2|by rewrite Ed1].
  - assert (special c = false) as Hsp by (unfold special; by rewrite Hw, Hs).
    assert (i <= es)%nat as Hi' by lia. rewrite (bind_Ok _ _ _ _ _ (skip_Ok _ s Hb _ _ Hi' eq_refl)).
    exists 97, (i + adv wordchar (drop i t))%nat. split_and!; [done|by apply adv_in|].
    rewrite lex_word, <- (drop_drop t) by done. rewrite Ed. cbn [adv]. rewrite wordchar_special, Hsp. done.
Qed.

Lemma gettoken_Ok s ts : at_tokens s ts -> exists x j ts', gettoken es s = Ok x (move j s) /\ at_tokens (move j s) ts' /\ took ts x ts'.
Proof.
  intros [Hb Hps Hl Hu]. unfold gettoken. rewrite (bind_Ok (Kmonad.gets sh_ps) _ s (sh_ps s) s eq_refl).
  rewrite (bind_Ok _ _ _ _ _ (skip_Ok _ s Hb _ _ Hps eq_refl)). rewrite lex_skip in Hl. pose proof (adv_in (has whitespace) _ Hps) as Hi.
  pose proof (adv_stop (has whitespace) (drop (sh_ps s) t)) as Hstop. rewrite drop_drop in Hstop.
  set (i := (sh_ps s + _)%nat) in *. destruct (drop i t) as [|c l] eqn:Ed.
  - pose proof (drop_end i Ed Hi) as Ei.
    rewrite Ei. rewrite (bind_Ok _ _ _ _ _ (char_end s Hb)). cbn [Z.eqb].
    rewrite (bind_Ok (ret (0, es)) _ s (0, es) s eq_refl). destruct (finish_token s es (0, es, es) Hb Hu ltac:(lia)) as (j & E & Ha).
    rewrite drop_ge in Ha by lia. exists (0, es, es), j, []. rewrite E. by subst ts.
  - specialize (Hstop c l eq_refl). rewrite (bind_Ok _ _ _ _ _ (char_text s i c l Hb Ed)).
    destruct (drop_in i c l Ed) as [Hc0 Hi1].
    rewrite (proj2 (Z.eqb_neq c 0) Hc0). destruct (token_body s i c l Hb Ed Hstop Hi1) as (k & j & E & Hj & Htk).
    rewrite (bind_Ok _ _ _ _ _ E). destruct (finish_token s j (k, i, j) Hb Hu Hj) as (j' & E' & Ha).
    exists (k, i, j), j', (lex j (drop j t)). rewrite Hl in Htk. by split_and!.
Qed.

(** [peek] for symbols. *)
Definition next_in (toks : list Z) (ts : list tok) : bool :=
  match ts with
  | Sym c :: _ => has toks c
  | App :: _ => has toks 62
  | _ => false
  end.

Lemma next_in_lex toks i c l : (forall c, has toks c = true -> has symbols c = true) -> has whitespace c = false ->
  next_in toks (lex i (c :: l)) = has toks c.
Proof.
  intros Hsym Hw. destruct (special c) eqn:Hsp; unfold special in Hsp; rewrite Hw in Hsp; simpl in Hsp.
  - cbn [lex]. rewrite Hw. destruct (Z.eqb_spec c 62) as [->|]; [|by rewrite Hsp]. destruct l as [|d l]; [done|]. by destruct (d =? 62).
  - rewrite lex_word by (unfold special; by rewrite Hw). simpl. destruct (has toks c) eqn:E; [|done]. apply Hsym in E. congruence.
Qed.

Lemma lex_cons_ne i c l : has whitespace c = false -> lex i (c :: l) <> [].
Proof.
  intros Hw. destruct (special c) eqn:Hsp; [|by rewrite lex_word]. unfold special in Hsp. rewrite Hw in Hsp. simpl in Hsp. cbn [lex]. rewrite Hw, Hsp.
  destruct (c =? 62); [|done]. destruct l as [|d l]; [done|]. by destruct (d =? 62).
Qed.

Lemma peek_Ok s ts toks : at_tokens s ts -> (forall c, has toks c = true -> has symbols c = true) ->
  exists j, peek es toks s = Ok (next_in toks ts) (move j s) /\ at_tokens (move j s) ts /\ (ts = [] -> j = es).
Proof.
  intros [Hb Hps Hl Hu] Hsym. unfold peek. rewrite (bind_Ok (Kmonad.gets sh_ps) _ s (sh_ps s) s eq_refl).
  rewrite (bind_Ok _ _ _ _ _ (skip_Ok _ s Hb _ _ Hps eq_refl)). rewrite lex_skip in Hl. pose proof (adv_in (has whitespace) _ Hps) as Hi.
  pose proof (adv_stop (has whitespace) (drop (sh_ps s) t)) as Hstop. rewrite drop_drop in Hstop.
  set (i := (sh_ps s + _)%nat) in *. exists i. split; [|split; [subst ts; by apply move_at|]].
  2: { intros ->. destruct (drop i t) as [|c l] eqn:Ed; [by apply drop_end|]. by apply lex_cons_ne in Hl; [|apply (Hstop c l)]. }
  rewrite (bind_Ok (modify _) _ s tt (move i s) eq_refl). destruct (drop i t) as [|c l] eqn:Ed.
  - pose proof (drop_end i Ed Hi) as Ei.
    rewrite (bind_Ok (char_at i) _ (move i s) 0 (move i s)); [by subst ts|]. rewrite Ei. by apply char_end.
  - specialize (Hstop c l eq_refl). rewrite (bind_Ok _ _ _ _ _ (char_text (move i s) i c l Hb Ed)).
    destruct (drop_in i c l Ed) as [Hc0 _].
    rewrite (proj2 (Z.eqb_neq c 0) Hc0). unfold ret. f_equal. subst ts. by rewrite next_in_lex.
Qed.

Lemma simp_peek {A X} toks (k : bool -> SM A) s ts (r : pres X) Q : at_tokens s ts ->
  (forall c, has toks c = true -> has symbols c = true) ->
  (forall j, at_tokens (move j s) ts -> simp t u (k (next_in toks ts) (move j s)) r Q) -> simp t u (bind (peek es toks) k s) r Q.
Proof. intros Ha Hsym Hk. destruct (peek_Ok s ts toks Ha Hsym) as (j & E & Hj & _). rewrite (bind_Ok _ _ _ _ _ E). auto. Qed.

Lemma simp_token {A X} (k : Z * nat * nat -> SM A) s ts (r : pres X) Q : at_tokens s ts ->
  (forall x j ts', at_tokens (move j s) ts' -> took ts x ts' -> simp t u (k x (move j s)) r Q) -> simp t u (bind (gettoken es) k s) r Q.
Proof. intros Ha Hk. destruct (gettoken_Ok s ts Ha) as (x & j & ts' & E & Hj & Hx). rewrite (bind_Ok _ _ _ _ _ E). eauto. Qed.

(** A symbol that [peek] has seen. *)
Lemma simp_symbol {A X} c (k : Z * nat * nat -> SM A) s ts (r : pres X) Q : at_tokens s ts -> starts c ts = true ->
  (forall x j, at_tokens (move j s) (tail ts) -> simp t u (k x (move j s)) r Q) -> simp t u (bind (gettoken es) k s) r Q.
Proof.
  intros Ha Hs Hk. apply starts_spec in Hs as [ts' ->]. apply (simp_token _ _ _ _ _ Ha). intros x j ts1 Hj (_ & _ & ->). by apply Hk.
Qed.

Lemma next_in_one c ts : c <> 62 -> next_in [c] ts = starts c ts.
Proof.
  intros Hc. destruct ts as [|[d| |] ts]; [done| | |done]; unfold next_in, has, starts; simpl.
  - rewrite (Z.eqb_sym c d). by destruct (d =? c).
  - by rewrite (proj2 (Z.eqb_neq c 62) Hc).
Qed.

Lemma took_word ts x ts' : took ts x ts' ->
  (exists q e, ts = Word q e :: ts' /\ x = (97, q, e)) \/ (x.1.1 =? 97) = false /\ forall q e ts1, ts <> Word q e :: ts1.
Proof.
  destruct ts as [|[c| |q e] ts1]; simpl.
  - intros [E _]. right. by rewrite E.
  - intros (E & Hs & _). right. rewrite E. split; [|done]. by destruct (Z.eqb_spec c 97) as [->|].
  - intros [E _]. right. by rewrite E.
  - intros [-> ->]. left. eauto.
Qed.

Lemma at_heap s ts f : at_tokens s ts -> at_tokens (set sh_heap f s) ts.
Proof. intros [H1 H2 H3 H4]. by split. Qed.

(** Output untouched, the heap extended. *)
Definition kept (s s' : shell) : Prop := sh_u s' = sh_u s /\ sh_heap s `prefix_of` sh_heap s'.

#[local] Instance kept_preorder : PreOrder kept.
Proof. split; [by split|]. intros s1 s2 s3 [H1 H2] [H3 H4]. split; [congruence|by etransitivity]. Qed.

Lemma kept_move s j : kept s (move j s).
Proof. by split. Qed.

Lemma kept_alloc s n : kept s (set sh_heap (fun h => h ++ [n]) s).
Proof. split; [done|]. by exists [n]. Qed.

Lemma sub_symbols toks : forallb (has symbols) toks = true -> forall c, has toks c = true -> has symbols c = true.
Proof.
  intros Hall c. induction toks as [|d toks IH]; [done|]. simpl in Hall. apply andb_prop in Hall as [Hd Hall]. unfold has at 1. simpl.
  destruct (Z.eqb_spec d c) as [->|]; [done|]. by apply IH.
Qed.

Lemma redir_next ts : next_in (bytes "<>") ts = match ts with t :: _ => match redir_of t with Some _ => true | None => false end | [] => false end.
Proof.
  destruct ts as [|[c| |] ts]; [done| |done|done]. change (bytes "<>") with [60; 62].
  unfold next_in, has, redir_of. cbn [strchr]. rewrite !(Z.eqb_sym _ c). destruct (c =? 60); [done|]. by destruct (c =? 62).
Qed.

Lemma redir_choice t1 ts1 x ts' m fd c q e : took (t1 :: ts1) x ts' -> redir_of t1 = Some (m, fd) ->
  (if x.1.1 =? 60 then redircmd c q e O_RDONLY 0 else if x.1.1 =? 62 then redircmd c q e (Z.lor O_WRONLY O_CREATE) 1
   else if x.1.1 =? 43 then redircmd c q e (Z.lor O_WRONLY O_CREATE) 1 else ret c) = redircmd c q e m fd.
Proof.
  destruct t1 as [d| |]; [| |done]; simpl.
  - intros (-> & _ & _). destruct (d =? 60); [by intros [= <- <-]|]. destruct (d =? 62); [by intros [= <- <-]|done].
  - intros [-> _]. by intros [= <- <-].
Qed.

Lemma parseredirs_sim : forall fuel cmd s ts, at_tokens s ts ->
  simp t u (parseredirs fuel cmd es s) (p_redirs fuel ts) (fun r rs ts' s' => at_tokens s' ts' /\ kept s s' /\ chain (sh_heap s') cmd rs r).
Proof.
  induction fuel as [|fuel IH]; intros cmd s ts Ha; [done|]. cbn [parseredirs p_redirs]. apply (simp_peek _ _ _ _ _ _ Ha).
  { by apply sub_symbols. }
  intros j Hj. rewrite redir_next. destruct ts as [|t1 ts1]; [by exists cmd, (move j s)|].
  destruct (redir_of t1) as [[m fd]|] eqn:Er; simpl; [|by exists cmd, (move j s)].
  apply (simp_token _ _ _ _ _ Hj). intros [[k q0] e0] j1 ts1' Hj1 Htk.
  assert (ts1' = ts1) as -> by (destruct t1; simpl in Htk; naive_solver).
  apply (simp_token _ _ _ _ _ Hj1). intros [[a q] e] j2 ts2 Hj2 Htk2.
  destruct (took_word _ _ _ Htk2) as [(q' & e' & -> & [= -> -> ->])|[Hne Hno]]; cbn [fst] in *.
  - rewrite Z.eqb_refl. cbn [negb]. pose proof (redir_choice _ _ _ _ _ _ cmd q' e' Htk Er) as R. cbn [fst] in R. rewrite R. set (s2 := move j2 _) in *.
    set (s3 := set sh_heap (fun h => h ++ [NRedir cmd q' e' m fd]) s2).
    rewrite (bind_Ok _ _ s2 (length (sh_heap s2)) s3 eq_refl).
    eapply simp_map; [apply IH, (at_heap s2), Hj2|]. intros r rs ts' s' (Ha' & K & Hc). split; [done|]. split.
    + etransitivity; [|exact K]. apply (kept_alloc s2).
    + exists (length (sh_heap s2)). split; [|done]. eapply prefix_lookup_Some; [|apply K]. by apply list_lookup_middle.
  - rewrite Hne. destruct ts1 as [|[c| |q1 e1] ts1]; try panics. by destruct (Hno q1 e1 ts1).
Qed.

Lemma set_arg_word cmd ws q e s : sh_heap s !! cmd = Some (exec_node ws) -> (length ws < MAXARGS)%nat ->
  set_arg cmd (length ws) (Some q) (Some e) s = Ok tt (set sh_heap (insert cmd (exec_node (ws ++ [(q, e)]))) s).
Proof.
  intros Hc Hl. unfold set_arg. rewrite Hc. unfold exec_node at 1. rewrite bool_decide_true by (by rewrite args_of_length).
  unfold exec_node. by rewrite <- !args_of_snoc.
Qed.

Lemma set_arg_end cmd ws s : sh_heap s !! cmd = Some (exec_node ws) -> (length ws < MAXARGS)%nat ->
  set_arg cmd (length ws) None None s = Ok tt s.
Proof.
  intros Hc Hl. unfold set_arg. rewrite Hc. unfold exec_node. rewrite bool_decide_true by (by rewrite args_of_length).
  f_equal. destruct s as [u0 b ps h]. unfold set, set_sh_heap. simpl in *. f_equal.
  rewrite (list_insert_id (args_of fst ws)), (list_insert_id (args_of snd ws)) by (by apply args_of_end). by rewrite list_insert_id.
Qed.

(** The arguments [ws] stand in the struct [cmd], with the redirections [rs] around it. *)
Record in_exec (h : list node) (cmd : nat) (ws : list span) (rs : list redir) (r : nat) : Prop := {
  ie_node : h !! cmd = Some (exec_node ws);
  ie_args : (length ws < MAXARGS)%nat;
  ie_chain : chain h cmd rs r
}.

Lemma in_exec_word h cmd ws rs r w : in_exec h cmd ws rs r -> (S (length ws) < MAXARGS)%nat ->
  in_exec (<[cmd := exec_node (ws ++ [w])]> h) cmd (ws ++ [w]) rs r.
Proof.
  intros [Hn Ha Hc] Hl. split.
  - apply list_lookup_insert_eq. by eapply lookup_lt_Some.
  - rewrite length_app. simpl. lia.
  - eapply chain_mono; [|exact Hc]. intros i q e p m fd Hi. rewrite list_lookup_insert_ne; [done|]. intros ->. rewrite Hn in Hi. done.
Qed.

Lemma in_exec_redirs h h' cmd ws rs r rs' r' : in_exec h cmd ws rs r -> h `prefix_of` h' -> chain h' r rs' r' -> in_exec h' cmd ws (rs ++ rs') r'.
Proof.
  intros [Hn Ha Hc] Hp Hc'. split; [by apply (prefix_lookup_Some h)|done|]. eapply chain_app; [|exact Hc']. by apply (chain_prefix h).
Qed.

Lemma insert_ext cmd (x y : node) (h h1 : list node) : (cmd < length h)%nat -> <[cmd := y]> h `prefix_of` h1 -> <[cmd := x]> h `prefix_of` <[cmd := x]> h1.
Proof. intros Hc [ext ->]. exists ext. by rewrite insert_app_l, list_insert_insert_eq by (by rewrite length_insert). Qed.

(** What [parseargs] adds: the words and redirections [x]. *)
Definition args_post (cmd : nat) (ws : list span) (rs : list redir) (s : shell)
    (r : nat) (x : list span * list redir) (ts : list tok) (s' : shell) : Prop :=
  at_tokens s' ts /\ sh_u s' = sh_u s /\ <[cmd := exec_node (ws ++ x.1)]> (sh_heap s) `prefix_of` sh_heap s' /\
  in_exec (sh_heap s') cmd (ws ++ x.1) (rs ++ x.2) r.

Lemma args_end cmd r ws rs s s' ts : at_tokens s' ts -> in_exec (sh_heap s) cmd ws rs r -> sh_heap s' = sh_heap s -> sh_u s' = sh_u s ->
  simp t u ((set_arg cmd (length ws) None None ;; ret r) s') (POk ([], []) ts) (args_post cmd ws rs s).
Proof.
  intros Ha He Eh Eu. unfold args_post. rewrite <- Eh in *. destruct He as [Hn Hl Hc]. exists r, s'.
  rewrite (bind_Ok _ _ _ _ _ (set_arg_end cmd ws s' Hn Hl)). simpl. rewrite !app_nil_r, list_insert_id by done. by split_and!.
Qed.

Lemma parseargs_sim : forall fuel cmd r ws rs s ts, at_tokens s ts -> in_exec (sh_heap s) cmd ws rs r ->
  simp t u (parseargs fuel cmd r (length ws) es s) (p_args fuel (length ws) ts) (args_post cmd ws rs s).
Proof.
  induction fuel as [|fuel IH]; intros cmd r ws rs s ts Ha He; [done|]. cbn [parseargs p_args].
  apply (simp_peek _ _ _ _ _ _ Ha); [by apply sub_symbols|]. intros j Hj. destruct ts as [|[c| |q e] ts1].
  - apply (simp_token _ _ _ _ _ Hj). intros [[k q] e] j1 ts' Hj1 Htk. cbn [took fst] in Htk. destruct Htk as [-> ->]. cbn [Z.eqb]. by apply (args_end _ _ _ _ s).
  - cbn [next_in]. destruct (has _ c) eqn:Hc; [by apply (args_end _ _ _ _ s)|].
    apply (simp_token _ _ _ _ _ Hj). intros [[k q] e] j1 ts' Hj1 Htk. cbn [took fst] in Htk. destruct Htk as (-> & Hs & _).
    destruct (Z.eqb_spec c 0) as [->|]; [done|]. destruct (Z.eqb_spec c 97) as [->|]; [done|]. panics.
  - apply (simp_token _ _ _ _ _ Hj). intros [[k q] e] j1 ts' Hj1 Htk. cbn [took fst] in Htk. destruct Htk as [-> _]. panics.
  - apply (simp_token _ _ _ _ _ Hj). intros x j1 ts' Hj1 [-> ->]. cbn [Z.eqb Pos.eqb negb]. set (s1 := move j1 _) in *.
    pose proof He as [Hn Hl _]. rewrite (bind_Ok _ _ _ _ _ (set_arg_word cmd ws q e s1 Hn Hl)).
    case_bool_decide as Hm; [panics|]. eapply simp_bind; [apply parseredirs_sim, (at_heap s1), Hj1|].
    intros r2 rs2 ts2 s2 (Ha2 & [Eu2 Hp2] & Hc2).
    assert (in_exec (sh_heap s2) cmd (ws ++ [(q, e)]) (rs ++ rs2) r2) as He2.
    { eapply in_exec_redirs; [|exact Hp2|exact Hc2]. apply in_exec_word; [done|lia]. }
    replace (S (length ws)) with (length (ws ++ [(q, e)])) by (rewrite length_app; simpl; lia).
    eapply simp_map; [apply IH; [exact Ha2|exact He2]|]. intros r3 [ws3 rs3] ts3 s3 (Ha3 & Eu3 & Hp3 & He3). simpl in *.
    rewrite <- !app_assoc in *. split_and!; [done|congruence| |done]. etransitivity; [|exact Hp3].
    apply (insert_ext _ _ (exec_node (ws ++ [(q, e)]))); [by eapply lookup_lt_Some|done].
Qed.

Lemma parseback_sim : forall fuel cmd c s ts, at_tokens s ts -> repr (sh_heap s) cmd c ->
  simp t u (parseback fuel cmd es s) (p_back fuel ts) (fun r n ts' s' => at_tokens s' ts' /\ kept s s' /\ repr (sh_heap s') r (Nat.iter n Back c)).
Proof.
  induction fuel as [|fuel IH]; intros cmd c s ts Ha Hc; [done|]. cbn [parseback p_back].
  apply (simp_peek _ _ _ _ _ _ Ha); [by apply sub_symbols|]. intros j Hj. change (bytes "&") with [38]. rewrite next_in_one by done.
  destruct (starts 38 ts) eqn:Es.
  - apply (simp_symbol 38 _ _ _ _ _ Hj Es). intros _ j1 Hj1. apply starts_spec in Es as [ts' ->]. cbn [tail Z.eqb Pos.eqb] in *.
    set (s1 := move j1 _) in *. set (s2 := set sh_heap (fun h => h ++ [NBack cmd]) s1).
    rewrite (bind_Ok _ _ s1 (length (sh_heap s1)) s2 eq_refl).
    eapply simp_map; [apply (IH _ (Back c)); [apply (at_heap s1), Hj1|]|].
    + exists cmd. split; [by apply list_lookup_middle|]. eapply repr_mono; [|exact Hc]. by exists [NBack cmd].
    + intros r n ts'' s' (Ha' & K & Hr). split_and!; [done| |].
      * etransitivity; [|exact K]. apply (kept_alloc s1).
      * by rewrite Nat.iter_succ, <- Nat.iter_swap.
  - assert (simp t u (ret cmd (move j s)) (POk 0%nat ts) (fun r n ts' s' => at_tokens s' ts' /\ kept s s' /\ repr (sh_heap s') r (Nat.iter n Back c))) as H
      by (by exists cmd, (move j s)).
    destruct ts as [|[d| |] ts1]; [done| |done..]. simpl in Es. by rewrite Es.
Qed.

Definition cmd_post (s : shell) (p : nat) (c : cmd) (ts : list tok) (s' : shell) : Prop :=
  at_tokens s' ts /\ kept s s' /\ repr (sh_heap s') p c.

(** A new struct around trees that are in the heap. *)
Lemma cmd_alloc s0 s ts n c : at_tokens s ts -> kept s0 s -> repr (sh_heap s ++ [n]) (length (sh_heap s)) c ->
  simp t u (alloc_cmd n s) (POk c ts) (cmd_post s0).
Proof.
  intros Ha K Hr. exists (length (sh_heap s)), (set sh_heap (fun h => h ++ [n]) s). split; [done|]. split_and!; [by apply at_heap| |done].
  etransitivity; [exact K|apply kept_alloc].
Qed.

Lemma cmd_post_kept s0 s p c ts s' : kept s0 s -> cmd_post s p c ts s' -> cmd_post s0 p c ts s'.
Proof. intros K (Ha & K' & Hr). split_and!; [done|by etransitivity|done]. Qed.

Lemma repr_ext h n p c : repr h p c -> repr (h ++ [n]) p c.
Proof. apply repr_mono. by exists [n]. Qed.

Lemma simp_peek1 {A X} c (k : bool -> SM A) s ts (r : pres X) Q : at_tokens s ts -> has symbols c = true -> c <> 62 ->
  (forall j, at_tokens (move j s) ts -> simp t u (k (starts c ts) (move j s)) r Q) -> simp t u (bind (peek es [c]) k s) r Q.
Proof.
  intros Ha Hc Hne Hk. apply (simp_peek _ _ _ _ _ _ Ha); [by apply sub_symbols; simpl; rewrite Hc|]. rewrite next_in_one by done. exact Hk.
Qed.

Lemma exec_sim fuel s ts : at_tokens s ts ->
  simp t u ((let* cmd := execcmd in let* r := parseredirs fuel cmd es in parseargs fuel cmd r 0 es) s)
    (pbind (p_redirs fuel ts) (fun rs ts => pbind (p_args fuel 0 ts) (fun x ts => POk (wrap (rs ++ x.2) (Exec x.1)) ts))) (cmd_post s).
Proof.
  intros Ha. set (p := length (sh_heap s)). set (s1 := set sh_heap (fun h => h ++ [exec_node []]) s).
  rewrite (bind_Ok execcmd _ s p s1 eq_refl). eapply simp_bind; [by apply parseredirs_sim, at_heap, Ha|].
  intros r rs ts2 s2 (Ha2 & [Eu2 Hp2] & Hc2).
  assert (in_exec (sh_heap s2) p [] rs r) as He2.
  { apply (in_exec_redirs (sh_heap s1) (sh_heap s2) p [] [] p rs r); [|done|done]. split; [by apply list_lookup_middle|unfold MAXARGS; simpl; lia|done]. }
  eapply simp_map; [apply (parseargs_sim fuel p r [] rs s2 ts2 Ha2 He2)|].
  intros r3 [ws3 rs3] ts3 s3 (Ha3 & Eu3 & Hp3 & [Hn Hl Hc]). simpl in *. split_and!; [done|split; [congruence|]|].
  - etransitivity; [|exact Hp3]. destruct Hp2 as [ext ->]. unfold s1. simpl. rewrite <- app_assoc.
    rewrite insert_app_r_alt by (unfold p; lia). by eexists.
  - by apply (chain_repr _ _ p).
Qed.

(** [line] follows [pline]. *)
Definition line_sim (line : SM nat) (pline : list tok -> pres cmd) : Prop :=
  forall s ts, at_tokens s ts -> simp t u (line s) (pline ts) (cmd_post s).

Lemma parseblock_sim line pline fuel s ts : line_sim line pline -> at_tokens s ts ->
  simp t u (parseblock line fuel es s) (p_block pline fuel ts) (cmd_post s).
Proof.
  intros IH Ha. unfold parseblock, p_block.
  apply (simp_peek1 40 _ _ _ _ _ Ha); [done..|]. intros j Hj. destruct (starts 40 ts) eqn:Es; cbn [negb]; [|panics].
  apply (simp_symbol 40 _ _ _ _ _ Hj Es). intros _ j1 Hj1. eapply simp_bind; [by apply IH|]. intros p c ts1 s1 (Ha1 & K1 & Hr1).
  apply (simp_peek1 41 _ _ _ _ _ Ha1); [done..|]. intros j2 Hj2. destruct (starts 41 ts1) eqn:Es1; cbn [negb]; [|panics].
  apply (simp_symbol 41 _ _ _ _ _ Hj2 Es1). intros _ j3 Hj3. eapply simp_map; [by apply parseredirs_sim|].
  intros r rs ts2 s2 (Ha2 & K2 & Hc2). split_and!; [done|by etransitivity; [exact K1|exact K2]|].
  apply (chain_repr _ _ p); [|done]. by apply (repr_mono (sh_heap s1)); [apply K2|].
Qed.

Lemma parseexec_sim line pline fuel s ts : line_sim line pline -> at_tokens s ts ->
  simp t u (parseexec line fuel es s) (p_exec pline fuel ts) (cmd_post s).
Proof.
  intros IH Ha. unfold parseexec, p_exec. apply (simp_peek1 40 _ _ _ _ _ Ha); [done..|]. intros j Hj. destruct (starts 40 ts) eqn:Es.
  - eapply simp_mono; [by apply parseblock_sim|]. intros p c ts' s'. apply cmd_post_kept, kept_move.
  - eapply simp_mono; [by apply exec_sim|]. intros p c ts' s'. apply cmd_post_kept, kept_move.
Qed.

Lemma parsepipe_sim line pline : line_sim line pline -> forall fuel s ts, at_tokens s ts ->
  simp t u (parsepipe line fuel es s) (p_pipe pline fuel ts) (cmd_post s).
Proof.
  intros Hline. induction fuel as [|fuel IH]; intros s ts Ha; [done|]. cbn [parsepipe p_pipe].
  eapply simp_bind; [by apply parseexec_sim|]. intros p c ts1 s1 (Ha1 & K1 & Hr1). apply (simp_peek1 124 _ _ _ _ _ Ha1); [done..|]. intros j Hj.
  destruct (starts 124 ts1) eqn:Es; [|by exists p, (move j s1)].
  apply (simp_symbol 124 _ _ _ _ _ Hj Es). intros _ j1 Hj1. eapply simp_bind; [by apply IH|].
  intros p3 c3 ts3 s3 (Ha3 & K3 & Hr3). apply cmd_alloc; [done|by etransitivity; [exact K1|exact K3]|].
  exists p, p3. split; [by apply list_lookup_middle|]. split; apply repr_ext; [|done]. by apply (repr_mono (sh_heap s1)); [apply K3|].
Qed.

Lemma parseline_sim : forall fuel, line_sim (parseline fuel es) (p_line fuel).
Proof.
  induction fuel as [|fuel IH]; intros s ts Ha; [done|]. cbn [parseline p_line].
  eapply simp_bind; [by apply parsepipe_sim|]. intros p c ts1 s1 (Ha1 & K1 & Hr1). eapply simp_bind; [by apply parseback_sim|].
  intros p2 n ts2 s2 (Ha2 & K2 & Hr2). apply (simp_peek1 59 _ _ _ _ _ Ha2); [done..|]. intros j Hj. cbv zeta.
  destruct (starts 59 ts2) eqn:Es; [|exists p2, (move j s2); split; [done|]; split; [done|]; split; [exact (transitivity K1 K2)|done]].
  apply (simp_symbol 59 _ _ _ _ _ Hj Es). intros _ j1 Hj1. eapply simp_bind; [by apply IH|].
  intros p3 c3 ts3 s3 (Ha3 & K3 & Hr3). apply cmd_alloc; [done| |].
  - etransitivity; [exact K1|]. etransitivity; [exact K2|]. exact K3.
  - exists p2, p3. split; [by apply list_lookup_middle|]. split; apply repr_ext; [|done]. by apply (repr_mono (sh_heap s2)); [apply K3|].
Qed.
End line.

(** ** The words of a tree *)

Fixpoint spans (c : cmd) : list span :=
  match c with
  | Exec ws => ws
  | Redir c (w, _, _) => spans c ++ [w]
  | Pipe l r | CList l r => spans l ++ spans r
  | Back c => spans c
  end.

Fixpoint depth (c : cmd) : nat :=
  match c with
  | Exec _ => 1
  | Redir c _ | Back c => S (depth c)
  | Pipe l r | CList l r => S (Nat.max (depth l) (depth r))
  end.

Lemma wrap_spans rs : forall c, spans (wrap rs c) = spans c ++ map (fun r => r.1.1) rs.
Proof.
  induction rs as [|[[w m] fd] rs IH]; intros c; simpl; [by rewrite app_nil_r|]. rewrite IH. simpl. by rewrite <- app_assoc.
Qed.

Lemma wrap_depth rs : forall c, depth (wrap rs c) = (length rs + depth c)%nat.
Proof. induction rs as [|r rs IH]; intros c; simpl; [done|]. rewrite IH. simpl. lia. Qed.

(** The tree is made of the words of the line, and no deeper than it is long. *)
Definition made_of (c : cmd) (ts : list tok) : Prop :=
  (forall q e, (q, e) ∈ spans c -> Word q e ∈ ts) /\ (depth c <= S (length ts))%nat.

Lemma gredirs_made rs ts : gredirs rs ts -> (forall q e, (q, e) ∈ map (fun r => r.1.1) rs -> Word q e ∈ ts) /\ (length rs <= length ts)%nat.
Proof.
  induction 1 as [|t m fd q e rs ts Ht _ [IH1 IH2]]; simpl; (split; [|lia]); intros q' e'; [by intros ?%elem_of_nil|].
  rewrite !elem_of_cons. intros [[= -> ->]|H]; auto.
Qed.

Lemma gargs_made ws rs ts : gargs ws rs ts ->
  (forall q e, (q, e) ∈ ws ++ map (fun r => r.1.1) rs -> Word q e ∈ ts) /\ (length rs <= length ts)%nat.
Proof.
  induction 1 as [|q e ws rs ts _ [IH1 IH2]|t m fd q e ws rs ts Ht _ [IH1 IH2]]; simpl in *; (split; [|lia]); intros q' e'; [by intros ?%elem_of_nil|..].
  - rewrite !elem_of_cons. intros [[= -> ->]|H]; auto.
  - rewrite elem_of_app, !elem_of_cons. intros [H|[[= -> ->]|H]]; [|auto|]; do 2 right; apply IH1; set_solver.
Qed.

Lemma made_of_two (f : cmd -> cmd -> cmd) l r t ts1 ts2 : spans (f l r) = spans l ++ spans r -> depth (f l r) = S (Nat.max (depth l) (depth r)) ->
  made_of l ts1 -> made_of r ts2 -> made_of (f l r) (ts1 ++ t :: ts2).
Proof.
  intros Es Ed [H1 D1] [H2 D2]. split.
  - intros q e. rewrite Es, !elem_of_app, elem_of_cons. intros [H|H]; auto.
  - rewrite Ed, length_app. simpl. lia.
Qed.

Lemma grammar_made :
  (forall c ts, gline c ts -> made_of c ts) /\ (forall c ts, gback c ts -> made_of c ts) /\
  (forall c ts, gpipe c ts -> made_of c ts) /\ (forall c ts, gexec c ts -> made_of c ts).
Proof.
  apply (grammar_mut (fun c ts _ => made_of c ts) (fun c ts _ => made_of c ts) (fun c ts _ => made_of c ts) (fun c ts _ => made_of c ts)); try done.
  - intros l r ts1 ts2 _ H1 _ H2. by apply (made_of_two CList).
  - intros c ts _ [H D]. split; [|rewrite length_app; simpl; lia]. intros q e Hq. apply elem_of_app. auto.
  - intros l r ts1 ts2 _ H1 _ H2. by apply (made_of_two Pipe).
  - intros ws rs ts Hg _. destruct (gargs_made _ _ _ Hg) as [H1 H2]. split; [by rewrite wrap_spans|]. rewrite wrap_depth. simpl. lia.
  - intros c rs ts1 ts2 _ [H1 D1] Hr. destruct (gredirs_made _ _ Hr) as [H2 D2]. split.
    + intros q e. rewrite wrap_spans, elem_of_cons, !elem_of_app, elem_of_cons. intros [H|H]; auto.
    + rewrite wrap_depth. simpl. rewrite length_app. simpl. lia.
Qed.

(** ** nulterminate *)

Definition zap (es : list nat) (b : list Z) : list Z := fold_left (fun b e => <[e := 0]> b) es b.

Lemma zap_app es1 es2 b : zap (es1 ++ es2) b = zap es2 (zap es1 b).
Proof. apply fold_left_app. Qed.

Lemma zap_length es : forall b, length (zap es b) = length b.
Proof. induction es as [|e es IH]; intros b; simpl; [done|]. by rewrite IH, length_insert. Qed.

Lemma zap_other es k : forall b, k ∉ es -> zap es b !! k = b !! k.
Proof.
  induction es as [|e es IH]; intros b Hk; [done|]. apply not_elem_of_cons in Hk as [Hne Hk]. simpl. by rewrite IH, list_lookup_insert_ne by congruence.
Qed.

Lemma zap_end es e : forall b, e ∈ es -> (e < length b)%nat -> zap es b !! e = Some 0.
Proof.
  induction es as [|e' es IH]; intros b He Hl; [by apply elem_of_nil in He|]. simpl. destruct (decide (e ∈ es)) as [H|H].
  - apply IH; [done|]. by rewrite length_insert.
  - rewrite zap_other by done. apply elem_of_cons in He as [->|]; [|done]. by apply list_lookup_insert_eq.
Qed.

Definition zapped (ws : list span) (s : shell) : shell := set sh_buf (zap (map snd ws)) s.

Lemma zapped_app ws1 ws2 s : zapped ws2 (zapped ws1 s) = zapped (ws1 ++ ws2) s.
Proof. unfold zapped, set, set_sh_buf. simpl. by rewrite map_app, zap_app. Qed.

Lemma put_nul_Ok q e s : (e < length (sh_buf s))%nat -> put_nul (Some e) s = Ok tt (zapped [(q, e)] s).
Proof. intros He. unfold put_nul. by rewrite bool_decide_true. Qed.

Lemma nul_args_Ok n ws : forall s, Forall (fun w => (w.2 < length (sh_buf s))%nat) ws ->
  nul_args (map (fun w => Some w.1) ws ++ replicate (S n) None) (map (fun w => Some w.2) ws ++ replicate (S n) None) s = Ok tt (zapped ws s).
Proof.
  induction ws as [|[q e] ws IH]; intros s Hw; simpl.
  - by destruct s.
  - apply Forall_cons in Hw as [He Hw]. rewrite (bind_Ok _ _ _ _ _ (put_nul_Ok q e s He)), IH.
    + by rewrite zapped_app.
    + eapply Forall_impl; [exact Hw|]. intros w. simpl. by rewrite length_insert.
Qed.

Lemma nulterminate_Ok c : forall fuel p s, repr (sh_heap s) p c -> Forall (fun w : span => (w.2 < length (sh_buf s))%nat) (spans c) ->
  (depth c <= fuel)%nat -> nulterminate fuel p s = Ok tt (zapped (spans c) s).
Proof.
  assert (forall ws ws' s, Forall (fun w : span => (w.2 < length (sh_buf s))%nat) ws -> Forall (fun w : span => (w.2 < length (sh_buf (zapped ws' s)))%nat) ws) as Hz.
  { intros ws ws' s H. eapply Forall_impl; [exact H|]. intros w. simpl. by rewrite zap_length. }
  induction c as [ws|c IH [[[q e] m] fd]|l IHl r IHr|l IHl r IHr|c IH]; intros fuel p s Hr Hs Hf; simpl in Hf; (destruct fuel as [|fuel]; [lia|]);
    simpl in Hr, Hs; cbn [nulterminate].
  - destruct Hr as [Hn Hl]. rewrite (bind_Ok (get_node p) _ s (exec_node ws) s) by (unfold get_node; by rewrite Hn).
    unfold exec_node, args_of. replace (MAXARGS - length ws)%nat with (S (MAXARGS - S (length ws))) by lia. by apply nul_args_Ok.
  - destruct Hr as (p' & Hn & Hr). rewrite (bind_Ok (get_node p) _ s _ s ltac:(unfold get_node; by rewrite Hn)).
    apply Forall_app in Hs as [Hs He]. apply Forall_cons in He as [He _]. rewrite (bind_Ok _ _ _ _ _ (IH fuel p' s Hr Hs ltac:(lia))).
    rewrite (put_nul_Ok q e); [by rewrite zapped_app|]. unfold zapped. simpl. by rewrite zap_length.
  - destruct Hr as (pl & pr & Hn & Hl & Hr). rewrite (bind_Ok (get_node p) _ s _ s ltac:(unfold get_node; by rewrite Hn)).
    apply Forall_app in Hs as [Hs1 Hs2]. rewrite (bind_Ok _ _ _ _ _ (IHl fuel pl s Hl Hs1 ltac:(lia))), IHr; [by rewrite zapped_app|done|by apply Hz|lia].
  - destruct Hr as (pl & pr & Hn & Hl & Hr). rewrite (bind_Ok (get_node p) _ s _ s ltac:(unfold get_node; by rewrite Hn)).
    apply Forall_app in Hs as [Hs1 Hs2]. rewrite (bind_Ok _ _ _ _ _ (IHl fuel pl s Hl Hs1 ltac:(lia))), IHr; [by rewrite zapped_app|done|by apply Hz|lia].
  - destruct Hr as (p' & Hn & Hr). rewrite (bind_Ok (get_node p) _ s _ s ltac:(unfold get_node; by rewrite Hn)). by apply IH; [..|lia].
Qed.

(** ** The strings *)

Lemma adv_run l c k : special c = false -> (k <= adv wordchar l)%nat -> exists d, (c :: l) !! k = Some d /\ special d = false.
Proof.
  revert c k. induction l as [|d l IH]; intros c k Hc Hk; (destruct k as [|k]; [by exists c|]); [simpl in Hk; lia|].
  cbn [adv] in Hk. rewrite wordchar_special in Hk. destruct (special d) eqn:Hd; simpl in Hk; [lia|]. apply (IH d k Hd). lia.
Qed.

(** A word's bytes are no special characters; it ends at one, or at the end. *)
Definition word_ok (t : list Z) (q e : nat) : Prop :=
  (q < e <= length t)%nat /\ (forall k, (q <= k < e)%nat -> exists c, t !! k = Some c /\ special c = false) /\
  (forall c, t !! e = Some c -> special c = true).

Lemma lex_word_ok t q e : forall n i, (length (drop i t) <= n)%nat -> Word q e ∈ lex i (drop i t) -> word_ok t q e.
Proof.
  induction n as [|n IH]; intros i Hn Hw.
  { destruct (drop i t); [by apply elem_of_nil in Hw|simpl in Hn; lia]. }
  destruct (drop i t) as [|c l] eqn:Ed; [by apply elem_of_nil in Hw|]. pose proof (drop_next t i c l Ed) as Ed1.
  assert (forall ts, Word q e ∈ Sym c :: ts -> ts = lex (S i) l -> word_ok t q e) as Hnext.
  { intros ts Hts ->. apply elem_of_cons in Hts as [|Hts]; [done|]. apply (IH (S i)); rewrite Ed1; [simpl in Hn; lia|done]. }
  destruct (special c) eqn:Hsp.
  - cbn [lex] in Hw. destruct (has whitespace c) eqn:Hws.
    { apply (Hnext (lex (S i) l)); [by right|done]. }
    assert (has symbols c = true) as Hsy by (unfold special in Hsp; by rewrite Hws in Hsp). rewrite Hsy in Hw.
    destruct (Z.eqb_spec c 62) as [->|]; [|by eapply Hnext]. destruct l as [|d l'].
    { by apply elem_of_cons in Hw as [|Hw%elem_of_nil]. }
    destruct (d =? 62); [|by eapply Hnext]. apply elem_of_cons in Hw as [|Hw]; [done|].
    apply (IH (S (S i))); rewrite (drop_next t (S i) d l' Ed1); [simpl in Hn; lia|done].
  - rewrite lex_word in Hw by done. set (a := adv wordchar l) in *.
    assert (drop (i + S a) t = drop a l) as Ea.
    { replace (i + S a)%nat with (S i + a)%nat by lia. by rewrite <- drop_drop, Ed1. }
    apply elem_of_cons in Hw as [[= -> ->]|Hw].
    + pose proof (adv_le wordchar l) as Hle. assert (length (drop i t) = S (length l)) as El by (by rewrite Ed).
      rewrite length_drop in El. split; [unfold a; lia|]. split.
      * intros k Hk. destruct (adv_run l c (k - i) Hsp) as (c' & Hc' & Hs'); [unfold a in Hk; lia|].
        exists c'. split; [|done]. rewrite <- Hc', <- Ed, lookup_drop. f_equal. lia.
      * intros d Hd. rewrite <- (Nat.add_0_r (i + S a)), <- lookup_drop, Ea in Hd. destruct (drop a l) as [|d' l'] eqn:Eal; [done|].
        injection Hd as ->. pose proof (adv_stop wordchar l d l' Eal) as Hst. cbv beta in Hst. rewrite wordchar_special in Hst. by destruct (special d).
    + apply (IH (i + S a)%nat); rewrite Ea; [|done]. rewrite length_drop. simpl in Hn. lia.
Qed.

Lemma cstring_at b q e : (q <= e)%nat -> (forall k, (q <= k < e)%nat -> exists c, b !! k = Some c /\ c <> 0) -> b !! e = Some 0 ->
  cstring b q = take (e - q) (drop q b).
Proof.
  intros Hq Hc He. unfold cstring. remember (e - q)%nat as n eqn:En. revert q Hq Hc En. induction n as [|n IH]; intros q Hq Hc En.
  - assert (q = e) as -> by lia. by rewrite (drop_S b 0 e He).
  - destruct (Hc q ltac:(lia)) as (c & Hcq & Hc0). rewrite (drop_S b c q Hcq). simpl. rewrite (proj2 (Z.eqb_neq c 0) Hc0). f_equal.
    apply IH; [lia| |lia]. intros k Hk. apply Hc. lia.
Qed.

(** The text of a word. *)
Definition word (t : list Z) (w : span) : list Z := take (w.2 - w.1) (drop w.1 t).

Lemma zap_word t junk ws q e : Forall (fun c => c <> 0) t -> (forall q e, (q, e) ∈ ws -> word_ok t q e) -> (q, e) ∈ ws ->
  cstring (zap (map snd ws) (t ++ 0 :: junk)) q = word t (q, e).
Proof.
  intros Ht Hws Hw. destruct (Hws q e Hw) as (Hqe & Hin & _). set (b := zap _ _).
  assert (forall k, (q <= k < e)%nat -> b !! k = t !! k) as Hb.
  { intros k Hk. unfold b. rewrite zap_other; [apply lookup_app_l; lia|]. intros ([q' e'] & -> & Hw')%list_elem_of_fmap.
    destruct (Hws q' e' Hw') as (_ & _ & Hend). destruct (Hin e' Hk) as (c & Hc & Hs). simpl in *. rewrite (Hend c Hc) in Hs. done. }
  rewrite (cstring_at b q e); [|lia| |].
  - unfold word. simpl. apply list_eq. intros i. destruct (decide (i < e - q)%nat) as [Hi|Hi].
    + rewrite !lookup_take_lt, !lookup_drop by done. apply Hb. lia.
    + by rewrite !lookup_take_ge by lia.
  - intros k Hk. rewrite Hb by done. destruct (Hin k Hk) as (c & Hc & _). exists c. split; [done|].
    rewrite Forall_forall in Ht. by apply Ht, (list_elem_of_lookup_2 _ k).
  - apply zap_end; [by apply (list_elem_of_fmap_2 snd ws (q, e))|]. rewrite length_app. simpl. lia.
Qed.

(** The tree [c] of the text [t] stands at [p], its words as strings. *)
Fixpoint built (s : shell) (t : list Z) (p : nat) (c : cmd) : Prop :=
  match c with
  | Exec ws => exists argv eargv, sh_heap s !! p = Some (NExec argv eargv) /\ argv !! length ws = Some None /\
      forall i w, ws !! i = Some w -> argv !! i = Some (Some w.1) /\ cstring (sh_buf s) w.1 = word t w
  | Redir c (w, m, fd) => exists p' e, sh_heap s !! p = Some (NRedir p' w.1 e m fd) /\ cstring (sh_buf s) w.1 = word t w /\ built s t p' c
  | Pipe l r => exists pl pr, sh_heap s !! p = Some (NPipe pl pr) /\ built s t pl l /\ built s t pr r
  | CList l r => exists pl pr, sh_heap s !! p = Some (NList pl pr) /\ built s t pl l /\ built s t pr r
  | Back c => exists p', sh_heap s !! p = Some (NBack p') /\ built s t p' c
  end.

Lemma repr_built s t c : forall p, repr (sh_heap s) p c -> (forall w, w ∈ spans c -> cstring (sh_buf s) w.1 = word t w) -> built s t p c.
Proof.
  induction c as [ws|c IH [[[q e] m] fd]|l IHl r IHr|l IHl r IHr|c IH]; intros p Hr Hw; simpl in *.
  - destruct Hr as [Hn Hl]. exists (args_of fst ws), (args_of snd ws). split_and!; [done|by apply args_of_end|].
    intros i w Hi. split; [|by apply Hw, (list_elem_of_lookup_2 _ i)]. unfold args_of.
    rewrite lookup_app_l by (rewrite length_map; by eapply lookup_lt_Some). by rewrite list_lookup_fmap, Hi.
  - destruct Hr as (p' & Hn & Hr). exists p', e. split_and!; [done|apply (Hw (q, e)); set_solver|apply IH; set_solver].
  - destruct Hr as (pl & pr & Hn & Hl & Hr). exists pl, pr. split_and!; [done|apply IHl; set_solver|apply IHr; set_solver].
  - destruct Hr as (pl & pr & Hn & Hl & Hr). exists pl, pr. split_and!; [done|apply IHl; set_solver|apply IHr; set_solver].
  - destruct Hr as (p' & Hn & Hr). exists p'. split; [done|by apply IH].
Qed.

Lemma lex_length : forall n i l, (length l <= n)%nat -> (length (lex i l) <= length l)%nat.
Proof.
  induction n as [|n IH]; intros i l Hl; [destruct l; simpl in *; lia|]. destruct l as [|c l]; [done|]. simpl in Hl.
  pose proof (IH (S i) l ltac:(lia)) as H1. cbn [lex]. destruct (has whitespace c); [simpl; lia|].
  destruct (c =? 62).
  - destruct l as [|d l]; [done|]. destruct (d =? 62); [|simpl in *; lia]. pose proof (IH (S (S i)) l ltac:(simpl in Hl; lia)). simpl. lia.
  - destruct (has symbols c); [simpl; lia|]. destruct l as [|d l]; [done|]. destruct (special d); [simpl in *; lia|].
    destruct (lex (S i) (d :: l)) as [|[]]; simpl in *; lia.
Qed.

(** ** parsecmd *)

Section parsecmd.
Context (t junk : list Z).
Hypothesis Ht : Forall (fun c => c <> 0) t.

Lemma text_drop i : (i <= length t)%nat -> cstring (t ++ 0 :: junk) i = drop i t.
Proof.
  intros Hi. rewrite (cstring_at _ i (length t)); [|lia| |by apply list_lookup_middle].
  - rewrite drop_app_le by done. apply take_app_length'. by rewrite length_drop.
  - intros k Hk. destruct (lookup_lt_is_Some_2 t k ltac:(lia)) as [c Hc]. exists c. rewrite lookup_app_l by lia. split; [done|].
    rewrite Forall_forall in Ht. by apply Ht, (list_elem_of_lookup_2 _ k).
Qed.

Lemma text_string : cstring (t ++ 0 :: junk) 0 = t.
Proof. by rewrite text_drop, drop_0 by lia. Qed.

Lemma peek_rest u s ts : at_tokens t junk u s ts ->
  exists j, peek (length t) [] s = Ok false (move j s) /\ (ts = [] <-> j = length t) /\ (j <= length t)%nat.
Proof.
  intros Ha. destruct (peek_Ok t junk u Ht s ts [] Ha) as (j & E & Hj & He); [done|].
  assert (next_in [] ts = false) as En by (destruct ts as [|[]]; done). rewrite En in E.
  pose proof (at_ps _ _ _ _ _ Hj) as Hle. exists j. split; [done|]. split; [|done]. split; [done|]. intros ->. destruct Hj as [_ _ <- _]. simpl. by rewrite drop_all.
Qed.

Lemma leftovers_died {A} u s i : sh_u s = u -> (i <= length t)%nat ->
  died t u ((lift (printf 2 (bytes "leftovers: %s" ++ [10]) [AStr (cstring (t ++ 0 :: junk) i)]) ;; @sh_panic A (bytes "syntax")) s).
Proof.
  intros <- Hi. pose proof (printf_s_told (bytes "leftovers: ") (cstring (t ++ 0 :: junk) i) (sh_u s) ltac:(by repeat constructor)) as E.
  rewrite (bind_Ok _ _ _ _ _ (lift_Ok _ s _ _ E)). match goal with |- died _ _ (_ ?x) => destruct (@sh_panic_told A (bytes "syntax") x) as [k Ek] end.
  eexists _, k, _. split; [exact Ek|]. cbn [sh_u set set_sh_u]. rewrite told_told. split; [done|]. right. exists i. by rewrite text_drop.
Qed.

(** What [parsecmd] does, for every line. *)
Lemma parsecmd_decides fuel u ps h : (length t < fuel)%nat ->
  let s := MkShell u (t ++ 0 :: junk) ps h in
  (exists c p s', gline c (lex 0 t) /\ (forall c', gline c' (lex 0 t) -> c' = c) /\
     parsecmd fuel s = Ok p s' /\ built s' t p c /\ h `prefix_of` sh_heap s' /\ sh_u s' = u) \/
  (forall c, ~ gline c (lex 0 t)) /\ died t u (parsecmd fuel s).
Proof.
  intros Hf s. pose proof (lex_length _ 0 t (le_n _)) as Hlex.
  assert (at_tokens t junk u (move 0 s) (lex 0 t)) as Ha by (split; [done|simpl; lia|by rewrite drop_0|done]).
  pose proof (p_line_decides fuel (lex 0 t) ltac:(lia)) as Hd.
  pose proof (parseline_sim t junk u Ht fuel (move 0 s) _ Ha) as Hsim.
  assert (parsecmd fuel s = (let* cmd := parseline fuel (length t) in let* _ := peek (length t) [] in let* i := Kmonad.gets sh_ps in
    if negb (bool_decide (i = length t)) then
      lift (printf 2 (bytes "leftovers: %s" ++ [10]) [AStr (cstring (t ++ 0 :: junk) i)]) ;; sh_panic (bytes "syntax")
    else nulterminate fuel cmd ;; ret cmd) (move 0 s)) as ->.
  { unfold parsecmd. rewrite (bind_Ok (modify _) _ s tt (move 0 s) eq_refl), (bind_Ok (Kmonad.gets sh_buf) _ (move 0 s) (t ++ 0 :: junk) (move 0 s) eq_refl).
    by rewrite text_string. }
  destruct (p_line fuel (lex 0 t)) as [c ts| |]; [|right; split; [done|by apply died_bind]|done].
  destruct Hsim as (p & s1 & E1 & Ha1 & [Eu K1] & Hr1). rewrite (bind_Ok _ _ _ _ _ E1).
  destruct (peek_rest u s1 ts Ha1) as (j & E2 & Hj & Hle). rewrite (bind_Ok _ _ _ _ _ E2), (bind_Ok (Kmonad.gets sh_ps) _ (move j s1) j (move j s1) eq_refl).
  destruct ts as [|x ts].
  - left. rewrite bool_decide_true by (by apply Hj). simpl. destruct Hd as [Hg Hu].
    destruct (proj1 grammar_made c _ Hg) as [Hsp Hdep].
    assert (forall q e, (q, e) ∈ spans c -> word_ok t q e) as Hwok.
    { intros q e Hq. apply (lex_word_ok t q e (length t) 0); rewrite drop_0; [done|by apply Hsp]. }
    assert (nulterminate fuel p (move j s1) = Ok tt (zapped (spans c) (move j s1))) as E3.
    { apply nulterminate_Ok; [done| |lia]. apply Forall_forall. intros [q e] Hq. destruct (Hwok q e Hq) as (Hqe & _ & _).
      simpl. rewrite (at_buf _ _ _ _ _ Ha1), length_app. simpl. lia. }
    exists c, p, (zapped (spans c) (move j s1)). rewrite (bind_Ok _ _ _ _ _ E3). split_and!; [done..| |done|done].
    apply repr_built; [done|]. intros [q e] Hq. unfold zapped. simpl. rewrite (at_buf _ _ _ _ _ Ha1). by apply zap_word.
  - right. split; [done|]. rewrite bool_decide_false; [by apply leftovers_died|]. intros E. by apply Hj in E.
Qed.

End parsecmd.

