(* ===== verification/Runcmd.v ===== *)
(** * The shell runs commands (sh.c)

    What a process does is its trace: the processes it forks, the waits, the
    messages, and the program it becomes, with the open descriptors it has
    then.  The results of [fork], [open], [exec] and [chdir] that depend on the
    rest of the system are given with the state. *)

From stdpp Require Import base numbers list list_numbers sets gmap strings.
From S2P Require Import Prelude Kmonad Params KString User Shell Grammar Shparse.

Local Open Scope Z_scope.
Local Open Scope kern_scope.

(** ** The state of a process *)

(** What a descriptor refers to; the numbers tell pipes apart. *)
Inductive fdobj := FdFile (path : list Z) (mode : Z) | FdPipeR (k : nat) | FdPipeW (k : nat).
Abbreviation fdtable := (list (option fdobj)).

#[local] Set Warnings "-register-all".
Inductive act :=
| Fork (child : list act)
| Wait
| Say (msg : list Z)
| Chdir (path : list Z)
| Run (argv : list (list Z)) (fds : fdtable)
| Exit.

Record system := MkSystem {
  y_open : list Z -> Z -> bool;
  y_exec : list Z -> bool;
  y_chdir : list Z -> bool
}.

Record process := MkProcess {
  pr_sh : shell;
  pr_fds : fdtable;
  pr_trace : list act;
  pr_pipes : nat;  (** pipes made so far *)
  pr_forks : list bool;  (** results of the next forks, then they succeed *)
  pr_sys : system
}.
#[export] Instance eta_process : Eta process := fun x =>
  MkProcess (pr_sh x) (pr_fds x) (pr_trace x) (pr_pipes x) (pr_forks x) (pr_sys x).
#[export] Instance set_pr_sh : Setter pr_sh := ltac:(derive_setter).
#[export] Instance set_pr_fds : Setter pr_fds := ltac:(derive_setter).
#[export] Instance set_pr_trace : Setter pr_trace := ltac:(derive_setter).
#[export] Instance set_pr_pipes : Setter pr_pipes := ltac:(derive_setter).
#[export] Instance set_pr_forks : Setter pr_forks := ltac:(derive_setter).
#[export] Instance set_pr_sys : Setter pr_sys := ltac:(derive_setter).

Abbreviation PM := (K uwait process).

(** ** System calls *)

Definition log_act (a : act) : PM unit := modify (set pr_trace (fun l => l ++ [a])).

Definition pexit {A} : PM A := fun s => Susp UExit (set pr_trace (fun l => l ++ [Exit]) s) (fun _ => NoFuel).

Definition is_free (o : option fdobj) : bool := match o with None => true | Some _ => false end.

(** The lowest free descriptor. *)
Definition fdalloc (o : fdobj) : PM Z := fun s =>
  match find_idx is_free (pr_fds s) with
  | Some i => Ok (Z.of_nat i) (set pr_fds (insert i (Some o)) s)
  | None => Ok (-1) s
  end.

Definition popen (path : list Z) (mode : Z) : PM Z := fun s =>
  if y_open (pr_sys s) path mode then fdalloc (FdFile path mode) s else Ok (-1) s.

Definition pclose (fd : Z) : PM unit := modify (set pr_fds (insert (Z.to_nat fd) None)).

Definition pdup (fd : Z) : PM Z := fun s =>
  match pr_fds s !! Z.to_nat fd with
  | Some (Some o) => fdalloc o s
  | _ => Ok (-1) s
  end.

(** [pipe(p)]: the two descriptors. *)
Definition ppipe : PM (option (Z * Z)) :=
  let* k := Kmonad.gets pr_pipes in
  let* fds := Kmonad.gets pr_fds in
  modify (set pr_pipes S) ;;
  let* r := fdalloc (FdPipeR k) in
  let* w := fdalloc (FdPipeW k) in
  if (r <? 0) || (w <? 0) then modify (fun s => s <| pr_fds := fds |>) ;; ret None else ret (Some (r, w)).

Definition prpanic {A} (msg : list Z) : PM A := log_act (Say (msg ++ [10])) ;; pexit.

(** [if(fork1() == 0) child]: the child works on a copy of the process. *)
Definition fork1 (child : PM unit) : PM unit := fun s =>
  match pr_forks s with
  | false :: l => prpanic (bytes "fork") (s <| pr_forks := l |>)
  | l =>
      match child (s <| pr_forks := tail l |> <| pr_trace := [] |>) with
      | Susp UExit s' _ =>
          Ok tt (set pr_trace (fun l => l ++ [Fork (pr_trace s')]) (s <| pr_forks := pr_forks s' |> <| pr_pipes := pr_pipes s' |>))
      | Ok _ _ => Undef "child returns"
      | Panic m s' => Panic m s'
      | Undef w => Undef w
      | NoFuel => NoFuel
      end
  end.

Definition pwait : PM unit := log_act Wait.

(** [exec(argv[0], argv)]: returns only when it fails. *)
Definition pexec (argv : list (list Z)) : PM unit := fun s =>
  match argv with
  | path :: _ =>
      if y_exec (pr_sys s) path then Susp UExit (set pr_trace (fun l => l ++ [Run argv (pr_fds s)]) s) (fun _ => NoFuel)
      else Ok tt s
  | [] => Undef "argv"
  end.

(** ** runcmd *)

(** The strings of an [argv] up to the null pointer. *)
Fixpoint strings (buf : list Z) (argv : list (option nat)) : list (list Z) :=
  match argv with
  | Some q :: argv => cstring buf q :: strings buf argv
  | _ => []
  end.

Definition pnode (cmd : nat) : PM node := fun s =>
  match sh_heap (pr_sh s) !! cmd with Some n => Ok n s | None => Undef "cmd" end.

Fixpoint runcmd (fuel : nat) (cmd : nat) : PM unit :=
  match fuel with
  | O => nofuel
  | S fuel =>
      let* n := pnode cmd in
      let* buf := Kmonad.gets (fun s => sh_buf (pr_sh s)) in
      match n with
      | NExec argv _ =>
          let* a := deref "argv" (head argv) in
          match a with
          | None => pexit
          | Some q =>
              pexec (strings buf argv) ;;
              log_act (Say (bytes "exec " ++ cstring buf q ++ bytes " failed" ++ [10])) ;;
              pexit
          end
      | NRedir c file _ mode fd =>
          pclose fd ;;
          let* r := popen (cstring buf file) mode in
          if r <? 0 then log_act (Say (bytes "open " ++ cstring buf file ++ bytes " failed" ++ [10])) ;; pexit else
          runcmd fuel c ;;
          pexit
      | NList l r =>
          fork1 (runcmd fuel l) ;;
          pwait ;;
          runcmd fuel r ;;
          pexit
      | NPipe l r =>
          let* p := ppipe in
          match p with
          | None => prpanic (bytes "pipe")
          | Some (p0, p1) =>
              fork1 (pclose 1 ;; let* _ := pdup p1 in pclose p0 ;; pclose p1 ;; runcmd fuel l) ;;
              fork1 (pclose 0 ;; let* _ := pdup p0 in pclose p0 ;; pclose p1 ;; runcmd fuel r) ;;
              pclose p0 ;;
              pclose p1 ;;
              pwait ;;
              pwait ;;
              pexit
          end
      | NBack c =>
          fork1 (runcmd fuel c) ;;
          pexit
      end
  end.

(** ** main *)

(** What was written from the user state [u] to [u']; it goes to the trace. *)
Definition written (u u' : ustate) : list Z := concat (map snd (drop (length (u_out u)) (u_out u'))).
Definition hear (msg : list Z) (s : process) : process :=
  match msg with [] => s | _ => set pr_trace (fun l => l ++ [Say msg]) s end.

(** A call of the parser in the process. *)
Definition plift {A} (m : SM A) : PM A := fun s =>
  match m (pr_sh s) with
  | Ok a sh => Ok a (hear (written (sh_u (pr_sh s)) (sh_u sh)) (s <| pr_sh := sh |>))
  | Susp w sh _ =>
      Susp w (set pr_trace (fun l => l ++ [Exit]) (hear (written (sh_u (pr_sh s)) (sh_u sh)) (s <| pr_sh := sh |>))) (fun _ => NoFuel)
  | Panic msg sh => Panic msg (s <| pr_sh := sh |>)
  | Undef w => Undef w
  | NoFuel => NoFuel
  end.

Definition NBUF_SH : nat := 100.

(** The line, or [None] at the end of the input. *)
Definition getcmd : PM (option (list Z)) :=
  log_act (Say (bytes "$ ")) ;;
  let* line := plift (lift (User.gets (Z.of_nat NBUF_SH))) in
  let buf := line ++ replicate (NBUF_SH - length line) 0 in
  plift (modify (fun s => s <| sh_buf := buf |>)) ;;
  if bool_decide (head buf = Some 0) then ret None else ret (Some buf).

(** [while((fd = open("console", O_RDWR)) >= 0) ...] *)
Fixpoint open_console (fuel : nat) : PM unit :=
  match fuel with
  | O => nofuel
  | S fuel =>
      let* fd := popen (bytes "console") O_RDWR in
      if fd <? 0 then ret tt else
      if 3 <=? fd then pclose fd else open_console fuel
  end.

(** [runcmd(parsecmd(buf))], by the child. *)
Definition run_line (fuel : nat) : PM unit := let* cmd := plift (parsecmd fuel) in runcmd fuel cmd.

(** [fuel] bounds the number of lines, [size] the work on one. *)
Fixpoint sh_loop (fuel size : nat) : PM unit :=
  match fuel with
  | O => nofuel
  | S fuel =>
      let* r := getcmd in
      match r with
      | None => pexit
      | Some buf =>
          if bool_decide (take 3 buf = bytes "cd ") then
            let buf := <[(length (cstring buf 0) - 1)%nat := 0]> buf in
            plift (modify (fun s => s <| sh_buf := buf |>)) ;;
            let* ok := Kmonad.gets (fun s => y_chdir (pr_sys s) (cstring buf 3)) in
            (if ok then log_act (Chdir (cstring buf 3))
             else log_act (Say (bytes "cannot cd " ++ cstring buf 3 ++ [10]))) ;;
            sh_loop fuel size
          else
            fork1 (run_line size) ;;
            pwait ;;
            sh_loop fuel size
      end
  end.

Definition sh_main (fuel size : nat) : PM unit := open_console 4 ;; sh_loop fuel size.

(** ** What a command does *)

Section script.
Context (sys : system) (t : list Z).

(** The trace of [runcmd] on the tree [c] of the text [t], with the number of
    pipes made before and after. *)
Fixpoint script (n : nat) (fds : fdtable) (c : cmd) : list act * nat :=
  match c with
  | Exec [] => ([Exit], n)
  | Exec (w :: ws) =>
      if y_exec sys (word t w) then ([Run (map (word t) (w :: ws)) fds], n)
      else ([Say (bytes "exec " ++ word t w ++ bytes " failed" ++ [10]); Exit], n)
  | Redir c (w, m, fd) =>
      if y_open sys (word t w) m then script n (<[Z.to_nat fd := Some (FdFile (word t w) m)]> fds) c
      else ([Say (bytes "open " ++ word t w ++ bytes " failed" ++ [10]); Exit], n)
  | CList l r =>
      let '(a, n1) := script n fds l in
      let '(b, n2) := script n1 fds r in
      (Fork a :: Wait :: b, n2)
  | Pipe l r =>
      let '(a, n1) := script (S n) (<[1%nat := Some (FdPipeW n)]> fds) l in
      let '(b, n2) := script n1 (<[0%nat := Some (FdPipeR n)]> fds) r in
      ([Fork a; Fork b; Wait; Wait; Exit], n2)
  | Back c => let '(a, n1) := script n fds c in ([Fork a; Exit], n1)
  end.

(** The descriptors 0, 1 and 2 are open and two others are free. *)
Record fds_ok (fds : fdtable) : Prop := {
  fo_std : forall i, (i < 3)%nat -> exists o, fds !! i = Some (Some o);
  fo_free : exists i j, i <> j /\ fds !! i = Some None /\ fds !! j = Some None
}.

(** Redirections of descriptors 0 and 1. *)
Fixpoint redirs_ok (c : cmd) : Prop :=
  match c with
  | Exec _ => True
  | Redir c (_, _, fd) => (fd = 0 \/ fd = 1) /\ redirs_ok c
  | Pipe l r | CList l r => redirs_ok l /\ redirs_ok r
  | Back c => redirs_ok c
  end.

Lemma fds_ok_insert fds i o : fds_ok fds -> (i < 3)%nat -> fds_ok (<[i := Some o]> fds).
Proof.
  intros [Hs (x & y & Hne & Hx & Hy)] Hi.
  assert (forall k, fds !! k = Some None -> (<[i := Some o]> fds) !! k = Some None) as Hk.
  { intros k Hk. rewrite list_lookup_insert_ne; [done|]. intros ->. destruct (Hs k Hi) as [o' Ho]. congruence. }
  split; [|exists x, y; auto]. intros k Hk3. destruct (Hs k Hk3) as [o' Ho]. destruct (decide (i = k)) as [->|Hne'].
  - exists o. apply list_lookup_insert_eq. by eapply lookup_lt_Some.
  - exists o'. by rewrite list_lookup_insert_ne.
Qed.

Lemma fdalloc_free o s k : pr_fds s !! k = Some None ->
  exists i, pr_fds s !! i = Some None /\ (i <= k)%nat /\ fdalloc o s = Ok (Z.of_nat i) (set pr_fds (insert i (Some o)) s).
Proof.
  intros Hk. unfold fdalloc. destruct (find_idx is_free (pr_fds s)) as [i|] eqn:E.
  - apply find_idx_Some in E as ([x|] & Hx & Hf & Hlt); [done|]. exists i. split_and!; [done| |done].
    destruct (decide (i <= k)%nat) as [|Hgt]; [done|]. by specialize (Hlt k None ltac:(lia) Hk).
  - by specialize (find_idx_None _ _ E None (list_elem_of_lookup_2 _ _ _ Hk)).
Qed.

(** The lowest free descriptor when the ones below are open. *)
Lemma fdalloc_at o s i : pr_fds s !! i = Some None -> (forall k, (k < i)%nat -> exists x, pr_fds s !! k = Some (Some x)) ->
  fdalloc o s = Ok (Z.of_nat i) (set pr_fds (insert i (Some o)) s).
Proof.
  intros Hi Hk. destruct (fdalloc_free o s i Hi) as (k & Hk' & Hle & ->). destruct (decide (k = i)) as [->|Hne]; [done|].
  destruct (Hk k ltac:(lia)) as [x Hx]. congruence.
Qed.

Abbreviation with_fds fds s := (s <| pr_fds := fds |>) (only parsing).

(** [close(fd); open or dup] puts the new object at [fd], for [fd] 0 or 1. *)
Lemma reopen o fds s i : (forall i, (i < 3)%nat -> exists o, fds !! i = Some (Some o)) -> (i < 3)%nat ->
  fdalloc o (with_fds (<[i := None]> fds) s) = Ok (Z.of_nat i) (with_fds (<[i := Some o]> fds) s).
Proof.
  intros Hs Hi. destruct (Hs i Hi) as [x Hx]. rewrite (fdalloc_at o _ i); simpl.
  - f_equal. unfold set, set_pr_fds. simpl. by rewrite list_insert_insert_eq.
  - apply list_lookup_insert_eq. by eapply lookup_lt_Some.
  - intros k Hk. rewrite list_lookup_insert_ne by lia. apply Hs. lia.
Qed.

(** [pipe]. *)
Lemma ppipe_Ok s : fds_ok (pr_fds s) -> exists i j, (3 <= i)%nat /\ (3 <= j)%nat /\ i <> j /\ pr_fds s !! i = Some None /\ pr_fds s !! j = Some None /\
  ppipe s = Ok (Some (Z.of_nat i, Z.of_nat j))
    (with_fds (<[j := Some (FdPipeW (pr_pipes s))]> (<[i := Some (FdPipeR (pr_pipes s))]> (pr_fds s))) (set pr_pipes S s)).
Proof.
  intros [Hs (x & y & Hne & Hx & Hy)].
  assert (forall k, pr_fds s !! k = Some None -> (3 <= k)%nat) as H3.
  { intros k Hk. destruct (decide (3 <= k)%nat) as [|Hlt]; [done|]. destruct (Hs k ltac:(lia)) as [o Ho]. congruence. }
  unfold ppipe. rewrite (bind_Ok (Kmonad.gets pr_pipes) _ s (pr_pipes s) s eq_refl), (bind_Ok (Kmonad.gets pr_fds) _ s (pr_fds s) s eq_refl).
  set (s0 := set pr_pipes S s). rewrite (bind_Ok (modify (set pr_pipes S)) _ s tt s0 eq_refl).
  destruct (fdalloc_free (FdPipeR (pr_pipes s)) s0 x Hx) as (i & Hi & _ & E1). simpl in Hi.
  set (s1 := set pr_fds _ _) in E1.
  assert (exists k, k <> i /\ pr_fds s !! k = Some None) as (k & Hki & Hk) by (destruct (decide (x = i)) as [->|]; [exists y|exists x]; auto).
  destruct (fdalloc_free (FdPipeW (pr_pipes s)) s1 k) as (j & Hj & _ & E2); [simpl; by rewrite list_lookup_insert_ne|].
  simpl in Hj. assert (i <> j) as Hij by (intros ->; rewrite list_lookup_insert_eq in Hj by (by eapply lookup_lt_Some); done).
  rewrite list_lookup_insert_ne in Hj by done. exists i, j. split_and!; auto.
  rewrite (bind_Ok _ _ _ _ _ E1), (bind_Ok _ _ _ _ _ E2).
  destruct (Z.ltb_spec (Z.of_nat i) 0); [lia|]. by destruct (Z.ltb_spec (Z.of_nat j) 0); [lia|].
Qed.

(** The process ends, with the actions [x.1] and [x.2] pipes made. *)
Definition scripted {A} (s : process) (o : outcome uwait process A) (x : list act * nat) : Prop :=
  exists s' k, o = Susp UExit s' k /\ pr_trace s' = pr_trace s ++ x.1 /\ pr_pipes s' = x.2 /\ pr_forks s' = [].

Lemma scripted_bind {A B} (m : PM A) (k : A -> PM B) s s1 x : scripted s (m s1) x -> scripted s (bind m k s1) x.
Proof. intros (s' & k' & E & H). rewrite (bind_Susp _ _ _ _ _ _ E). unfold scripted. eauto. Qed.

Lemma scripted_after {A} s s1 tr1 (o : outcome uwait process A) x : pr_trace s1 = pr_trace s ++ tr1 -> scripted s1 o x -> scripted s o (tr1 ++ x.1, x.2).
Proof. intros Ht (s' & k' & E & H1 & H2 & H3). exists s', k'. split_and!; [done| |done|done]. by rewrite H1, Ht, <- app_assoc. Qed.

Lemma scripted_from {A} s s1 (o : outcome uwait process A) x : pr_trace s1 = pr_trace s -> scripted s1 o x -> scripted s o x.
Proof. unfold scripted. by intros ->. Qed.

Lemma pexit_scripted {A} s : pr_forks s = [] -> scripted s (@pexit A s) ([Exit], pr_pipes s).
Proof. intros Hf. unfold scripted, pexit. eauto 6. Qed.

Lemma say_scripted {A} s msg : pr_forks s = [] -> scripted s ((log_act (Say msg) ;; @pexit A) s) ([Say msg; Exit], pr_pipes s).
Proof.
  intros Hf. set (s1 := set pr_trace (fun l => l ++ [Say msg]) s). rewrite (bind_Ok (log_act (Say msg)) _ s tt s1 eq_refl).
  apply (scripted_after s s1 [Say msg] _ ([Exit], pr_pipes s1)); [done|]. by apply pexit_scripted.
Qed.

(** [fork1] with the trace of the child. *)
Definition forked (x : list act * nat) (s : process) : process := set pr_trace (fun l => l ++ [Fork x.1]) (s <| pr_pipes := x.2 |>).

Lemma fork1_Ok child s x : pr_forks s = [] -> scripted (s <| pr_trace := [] |>) (child (s <| pr_trace := [] |>)) x ->
  fork1 child s = Ok tt (forked x s).
Proof.
  intros Hf (s' & k & E & H1 & H2 & H3). unfold fork1. rewrite Hf. cbn [tail].
  assert (s <| pr_forks := [] |> <| pr_trace := [] |> = s <| pr_trace := [] |>) as -> by (destruct s; simpl in *; by subst).
  rewrite E, H1, H2, H3. unfold forked. f_equal. destruct s; simpl in *. by subst.
Qed.

Lemma strings_built s0 argv : forall ws, argv !! length ws = Some None ->
  (forall i w, ws !! i = Some w -> argv !! i = Some (Some w.1) /\ cstring (sh_buf s0) w.1 = word t w) ->
  strings (sh_buf s0) argv = map (word t) ws.
Proof.
  induction argv as [|a argv IH]; intros ws Hend Hw; [done|]. destruct ws as [|w ws]; simpl in Hend.
  - by injection Hend as ->.
  - destruct (Hw 0%nat w eq_refl) as [[= ->] E]. simpl. rewrite E. f_equal. apply IH; [done|]. intros i w' Hi. by apply (Hw (S i)).
Qed.

Definition run_ok (c : cmd) : Prop := forall fuel p s, pr_sys s = sys -> built (pr_sh s) t p c -> redirs_ok c -> fds_ok (pr_fds s) ->
  pr_forks s = [] -> (depth c <= fuel)%nat -> scripted s (runcmd fuel p s) (script (pr_pipes s) (pr_fds s) c).

Lemma pnode_Ok p n s : sh_heap (pr_sh s) !! p = Some n -> pnode p s = Ok n s.
Proof. unfold pnode. by intros ->. Qed.

Lemma run_exec ws : run_ok (Exec ws).
Proof.
  intros fuel p s Es (argv & eargv & Hn & Hend & Hw) _ Hfd Hf Hd. destruct fuel as [|fuel]; [simpl in Hd; lia|]. cbn [runcmd].
  rewrite (bind_Ok _ _ _ _ _ (pnode_Ok p _ s Hn)), (bind_Ok (Kmonad.gets (fun s => sh_buf (pr_sh s))) _ s (sh_buf (pr_sh s)) s eq_refl).
  pose proof (strings_built (pr_sh s) argv ws Hend Hw) as Estr. destruct ws as [|w ws].
  - destruct argv as [|a argv]; [done|]. injection Hend as ->. simpl. by apply pexit_scripted.
  - destruct (Hw 0%nat w eq_refl) as [H0 Ew]. destruct argv as [|a argv]; [done|]. injection H0 as ->.
    rewrite (bind_Ok (deref "argv" (head (Some w.1 :: argv))) _ s (Some w.1) s eq_refl). simpl. simpl in Estr. rewrite Estr, Ew.
    destruct (y_exec sys (word t w)) eqn:Ey.
    + apply scripted_bind. unfold pexec. rewrite Es, Ey. unfold scripted. simpl. eauto 7.
    + rewrite (bind_Ok (pexec _) _ s tt s) by (unfold pexec; by rewrite Es, Ey). by apply say_scripted.
Qed.

Lemma run_redir c r : run_ok c -> run_ok (Redir c r).
Proof.
  destruct r as [[w m] fd]. intros IH fuel p s Es (p' & e & Hn & Ew & Hb) [Hfd01 Hro] Hfd Hf Hd. destruct fuel as [|fuel]; [simpl in Hd; lia|]. cbn [runcmd].
  rewrite (bind_Ok _ _ _ _ _ (pnode_Ok p _ s Hn)), (bind_Ok (Kmonad.gets (fun s => sh_buf (pr_sh s))) _ s (sh_buf (pr_sh s)) s eq_refl).
  set (i := Z.to_nat fd). assert (i < 3)%nat as Hi by (unfold i; lia). set (s1 := with_fds (<[i := None]> (pr_fds s)) s).
  rewrite (bind_Ok (pclose fd) _ s tt s1) by done. cbn [script]. rewrite Ew. destruct (y_open sys (word t w) m) eqn:Ey.
  - set (s2 := with_fds (<[i := Some (FdFile (word t w) m)]> (pr_fds s)) s).
    rewrite (bind_Ok (popen (word t w) m) _ s1 (Z.of_nat i) s2) by (unfold popen; simpl; rewrite Es, Ey; by apply reopen; [apply Hfd|]).
    destruct (Z.ltb_spec (Z.of_nat i) 0); [lia|]. apply scripted_bind, (scripted_from s s2); [done|].
    apply (IH fuel p' s2); try done; [by apply fds_ok_insert|simpl in Hd; lia].
  - rewrite (bind_Ok (popen (word t w) m) _ s1 (-1) s1) by (unfold popen; simpl; by rewrite Es, Ey). cbn [Z.ltb Z.compare].
    apply (scripted_from s s1); [done|]. by apply (say_scripted s1).
Qed.

Lemma run_list l r : run_ok l -> run_ok r -> run_ok (CList l r).
Proof.
  intros IHl IHr fuel p s Es (pl & pr & Hn & Hl & Hr) [Hol Hor] Hfd Hf Hd. destruct fuel as [|fuel]; [simpl in Hd; lia|]. simpl in Hd. cbn [runcmd script].
  rewrite (bind_Ok _ _ _ _ _ (pnode_Ok p _ s Hn)), (bind_Ok (Kmonad.gets (fun s => sh_buf (pr_sh s))) _ s (sh_buf (pr_sh s)) s eq_refl).
  destruct (script (pr_pipes s) (pr_fds s) l) as [a n1] eqn:Ea.
  assert (fork1 (runcmd fuel pl) s = Ok tt (forked (a, n1) s)) as E1.
  { apply fork1_Ok; [done|]. rewrite <- Ea. set (s0 := s <| pr_trace := [] |>). exact (IHl fuel pl s0 Es Hl Hol Hfd Hf ltac:(lia)). }
  rewrite (bind_Ok _ _ _ _ _ E1). set (s2 := set pr_trace (fun l => l ++ [Wait]) (forked (a, n1) s)).
  rewrite (bind_Ok pwait _ _ tt s2 eq_refl). pose proof (IHr fuel pr s2 Es Hr Hor Hfd Hf ltac:(lia)) as H.
  change (pr_pipes s2) with n1 in H. change (pr_fds s2) with (pr_fds s) in H. destruct (script n1 (pr_fds s) r) as [b n2].
  apply scripted_bind, (scripted_after s s2 [Fork a; Wait] _ (b, n2)); [|done]. simpl. by rewrite <- app_assoc.
Qed.

Lemma run_back c : run_ok c -> run_ok (Back c).
Proof.
  intros IH fuel p s Es (p' & Hn & Hb) Ho Hfd Hf Hd. destruct fuel as [|fuel]; [simpl in Hd; lia|]. simpl in Hd. cbn [runcmd script].
  rewrite (bind_Ok _ _ _ _ _ (pnode_Ok p _ s Hn)), (bind_Ok (Kmonad.gets (fun s => sh_buf (pr_sh s))) _ s (sh_buf (pr_sh s)) s eq_refl).
  destruct (script (pr_pipes s) (pr_fds s) c) as [a n1] eqn:Ea.
  assert (fork1 (runcmd fuel p') s = Ok tt (forked (a, n1) s)) as E1.
  { apply fork1_Ok; [done|]. rewrite <- Ea. set (s0 := s <| pr_trace := [] |>). exact (IH fuel p' s0 Es Hb Ho Hfd Hf ltac:(lia)). }
  rewrite (bind_Ok _ _ _ _ _ E1). apply (scripted_after s (forked (a, n1) s) [Fork a] _ ([Exit], n1)); [done|].
  by apply (pexit_scripted (forked (a, n1) s)).
Qed.

(** The descriptors [i] and [j] of a new pipe. *)
Definition piped (i j n : nat) (fds : fdtable) : fdtable := <[j := Some (FdPipeW n)]> (<[i := Some (FdPipeR n)]> fds).

Record pipe_at (i j : nat) (fds : fdtable) : Prop := {
  pa_i : (3 <= i)%nat; pa_j : (3 <= j)%nat; pa_ne : i <> j;
  pa_fi : fds !! i = Some None; pa_fj : fds !! j = Some None
}.

(** Closing both ends of the pipe gives the descriptors before it. *)
Lemma piped_closed i j n fds k o : pipe_at i j fds -> (k < 3)%nat ->
  <[j := None]> (<[i := None]> (<[k := Some o]> (piped i j n fds))) = <[k := Some o]> fds.
Proof.
  intros [Hi Hj Hne Hfi Hfj] Hk. unfold piped.
  rewrite (list_insert_insert_ne _ i k) by lia. rewrite (list_insert_insert_ne _ j k) by lia. f_equal.
  rewrite (list_insert_insert_ne _ i j), list_insert_insert_eq by done. rewrite list_insert_insert_eq. by rewrite (list_insert_id fds i), (list_insert_id fds j).
Qed.

(** A child of a pipe: the end [src] becomes descriptor [k]. *)
Lemma pipe_child {A} i j n fds k src o (m : PM A) s : pipe_at i j fds -> fds_ok fds -> (k < 3)%nat -> (3 <= src)%nat ->
  piped i j n fds !! src = Some (Some o) -> pr_fds s = piped i j n fds ->
  (pclose (Z.of_nat k) ;; let* _ := pdup (Z.of_nat src) in pclose (Z.of_nat i) ;; pclose (Z.of_nat j) ;; m) s =
  m (with_fds (<[k := Some o]> fds) s).
Proof.
  intros Hp [Hs _] Hk Hsrc Ho Hfds. unfold pclose. rewrite !Nat2Z.id.
  set (s1 := with_fds (<[k := None]> (piped i j n fds)) s). rewrite (bind_Ok _ _ s tt s1) by (unfold modify, s1; rewrite <- Hfds; by destruct s).
  set (s2 := with_fds (<[k := Some o]> (piped i j n fds)) s). rewrite (bind_Ok (pdup (Z.of_nat src)) _ s1 (Z.of_nat k) s2).
  - unfold bind, modify. simpl. f_equal. rewrite <- (piped_closed i j n fds k o Hp Hk). by destruct s.
  - unfold pdup. rewrite Nat2Z.id. simpl. rewrite list_lookup_insert_ne, Ho by lia. apply reopen; [|done].
    intros x Hx. destruct (Hs x Hx) as [y Hy]. exists y. destruct Hp. unfold piped. by rewrite !list_lookup_insert_ne by lia.
Qed.

Lemma pipe_fork c i j n fds k src o fuel p s : run_ok c -> pipe_at i j fds -> fds_ok fds -> (k < 3)%nat -> (3 <= src)%nat ->
  piped i j n fds !! src = Some (Some o) -> pr_fds s = piped i j n fds -> pr_forks s = [] -> pr_sys s = sys ->
  built (pr_sh s) t p c -> redirs_ok c -> (depth c <= fuel)%nat ->
  fork1 (pclose (Z.of_nat k) ;; let* _ := pdup (Z.of_nat src) in pclose (Z.of_nat i) ;; pclose (Z.of_nat j) ;; runcmd fuel p) s =
  Ok tt (forked (script (pr_pipes s) (<[k := Some o]> fds) c) s).
Proof.
  intros IH Hp Hok Hk Hsrc Ho Hfds Hf Es Hb Hro Hd. apply fork1_Ok; [done|]. set (s0 := s <| pr_trace := [] |>).
  rewrite (pipe_child i j n fds k src o _ s0) by done. set (s1 := with_fds _ s0). apply (scripted_from s0 s1); [done|].
  exact (IH fuel p s1 Es Hb Hro (fds_ok_insert _ k o Hok Hk) Hf Hd).
Qed.

Lemma run_pipe l r : run_ok l -> run_ok r -> run_ok (Pipe l r).
Proof.
  intros IHl IHr fuel p s Es (pl & pr & Hn & Hl & Hr) [Hol Hor] Hfd Hf Hd. destruct fuel as [|fuel]; [simpl in Hd; lia|]. simpl in Hd. cbn [runcmd script].
  rewrite (bind_Ok _ _ _ _ _ (pnode_Ok p _ s Hn)), (bind_Ok (Kmonad.gets (fun s => sh_buf (pr_sh s))) _ s (sh_buf (pr_sh s)) s eq_refl).
  destruct (ppipe_Ok s Hfd) as (i & j & Hi & Hj & Hne & Hfi & Hfj & E1). rewrite (bind_Ok _ _ _ _ _ E1).
  assert (pipe_at i j (pr_fds s)) as Hp by done. set (n := pr_pipes s) in *. change (<[j := _]> _) with (piped i j n (pr_fds s)) in *.
  set (s1 := with_fds (piped i j n (pr_fds s)) (set pr_pipes S s)) in *.
  assert (piped i j n (pr_fds s) !! j = Some (Some (FdPipeW n))) as Hlj.
  { unfold piped. apply list_lookup_insert_eq. rewrite length_insert. by eapply lookup_lt_Some. }
  assert (piped i j n (pr_fds s) !! i = Some (Some (FdPipeR n))) as Hli.
  { unfold piped. rewrite list_lookup_insert_ne by done. apply list_lookup_insert_eq. by eapply lookup_lt_Some. }
  pose proof (pipe_fork l i j n (pr_fds s) 1 j (FdPipeW n) fuel pl s1 IHl Hp Hfd ltac:(lia) Hj Hlj eq_refl Hf Es Hl Hol ltac:(lia)) as E2.
  change (Z.of_nat 1) with 1 in E2. change (pr_pipes s1) with (S n) in E2. rewrite (bind_Ok _ _ _ _ _ E2).
  destruct (script (S n) _ l) as [a n1]. set (s2 := forked (a, n1) s1).
  pose proof (pipe_fork r i j n (pr_fds s) 0 i (FdPipeR n) fuel pr s2 IHr Hp Hfd ltac:(lia) Hi Hli eq_refl Hf Es Hr Hor ltac:(lia)) as E3.
  change (Z.of_nat 0) with 0 in E3. change (pr_pipes s2) with n1 in E3. rewrite (bind_Ok _ _ _ _ _ E3).
  destruct (script n1 _ r) as [b n2]. unfold scripted, pclose, pwait, log_act, pexit, bind, modify. simpl.
  eexists _, _. split; [reflexivity|]. simpl. rewrite <- !app_assoc. done.
Qed.

Lemma runcmd_scripted c : run_ok c.
Proof. induction c; auto using run_exec, run_redir, run_pipe, run_list, run_back. Qed.
End script.

(** ** Descriptors *)

Lemma grammar_redirs :
  (forall c ts, gline c ts -> redirs_ok c) /\ (forall c ts, gback c ts -> redirs_ok c) /\
  (forall c ts, gpipe c ts -> redirs_ok c) /\ (forall c ts, gexec c ts -> redirs_ok c).
Proof.
  assert (forall rs c, Forall (fun r : redir => r.2 = 0 \/ r.2 = 1) rs -> redirs_ok c -> redirs_ok (wrap rs c)) as Hwrap.
  { intros rs. induction rs as [|[[w m] fd] rs IH]; intros c Hrs Hc; [done|]. apply Forall_cons in Hrs as [Hr Hrs]. by apply IH. }
  assert (forall t m fd, redir_of t = Some (m, fd) -> fd = 0 \/ fd = 1) as Hfd.
  { intros [c| |] m fd; simpl; [|naive_solver|done]. destruct (c =? 60); [naive_solver|]. destruct (c =? 62); naive_solver. }
  apply (grammar_mut (fun c _ _ => redirs_ok c) (fun c _ _ => redirs_ok c) (fun c _ _ => redirs_ok c) (fun c _ _ => redirs_ok c)); try done.
  - intros ws rs ts Hg _. apply Hwrap; [|done]. induction Hg; [constructor|done|]. constructor; [|done]. by eapply Hfd.
  - intros c rs ts1 ts2 _ Hc Hr. apply Hwrap; [|done]. induction Hr; constructor; [|done]. by eapply Hfd.
Qed.

(** The programs a process and its descendants run, with their descriptors. *)
Fixpoint runs_of (a : act) : list (list (list Z) * fdtable) :=
  match a with
  | Run argv fds => [(argv, fds)]
  | Fork tr => concat (map runs_of tr)
  | _ => []
  end.
Definition launched (tr : list act) : list (list (list Z) * fdtable) := concat (map runs_of tr).

(** The same descriptors from 2 on. *)
Definition same_from2 (fds fds' : fdtable) : Prop := forall i, (2 <= i)%nat -> fds' !! i = fds !! i.

Lemma script_descriptors sys t c : forall n fds, redirs_ok c -> Forall (fun x => same_from2 fds x.2) (launched (script sys t n fds c).1).
Proof.
  assert (forall (fds : fdtable) i o L, (i < 2)%nat -> Forall (fun x : list (list Z) * fdtable => same_from2 (<[i := o]> fds) x.2) L ->
    Forall (fun x : list (list Z) * fdtable => same_from2 fds x.2) L) as Hins.
  { intros fds i o L Hi H. eapply Forall_impl; [exact H|]. intros x Hx k Hk. rewrite (Hx k Hk). apply list_lookup_insert_ne. lia. }
  unfold launched.
  induction c as [ws|c IH [[w m] fd]|l IHl r IHr|l IHl r IHr|c IH]; intros n fds Hro; simpl in *.
  - destruct ws as [|w ws]; [constructor|]. destruct (y_exec sys (word t w)); simpl; [|constructor]. constructor; [done|constructor].
  - destruct Hro as [Hfd Hro]. destruct (y_open sys (word t w) m); [|constructor]. eapply (Hins _ (Z.to_nat fd)); [lia|by apply IH].
  - destruct Hro as [Hl Hr]. pose proof (IHl (S n) (<[1%nat := Some (FdPipeW n)]> fds) Hl) as H1. destruct (script sys t (S n) _ l) as [a n1].
    pose proof (IHr n1 (<[0%nat := Some (FdPipeR n)]> fds) Hr) as H2. destruct (script sys t n1 _ r) as [b n2]. simpl in *. rewrite app_nil_r.
    apply Forall_app. split; [by apply (Hins _ 1%nat (Some (FdPipeW n))); [lia|]|by apply (Hins _ 0%nat (Some (FdPipeR n))); [lia|]].
  - destruct Hro as [Hl Hr]. pose proof (IHl n fds Hl) as H1. destruct (script sys t n fds l) as [a n1].
    pose proof (IHr n1 fds Hr) as H2. destruct (script sys t n1 fds r) as [b n2]. simpl in *. by apply Forall_app.
  - pose proof (IH n fds Hro) as H1. destruct (script sys t n fds c) as [a n1]. simpl in *. by rewrite app_nil_r.
Qed.

(** [runcmd] on the tree of a command, with descriptors 0, 1 and 2 open, two
    others free and forks that succeed, ends, and its actions are those of
    the command's script: a pipe gives the left side its write end as
    descriptor 1 and the right side its read end as descriptor 0, a
    redirection replaces descriptor 0 or 1 by the file, a list waits
    between its parts. Every program it runs, in whatever descendant, has the
    shell's descriptors from 2 on: no end of a pipe is left open in it. *)
Theorem runcmd_runs t c ts fuel p s : gline c ts -> built (pr_sh s) t p c -> fds_ok (pr_fds s) -> pr_forks s = [] -> (depth c <= fuel)%nat ->
  exists s' k, runcmd fuel p s = Susp UExit s' k /\
    pr_trace s' = pr_trace s ++ (script (pr_sys s) t (pr_pipes s) (pr_fds s) c).1 /\
    Forall (fun x => same_from2 (pr_fds s) x.2) (launched (script (pr_sys s) t (pr_pipes s) (pr_fds s) c).1).
Proof.
  intros Hg Hb Hfd Hf Hd. pose proof (proj1 grammar_redirs c ts Hg) as Hro.
  destruct (runcmd_scripted (pr_sys s) t c fuel p s eq_refl Hb Hro Hfd Hf Hd) as (s' & k & E & Et & _). exists s', k.
  split_and!; [done|done|by apply script_descriptors].
Qed.

(** ** A session *)

(** One byte of a stream. *)
Lemma read_byte c cs st u : reads 0 st u -> sound_stream st -> content st = c :: cs ->
  exists st', User.read 0 1 u = Ok (Some [c]) (rewound 0 st' u) /\ sound_stream st' /\ content st' = cs.
Proof.
  intros Hr Hs Hc. destruct Hs as [|o st (b & bs & ->) Hs]; [done|]. simpl in Hc. injection Hc as -> <-.
  rewrite (read_piece 0 1 (c :: bs) st u Hr). change (Z.to_nat 1) with 1%nat. cbn [take drop]. rewrite take_0.
  destruct bs as [|b' bs]; [by exists st|]. exists (Some (b' :: bs) :: st). split_and!; [done| |done]. constructor; [|done]. eauto.
Qed.

(** [gets] takes a line with its newline. *)
Lemma gets_line line rest : Forall (fun c => c <> 10 /\ c <> 13) line -> forall room buf st u,
  reads 0 st u -> sound_stream st -> content st = line ++ 10 :: rest -> (length line < room)%nat ->
  exists st', gets_loop room buf u = Ok (buf ++ line ++ [10]) (rewound 0 st' u) /\ sound_stream st' /\ content st' = rest.
Proof.
  induction 1 as [|c line [Hc1 Hc2] _ IH]; intros room buf st u Hr Hs Hc Hl; (destruct room as [|room]; [simpl in Hl; lia|]); cbn [gets_loop].
  - destruct (read_byte 10 rest st u Hr Hs Hc) as (st' & E & Hs' & Hc'). rewrite (bind_Ok _ _ _ _ _ E). by exists st'.
  - destruct (read_byte c (line ++ 10 :: rest) st u Hr Hs Hc) as (st' & E & Hs' & Hc'). rewrite (bind_Ok _ _ _ _ _ E). cbv zeta.
    rewrite (proj2 (Z.eqb_neq c 10) Hc1), (proj2 (Z.eqb_neq c 13) Hc2). cbn [orb].
    destruct (IH room (buf ++ [c]) st' (rewound 0 st' u)) as (st'' & E' & H'); [by eapply reads_rewound|done|done|simpl in Hl; lia|].
    exists st''. rewrite E', rewound_rewound, <- app_assoc. done.
Qed.

Lemma gets_end st u room buf : reads 0 st u -> sound_stream st -> content st = [] -> gets_loop (S room) buf u = Ok buf u.
Proof.
  intros Hr Hs Hc. destruct Hs as [|o st (b & bs & ->) Hs]; [|done]. cbn [gets_loop]. by rewrite (bind_Ok _ _ _ _ _ (read_end 0 1 u Hr)).
Qed.

(** A parser that writes nothing. *)
Lemma written_none u u' : u_out u' = u_out u -> written u u' = [].
Proof. intros E. unfold written. by rewrite E, drop_all. Qed.

Lemma plift_quiet {A} (m : SM A) s a sh : m (pr_sh s) = Ok a sh -> u_out (sh_u sh) = u_out (sh_u (pr_sh s)) -> plift m s = Ok a (s <| pr_sh := sh |>).
Proof. intros E Eu. unfold plift. by rewrite E, written_none. Qed.

Lemma complaint_ne t msg : complaint t msg -> msg <> [].
Proof.
  intros [Hin|(i & ->)]; [|done]. intros ->. assert (Forall (fun m => m <> []) complaints) as H by (by repeat constructor).
  by apply (proj1 (Forall_forall _ _) H [] Hin).
Qed.

Lemma written_told msg u : written u (told msg u) = if u_full u 2 then [] else msg.
Proof.
  unfold told. destruct (u_full u 2); [by apply written_none|]. unfold written. cbn [u_out set set_u_out]. rewrite drop_app_length, map_map. cbn [snd].
  induction msg as [|c msg IH]; [done|]. simpl. by rewrite IH.
Qed.

Section session.
Context (sys : system) (fds : fdtable) (full : bool).
Hypothesis Hfds : fds_ok fds.

(** The text of an input line. *)
Definition text (l : list Z) : list Z := l ++ [10].

(** What a child does that cannot parse its line; the message is lost when
    descriptor 2 is [full]. *)
Definition refused (msg : list Z) : list act := if full then [Exit] else [Say msg; Exit].

(** What the shell does with the lines [ls], after [n] pipes. *)
Inductive session : nat -> list (list Z) -> list act -> Prop :=
| session_end n : session n [] [Say (bytes "$ "); Exit]
| session_cd n l ls tr : take 3 l = bytes "cd " -> y_chdir sys (drop 3 l) = true -> session n ls tr ->
    session n (l :: ls) (Say (bytes "$ ") :: Chdir (drop 3 l) :: tr)
| session_cannot n l ls tr : take 3 l = bytes "cd " -> y_chdir sys (drop 3 l) = false -> session n ls tr ->
    session n (l :: ls) (Say (bytes "$ ") :: Say (bytes "cannot cd " ++ drop 3 l ++ [10]) :: tr)
| session_run n l ls tr c : take 3 l <> bytes "cd " -> gline c (lex 0 (text l)) -> session (script sys (text l) n fds c).2 ls tr ->
    session n (l :: ls) (Say (bytes "$ ") :: Fork (script sys (text l) n fds c).1 :: Wait :: tr)
| session_error n l ls tr msg : take 3 l <> bytes "cd " -> (forall c, ~ gline c (lex 0 (text l))) -> complaint (text l) msg -> session n ls tr ->
    session n (l :: ls) (Say (bytes "$ ") :: Fork (refused msg) :: Wait :: tr).

(** The child that runs a line, and one that cannot. *)
Lemma run_line_scripted l s fuel junk c : Forall (fun c => c <> 0) l -> sh_buf (pr_sh s) = text l ++ 0 :: junk -> pr_sys s = sys -> pr_fds s = fds ->
  pr_forks s = [] -> (length (text l) < fuel)%nat -> gline c (lex 0 (text l)) ->
  scripted s (run_line fuel s) (script sys (text l) (pr_pipes s) fds c).
Proof.
  intros Hl Hb Es Ef Hf Hfuel Hg. assert (Forall (fun c => c <> 0) (text l)) as Ht by (apply Forall_app; split; [done|by repeat constructor]).
  destruct (pr_sh s) as [u b ps h] eqn:Esh. simpl in Hb. subst b.
  destruct (parsecmd_decides (text l) junk Ht fuel u ps h Hfuel) as [(c' & p & sh' & _ & Hu & E & Hbt & _ & Eu)|[Hno _]]; [|by destruct (Hno c)].
  rewrite <- (Hu c Hg) in Hbt. unfold run_line. set (s1 := s <| pr_sh := sh' |>).
  rewrite (bind_Ok (plift (parsecmd fuel)) _ s p s1) by (apply plift_quiet; rewrite Esh; [done|by rewrite Eu]). rewrite <- Ef in Hfds |- *.
  destruct (proj1 grammar_made c _ Hg) as [_ Hdep]. pose proof (lex_length _ 0 (text l) (le_n _)) as Hlex.
  apply (scripted_from s s1); [done|].
  exact (runcmd_scripted sys (text l) c fuel p s1 Es Hbt (proj1 grammar_redirs c _ Hg) Hfds Hf ltac:(lia)).
Qed.

Lemma run_line_refused l fuel sh : Forall (fun c => c <> 0) l -> (exists junk, sh_buf sh = text l ++ 0 :: junk) -> u_full (sh_u sh) 2 = full ->
  (length (text l) < fuel)%nat -> (forall c, ~ gline c (lex 0 (text l))) ->
  exists msg, complaint (text l) msg /\ forall s, pr_sh s = sh -> pr_forks s = [] -> scripted s (run_line fuel s) (refused msg, pr_pipes s).
Proof.
  intros Hl [junk Hb] Hfull Hfuel Hno. assert (Forall (fun c => c <> 0) (text l)) as Ht by (apply Forall_app; split; [done|by repeat constructor]).
  destruct sh as [u b ps h]. simpl in Hb, Hfull. subst b.
  destruct (parsecmd_decides (text l) junk Ht fuel u ps h Hfuel) as [(c & _ & _ & Hg & _)|[_ (sh' & k & msg & E & Eu & Hm)]]; [by destruct (Hno c)|].
  exists msg. split; [done|]. intros s Esh Hf. unfold run_line. apply scripted_bind. unfold plift. rewrite Esh, E, Eu. cbn [sh_u].
  rewrite written_told, Hfull. unfold scripted, refused. destruct full.
  - eexists _, _. split; [reflexivity|]. by split_and!.
  - pose proof (complaint_ne _ _ Hm). destruct msg as [|x msg]; [done|]. eexists _, _. split; [reflexivity|]. split_and!; try done. simpl. by rewrite <- app_assoc.
Qed.

Definition input_line (l : list Z) : Prop := Forall (fun c => c <> 0 /\ c <> 10 /\ c <> 13) l /\ (length l < 99)%nat.

(** The buffer of a line. *)
Definition line_buf (l : list Z) : list Z := text l ++ 0 :: replicate (98 - length l) 0.

(** The shell before the input lines [ls]. *)
Record before (ls : list (list Z)) (s : process) : Prop := {
  bf_sys : pr_sys s = sys;
  bf_fds : pr_fds s = fds;
  bf_forks : pr_forks s = [];
  bf_full : u_full (sh_u (pr_sh s)) 2 = full;
  bf_input : exists st, reads 0 st (sh_u (pr_sh s)) /\ sound_stream st /\ content st = concat (map text ls)
}.

Lemma cd_prefix l : take 3 (line_buf l) = bytes "cd " <-> take 3 l = bytes "cd ".
Proof.
  unfold line_buf, text. rewrite <- app_assoc. destruct l as [|a [|b [|c l]]]; simpl; split; try done; intros H; congruence.
Qed.

Lemma plift_lift {A} (m : UM A) s a u : m (sh_u (pr_sh s)) = Ok a u -> u_out u = u_out (sh_u (pr_sh s)) ->
  plift (lift m) s = Ok a (s <| pr_sh := (pr_sh s) <| sh_u := u |> |>).
Proof. intros E Eu. apply plift_quiet; [by apply lift_Ok|done]. Qed.

Lemma plift_buf buf s : plift (modify (fun s => s <| sh_buf := buf |>)) s = Ok tt (s <| pr_sh := (pr_sh s) <| sh_buf := buf |> |>).
Proof. by apply plift_quiet. Qed.

(** The prompt and the next line. *)
Lemma getcmd_line l ls s : input_line l -> before (l :: ls) s ->
  exists s', getcmd s = Ok (Some (line_buf l)) s' /\ before ls s' /\ pr_trace s' = pr_trace s ++ [Say (bytes "$ ")] /\
    sh_buf (pr_sh s') = line_buf l /\ pr_pipes s' = pr_pipes s.
Proof.
  intros [Hl Hlen] [Hsys Hfd Hf Hfl (st & Hr & Hs & Hc)]. simpl in Hc. unfold text in Hc at 1. rewrite <- app_assoc in Hc.
  unfold getcmd. set (s1 := set pr_trace (fun l => l ++ [Say (bytes "$ ")]) s). rewrite (bind_Ok (log_act (Say (bytes "$ "))) _ s tt s1 eq_refl).
  destruct (gets_line l (concat (map text ls))) with (room := 99%nat) (buf := @nil Z) (st := st) (u := sh_u (pr_sh s)) as (st' & E & Hs' & Hc');
    [eapply Forall_impl; [exact Hl|]; naive_solver|done|done|done|done|].
  rewrite (bind_Ok _ _ _ _ _ (plift_lift (User.gets (Z.of_nat NBUF_SH)) s1 _ _ E eq_refl)). set (s2 := s1 <| pr_sh := _ |>).
  assert (([] ++ l ++ [10]) ++ replicate (NBUF_SH - length ([] ++ l ++ [10])) 0 = line_buf l) as Eb.
  { unfold line_buf, text, NBUF_SH. simpl. rewrite length_app. simpl. replace (100 - (length l + 1))%nat with (S (98 - length l)) by lia. done. }
  cbv zeta. rewrite Eb. set (s3 := s2 <| pr_sh := (pr_sh s2) <| sh_buf := line_buf l |> |>).
  rewrite (bind_Ok _ _ s2 tt s3) by apply plift_buf. rewrite bool_decide_false.
  - exists s3. split_and!; try done. split; [done..|]. exists st'. split_and!; [by eapply reads_rewound|done|done].
  - unfold line_buf, text. destruct l as [|c l]; [done|]. simpl. intros [= ->]. apply Forall_cons in Hl as [(H0 & _) _]. done.
Qed.

Lemma getcmd_end s : before [] s -> exists s', getcmd s = Ok None s' /\ pr_trace s' = pr_trace s ++ [Say (bytes "$ ")] /\ pr_forks s' = [].
Proof.
  intros [Hsys Hfd Hf Hfl (st & Hr & Hs & Hc)]. unfold getcmd.
  set (s1 := set pr_trace (fun l => l ++ [Say (bytes "$ ")]) s). rewrite (bind_Ok (log_act (Say (bytes "$ "))) _ s tt s1 eq_refl).
  rewrite (bind_Ok _ _ _ _ _ (plift_lift (User.gets (Z.of_nat NBUF_SH)) s1 _ _ (gets_end st _ 98 [] Hr Hs Hc) eq_refl)).
  cbv zeta. rewrite (bind_Ok _ _ _ _ _ (plift_buf _ _)). eexists. split; [reflexivity|]. by split.
Qed.

(** [cd], in the shell itself. *)
Lemma loop_cd l ls s s1 fuel size : input_line l -> take 3 l = bytes "cd " -> getcmd s = Ok (Some (line_buf l)) s1 -> before ls s1 ->
  exists s2, sh_loop (S fuel) size s = sh_loop fuel size s2 /\ before ls s2 /\ pr_pipes s2 = pr_pipes s1 /\
    pr_trace s2 = pr_trace s1 ++ [if y_chdir sys (drop 3 l) then Chdir (drop 3 l) else Say (bytes "cannot cd " ++ drop 3 l ++ [10])].
Proof.
  intros [Hl Hlen] Hcd E Hb1. cbn [sh_loop]. rewrite (bind_Ok _ _ _ _ _ E). rewrite bool_decide_true by (by apply cd_prefix). cbv zeta.
  assert (Forall (fun c => c <> 0) l) as H0 by (eapply Forall_impl; [exact Hl|]; naive_solver).
  assert (Forall (fun c => c <> 0) (text l)) as Ht by (apply Forall_app; split; [done|by repeat constructor]).
  set (b := <[_ := 0]> (line_buf l)).
  assert (b = l ++ 0 :: 0 :: replicate (98 - length l) 0) as Eb.
  { unfold b, line_buf. rewrite text_string by done. unfold text. rewrite length_app. simpl. rewrite Nat.add_sub, <- app_assoc.
    rewrite insert_app_r_alt, Nat.sub_diag by lia. done. }
  assert (cstring b 3 = drop 3 l) as Ec.
  { rewrite Eb. apply text_drop; [done|]. apply (f_equal length) in Hcd. rewrite length_take in Hcd. change (length (bytes "cd ")) with 3%nat in Hcd. lia. }
  set (s2 := s1 <| pr_sh := (pr_sh s1) <| sh_buf := b |> |>). rewrite (bind_Ok (plift _) _ s1 tt s2) by apply plift_buf.
  rewrite (bind_Ok (Kmonad.gets _) _ s2 (y_chdir sys (drop 3 l)) s2) by (unfold Kmonad.gets; rewrite Ec; simpl; by rewrite (bf_sys _ _ Hb1)).
  assert (forall a, before ls (set pr_trace (fun l => l ++ [a]) s2)) as Hb2 by (intros a; destruct Hb1; by split).
  destruct (y_chdir sys (drop 3 l)); rewrite Ec; eexists; (split; [reflexivity|]); split_and!; try done; apply Hb2.
Qed.

(** A command, in a child. *)
Lemma loop_run l ls s s1 fuel size x : take 3 l <> bytes "cd " -> getcmd s = Ok (Some (line_buf l)) s1 -> before ls s1 ->
  (forall s, pr_sh s = pr_sh s1 -> pr_sys s = sys -> pr_fds s = fds -> pr_forks s = [] -> pr_pipes s = pr_pipes s1 -> scripted s (run_line size s) x) ->
  exists s2, sh_loop (S fuel) size s = sh_loop fuel size s2 /\ before ls s2 /\ pr_pipes s2 = x.2 /\
    pr_trace s2 = pr_trace s1 ++ [Fork x.1; Wait].
Proof.
  intros Hcd E [Hsys Hfd Hf Hfl Hin] Hx. cbn [sh_loop]. rewrite (bind_Ok _ _ _ _ _ E). rewrite bool_decide_false by (by rewrite cd_prefix).
  assert (fork1 (run_line size) s1 = Ok tt (forked x s1)) as E1 by (apply fork1_Ok; [done|]; by apply Hx).
  rewrite (bind_Ok _ _ _ _ _ E1). exists (set pr_trace (fun l => l ++ [Wait]) (forked x s1)). split; [done|].
  split_and!; [by split|done|]. simpl. by rewrite <- app_assoc.
Qed.

Lemma sh_loop_session size : (100 <= size)%nat -> forall ls fuel s, Forall input_line ls -> before ls s -> (length ls < fuel)%nat ->
  exists tr s' k, session (pr_pipes s) ls tr /\ sh_loop fuel size s = Susp UExit s' k /\ pr_trace s' = pr_trace s ++ tr.
Proof.
  intros Hsize. induction ls as [|l ls IH]; intros fuel s Hls Hb Hf; (destruct fuel as [|fuel]; [simpl in Hf; lia|]).
  - destruct (getcmd_end s Hb) as (s1 & E & Et & _). cbn [sh_loop]. rewrite (bind_Ok _ _ _ _ _ E).
    eexists _, _, _. split; [apply session_end|]. split; [reflexivity|]. simpl. by rewrite Et, <- app_assoc.
  - apply Forall_cons in Hls as [Hl Hls]. simpl in Hf.
    destruct (getcmd_line l ls s Hl Hb) as (s1 & E & Hb1 & Et1 & Ebuf & Ep1).
    assert (forall x y, (exists s2, sh_loop (S fuel) size s = sh_loop fuel size s2 /\ before ls s2 /\ pr_pipes s2 = y /\ pr_trace s2 = pr_trace s1 ++ x) ->
      (forall tr, session y ls tr -> session (pr_pipes s) (l :: ls) (Say (bytes "$ ") :: x ++ tr)) ->
      exists tr s' k, session (pr_pipes s) (l :: ls) tr /\ sh_loop (S fuel) size s = Susp UExit s' k /\ pr_trace s' = pr_trace s ++ tr) as Hgo.
    { intros x y (s2 & E2 & Hb2 & En & Ex) Hses. destruct (IH fuel s2 Hls Hb2 ltac:(lia)) as (tr' & s' & k & Hs' & E' & Et'). rewrite En in Hs'.
      exists (Say (bytes "$ ") :: x ++ tr'), s', k. split_and!; [auto|by rewrite E2|]. by rewrite Et', Ex, Et1, <- !app_assoc. }
    rewrite <- Ep1 in *. destruct (decide (take 3 l = bytes "cd ")) as [Hcd|Hcd].
    + eapply Hgo; [by apply (loop_cd l ls s s1)|]. intros tr Htr. destruct (y_chdir sys (drop 3 l)) eqn:Ey; by constructor.
    + pose proof Hl as [Hlc Hlen]. assert (Forall (fun c => c <> 0) l) as H0 by (eapply Forall_impl; [exact Hlc|]; naive_solver).
      assert (length (text l) < size)%nat as Hsz by (unfold text; rewrite length_app; simpl; lia).
      destruct (gline_dec (lex 0 (text l))) as [(c & Hg & Hu)|Hno].
      * eapply Hgo; [apply (loop_run l ls s s1 fuel size (script sys (text l) (pr_pipes s1) fds c)); [done..|]|].
        -- intros s0 Esh Es Ef Hfk Epp. rewrite <- Esh in Ebuf. rewrite <- Epp. by eapply run_line_scripted.
        -- intros tr Htr. by apply session_run.
      * destruct (run_line_refused l size (pr_sh s1) H0) as (msg & Hm & Hs'); [by rewrite Ebuf; eexists|by apply (bf_full _ _ Hb1)|done|done|].
        eapply Hgo; [apply (loop_run l ls s s1 fuel size (refused msg, pr_pipes s1)); [done..|]|].
        -- intros s0 Esh Es Ef Hfk Epp. rewrite <- Epp. by apply Hs'.
        -- intros tr Htr. by apply session_error.
Qed.
End session.

(** ** The whole shell *)

Definition console_fd : fdobj := FdFile (bytes "console") O_RDWR.

(** Descriptors 0, 1 and 2 open, on the console where they were not. *)
Definition std_fds (a b c : option fdobj) (rest : fdtable) : fdtable :=
  Some (default console_fd a) :: Some (default console_fd b) :: Some (default console_fd c) :: rest.

Lemma open_console_Ok a b c rest k s : y_open (pr_sys s) (bytes "console") O_RDWR = true -> pr_fds s = a :: b :: c :: rest -> rest !! k = Some None ->
  open_console 4 s = Ok tt (s <| pr_fds := std_fds a b c rest |>).
Proof.
  intros Hy Hfds Hk. destruct s as [sh fds tr n fk sys]. cbn [pr_sys pr_fds] in Hy, Hfds. subst fds.
  assert (exists i, find_idx is_free rest = Some i /\ rest !! i = Some None) as (i & Hi & Hin).
  { destruct (find_idx is_free rest) as [i|] eqn:E.
    - exists i. split; [done|]. apply find_idx_Some in E as ([x|] & Hx & Hf & _); done.
    - by specialize (find_idx_None _ _ E None (list_elem_of_lookup_2 _ _ _ Hk)). }
  assert (forall fuel x y z, open_console (S fuel) (MkProcess sh (Some x :: Some y :: Some z :: rest) tr n fk sys) =
    Ok tt (MkProcess sh (Some x :: Some y :: Some z :: rest) tr n fk sys)) as Hfull.
  { intros fuel x y z. cbn [open_console]. unfold popen, fdalloc, bind. cbn [pr_sys]. rewrite Hy. cbn [pr_fds find_idx is_free]. rewrite Hi. cbn [fmap option_fmap option_map obind].
    destruct (Z.ltb_spec (Z.of_nat (S (S (S i)))) 0); [lia|]. rewrite (proj2 (Z.leb_le 3 (Z.of_nat (S (S (S i)))))) by lia.
    unfold pclose, modify. rewrite Nat2Z.id. unfold set, set_pr_fds. simpl. by rewrite list_insert_insert_eq, list_insert_id. }
  assert (forall fuel fds i, find_idx is_free fds = Some i -> (i < 3)%nat ->
    open_console (S fuel) (MkProcess sh fds tr n fk sys) = open_console fuel (MkProcess sh (<[i := Some console_fd]> fds) tr n fk sys)) as Hstep.
  { intros fuel fds j Hj Hj3. cbn [open_console]. unfold popen, fdalloc. unfold bind at 1. cbn [pr_sys]. rewrite Hy. cbn [pr_fds]. rewrite Hj. cbn [obind].
    destruct (Z.ltb_spec (Z.of_nat j) 0); [lia|]. by destruct (Z.leb_spec 3 (Z.of_nat j)); [lia|]. }
  destruct a as [a|], b as [b|], c as [c|];
    repeat (rewrite Hfull || (rewrite (Hstep _ _ 0%nat) by (done || lia)) || (rewrite (Hstep _ _ 1%nat) by (done || lia)) ||
      (rewrite (Hstep _ _ 2%nat) by (done || lia)); cbn [insert list_insert]); reflexivity.
Qed.

(** C4: the shell, from its start to the end of its input, when every [fork]
    succeeds: it makes descriptors 0, 1 and 2 open, and for each line of the
    input, however the input is split among the reads, it prompts and changes
    directory itself for [cd], forks a child that does the line's script when
    the line is a command, a child that says what is wrong with the line and
    exits when it is not, and waits for it.  A line has at most 98 bytes and
    its newline, none of them NUL or a carriage return. *)
Theorem shell_session fuel size ls s a b c rest st : Forall input_line ls -> pr_fds s = a :: b :: c :: rest ->
  (exists i j, i <> j /\ rest !! i = Some None /\ rest !! j = Some None) -> y_open (pr_sys s) (bytes "console") O_RDWR = true ->
  pr_forks s = [] -> reads 0 st (sh_u (pr_sh s)) -> sound_stream st -> content st = concat (map text ls) ->
  (length ls < fuel)%nat -> (100 <= size)%nat ->
  exists tr s' k, session (pr_sys s) (std_fds a b c rest) (u_full (sh_u (pr_sh s)) 2) (pr_pipes s) ls tr /\ sh_main fuel size s = Susp UExit s' k /\ pr_trace s' = pr_trace s ++ tr.
Proof.
  intros Hls Hfds (i & j & Hij & Hi & Hj) Hy Hf Hr Hst Hc Hfuel Hsize. unfold sh_main.
  rewrite (bind_Ok _ _ _ _ _ (open_console_Ok a b c rest i s Hy Hfds Hi)). set (s1 := s <| pr_fds := _ |>).
  assert (fds_ok (std_fds a b c rest)) as Hok.
  { split; [|by exists (S (S (S i))), (S (S (S j))); split_and!; [congruence|..]].
    intros k Hk. destruct k as [|[|[|k]]]; [by eexists..|lia]. }
  destruct (sh_loop_session (pr_sys s) (std_fds a b c rest) (u_full (sh_u (pr_sh s)) 2) Hok size Hsize ls fuel s1 Hls) as (tr & s' & k & H); [|done|by exists tr, s', k].
  split; [done..|]. by exists st.
Qed.

Definition demo_sys : system := MkSystem (fun _ _ => true) (fun _ => true) (fun _ => true).
Definition demo_user (st : stream) : ustate := MkUser [Some st] (fun _ => None) (fun _ => false) [].

Lemma runcmd_runs_witness :
  let t := bytes "a|b" in
  let s := MkProcess (MkShell (demo_user []) [97; 0; 98; 0] 3 [exec_node [(0, 1)]; exec_node [(2, 3)]; NPipe 0 1]%nat)
    (Some console_fd :: Some console_fd :: Some console_fd :: replicate 2 None) [] 0 [] demo_sys in
  let c := Pipe (Exec [(0, 1)%nat]) (Exec [(2, 3)%nat]) in
  exists s' k, runcmd 2 2 s = Susp UExit s' k /\ pr_trace s' = [] ++ (script (pr_sys s) t (pr_pipes s) (pr_fds s) c).1 /\
    Forall (fun x => same_from2 (pr_fds s) x.2) (launched (script (pr_sys s) t (pr_pipes s) (pr_fds s) c).1).
Proof.
  intros t s c. apply (runcmd_runs t c [Word 0 1; Sym 124; Word 2 3] 2 2 s); [| | |done|simpl; lia].
  - apply gline_back, gback_pipe, (gpipe_pipe _ _ [Word 0 1] [Word 2 3]); [|apply gpipe_exec];
      apply (gexec_simple _ []); (repeat constructor) || (unfold MAXARGS; simpl; lia).
  - exists 0%nat, 1%nat. split_and!; [done|..]; eexists _, _; (split; [reflexivity|]); (split; [reflexivity|]); intros [|i] w Hw; by inversion Hw.
  - split; [intros [|[|[|i]]] Hi; [by eexists..|lia]|]. by exists 3%nat, 4%nat.
Defined.

Lemma shell_session_witness :
  let s := MkProcess (MkShell (demo_user [Some (bytes "cd x" ++ [10; 97]); Some (bytes "|b" ++ [10; 40; 10])]) [] 0 []) (replicate 6 None) [] 0 [] demo_sys in
  exists tr s' k, session demo_sys (std_fds None None None (replicate 3 None)) false 0 [bytes "cd x"; bytes "a|b"; bytes "("] tr /\
    sh_main 4 100 s = Susp UExit s' k /\ pr_trace s' = [] ++ tr.
Proof.
  intros s. apply (shell_session 4 100 [bytes "cd x"; bytes "a|b"; bytes "("] s None None None (replicate 3 None) [Some (bytes "cd x" ++ [10; 97]); Some (bytes "|b" ++ [10; 40; 10])]).
  - repeat constructor; done || (simpl; lia).
  - done.
  - by exists 0%nat, 1%nat.
  - done.
  - done.
  - by split.
  - repeat constructor; eauto.
  - done.
  - simpl. lia.
  - done.
Defined.
