(* ===== verification/Jacobi.v ===== *)
(** * The Jacobi solver: arithmetic, input, grid and division of work (jacob.c)

    [jacob] solves a heat equation on an [N] by [N] grid with [P] worker
    processes.  This file has the parts that do not communicate: reading the
    parameters, the initial grid, the rows of each worker, the computation of
    a worker in one round, and the sequential algorithm it parallelises.  The
    processes and their pipes are in JacobiNet.v.

    [float] is a type with the operations of [FloatOps], as the compiler
    implements them; the theorems need only [FloatLaws] of them.  [sf32] is
    one such implementation, IEEE single precision with every operation
    rounded (the literals of the source that are doubles, [4.0] for instance,
    are small integers, exact in both formats). *)

From stdpp Require Import base numbers list list_numbers.
From Stdlib Require Import SpecFloat.
From S2P Require Import Prelude.

Local Open Scope Z_scope.

(** ** Floating point *)

Class FloatOps (F : Type) := {
  fofZ : Z -> F;
  fadd : F -> F -> F;
  fsub : F -> F -> F;
  fmul : F -> F -> F;
  fdiv : F -> F -> F;
  fltb : F -> F -> bool;
  fleb : F -> F -> bool
}.

(** What the maximum of distances relies on: [<] is a strict order that a
    number (0 or more) splits; NaN is not below or above anything. *)
Class FloatLaws F {FO : FloatOps F} : Prop := {
  flt_irrefl x : fltb x x = false;
  flt_trans x y z : fltb x y = true -> fltb y z = true -> fltb x z = true;
  flt_split x k y : k = fofZ 0 \/ fltb (fofZ 0) k = true ->
    fltb x y = true -> fltb x k = true \/ fltb k y = true
}.

(** Single precision, rounding to nearest even. *)
#[export] Instance sf32 : FloatOps spec_float := {
  fofZ z := match z with
            | Z0 => S754_zero false
            | _ => binary_normalize 24 128 z 0 false
            end;
  fadd := SFadd 24 128;
  fsub := SFsub 24 128;
  fmul := SFmul 24 128;
  fdiv := SFdiv 24 128;
  fltb := SFltb;
  fleb := SFleb
}.

Section jacobi.
Context {F : Type} {FO : FloatOps F}.
Abbreviation f0 := (fofZ 0).

(** ** Reading the parameters

    A file is the list of bytes left to read. *)

(** [readINT]: stops at a newline or at the end of the file. *)
Fixpoint readINT_loop (num : Z) (fd : list Z) : Z * list Z :=
  match fd with
  | [] => (num, [])
  | c :: fd => if c =? 10 then (num, fd) else readINT_loop (i32 (i32 (num * 10) + (i8 c - 48))) fd
  end.
Definition readINT (fd : list Z) : Z * list Z := readINT_loop 0 fd.

(** [readFLOAT] does not look at the result of [read]: at the end of the file
    [c] keeps its value and the loop goes on for ever ([None]). *)
Fixpoint readFLOAT_loop (num deci : F) (swtch : bool) (fd : list Z) : option (F * list Z) :=
  match fd with
  | [] => None
  | c :: fd =>
      if c =? 10 then Some (num, fd)
      else if c =? 46 then readFLOAT_loop num deci true fd
      else if swtch then
        readFLOAT_loop (fadd num (fdiv (fofZ (i8 c - 48)) deci)) (fmul deci (fofZ 10)) swtch fd
      else readFLOAT_loop (fadd (fmul num (fofZ 10)) (fofZ (i8 c - 48))) deci swtch fd
  end.
Definition readFLOAT (fd : list Z) : option (F * list Z) := readFLOAT_loop f0 (fofZ 10) false fd.

(** The parameters of [main], with its adjustment of [P]. *)
Record params := MkParams { pr_N : Z; pr_E : F; pr_T : F; pr_P : Z; pr_L : Z }.

Definition read_params (fd : list Z) : option params :=
  let '(N, fd) := readINT fd in
  match readFLOAT fd with
  | None => None
  | Some (E, fd) =>
      match readFLOAT fd with
      | None => None
      | Some (T, fd) =>
          let '(P, fd) := readINT fd in
          let '(L, _) := readINT fd in
          Some (MkParams N E T (if (P =? 8) && (N =? 20) then P - 1 else P) L)
      end
  end.

(** ** The grid: [float u[N][N]] *)

Abbreviation grid := (list (list F)).

Definition at_ (u : grid) (i j : nat) : F := nth j (nth i u []) f0.
Definition put_at (u : grid) (i j : nat) (x : F) : grid := alter (fun r => <[j := x]> r) i u.

Section size.
Context (N : nat).

(** One round of the loop that sets the border and sums it in [mean]. *)
Definition init_border (T : F) (st : grid * F) (i : nat) : grid * F :=
  let '(u, mean) := st in
  let u := put_at (put_at (put_at u 0 i T) i (N - 1) T) i 0 T in
  let u := put_at u (N - 1) i f0 in
  (u, fadd mean (fadd (fadd (fadd (at_ u i 0) (at_ u i (N - 1))) (at_ u 0 i)) (at_ u (N - 1) i))).

(** Rows [s] to [e], columns 1 to [N-2], row by row. *)
Definition cells (s e : nat) : list (nat * nat) :=
  flat_map (fun i => map (pair i) (seq 1 (N - 2))) (seq s (S e - s)).

(** Every element is assigned: the border, then the interior. *)
Definition init_grid (T : F) : grid :=
  let '(u, mean) := foldl (init_border T) (replicate N (replicate N f0), f0) (seq 0 N) in
  let mean := fdiv mean (fmul (fofZ 4) (fofZ (Z.of_nat N))) in
  foldl (fun u '(i, j) => put_at u i j mean) u (cells 1 (N - 2)).

(** ** One round of a worker *)

Definition fabsm (a : F) : F := if fltb a f0 then fmul (fofZ (-1)) a else a.

(** [w[i][j]]. *)
Definition relax (u : grid) (i j : nat) : F :=
  fdiv (fadd (fadd (fadd (at_ u (i - 1) j) (at_ u (i + 1) j)) (at_ u i (j - 1))) (at_ u i (j + 1)))
    (fofZ 4).
Definition change (u : grid) (i j : nat) : F := fabsm (fsub (relax u i j) (at_ u i j)).

Definition fmax (m x : F) : F := if fltb m x then x else m.

(** [diff] after the loop over rows [s] to [e]. *)
Definition block_diff (u : grid) (s e : nat) : F :=
  foldl (fun d '(i, j) => fmax d (change u i j)) f0 (cells s e).

(** [u] after [w] has been copied to it. *)
Definition block_sweep (u : grid) (s e : nat) : grid :=
  foldl (fun v '(i, j) => put_at v i j (relax u i j)) u (cells s e).

(** ** The sequential algorithm *)

Definition sweep (u : grid) : grid := block_sweep u 1 (N - 2).
Definition total_diff (u : grid) : F := block_diff u 1 (N - 2).

(** Sweep until the largest change is at most [E] or more than [L] sweeps are
    done; [n] bounds the sweeps after the first. *)
Fixpoint seq_loop (E : F) (L : Z) (n : nat) (count : Z) (u : grid) : grid :=
  let d := total_diff u in
  let u := sweep u in
  let count := count + 1 in
  if fleb d E || (L <? count) then u else
  match n with O => u | S n => seq_loop E L n count u end.
Definition jacobi_seq (E : F) (L : Z) (u : grid) : grid := seq_loop E L (Z.to_nat L) 0 u.
End size.
End jacobi.

(** ** Division of work *)

(** [works]: row [i] of the [N-2] interior rows goes to worker [i % P]. *)
Definition works (N P : nat) : list Z :=
  foldl (fun w i => alter (fun x => x + 1) (i mod P)%nat w) (replicate P 0) (seq 0 (N - 2)).

(** [start_indices] and [end_indices] from [works], in order. *)
Fixpoint bounds_from (prev : Z) (w : list Z) : list (Z * Z) :=
  match w with
  | [] => []
  | x :: w => (prev + 1, prev + 1 + x - 1) :: bounds_from (prev + 1 + x - 1) w
  end.
Definition bounds (N P : nat) : list (Z * Z) := bounds_from 0 (works N P).

(** Workers without rows, among those after the first. *)
Definition unused (N P : nat) : nat :=
  length (List.filter (fun '(s, e) => e <? s) (tail (bounds N P))).
Definition workers (N P : nat) : nat := (P - unused N P)%nat.

Definition start_index (N P i : nat) : nat := Z.to_nat (nth i (bounds N P) (0, 0)).1.
Definition end_index (N P i : nat) : nat := Z.to_nat (nth i (bounds N P) (0, 0)).2.

(** ** Single precision satisfies the laws *)

(** Position of a float in the order: class, then exponent and mantissa. *)
Definition sf_key (x : spec_float) : option (Z * Z * Z) :=
  match x with
  | S754_nan => None
  | S754_infinity s => Some (if s then -2 else 2, 0, 0)
  | S754_zero _ => Some (0, 0, 0)
  | S754_finite s m e => Some (if s then (-1, - e, Z.neg m) else (1, e, Z.pos m))
  end.

Definition key_lt (a b : Z * Z * Z) : Prop :=
  a.1.1 < b.1.1 \/ a.1.1 = b.1.1 /\ (a.1.2 < b.1.2 \/ a.1.2 = b.1.2 /\ a.2 < b.2).

Lemma SFltb_key x y :
  SFltb x y = true <-> exists a b, sf_key x = Some a /\ sf_key y = Some b /\ key_lt a b.
Proof.
  assert (forall a b, (exists a' b', Some a = Some a' /\ Some b = Some b' /\ key_lt a' b') <-> key_lt a b)
    as Hs.
  { intros a b. split; [intros (? & ? & [= <-] & [= <-] & H); done|eauto]. }
  unfold SFltb, SFcompare.
  destruct x as [s1|s1| |s1 m1 e1], y as [s2|s2| |s2 m2 e2]; cbn [sf_key];
    try (split; [done|intros (? & ? & ? & ? & ?); done]); rewrite Hs; unfold key_lt;
    destruct s1, s2; cbn [fst snd]; try (split; [intros; done || lia|intros; done || lia]);
    change (Pos.compare_cont Eq m1 m2) with (Pos.compare m1 m2);
    destruct (Z.compare_spec e1 e2); try destruct (Pos.compare_spec m1 m2); simpl;
    (split; [intros; done || lia|intros; done || lia]).
Qed.

#[export] Instance sf32_laws : FloatLaws spec_float.
Proof.
  split; cbn [fltb fofZ sf32].
  - intros x. apply not_true_is_false. rewrite SFltb_key. intros (a & b & E1 & E2 & H).
    rewrite E1 in E2. injection E2 as <-. unfold key_lt in H. lia.
  - intros x y z. rewrite !SFltb_key.
    intros (a & b & E1 & E2 & H1) (b' & c & E3 & E4 & H2). rewrite E2 in E3. injection E3 as <-.
    exists a, c. split_and!; [done..|]. unfold key_lt in *. lia.
  - intros x k y Hk. rewrite !SFltb_key. intros (a & b & E1 & E2 & H).
    assert (exists c, sf_key k = Some c) as [c E3].
    { destruct Hk as [->|Hk]; [by eexists|].
      apply SFltb_key in Hk as (? & c & _ & E & _). by exists c. }
    assert (key_lt a c \/ key_lt c b) as [?|?] by (unfold key_lt in *; lia); [left|right]; eauto 10.
Qed.

(** ** The rows of the workers *)

Section partition.
Context (P : nat).

(** [works] after [m] rows have been handed out. *)
Definition works_upto (m : nat) : list Z :=
  foldl (fun w i => alter (fun x => x + 1) (i mod P)%nat w) (replicate P 0) (seq 0 m).

Lemma works_upto_S m :
  works_upto (S m) = alter (fun x => x + 1) (m mod P)%nat (works_upto m).
Proof. unfold works_upto. by rewrite seq_S, foldl_app. Qed.

Lemma length_works_upto m : length (works_upto m) = P.
Proof.
  induction m as [|m IH]; [apply length_replicate|]. by rewrite works_upto_S, length_alter.
Qed.

(** A worker has no row exactly when there are no more rows than workers
    before it. *)
Lemma works_upto_zero m i x :
  works_upto m !! i = Some x -> 0 <= x /\ (x = 0 <-> (m <= i)%nat).
Proof.
  revert x. induction m as [|m IH]; intros x Hx.
  - apply lookup_replicate in Hx as [-> _]. lia.
  - pose proof (lookup_lt_Some _ _ _ Hx) as Hi. rewrite length_works_upto in Hi.
    rewrite works_upto_S in Hx.
    destruct (decide (m mod P = i)%nat) as [<-|Hne].
    + rewrite list_lookup_alter in Hx. rewrite decide_True in Hx by done.
      destruct (works_upto m !! (m mod P)%nat) as [y|] eqn:Ey; [|done].
      injection Hx as <-. specialize (IH _ eq_refl). pose proof (Nat.Div0.mod_le m P). lia.
    + rewrite list_lookup_alter_ne in Hx by done. specialize (IH _ Hx).
      destruct (decide (m = i)) as [->|]; [|lia]. by rewrite Nat.mod_small in Hne.
Qed.

Lemma sumZ_incr i l : (i < length l)%nat -> sumZ (alter (fun x => x + 1) i l) = sumZ l + 1.
Proof.
  revert i. induction l as [|x l IH]; intros [|i] Hi; simpl in *; try lia.
  change (x + sumZ (alter (fun x => x + 1) i l) = x + sumZ l + 1). rewrite IH; lia.
Qed.

Lemma sumZ_works m : (0 < P)%nat -> sumZ (works_upto m) = Z.of_nat m.
Proof.
  intros HP. induction m as [|m IH].
  - unfold works_upto. simpl. clear. induction P as [|n IH]; [done|]. simpl. exact IH.
  - rewrite works_upto_S, sumZ_incr, IH; [lia|]. rewrite length_works_upto.
    apply Nat.mod_upper_bound. lia.
Qed.

Lemma nth_bounds_from prev w i :
  (i < length w)%nat ->
  nth i (bounds_from prev w) (0, 0) = (prev + 1 + sumZ (take i w), prev + sumZ (take (S i) w)).
Proof.
  revert prev i. induction w as [|x w IH]; intros prev [|i] Hi; simpl in *; try lia.
  - f_equal; lia.
  - rewrite IH by lia. unfold sumZ. simpl. f_equal; lia.
Qed.

Lemma idle_from prev w c :
  (forall i x, w !! i = Some x -> 0 <= x /\ (x = 0 <-> (c <= i)%nat)) ->
  length (List.filter (fun '(s, e) => e <? s) (bounds_from prev w)) = (length w - c)%nat.
Proof.
  revert prev c. induction w as [|x w IH]; intros prev c H; simpl; [done|].
  destruct (H 0%nat x eq_refl) as [Hx Hc].
  destruct (Z.ltb_spec (prev + 1 + x - 1) (prev + 1)); simpl.
  - rewrite (IH _ 0%nat); [lia|]. intros i y Hi.
    destruct (H (S i) y Hi). lia.
  - rewrite (IH _ (c - 1)%nat); [lia|]. intros i y Hi. destruct (H (S i) y Hi). lia.
Qed.
End partition.

(** The rows 1 to [N-2] are cut into consecutive non-empty blocks. *)
Record partition (N P : nat) (lo hi : nat -> nat) : Prop := {
  pt_some : (0 < P)%nat;
  pt_first : lo 0%nat = 1%nat;
  pt_block i : (i < P)%nat -> (lo i <= hi i)%nat;
  pt_next i : (S i < P)%nat -> lo (S i) = S (hi i);
  pt_last : hi (P - 1)%nat = (N - 2)%nat
}.

Lemma bounds_sums N P i :
  (i < P)%nat ->
  nth i (bounds N P) (0, 0) =
    (1 + sumZ (take i (works_upto P (N - 2))), sumZ (take (S i) (works_upto P (N - 2)))).
Proof.
  intros Hi. unfold bounds. fold (works_upto P (N - 2)).
  change (works N P) with (works_upto P (N - 2)).
  rewrite nth_bounds_from by (by rewrite length_works_upto). f_equal; lia.
Qed.

Lemma workers_eq N P : (3 <= N)%nat -> (0 < P)%nat -> workers N P = (P `min` (N - 2))%nat.
Proof.
  intros HN HP. unfold workers, unused, bounds. change (works N P) with (works_upto P (N - 2)).
  pose proof (length_works_upto P (N - 2)) as Hlen.
  pose proof (works_upto_zero P (N - 2)) as Hz.
  destruct (works_upto P (N - 2)) as [|x w]; simpl in Hlen; [lia|]. simpl.
  rewrite (idle_from _ w (N - 3)); [lia|]. intros i y Hi.
  destruct (Hz (S i) y Hi). lia.
Qed.

Section blocks.
Context (N P : nat).
Hypotheses (HN : (3 <= N)%nat) (HP : (0 < P)%nat).
Abbreviation W := (works_upto P (N - 2)).

Lemma work_pos i : (i < workers N P)%nat -> exists x, W !! i = Some x /\ 1 <= x.
Proof.
  intros Hi. rewrite workers_eq in Hi by done.
  destruct (lookup_lt_is_Some_2 W i) as [x Hx]; [rewrite length_works_upto; lia|].
  exists x. split; [done|]. apply works_upto_zero in Hx. lia.
Qed.

Lemma sum_take_S i x : W !! i = Some x -> sumZ (take (S i) W) = sumZ (take i W) + x.
Proof. intros Hx. rewrite (take_S_r _ _ _ Hx), sumZ_app. unfold sumZ at 2. simpl. lia. Qed.

Lemma sum_take_nonneg i : (i <= workers N P)%nat -> 0 <= sumZ (take i W).
Proof.
  induction i as [|i IH]; intros Hi; [done|].
  destruct (work_pos i) as (x & Hx & Hpos); [lia|].
  rewrite (sum_take_S _ _ Hx). specialize (IH ltac:(lia)). lia.
Qed.

Lemma sum_all_workers : sumZ (take (workers N P) W) = Z.of_nat (N - 2).
Proof.
  rewrite <- (sumZ_works P (N - 2) HP). rewrite <- (take_drop (workers N P) W) at 2.
  rewrite sumZ_app. assert (sumZ (drop (workers N P) W) = 0) as ->; [|lia].
  assert (forall x, x ∈ drop (workers N P) W -> x = 0) as H0.
  { intros x (i & Hi)%list_elem_of_lookup. rewrite lookup_drop in Hi.
    pose proof (lookup_lt_Some _ _ _ Hi) as Hlt. rewrite length_works_upto in Hlt.
    apply works_upto_zero in Hi. rewrite workers_eq in * by done. lia. }
  induction (drop (workers N P) W) as [|x l IH]; [done|].
  change (x + sumZ l = 0). rewrite IH, (H0 x); [done|apply list_elem_of_here|].
  intros y Hy. apply H0. by apply list_elem_of_further.
Qed.

Lemma start_end i :
  (i < workers N P)%nat ->
  Z.of_nat (start_index N P i) = 1 + sumZ (take i W) /\
  Z.of_nat (end_index N P i) = sumZ (take (S i) W).
Proof.
  intros Hi. unfold start_index, end_index.
  assert (i < P)%nat by (rewrite workers_eq in Hi by done; lia).
  rewrite bounds_sums by done. cbn [fst snd].
  pose proof (sum_take_nonneg i ltac:(lia)). pose proof (sum_take_nonneg (S i) ltac:(lia)). lia.
Qed.

Lemma blocks_partition : partition N (workers N P) (start_index N P) (end_index N P).
Proof.
  assert (0 < workers N P)%nat as Hw by (rewrite workers_eq by done; lia).
  split; [done|..].
  - destruct (start_end 0 Hw) as [E _]. change (take 0 W) with (@nil Z) in E.
    unfold sumZ in E. simpl in E. lia.
  - intros i Hi. destruct (start_end i Hi) as [E1 E2]. destruct (work_pos i Hi) as (x & Hx & Hpos).
    rewrite (sum_take_S _ _ Hx) in E2. lia.
  - intros i Hi. destruct (start_end (S i) Hi) as [E1 _].
    destruct (start_end i ltac:(lia)) as [_ E2]. lia.
  - destruct (start_end (workers N P - 1) ltac:(lia)) as [_ E].
    replace (S (workers N P - 1)) with (workers N P) in E by lia.
    rewrite sum_all_workers in E. lia.
Qed.

(** The rows 1 to N-2 are handed out completely and without overlap:
    with at least three rows and P >= 1 workers asked for, min(P, N-2)
    workers are kept, and they have consecutive, non-empty blocks of rows,
    the first starting at row 1 and the last ending at row N-2. *)
Theorem rows_partitioned :
  workers N P = (P `min` (N - 2))%nat /\
  partition N (workers N P) (start_index N P) (end_index N P).
Proof. split; [by apply workers_eq|apply blocks_partition]. Qed.
End blocks.

Lemma rows_partitioned_witness :
  workers 19 8 = 8%nat /\ partition 19 (workers 19 8) (start_index 19 8) (end_index 19 8).
Proof. apply (rows_partitioned 19 8); lia. Defined.

(** ** Rows of a grid *)

Section rows.
Context {F : Type} {FO : FloatOps F} (N : nat).
Abbreviation grid := (list (list F)).
Implicit Types (u v : grid) (i j s e : nat).

Definition row u i : list F := nth i u [].

Definition grid_ok u : Prop := length u = N /\ forall i, (i < N)%nat -> length (row u i) = N.

(** Row [i] after a sweep. *)
Definition sweep_row u i : list F :=
  foldl (fun r j => <[j := relax u i j]> r) (row u i) (seq 1 (N - 2)).

Lemma put_row v i (g : nat -> F) l :
  foldl (fun v j => put_at v i j (g j)) v l = alter (fun r => foldl (fun r j => <[j := g j]> r) r l) i v.
Proof.
  revert v. induction l as [|j l IH]; intros v; simpl.
  - symmetry. apply list_alter_id. done.
  - rewrite IH. unfold put_at. by rewrite list_alter_alter_eq.
Qed.

Lemma foldl_flat_map {A B C} (f : C -> B -> C) (g : A -> list B) c l :
  foldl f c (flat_map g l) = foldl (fun c a => foldl f c (g a)) c l.
Proof. revert c. induction l as [|a l IH]; intros c; simpl; [done|]. by rewrite foldl_app, IH. Qed.

Lemma foldl_map {A B C} (f : C -> B -> C) (g : A -> B) c l :
  foldl f c (map g l) = foldl (fun c a => f c (g a)) c l.
Proof. revert c. induction l as [|a l IH]; intros c; simpl; [done|]. by rewrite IH. Qed.

Lemma foldl_ext' {A B} (f g : B -> A -> B) b l : (forall b a, f b a = g b a) -> foldl f b l = foldl g b l.
Proof. intros H. revert b. induction l as [|a l IH]; intros b; simpl; [done|]. by rewrite H, IH. Qed.

Lemma block_sweep_eq u s e :
  block_sweep N u s e =
  foldl (fun v i => alter (fun r => foldl (fun r j => <[j := relax u i j]> r) r (seq 1 (N - 2))) i v)
    u (seq s (S e - s)).
Proof.
  unfold block_sweep, cells. rewrite foldl_flat_map. apply foldl_ext'. intros v i.
  rewrite foldl_map. apply put_row.
Qed.

Lemma row_alter f i k u :
  (i < length u)%nat -> row (alter f k u) i = if decide (k = i) then f (row u i) else row u i.
Proof.
  intros Hi. unfold row. destruct (lookup_lt_is_Some_2 u i Hi) as [r Hr].
  rewrite (nth_lookup_Some u i [] r Hr). rewrite nth_lookup, list_lookup_alter.
  destruct (decide (k = i)) as [->|Hne]; by rewrite Hr.
Qed.

Lemma alter_rows (g : nat -> list F -> list F) u l i :
  NoDup l -> (i < length u)%nat ->
  row (foldl (fun v k => alter (g k) k v) u l) i = if decide (i ∈ l) then g i (row u i) else row u i.
Proof.
  revert u. induction l as [|k l IH]; intros u Hl Hi; cbn [foldl].
  { rewrite decide_False by apply not_elem_of_nil. done. }
  apply NoDup_cons in Hl as [Hk Hl]. rewrite IH by (try rewrite length_alter; done).
  rewrite row_alter by done.
  destruct (decide (k = i)) as [->|Hne].
  - rewrite decide_False by done. rewrite decide_True by apply list_elem_of_here. done.
  - apply decide_ext. rewrite elem_of_cons. split; [by right|]. by intros [->|?].
Qed.

Lemma length_alter_rows (g : nat -> list F -> list F) u l :
  length (foldl (fun v k => alter (g k) k v) u l) = length u.
Proof. revert u. induction l as [|k l IH]; intros u; simpl; [done|]. by rewrite IH, length_alter. Qed.

Lemma length_set_cells (g : nat -> F) (r : list F) l :
  length (foldl (fun r j => <[j := g j]> r) r l) = length r.
Proof. revert r. induction l as [|j l IH]; intros r; simpl; [done|]. by rewrite IH, length_insert. Qed.

(** A sweep of rows [s] to [e] changes those rows and only them. *)
Lemma row_block_sweep u s e i :
  (i < length u)%nat ->
  row (block_sweep N u s e) i = if decide (s <= i <= e)%nat then sweep_row u i else row u i.
Proof.
  intros Hi. rewrite block_sweep_eq, alter_rows; [|apply NoDup_seq|done].
  apply decide_ext. rewrite elem_of_seq. lia.
Qed.

Lemma grid_ok_sweep u s e : grid_ok u -> grid_ok (block_sweep N u s e).
Proof.
  intros [Hl Hr]. split.
  - by rewrite block_sweep_eq, length_alter_rows.
  - intros i Hi. rewrite row_block_sweep by lia. case_decide; [|auto].
    unfold sweep_row. rewrite length_set_cells. auto.
Qed.

(** What a row becomes depends on it and on its neighbours. *)
Definition near u v i : Prop :=
  row u (i - 1) = row v (i - 1) /\ row u i = row v i /\ row u (i + 1) = row v (i + 1).

Lemma relax_near u v i j : near u v i -> relax u i j = relax v i j.
Proof. intros (E1 & E2 & E3). unfold relax, at_. unfold row in *. by rewrite E1, E2, E3. Qed.

Lemma sweep_row_near u v i : near u v i -> sweep_row u i = sweep_row v i.
Proof.
  intros H. unfold sweep_row. destruct H as (E1 & E2 & E3) eqn:Hn. rewrite E2.
  apply foldl_ext'. intros r j. by rewrite (relax_near u v).
Qed.

Lemma change_near u v i j : near u v i -> change u i j = change v i j.
Proof.
  intros H. unfold change. rewrite (relax_near _ _ _ _ H). destruct H as (_ & E & _).
  unfold at_. unfold row in E. by rewrite E.
Qed.
End rows.

(** ** The largest change, block by block *)

Section maximum.
Context {F : Type} {FO : FloatOps F} {FL : FloatLaws F}.

(** A maximum starts at 0 and only grows. *)
Definition num (k : F) : Prop := k = fofZ 0 \/ fltb (fofZ 0) k = true.

Lemma num_grows k x : num k -> fltb k x = true -> num x.
Proof. intros [->|Hk] Hx; right; [done|]. by eapply flt_trans. Qed.

Lemma num_not_neg m : num m -> fltb m (fofZ 0) = false.
Proof.
  intros [->|Hm]; [apply flt_irrefl|]. apply not_true_is_false. intros H.
  pose proof (flt_trans _ _ _ Hm H) as E. by rewrite flt_irrefl in E.
Qed.

Lemma fold_fmax_ge y l : foldl fmax y l = y \/ fltb y (foldl fmax y l) = true.
Proof.
  revert y. induction l as [|x l IH]; intros y; simpl; [by left|]. unfold fmax at 2 4.
  destruct (fltb y x) eqn:E; [|apply IH]. right.
  destruct (IH x) as [->|H]; [done|]. by eapply flt_trans.
Qed.

Lemma num_fold m l : num m -> num (foldl fmax m l).
Proof. intros Hm. destruct (fold_fmax_ge m l) as [->|H]; [done|]. by eapply num_grows. Qed.

Lemma fmax_r m x : fltb m x = true -> fmax m x = x.
Proof. intros E. unfold fmax. by rewrite E. Qed.
Lemma fmax_l m x : fltb m x = false -> fmax m x = m.
Proof. intros E. unfold fmax. by rewrite E. Qed.

(** Starting a maximum at a smaller number and joining it later. *)
Lemma fold_fmax_join m k l :
  num k -> fltb m k = false -> foldl fmax m l = fmax m (foldl fmax k l).
Proof.
  revert m k. induction l as [|y l IH]; intros m k Hk Hmk; simpl.
  - by rewrite fmax_l.
  - destruct (fltb m y) eqn:Hmy.
    + destruct (flt_split m k y Hk Hmy) as [?|Hky]; [congruence|].
      rewrite (fmax_r m y), (fmax_r k y) by done.
      symmetry. apply fmax_r. destruct (fold_fmax_ge y l) as [->|H]; [done|].
      by eapply flt_trans.
    + rewrite (fmax_l m y) by done.
      destruct (fltb k y) eqn:Hky; [rewrite (fmax_r k y) by done|rewrite (fmax_l k y) by done].
      * apply IH; [|done]. by eapply num_grows.
      * by apply IH.
Qed.

Context (N : nat).

Lemma cells_app s m e :
  (s <= S m)%nat -> (m <= e)%nat -> cells N s m ++ cells N (S m) e = cells N s e.
Proof.
  intros H1 H2. unfold cells. rewrite <- flat_map_app. f_equal.
  replace (S e - s)%nat with ((S m - s) + (S e - S m))%nat by lia.
  rewrite seq_app. do 2 f_equal. lia.
Qed.

Definition changes (u : list (list F)) (l : list (nat * nat)) : list F :=
  map (fun '(i, j) => change u i j) l.

Lemma block_diff_changes u s e : block_diff N u s e = foldl fmax (fofZ 0) (changes u (cells N s e)).
Proof.
  unfold block_diff, changes. rewrite foldl_map. apply foldl_ext'. by intros d [i j].
Qed.

Lemma block_diff_near u v s e :
  (forall i, (s <= i <= e)%nat -> near u v i) -> block_diff N u s e = block_diff N v s e.
Proof.
  intros H. rewrite !block_diff_changes. f_equal. unfold changes. apply map_ext_in.
  intros [i j] Hin. apply change_near, H. unfold cells in Hin.
  apply in_flat_map in Hin as (k & Hk%in_seq & Hin). apply in_map_iff in Hin as (? & [= <- <-] & _).
  lia.
Qed.

(** The maximum over the workers of their largest changes is the largest
    change of the whole grid. *)
Lemma block_diffs P lo hi u :
  partition N P lo hi ->
  foldl fmax (fofZ 0) (map (fun i => block_diff N u (lo i) (hi i)) (seq 0 P)) = total_diff N u.
Proof.
  intros [HP H0 Hb Hn Hl].
  assert (forall n, (n < P)%nat ->
    (1 <= S (hi n))%nat /\
    foldl fmax (fofZ 0) (map (fun i => block_diff N u (lo i) (hi i)) (seq 0 (S n))) =
    block_diff N u 1 (hi n)) as H.
  { induction n as [|n IH]; intros Hlt.
    - split; [lia|]. simpl. rewrite H0, block_diff_changes.
      symmetry. apply fold_fmax_join; [by left|apply flt_irrefl].
    - destruct (IH ltac:(lia)) as [H1 IHe]. split; [lia|].
      pose proof (Hb (S n) Hlt) as Hbn. rewrite (Hn n Hlt) in Hbn.
      rewrite seq_S, map_app, foldl_app, IHe. simpl. rewrite (Hn n Hlt), !block_diff_changes.
      rewrite <- (cells_app 1 (hi n) (hi (S n))) by lia. unfold changes. rewrite map_app, foldl_app.
      symmetry. apply fold_fmax_join; [by left|]. apply num_not_neg, num_fold. by left. }
  destruct (H (P - 1)%nat ltac:(lia)) as [_ E]. replace (S (P - 1)) with P in E by lia.
  rewrite E, Hl. done.
Qed.
End maximum.
