(* ===== verification/JacobiNet.v ===== *)
(** * The Jacobi solver: processes and pipes (jacob.c)

    The parent and the [P] workers run concurrently and talk through pipes.
    A pipe holds words of four bytes, at most [cap] of them (every transfer
    is a multiple of four bytes).  As in pipe.c, a write that fits happens at
    once, one that does not fit fills the pipe and goes on when there is
    room; a read waits for data and takes what is there, up to the amount
    asked for; reading an empty pipe whose writer has exited gives nothing.

    [step] interleaves the processes in any order.  [child_req] and
    [parent_req] give the next action of a process from its program counter
    and variables.

    The pipes and the workers are taken to be there when the run starts: the
    step relation begins after the calls of [pipe] and [fork], which are taken
    to succeed.  In this kernel a process has [NOFILE] = 70 descriptors, three
    of them in use, and the program opens [8 * P - 4], so that the calls of
    [pipe] succeed for [P <= 8] only; its arrays are taken to fit on the stack,
    of which a process has one page, less than the two grids need for
    [N = 23]. *)

From stdpp Require Import base numbers list list_numbers functions relations.
From Stdlib Require Import SpecFloat.
From S2P Require Import Prelude Params Jacobi.

Local Open Scope nat_scope.

(** ** Processes that read and write pipes *)

(** [cc_up[i]], [cc_down[i]] and [cp_pipe[i]] carry floats; [pc_pipe[i]]
    carries orders. *)
Inductive fchan : Set := Up (i : nat) | Down (i : nat) | CP (i : nat).
#[export] Instance fchan_eq_dec : EqDecision fchan.
Proof. solve_decision. Defined.

Section threads.
Context {F X : Type}.

(** The next action of a process in state [X]. *)
Inductive req : Type :=
| Tau (x : X)
| WriteF (c : fchan) (ws : list F) (x : X)
| ReadF (c : fchan) (n : nat) (k : list F -> X)
| WriteO (i : nat) (z : Z) (x : X)
| ReadO (i : nat) (k : list Z -> X)
| Halt.

(** A process, possibly in the middle of a write. *)
Inductive thread : Type :=
| Run (x : X)
| Writing (c : fchan) (ws : list F) (x : X).

Context (cap : nat) (closedF : fchan -> bool) (closedO : nat -> bool) (next : X -> req).

(** One action on the pipes; [None] when the process has to wait. *)
Definition exec_thread (q : fchan -> list F) (o : nat -> list Z) (t : thread)
    : option ((fchan -> list F) * (nat -> list Z) * thread) :=
  match (match t with Run x => next x | Writing c ws x => WriteF c ws x end) with
  | Halt => None
  | Tau x => Some (q, o, Run x)
  | WriteF c ws x =>
      let room := cap - length (q c) in
      if length ws <=? room then Some (<[c := q c ++ ws]> q, o, Run x)
      else if room =? 0 then None
      else Some (<[c := q c ++ take room ws]> q, o, Writing c (drop room ws) x)
  | ReadF c n k =>
      match q c with
      | [] => if closedF c then Some (q, o, Run (k [])) else None
      | l => Some (<[c := drop n l]> q, o, Run (k (take n l)))
      end
  | WriteO i z x =>
      if length (o i) <? cap then Some (q, <[i := o i ++ [z]]> o, Run x) else None
  | ReadO i k =>
      match o i with
      | [] => if closedO i then Some (q, o, Run (k [])) else None
      | l => Some (q, <[i := drop 1 l]> o, Run (k (take 1 l)))
      end
  end.

(** Pipes within their capacity stay so. *)
Lemma exec_thread_cap q o t q' o' t' :
  exec_thread q o t = Some (q', o', t') -> (forall c, length (q c) <= cap) -> forall c, length (q' c) <= cap.
Proof.
  unfold exec_thread. intros H Hq c. pose proof (Hq c).
  destruct (match t with Run x => next x | Writing c ws x => WriteF c ws x end) as [x|d ws x|d n k|i z x|i k|];
    repeat case_match; simplify_eq; try done;
    (destruct (decide (c = d)) as [->|]; [rewrite fn_lookup_insert|by rewrite fn_lookup_insert_ne]).
  - rewrite length_app. match goal with H : (_ <=? _) = true |- _ => apply Nat.leb_le in H end. lia.
  - rewrite length_app, length_take. lia.
  - rewrite length_drop. match goal with H : q d = _ |- _ => rewrite <- H end. lia.
Qed.

(** The cases in which nothing waits. *)
Lemma exec_write q o x c ws x' :
  next x = WriteF c ws x' -> length (q c) + length ws <= cap ->
  exec_thread q o (Run x) = Some (<[c := q c ++ ws]> q, o, Run x').
Proof. intros E H. unfold exec_thread. rewrite E. destruct (Nat.leb_spec (length ws) (cap - length (q c))); [done|lia]. Qed.

Lemma exec_writeO q o x i z x' :
  next x = WriteO i z x' -> length (o i) < cap ->
  exec_thread q o (Run x) = Some (q, <[i := o i ++ [z]]> o, Run x').
Proof. intros E H. unfold exec_thread. rewrite E. by destruct (Nat.ltb_spec (length (o i)) cap); [|lia]. Qed.

Lemma exec_read q o x c n k :
  next x = ReadF c n k -> q c <> [] ->
  exec_thread q o (Run x) = Some (<[c := drop n (q c)]> q, o, Run (k (take n (q c)))).
Proof. intros E H. unfold exec_thread. rewrite E. by destruct (q c). Qed.

Lemma exec_readO q o x i k :
  next x = ReadO i k -> o i <> [] ->
  exec_thread q o (Run x) = Some (q, <[i := drop 1 (o i)]> o, Run (k (take 1 (o i)))).
Proof. intros E H. unfold exec_thread. rewrite E. by destruct (o i). Qed.

(** A read that returned found data, unless the writer has exited. *)
Lemma exec_read_ready q o x c n k r :
  next x = ReadF c n k -> exec_thread q o (Run x) = Some r -> q c <> [] \/ closedF c = true.
Proof. unfold exec_thread. intros ->. destruct (q c); [|by left]. destruct (closedF c); [by right|done]. Qed.

Lemma exec_readO_ready q o x i k r :
  next x = ReadO i k -> exec_thread q o (Run x) = Some r -> o i <> [] \/ closedO i = true.
Proof. unfold exec_thread. intros ->. destruct (o i); [|by left]. destruct (closedO i); [by right|done]. Qed.
End threads.
Arguments req : clear implicits.
Arguments thread : clear implicits.

(** ** The code of the processes *)

(** Where a worker is in its [for(;;)] loop. *)
Inductive cpc : Set :=
| KSendUp       (** write the first row to the worker above *)
| KSendDown     (** write the last row to the worker below *)
| KRecvUp       (** read the row above the first *)
| KRecvDown     (** read the row below the last *)
| KCompute      (** relax the rows, copy them to [u] *)
| KSendDiff     (** write [diff] to the parent *)
| KRecvOrder    (** read [order] *)
| KSendRow (i : nat)   (** [order == 1]: write row [i] to the parent *)
| KExit.

(** Where the parent is. *)
Inductive ppc : Set :=
| PRecv (i : nat)            (** read [recv_diff[i]] *)
| PSend (i : nat) (z : Z)    (** write order [z] to worker [i] *)
| PRows (i j : nat)          (** read row [j] from worker [i] *)
| PDone.

Section net.
Context {F : Type} {FO : FloatOps F}.
Abbreviation grid := (list (list F)).

Record child := MkChild { c_pc : cpc; c_u : grid; c_diff : F; c_order : Z }.
Record parent := MkParent { q_pc : ppc; q_u : grid; q_recv : list F; q_count : Z }.
#[export] Instance eta_child : Eta child := fun x => MkChild (c_pc x) (c_u x) (c_diff x) (c_order x).
#[export] Instance eta_parent : Eta parent := fun x => MkParent (q_pc x) (q_u x) (q_recv x) (q_count x).
#[export] Instance set_c_pc : Setter c_pc := ltac:(derive_setter).
#[export] Instance set_c_u : Setter c_u := ltac:(derive_setter).
#[export] Instance set_c_diff : Setter c_diff := ltac:(derive_setter).
#[export] Instance set_c_order : Setter c_order := ltac:(derive_setter).
#[export] Instance set_q_pc : Setter q_pc := ltac:(derive_setter).
#[export] Instance set_q_u : Setter q_u := ltac:(derive_setter).
#[export] Instance set_q_recv : Setter q_recv := ltac:(derive_setter).
#[export] Instance set_q_count : Setter q_count := ltac:(derive_setter).

(** Grid size, workers, their rows, the parameters and the pipe capacity. *)
Context (N P : nat) (lo hi : nat -> nat) (E : F) (L : Z) (cap : nat).

(** [read(fd, u[i], 4*N)]: the words read go to the start of the row. *)
Definition put_row (u : grid) (i : nat) (ws : list F) : grid := alter (fun r => splice r 0 ws) i u.

Definition child_req (id : nat) (c : child) : req F child :=
  match c_pc c with
  | KSendUp =>
      let c' := c <| c_pc := KSendDown |> in
      if 0 <? id then WriteF (Up (id - 1)) (row (c_u c) (lo id)) c' else Tau c'
  | KSendDown =>
      let c' := c <| c_pc := KRecvUp |> in
      if S id <? P then WriteF (Down id) (row (c_u c) (hi id)) c' else Tau c'
  | KRecvUp =>
      let c' := c <| c_pc := KRecvDown |> in
      if 0 <? id then
        ReadF (Down (id - 1)) N (fun ws => c' <| c_u := put_row (c_u c) (lo id - 1) ws |>)
      else Tau c'
  | KRecvDown =>
      let c' := c <| c_pc := KCompute |> in
      if S id <? P then
        ReadF (Up id) N (fun ws => c' <| c_u := put_row (c_u c) (hi id + 1) ws |>)
      else Tau c'
  | KCompute =>
      Tau (c <| c_pc := KSendDiff |> <| c_u := block_sweep N (c_u c) (lo id) (hi id) |>
             <| c_diff := block_diff N (c_u c) (lo id) (hi id) |>)
  | KSendDiff => WriteF (CP id) [c_diff c] (c <| c_pc := KRecvOrder |>)
  | KRecvOrder =>
      ReadO id (fun zs =>
        let o := default (c_order c) (head zs) in
        c <| c_order := o |> <| c_pc := if Z.eqb o 1 then KSendRow (lo id) else KSendUp |>)
  | KSendRow i =>
      if i <=? hi id then WriteF (CP id) (row (c_u c) i) (c <| c_pc := KSendRow (S i) |>)
      else Tau (c <| c_pc := KExit |>)
  | KExit => Halt
  end.

(** The round is over: count it, and decide from the largest difference. *)
Definition decide_round (p : parent) : parent :=
  let count := (q_count p + 1)%Z in
  let max_dif := foldl fmax (fofZ 0) (q_recv p) in
  p <| q_count := count |>
    <| q_pc := PSend 0 (if fleb max_dif E || Z.ltb L count then 1%Z else 0%Z) |>.

Definition parent_req (p : parent) : req F parent :=
  match q_pc p with
  | PRecv i =>
      if i <? P then
        ReadF (CP i) 1 (fun ws =>
          p <| q_recv := match ws with x :: _ => <[i := x]> (q_recv p) | [] => q_recv p end |>
            <| q_pc := PRecv (S i) |>)
      else Tau (decide_round p)
  | PSend i z =>
      if i <? P then WriteO i z (p <| q_pc := PSend (S i) z |>)
      else Tau (p <| q_pc := if Z.eqb z 1 then PRows 0 (lo 0) else PRecv 0 |>)
  | PRows i j =>
      if i <? P then
        if j <=? hi i then
          ReadF (CP i) N (fun ws => p <| q_u := put_row (q_u p) j ws |> <| q_pc := PRows i (S j) |>)
        else Tau (p <| q_pc := PRows (S i) (lo (S i)) |>)
      else Tau (p <| q_pc := PDone |>)
  | PDone => Halt
  end.

(** ** The network *)

Record net := MkNet {
  n_f : fchan -> list F;
  n_o : nat -> list Z;
  n_child : nat -> thread F child;
  n_parent : thread F parent
}.

Definition exited (t : thread F child) : bool :=
  match t with Run c => match c_pc c with KExit => true | _ => false end | _ => false end.
Definition done (t : thread F parent) : bool :=
  match t with Run p => match q_pc p with PDone => true | _ => false end | _ => false end.

(** Has the writer of a pipe exited? *)
Definition closedF (s : net) (c : fchan) : bool :=
  match c with
  | Up i => exited (n_child s (S i))
  | Down i | CP i => exited (n_child s i)
  end.
Definition closedO (s : net) (i : nat) : bool := done (n_parent s).

(** A step of worker [Some i] or of the parent. *)
Definition exec (s : net) (who : option nat) : option net :=
  match who with
  | Some i =>
      match exec_thread cap (closedF s) (closedO s) (child_req i) (n_f s) (n_o s) (n_child s i) with
      | Some (q, o, t) => Some (MkNet q o (<[i := t]> (n_child s)) (n_parent s))
      | None => None
      end
  | None =>
      match exec_thread cap (closedF s) (closedO s) parent_req (n_f s) (n_o s) (n_parent s) with
      | Some (q, o, t) => Some (MkNet q o (n_child s) t)
      | None => None
      end
  end.

Inductive step (s : net) : net -> Prop :=
| step_child i s' : i < P -> exec s (Some i) = Some s' -> step s s'
| step_parent s' : exec s None = Some s' -> step s s'.

(** After the forks every process has the initial grid. *)
Definition start (u0 : grid) : net :=
  MkNet (fun _ => []) (fun _ => [])
    (fun _ => Run (MkChild KSendUp u0 (fofZ 0) 0))
    (Run (MkParent (PRecv 0) u0 (replicate P (fofZ 0)) 0)).

(** A schedule, given by the processes that are to move in turn; those that
    have to wait are skipped. *)
Fixpoint run (s : net) (sched : list (option nat)) : net :=
  match sched with
  | [] => s
  | w :: sched => run (default s (exec s w)) sched
  end.

Definition finished (s : net) : Prop :=
  done (n_parent s) = true /\ forall i, i < P -> exited (n_child s i) = true.
End net.

(** ** Message sequences

    [fifo msg a b q]: messages [a] to [b-1] of the sequence [msg] are in the
    pipe [q]. *)

Definition fifo {X} (msg : nat -> list X) (a b : nat) (q : list X) : Prop :=
  a <= b /\ q = concat (map msg (seq a (b - a))).

Section fifo.
Context {X : Type} (msg : nat -> list X).

Lemma fifo_nil a : fifo msg a a [].
Proof. split; [done|]. by rewrite Nat.sub_diag. Qed.

Lemma fifo_push a b q : fifo msg a b q -> fifo msg a (S b) (q ++ msg b).
Proof.
  intros [Hab ->]. split; [lia|]. replace (S b - a) with (S (b - a)) by lia.
  rewrite seq_S, map_app, concat_app. simpl. rewrite app_nil_r. do 3 f_equal. lia.
Qed.

Lemma fifo_head a b q : fifo msg a b q -> a < b -> exists q', q = msg a ++ q' /\ fifo msg (S a) b q'.
Proof.
  intros [Hab ->] Hlt. exists (concat (map msg (seq (S a) (b - S a)))). split; [|split; [lia|done]].
  replace (b - a) with (S (b - S a)) by lia. done.
Qed.

Lemma fifo_empty a b : fifo msg a b [] -> (forall n, msg n <> []) -> a = b.
Proof.
  intros H Hne. destruct (decide (a < b)) as [Hlt|]; [|destruct H; lia].
  destruct (fifo_head a b [] H Hlt) as (q' & E & _). symmetry in E.
  apply app_eq_nil in E as [E _]. by destruct (Hne a).
Qed.

(** Reading one message from a pipe that is not empty. *)
Lemma fifo_pop a b q n :
  fifo msg a b q -> q <> [] -> length (msg a) = n ->
  a < b /\ take n q = msg a /\ fifo msg (S a) b (drop n q).
Proof.
  intros H Hne Hn. destruct (decide (a < b)) as [Hlt|Hge].
  - split; [done|]. destruct (fifo_head a b q H Hlt) as (q' & -> & H').
    by rewrite take_app_length', drop_app_length'.
  - destruct H as [Hab ->]. replace (b - a) with 0 in Hne by lia. done.
Qed.

Lemma fifo_same a b q : fifo msg a b q -> b <= a -> a = b /\ q = [].
Proof. intros [Hab ->] Hba. assert (a = b) as -> by lia. by rewrite Nat.sub_diag. Qed.
End fifo.

(** ** What the processes do, in terms of the sequential sweeps *)

Section correct.
Context {F : Type} {FO : FloatOps F} {FL : FloatLaws F}.
Abbreviation grid := (list (list F)).
Context (N P : nat) (lo hi : nat -> nat) (E : F) (L : Z) (cap : nat) (u0 : grid).
Context (HN : 3 <= N) (Hpart : partition N P lo hi) (Hu0 : grid_ok N u0).
Context (Hcap : N * (N - 2) <= cap).

(** The grid after [k] sweeps, and what worker [i] reports in round [k]. *)
Definition U (k : nat) : grid := Nat.iter k (sweep N) u0.
Definition D (i k : nat) : F := block_diff N (U k) (lo i) (hi i).

(** Is the sweep number [k] the last one?  [K] is the number of sweeps. *)
Definition stop (k : nat) : bool := fleb (total_diff N (U k)) E || Z.ltb L (Z.of_nat k + 1).
Definition K : nat := S (default 0 (find_idx stop (seq 0 (S (Z.to_nat L))))).
Definition ord (k : nat) : Z := if decide (S k = K) then 1%Z else 0%Z.

Arguments U : simpl never.
Arguments D : simpl never.
Arguments K : simpl never.
Arguments ord : simpl never.

Lemma K_spec : stop (K - 1) = true /\ (forall k, S k < K -> stop k = false) /\ K <= S (Z.to_nat L).
Proof.
  unfold K. destruct (find_idx stop (seq 0 (S (Z.to_nat L)))) as [i|] eqn:Ei.
  - apply find_idx_Some in Ei as (k & Hk & Hstop & Hbefore).
    apply lookup_seq in Hk as [-> Hlt]. simpl. rewrite Nat.sub_0_r. split_and!; [done| |lia].
    intros k Hk. apply (Hbefore k); [lia|]. apply lookup_seq. lia.
  - exfalso. pose proof (find_idx_None _ _ Ei (Z.to_nat L)) as Hn.
    rewrite elem_of_seq in Hn. specialize (Hn ltac:(lia)). unfold stop in Hn.
    apply orb_false_iff in Hn as [_ Hn]. apply Z.ltb_ge in Hn. lia.
Qed.

Lemma grid_ok_U k : grid_ok N (U k).
Proof. induction k as [|k IH]; [done|]. by apply grid_ok_sweep. Qed.

Lemma row_U_S k i : i < N -> row (U (S k)) i = if decide (1 <= i <= N - 2) then sweep_row N (U k) i else row (U k) i.
Proof. intros Hi. apply row_block_sweep. destruct (grid_ok_U k) as [-> _]. lia. Qed.

(** The border never changes. *)
Lemma row_U_border k i : i = 0 \/ i = N - 1 -> row (U k) i = row u0 i.
Proof.
  intros Hi. induction k as [|k IH]; [done|]. rewrite row_U_S by lia. by rewrite decide_False by lia.
Qed.

Lemma length_row_U k i : i < N -> length (row (U k) i) = N.
Proof. destruct (grid_ok_U k). auto. Qed.

(** *** How far a worker is

    [r] is the number of orders it has received.  The functions count the
    messages it has sent or received on each pipe when it is at [pc]. *)

Definition sentU (r : nat) (pc : cpc) : nat :=
  match pc with KSendUp | KSendRow _ | KExit => r | _ => S r end.
Definition sentD (r : nat) (pc : cpc) : nat :=
  match pc with KSendUp | KSendDown | KSendRow _ | KExit => r | _ => S r end.
Definition recvA (r : nat) (pc : cpc) : nat :=
  match pc with KSendUp | KSendDown | KRecvUp | KSendRow _ | KExit => r | _ => S r end.
Definition recvB (r : nat) (pc : cpc) : nat :=
  match pc with KSendUp | KSendDown | KRecvUp | KRecvDown | KSendRow _ | KExit => r | _ => S r end.
Definition sentDiff (r : nat) (pc : cpc) : nat :=
  match pc with KRecvOrder => S r | _ => r end.
(** The next row worker [i] sends. *)
Definition sentRow (i : nat) (pc : cpc) : nat :=
  match pc with KSendRow j => j | KExit => S (hi i) | _ => lo i end.

(** How far the parent is in round [k]: differences received, orders sent,
    the next row to receive from worker [i]. *)
Definition recvDiff (k : nat) (pc : ppc) (i : nat) : nat :=
  match pc with
  | PRecv j => if i <? j then S k else k
  | PSend _ _ => S k
  | PRows _ _ | PDone => K
  end.
Definition sentOrder (k : nat) (pc : ppc) (i : nat) : nat :=
  match pc with
  | PRecv _ => k
  | PSend j _ => if i <? j then S k else k
  | PRows _ _ | PDone => K
  end.
Definition recvRow (pc : ppc) (i : nat) : nat :=
  match pc with
  | PRows a j => if i <? a then S (hi i) else if i =? a then j else lo i
  | PDone => S (hi i)
  | _ => lo i
  end.

(** *** Correct states *)

Definition own (k i : nat) (u : grid) : Prop := forall l, lo i <= l <= hi i -> row u l = row (U k) l.
Definition above (k i : nat) (u : grid) : Prop := row u (lo i - 1) = row (U k) (lo i - 1).
Definition below (k i : nat) (u : grid) : Prop := row u (hi i + 1) = row (U k) (hi i + 1).

(** The border rows of the first and the last worker. *)
Definition edges (i : nat) (u : grid) : Prop :=
  (i = 0 -> row u 0 = row u0 0) /\ (S i = P -> row u (N - 1) = row u0 (N - 1)).

Definition child_ok (i r : nat) (c : child) : Prop :=
  grid_ok N (c_u c) /\ edges i (c_u c) /\
  match c_pc c with
  | KSendUp | KSendDown | KRecvUp => r < K /\ own r i (c_u c)
  | KRecvDown => r < K /\ own r i (c_u c) /\ above r i (c_u c)
  | KCompute => r < K /\ own r i (c_u c) /\ above r i (c_u c) /\ below r i (c_u c)
  | KSendDiff => r < K /\ own (S r) i (c_u c) /\ c_diff c = D i r
  | KRecvOrder => r < K /\ own (S r) i (c_u c)
  | KSendRow j => r = K /\ own K i (c_u c) /\ lo i <= j <= S (hi i)
  | KExit => r = K
  end.

Definition parent_ok (k : nat) (p : parent) : Prop :=
  grid_ok N (q_u p) /\ length (q_recv p) = P /\
  row (q_u p) 0 = row u0 0 /\ row (q_u p) (N - 1) = row u0 (N - 1) /\
  match q_pc p with
  | PRecv i => i <= P /\ k < K /\ q_count p = Z.of_nat k /\
               forall j, j < i -> q_recv p !! j = Some (D j k)
  | PSend i z => i <= P /\ k < K /\ q_count p = Z.of_nat (S k) /\ z = ord k
  | PRows i j => i <= P /\ (i < P -> lo i <= j <= S (hi i)) /\
                 forall l, 1 <= l < (if i <? P then j else N - 1) -> row (q_u p) l = row (U K) l
  | PDone => q_u p = U K
  end.

(** The pipe from worker [i] to the parent: differences, then rows. *)
Definition cp_ok (i a b c d : nat) (q : list F) : Prop :=
  exists q1 q2, q = q1 ++ q2 /\ fifo (fun k => [D i k]) a b q1 /\ fifo (fun l => row (U K) l) c d q2.

Record Inv (rs : nat -> nat) (cs : nat -> child) (k : nat) (p : parent) (s : net) : Prop := {
  iv_child i : i < P -> n_child s i = Run (cs i) /\ child_ok i (rs i) (cs i);
  iv_parent : n_parent s = Run p /\ parent_ok k p;
  iv_up i : S i < P -> fifo (fun n => row (U n) (lo (S i)))
    (recvB (rs i) (c_pc (cs i))) (sentU (rs (S i)) (c_pc (cs (S i)))) (n_f s (Up i));
  iv_down i : S i < P -> fifo (fun n => row (U n) (hi i))
    (recvA (rs (S i)) (c_pc (cs (S i)))) (sentD (rs i) (c_pc (cs i))) (n_f s (Down i));
  iv_cp i : i < P -> cp_ok i (recvDiff k (q_pc p) i) (sentDiff (rs i) (c_pc (cs i)))
    (recvRow (q_pc p) i) (sentRow i (c_pc (cs i))) (n_f s (CP i));
  iv_ord i : i < P -> fifo (fun n => [ord n]) (rs i) (sentOrder k (q_pc p) i) (n_o s i)
}.

Lemma lo_hi i : i < P -> 1 <= lo i /\ lo i <= hi i /\ hi i <= N - 2.
Proof.
  destruct Hpart as [HP H0 Hb Hn Hl]. intros Hi. split_and!.
  - induction i as [|i IH]; [lia|]. rewrite Hn by done. lia.
  - auto.
  - assert (forall d, i + d < P -> hi i <= hi (i + d)) as Hmono.
    { induction d as [|d IH]; intros Hd; [by rewrite Nat.add_0_r|].
      rewrite Nat.add_succ_r. specialize (IH ltac:(lia)).
      pose proof (Hn (i + d) ltac:(lia)). pose proof (Hb (S (i + d)) ltac:(lia)). lia. }
    specialize (Hmono (P - 1 - i) ltac:(lia)).
    replace (i + (P - 1 - i)) with (P - 1) in Hmono by lia. lia.
Qed.

Lemma Inv_start :
  Inv (fun _ => 0) (fun _ => MkChild KSendUp u0 (fofZ 0) 0) 0
    (MkParent (PRecv 0) u0 (replicate P (fofZ 0)) 0) (start P u0).
Proof.
  split; simpl.
  - intros i Hi. split; [done|]. split_and!; simpl; try done. split; [unfold K; lia|done].
  - split; [done|]. split_and!; simpl; try done; [apply length_replicate|].
    split_and!; [lia|unfold K; lia|done|]. intros j Hj. lia.
  - intros i Hi. apply fifo_nil.
  - intros i Hi. apply fifo_nil.
  - intros i Hi. exists [], []. split_and!; [done|apply fifo_nil..].
  - intros i Hi. apply fifo_nil.
Qed.

(** *** Frames: what has to be shown when one process moves *)

Lemma Inv_child rs cs k p s i r' c' q' o' :
  Inv rs cs k p s -> i < P ->
  let r := rs i in let pc := c_pc (cs i) in let pc' := c_pc c' in
  child_ok i r' c' ->
  (forall j, S j < P -> j <> i -> S j <> i -> q' (Up j) = n_f s (Up j)) ->
  (forall j, S j < P -> j <> i -> S j <> i -> q' (Down j) = n_f s (Down j)) ->
  (forall j, j < P -> j <> i -> q' (CP j) = n_f s (CP j) /\ o' j = n_o s j) ->
  (forall j a, S j = i -> fifo (fun n => row (U n) (lo i)) a (sentU r pc) (n_f s (Up j)) ->
     fifo (fun n => row (U n) (lo i)) a (sentU r' pc') (q' (Up j))) ->
  (forall b, S i < P -> fifo (fun n => row (U n) (lo (S i))) (recvB r pc) b (n_f s (Up i)) ->
     fifo (fun n => row (U n) (lo (S i))) (recvB r' pc') b (q' (Up i))) ->
  (forall j b, S j = i -> fifo (fun n => row (U n) (hi j)) (recvA r pc) b (n_f s (Down j)) ->
     fifo (fun n => row (U n) (hi j)) (recvA r' pc') b (q' (Down j))) ->
  (forall a, S i < P -> fifo (fun n => row (U n) (hi i)) a (sentD r pc) (n_f s (Down i)) ->
     fifo (fun n => row (U n) (hi i)) a (sentD r' pc') (q' (Down i))) ->
  (forall a c, cp_ok i a (sentDiff r pc) c (sentRow i pc) (n_f s (CP i)) ->
     cp_ok i a (sentDiff r' pc') c (sentRow i pc') (q' (CP i))) ->
  (forall b, fifo (fun n => [ord n]) r b (n_o s i) -> fifo (fun n => [ord n]) r' b (o' i)) ->
  Inv (<[i := r']> rs) (<[i := c']> cs) k p
    (MkNet q' o' (<[i := Run c']> (n_child s)) (n_parent s)).
Proof.
  intros [Hc Hp Hup Hdn Hcp Ho] Hi r pc pc' Hc' Fup Fdn Fcp Tup1 Tup2 Tdn1 Tdn2 Tcp To.
  split; simpl.
  - intros j Hj. destruct (decide (j = i)) as [->|Hne].
    + by rewrite !fn_lookup_insert.
    + rewrite !fn_lookup_insert_ne by done. auto.
  - done.
  - intros j Hj. specialize (Hup j Hj). destruct (decide (j = i)) as [->|Hne].
    + rewrite !fn_lookup_insert, !fn_lookup_insert_ne by lia. auto.
    + rewrite !(fn_lookup_insert_ne _ i j) by done. destruct (decide (S j = i)) as [<-|Hne'].
      * rewrite !fn_lookup_insert. auto.
      * rewrite !fn_lookup_insert_ne by done. by rewrite Fup.
  - intros j Hj. specialize (Hdn j Hj). destruct (decide (j = i)) as [->|Hne].
    + rewrite !fn_lookup_insert, !fn_lookup_insert_ne by lia. auto.
    + rewrite !(fn_lookup_insert_ne _ i j) by done. destruct (decide (S j = i)) as [<-|Hne'].
      * rewrite !fn_lookup_insert. auto.
      * rewrite !fn_lookup_insert_ne by done. by rewrite Fdn.
  - intros j Hj. specialize (Hcp j Hj). destruct (decide (j = i)) as [->|Hne].
    + rewrite !fn_lookup_insert. auto.
    + rewrite !fn_lookup_insert_ne by done. destruct (Fcp j Hj Hne) as [-> _]. done.
  - intros j Hj. specialize (Ho j Hj). destruct (decide (j = i)) as [->|Hne].
    + rewrite !fn_lookup_insert. auto.
    + rewrite !fn_lookup_insert_ne by done. destruct (Fcp j Hj Hne) as [_ ->]. done.
Qed.

Lemma Inv_parent rs cs k p s k' p' q' o' :
  Inv rs cs k p s -> parent_ok k' p' ->
  (forall j, S j < P -> q' (Up j) = n_f s (Up j) /\ q' (Down j) = n_f s (Down j)) ->
  (forall j, j < P -> cp_ok j (recvDiff k' (q_pc p') j) (sentDiff (rs j) (c_pc (cs j)))
     (recvRow (q_pc p') j) (sentRow j (c_pc (cs j))) (q' (CP j))) ->
  (forall j, j < P -> fifo (fun n => [ord n]) (rs j) (sentOrder k' (q_pc p') j) (o' j)) ->
  Inv rs cs k' p' (MkNet q' o' (n_child s) (Run p')).
Proof.
  intros [Hc Hp Hup Hdn Hcp Ho] Hp' Hf Tcp To. split; simpl; auto.
  - intros j Hj. destruct (Hf j Hj) as [-> _]. auto.
  - intros j Hj. destruct (Hf j Hj) as [_ ->]. auto.
Qed.

(** *** The rounds stay together

    No worker starts a round before the parent has heard of the previous one
    from all workers, so every pipe is empty when its writer comes back to
    it. *)

Lemma sentDiff_le r pc : sentDiff r pc <= recvA r pc /\ sentDiff r pc <= recvB r pc.
Proof. destruct pc; simpl; lia. Qed.

Lemma order_le_diff k pc i j : sentOrder k pc i <= recvDiff k pc j.
Proof. destruct pc; simpl; repeat case_match; lia. Qed.

Section state.
Context (rs : nat -> nat) (cs : nat -> @child F) (k : nat) (p : @parent F) (s : @net F).
Context (HI : Inv rs cs k p s).

Lemma sync i j : i < P -> j < P ->
  rs i <= recvDiff k (q_pc p) j /\ recvDiff k (q_pc p) j <= sentDiff (rs j) (c_pc (cs j)).
Proof.
  intros Hi Hj. destruct (iv_ord _ _ _ _ _ HI i Hi) as [Hle _].
  destruct (iv_cp _ _ _ _ _ HI j Hj) as (q1 & q2 & _ & [Hd _] & _).
  pose proof (order_le_diff k (q_pc p) i j). lia.
Qed.

Lemma recvRow_ge i : i < P -> lo i <= recvRow (q_pc p) i.
Proof.
  intros Hi. destruct (lo_hi i Hi) as (_ & Hlh & _).
  destruct (iv_parent _ _ _ _ _ HI) as [_ (_ & _ & _ & _ & Hpc)].
  destruct (q_pc p) as [| |a j|]; simpl; [lia..| |lia].
  destruct (Nat.ltb_spec i a); [lia|]. destruct (Nat.eqb_spec i a) as [->|]; [|lia].
  destruct Hpc as (_ & Hpc & _). specialize (Hpc Hi). lia.
Qed.

Lemma room_up j : S j < P -> c_pc (cs (S j)) = KSendUp -> n_f s (Up j) = [].
Proof.
  intros Hj Hpc. pose proof (iv_up _ _ _ _ _ HI j Hj) as Hf. rewrite Hpc in Hf.
  destruct (sync (S j) j) as [H1 H2]; [lia..|].
  pose proof (sentDiff_le (rs j) (c_pc (cs j))). apply fifo_same in Hf as [_ ->]; [done|simpl; lia].
Qed.

Lemma room_down j : S j < P -> c_pc (cs j) = KSendDown -> n_f s (Down j) = [].
Proof.
  intros Hj Hpc. pose proof (iv_down _ _ _ _ _ HI j Hj) as Hf. rewrite Hpc in Hf.
  destruct (sync j (S j)) as [H1 H2]; [lia..|].
  pose proof (sentDiff_le (rs (S j)) (c_pc (cs (S j)))). apply fifo_same in Hf as [_ ->]; [done|simpl; lia].
Qed.

Lemma room_diff i : i < P -> c_pc (cs i) = KSendDiff -> n_f s (CP i) = [].
Proof.
  intros Hi Hpc. destruct (iv_cp _ _ _ _ _ HI i Hi) as (q1 & q2 & -> & H1 & H2).
  rewrite Hpc in H1, H2. destruct (sync i i Hi Hi) as [Hs _]. pose proof (recvRow_ge i Hi).
  apply fifo_same in H1 as [_ ->]; [|simpl; lia]. apply fifo_same in H2 as [_ ->]; [done|simpl; lia].
Qed.

Lemma length_rows a n : a + n < N -> length (concat (map (fun l => row (U K) l) (seq a n))) = n * N.
Proof.
  revert a. induction n as [|n IH]; intros a Ha; simpl; [done|].
  rewrite length_app, length_row_U, IH by lia. done.
Qed.

Lemma room_row i l : i < P -> c_pc (cs i) = KSendRow l -> l <= hi i -> length (n_f s (CP i)) + N <= cap.
Proof.
  intros Hi Hpc Hl. destruct (iv_cp _ _ _ _ _ HI i Hi) as (q1 & q2 & -> & H1 & H2).
  rewrite Hpc in H1, H2. destruct (sync i i Hi Hi) as [Hs _]. pose proof (recvRow_ge i Hi).
  destruct (lo_hi i Hi) as (? & ? & ?). simpl in H1, H2.
  apply fifo_same in H1 as [_ ->]; [|lia]. destruct H2 as [Hle ->]. simpl.
  rewrite length_rows by lia. nia.
Qed.

Lemma room_order i z : q_pc p = PSend i z -> i < P -> n_o s i = [].
Proof.
  intros Hpc Hi. pose proof (iv_ord _ _ _ _ _ HI i Hi) as Ho. rewrite Hpc in Ho. simpl in Ho.
  rewrite Nat.ltb_irrefl in Ho. destruct (sync i i Hi Hi) as [_ Hs]. rewrite Hpc in Hs. simpl in Hs.
  assert (k <= rs i) by (destruct (c_pc (cs i)); simpl in Hs; lia).
  by apply fifo_same in Ho as [_ ->].
Qed.

(** *** A worker moves *)

(** Steps worker [i] has left. *)
Definition crem (i r : nat) (pc : cpc) : nat :=
  (K - r) * (N + 10) +
  match pc with
  | KSendUp => 8 | KSendDown => 7 | KRecvUp => 6 | KRecvDown => 5 | KCompute => 4
  | KSendDiff => 3 | KRecvOrder => 2 | KSendRow j => S (S (hi i)) - j | KExit => 0
  end.

Definition moved (i : nat) (s' : net) : Prop :=
  exists r' c', Inv (<[i := r']> rs) (<[i := c']> cs) k p s' /\
    crem i r' (c_pc c') < crem i (rs i) (c_pc (cs i)).

Lemma exec_child i s' :
  i < P -> exec N P lo hi E L cap s (Some i) = Some s' ->
  exists q o t, exec_thread cap (closedF s) (closedO s) (child_req N P lo hi i) (n_f s) (n_o s) (Run (cs i))
      = Some (q, o, t) /\ s' = MkNet q o (<[i := t]> (n_child s)) (n_parent s).
Proof.
  intros Hi Hex. unfold exec in Hex. destruct (iv_child _ _ _ _ _ HI i Hi) as [E1 _].
  rewrite E1 in Hex. destruct (exec_thread _ _ _ _ _ _ _) as [[[q o] t]|]; [|done].
  injection Hex as <-. eauto 10.
Qed.

Lemma row_put_row (u : grid) i ws j :
  grid_ok N u -> i < N -> j < N -> length ws = N ->
  row (put_row u i ws) j = if decide (i = j) then ws else row u j.
Proof.
  intros [Hl Hr] Hi Hj Hw. unfold put_row. rewrite row_alter by lia.
  destruct (decide (i = j)) as [->|]; [|done]. apply splice_full. by rewrite Hr.
Qed.

Lemma grid_ok_put_row (u : grid) i ws : grid_ok N u -> i < N -> length ws = N -> grid_ok N (put_row u i ws).
Proof.
  intros Hu Hi Hw. split; [unfold put_row; rewrite length_alter; apply Hu|].
  intros j Hj. rewrite row_put_row by done. case_decide; [done|]. by apply Hu.
Qed.

(** The pipes a step does not touch. *)
Ltac frame := intros; simplify_eq; rewrite ?fn_lookup_insert_ne by (intros [=]; lia); try done; auto.

Lemma exited_K i : i < P -> exited (n_child s i) = true -> c_pc (cs i) = KExit /\ rs i = K.
Proof.
  intros Hi He. destruct (iv_child _ _ _ _ _ HI i Hi) as [E1 (_ & _ & Hc)]. rewrite E1 in He.
  simpl in He. destruct (c_pc (cs i)); done.
Qed.

Lemma row_nonempty m l : l < N -> row (U m) l <> [].
Proof. intros Hl H. pose proof (length_row_U m l Hl) as E1. rewrite H in E1. simpl in E1. lia. Qed.

Lemma fifo_ready {X} (msg : nat -> list X) a b q : fifo msg a b q -> a < b -> (forall n, msg n <> []) -> q <> [].
Proof. intros H Hlt Hne ->. apply fifo_empty in H; [lia|done]. Qed.

Lemma child_send_up i s' :
  i < P -> c_pc (cs i) = KSendUp -> exec N P lo hi E L cap s (Some i) = Some s' -> moved i s'.
Proof.
  intros Hi Hpc (q & o & t & Hex & ->)%exec_child; [|done].
  destruct (iv_child _ _ _ _ _ HI i Hi) as [_ (Hu & He & Hown)]. rewrite Hpc in Hown.
  destruct (lo_hi i Hi) as (? & ? & ?).
  exists (rs i), ((cs i) <| c_pc := KSendDown |>). split; [|unfold crem; rewrite Hpc; simpl; lia].
  destruct i as [|j].
  - unfold exec_thread, child_req in Hex. rewrite Hpc in Hex. simpl in Hex. injection Hex as <- <- <-.
    apply Inv_child; rewrite ?Hpc; simpl; frame.
  - pose proof (room_up j Hi Hpc) as Hq.
    assert (length (row (c_u (cs (S j))) (lo (S j))) = N) as Hlen by (apply Hu; lia).
    erewrite exec_write in Hex; [|unfold child_req; rewrite Hpc; reflexivity|].
    2: { rewrite ?Nat.sub_succ, ?Nat.sub_0_r, Hq, Hlen. simpl. nia. }
    injection Hex as <- <- <-. rewrite ?Nat.sub_succ, ?Nat.sub_0_r.
    apply Inv_child; rewrite ?Hpc; simpl; frame.
    rewrite fn_lookup_insert, (proj2 Hown) by lia. by apply (fifo_push (fun n => row (U n) (lo (S j)))).
Qed.

Lemma child_send_down i s' :
  i < P -> c_pc (cs i) = KSendDown -> exec N P lo hi E L cap s (Some i) = Some s' -> moved i s'.
Proof.
  intros Hi Hpc (q & o & t & Hex & ->)%exec_child; [|done].
  destruct (iv_child _ _ _ _ _ HI i Hi) as [_ (Hu & He & Hown)]. rewrite Hpc in Hown.
  destruct (lo_hi i Hi) as (? & ? & ?).
  exists (rs i), ((cs i) <| c_pc := KRecvUp |>). split; [|unfold crem; rewrite Hpc; simpl; lia].
  destruct (Nat.ltb_spec (S i) P) as [HS|HS].
  - pose proof (room_down i HS Hpc) as Hq.
    assert (length (row (c_u (cs i)) (hi i)) = N) as Hlen by (apply Hu; lia).
    erewrite exec_write in Hex; [|unfold child_req; rewrite Hpc, (proj2 (Nat.ltb_lt _ _) HS); reflexivity|].
    2: { rewrite Hq, Hlen. simpl. nia. }
    injection Hex as <- <- <-. apply Inv_child; rewrite ?Hpc; simpl; frame.
    rewrite fn_lookup_insert, (proj2 Hown) by lia. by apply (fifo_push (fun n => row (U n) (hi i))).
  - unfold exec_thread, child_req in Hex. rewrite Hpc, (proj2 (Nat.ltb_ge _ _) HS) in Hex.
    injection Hex as <- <- <-. apply Inv_child; rewrite ?Hpc; simpl; frame; lia.
Qed.

Lemma next_block j : S j < P -> lo (S j) = S (hi j).
Proof. apply Hpart. Qed.

Lemma child_recv_up i s' :
  i < P -> c_pc (cs i) = KRecvUp -> exec N P lo hi E L cap s (Some i) = Some s' -> moved i s'.
Proof.
  intros Hi Hpc (q & o & t & Hex & ->)%exec_child; [|done].
  destruct (iv_child _ _ _ _ _ HI i Hi) as [_ (Hu & He & Hc)]. rewrite Hpc in Hc. destruct Hc as [Hr Hown].
  destruct (lo_hi i Hi) as (? & ? & ?). destruct i as [|j].
  - unfold exec_thread, child_req in Hex. rewrite Hpc in Hex. simpl in Hex. injection Hex as <- <- <-.
    exists (rs 0), ((cs 0) <| c_pc := KRecvDown |>). split; [|unfold crem; rewrite Hpc; simpl; lia].
    apply Inv_child; rewrite ?Hpc; simpl; frame. split_and!; try done. simpl. split_and!; try done.
    unfold above. rewrite (pt_first _ _ _ _ Hpart), row_U_border by lia. by apply He.
  - pose proof (iv_down _ _ _ _ _ HI j Hi) as Hf. rewrite Hpc in Hf. simpl in Hf.
    destruct (lo_hi j ltac:(lia)) as (? & ? & ?). pose proof (next_block j Hi) as Hnext.
    assert (child_req N P lo hi (S j) (cs (S j)) = ReadF (Down j) N (fun ws =>
      (cs (S j)) <| c_pc := KRecvDown |> <| c_u := put_row (c_u (cs (S j))) (hi j) ws |>)) as Hreq.
    { unfold child_req. rewrite Hpc. replace (S j - 1) with j by lia.
      by replace (lo (S j) - 1) with (hi j) by lia. }
    assert (n_f s (Down j) <> []) as Hne.
    { destruct (exec_read_ready _ _ _ _ _ _ _ _ _ _ _ Hreq Hex) as [?|Hcl]; [done|].
      destruct (exited_K j ltac:(lia) Hcl) as [Ej EK]. rewrite Ej, EK in Hf.
      apply (fifo_ready _ _ _ _ Hf); [done|]. intros m. apply row_nonempty. lia. }
    rewrite (exec_read _ _ _ _ _ _ _ _ _ _ Hreq Hne) in Hex. injection Hex as <- <- <-.
    destruct (fifo_pop _ _ _ _ N Hf Hne) as (Hlt & Etake & _); [apply length_row_U; lia|].
    rewrite Etake. exists (rs (S j)), ((cs (S j)) <| c_pc := KRecvDown |>
      <| c_u := put_row (c_u (cs (S j))) (hi j) (row (U (rs (S j))) (hi j)) |>). split; [|unfold crem; rewrite Hpc; simpl; lia].
    assert (length (row (U (rs (S j))) (hi j)) = N) as Hlen by (apply length_row_U; lia).
    apply Inv_child; rewrite ?Hpc; simpl; frame.
    + split_and!; simpl; [apply grid_ok_put_row; (done || lia)| |split_and!; [done|..]].
      * destruct He as [_ He]. split; [done|]. intros HP'. rewrite row_put_row by (done || lia).
        rewrite decide_False by lia. auto.
      * intros l Hl. rewrite row_put_row by (done || lia). rewrite decide_False by lia. auto.
      * unfold above. rewrite Hnext, Nat.sub_succ, Nat.sub_0_r, row_put_row by (done || lia).
        by rewrite decide_True.
    + rewrite fn_lookup_insert. eapply (fifo_pop (fun n => row (U n) (hi j))); [done..|].
      apply length_row_U; lia.
Qed.

Lemma child_recv_down i s' :
  i < P -> c_pc (cs i) = KRecvDown -> exec N P lo hi E L cap s (Some i) = Some s' -> moved i s'.
Proof.
  intros Hi Hpc (q & o & t & Hex & ->)%exec_child; [|done].
  destruct (iv_child _ _ _ _ _ HI i Hi) as [_ (Hu & He & Hc)]. rewrite Hpc in Hc.
  destruct Hc as (Hr & Hown & Habove). destruct (lo_hi i Hi) as (? & ? & ?).
  destruct (Nat.ltb_spec (S i) P) as [HS|HS]; cycle 1.
  - unfold exec_thread, child_req in Hex. rewrite Hpc, (proj2 (Nat.ltb_ge _ _) HS) in Hex.
    injection Hex as <- <- <-. exists (rs i), ((cs i) <| c_pc := KCompute |>).
    split; [|unfold crem; rewrite Hpc; simpl; lia].
    apply Inv_child; rewrite ?Hpc; simpl; frame; [|lia]. split_and!; try done. simpl. split_and!; try done.
    pose proof (pt_last _ _ _ _ Hpart) as Hl. replace (P - 1) with i in Hl by lia.
    unfold below. replace (hi i + 1) with (N - 1) by lia. rewrite row_U_border by lia. apply He. lia.
  - pose proof (iv_up _ _ _ _ _ HI i HS) as Hf. rewrite Hpc in Hf. simpl in Hf.
    destruct (lo_hi (S i) HS) as (? & ? & ?). pose proof (next_block i HS) as Hnext.
    assert (child_req N P lo hi i (cs i) = ReadF (Up i) N (fun ws =>
      (cs i) <| c_pc := KCompute |> <| c_u := put_row (c_u (cs i)) (lo (S i)) ws |>)) as Hreq.
    { unfold child_req. rewrite Hpc, (proj2 (Nat.ltb_lt _ _) HS). by replace (hi i + 1) with (lo (S i)) by lia. }
    assert (n_f s (Up i) <> []) as Hne.
    { destruct (exec_read_ready _ _ _ _ _ _ _ _ _ _ _ Hreq Hex) as [?|Hcl]; [done|].
      destruct (exited_K (S i) HS Hcl) as [Ej EK]. rewrite Ej, EK in Hf.
      apply (fifo_ready _ _ _ _ Hf); [done|]. intros m. apply row_nonempty. lia. }
    rewrite (exec_read _ _ _ _ _ _ _ _ _ _ Hreq Hne) in Hex. injection Hex as <- <- <-.
    destruct (fifo_pop _ _ _ _ N Hf Hne) as (Hlt & Etake & _); [apply length_row_U; lia|].
    rewrite Etake. exists (rs i), ((cs i) <| c_pc := KCompute |>
      <| c_u := put_row (c_u (cs i)) (lo (S i)) (row (U (rs i)) (lo (S i))) |>).
    split; [|unfold crem; rewrite Hpc; simpl; lia].
    assert (length (row (U (rs i)) (lo (S i))) = N) as Hlen by (apply length_row_U; lia).
    assert (forall l, l < N -> l <> lo (S i) ->
      row (put_row (c_u (cs i)) (lo (S i)) (row (U (rs i)) (lo (S i)))) l = row (c_u (cs i)) l) as Hput.
    { intros l Hl Hne'. rewrite row_put_row by (done || lia). by rewrite decide_False by lia. }
    apply Inv_child; rewrite ?Hpc; simpl; frame.
    + split_and!; simpl; [apply grid_ok_put_row; (done || lia)| |split_and!; [done|..]].
      * destruct He as [He _]. split; [|lia]. intros Hi0. rewrite Hput by lia. auto.
      * intros l Hl. rewrite Hput by lia. auto.
      * unfold above. rewrite Hput by lia. done.
      * unfold below. replace (hi i + 1) with (lo (S i)) by lia. rewrite row_put_row by (done || lia).
        by rewrite decide_True.
    + rewrite fn_lookup_insert. eapply (fifo_pop (fun n => row (U n) (lo (S i)))); [done..|].
      apply length_row_U; lia.
Qed.

Lemma child_compute i s' :
  i < P -> c_pc (cs i) = KCompute -> exec N P lo hi E L cap s (Some i) = Some s' -> moved i s'.
Proof.
  intros Hi Hpc (q & o & t & Hex & ->)%exec_child; [|done].
  destruct (iv_child _ _ _ _ _ HI i Hi) as [_ (Hu & He & Hc)]. rewrite Hpc in Hc.
  destruct Hc as (Hr & Hown & Habove & Hbelow). destruct (lo_hi i Hi) as (? & ? & ?).
  unfold exec_thread, child_req in Hex. rewrite Hpc in Hex. injection Hex as <- <- <-.
  eexists (rs i), (MkChild KSendDiff _ _ _). split; [|unfold crem; rewrite Hpc; simpl; lia].
  apply Inv_child; rewrite ?Hpc; simpl; frame.
  assert (forall l, lo i <= l <= hi i -> near (c_u (cs i)) (U (rs i)) l) as Hnear.
  { intros l Hl. split_and!; [|auto|].
    - destruct (decide (l = lo i)) as [->|]; [done|]. apply Hown. lia.
    - destruct (decide (l = hi i)) as [->|]; [done|]. apply Hown. lia. }
  destruct Hu as [Hlen Hrows].
  split_and!; simpl; [by apply grid_ok_sweep| |split_and!; [done|..]].
  - split; intros Hedge; rewrite row_block_sweep by lia; rewrite decide_False by lia; by apply He.
  - intros l Hl. rewrite row_block_sweep by lia. rewrite decide_True by done.
    rewrite row_U_S by lia. rewrite decide_True by lia. by apply sweep_row_near, Hnear.
  - by apply block_diff_near.
Qed.

Lemma child_send_diff i s' :
  i < P -> c_pc (cs i) = KSendDiff -> exec N P lo hi E L cap s (Some i) = Some s' -> moved i s'.
Proof.
  intros Hi Hpc (q & o & t & Hex & ->)%exec_child; [|done].
  destruct (iv_child _ _ _ _ _ HI i Hi) as [_ (Hu & He & Hc)]. rewrite Hpc in Hc.
  destruct Hc as (Hr & Hown & Hdiff).
  pose proof (room_diff i Hi Hpc) as Hq.
  erewrite exec_write in Hex; [|unfold child_req; rewrite Hpc; reflexivity|]; [|rewrite Hq; simpl; nia].
  injection Hex as <- <- <-. exists (rs i), ((cs i) <| c_pc := KRecvOrder |>).
  split; [|unfold crem; rewrite Hpc; simpl; lia].
  apply Inv_child; rewrite ?Hpc; simpl; frame.
  destruct H as (q1 & q2 & Eq & H1 & H2). rewrite fn_lookup_insert, Hdiff, Eq.
  rewrite Hq in Eq. symmetry in Eq. apply app_eq_nil in Eq as [-> ->].
  exists [D i (rs i)], []. split_and!; [done| |done].
  by apply (fifo_push (fun k => [D i k]) _ _ []).
Qed.

Lemma done_PDone : done (n_parent s) = true -> q_pc p = PDone.
Proof.
  intros Hd. destruct (iv_parent _ _ _ _ _ HI) as [E1 _]. rewrite E1 in Hd. simpl in Hd.
  by destruct (q_pc p).
Qed.

Lemma child_recv_order i s' :
  i < P -> c_pc (cs i) = KRecvOrder -> exec N P lo hi E L cap s (Some i) = Some s' -> moved i s'.
Proof.
  intros Hi Hpc (q & o & t & Hex & ->)%exec_child; [|done].
  destruct (iv_child _ _ _ _ _ HI i Hi) as [_ (Hu & He & Hc)]. rewrite Hpc in Hc.
  destruct Hc as (Hr & Hown). destruct (lo_hi i Hi) as (? & ? & ?).
  pose proof (iv_ord _ _ _ _ _ HI i Hi) as Hf.
  assert (exists f, child_req N P lo hi i (cs i) = ReadO i f /\ f [ord (rs i)] =
    (cs i) <| c_order := ord (rs i) |>
           <| c_pc := if Z.eqb (ord (rs i)) 1 then KSendRow (lo i) else KSendUp |>) as (f & Hreq & Ef).
  { unfold child_req. rewrite Hpc. eexists. split; reflexivity. }
  assert (n_o s i <> []) as Hne.
  { destruct (exec_readO_ready _ _ _ _ _ _ _ _ _ _ Hreq Hex) as [?|Hcl]; [done|].
    apply done_PDone in Hcl. rewrite Hcl in Hf. by apply (fifo_ready _ _ _ _ Hf). }
  rewrite (exec_readO _ _ _ _ _ _ _ _ _ Hreq Hne) in Hex. injection Hex as <- <- <-.
  destruct (fifo_pop _ _ _ _ 1 Hf Hne) as (Hlt & Etake & _); [done|]. rewrite Etake, Ef.
  assert (ord (rs i) = 1%Z /\ S (rs i) = K \/ ord (rs i) = 0%Z /\ S (rs i) < K) as Hord.
  { unfold ord. case_decide; [by left|right; lia]. }
  destruct Hord as [[-> HK]|[-> HK]]; cbn [Z.eqb Pos.eqb].
  - exists (S (rs i)), ((cs i) <| c_order := 1%Z |> <| c_pc := KSendRow (lo i) |>).
    split; [|unfold crem; rewrite Hpc; replace (K - rs i) with (S (K - S (rs i))) by lia; simpl; lia].
    apply Inv_child; rewrite ?Hpc; simpl; frame.
    + split_and!; simpl; try done. rewrite <- HK. split_and!; (done || lia).
    + rewrite fn_lookup_insert. by eapply (fifo_pop (fun n => [ord n])).
  - exists (S (rs i)), ((cs i) <| c_order := 0%Z |> <| c_pc := KSendUp |>).
    split; [|unfold crem; rewrite Hpc; replace (K - rs i) with (S (K - S (rs i))) by lia; simpl; lia].
    apply Inv_child; rewrite ?Hpc; simpl; frame.
    rewrite fn_lookup_insert. by eapply (fifo_pop (fun n => [ord n])).
Qed.

Lemma child_send_row i l s' :
  i < P -> c_pc (cs i) = KSendRow l -> exec N P lo hi E L cap s (Some i) = Some s' -> moved i s'.
Proof.
  intros Hi Hpc (q & o & t & Hex & ->)%exec_child; [|done].
  destruct (iv_child _ _ _ _ _ HI i Hi) as [_ (Hu & He & Hc)]. rewrite Hpc in Hc.
  destruct Hc as (Hr & Hown & Hl). destruct (lo_hi i Hi) as (? & ? & ?).
  destruct (Nat.leb_spec l (hi i)) as [Hle|Hgt].
  - pose proof (room_row i l Hi Hpc Hle) as Hroom.
    assert (length (row (c_u (cs i)) l) = N) as Hlen by (apply Hu; lia).
    erewrite exec_write in Hex;
      [|unfold child_req; rewrite Hpc, (proj2 (Nat.leb_le _ _) Hle); reflexivity|lia].
    injection Hex as <- <- <-. exists (rs i), ((cs i) <| c_pc := KSendRow (S l) |>).
    split; [|unfold crem; rewrite Hpc; simpl; lia].
    apply Inv_child; rewrite ?Hpc; simpl; frame.
    + split_and!; try done. simpl. split_and!; (done || lia).
    + destruct H2 as (q1 & q2 & -> & H1' & H2'). rewrite fn_lookup_insert, Hown by lia.
      exists q1, (q2 ++ row (U K) l). rewrite (assoc_L app). split_and!; [done..|].
      by apply (fifo_push (fun l => row (U K) l)).
  - unfold exec_thread, child_req in Hex. rewrite Hpc, (proj2 (Nat.leb_gt _ _) Hgt) in Hex.
    injection Hex as <- <- <-. exists (rs i), ((cs i) <| c_pc := KExit |>).
    split; [|unfold crem; rewrite Hpc; simpl; lia].
    apply Inv_child; rewrite ?Hpc; simpl; frame. by replace (S (hi i)) with l by lia.
Qed.

Lemma child_moves i s' : i < P -> exec N P lo hi E L cap s (Some i) = Some s' -> moved i s'.
Proof.
  intros Hi Hex. destruct (c_pc (cs i)) eqn:Hpc.
  - by apply child_send_up.
  - by apply child_send_down.
  - by apply child_recv_up.
  - by apply child_recv_down.
  - by apply child_compute.
  - by apply child_send_diff.
  - by apply child_recv_order.
  - by eapply child_send_row.
  - apply exec_child in Hex as (q & o & t & Hex & _); [|done].
    unfold exec_thread, child_req in Hex. by rewrite Hpc in Hex.
Qed.

(** *** The parent moves *)

(** Steps the parent has left. *)
Definition prem (k : nat) (pc : ppc) : nat :=
  match pc with
  | PRecv i => (K - k) * ((P + 3) * (N + 5)) + (2 * P + 3 - i)
  | PSend i _ => (K - k) * ((P + 3) * (N + 5)) + (P + 1 - i)
  | PRows i j => (P - i) * (N + 2) + (if i <? P then S (hi i) - j else 0) + 1
  | PDone => 0
  end.

Definition pmoved (s' : net) : Prop :=
  exists k' p', Inv rs cs k' p' s' /\ prem k' (q_pc p') < prem k (q_pc p).

Lemma exec_parent s' :
  exec N P lo hi E L cap s None = Some s' ->
  exists q o t, exec_thread cap (closedF s) (closedO s) (parent_req N P lo hi E L) (n_f s) (n_o s) (Run p)
      = Some (q, o, t) /\ s' = MkNet q o (n_child s) t.
Proof.
  intros Hex. unfold exec in Hex. destruct (iv_parent _ _ _ _ _ HI) as [E1 _].
  rewrite E1 in Hex. destruct (exec_thread _ _ _ _ _ _ _) as [[[q o] t]|]; [|done].
  injection Hex as <-. eauto 10.
Qed.

(** The rows of worker [i] follow all its differences. *)
Lemma sentDiff_K i : i < P -> sentDiff (rs i) (c_pc (cs i)) <= K.
Proof.
  intros Hi. destruct (iv_child _ _ _ _ _ HI i Hi) as [_ (_ & _ & Hc)].
  destruct (c_pc (cs i)); simpl; destruct_and?; lia.
Qed.

Lemma rows_after_diffs i : i < P -> lo i < sentRow i (c_pc (cs i)) -> sentDiff (rs i) (c_pc (cs i)) = K.
Proof.
  intros Hi. destruct (iv_child _ _ _ _ _ HI i Hi) as [_ (_ & _ & Hc)].
  destruct (c_pc (cs i)); simpl; destruct_and?; lia.
Qed.

Lemma parent_recv i s' :
  q_pc p = PRecv i -> i < P -> exec N P lo hi E L cap s None = Some s' -> pmoved s'.
Proof.
  intros Hpc Hi (q & o & t & Hex & ->)%exec_parent.
  destruct (iv_parent _ _ _ _ _ HI) as [_ (Hu & Hl & Ht & Hb & Hp)]. rewrite Hpc in Hp.
  destruct Hp as (_ & Hk & Hcount & Hrecv).
  destruct (iv_cp _ _ _ _ _ HI i Hi) as (q1 & q2 & Eq & H1 & H2). rewrite Hpc in H1, H2.
  simpl in H1, H2. rewrite Nat.ltb_irrefl in H1.
  assert (exists f, parent_req N P lo hi E L p = ReadF (CP i) 1 f /\ f [D i k] =
    p <| q_recv := <[i := D i k]> (q_recv p) |> <| q_pc := PRecv (S i) |>) as (f & Hreq & Ef).
  { unfold parent_req. rewrite Hpc, (proj2 (Nat.ltb_lt _ _) Hi). eexists. split; reflexivity. }
  assert (k < sentDiff (rs i) (c_pc (cs i))) as Hlt.
  { destruct (exec_read_ready _ _ _ _ _ _ _ _ _ _ _ Hreq Hex) as [Hne|Hcl].
    - destruct (decide (k < sentDiff (rs i) (c_pc (cs i)))) as [|Hge]; [done|].
      apply fifo_same in H1 as [Hk' ->]; [|lia]. rewrite Eq in Hne. simpl in Hne.
      destruct (decide (lo i < sentRow i (c_pc (cs i)))) as [Hlt|Hge'].
      + rewrite (rows_after_diffs i Hi Hlt) in Hk'. lia.
      + by apply fifo_same in H2 as [_ ->]; [|lia].
    - destruct (exited_K i Hi Hcl) as [-> ->]. done. }
  destruct (fifo_head _ _ _ _ H1 Hlt) as (q1' & -> & H1').
  rewrite (exec_read _ _ _ _ _ _ _ _ _ _ Hreq) in Hex by (by rewrite Eq).
  rewrite Eq in Hex. simpl in Hex. rewrite take_0, drop_0, Ef in Hex. injection Hex as <- <- <-.
  exists k, (p <| q_recv := <[i := D i k]> (q_recv p) |> <| q_pc := PRecv (S i) |>).
  split; [|rewrite Hpc; simpl; lia].
  apply (Inv_parent rs cs k p); [done|..]; rewrite ?Hpc; simpl.
  - split_and!; simpl; try done; [by rewrite length_insert|]. split_and!; [lia|done|done|].
    intros j Hj. destruct (decide (j = i)) as [->|Hne].
    + apply list_lookup_insert_eq. lia.
    + rewrite list_lookup_insert_ne by done. apply Hrecv. lia.
  - frame.
  - intros j Hj. destruct (decide (j = i)) as [->|Hne].
    + rewrite (proj2 (Nat.ltb_lt i (S i))) by lia. rewrite fn_lookup_insert. by exists q1', q2.
    + rewrite fn_lookup_insert_ne by congruence. pose proof (iv_cp _ _ _ _ _ HI j Hj) as Hcp.
      rewrite Hpc in Hcp. simpl in Hcp. replace (j <? S i) with (j <? i); [done|].
      apply eq_true_iff_eq. rewrite !Nat.ltb_lt. lia.
  - intros j Hj. pose proof (iv_ord _ _ _ _ _ HI j Hj) as Ho. by rewrite Hpc in Ho.
Qed.

Lemma parent_decide s' :
  q_pc p = PRecv P -> exec N P lo hi E L cap s None = Some s' -> pmoved s'.
Proof.
  intros Hpc (q & o & t & Hex & ->)%exec_parent.
  destruct (iv_parent _ _ _ _ _ HI) as [_ (Hu & Hl & Ht & Hb & Hp)]. rewrite Hpc in Hp.
  destruct Hp as (_ & Hk & Hcount & Hrecv).
  unfold exec_thread, parent_req in Hex. rewrite Hpc, Nat.ltb_irrefl in Hex. injection Hex as <- <- <-.
  assert (q_recv p = map (fun i => D i k) (seq 0 P)) as Erecv.
  { apply list_eq_same_length with P; [by rewrite length_map, length_seq|done|].
    intros j x y Hj Hx Hy. rewrite (Hrecv j Hj) in Hx. injection Hx as <-.
    rewrite list_lookup_fmap in Hy. apply fmap_Some in Hy as (i & Hi & ->).
    apply lookup_seq in Hi as [-> _]. done. }
  assert (q_pc (decide_round E L p) = PSend 0 (ord k)) as Epc.
  { unfold decide_round. simpl. f_equal. rewrite Erecv, Hcount. unfold D.
    rewrite (block_diffs N P lo hi (U k) Hpart). fold (stop k).
    destruct K_spec as (HK1 & HK2 & _). unfold ord. case_decide as HSk.
    - replace (K - 1) with k in HK1 by lia. by rewrite HK1.
    - by rewrite HK2 by lia. }
  exists k, (decide_round E L p). split; [|rewrite Epc, Hpc; simpl; lia].
  apply (Inv_parent rs cs k p); [done|..]; rewrite ?Epc; simpl.
  - split_and!; try done. rewrite Epc. split_and!; [lia|done| |done].
    unfold decide_round. simpl. lia.
  - done.
  - intros j Hj. pose proof (iv_cp _ _ _ _ _ HI j Hj) as Hcp. rewrite Hpc in Hcp. simpl in Hcp.
    by rewrite (proj2 (Nat.ltb_lt j P)) in Hcp.
  - intros j Hj. pose proof (iv_ord _ _ _ _ _ HI j Hj) as Ho. by rewrite Hpc in Ho.
Qed.

Lemma parent_send i z s' :
  q_pc p = PSend i z -> i < P -> exec N P lo hi E L cap s None = Some s' -> pmoved s'.
Proof.
  intros Hpc Hi (q & o & t & Hex & ->)%exec_parent.
  destruct (iv_parent _ _ _ _ _ HI) as [_ (Hu & Hl & Ht & Hb & Hp)]. rewrite Hpc in Hp.
  destruct Hp as (_ & Hk & Hcount & Hz). pose proof (room_order i z Hpc Hi) as Ho0.
  erewrite exec_writeO in Hex;
    [|unfold parent_req; rewrite Hpc, (proj2 (Nat.ltb_lt _ _) Hi); reflexivity|rewrite Ho0; simpl; nia].
  injection Hex as <- <- <-. exists k, (p <| q_pc := PSend (S i) z |>).
  split; [|rewrite Hpc; simpl; lia].
  apply (Inv_parent rs cs k p); [done|..]; simpl.
  - by split_and!.
  - done.
  - intros j Hj. pose proof (iv_cp _ _ _ _ _ HI j Hj) as Hcp. by rewrite Hpc in Hcp.
  - intros j Hj. pose proof (iv_ord _ _ _ _ _ HI j Hj) as Ho. rewrite Hpc in Ho. simpl in Ho.
    destruct (decide (j = i)) as [->|Hne].
    + rewrite fn_lookup_insert, (proj2 (Nat.ltb_lt i (S i))) by lia. rewrite Nat.ltb_irrefl in Ho.
      rewrite Hz. by apply (fifo_push (fun n => [ord n])).
    + rewrite fn_lookup_insert_ne by done. replace (j <? S i) with (j <? i); [done|].
      apply eq_true_iff_eq. rewrite !Nat.ltb_lt. lia.
Qed.

Lemma parent_next_round z s' :
  q_pc p = PSend P z -> exec N P lo hi E L cap s None = Some s' -> pmoved s'.
Proof.
  intros Hpc (q & o & t & Hex & ->)%exec_parent.
  destruct (iv_parent _ _ _ _ _ HI) as [_ (Hu & Hl & Ht & Hb & Hp)]. rewrite Hpc in Hp.
  destruct Hp as (_ & Hk & Hcount & Hz). pose proof (pt_some _ _ _ _ Hpart) as HP.
  unfold exec_thread, parent_req in Hex. rewrite Hpc, Nat.ltb_irrefl in Hex. injection Hex as <- <- <-.
  assert (forall j, j < P -> sentOrder k (q_pc p) j = S k) as Hso.
  { intros j Hj. rewrite Hpc. simpl. by rewrite (proj2 (Nat.ltb_lt j P)). }
  assert (z = 1%Z /\ S k = K \/ z = 0%Z /\ S k < K) as [[-> HK]|[-> HK]].
  { rewrite Hz. unfold ord. case_decide; [by left|right; lia]. }
  - exists K, (p <| q_pc := PRows 0 (lo 0) |>). split; cycle 1.
    { rewrite Hpc. simpl. rewrite (proj2 (Nat.ltb_lt 0 P)) by done.
      destruct (lo_hi 0 HP) as (? & ? & ?). replace (K - k) with 1 by lia. nia. }
    apply (Inv_parent rs cs k p); [done|..]; simpl.
    + split_and!; try done. simpl. destruct (lo_hi 0 HP) as (? & ? & ?). split_and!; [lia|lia|].
      rewrite (pt_first _ _ _ _ Hpart). intros l Hl0. destruct (0 <? P) eqn:E0; [lia|].
      by apply Nat.ltb_ge in E0; lia.
    + done.
    + intros j Hj. pose proof (iv_cp _ _ _ _ _ HI j Hj) as Hcp. rewrite Hpc in Hcp. simpl in Hcp.
      rewrite HK in Hcp. by destruct j.
    + intros j Hj. pose proof (iv_ord _ _ _ _ _ HI j Hj) as Ho. by rewrite (Hso j Hj), HK in Ho.
  - exists (S k), (p <| q_pc := PRecv 0 |>). split; cycle 1.
    { rewrite Hpc. cbn -[Nat.mul Nat.sub]. replace (K - k) with (S (K - S k)) by lia.
      assert (2 * P + 3 < (P + 3) * (N + 5)) by nia. rewrite Nat.mul_succ_l. lia. }
    apply (Inv_parent rs cs k p); [done|..]; simpl.
    + split_and!; try done. simpl. split_and!; [lia|done|done|]. intros j Hj. lia.
    + done.
    + intros j Hj. pose proof (iv_cp _ _ _ _ _ HI j Hj) as Hcp. by rewrite Hpc in Hcp.
    + intros j Hj. pose proof (iv_ord _ _ _ _ _ HI j Hj) as Ho. by rewrite (Hso j Hj) in Ho.
Qed.

Lemma parent_row i l s' :
  q_pc p = PRows i l -> i < P -> l <= hi i -> exec N P lo hi E L cap s None = Some s' -> pmoved s'.
Proof.
  intros Hpc Hi Hle (q & o & t & Hex & ->)%exec_parent.
  destruct (iv_parent _ _ _ _ _ HI) as [_ (Hu & Hl & Ht & Hb & Hp)]. rewrite Hpc in Hp.
  destruct Hp as (_ & Hrange & Hrows). specialize (Hrange Hi).
  destruct (lo_hi i Hi) as (Hb1 & Hb2 & Hb3).
  rewrite (proj2 (Nat.ltb_lt i P)) in Hrows by done.
  destruct (iv_cp _ _ _ _ _ HI i Hi) as (q1 & q2 & Eq & H1 & H2). rewrite Hpc in H1, H2.
  simpl in H1, H2. rewrite Nat.ltb_irrefl, Nat.eqb_refl in H2.
  apply fifo_same in H1 as [_ ->]; [|by apply sentDiff_K]. simpl in Eq. subst q2.
  assert (parent_req N P lo hi E L p = ReadF (CP i) N (fun ws =>
    p <| q_u := put_row (q_u p) l ws |> <| q_pc := PRows i (S l) |>)) as Hreq.
  { unfold parent_req. by rewrite Hpc, (proj2 (Nat.ltb_lt _ _) Hi), (proj2 (Nat.leb_le _ _) Hle). }
  assert (n_f s (CP i) <> []) as Hne.
  { destruct (exec_read_ready _ _ _ _ _ _ _ _ _ _ _ Hreq Hex) as [?|Hcl]; [done|].
    destruct (exited_K i Hi Hcl) as [Ej _]. rewrite Ej in H2. simpl in H2.
    destruct (fifo_head _ _ _ _ H2 ltac:(lia)) as (q' & -> & _). intros [E0 _]%app_eq_nil.
    by apply (row_nonempty K l); [lia|]. }
  rewrite (exec_read _ _ _ _ _ _ _ _ _ _ Hreq Hne) in Hex. injection Hex as <- <- <-.
  destruct (fifo_pop _ _ _ _ N H2 Hne) as (Hlt & Etake & H2'); [apply length_row_U; lia|].
  rewrite Etake. assert (length (row (U K) l) = N) as Hlen by (apply length_row_U; lia).
  exists k, (p <| q_u := put_row (q_u p) l (row (U K) l) |> <| q_pc := PRows i (S l) |>).
  split; [|rewrite Hpc; simpl; rewrite (proj2 (Nat.ltb_lt i P)) by done; destruct (hi i); lia].
  apply (Inv_parent rs cs k p); [done|..]; simpl.
  - split_and!; simpl; [apply grid_ok_put_row; (done || lia)|done|..].
    1, 2: rewrite row_put_row by (done || lia); by rewrite decide_False by lia.
    rewrite (proj2 (Nat.ltb_lt i P)) by done. split_and!; [lia..|].
    intros m Hm. rewrite row_put_row by (done || lia). case_decide; [by subst|]. apply Hrows. lia.
  - frame.
  - intros j Hj. destruct (decide (j = i)) as [->|Hne'].
    + rewrite Nat.ltb_irrefl, Nat.eqb_refl, fn_lookup_insert. eexists [], _. split_and!; [done| |done].
      destruct (iv_cp _ _ _ _ _ HI i Hi) as (q1 & q2 & _ & Hd & _). rewrite Hpc in Hd. simpl in Hd.
      pose proof (sentDiff_K i Hi). apply fifo_same in Hd as [<- _]; [apply fifo_nil|done].
    + rewrite fn_lookup_insert_ne by congruence. pose proof (iv_cp _ _ _ _ _ HI j Hj) as Hcp.
      rewrite Hpc in Hcp. simpl in Hcp. by rewrite (proj2 (Nat.eqb_neq j i)) in Hcp |- * by done.
  - intros j Hj. pose proof (iv_ord _ _ _ _ _ HI j Hj) as Ho. by rewrite Hpc in Ho.
Qed.

Lemma parent_next_block i l s' :
  q_pc p = PRows i l -> i < P -> hi i < l -> exec N P lo hi E L cap s None = Some s' -> pmoved s'.
Proof.
  intros Hpc Hi Hgt (q & o & t & Hex & ->)%exec_parent.
  destruct (iv_parent _ _ _ _ _ HI) as [_ (Hu & Hl & Ht & Hb & Hp)]. rewrite Hpc in Hp.
  destruct Hp as (_ & Hrange & Hrows). specialize (Hrange Hi).
  rewrite (proj2 (Nat.ltb_lt i P)) in Hrows by done.
  unfold exec_thread, parent_req in Hex.
  rewrite Hpc, (proj2 (Nat.ltb_lt _ _) Hi), (proj2 (Nat.leb_gt _ _) Hgt) in Hex. injection Hex as <- <- <-.
  exists k, (p <| q_pc := PRows (S i) (lo (S i)) |>). split; cycle 1.
  { rewrite Hpc. cbn -[Nat.mul Nat.sub Nat.ltb]. rewrite (proj2 (Nat.ltb_lt i P)) by done.
    replace (P - i) with (S (P - S i)) by lia. rewrite Nat.mul_succ_l.
    destruct (Nat.ltb_spec (S i) P) as [HS|]; [destruct (lo_hi (S i) HS) as (? & ? & ?); lia|lia]. }
  apply (Inv_parent rs cs k p); [done|..]; simpl.
  - split_and!; try done. cbn -[Nat.ltb]. split_and!; [lia|..].
    + intros HS. destruct (lo_hi (S i) HS). lia.
    + intros m Hm. apply Hrows. destruct (Nat.ltb_spec (S i) P) as [HS|HS].
      * pose proof (next_block i HS). lia.
      * pose proof (pt_last _ _ _ _ Hpart) as HlP. replace (P - 1) with i in HlP by lia. lia.
  - done.
  - intros j Hj. pose proof (iv_cp _ _ _ _ _ HI j Hj) as Hcp. rewrite Hpc in Hcp.
    cbn -[Nat.ltb Nat.eqb] in Hcp |- *.
    replace (if j <? S i then S (hi j) else if j =? S i then lo (S i) else lo j)
      with (if j <? i then S (hi j) else if j =? i then l else lo j); [done|].
    destruct (Nat.ltb_spec j (S i)), (Nat.ltb_spec j i), (Nat.eqb_spec j i), (Nat.eqb_spec j (S i));
      subst; lia.
  - intros j Hj. pose proof (iv_ord _ _ _ _ _ HI j Hj) as Ho. by rewrite Hpc in Ho.
Qed.

Lemma grid_ext (u v : grid) : grid_ok N u -> grid_ok N v -> (forall l, l < N -> row u l = row v l) -> u = v.
Proof.
  intros [Hu _] [Hv _] H. apply list_eq_same_length with N; [done..|].
  intros i x y Hi Hx Hy. specialize (H i Hi). unfold row in H.
  by rewrite (nth_lookup_Some u i [] x Hx), (nth_lookup_Some v i [] y Hy) in H.
Qed.

Lemma parent_finish l s' :
  q_pc p = PRows P l -> exec N P lo hi E L cap s None = Some s' -> pmoved s'.
Proof.
  intros Hpc (q & o & t & Hex & ->)%exec_parent.
  destruct (iv_parent _ _ _ _ _ HI) as [_ (Hu & Hl & Ht & Hb & Hp)]. rewrite Hpc in Hp.
  destruct Hp as (_ & _ & Hrows). rewrite Nat.ltb_irrefl in Hrows.
  unfold exec_thread, parent_req in Hex. rewrite Hpc, Nat.ltb_irrefl in Hex. injection Hex as <- <- <-.
  exists k, (p <| q_pc := PDone |>). split; [|rewrite Hpc; simpl; lia].
  apply (Inv_parent rs cs k p); [done|..]; simpl.
  - split_and!; try done. simpl. apply grid_ext; [done|apply grid_ok_U|]. intros m Hm.
    destruct (decide (m = 0)) as [->|]; [by rewrite Ht, row_U_border by lia|].
    destruct (decide (m = N - 1)) as [->|]; [by rewrite Hb, row_U_border by lia|]. apply Hrows. lia.
  - done.
  - intros j Hj. pose proof (iv_cp _ _ _ _ _ HI j Hj) as Hcp. rewrite Hpc in Hcp. simpl in Hcp.
    by rewrite (proj2 (Nat.ltb_lt j P)) in Hcp.
  - intros j Hj. pose proof (iv_ord _ _ _ _ _ HI j Hj) as Ho. by rewrite Hpc in Ho.
Qed.

Lemma parent_moves s' : exec N P lo hi E L cap s None = Some s' -> pmoved s'.
Proof.
  intros Hex. destruct (iv_parent _ _ _ _ _ HI) as [_ (_ & _ & _ & _ & Hp)].
  destruct (q_pc p) as [i|i z|i j|] eqn:Hpc.
  - destruct (decide (i = P)) as [->|]; [by apply parent_decide|]. apply (parent_recv i); [done|lia|done].
  - destruct (decide (i = P)) as [->|]; [by apply (parent_next_round z)|].
    apply (parent_send i z); [done|lia|done].
  - destruct (decide (i = P)) as [->|]; [by apply (parent_finish j)|].
    destruct (decide (j <= hi i)); [apply (parent_row i j)|apply (parent_next_block i j)]; (done || lia).
  - apply exec_parent in Hex as (q & o & t & Hex & _). unfold exec_thread, parent_req in Hex.
    by rewrite Hpc in Hex.
Qed.
End state.

(** *** Every step keeps the invariant and brings the end nearer *)

Definition remaining (rs : nat -> nat) (cs : nat -> @child F) (k : nat) (p : @parent F) : nat :=
  prem k (q_pc p) + sum_list (map (fun i => crem i (rs i) (c_pc (cs i))) (seq 0 P)).

Lemma sum_list_lt (f g : nat -> nat) n i :
  i < n -> (forall j, j <> i -> f j = g j) -> f i < g i ->
  sum_list (map f (seq 0 n)) < sum_list (map g (seq 0 n)).
Proof.
  intros Hi Hsame Hlt. induction n as [|n IH]; [lia|].
  rewrite !seq_S, !map_app, !sum_list_with_app. simpl.
  destruct (decide (i = n)) as [->|Hne].
  - rewrite (map_ext_in f g); [lia|]. intros j Hj%in_seq. apply Hsame. lia.
  - specialize (IH ltac:(lia)). rewrite (Hsame n) by done. lia.
Qed.

Lemma step_Inv rs cs k p s s' :
  Inv rs cs k p s -> step N P lo hi E L cap s s' ->
  exists rs' cs' k' p', Inv rs' cs' k' p' s' /\ remaining rs' cs' k' p' < remaining rs cs k p.
Proof.
  intros HI [i t Hi Hex|t Hex].
  - destruct (child_moves _ _ _ _ _ HI i t Hi Hex) as (r' & c' & HI' & Hlt).
    eexists _, _, k, p. split; [exact HI'|]. unfold remaining.
    apply Nat.add_lt_mono_l. apply (sum_list_lt _ _ P i Hi).
    + intros j Hj. by rewrite !fn_lookup_insert_ne.
    + by rewrite !fn_lookup_insert.
  - destruct (parent_moves _ _ _ _ _ HI t Hex) as (k' & p' & HI' & Hlt).
    exists rs, cs, k', p'. split; [done|]. unfold remaining. lia.
Qed.

(** *** Some process can always move *)

Section progress.
Context (rs : nat -> nat) (cs : nat -> @child F) (k : nat) (p : @parent F) (s : @net F).
Context (HI : Inv rs cs k p s).
Abbreviation can who := (is_Some (exec N P lo hi E L cap s who)).

Lemma can_child i x :
  i < P ->
  exec_thread cap (closedF s) (closedO s) (child_req N P lo hi i) (n_f s) (n_o s) (Run (cs i)) = Some x ->
  can (Some i).
Proof.
  intros Hi Hex. unfold exec. destruct (iv_child _ _ _ _ _ HI i Hi) as [-> _]. rewrite Hex.
  destruct x as [[q o] t]. by eexists.
Qed.

Lemma can_parent x :
  exec_thread cap (closedF s) (closedO s) (parent_req N P lo hi E L) (n_f s) (n_o s) (Run p) = Some x ->
  can None.
Proof.
  intros Hex. unfold exec. destruct (iv_parent _ _ _ _ _ HI) as [-> _]. rewrite Hex.
  destruct x as [[q o] t]. by eexists.
Qed.

(** A worker that is not reading can move. *)
Lemma can_write i :
  i < P -> match c_pc (cs i) with KRecvUp | KRecvDown | KRecvOrder | KExit => False | _ => True end ->
  can (Some i).
Proof.
  intros Hi Hpc. destruct (iv_child _ _ _ _ _ HI i Hi) as [_ (Hu & _ & Hc)].
  destruct (lo_hi i Hi) as (Hb1 & Hb2 & Hb3).
  destruct (c_pc (cs i)) as [| | | | | | |l|] eqn:E0; try done.
  - destruct i as [|j].
    + eapply can_child; [done|]. unfold exec_thread, child_req. by rewrite E0.
    + eapply can_child; [done|]. apply exec_write with (x' := (cs (S j)) <| c_pc := KSendDown |>)
        (c := Up j) (ws := row (c_u (cs (S j))) (lo (S j))).
      * unfold child_req. rewrite E0. by replace (S j - 1) with j by lia.
      * rewrite (room_up _ _ _ _ _ HI j Hi E0), (proj2 Hu) by lia. simpl. nia.
  - destruct (Nat.ltb_spec (S i) P) as [HS|HS].
    + eapply can_child; [done|]. eapply exec_write.
      * unfold child_req. by rewrite E0, (proj2 (Nat.ltb_lt _ _) HS).
      * rewrite (room_down _ _ _ _ _ HI i HS E0), (proj2 Hu) by lia. simpl. nia.
    + eapply can_child; [done|]. unfold exec_thread, child_req. by rewrite E0, (proj2 (Nat.ltb_ge _ _) HS).
  - eapply can_child; [done|]. unfold exec_thread, child_req. by rewrite E0.
  - eapply can_child; [done|]. eapply exec_write.
    + unfold child_req. by rewrite E0.
    + rewrite (room_diff _ _ _ _ _ HI i Hi E0). simpl. nia.
  - destruct (Nat.leb_spec l (hi i)) as [Hl|Hl].
    + eapply can_child; [done|]. eapply exec_write.
      * unfold child_req. by rewrite E0, (proj2 (Nat.leb_le _ _) Hl).
      * rewrite (proj2 Hu) by lia. by apply (room_row _ _ _ _ _ HI i l).
    + eapply can_child; [done|]. unfold exec_thread, child_req. by rewrite E0, (proj2 (Nat.leb_gt _ _) Hl).
Qed.

Lemma can_order i : i < P -> c_pc (cs i) = KRecvOrder -> rs i < sentOrder k (q_pc p) i -> can (Some i).
Proof.
  intros Hi Hpc Hlt. eapply can_child; [done|]. eapply exec_readO; [unfold child_req; by rewrite Hpc|].
  by apply (fifo_ready _ _ _ _ (iv_ord _ _ _ _ _ HI i Hi)).
Qed.

Lemma can_recv_up i :
  i < P -> c_pc (cs i) = KRecvUp -> (forall j, S j = i -> rs i < sentD (rs j) (c_pc (cs j))) -> can (Some i).
Proof.
  intros Hi Hpc Hlt. destruct i as [|j]; (eapply can_child; [done|]).
  - unfold exec_thread, child_req. by rewrite Hpc.
  - pose proof (iv_down _ _ _ _ _ HI j Hi) as Hf. rewrite Hpc in Hf. destruct (lo_hi j ltac:(lia)) as (? & ? & ?).
    eapply exec_read.
    + unfold child_req. rewrite Hpc. by replace (S j - 1) with j by lia.
    + apply (fifo_ready _ _ _ _ Hf); [by apply Hlt|]. intros n. apply row_nonempty. lia.
Qed.

Lemma can_recv_down i :
  i < P -> c_pc (cs i) = KRecvDown -> (S i < P -> rs i < sentU (rs (S i)) (c_pc (cs (S i)))) -> can (Some i).
Proof.
  intros Hi Hpc Hlt. destruct (Nat.ltb_spec (S i) P) as [HS|HS]; (eapply can_child; [done|]).
  - pose proof (iv_up _ _ _ _ _ HI i HS) as Hf. rewrite Hpc in Hf. destruct (lo_hi (S i) HS) as (? & ? & ?).
    eapply exec_read.
    + unfold child_req. by rewrite Hpc, (proj2 (Nat.ltb_lt _ _) HS).
    + apply (fifo_ready _ _ _ _ Hf); [by apply Hlt|]. intros n. apply row_nonempty. lia.
  - unfold exec_thread, child_req. by rewrite Hpc, (proj2 (Nat.ltb_ge _ _) HS).
Qed.

(** The worker the parent is waiting for, at a difference, can move, or the
    worker below it can. *)
Lemma can_diff i :
  i < P -> q_pc p = PRecv i -> sentDiff (rs i) (c_pc (cs i)) = k -> exists who, can who /\ (forall j, who = Some j -> j < P).
Proof.
  intros Hi Hq Hd. destruct (iv_child _ _ _ _ _ HI i Hi) as [_ (_ & _ & Hc)].
  destruct (iv_parent _ _ _ _ _ HI) as [_ (_ & _ & _ & _ & Hp)]. rewrite Hq in Hp. destruct Hp as (_ & Hk & _).
  assert (sentOrder k (q_pc p) i = k) as Ho by by rewrite Hq.
  pose proof (can_write i Hi) as Hw. pose proof (can_order i Hi) as Hor.
  pose proof (can_recv_up i Hi) as Hup. pose proof (can_recv_down i Hi) as Hdn.
  destruct (c_pc (cs i)) eqn:E0; simpl in Hd; try (exists (Some i); split; [by auto|by intros j [= <-]]).
  - exists (Some i). split; [|by intros j [= <-]]. apply Hup; [done|]. intros j <-.
    destruct (sync _ _ _ _ _ HI (S j) j) as [_ Hs]; [lia..|]. rewrite Hq in Hs. simpl in Hs.
    rewrite (proj2 (Nat.ltb_lt j (S j))) in Hs by lia.
    destruct (c_pc (cs j)); simpl in *; lia.
  - destruct (decide (S i < P)) as [HS|HS]; [|exists (Some i); split; [apply Hdn; [done|lia]|by intros j [= <-]]].
    destruct (sync _ _ _ _ _ HI i (S i)) as [_ Hs]; [lia..|]. rewrite Hq in Hs. simpl in Hs.
    rewrite (proj2 (Nat.ltb_ge (S i) i)) in Hs by lia.
    destruct (decide (rs i < sentU (rs (S i)) (c_pc (cs (S i))))) as [Hlt|Hge];
      [exists (Some i); split; [by apply Hdn|by intros j [= <-]]|].
    exists (Some (S i)). split; [|by intros j [= <-]].
    destruct (iv_child _ _ _ _ _ HI (S i) HS) as [_ (_ & _ & Hc')].
    pose proof (can_write (S i) HS) as Hw'. pose proof (can_order (S i) HS) as Hor'.
    assert (sentOrder k (q_pc p) (S i) = k) as Ho' by by rewrite Hq.
    destruct (c_pc (cs (S i))) eqn:E1; simpl in *; try lia; [by apply Hw'|]. apply Hor'; [done|lia].
  - exists (Some i). split; [|by intros j [= <-]]. apply Hor; [done|lia].
  - exfalso. simpl in Hc. lia.
Qed.

(** The worker that has received its last order, or is about to, can move
    unless it has sent all its rows. *)
Lemma can_last i :
  i < P -> match q_pc p with PRows _ _ | PDone => True | _ => False end -> c_pc (cs i) <> KExit -> can (Some i).
Proof.
  intros Hi Hq Hne. destruct (iv_child _ _ _ _ _ HI i Hi) as [_ (_ & _ & Hc)].
  destruct (sync _ _ _ _ _ HI i i Hi Hi) as [_ Hs].
  assert (recvDiff k (q_pc p) i = K /\ sentOrder k (q_pc p) i = K) as [Hr Ho] by by destruct (q_pc p).
  pose proof (can_write i Hi) as Hw. pose proof (can_order i Hi) as Hor.
  destruct (c_pc (cs i)) eqn:E0; simpl in *; try lia; try done; [|by apply Hw]. apply Hor; [done|lia].
Qed.

Lemma can_rows i j : i < P -> q_pc p = PRows i j -> exists who, can who /\ (forall j, who = Some j -> j < P).
Proof.
  intros Hi Hq. destruct (decide (j <= hi i)) as [Hj|Hj].
  2:{ exists None. split; [|done]. eapply can_parent. unfold exec_thread, parent_req.
      rewrite Hq, (proj2 (Nat.ltb_lt _ _) Hi), (proj2 (Nat.leb_gt _ _)) by lia. done. }
  destruct (decide (exited (Run (cs i)) = true)) as [He|He].
  2:{ exists (Some i). split; [|by intros j' [= <-]]. apply can_last; [done|by rewrite Hq|].
      intros E0. apply He. simpl. by rewrite E0. }
  assert (c_pc (cs i) = KExit) as E0 by (simpl in He; by destruct (c_pc (cs i))).
  exists None. split; [|done]. eapply can_parent. eapply exec_read.
  - unfold parent_req. rewrite Hq, (proj2 (Nat.ltb_lt _ _) Hi), (proj2 (Nat.leb_le _ _) Hj). done.
  - destruct (iv_cp _ _ _ _ _ HI i Hi) as (q1 & q2 & -> & _ & Hf). rewrite Hq, E0 in Hf. simpl in Hf.
    rewrite Nat.ltb_irrefl, Nat.eqb_refl in Hf. destruct (lo_hi i Hi) as (? & ? & ?).
    destruct (fifo_head _ _ _ _ Hf) as (q' & -> & _); [lia|].
    intros [_ [Hn _]%app_eq_nil]%app_eq_nil. by apply (row_nonempty K j) in Hn; [|lia].
Qed.

(** No state short of the end is stuck. *)
Lemma Inv_progress : finished P s \/ exists s', step N P lo hi E L cap s s'.
Proof.
  assert ((exists who, can who /\ (forall j, who = Some j -> j < P)) -> exists s', step N P lo hi E L cap s s') as Hcan.
  { intros (who & [s' Hs] & Hb). exists s'. destruct who as [i|]; [by apply (step_child _ _ _ _ _ _ _ _ i); auto|].
    by apply step_parent. }
  destruct (iv_parent _ _ _ _ _ HI) as [Et (_ & _ & _ & _ & Hp)].
  destruct (q_pc p) as [i|i z|i j|] eqn:Hq.
  - right. apply Hcan. destruct (Nat.ltb_spec i P) as [Hi|Hi].
    + destruct (iv_cp _ _ _ _ _ HI i Hi) as (q1 & q2 & Eq & Hf & _).
      rewrite Hq in Hf. simpl in Hf. rewrite Nat.ltb_irrefl in Hf.
      destruct (decide (sentDiff (rs i) (c_pc (cs i)) = k)) as [|Hne]; [by apply (can_diff i)|].
      exists None. split; [|done]. eapply can_parent. eapply exec_read.
      * unfold parent_req. by rewrite Hq, (proj2 (Nat.ltb_lt _ _) Hi).
      * destruct (fifo_head _ _ _ _ Hf) as (q' & -> & _); [destruct Hf; lia|]. by rewrite Eq.
    + exists None. split; [|done]. eapply can_parent. unfold exec_thread, parent_req.
      by rewrite Hq, (proj2 (Nat.ltb_ge _ _) Hi).
  - right. apply Hcan. exists None. split; [|done]. destruct (Nat.ltb_spec i P) as [Hi|Hi]; eapply can_parent.
    + eapply exec_writeO; [unfold parent_req; by rewrite Hq, (proj2 (Nat.ltb_lt _ _) Hi)|].
      rewrite (room_order _ _ _ _ _ HI i z Hq Hi). simpl. nia.
    + unfold exec_thread, parent_req. by rewrite Hq, (proj2 (Nat.ltb_ge _ _) Hi).
  - right. apply Hcan. destruct (Nat.ltb_spec i P) as [Hi|Hi]; [by apply (can_rows i j)|].
    exists None. split; [|done]. eapply can_parent. unfold exec_thread, parent_req.
    by rewrite Hq, (proj2 (Nat.ltb_ge _ _) Hi).
  - destruct (decide (Forall (fun i => exited (n_child s i) = true) (seq 0 P))) as [Hall|Hex].
    + left. split; [rewrite Et; simpl; by rewrite Hq|]. intros i Hi.
      rewrite Forall_forall in Hall. apply Hall, elem_of_seq. lia.
    + right. apply Hcan. apply not_Forall_Exists, Exists_exists in Hex as (i & Hi%elem_of_seq & Hne); [|apply _].
      exists (Some i). split; [|intros j [= <-]; lia]. apply can_last; [lia|by rewrite Hq|].
      intros E0. apply Hne. destruct (iv_child _ _ _ _ _ HI i) as [-> _]; [lia|]. simpl. by rewrite E0.
Qed.
End progress.

(** *** All schedules *)

(** A schedule of [n] steps leads to a correct state and uses up [n] units of
    the work to do. *)
Lemma reach n s :
  nsteps (step N P lo hi E L cap) n (start P u0) s ->
  exists rs cs k p, Inv rs cs k p s /\
    n + remaining rs cs k p <= S (Z.to_nat L) * ((P + 3) * (N + 5) + P * (N + 10)) + 10 * P + 3.
Proof.
  revert s. induction n as [|n IH]; intros s H.
  - inversion H; subst. do 4 eexists. split; [apply Inv_start|]. unfold remaining, prem, crem. cbn [q_pc c_pc].
    destruct K_spec as (_ & _ & HK).
    assert (forall m, sum_list (map (fun _ => (K - 0) * (N + 10) + 8) (seq 0 m)) = m * ((K - 0) * (N + 10) + 8)) as ->.
    { induction m as [|m IHm]; [done|]. rewrite seq_S, map_app, sum_list_with_app, IHm. simpl. lia. }
    rewrite !Nat.sub_0_r.
    apply Nat.le_trans with (K * ((P + 3) * (N + 5) + P * (N + 10)) + 10 * P + 3).
    { replace (P * (K * (N + 10) + 8)) with (K * (P * (N + 10)) + 8 * P) by nia.
      rewrite Nat.mul_add_distr_l. lia. }
    apply Nat.add_le_mono_r, Nat.add_le_mono_r, Nat.mul_le_mono_r. lia.
  - apply nsteps_inv_r in H as (s1 & H1 & Hs). destruct (IH _ H1) as (rs & cs & k & p & HI & Hn).
    destruct (step_Inv _ _ _ _ _ _ HI Hs) as (rs' & cs' & k' & p' & HI' & Hlt).
    exists rs', cs', k', p'. split; [done|lia].
Qed.

Lemma reach_Inv s : rtc (step N P lo hi E L cap) (start P u0) s -> exists rs cs k p, Inv rs cs k p s.
Proof. intros [n Hn]%rtc_nsteps_1. destruct (reach n s Hn) as (rs & cs & k & p & HI & _). eauto. Qed.

(** The loop of the reference makes [K] sweeps. *)
Lemma seq_loop_U n k :
  k < K -> K <= k + S n -> seq_loop N E L n (Z.of_nat k) (U k) = U K.
Proof.
  destruct K_spec as (Hlast & Hbefore & _). revert k. induction n as [|n IH]; intros k Hk Hn.
  - assert (K = S k) as HK by lia. rewrite HK. simpl. by destruct (_ || _)%bool.
  - cbn [seq_loop]. change (fleb (total_diff N (U k)) E || (L <? Z.of_nat k + 1)%Z)%bool with (stop k).
    change (sweep N (U k)) with (U (S k)). destruct (decide (S k = K)) as [HK|HK].
    + rewrite <- HK in Hlast. replace (S k - 1) with k in Hlast by lia. rewrite Hlast. by rewrite HK.
    + rewrite Hbefore by lia. replace (Z.of_nat k + 1)%Z with (Z.of_nat (S k)) by lia. apply IH; lia.
Qed.

Lemma jacobi_seq_U : jacobi_seq N E L u0 = U K.
Proof.
  destruct K_spec as (_ & _ & HK). apply (seq_loop_U (Z.to_nat L) 0); [|lia]. unfold K. lia.
Qed.

Lemma reach_result s :
  rtc (step N P lo hi E L cap) (start P u0) s -> done (n_parent s) = true ->
  exists p, n_parent s = Run p /\ q_u p = jacobi_seq N E L u0.
Proof.
  intros (rs & cs & k & p & HI)%reach_Inv Hd. destruct (iv_parent _ _ _ _ _ HI) as [Et (_ & _ & _ & _ & Hp)].
  exists p. split; [done|]. rewrite Et in Hd. simpl in Hd. rewrite jacobi_seq_U. by destruct (q_pc p).
Qed.
End correct.

(** ** The program *)

Lemma length_put_at {F} (u : list (list F)) i j x : length (put_at u i j x) = length u.
Proof. apply length_alter. Qed.

Lemma row_put_at {F} N (u : list (list F)) i j x : grid_ok N u -> grid_ok N (put_at u i j x).
Proof.
  intros [Hl Hr]. split; [by rewrite length_put_at|]. intros l Hlt. specialize (Hr l Hlt).
  unfold row, put_at in *. rewrite !nth_lookup in *. rewrite list_lookup_alter. case_decide as Hd; [subst|done].
  destruct (u !! l); [|done]. simpl in *. by rewrite length_insert.
Qed.

Lemma grid_ok_fold {F A} N (f : list (list F) -> A -> list (list F)) l u :
  (forall v a, grid_ok N v -> grid_ok N (f v a)) -> grid_ok N u -> grid_ok N (foldl f u l).
Proof. intros Hf. revert u. induction l as [|a l IH]; simpl; auto. Qed.

Lemma grid_ok_init {F} {FO : FloatOps F} N T : grid_ok N (init_grid N T).
Proof.
  unfold init_grid. destruct (foldl (init_border N T) _ _) as [u mean] eqn:Eb.
  apply grid_ok_fold; [intros v [i j]; apply row_put_at|].
  assert (forall l st, grid_ok N st.1 -> grid_ok N (foldl (init_border N T) st l).1) as H.
  { induction l as [|i l IH]; intros [v m] Hv; simpl; [done|]. apply IH. unfold init_border. simpl in *.
    repeat apply row_put_at. done. }
  specialize (H (seq 0 N) (replicate N (replicate N (fofZ 0)), fofZ 0)). rewrite Eb in H. apply H. simpl.
  split; [apply length_replicate|]. intros i Hi. unfold row. rewrite nth_lookup, lookup_replicate_2 by done.
  apply length_replicate.
Qed.

(** The number of words that fit in a pipe. *)
Definition pipe_words : nat := Z.to_nat (PIPESIZE / 4).

Lemma step_cap {F} {FO : FloatOps F} N P lo hi E L cap (s s' : @net F) :
  step N P lo hi E L cap s s' -> (forall c, length (n_f s c) <= cap) -> forall c, length (n_f s' c) <= cap.
Proof.
  intros [i s1 Hi He|s1 He]; unfold exec in He; repeat case_match; simplify_eq; simpl; by eapply exec_thread_cap.
Qed.

Section program.
Context {F : Type} {FO : FloatOps F} {FL : FloatLaws F}.
Context (N P : nat) (E T : F) (L : Z).

(** A step of [jacob] on an [N] by [N] grid when [P] workers are asked for. *)
Definition jacob_step : @net F -> @net F -> Prop :=
  step N (workers N P) (start_index N P) (end_index N P) E L pipe_words.
Definition jacob_start : @net F := start (workers N P) (init_grid N T).
(** All processes have finished. *)
Definition jacob_finished : @net F -> Prop := finished (workers N P).

Context (HN : 3 <= N <= 23) (HP : 0 < P).

Lemma room : N * (N - 2) <= pipe_words.
Proof. change pipe_words with 512. assert (N - 2 <= 21) as H by lia. nia. Qed.

Let Hpart := blocks_partition N P (proj1 HN) HP.
Let Hu0 := grid_ok_init N T.

(** C2: The parallel program computes what the sequential algorithm computes,
    for [3 <= N <= 23] and any number of processes, once its pipes and
    processes have been created (which in this kernel works up to 8
    processes): in every state the parent and the workers can reach, under any
    schedule, once the parent has collected the rows its grid is the result of
    sweeping the initial grid until the largest change is at most [E], or [L]
    sweeps have been passed. *)
Theorem jacob_correct s :
  rtc jacob_step jacob_start s -> done (n_parent s) = true ->
  exists p, n_parent s = Run p /\ q_u p = jacobi_seq N E L (init_grid N T).
Proof. apply reach_result; [apply HN|apply Hpart|apply Hu0|apply room]. Qed.

(** C12: The program never deadlocks, for [3 <= N <= 23] and once its pipes and
    processes have been created: in every reachable state some process can
    take a step, unless the parent has collected the rows and all workers
    have exited. *)
Theorem jacob_progress s :
  rtc jacob_step jacob_start s -> jacob_finished s \/ exists s', jacob_step s s'.
Proof.
  intros (rs & cs & k & p & HI)%reach_Inv; [|apply HN|apply Hpart|apply Hu0|apply room].
  eapply Inv_progress, HI; [apply HN|apply Hpart|apply Hu0|apply room].
Qed.

(** C13: Every run of the program ends, for [3 <= N <= 23] and once its pipes
    and processes have been created: no schedule has more steps than this
    bound. *)
Theorem jacob_terminates n s :
  nsteps jacob_step n jacob_start s ->
  n <= S (Z.to_nat L) * ((P + 3) * (N + 5) + P * (N + 10)) + 10 * P + 3.
Proof.
  intros (rs & cs & k & p & _ & Hn)%reach; [|apply HN|apply Hpart|apply Hu0|apply room].
  assert (workers N P <= P) as Hw by (unfold workers; lia).
  etransitivity; [etransitivity; [|apply Hn]; lia|]. nia.
Qed.

(** Pipes transfer whole messages: no process is ever left in the middle
    of a write, and no pipe holds more than its capacity. *)
Theorem jacob_whole_messages s :
  rtc jacob_step jacob_start s ->
  (exists p, n_parent s = Run p) /\ (forall i, i < workers N P -> exists c, n_child s i = Run c) /\
  forall c, length (n_f s c) <= pipe_words.
Proof.
  intros Hr. split_and!.
  1, 2: apply reach_Inv in Hr as (rs & cs & k & p & HI); [|apply HN|apply Hpart|apply Hu0|apply room].
  - exists p. apply HI.
  - intros i Hi. exists (cs i). by apply HI.
  - revert s Hr. apply (rtc_ind_r (fun s => forall c, length (n_f s c) <= pipe_words)); [intros c; simpl; lia|].
    intros s1 s2 _. apply step_cap.
Qed.
End program.

(** *** A run in single precision *)

Lemma run_sound {F} {FO : FloatOps F} N P lo hi E L cap (s : @net F) sched :
  forallb (fun w => match w with Some i => i <? P | None => true end) sched = true ->
  rtc (step N P lo hi E L cap) s (run N P lo hi E L cap s sched).
Proof.
  revert s. induction sched as [|w sched IH]; intros s H; simpl; [apply rtc_refl|].
  simpl in H. apply andb_true_iff in H as [Hw H]. destruct (exec N P lo hi E L cap s w) as [s'|] eqn:Ex; simpl; [|auto].
  eapply rtc_l; [|by apply IH]. destruct w as [i|]; [|by apply step_parent].
  apply (step_child _ _ _ _ _ _ _ _ i); [by apply Nat.ltb_lt|done].
Qed.

(** A 5 by 5 grid, two workers, at most four sweeps. *)
Definition example_E : spec_float := fdiv (fofZ 1) (fofZ 1000).
Definition example_run (rounds : nat) : @net spec_float :=
  run 5 2 (start_index 5 2) (end_index 5 2) example_E 3 pipe_words (jacob_start 5 2 (fofZ 10))
    (concat (replicate rounds [None; Some 1; Some 0])).

Lemma example_reach rounds :
  forallb (fun w => match w with Some i => i <? 2 | None => true end) (concat (replicate rounds [None; Some 1; Some 0])) = true ->
  rtc (jacob_step 5 2 example_E 3) (jacob_start 5 2 (fofZ 10)) (example_run rounds).
Proof. apply (run_sound 5 2). Qed.

Lemma jacob_correct_witness :
  exists p, n_parent (example_run 60) = Run p /\ q_u p = jacobi_seq 5 example_E 3 (init_grid 5 (fofZ 10)).
Proof.
  apply (jacob_correct 5 2 example_E (fofZ 10) 3); [lia|lia|by apply example_reach|by vm_compute].
Defined.

Lemma jacob_progress_witness :
  jacob_finished 5 2 (example_run 7) \/ exists s', jacob_step 5 2 example_E 3 (example_run 7) s'.
Proof. apply (jacob_progress 5 2 example_E (fofZ 10) 3); [lia|lia|by apply example_reach]. Defined.

Lemma jacob_terminates_witness :
  exists s, nsteps (jacob_step 5 2 example_E 3) 1 (jacob_start 5 2 (fofZ 10)) s /\
    1 <= S (Z.to_nat 3) * ((2 + 3) * (5 + 5) + 2 * (5 + 10)) + 10 * 2 + 3.
Proof.
  assert (jacob_step 5 2 example_E 3 (jacob_start 5 2 (fofZ 10)) (default (jacob_start 5 2 (fofZ 10))
    (exec 5 2 (start_index 5 2) (end_index 5 2) example_E 3 pipe_words (jacob_start 5 2 (fofZ 10)) (Some 0)))) as H
    by (apply (step_child _ _ _ _ _ _ _ _ 0); [vm_compute; lia|done]).
  eexists. split; [by apply nsteps_once, H|].
  eapply (jacob_terminates 5 2 example_E (fofZ 10) 3); [lia|lia|by apply nsteps_once, H].
Defined.

Lemma jacob_whole_messages_witness :
  (exists p, n_parent (example_run 7) = Run p) /\
  (forall i, i < 2 -> exists c, n_child (example_run 7) i = Run c) /\
  forall c, length (n_f (example_run 7) c) <= pipe_words.
Proof. apply (jacob_whole_messages 5 2 example_E (fofZ 10) 3); [lia|lia|by apply example_reach]. Defined.
