(* ===== verification/JacobiLinux.v ===== *)
(** * The Jacobi solver on Linux (jacoblinux.c)

    The version of [jacob] for a Linux host.  The grid, the division of the
    rows, the parent and the workers are the code of jacob.c, line by line, so
    they are the definitions of Jacobi.v and JacobiNet.v; what differs is that
    the parameters come from [fscanf], that [P] is used as it is (jacob.c
    takes 7 for 8 when [N] is 20), and that a pipe holds 64 kilobytes. *)

From stdpp Require Import base numbers list relations.
From Stdlib Require Import SpecFloat.
From S2P Require Import Prelude Jacobi JacobiNet.

Local Open Scope nat_scope.

(** The default capacity of a pipe, pipe(7), in words. *)
Definition linux_pipe_words : nat := Z.to_nat (65536 / 4).

Section linux.
Context {F : Type} {FO : FloatOps F} {FL : FloatLaws F}.
Context (N P : nat) (E T : F) (L : Z).

Definition linux_grid : list (list F) := init_grid N T.
Definition linux_bounds : list (Z * Z) := bounds N P.
Definition linux_workers : nat := workers N P.
Definition linux_child : nat -> child -> req F child := child_req N linux_workers (start_index N P) (end_index N P).
Definition linux_parent : parent -> req F parent := parent_req N linux_workers (start_index N P) (end_index N P) E L.

Definition linux_exec (s : @net F) (who : option nat) : option net :=
  match who with
  | Some i =>
      match exec_thread linux_pipe_words (closedF s) (closedO s) (linux_child i) (n_f s) (n_o s) (n_child s i) with
      | Some (q, o, t) => Some (MkNet q o (<[i := t]> (n_child s)) (n_parent s))
      | None => None
      end
  | None =>
      match exec_thread linux_pipe_words (closedF s) (closedO s) linux_parent (n_f s) (n_o s) (n_parent s) with
      | Some (q, o, t) => Some (MkNet q o (n_child s) t)
      | None => None
      end
  end.

Definition linux_step (s s' : @net F) : Prop :=
  (exists i, i < linux_workers /\ linux_exec s (Some i) = Some s') \/ linux_exec s None = Some s'.
Definition linux_start : @net F := start linux_workers linux_grid.

(** It is the network of JacobiNet.v with larger pipes. *)
Lemma linux_step_iff s s' : linux_step s s' <-> step N (workers N P) (start_index N P) (end_index N P) E L linux_pipe_words s s'.
Proof.
  split.
  - intros [(i & Hi & He)|He]; [by eapply step_child|by apply step_parent].
  - intros [i s1 Hi He|s1 He]; [left; by exists i|by right].
Qed.

Lemma linux_rtc s s' : rtc linux_step s s' -> rtc (step N (workers N P) (start_index N P) (end_index N P) E L linux_pipe_words) s s'.
Proof. induction 1 as [|x y z Hx _ IH]; [done|]. eapply rtc_l; [by apply linux_step_iff|done]. Qed.

Context (HN : 3 <= N <= 129) (HP : 0 < P).

Lemma linux_room : N * (N - 2) <= linux_pipe_words.
Proof.
  assert (N * (N - 2) <= 129 * 127) as H by (apply Nat.mul_le_mono; lia). apply (Nat.le_trans _ _ _ H). apply Nat.leb_le. by vm_compute.
Qed.

Let Hpart := blocks_partition N P (proj1 HN) HP.
Let Hu0 := grid_ok_init N T.

Lemma linux_progress s : rtc linux_step linux_start s -> finished linux_workers s \/ exists s', linux_step s s'.
Proof.
  intros Hr%linux_rtc. apply reach_Inv in Hr as (rs & cs & k & p & HI); [|apply HN|apply Hpart|apply Hu0|apply linux_room].
  destruct (Inv_progress N (workers N P) (start_index N P) (end_index N P)) with (1 := proj1 HN) (2 := Hpart) (3 := Hu0) (4 := linux_room) (5 := HI) as [H|[s' H]];
    [by left|right; exists s'; by apply linux_step_iff].
Qed.

Lemma linux_result s : rtc linux_step linux_start s -> done (n_parent s) = true ->
  exists p, n_parent s = Run p /\ q_u p = jacobi_seq N E L linux_grid.
Proof. intros Hr%linux_rtc. revert Hr. apply reach_result; [apply HN|apply Hpart|apply Hu0|apply linux_room]. Qed.

Lemma linux_short n s : nsteps linux_step n linux_start s -> n <= S (Z.to_nat L) * ((P + 3) * (N + 5) + P * (N + 10)) + 10 * P + 3.
Proof.
  intros Hr. assert (nsteps (step N (workers N P) (start_index N P) (end_index N P) E L linux_pipe_words) n linux_start s) as Hr'.
  { induction Hr as [|n x y z Hx _ IH]; [constructor|]. econstructor; [by apply linux_step_iff|done]. }
  apply reach in Hr' as (rs & cs & k & p & _ & Hn); [|apply HN|apply Hpart|apply Hu0|apply linux_room].
  assert (workers N P <= P) as Hw by (unfold workers; lia). change linux_workers with (workers N P) in Hn. set (w := workers N P) in *.
  assert ((w + 3) * (N + 5) + w * (N + 10) <= (P + 3) * (N + 5) + P * (N + 10)) as Hm by (apply Nat.add_le_mono; apply Nat.mul_le_mono_r; lia).
  apply (Nat.mul_le_mono_l _ _ (S (Z.to_nat L))) in Hm. lia.
Qed.

(** On a grid of up to 129 by 129 the Linux version never deadlocks, under no
    schedule takes more steps than the bound, and once the parent has the rows
    its grid is the result of the sequential algorithm. *)
Theorem linux_runs n s : nsteps linux_step n linux_start s ->
  n <= S (Z.to_nat L) * ((P + 3) * (N + 5) + P * (N + 10)) + 10 * P + 3 /\
  (finished linux_workers s \/ exists s', linux_step s s') /\
  (done (n_parent s) = true -> exists p, n_parent s = Run p /\ q_u p = jacobi_seq N E L linux_grid).
Proof.
  intros Hn. assert (rtc linux_step linux_start s) as Hr by (by eapply rtc_nsteps_2). split_and!; [by apply linux_short with s|by apply linux_progress|by apply linux_result].
Qed.
End linux.

(** The two versions of the solver agree: for any numbers of workers (also
    where jacob.c takes one less) and any schedules, the parent on Linux and
    the parent on xv6 end with the same grid. *)
Theorem linux_agrees {F} {FO : FloatOps F} {FL : FloatLaws F} N P P' (E T : F) L s t : 3 <= N <= 23 -> 0 < P -> 0 < P' ->
  rtc (linux_step N P E L) (linux_start N P T) s -> done (n_parent s) = true ->
  rtc (jacob_step N P' E L) (jacob_start N P' T) t -> done (n_parent t) = true ->
  exists p p', n_parent s = Run p /\ n_parent t = Run p' /\ q_u p = q_u p'.
Proof.
  intros HN HP HP' Hs Hds Ht Hdt. destruct (linux_result N P E T L ltac:(lia) HP s Hs Hds) as (p & Ep & Eu).
  apply (reach_result N (workers N P')) in Ht as (p' & Ep' & Eu'); [|apply HN|by apply (blocks_partition N P' (proj1 HN))|apply grid_ok_init|by apply (room N P')|done].
  exists p, p'. split_and!; [done|done|]. by rewrite Eu, Eu'.
Qed.

Definition linux_example (rounds : nat) : @net spec_float :=
  run 5 2 (start_index 5 2) (end_index 5 2) example_E 3 linux_pipe_words (linux_start 5 2 (fofZ 10))
    (concat (replicate rounds [None; Some 1; Some 0])).

Lemma linux_example_reach rounds :
  forallb (fun w => match w with Some i => i <? 2 | None => true end) (concat (replicate rounds [None; Some 1; Some 0])) = true ->
  rtc (linux_step 5 2 example_E 3) (linux_start 5 2 (fofZ 10)) (linux_example rounds).
Proof.
  intros H. pose proof (run_sound 5 2 (start_index 5 2) (end_index 5 2) example_E 3 linux_pipe_words (linux_start 5 2 (fofZ 10)) _ H) as Hr.
  unfold linux_example. revert Hr. generalize (linux_start (F := spec_float) 5 2 (fofZ 10)). intros s0 Hr. revert Hr.
  generalize (run 5 2 (start_index 5 2) (end_index 5 2) example_E 3 linux_pipe_words s0 (concat (replicate rounds [None; Some 1; Some 0]))). intros s1 Hr.
  induction Hr as [|x y z Hx _ IH]; [done|]. eapply rtc_l; [by apply linux_step_iff|done].
Qed.

Lemma linux_agrees_witness : exists p p', n_parent (linux_example 60) = Run p /\ n_parent (example_run 60) = Run p' /\ q_u p = q_u p'.
Proof.
  apply (linux_agrees 5 2 2 example_E (fofZ 10) 3); [lia|lia|lia|by apply linux_example_reach|by vm_compute|by apply example_reach|by vm_compute].
Defined.

Lemma linux_runs_witness : exists n, nsteps (linux_step 5 2 example_E 3) n (linux_start 5 2 (fofZ 10)) (linux_example 60) /\
  exists p, n_parent (linux_example 60) = Run p /\ q_u p = jacobi_seq 5 example_E 3 (linux_grid 5 (fofZ 10)).
Proof.
  destruct (proj1 (rtc_nsteps _ _) (linux_example_reach 60 eq_refl)) as [n Hn]. exists n. split; [exact Hn|].
  apply (linux_runs 5 2 example_E (fofZ 10) 3 ltac:(lia) ltac:(lia) n (linux_example 60) Hn). by vm_compute.
Defined.
