(* ===== verification/Sumvar.v ===== *)
(** * Sum and variance with messages (assig1_8.c)

    The program that the message and signal calls were written for: a parent
    forks [CHILDS] processes, each sends the sum of its part of an array with
    [send]; for the variance the parent sends the mean to all with
    [send_multi], which runs [message_handler] in each child, and the children
    send their parts of the variance.

    A step is one system call of one process, with the computation before it;
    the processes interleave in any order.  The kernel's part is what Ipc.v
    and Signal.v prove of it: a message goes to the end of the receiver's queue, [recv]
    takes the oldest or sleeps, a signal runs the handler before the process
    goes on in user mode, [sig_pause] sleeps when no signal is pending.  Forks
    succeed. *)

From stdpp Require Import base numbers list list_numbers relations strings.
From Stdlib Require Import SpecFloat.
From S2P Require Import Prelude Kmonad KString User Jacobi.

Local Open Scope Z_scope.

Definition CHILDS : nat := 5.
Definition size : Z := 1000.

(** The loop that reads the array: a digit and a separator at a time; at the
    end of the file [c] keeps its value. *)
Definition read_c (c : Z) (file : list Z) : Z * list Z :=
  match file with [] => (c, []) | x :: file => (x, file) end.
Fixpoint load (n : nat) (c : Z) (file : list Z) : list Z :=
  match n with
  | O => []
  | S n =>
      let '(c, file) := read_c c file in
      let a := i16 (i8 c - 48) in
      let '(c, file) := read_c c file in
      a :: load n c file
  end.

Section sumvar.
Context {F : Type} {FO : FloatOps F}.

(** The word at the start of a message. *)
Inductive word := WInt (z : Z) | WFloat (f : F).

(** How one kind reads as the other, and [(int)f]. *)
Context (bits_int : F -> Z) (bits_float : Z -> F) (ftoi : F -> Z).
Definition as_int (w : word) : Z := match w with WInt z => z | WFloat f => bits_int f end.
Definition as_float (w : word) : F := match w with WInt z => bits_float z | WFloat f => f end.

(** ** A child *)

Inductive kpc : Set :=
| KSum      (** add up and [send] *)
| KCheck    (** [if(sreceived[this_child_id]==0)] *)
| KPause    (** [sig_pause()] *)
| KSleep    (** asleep in it *)
| KWake     (** woken up, not yet back in user mode *)
| KVar      (** add up and [send] *)
| KExit     (** [exit()] *)
| KZombie
| KReaped.
#[export] Instance kpc_eq_dec : EqDecision kpc.
Proof. solve_decision. Defined.

Record kid := MkKid {
  k_pc : kpc;
  k_received : bool;      (** [sreceived[this_child_id]] *)
  k_mean : F;             (** [mean_received] *)
  k_pending : list word   (** signals that were sent, with their messages *)
}.

(** ** The parent *)

Inductive ppc : Set :=
| PFork (i : nat)
| PRecv (i : nat)        (** receive partial sum [i] *)
| PMulti (i : nat)       (** [send_multi]: child [i] *)
| PRecvVar (i : nat)     (** receive partial variance [i] *)
| PWait (i : nat)
| PPrint
| PDone.
#[export] Instance parent_pc_eq_dec : EqDecision ppc.
Proof. solve_decision. Defined.

Record state := MkState {
  s_pc : ppc;
  s_tot : Z;           (** [tot_sum] *)
  s_mean : F;          (** [mean_sent] *)
  s_var : F;           (** [variance] *)
  s_inbox : list word; (** the parent's queue of messages *)
  s_kids : list kid;
  s_says : list (string * list uarg)  (** the calls of [printf(1, ...)] *)
}.

Section program.
Context (type : Z) (filename : list Z) (arr : list Z).

(** Child [i] has the elements from [start_index] to [end_index]. *)
Definition start_index (i : nat) : nat := (Z.to_nat (size / Z.of_nat CHILDS) * i)%nat.
Definition end_index (i : nat) : nat := if (i =? CHILDS - 1)%nat then Z.to_nat size else (start_index i + Z.to_nat (size / Z.of_nat CHILDS))%nat.
Definition part (i : nat) : list Z := take (end_index i - start_index i) (drop (start_index i) arr).

Definition partial_sum (i : nat) : Z := foldl (fun s x => i32 (s + x)) 0 (part i).
Definition partial_variance (mean : F) (i : nat) : F :=
  foldl (fun v x => fadd v (fmul (fsub (fofZ x) mean) (fsub (fofZ x) mean))) (fofZ 0) (part i).

Definition goto (pc : kpc) (k : kid) : kid := MkKid pc (k_received k) (k_mean k) (k_pending k).

(** [message_handler], for the first pending signal. *)
Definition handler (k : kid) : kid :=
  match k_pending k with
  | [] => k
  | m :: rest => MkKid (k_pc k) true (as_float m) rest
  end.

(** What child [i] does next, and what it sends. *)
Definition child_step (i : nat) (k : kid) : option (kid * option word) :=
  match k_pc k with
  | KSum => Some (goto (if type =? 1 then KCheck else KExit) k, Some (WInt (partial_sum i)))
  | KCheck => Some (goto (if k_received k then KVar else KPause) k, None)
  | KPause => Some (match k_pending k with [] => goto KSleep k | _ => goto KVar (handler k) end, None)
  | KWake => Some (goto KVar (handler k), None)
  | KVar => Some (goto KExit k, Some (WFloat (partial_variance (k_mean k) i)))
  | KExit => Some (goto KZombie k, None)
  | KSleep | KZombie | KReaped => None
  end.

(** A signal is delivered when the child is in user mode. *)
Definition in_user (pc : kpc) : bool :=
  match pc with KSum | KCheck | KPause | KVar | KExit => true | _ => false end.

(** [send_multicast] to one child: queue the message and the signal, wake up. *)
Definition post (m : word) (k : kid) : kid :=
  MkKid (match k_pc k with KSleep => KWake | pc => pc end) (k_received k) (k_mean k) (k_pending k ++ [m]).

Definition set_pc (pc : ppc) (s : state) : state :=
  MkState pc (s_tot s) (s_mean s) (s_var s) (s_inbox s) (s_kids s) (s_says s).
Definition set_kids (kids : list kid) (s : state) : state :=
  MkState (s_pc s) (s_tot s) (s_mean s) (s_var s) (s_inbox s) kids (s_says s).
Definition say (fmt : string) (args : list uarg) (s : state) : state :=
  MkState (s_pc s) (s_tot s) (s_mean s) (s_var s) (s_inbox s) (s_kids s) (s_says s ++ [(fmt, args)]).

Definition is_zombie (k : kid) : bool := bool_decide (k_pc k = KZombie).

Definition parent_step (s : state) : option state :=
  match s_pc s with
  | PFork i =>
      if (i <? CHILDS)%nat then Some (set_pc (PFork (S i)) (set_kids (s_kids s ++ [MkKid KSum false (fofZ 0) []]) s))
      else Some (set_pc (PRecv 0) s)
  | PRecv i =>
      if (i <? CHILDS)%nat then
        match s_inbox s with
        | [] => None
        | m :: inbox => Some (MkState (PRecv (S i)) (i32 (s_tot s + as_int m)) (s_mean s) (s_var s) inbox (s_kids s) (s_says s))
        end
      else Some (MkState (if type =? 1 then PMulti 0 else PWait 0) (s_tot s) (fdiv (fofZ (s_tot s)) (fofZ size)) (s_var s)
                   (s_inbox s) (s_kids s) (s_says s))
  | PMulti i =>
      if (i <? CHILDS)%nat then Some (set_pc (PMulti (S i)) (set_kids (alter (post (WFloat (s_mean s))) i (s_kids s)) s))
      else Some (set_pc (PRecvVar 0) s)
  | PRecvVar i =>
      if (i <? CHILDS)%nat then
        match s_inbox s with
        | [] => None
        | m :: inbox => Some (MkState (PRecvVar (S i)) (s_tot s) (s_mean s) (fadd (s_var s) (as_float m)) inbox (s_kids s) (s_says s))
        end
      else Some (MkState (PWait 0) (s_tot s) (s_mean s) (fdiv (s_var s) (fofZ size)) (s_inbox s) (s_kids s) (s_says s))
  | PWait i =>
      if (i <? CHILDS)%nat then
        match list_find is_zombie (s_kids s) with
        | None => None
        | Some (j, _) => Some (set_pc (PWait (S i)) (set_kids (alter (goto KReaped) j (s_kids s)) s))
        end
      else Some (set_pc PPrint s)
  | PPrint =>
      Some (set_pc PDone
        (if type =? 0 then say "Sum of array for file %s is %d\n" [AStr filename; AInt (s_tot s)] s
         else say "Variance of array for file %s is %d\n" [AStr filename; AInt (ftoi (s_var s))] s))
  | PDone => None
  end.

(** Who goes next; [Deliver i] runs the handler of child [i]. *)
Inductive who : Set := Parent | Child (i : nat) | Deliver (i : nat).

Definition step (w : who) (s : state) : option state :=
  match w with
  | Parent => parent_step s
  | Child i =>
      match s_kids s !! i with
      | None => None
      | Some k =>
          match child_step i k with
          | None => None
          | Some (k', m) =>
              Some (MkState (s_pc s) (s_tot s) (s_mean s) (s_var s) (s_inbox s ++ option_list m) (<[i := k']> (s_kids s)) (s_says s))
          end
      end
  | Deliver i =>
      match s_kids s !! i with
      | None => None
      | Some k =>
          match k_pending k with
          | [] => None
          | _ => if in_user (k_pc k) then Some (set_kids (<[i := handler k]> (s_kids s)) s) else None
          end
      end
  end.

(** After the array has been read. *)
Definition initial : state :=
  MkState (PFork 0) 0 (fofZ 0) (fofZ 0) [] []
    [("Type is %d and filename is %s\n", [AInt type; AStr filename]); ("first elem %d\n", [AInt (nthZ arr 0)])].

Definition goes (s s' : state) : Prop := exists w, step w s = Some s'.
End program.

(** The arguments of [main] and the array; [c] is not initialised. *)
Definition setup (argv : list (list Z)) (c : Z) (file : list Z) : option (Z * list Z * list Z) :=
  match argv with
  | _ :: ty :: filename :: _ => Some (atoi ty, filename, load (Z.to_nat size) c file)
  | _ => None
  end.
End sumvar.

(** ** Sums *)

Lemma sumZ_perm l l' : l ≡ₚ l' -> sumZ l = sumZ l'.
Proof. unfold sumZ. induction 1; simpl; lia. Qed.

Lemma sumZ_concat ls : sumZ (map sumZ ls) = sumZ (concat ls).
Proof. induction ls as [|l ls IH]; [done|]. simpl. by rewrite sumZ_app, <- IH. Qed.

(** An element: a [char] less 48. *)
Definition small (x : Z) : Prop := -176 <= x <= 79.

Lemma sumZ_bound l : Forall small l -> -176 * Z.of_nat (length l) <= sumZ l <= 79 * Z.of_nat (length l).
Proof. unfold sumZ. induction 1 as [|x l Hx Hl IH]; simpl; [lia|]. unfold small in Hx. lia. Qed.

Lemma load_small n : forall c file, Forall small (load n c file).
Proof.
  induction n as [|n IH]; intros c file; cbn [load]; [constructor|]. destruct (read_c c file) as [c1 f1], (read_c c1 f1) as [c2 f2].
  constructor; [|apply IH]. unfold small, i16, i8. pose proof (Z.mod_pos_bound (c1 + 2 ^ 7) (2 ^ 8) ltac:(lia)). rewrite Z.mod_small by lia. lia.
Qed.

Lemma load_length n : forall c file, length (load n c file) = n.
Proof.
  induction n as [|n IH]; intros c file; cbn [load]; [done|]. destruct (read_c c file) as [c1 f1], (read_c c1 f1) as [c2 f2]. simpl. by rewrite IH.
Qed.

(** A file of digits, each followed by one byte. *)
Lemma load_digits ds : forall c, Forall (fun d => 0 <= d < 10) ds -> load (length ds) c (flat_map (fun d => [48 + d; 10]) ds) = ds.
Proof.
  induction ds as [|d ds IH]; intros c; [done|]. intros [Hd Hds]%Forall_cons. cbn [length load flat_map app read_c]. rewrite IH by done. f_equal.
  unfold i8. rewrite (Z.mod_small (48 + d + _)) by lia. unfold i16. rewrite Z.mod_small by lia. lia.
Qed.

(** ** The parts of the array *)

Section array.
Context (arr : list Z) (Hlen : length arr = Z.to_nat size) (Hsmall : Forall small arr).

Lemma parts_concat : concat (map (part arr) (seq 0 CHILDS)) = arr.
Proof.
  unfold part. cbn [seq map concat CHILDS]. change (start_index 0) with 0%nat. change (start_index 1) with 200%nat. change (start_index 2) with 400%nat.
  change (start_index 3) with 600%nat. change (start_index 4) with 800%nat. change (end_index 0) with 200%nat. change (end_index 1) with 400%nat.
  change (end_index 2) with 600%nat. change (end_index 3) with 800%nat. change (end_index 4) with 1000%nat.
  change (200 - 0)%nat with 200%nat. change (400 - 200)%nat with 200%nat. change (600 - 400)%nat with 200%nat. change (800 - 600)%nat with 200%nat. change (1000 - 800)%nat with 200%nat.
  rewrite app_nil_r, drop_0.
  rewrite (take_ge (drop 800 arr)) by (rewrite length_drop, Hlen; change (Z.to_nat size) with 1000%nat; lia).
  assert (forall k, take 200 (drop k arr) ++ drop (200 + k) arr = drop k arr) as E.
  { intros k. rewrite Nat.add_comm, <- drop_drop. apply take_drop. }
  rewrite (E 600%nat : _ ++ drop 800 arr = _), (E 400%nat : _ ++ drop 600 arr = _), (E 200%nat : _ ++ drop 400 arr = _). apply take_drop.
Qed.

Lemma part_small i : Forall small (part arr i) /\ (length (part arr i) <= 1000)%nat.
Proof.
  split; [by apply Forall_take, Forall_drop|]. unfold part. rewrite length_take, length_drop, Hlen. change (Z.to_nat size) with 1000%nat. lia.
Qed.

(** No addition of a child overflows. *)
Lemma partial_sum_exact i : partial_sum arr i = sumZ (part arr i).
Proof.
  destruct (part_small i) as [Hs Hl]. unfold partial_sum.
  assert (forall l a, Forall small l -> -176 * 1000 <= a - 176 * Z.of_nat (length l) -> a + 79 * Z.of_nat (length l) <= 79 * 1000 ->
    foldl (fun s x => i32 (s + x)) a l = a + sumZ l) as E.
  { intros l. induction l as [|x l IH]; intros a H1 H2 H3; cbn [foldl sumZ foldr]; [lia|]. apply Forall_cons in H1 as [Hx H1]. unfold small in Hx. cbn [length] in H2, H3.
    rewrite i32_small by lia. rewrite IH by (done || lia). unfold sumZ. lia. }
  rewrite E by (done || lia). lia.
Qed.

Lemma sums_total order : order ≡ₚ seq 0 CHILDS -> sumZ (map (partial_sum arr) order) = sumZ arr.
Proof.
  intros Hp. rewrite (sumZ_perm _ (map (partial_sum arr) (seq 0 CHILDS))) by (by rewrite Hp).
  rewrite (map_ext _ (fun i => sumZ (part arr i))) by apply partial_sum_exact. rewrite <- (map_map (part arr) sumZ), sumZ_concat. by rewrite parts_concat.
Qed.
End array.

(** ** The children that have come so far *)

Section tracks.
Context {F : Type}.
Abbreviation kid := (@kid F).

(** [order] lists, without repetition, the children whose place is in [P]. *)
Definition tracks (P : kpc -> bool) (order : list nat) (kids : list kid) : Prop :=
  NoDup order /\ forall i, i ∈ order <-> exists k, kids !! i = Some k /\ P (k_pc k) = true.

Lemma tracks_keep P order kids i k k' : tracks P order kids -> kids !! i = Some k -> P (k_pc k') = P (k_pc k) -> tracks P order (<[i := k']> kids).
Proof.
  intros [Hn Ht] Hi HP. pose proof (lookup_lt_Some _ _ _ Hi). split; [done|]. intros j. rewrite Ht. destruct (decide (i = j)) as [<-|Hne].
  - rewrite list_lookup_insert_eq by done. split; intros (x & [= <-] & Hx) || intros (x & Hx0 & Hx); simplify_eq; eexists; (split; [done|]); congruence.
  - by rewrite list_lookup_insert_ne.
Qed.

Lemma tracks_add P order kids i k k' : tracks P order kids -> kids !! i = Some k -> P (k_pc k) = false -> P (k_pc k') = true ->
  tracks P (order ++ [i]) (<[i := k']> kids).
Proof.
  intros [Hn Ht] Hi HP HP'. pose proof (lookup_lt_Some _ _ _ Hi). split.
  - apply NoDup_app. split; [done|]. split; [|apply NoDup_singleton]. intros j Hj ->%list_elem_of_singleton. apply Ht in Hj as (x & Hx & HPx). congruence.
  - intros j. rewrite elem_of_app, list_elem_of_singleton, Ht. destruct (decide (i = j)) as [<-|Hne].
    + rewrite list_lookup_insert_eq by done. split; [intros _; by exists k'|by right].
    + rewrite list_lookup_insert_ne by done. split; [intros [?|?]; [done|congruence]|by left].
Qed.

Lemma tracks_fork P order kids k : tracks P order kids -> P (k_pc k) = false -> tracks P order (kids ++ [k]).
Proof.
  intros [Hn Ht] HP. split; [done|]. intros j. rewrite Ht. split.
  - intros (x & Hx & HPx). exists x. by rewrite lookup_app_l by (by eapply lookup_lt_Some).
  - intros (x & [Hx|[Hge Hx]]%lookup_app_Some & HPx); [by exists x|]. apply list_lookup_singleton_Some in Hx as [_ <-]. congruence.
Qed.

Lemma tracks_sub P order kids : tracks P order kids -> order ⊆+ seq 0 (length kids).
Proof.
  intros [Hn Ht]. apply NoDup_submseteq; [done|]. intros i (k & Hk & _)%Ht. apply elem_of_seq. pose proof (lookup_lt_Some _ _ _ Hk). lia.
Qed.

Lemma tracks_length P order kids : tracks P order kids -> (length order <= length kids)%nat.
Proof. intros H%tracks_sub%submseteq_length. by rewrite length_seq in H. Qed.

Lemma tracks_full P order kids : tracks P order kids -> (length kids <= length order)%nat -> order ≡ₚ seq 0 (length kids).
Proof. intros H Hl. apply submseteq_length_Permutation; [by eapply tracks_sub|]. by rewrite length_seq. Qed.

Lemma tracks_all P order kids : tracks P order kids -> (forall i k, kids !! i = Some k -> P (k_pc k) = true) -> length order = length kids.
Proof.
  intros H Hall. apply Nat.le_antisymm; [by eapply tracks_length|]. destruct H as [Hn Ht].
  rewrite <- (length_seq (length kids) 0). apply submseteq_length, NoDup_submseteq; [apply NoDup_seq|].
  intros i [_ Hi]%elem_of_seq. apply Ht. destruct (lookup_lt_is_Some_2 kids i Hi) as [k Hk]. exists k. split; [done|by eapply Hall].
Qed.

Lemma tracks_none P kids : (forall i k, kids !! i = Some k -> P (k_pc k) = false) -> tracks P [] kids.
Proof. intros H. split; [constructor|]. intros i. split; [intros Hi; by apply not_elem_of_nil in Hi|intros (k & Hk & HP)]. by rewrite (H _ _ Hk) in HP. Qed.
End tracks.

(** ** The invariant *)

Section invariant.
Context {F : Type} {FO : FloatOps F} (bits_int : F -> Z) (bits_float : Z -> F) (ftoi : F -> Z).
Context (type : Z) (filename arr : list Z) (Hlen : length arr = Z.to_nat size) (Hsmall : Forall small arr).
Abbreviation kid := (@kid F).
Abbreviation state := (@state F).
Abbreviation word := (@word F).
Abbreviation goes := (goes bits_int bits_float ftoi type filename arr).
Abbreviation step := (step bits_int bits_float ftoi type filename arr).
Abbreviation initial := (initial type filename arr).

(** The mean, and what child [i] sends for the variance. *)
Definition mean : F := fdiv (fofZ (sumZ arr)) (fofZ size).
Definition pvar (i : nat) : F := partial_variance arr mean i.

(** The children whose sum, whose variance has been sent; who is reaped. *)
Definition summed (pc : kpc) : bool := match pc with KSum => false | _ => true end.
Definition ended (pc : kpc) : bool := match pc with KExit | KZombie | KReaped => true | _ => false end.
Definition varied (pc : kpc) : bool := (type =? 1) && ended pc.
Definition reaped (pc : kpc) : bool := match pc with KReaped => true | _ => false end.

(** How far the parent is. *)
Definition forks (pc : ppc) : nat := match pc with PFork i => i | _ => CHILDS end.
Definition sums_in (pc : ppc) : nat := match pc with PFork _ => 0 | PRecv i => i | _ => CHILDS end.
Definition vars_in (pc : ppc) : nat :=
  match pc with
  | PFork _ | PRecv _ | PMulti _ => 0
  | PRecvVar i => i
  | _ => if type =? 1 then CHILDS else 0
  end.
Definition waits (pc : ppc) : nat := match pc with PWait i => i | PPrint | PDone => CHILDS | _ => 0 end.
Definition ready (pc : ppc) : bool := match pc with PFork _ | PRecv _ => false | _ => true end.
Definition in_range (pc : ppc) : Prop :=
  match pc with
  | PFork i | PRecv i | PWait i => (i <= CHILDS)%nat
  | PMulti i | PRecvVar i => type = 1 /\ (i <= CHILDS)%nat
  | _ => True
  end.

Record kid_ok (rdy : bool) (k : kid) : Prop := {
  ko_received : k_received k = true -> rdy = true /\ k_mean k = mean;
  ko_pending : Forall (fun m => m = WFloat mean) (k_pending k);
  ko_signal : k_pending k <> [] -> rdy = true;
  ko_wake : k_pc k = KWake -> k_pending k <> [];
  ko_var : k_pc k = KVar -> k_received k = true;
  ko_varied : varied (k_pc k) = true -> rdy = true;
  ko_type : type <> 1 -> k_pc k = KSum \/ ended (k_pc k) = true
}.

Definition sent (order vorder : list nat) : list word :=
  map (fun i => WInt (partial_sum arr i)) order ++ map (fun i => WFloat (pvar i)) vorder.
Definition added (vorder : list nat) : F := foldl fadd (fofZ 0) (map pvar vorder).

Record inv (order vorder rorder : list nat) (s : state) : Prop := {
  i_range : in_range (s_pc s);
  i_forks : length (s_kids s) = forks (s_pc s);
  i_order : tracks summed order (s_kids s);
  i_vorder : tracks varied vorder (s_kids s);
  i_rorder : tracks reaped rorder (s_kids s);
  i_in : (sums_in (s_pc s) <= length order)%nat /\ (vars_in (s_pc s) <= length vorder)%nat /\ length rorder = waits (s_pc s);
  i_inbox : s_inbox s = drop (sums_in (s_pc s) + vars_in (s_pc s)) (sent order vorder);
  i_tot : s_tot s = sumZ (map (partial_sum arr) (take (sums_in (s_pc s)) order));
  i_mean : ready (s_pc s) = true -> s_mean s = mean;
  i_var : s_var s = match s_pc s with
                    | PWait _ | PPrint | PDone => if type =? 1 then fdiv (added (take CHILDS vorder)) (fofZ size) else fofZ 0
                    | pc => added (take (vars_in pc) vorder)
                    end;
  i_kids i k : s_kids s !! i = Some k -> kid_ok (ready (s_pc s)) k;
  i_says : s_says s = s_says initial ++
    match s_pc s with
    | PDone => [if type =? 0 then ("Sum of array for file %s is %d\n", [AStr filename; AInt (s_tot s)])
                else ("Variance of array for file %s is %d\n", [AStr filename; AInt (ftoi (s_var s))])]
    | _ => []
    end
}.

Lemma inv_initial : inv [] [] [] initial.
Proof.
  assert (forall P, tracks P [] (s_kids initial)) as Ht by (intros P; by apply tracks_none).
  split; try done; try apply Ht; simpl; unfold CHILDS; lia.
Qed.

(** Everyone has sent a sum when a variance has been sent. *)
Lemma inv_sums order vorder rorder s : inv order vorder rorder s -> ready (s_pc s) = true -> order ≡ₚ seq 0 CHILDS /\ length order = CHILDS.
Proof.
  intros I Hr. pose proof (i_forks _ _ _ _ I) as Hk. pose proof (i_in _ _ _ _ I) as (Hs & _ & _). pose proof (tracks_length _ _ _ (i_order _ _ _ _ I)) as Hl.
  assert (forks (s_pc s) = CHILDS /\ sums_in (s_pc s) = CHILDS) as [E1 E2] by (by destruct (s_pc s)).
  rewrite E2 in Hs. rewrite Hk, E1 in Hl. split; [|lia]. rewrite <- E1, <- Hk. eapply tracks_full; [apply I|]. rewrite Hk, E1. done.
Qed.

Lemma inv_novar order vorder rorder s : inv order vorder rorder s -> ready (s_pc s) = false -> vorder = [].
Proof.
  intros I Hr. destruct vorder as [|j v]; [done|]. destruct (proj1 (proj2 (i_vorder _ _ _ _ I) j) ltac:(constructor)) as (x & Hx & Hvx).
  by rewrite (ko_varied _ _ (i_kids _ _ _ _ I _ _ Hx) Hvx) in Hr.
Qed.

(** *** One child changes *)

Definition upd (s : state) (i : nat) (k : kid) (m : list word) : state :=
  MkState (s_pc s) (s_tot s) (s_mean s) (s_var s) (s_inbox s ++ m) (<[i := k]> (s_kids s)) (s_says s).

Lemma kids_upd s i k k' (P : kid -> Prop) : (forall j x, s_kids s !! j = Some x -> P x) -> s_kids s !! i = Some k -> P k' ->
  forall j x, <[i := k']> (s_kids s) !! j = Some x -> P x.
Proof. intros H Hi Hk j x [(-> & <- & _)|(_ & Hj)]%list_lookup_insert_Some; [done|by eapply H]. Qed.

Lemma inv_silent order vorder rorder s i k k' : inv order vorder rorder s -> s_kids s !! i = Some k -> kid_ok (ready (s_pc s)) k' ->
  summed (k_pc k') = summed (k_pc k) -> varied (k_pc k') = varied (k_pc k) -> reaped (k_pc k') = reaped (k_pc k) ->
  inv order vorder rorder (upd s i k' []).
Proof.
  intros [I1 I2 I3 I4 I5 I6 I7 I8 I9 I10 I11 I12] Hi Hk Es Ev Er.
  split; cbn [upd s_pc s_kids s_inbox s_tot s_mean s_var s_says]; try done; try (by eapply tracks_keep).
  - by rewrite length_insert.
  - by rewrite app_nil_r.
  - by eapply kids_upd.
Qed.

Lemma inv_sum order vorder rorder s i k k' : inv order vorder rorder s -> s_kids s !! i = Some k -> kid_ok (ready (s_pc s)) k' ->
  k_pc k = KSum -> summed (k_pc k') = true -> varied (k_pc k') = false -> reaped (k_pc k') = false ->
  inv (order ++ [i]) vorder rorder (upd s i k' [WInt (partial_sum arr i)]).
Proof.
  intros I Hi Hk Epc Es Ev Er. assert (ready (s_pc s) = false) as Hr.
  { destruct (ready (s_pc s)) eqn:Hr; [|done]. destruct (inv_sums _ _ _ _ I Hr) as [Hp _].
    assert (i ∈ order) as Hio. { rewrite Hp. apply elem_of_seq. pose proof (lookup_lt_Some _ _ _ Hi). pose proof (i_forks _ _ _ _ I) as Hf. destruct (s_pc s); simpl in *; try lia; done. }
    apply (i_order _ _ _ _ I) in Hio as (x & Hx & Hsx). rewrite Hi in Hx. injection Hx as <-. by rewrite Epc in Hsx. }
  assert (vorder = []) as -> by (by eapply inv_novar).
  destruct I as [I1 I2 I3 I4 I5 (I6 & I6' & I6'') I7 I8 I9 I10 I11 I12]. assert (vars_in (s_pc s) = 0%nat) as Hv by (simpl in I6'; lia).
  split; cbn [upd s_pc s_kids s_inbox s_tot s_mean s_var s_says]; try done.
  - by rewrite length_insert.
  - eapply tracks_add; [done|done|by rewrite Epc|done].
  - eapply tracks_keep; [done|done|]. rewrite Ev, Epc. unfold varied. by rewrite andb_false_r.
  - eapply tracks_keep; [done|done|]. by rewrite Er, Epc.
  - rewrite length_app. split_and!; [lia|lia|done].
  - rewrite I7, Hv. unfold sent. cbn [map]. rewrite !app_nil_r, map_app, Nat.add_0_r, drop_app_le; [done|by rewrite length_map].
  - by rewrite take_app_le.
  - by eapply kids_upd.
Qed.

Lemma inv_variance order vorder rorder s i k k' : inv order vorder rorder s -> s_kids s !! i = Some k -> kid_ok (ready (s_pc s)) k' ->
  summed (k_pc k') = summed (k_pc k) -> varied (k_pc k) = false -> varied (k_pc k') = true -> reaped (k_pc k') = reaped (k_pc k) ->
  inv order (vorder ++ [i]) rorder (upd s i k' [WFloat (pvar i)]).
Proof.
  intros [I1 I2 I3 I4 I5 (I6 & I6' & I6'') I7 I8 I9 I10 I11 I12] Hi Hk Es Ev Ev' Er. assert (type = 1) as Ht.
  { unfold varied in Ev'. destruct (Z.eqb_spec type 1); done. }
  split; cbn [upd s_pc s_kids s_inbox s_tot s_mean s_var s_says]; try done; try (by eapply tracks_keep).
  - by rewrite length_insert.
  - by eapply tracks_add.
  - rewrite length_app. split_and!; [lia|lia|done].
  - rewrite I7. unfold sent. rewrite map_app, app_assoc, (drop_app_le (_ ++ _) (map _ [i])); [done|]. rewrite length_app, !length_map. lia.
  - rewrite I10. destruct (s_pc s); cbn [vars_in] in *; rewrite Ht in *; cbn [Z.eqb Pos.eqb] in *; by rewrite ?take_app_le by lia.
  - by eapply kids_upd.
Qed.

(** *** A child's step *)

Lemma kid_goto rdy k pc : kid_ok rdy k -> pc <> KWake -> (pc = KVar -> k_received k = true) -> (varied pc = true -> rdy = true) ->
  (type <> 1 -> pc = KSum \/ ended pc = true) -> kid_ok rdy (goto pc k).
Proof. intros [K1 K2 K3 K4 K5 K6 K7] H1 H2 H3 H4. by split. Qed.

(** The handler has run, unless there was no signal. *)
Lemma kid_handler rdy k : kid_ok rdy k -> k_pc k <> KWake \/ k_pending k = [] -> kid_ok rdy (handler bits_float k).
Proof.
  intros K Hw. unfold handler. destruct (k_pending k) as [|m rest] eqn:Ep; [done|]. destruct Hw as [Hw|]; [|done]. destruct K as [K1 K2 K3 K4 K5 K6 K7].
  rewrite Ep in *. apply Forall_cons in K2 as [-> K2]. specialize (K3 ltac:(done)).
  split; cbn [k_pc k_received k_mean k_pending as_float]; done.
Qed.

Lemma kid_handled rdy k : type = 1 -> kid_ok rdy k -> k_pending k <> [] -> kid_ok rdy (goto KVar (handler bits_float k)).
Proof.
  intros Ht K Hp. unfold handler. destruct (k_pending k) as [|m rest] eqn:Ep; [done|]. destruct K as [K1 K2 K3 K4 K5 K6 K7]. rewrite Ep in *.
  apply Forall_cons in K2 as [-> K2]. specialize (K3 ltac:(done)). split; unfold goto; cbn [k_pc k_received k_mean k_pending as_float]; done.
Qed.

Lemma inv_child order vorder rorder s i k k' m : inv order vorder rorder s -> s_kids s !! i = Some k ->
  child_step bits_float type arr i k = Some (k', m) -> exists order' vorder', inv order' vorder' rorder (upd s i k' (option_list m)).
Proof.
  intros I Hi Hst. pose proof (i_kids _ _ _ _ I _ _ Hi) as K. unfold child_step in Hst.
  assert (ended (k_pc k) = false -> k_pc k <> KSum -> type = 1) as Ht1.
  { intros He Hs. destruct (decide (type = 1)); [done|]. destruct (ko_type _ _ K) as [?|?]; congruence. }
  assert (varied (k_pc k) = (type =? 1) && ended (k_pc k)) as Hv by done.
  destruct (k_pc k) eqn:Epc; try done; injection Hst as <- <-; cbn [option_list option_rect].
  - exists (order ++ [i]), vorder. destruct (Z.eqb_spec type 1) as [Ht|Ht].
    + assert (varied KCheck = false) as Hx by (unfold varied; by rewrite andb_false_r).
      apply (inv_sum _ _ _ _ _ k); try done. apply kid_goto; try done. by rewrite Hx.
    + assert (varied KExit = false) as Hx by (unfold varied; by rewrite (proj2 (Z.eqb_neq type 1) Ht)).
      apply (inv_sum _ _ _ _ _ k); try done. apply kid_goto; [done..|by rewrite Hx|by right].
  - exists order, vorder. specialize (Ht1 eq_refl ltac:(done)). destruct (k_received k) eqn:Er.
    all: apply (inv_silent _ _ _ _ _ k); rewrite ?Epc; try done; apply kid_goto; try done; unfold varied; by rewrite andb_false_r.
  - exists order, vorder. specialize (Ht1 eq_refl ltac:(done)). destruct (k_pending k) as [|x rest] eqn:Ep.
    + apply (inv_silent _ _ _ _ _ k); rewrite ?Epc; try done. apply kid_goto; try done. unfold varied. by rewrite andb_false_r.
    + apply (inv_silent _ _ _ _ _ k); rewrite ?Epc; try done. apply kid_handled; [done|done|by rewrite Ep].
  - exists order, vorder. specialize (Ht1 eq_refl ltac:(done)). apply (inv_silent _ _ _ _ _ k); rewrite ?Epc; try done.
    apply kid_handled; [done|done|by apply (ko_wake _ _ K)].
  - exists order, (vorder ++ [i]). specialize (Ht1 eq_refl ltac:(done)). destruct (ko_received _ _ K (ko_var _ _ K Epc)) as [Hr Em]. rewrite Em.
    apply (inv_variance _ _ _ _ _ k); rewrite ?Epc; try done; [apply kid_goto; try done| |]; unfold varied; rewrite Ht1; done.
  - exists order, vorder. apply (inv_silent _ _ _ _ _ k); rewrite ?Epc; try done.
    apply kid_goto; try done; [|by right]. intros H. apply (ko_varied _ _ K). by rewrite Epc.
Qed.

Lemma inv_deliver order vorder rorder s i k : inv order vorder rorder s -> s_kids s !! i = Some k -> in_user (k_pc k) = true ->
  inv order vorder rorder (upd s i (handler bits_float k) []).
Proof.
  intros I Hi Hu. pose proof (i_kids _ _ _ _ I _ _ Hi) as K.
  assert (k_pc (handler bits_float k) = k_pc k) as E by (unfold handler; by destruct (k_pending k)).
  apply (inv_silent _ _ _ _ _ k); rewrite ?E; try done. apply kid_handler; [done|]. left. intros Ew. by rewrite Ew in Hu.
Qed.

(** *** The parent's step *)

Lemma kid_ready k rdy : kid_ok rdy k -> kid_ok true k.
Proof. intros [K1 K2 K3 K4 K5 K6 K7]. split; try done. intros H. by split; [|apply K1]. Qed.

Lemma kid_post rdy k : type = 1 -> kid_ok rdy k -> kid_ok true (post (WFloat mean) k).
Proof.
  intros Ht [K1 K2 K3 K4 K5 K6 K7]. unfold post. split; cbn [k_pc k_received k_mean k_pending]; try done.
  - intros H. by split; [|apply K1].
  - apply Forall_app. by split; [|constructor].
  - intros _. by destruct (k_pending k).
  - intros H. apply K5. by destruct (k_pc k).
Qed.

Lemma alter_at {A} (f : A -> A) i (l : list A) x : l !! i = Some x -> alter f i l = <[i := f x]> l.
Proof.
  revert i. induction l as [|y l IH]; intros [|i] H; simplify_eq/=; [done|]. f_equal. by apply IH.
Qed.

(** The next message in the parent's queue. *)
Lemma inbox_next {A B} (f : A -> B) n (l : list A) m rest : drop n (map f l) = m :: rest ->
  exists x, l !! n = Some x /\ m = f x /\ rest = drop (S n) (map f l) /\ take (S n) l = take n l ++ [x].
Proof.
  intros E. assert (map f l !! n = Some m) as Hm. { rewrite <- (Nat.add_0_r n), <- lookup_drop, E. done. }
  rewrite list_lookup_fmap in Hm. destruct (l !! n) as [x|] eqn:Hx; [|done]. injection Hm as <-. exists x. split_and!; [done|done| |by apply take_S_r].
  rewrite <- Nat.add_1_r, <- drop_drop, E. done.
Qed.

Lemma sums_bound order n : (length (take n order) <= CHILDS)%nat -> -880000 <= sumZ (map (partial_sum arr) (take n order)) <= 880000.
Proof.
  intros H. assert (forall l, -176000 * Z.of_nat (length l) <= sumZ (map (partial_sum arr) l) <= 176000 * Z.of_nat (length l)) as E.
  { intros l. induction l as [|i l IH]; [simpl; lia|]. cbn [map length]. unfold sumZ in *. cbn [foldr].
    rewrite (partial_sum_exact arr Hlen Hsmall). destruct (part_small arr Hlen Hsmall i) as [Hs Hl]. pose proof (sumZ_bound _ Hs) as Hb. unfold sumZ in *. lia. }
  specialize (E (take n order)). unfold CHILDS in H. lia.
Qed.

(** The parent moves on and nothing else changes. *)
Lemma inv_goto order vorder rorder s pc : inv order vorder rorder s -> in_range pc -> forks pc = forks (s_pc s) -> sums_in pc = sums_in (s_pc s) ->
  vars_in pc = vars_in (s_pc s) -> waits pc = waits (s_pc s) -> ready pc = ready (s_pc s) ->
  (forall x y, match pc with PWait _ | PPrint | PDone => x | _ => y end = match s_pc s with PWait _ | PPrint | PDone => x | _ => y end :> F) ->
  pc <> PDone -> s_pc s <> PDone -> inv order vorder rorder (set_pc pc s).
Proof.
  intros [I1 I2 I3 I4 I5 I6 I7 I8 I9 I10 I11 I12] Hr E1 E2 E3 E4 E5 E6 Hd Hd'.
  split; cbn [set_pc s_pc s_kids s_inbox s_tot s_mean s_var s_says]; rewrite ?E1, ?E2, ?E3, ?E4, ?E5; try done.
  - rewrite I10. destruct pc, (s_pc s); try done; cbn [vars_in] in *; try congruence; try (by rewrite E3).
  - rewrite I12. by destruct pc, (s_pc s).
Qed.

Lemma inv_fork order vorder rorder s i : inv order vorder rorder s -> s_pc s = PFork i -> (i < CHILDS)%nat ->
  inv order vorder rorder (set_pc (PFork (S i)) (set_kids (s_kids s ++ [MkKid KSum false (fofZ 0) []]) s)).
Proof.
  intros [I1 I2 I3 I4 I5 I6 I7 I8 I9 I10 I11 I12] Epc Hi. rewrite Epc in *.
  split; cbn [set_pc set_kids s_pc s_kids s_inbox s_tot s_mean s_var s_says]; try done; try (by apply tracks_fork).
  - rewrite length_app, I2. simpl. lia.
  - apply tracks_fork; [done|]. unfold varied. by rewrite andb_false_r.
  - intros j k [Hj|[_ Hj]]%lookup_app_Some; [by eapply I11|]. apply list_lookup_singleton_Some in Hj as [_ <-].
    split; cbn [k_pc k_received k_mean k_pending]; try done; [unfold varied; by rewrite andb_false_r|by left].
Qed.

Lemma inv_recv order vorder rorder s i m rest : inv order vorder rorder s -> s_pc s = PRecv i -> (i < CHILDS)%nat -> s_inbox s = m :: rest ->
  inv order vorder rorder (MkState (PRecv (S i)) (i32 (s_tot s + as_int bits_int m)) (s_mean s) (s_var s) rest (s_kids s) (s_says s)).
Proof.
  intros I Epc Hi Em. assert (vorder = []) as -> by (eapply inv_novar; [done|by rewrite Epc]).
  destruct I as [I1 I2 I3 I4 I5 (I6 & I6' & I6'') I7 I8 I9 I10 I11 I12]. rewrite Epc in *. cbn [sums_in vars_in] in *.
  rewrite I7 in Em. unfold sent in Em. cbn [map] in Em. rewrite app_nil_r, Nat.add_0_r in Em.
  apply inbox_next in Em as (j & Hj & -> & -> & Et). pose proof (lookup_lt_Some _ _ _ Hj) as Hl.
  split; cbn [s_pc s_kids s_inbox s_tot s_mean s_var s_says]; try done.
  - cbn [sums_in vars_in]. unfold sent. cbn [map]. by rewrite app_nil_r, Nat.add_0_r.
  - cbn [sums_in as_int]. rewrite I8. assert (sumZ (map (partial_sum arr) (take (S i) order)) = sumZ (map (partial_sum arr) (take i order)) + partial_sum arr j) as Es.
    { rewrite Et, map_app, sumZ_app. unfold sumZ at 2. simpl. lia. }
    rewrite Es. pose proof (sums_bound order (S i)) as Hb. rewrite Es in Hb. rewrite i32_small; [done|].
    assert (length (take (S i) order) <= CHILDS)%nat as Hle by (rewrite length_take; lia). specialize (Hb Hle). lia.
Qed.

Lemma inv_mean order vorder rorder s : inv order vorder rorder s -> s_pc s = PRecv CHILDS ->
  inv order vorder rorder (MkState (if type =? 1 then PMulti 0 else PWait 0) (s_tot s) (fdiv (fofZ (s_tot s)) (fofZ size)) (s_var s) (s_inbox s) (s_kids s) (s_says s)).
Proof.
  intros I Epc. assert (vorder = []) as -> by (eapply inv_novar; [done|by rewrite Epc]).
  destruct I as [I1 I2 I3 I4 I5 (I6 & I6' & I6'') I7 I8 I9 I10 I11 I12]. rewrite Epc in *. cbn [sums_in vars_in forks] in *.
  pose proof (tracks_length _ _ _ I3) as Hl. rewrite I2 in Hl.
  assert (s_tot s = sumZ arr) as Et.
  { rewrite I8, take_ge by done. apply sums_total; [done|done|]. rewrite <- I2. eapply tracks_full; [done|lia]. }
  set (pc := if type =? 1 then PMulti 0 else PWait 0).
  assert (forks pc = CHILDS /\ sums_in pc = CHILDS /\ vars_in pc = 0%nat /\ waits pc = 0%nat /\ ready pc = true) as (E1 & E2 & E3 & E4 & E5).
  { unfold pc. destruct (type =? 1) eqn:Et1; cbn [vars_in]; rewrite ?Et1; done. }
  split; cbn [s_pc s_kids s_inbox s_tot s_mean s_var s_says]; rewrite ?E1, ?E2, ?E3, ?E4, ?E5; try done.
  - unfold pc. destruct (Z.eqb_spec type 1); simpl; [split; [done|lia]|lia].
  - intros _. by rewrite Et.
  - rewrite I10. unfold pc. destruct (type =? 1) eqn:Et1; by rewrite ?Et1.
  - intros j k Hk. eapply kid_ready, I11, Hk.
  - rewrite I12. unfold pc. by destruct (type =? 1).
Qed.

Lemma inv_multi order vorder rorder s i : inv order vorder rorder s -> s_pc s = PMulti i -> (i < CHILDS)%nat ->
  inv order vorder rorder (set_pc (PMulti (S i)) (set_kids (alter (post (WFloat (s_mean s))) i (s_kids s)) s)).
Proof.
  intros I Epc Hi. pose proof (i_range _ _ _ _ I) as R. rewrite Epc in R. destruct R as [Ht _]. pose proof (i_mean _ _ _ _ I) as Hm. rewrite Epc in Hm. rewrite (Hm eq_refl).
  destruct (lookup_lt_is_Some_2 (s_kids s) i) as [k Hk]; [rewrite (i_forks _ _ _ _ I), Epc; done|]. rewrite (alter_at _ _ _ _ Hk).
  assert (inv order vorder rorder (upd s i (post (WFloat mean) k) [])) as I'.
  { apply (inv_silent _ _ _ _ _ k); try done; unfold post; cbn [k_pc]; try (by destruct (k_pc k)). rewrite Epc. by eapply kid_post, I. }
  assert (upd s i (post (WFloat mean) k) [] = set_kids (<[i := post (WFloat mean) k]> (s_kids s)) s) as E by (unfold upd, set_kids; by rewrite app_nil_r).
  rewrite E in I'. apply inv_goto; cbn [set_kids s_pc]; rewrite ?Epc; done.
Qed.

Lemma inv_recv_var order vorder rorder s i m rest : inv order vorder rorder s -> s_pc s = PRecvVar i -> (i < CHILDS)%nat -> s_inbox s = m :: rest ->
  inv order vorder rorder (MkState (PRecvVar (S i)) (s_tot s) (s_mean s) (fadd (s_var s) (as_float bits_float m)) rest (s_kids s) (s_says s)).
Proof.
  intros I Epc Hi Em. destruct (inv_sums _ _ _ _ I) as [_ Hlo]; [by rewrite Epc|].
  destruct I as [I1 I2 I3 I4 I5 (I6 & I6' & I6'') I7 I8 I9 I10 I11 I12]. rewrite Epc in *. cbn [sums_in vars_in in_range] in *. destruct I1 as [Ht _].
  assert (forall n, drop (CHILDS + n) (sent order vorder) = drop n (map (fun i => WFloat (pvar i)) vorder)) as Ed.
  { intros n. unfold sent. rewrite drop_app_ge by (rewrite length_map; lia). f_equal. rewrite length_map. lia. }
  rewrite I7, Ed in Em. apply inbox_next in Em as (j & Hj & -> & -> & Et). pose proof (lookup_lt_Some _ _ _ Hj) as Hl.
  split; cbn [s_pc s_kids s_inbox s_tot s_mean s_var s_says]; try done.
  - cbn [vars_in as_float]. rewrite Et, I10. unfold added. by rewrite map_app, foldl_app.
Qed.

Lemma inv_var_end order vorder rorder s : inv order vorder rorder s -> s_pc s = PRecvVar CHILDS ->
  inv order vorder rorder (MkState (PWait 0) (s_tot s) (s_mean s) (fdiv (s_var s) (fofZ size)) (s_inbox s) (s_kids s) (s_says s)).
Proof.
  intros [I1 I2 I3 I4 I5 I6 I7 I8 I9 I10 I11 I12] Epc. rewrite Epc in *. destruct I1 as [Ht _]. assert ((type =? 1) = true) as Et by (by apply Z.eqb_eq).
  split; cbn [s_pc s_kids s_inbox s_tot s_mean s_var s_says]; cbn [vars_in] in *; rewrite ?Et; try done.
  - simpl. lia.
  - by rewrite I10.
Qed.

Lemma inv_wait order vorder rorder s i j k : inv order vorder rorder s -> s_pc s = PWait i -> (i < CHILDS)%nat ->
  s_kids s !! j = Some k -> k_pc k = KZombie ->
  inv order vorder (rorder ++ [j]) (set_pc (PWait (S i)) (set_kids (alter (goto KReaped) j (s_kids s)) s)).
Proof.
  intros [I1 I2 I3 I4 I5 (I6 & I6' & I6'') I7 I8 I9 I10 I11 I12] Epc Hi Hj Ek. rewrite Epc in *. rewrite (alter_at _ _ _ _ Hj).
  split; cbn [set_pc set_kids s_pc s_kids s_inbox s_tot s_mean s_var s_says]; try done.
  - by rewrite length_insert.
  - eapply tracks_keep; [done|done|]. by rewrite Ek.
  - eapply tracks_keep; [done|done|]. by rewrite Ek.
  - eapply tracks_add; [done|done|by rewrite Ek|done].
  - split_and!; [done|done|]. rewrite length_app, I6''. simpl. lia.
  - eapply kids_upd; [done|done|]. apply kid_goto; [by eapply I11|done..|by right].
Qed.

Lemma inv_print order vorder rorder s : inv order vorder rorder s -> s_pc s = PPrint ->
  inv order vorder rorder (set_pc PDone (if type =? 0 then say "Sum of array for file %s is %d\n" [AStr filename; AInt (s_tot s)] s
         else say "Variance of array for file %s is %d\n" [AStr filename; AInt (ftoi (s_var s))] s)).
Proof.
  intros [I1 I2 I3 I4 I5 I6 I7 I8 I9 I10 I11 I12] Epc. rewrite Epc in *.
  destruct (type =? 0) eqn:E0; (split; cbn [set_pc say s_pc s_kids s_inbox s_tot s_mean s_var s_says]; try done; rewrite I12, E0; by rewrite app_nil_r).
Qed.

Lemma inv_parent order vorder rorder s s' : inv order vorder rorder s -> parent_step bits_int bits_float ftoi type filename s = Some s' ->
  exists rorder', inv order vorder rorder' s'.
Proof.
  intros I Hs. pose proof (i_range _ _ _ _ I) as R. unfold parent_step in Hs. destruct (s_pc s) as [i|i|i|i|i| |] eqn:Epc; try done; cbn [in_range] in R;
    try (destruct (Nat.ltb_spec i CHILDS) as [Hi|Hi]); try (assert (i = CHILDS) as -> by lia).
  - injection Hs as <-. exists rorder. by apply inv_fork.
  - injection Hs as <-. exists rorder. apply inv_goto; rewrite ?Epc; try done. simpl. lia.
  - destruct (s_inbox s) as [|m rest] eqn:Em; [done|]. injection Hs as <-. exists rorder. by apply inv_recv.
  - injection Hs as <-. exists rorder. by apply inv_mean.
  - injection Hs as <-. exists rorder. by apply inv_multi.
  - injection Hs as <-. exists rorder. apply inv_goto; rewrite ?Epc; try done. split; [apply R|lia].
  - destruct (s_inbox s) as [|m rest] eqn:Em; [done|]. injection Hs as <-. exists rorder. by apply inv_recv_var.
  - injection Hs as <-. exists rorder. by apply inv_var_end.
  - destruct (list_find is_zombie (s_kids s)) as [[j k]|] eqn:Ef; [|done]. injection Hs as <-. apply list_find_Some in Ef as (Hj & Hz & _).
    exists (rorder ++ [j]). eapply inv_wait; [done|done|done|done|]. by apply Is_true_eq_true, bool_decide_eq_true in Hz.
  - injection Hs as <-. exists rorder. by apply inv_goto; rewrite ?Epc.
  - injection Hs as <-. exists rorder. by apply inv_print.
Qed.

Lemma inv_step order vorder rorder s s' : inv order vorder rorder s -> goes s s' -> exists order' vorder' rorder', inv order' vorder' rorder' s'.
Proof.
  intros I [w Hw]. destruct w as [|i|i]; cbn [Sumvar.step] in Hw.
  - destruct (inv_parent _ _ _ _ _ I Hw) as [r' I']. eauto.
  - destruct (s_kids s !! i) as [k|] eqn:Hk; [|done]. destruct (child_step bits_float type arr i k) as [[k' m]|] eqn:Hc; [|done]. injection Hw as <-.
    destruct (inv_child _ _ _ _ _ _ _ _ I Hk Hc) as (o & v & I'). by exists o, v, rorder.
  - destruct (s_kids s !! i) as [k|] eqn:Hk; [|done]. destruct (k_pending k) as [|m rest] eqn:Hp; [done|]. destruct (in_user (k_pc k)) eqn:Hu; [|done]. injection Hw as <-.
    pose proof (inv_deliver _ _ _ _ _ _ I Hk Hu) as I'. unfold upd in I'. rewrite app_nil_r in I'. by exists order, vorder, rorder.
Qed.

Lemma inv_reach s : rtc goes initial s -> exists order vorder rorder, inv order vorder rorder s.
Proof.
  revert s. apply (rtc_ind_r (fun s => exists order vorder rorder, inv order vorder rorder s)); [exists [], [], []; apply inv_initial|].
  intros s s' _ Hs (o & v & r & I). by eapply inv_step.
Qed.

(** ** Every run ends *)

Definition krank (pc : kpc) : nat :=
  match pc with KSum => 7 | KCheck => 6 | KPause => 5 | KSleep | KWake => 4 | KVar => 3 | KExit => 2 | KZombie => 1 | KReaped => 0 end.
Definition kweight (k : kid) : nat := krank (k_pc k) + length (k_pending k).
Definition prank (pc : ppc) : nat :=
  match pc with
  | PFork i => 31 + 8 * (CHILDS - i)
  | PRecv i => 25 + (CHILDS - i)
  | PMulti i => 14 + 2 * (CHILDS - i)
  | PRecvVar i => 8 + (CHILDS - i)
  | PWait i => 2 + (CHILDS - i)
  | PPrint => 1
  | PDone => 0
  end.
Definition weight (s : state) : nat := prank (s_pc s) + sum_list_with kweight (s_kids s).

Lemma weight_insert kids i k k' : kids !! i = Some k ->
  (sum_list_with kweight (<[i := k']> kids) + kweight k = sum_list_with kweight kids + kweight k')%nat.
Proof.
  revert i. induction kids as [|x kids IH]; intros [|i] H; simplify_eq/=; [lia|]. specialize (IH i H). lia.
Qed.

Lemma weight_alter kids i f n : (forall k, (kweight (f k) <= kweight k + n)%nat) ->
  (sum_list_with kweight (alter f i kids) <= sum_list_with kweight kids + n)%nat.
Proof.
  intros Hf. revert i. induction kids as [|x kids IH]; intros i; [destruct i; simpl; lia|].
  destruct i as [|i]; [change (alter f 0%nat (x :: kids)) with (f x :: kids); pose proof (Hf x)|change (alter f (S i) (x :: kids)) with (x :: alter f i kids); pose proof (IH i)]; cbn [sum_list_with]; lia.
Qed.

Lemma child_weight i k k' m : child_step bits_float type arr i k = Some (k', m) -> (kweight k' < kweight k)%nat.
Proof.
  unfold child_step, kweight, handler, goto. intros H. destruct k as [pc rc mn pn]. cbn [k_pc k_received k_mean k_pending] in *.
  destruct pc; try done; injection H as <- _; destruct pn as [|x pn], rc, (type =? 1); simpl; lia.
Qed.

Lemma parent_weight s s' : parent_step bits_int bits_float ftoi type filename s = Some s' -> (weight s' < weight s)%nat.
Proof.
  unfold parent_step, weight. intros H. destruct (s_pc s) as [i|i|i|i|i| |] eqn:Epc; try done;
    try (destruct (Nat.ltb_spec i CHILDS) as [Hi|Hi]); unfold CHILDS in *.
  - injection H as <-. cbn [set_pc set_kids s_pc s_kids]. rewrite sum_list_with_app. cbn [sum_list_with]. change (kweight (MkKid KSum false (fofZ 0) [])) with 7%nat. unfold prank, CHILDS. lia.
  - injection H as <-. cbn [set_pc s_pc s_kids prank]. unfold CHILDS. lia.
  - destruct (s_inbox s); [done|]. injection H as <-. cbn [set_pc s_pc s_kids prank]. unfold CHILDS. lia.
  - injection H as <-. cbn [s_pc s_kids]. destruct (type =? 1); cbn [prank]; unfold CHILDS; lia.
  - injection H as <-. cbn [set_pc set_kids s_pc s_kids]. pose proof (weight_alter (s_kids s) i (post (WFloat (s_mean s))) 1) as Hw.
    specialize (Hw ltac:(intros k; unfold post, kweight; cbn [k_pc k_pending]; rewrite length_app; destruct (k_pc k); simpl; lia)). cbn [prank]. unfold CHILDS. lia.
  - injection H as <-. cbn [set_pc s_pc s_kids prank]. unfold CHILDS. lia.
  - destruct (s_inbox s); [done|]. injection H as <-. cbn [set_pc s_pc s_kids prank]. unfold CHILDS. lia.
  - injection H as <-. cbn [set_pc s_pc s_kids prank]. unfold CHILDS. lia.
  - destruct (list_find is_zombie (s_kids s)) as [[j k]|]; [|done]. injection H as <-. cbn [set_pc set_kids s_pc s_kids].
    pose proof (weight_alter (s_kids s) j (goto KReaped) 0) as Hw.
    specialize (Hw ltac:(intros x; unfold goto, kweight; cbn [k_pc k_pending]; simpl; lia)). cbn [prank]. unfold CHILDS. lia.
  - injection H as <-. cbn [set_pc s_pc s_kids prank]. unfold CHILDS. lia.
  - injection H as <-. destruct (type =? 0); simpl; lia.
Qed.

Lemma step_weight s s' : goes s s' -> (weight s' < weight s)%nat.
Proof.
  intros [w Hw]. destruct w as [|i|i]; cbn [Sumvar.step] in Hw; [by apply parent_weight|..]; destruct (s_kids s !! i) as [k|] eqn:Hk; try done.
  - destruct (child_step bits_float type arr i k) as [[k' m]|] eqn:Hc; [|done]. injection Hw as <-. apply child_weight in Hc.
    pose proof (weight_insert _ _ _ k' Hk). unfold weight. simpl. lia.
  - destruct (k_pending k) as [|m rest] eqn:Hp; [done|]. destruct (in_user (k_pc k)); [|done]. injection Hw as <-.
    pose proof (weight_insert _ _ _ (handler bits_float k) Hk) as E. unfold weight. cbn [set_kids s_pc s_kids].
    assert (kweight (handler bits_float k) < kweight k)%nat by (unfold handler, kweight; rewrite Hp; simpl; lia). lia.
Qed.

Lemma run_short n s : nsteps goes n initial s -> (n <= 71)%nat.
Proof.
  intros H. assert (forall s0, nsteps goes n s0 s -> n + weight s <= weight s0)%nat as E.
  { clear H. induction n as [|n IH]; intros s0 H; inversion_clear H as [|? ? y ? H1 H2]; [lia|]. apply step_weight in H1. apply IH in H2. lia. }
  apply E in H. unfold weight in H. simpl in H. unfold CHILDS in H. lia.
Qed.

(** ** A run for the sum does not get stuck *)

Lemma sum_progress order vorder rorder s : type <> 1 -> inv order vorder rorder s -> s_pc s = PDone \/ exists s', goes s s'.
Proof.
  intros Ht I. destruct (decide (Forall (fun k => k_pc k = KZombie \/ k_pc k = KReaped) (s_kids s))) as [Hall|Hn].
  - rewrite Forall_lookup in Hall. pose proof (i_forks _ _ _ _ I) as Hf. destruct (i_in _ _ _ _ I) as (Hsi & _ & Hwa).
    destruct (parent_step bits_int bits_float ftoi type filename s) as [s'|] eqn:Es; [right; by exists s', Parent|]. left.
    unfold parent_step in Es. destruct (s_pc s) as [i|i|i|i|i| |] eqn:Epc; try done; destruct (Nat.ltb_spec i CHILDS) as [Hi|Hi]; try done; exfalso.
    + destruct (s_inbox s) eqn:Ei; [|done]. rewrite (i_inbox _ _ _ _ I), Epc in Ei. cbn [sums_in vars_in] in Ei. apply (f_equal length) in Ei.
      rewrite length_drop in Ei. unfold sent in Ei. rewrite length_app, !length_map in Ei. simpl in Ei, Hf.
      pose proof (tracks_all _ _ _ (i_order _ _ _ _ I)) as Ho. rewrite Ho in Ei; [lia|]. intros j k Hk. by destruct (Hall j k Hk) as [->| ->].
    + pose proof (i_range _ _ _ _ I) as R. rewrite Epc in R. by destruct R.
    + destruct (list_find is_zombie (s_kids s)) as [[j k]|] eqn:Ef; [done|]. apply list_find_None in Ef. rewrite Forall_lookup in Ef.
      pose proof (tracks_all _ _ _ (i_rorder _ _ _ _ I)) as Ho. rewrite Hwa, Hf in Ho. simpl in Ho. rewrite Ho in Hi; [lia|].
      intros j k Hk. destruct (Hall j k Hk) as [Ez|Er]; [|by rewrite Er]. destruct (Ef j k Hk). unfold is_zombie. by rewrite bool_decide_true.
  - right. apply not_Forall_Exists in Hn; [|intros ?; apply _]. apply Exists_exists in Hn as (k & Hk & Hnz). apply list_elem_of_lookup in Hk as [i Hk].
    destruct (child_step bits_float type arr i k) as [[k' m]|] eqn:Hc.
    + eexists. exists (Child i). cbn [Sumvar.step]. rewrite Hk, Hc. done.
    + exfalso. unfold child_step in Hc. destruct (ko_type _ _ (i_kids _ _ _ _ I _ _ Hk) Ht) as [E|E]; destruct (k_pc k) eqn:Ek; try done; apply Hnz; auto.
Qed.

(** What a finished run has printed. *)
Lemma done_sum order vorder rorder s : inv order vorder rorder s -> s_pc s = PDone -> s_tot s = sumZ arr /\ Forall (fun k => k_pc k = KReaped) (s_kids s).
Proof.
  intros I Epc. destruct (inv_sums _ _ _ _ I) as [Hp Hl]; [by rewrite Epc|]. split.
  - rewrite (i_tot _ _ _ _ I), Epc. cbn [sums_in]. rewrite take_ge by lia. by apply sums_total.
  - apply Forall_lookup. intros i k Hk. destruct (i_in _ _ _ _ I) as (_ & _ & Hw). pose proof (i_forks _ _ _ _ I) as Hf. rewrite Epc in Hw, Hf. simpl in Hw, Hf.
    assert (i ∈ rorder) as Hi.
    { rewrite (tracks_full _ _ _ (i_rorder _ _ _ _ I)) by lia. apply elem_of_seq. pose proof (lookup_lt_Some _ _ _ Hk). lia. }
    apply (i_rorder _ _ _ _ I) in Hi as (x & Hx & Hr). rewrite Hk in Hx. injection Hx as <-. by destruct (k_pc k).
Qed.

Lemma done_variance order vorder rorder s : type = 1 -> inv order vorder rorder s -> s_pc s = PDone ->
  vorder ≡ₚ seq 0 CHILDS /\ s_var s = fdiv (added vorder) (fofZ size).
Proof.
  intros Ht I Epc. destruct (i_in _ _ _ _ I) as (_ & Hv & _). pose proof (i_forks _ _ _ _ I) as Hf. rewrite Epc in Hv, Hf. cbn [vars_in forks] in Hv, Hf. rewrite Ht in Hv.
  cbn [Z.eqb Pos.eqb] in Hv. pose proof (tracks_length _ _ _ (i_vorder _ _ _ _ I)) as Hl. split.
  - rewrite <- Hf. apply (tracks_full varied); [apply I|lia].
  - rewrite (i_var _ _ _ _ I), Epc, Ht. cbn [Z.eqb Pos.eqb]. by rewrite take_ge by lia.
Qed.
End invariant.

(** ** Properties *)

Section properties.
Context {F : Type} {FO : FloatOps F} (bits_int : F -> Z) (bits_float : Z -> F) (ftoi : F -> Z).

Lemma setup_array argv c file type filename arr : setup argv c file = Some (type, filename, arr) -> length arr = Z.to_nat size /\ Forall small arr.
Proof.
  unfold setup. destruct argv as [|a0 [|a1 [|a2 argv]]]; try done. set (l := load _ _ _). intros [= _ _ <-]. unfold l.
  split; [apply load_length|apply load_small].
Qed.

(** C9: whatever the interleaving of the parent and its children, a run for the
    sum takes at most 71 steps, goes on as long as the parent has not finished,
    and ends with every child reaped and the sum of the array printed. *)
Theorem assig1_8_sum argv c file filename arr n s : setup argv c file = Some (0, filename, arr) ->
  nsteps (goes bits_int bits_float ftoi 0 filename arr) n (initial 0 filename arr) s ->
  (n <= 71)%nat /\
  (s_pc s <> PDone -> exists s', goes bits_int bits_float ftoi 0 filename arr s s') /\
  (s_pc s = PDone -> Forall (fun k => k_pc k = KReaped) (s_kids s) /\
     last (s_says s) = Some ("Sum of array for file %s is %d\n", [AStr filename; AInt (sumZ arr)])).
Proof.
  intros Hs Hr. destruct (setup_array _ _ _ _ _ _ Hs) as [Hl Hsm].
  destruct (inv_reach bits_int bits_float ftoi 0 filename arr Hl Hsm s) as (o & v & r & I); [by eapply rtc_nsteps_2|].
  split; [by eapply run_short|]. split; [|intros Hd].
  - intros Hd. by destruct (sum_progress bits_int bits_float ftoi 0 filename arr Hl o v r s).
  - destruct (done_sum ftoi 0 filename arr Hl Hsm o v r s I Hd) as [Et Ha]. split; [done|]. rewrite (i_says _ _ _ _ _ _ _ _ I), Hd, Et. apply last_snoc.
Qed.

(** A run for the variance that finishes prints the sum of the children's
    parts around the mean, in the order in which they arrived, over the size. *)
Theorem assig1_8_variance argv c file filename arr s : setup argv c file = Some (1, filename, arr) ->
  rtc (goes bits_int bits_float ftoi 1 filename arr) (initial 1 filename arr) s -> s_pc s = PDone ->
  exists order, order ≡ₚ seq 0 CHILDS /\
    last (s_says s) = Some ("Variance of array for file %s is %d\n", [AStr filename; AInt (ftoi (fdiv (added arr order) (fofZ size)))]).
Proof.
  intros Hs Hr Hd. destruct (setup_array _ _ _ _ _ _ Hs) as [Hl Hsm].
  destruct (inv_reach bits_int bits_float ftoi 1 filename arr Hl Hsm s) as (o & v & r & I); [done|].
  destruct (done_variance ftoi 1 filename arr Hl o v r s eq_refl I Hd) as [Hp Ev]. exists v. split; [done|].
  rewrite (i_says _ _ _ _ _ _ _ _ I), Hd, Ev. apply last_snoc.
Qed.

(** A schedule, run. *)
Fixpoint run (type : Z) (filename arr : list Z) (sched : list who) (s : @state F) : option state :=
  match sched with
  | [] => Some s
  | w :: sched => match step bits_int bits_float ftoi type filename arr w s with Some s => run type filename arr sched s | None => None end
  end.

Lemma run_nsteps type filename arr sched : forall s s', run type filename arr sched s = Some s' ->
  nsteps (goes bits_int bits_float ftoi type filename arr) (length sched) s s'.
Proof.
  induction sched as [|w sched IH]; intros s s' H; cbn [run] in H; [injection H as <-; constructor|].
  destruct (step bits_int bits_float ftoi type filename arr w s) as [s1|] eqn:E; [|done]. econstructor; [by exists w|by apply IH].
Qed.

(** Child 4 finds [sreceived] zero; the mean is sent and its handler runs before
    it calls [sig_pause]. *)
Definition race : list who :=
  replicate 6 Parent ++ map Child [0; 1; 2; 3; 4]%nat ++ [Child 4%nat] ++ flat_map (fun i => [Child i; Child i]) [0; 1; 2; 3]%nat ++
  replicate 12 Parent ++ [Deliver 4; Child 4]%nat ++ flat_map (fun i => [Child i; Child i; Child i]) [0; 1; 2; 3]%nat ++ replicate 4 Parent.

Definition stuck (s : @state F) : bool :=
  bool_decide (s_pc s = PRecvVar 4) && bool_decide (length (s_inbox s) = 0%nat) &&
  bool_decide (map (fun k => (k_pc k, length (k_pending k))) (s_kids s) = replicate 4 (KZombie, 0%nat) ++ [(KSleep, 0%nat)]).

Lemma stuck_stops type filename arr s s' : stuck s = true -> goes bits_int bits_float ftoi type filename arr s s' -> False.
Proof.
  unfold stuck. rewrite !andb_true_iff, !bool_decide_eq_true. intros [[Hpc Hin] Hk] [w Hw].
  assert (forall i k, s_kids s !! i = Some k -> (k_pc k = KZombie \/ k_pc k = KSleep) /\ k_pending k = []) as Hall.
  { intros i k Hi. assert ((k_pc k, length (k_pending k)) ∈ replicate 4 (KZombie, 0%nat) ++ [(KSleep, 0%nat)]) as Hin'.
    { rewrite <- Hk. apply (list_elem_of_fmap_2 (fun k => (k_pc k, length (k_pending k)))). by eapply list_elem_of_lookup_2. }
    apply elem_of_app in Hin' as [H|H]; [apply elem_of_replicate in H as [H _]|apply list_elem_of_singleton in H]; injection H as E1 E2;
      (split; [auto|by apply nil_length_inv]). }
  destruct w as [|i|i]; cbn [step] in Hw.
  - unfold parent_step in Hw. rewrite Hpc in Hw. by rewrite (nil_length_inv _ Hin) in Hw.
  - destruct (s_kids s !! i) as [k|] eqn:Hi; [|done]. destruct (Hall _ _ Hi) as [[E|E] _]; unfold child_step in Hw; by rewrite E in Hw.
  - destruct (s_kids s !! i) as [k|] eqn:Hi; [|done]. destruct (Hall _ _ Hi) as [_ E]. by rewrite E in Hw.
Qed.

(** For the variance there is a run that never ends: when the signal with the
    mean is handled between a child's test of [sreceived] and its call of
    [sig_pause], the child sleeps for ever and the parent waits for its part. *)
Theorem assig1_8_lost_signal filename arr : exists s,
  rtc (goes bits_int bits_float ftoi 1 filename arr) (initial 1 filename arr) s /\ s_pc s = PRecvVar 4 /\
  forall s', ~ goes bits_int bits_float ftoi 1 filename arr s s'.
Proof.
  assert (exists s, run 1 filename arr race (initial 1 filename arr) = Some s /\ stuck s = true) as (s & Hr & Hs).
  { eexists. split; [cbv -[partial_sum partial_variance i32 Z.add nthZ fofZ fadd fdiv]; reflexivity|reflexivity]. }
  exists s. split; [eapply rtc_nsteps_2; by apply run_nsteps with (sched := race)|]. split.
  - unfold stuck in Hs. rewrite !andb_true_iff, !bool_decide_eq_true in Hs. apply Hs.
  - intros s' Hg. by eapply stuck_stops.
Qed.
End properties.

(** Runs in single precision. *)
Definition digits : list Z := flat_map (fun d => replicate 100 d) (seqZ 0 10).
Definition digits_file : list Z := flat_map (fun d => [48 + d; 10]) digits.
Definition args (type : string) : list (list Z) := [bytes "assig1_8"; bytes type; bytes "arr"].
Definition no_int (f : spec_float) : Z := 0.
Definition no_float (z : Z) : spec_float := S754_zero false.

Definition sum_run : list who :=
  replicate 6 Parent ++ map Child [2; 0; 4; 1; 3]%nat ++ replicate 6 Parent ++ map Child [0; 1; 2; 3; 4]%nat ++ replicate 7 Parent.
Definition variance_run : list who :=
  replicate 6 Parent ++ map Child [2; 0; 4; 1; 3]%nat ++ map Child [0; 1; 2; 0; 1]%nat ++ replicate 12 Parent ++
  [Deliver 3; Child 3; Child 4]%nat ++ map Child [0; 1; 2; 4; 0; 1; 2; 3; 4]%nat ++ map Child [0; 1; 2; 3; 4]%nat ++ replicate 13 Parent.

Abbreviation runs type := (run no_int no_float no_int type (bytes "arr") digits).
Abbreviation started type := (initial type (bytes "arr") digits).

Lemma digits_setup : setup (args "0") 0 digits_file = Some (0, bytes "arr", digits) /\ setup (args "1") 0 digits_file = Some (1, bytes "arr", digits).
Proof. by vm_compute. Qed.

Lemma run_sum : exists s, runs 0 sum_run (started 0) = Some s /\ s_pc s = PDone.
Proof. eexists. split; [vm_compute; reflexivity|done]. Qed.

Lemma run_variance : exists s, runs 1 variance_run (started 1) = Some s /\ s_pc s = PDone.
Proof. eexists. split; [vm_compute; reflexivity|done]. Qed.

Lemma assig1_8_sum_witness : exists s, runs 0 sum_run (started 0) = Some s /\
  last (s_says s) = Some ("Sum of array for file %s is %d\n", [AStr (bytes "arr"); AInt 4500]).
Proof.
  destruct run_sum as (s & Hr & Hd). exists s. split; [exact Hr|].
  destruct (assig1_8_sum no_int no_float no_int (args "0") 0 digits_file (bytes "arr") digits (length sum_run) s) as (_ & _ & H);
    [apply digits_setup|by apply run_nsteps|]. exact (proj2 (H Hd)).
Defined.

Lemma assig1_8_variance_witness : exists s order, runs 1 variance_run (started 1) = Some s /\ order ≡ₚ seq 0 CHILDS /\
  last (s_says s) = Some ("Variance of array for file %s is %d\n", [AStr (bytes "arr"); AInt (no_int (fdiv (added digits order) (fofZ size)))]).
Proof.
  destruct run_variance as (s & Hr & Hd). exists s.
  destruct (assig1_8_variance no_int no_float no_int (args "1") 0 digits_file (bytes "arr") digits s) as (order & Hp & H);
    [apply digits_setup|eapply rtc_nsteps_2, run_nsteps, Hr|exact Hd|]. exists order. split; [exact Hr|]. split; [exact Hp|exact H].
Defined.
